(* ===== verification/_CoqProject ===== *)
-Q . S2P
Prelude.v
Csv.v
CsvSpec.v
CsvRoundtrip.v
Delta.v
DeltaSpec.v
Bag.v
BagSpec.v
PQueue.v
Encode.v
EncodeSpec.v
Blob.v
BlobSpec.v
Diff.v
DiffSpec.v
DiffScript.v
Merge3.v
Merge3Spec.v
BlobLines.v
Blocks.v
Md5.v
Md5Spec.v
Sha1.v
Sha1Spec.v
DiffOut.v
DiffOutSpec.v
Sheet.v
SheetSpec.v
CsvFile.v
CsvFileSpec.v
Viterbi.v
ViterbiSpec.v
Sniffer.v
SnifferSpec.v
Mover.v
MoverSpec.v
SheetHash.v
OrderMerge.v
OrderMergeSpec.v
Measure.v
RowMan.v
MeasureMan.v
SheetCompare.v
MeasureSpec.v
MeasureManSpec.v
RowManSpec.v
SheetCompareSpec.v
Merger.v
MergerSpec.v
SheetPatcher.v
SheetPatcherSpec.v
PatchRoundtrip.v
FormatSniffer.v
CsvDiff.v
CsvPatch.v
CsvPatchSpec.v
CsvColumns.v
CsvTrip.v
Manifest.v
ManifestSpec.v
ManifestSum.v
Mlink.v
MlinkSpec.v
Artifact.v
ArtifactSpec.v
ArtifactTrip.v
