(* ===== verification/Prelude.v ===== *)
(** * COOPY: verification of the core of the toolbox

    COOPY compares, patches and merges tables, and keeps them in repositories of
    its own build of Fossil.  This library models the parts of the program that
    carry that work and proves what makes them correct.  Paths below are relative
    to [src/src/].

    ** The program and its parts

    - [libcsv/] parses and writes CSV text.  [libcoopy_core/CsvRead.cpp] drives it
      to fill a sheet; [DataSheet::encode] and [SheetStyle] write one.
    - [libcoopy_core/] holds the tables ([TypedSheet], [CsvSheet],
      [SparseSheet]), the search for the rows and columns of tables that correspond
      ([SheetCompare], [MeasureMan], with the measures [RowMan] and [ColMan] and the
      lattice [Viterbi]), the order of what is found ([OrderMerge]), the comparison
      itself ([Merger], with [Mover] for columns that change places)
      and its outputs: [SheetPatcher] applies the changes to a sheet,
      [MergeOutputCsvDiff] writes them as text.  [NameSniffer] and [IndexSniffer]
      find the names of the columns and the ones that identify a row,
      [FormatSniffer] the format of a text.
    - [libcoopy_full/PatchParser.cpp] reads the text of changes and makes the calls
      of a patcher that it stands for.
    - [ssfossil/fossil/src/] stores artifacts: growable buffers ([blob.c]), deltas
      ([delta.c]), digests ([md5.c], [sha1.c]), encodings ([encode.c]), line
      differences and merges ([diff.c], [merge3.c]), the sets and queues the graph
      walks use ([bag.c], [pqueue.c]), and the control artifacts that describe
      check-ins, tags, tickets and pages ([manifest.c]).

    ** Files

    A model and its theorems are in separate files where the proofs are long.

    - [Prelude]: faults and results, machine integers, arrays, vectors, lists, and
      the tactics [res_inv] and [dlia].
    - [Csv] models [libcsv.c] and [csv.h]; [CsvSpec] and [CsvRoundtrip] are about
      it.  [CsvFile] models [SheetStyle.cpp], the CSV part of [DataSheet.cpp] and
      [CsvRead.cpp]; [CsvFileSpec] is about it.
    - [Sheet] models [TypedSheet.h] and [CsvSheet.h]; [SheetSpec] is about it.
      [SheetHash] models [Sha1Generator.cpp] and [DataSheet::getHash].
    - [Viterbi] models [SparseSheet.h] and [Viterbi.cpp], [Mover] models
      [Mover.cpp], [OrderMerge] models [OrderMerge.cpp] and [OrderResult.h], with
      [ViterbiSpec], [MoverSpec] and [OrderMergeSpec].
    - [Measure] models [MeasurePass.h] and the interface [Measure.h], [RowMan]
      the features and measures ([FVal.h], [FMap.h], [RowMan.h], [ColMan.cpp]),
      [MeasureMan] models [MeasureMan.cpp], and [SheetCompare] the mapping of
      rows and columns of [SheetCompare.cpp].  [MeasureSpec] states what a
      measure promises (the class [MeasureLaws]), [MeasureManSpec] is about any
      measure that does, [RowManSpec] shows that the two of the program do, and
      [SheetCompareSpec] puts them together.
    - [Merger] models [Merger.cpp] and the changes of [Patcher.h], [SheetPatcher]
      models [SheetPatcher.cpp]; [MergerSpec] and [SheetPatcherSpec] are about
      them, [PatchRoundtrip] is about both together.
    - [Sniffer] models [NameSniffer.cpp], [IndexSniffer.cpp] and the column names of
      [Stringer.cpp], [SnifferSpec] is about it.  [FormatSniffer] models
      [FormatSniffer.cpp] and [Reader.cpp].
    - [CsvDiff] models [MergeOutputCsvDiff.cpp], [CsvPatch] the part of
      [PatchParser.cpp] that reads what it writes.  [CsvPatchSpec] is about the
      records of rows, [CsvColumns] about those of columns, and [CsvTrip] puts the
      comparison, the text and the patcher together.
    - [Delta] and [DeltaSpec] ([delta.c]), [Bag] and [BagSpec] ([bag.c]), [PQueue]
      ([pqueue.c]), [Encode] and [EncodeSpec] ([encode.c]), [Blob], [BlobSpec] and
      [BlobLines] ([blob.c]), [Diff], [DiffSpec], [DiffScript], [DiffOut] and
      [DiffOutSpec] ([diff.c]), [Merge3] and [Merge3Spec] ([merge3.c], and
      [csv_merge] of [ssfossil/src/csv_hooks.cpp]), [Blocks]
      (what the digests share), [Md5] and [Md5Spec] ([md5.c]), [Sha1] and
      [Sha1Spec] ([sha1.c]).
    - [Manifest] models the parser of control artifacts ([manifest.c], with
      functions of [file.c] and [wiki.c]); [ManifestSpec] and [ManifestSum] are
      about it.  [Mlink] models the links between the files of two check-ins;
      [MlinkSpec] is about them.  [Artifact] models the code that writes artifacts
      ([checkin.c], [xfer.c], [wiki.c], [tag.c], [attach.c], [tkt.c], [db.c]);
      [ArtifactSpec] is about the cards, [ArtifactTrip] about writing and reading.

    ** How code becomes definitions

    A function of the source is a function of the same name.  One that can go
    wrong returns a [result]: a value, or the [fault] that the execution runs into
    (an access outside an object, a signed overflow, a failed assertion, the end
    of the program).  State is passed explicitly, as the record that the source
    has: the parser, the buffers and the heap they point into, the lattice, the
    patcher.  Unsigned arithmetic wraps ([u8] to [u64]); signed arithmetic is
    checked ([i32]) where the code can reach its limits, and a length that the
    code keeps in an [int] or an [unsigned] is converted ([to_int], [u32]).
    Characters are numbers below 256, texts are lists of them, and a C string is
    the list of the characters before its terminator.

    Code outside the repository is an argument: [realloc], [fputc], zlib, the
    dates of SQLite and [log].  So are the reading, merging and writing of CSV
    books that [csv_merge] ([csv_hooks.cpp]) calls, which the repository has and
    the model does not: what is shown of [blob_merge] holds for any of them.
    Floats and doubles are the specification floats of the Standard Library in
    [PQueue] and [Measure]; the costs of [Viterbi] are any type with an addition
    and a comparison, ordered and monotone where a path is said to be cheapest.

    ** What is shown

    - CSV: [csv_parse] stays inside its buffer, refines an automaton without one,
      and does not depend on how the input is cut; the writers write the quoted
      field; a table written and parsed, and a sheet encoded and read, come back.
    - Sheets: the operations keep a sheet rectangular, and a move puts a row or a
      column where it says.  A fingerprint is the SHA-1 of the serialized cells.
    - Comparing: the lattice finds a cheapest path; rows and columns are matched
      without a fault and one to one, whatever the rounding of the numbers, and
      a sheet that does not differ is matched row by row; the merge of two
      orders has every local row or column in one unit and every remote one in
      at most one (in none only if its pivot is gone from the local sheet); the
      search for moves ends with a plan that works; the column changes form a
      chain of single edits; the change of a row, laid over the local row, gives
      the remote row; and for sheets whose rows correspond in their order, with
      at most one column that moves and no remote row equal to a later local
      one, the changes of a comparison, applied by a patcher to the local sheet,
      give the remote sheet, also when they are written as text and read back in
      between.  The names that are found for the columns are distinct, one for
      each column.
    - Storage: a delta restores its target and is not much longer than it; a
      text applied as a delta stays inside source and buffer when its numbers
      are below 2^31, and can leave them when they make the 32-bit guards wrap;
      every encoding is undone by its decoder within its block; appending to a
      blob changes only the memory it owns; digests are those of RFC 1321, with
      the constants computed from the sine, and of FIPS 180-1; the script of
      [text_diff] turns one file into the other, its unified output is a patch,
      and the three-way merge is one of lines, with its conflicts counted,
      except where the code reads one element after an array that it may not
      have; bags and queues keep their invariants.
    - Artifacts: the parser ends on any content, accepts only well-formed
      artifacts with the cards of their type, and checks the sum of the text; the
      links between two check-ins are their edits, renames, additions and
      deletions; a check-in, a cluster and a wiki page that are written are read
      back as they were.

    Where the code does something else than it means to, a lemma shows it on an
    input: for instance [BagSpec.bag_insert_duplicates],
    [ViterbiSpec.viterbi_reset_stale], [MergerSpec.moves_misplace_columns] and
    the last sections of [SheetCompareSpec], [PatchRoundtrip], [CsvTrip],
    [ManifestSum], [MlinkSpec] and [ArtifactTrip].

    ** Bounds

    A loop that is not structural takes a number of iterations and ends in
    [OutOfFuel] when it is used up.  The callers pass a number that the theorems
    show to be enough, so that they say that the code returns: the size of the
    table for a probe, the length of the text or of the script for a scan, 64
    for a size that is halved, the number of elements for the depth of the
    search for moves, the length of the source for the rounds of [OrderMerge] (a
    round accepts a unit or is the last), three for the repetitions of
    [MeasureMan::compare1] (each gives a bit to a unit, and the fourth ends
    them), and the number of names for a fresh name.  Where the code does not
    end, [OutOfFuel] for every number says so ([DeltaSpec.digit_count_diverges],
    [BagSpec.bag_insert_duplicates]).

    ** What is not modelled

    - The comparison of sheets by a database or by [CombinedCompare], and the
      wrapping of sheets in [SheetCompare::compare]: the model starts from the
      views of the sheets, and its orders are the arguments of [OrderMerge] and
      [Merger].
    - The other outputs of a comparison and the other formats of patches,
      descriptions and conflict marks of [SheetPatcher], schemas, pools and links
      between tables.
    - The CSV books behind [csv_merge], and the other hooks of [csv_hooks.cpp].
    - Files, sockets, databases, web pages, the command line and the graphical
      front end, the adapters to spreadsheet formats: these are effects on or glue
      to code outside the repository.
    - Vendored and generated code ([sqlite3.c], [libcoopyhx], [jsoncpp]). *)

From stdpp Require Export base list list_numbers numbers option.
From Stdlib Require Export ZArith Lia.
From Stdlib Require Ascii String.
Export String.StringSyntax.
Delimit Scope string_scope with string.

#[export] Set Default Goal Selector "!".
#[global] Open Scope Z_scope.

(** ** Faults and results *)

(** What a C execution can do instead of returning a value: an access
    outside an object, a signed overflow, a failed [assert], ending the program
    with [exit], or, for a loop run with a bounded number of iterations, the
    bound being used up. *)
Inductive fault : Set :=
| OutOfBounds
| IntOverflow
| AssertFailed
| Exited
| OutOfFuel.

Inductive result (A : Type) : Type :=
| Ok (a : A)
| Fault (f : fault).
Arguments Ok {A} a.
Arguments Fault {A} f.

#[export] Instance fault_eq_dec : EqDecision fault.
Proof. solve_decision. Defined.
#[export] Instance result_ret : MRet result := fun A a => Ok a.
#[export] Instance result_bind : MBind result := fun A B f m =>
  match m with Ok a => f a | Fault e => Fault e end.

(** [bind_inv] turns [(x ← c; k x) = Ok v] into the intermediate value. *)
Lemma bind_Ok_inv {A B} (m : result A) (f : A -> result B) (b : B) :
  (m ≫= f) = Ok b -> exists a, m = Ok a /\ f a = Ok b.
Proof. destruct m as [a|e]; simpl; [eauto|done]. Qed.

Lemma bind_Ok {A B} (a : A) (f : A -> result B) : (Ok a ≫= f) = f a.
Proof. done. Qed.

(** A run-time check written by the programmer or implied by the language. *)
Definition check (b : bool) (e : fault) : result unit := if b then Ok tt else Fault e.

Lemma check_true (b : bool) e : b = true -> check b e = Ok tt.
Proof. by intros ->. Qed.

Ltac res_inv :=
  repeat match goal with
  | H : (_ ≫= _) = Ok _ |- _ =>
      let x := fresh "x" in let Hx := fresh "Hx" in
      apply bind_Ok_inv in H as (x & Hx & H)
  | H : Ok _ = Ok _ |- _ => injection H as H; subst
  | H : mret _ = Ok _ |- _ => injection H as H; subst
  | H : Fault _ = Ok _ |- _ => discriminate H
  | H : Ok _ = Fault _ |- _ => discriminate H
  | H : check ?b _ = Ok _ |- _ => destruct b eqn:?; simpl in H; [clear H|discriminate H]
  end.

(** [lia] with the defining equations of [/] and [mod] by numerals. *)
Ltac dlia := Z.div_mod_to_equations; lia.

(** ** Machine integers *)

Definition u8 (z : Z) : Z := z mod 2^8.
Definition u16 (z : Z) : Z := z mod 2^16.
Definition u32 (z : Z) : Z := z mod 2^32.
Definition u64 (z : Z) : Z := z mod 2^64.
#[global] Arguments u8 z : simpl never.
#[global] Arguments u16 z : simpl never.
#[global] Arguments u32 z : simpl never.
#[global] Arguments u64 z : simpl never.
(** A plain [char] is signed on the platforms the program targets: the value
    of byte [c] when it is read through [char]. *)
Definition schar (c : Z) : Z := if c <? 128 then c else c - 256.
Definition INT_MAX : Z := 2^31 - 1.
Definition INT_MIN : Z := - 2^31.
Definition SIZE_MAX : Z := 2^64 - 1.
Definition in_i32 (z : Z) : bool := (INT_MIN <=? z) && (z <=? INT_MAX).
(** The value of a signed [int] expression whose exact value is [z]. *)
Definition i32 (z : Z) : result Z := if in_i32 z then Ok z else Fault IntOverflow.
(** The conversion of an integer of any type to [int] keeps the low 32 bits. *)
Definition to_int (v : Z) : Z := if u32 v <? 2^31 then u32 v else u32 v - 2^32.

#[global] Arguments INT_MAX : simpl never.
#[global] Arguments INT_MIN : simpl never.
#[global] Arguments to_int v : simpl never.
#[global] Arguments SIZE_MAX : simpl never.

Definition byte (c : Z) : Prop := 0 <= c < 256.
Abbreviation bytes := (Forall byte).

Lemma i32_ok z : INT_MIN <= z <= INT_MAX -> i32 z = Ok z.
Proof.
  intros [? ?]. unfold i32, in_i32.
  rewrite (proj2 (Z.leb_le _ _)), (proj2 (Z.leb_le _ _)) by lia. done.
Qed.

Lemma u32_small z : 0 <= z < 2^32 -> u32 z = z.
Proof. apply Z.mod_small. Qed.
Lemma to_int_small v : 0 <= v < 2^31 -> to_int v = v.
Proof. intros H. unfold to_int. rewrite u32_small by lia. by rewrite (proj2 (Z.ltb_lt _ _)) by lia. Qed.
Lemma u32_range z : 0 <= u32 z < 2^32.
Proof. apply Z.mod_pos_bound. lia. Qed.
Lemma u16_range z : 0 <= u16 z < 2^16.
Proof. apply Z.mod_pos_bound. lia. Qed.
Lemma u64_small z : 0 <= z < 2^64 -> u64 z = z.
Proof. apply Z.mod_small. Qed.

(** ** Arrays indexed by C integers *)

Abbreviation Zlen l := (Z.of_nat (length l)).

Definition rd {A} (a : list A) (i : Z) : result A :=
  if i <? 0 then Fault OutOfBounds
  else match a !! Z.to_nat i with Some x => Ok x | None => Fault OutOfBounds end.

Definition wr {A} (a : list A) (i : Z) (x : A) : result (list A) :=
  if (0 <=? i) && (i <? Zlen a) then Ok (<[Z.to_nat i := x]> a) else Fault OutOfBounds.

Lemma rd_ok {A} (a : list A) (i : Z) (x : A) :
  0 <= i -> a !! Z.to_nat i = Some x -> rd a i = Ok x.
Proof. intros Hi Hx. unfold rd. by rewrite (proj2 (Z.ltb_ge i 0)), Hx. Qed.

Lemma rd_Ok_inv {A} (a : list A) (i : Z) (x : A) :
  rd a i = Ok x -> 0 <= i < Zlen a /\ a !! Z.to_nat i = Some x.
Proof.
  unfold rd. destruct (Z.ltb_spec i 0); [done|].
  destruct (a !! Z.to_nat i) as [y|] eqn:E; [|done].
  intros [= <-]. split; [|done]. apply lookup_lt_Some in E. lia.
Qed.

Lemma wr_ok {A} (a : list A) (i : Z) (x : A) :
  0 <= i < Zlen a -> wr a i x = Ok (<[Z.to_nat i := x]> a).
Proof.
  intros [? ?]. unfold wr.
  by rewrite (proj2 (Z.leb_le 0 i)), (proj2 (Z.ltb_lt i _)) by lia.
Qed.

Lemma wr_Ok_inv {A} (a b : list A) (i : Z) (x : A) :
  wr a i x = Ok b -> 0 <= i < Zlen a /\ b = <[Z.to_nat i := x]> a.
Proof.
  unfold wr. destruct (Z.leb_spec 0 i), (Z.ltb_spec i (Zlen a)); simpl; try done.
  intros [= <-]. auto with lia.
Qed.

(** A NUL-terminated string held as the list of the bytes before the
    terminator: reading the index of the terminator gives 0. *)
Definition cget (z : list Z) (i : Z) : Z := if i <? 0 then 0 else nth (Z.to_nat i) z 0.

(** ** Lists *)

Lemma take_snoc_insert {A} (l : list A) (i : nat) (x : A) :
  (i < length l)%nat -> take (S i) (<[i := x]> l) = take i l ++ [x].
Proof.
  intros Hi. rewrite (take_S_r _ _ x) by (by apply list_lookup_insert_eq).
  by rewrite take_insert_ge by lia.
Qed.

Lemma filter_all {A} (P : A -> Prop) `{forall x, Decision (P x)} (l : list A) :
  Forall P l -> filter P l = l.
Proof. induction 1 as [|x l Hx _ IH]; [done|]. rewrite filter_cons_True by done. by f_equal. Qed.

Lemma Forall_byte_take (l : list Z) n : bytes l -> bytes (take n l).
Proof. apply Forall_take. Qed.

(** The bytes of a C string literal. *)
Definition cstr (s : String.string) : list Z :=
  (fun a => Z.of_N (Ascii.N_of_ascii a)) <$> String.list_ascii_of_string s.

(** The C string at the start of [z]: the bytes before a NUL. *)
Fixpoint c_string (z : list Z) : list Z :=
  match z with [] => [] | c :: z => if c =? 0 then [] else c :: c_string z end.

(** Bytes [i] to [i + n - 1] of a buffer: the argument of a [memcpy]. *)
Definition slice (z : list Z) (i n : Z) : list Z := take (Z.to_nat n) (drop (Z.to_nat i) z).

Lemma length_slice z i n :
  0 <= i -> 0 <= n -> i + n <= Zlen z -> Zlen (slice z i n) = n.
Proof. intros. unfold slice. rewrite length_take, length_drop. lia. Qed.

Lemma slice_app_slice z i n m :
  0 <= i -> 0 <= n -> 0 <= m -> slice z i n ++ slice z (i + n) m = slice z i (n + m).
Proof.
  intros. unfold slice. rewrite (Z2Nat.inj_add i n), (Z2Nat.inj_add n m) by lia.
  rewrite <- (drop_drop z). by rewrite take_take_drop.
Qed.

Lemma slice_all z n : n = Zlen z -> slice z 0 n = z.
Proof. intros ->. unfold slice. simpl. apply take_ge. lia. Qed.

(** A property of the integers below [n] decided by trying them all. *)
Lemma range_forallb (n : Z) (f : Z -> bool) :
  forallb f (seqZ 0 n) = true -> forall i, 0 <= i < n -> f i = true.
Proof.
  intros H i Hi. rewrite forallb_forall in H. apply H.
  apply list_elem_of_In, elem_of_seqZ. lia.
Qed.

Lemma cget_lookup z i : 0 <= i -> cget z i = default 0 (z !! Z.to_nat i).
Proof.
  intros Hi. unfold cget. rewrite (proj2 (Z.ltb_ge i 0)) by done. rewrite nth_lookup. done.
Qed.

Lemma slice_lookup z i n (k : nat) :
  slice z i n !! k = if decide (Z.of_nat k < n) then z !! (Z.to_nat i + k)%nat else None.
Proof.
  unfold slice. case_decide.
  - rewrite lookup_take_lt, lookup_drop by lia. done.
  - rewrite lookup_take_ge by lia. done.
Qed.

Lemma slice_eq a b i j n :
  0 <= i -> 0 <= j -> i + n <= Zlen a -> j + n <= Zlen b ->
  (forall m, 0 <= m < n -> cget a (i + m) = cget b (j + m)) -> slice a i n = slice b j n.
Proof.
  intros Hi Hj Ha Hb H. apply list_eq. intros k. rewrite !slice_lookup. case_decide; [|done].
  specialize (H (Z.of_nat k)). rewrite !cget_lookup in H by lia.
  replace (Z.to_nat (i + Z.of_nat k)) with (Z.to_nat i + k)%nat in H by lia.
  replace (Z.to_nat (j + Z.of_nat k)) with (Z.to_nat j + k)%nat in H by lia.
  destruct (lookup_lt_is_Some_2 a (Z.to_nat i + k)) as [x Hx]; [lia|].
  destruct (lookup_lt_is_Some_2 b (Z.to_nat j + k)) as [y Hy]; [lia|].
  rewrite Hx, Hy in *. simpl in H. f_equal. apply H. lia.
Qed.

Lemma cget_Some z i x : 0 <= i -> z !! Z.to_nat i = Some x -> cget z i = x.
Proof. intros Hi Hx. by rewrite cget_lookup, Hx. Qed.

Lemma lookup_cget z i : 0 <= i < Zlen z -> z !! Z.to_nat i = Some (cget z i).
Proof.
  intros Hi. destruct (lookup_lt_is_Some_2 z (Z.to_nat i)) as [x Hx]; [lia|].
  by rewrite (cget_Some z i x) by (done || lia).
Qed.

Lemma rd_cget z i : 0 <= i < Zlen z -> rd z i = Ok (cget z i).
Proof. intros Hi. apply rd_ok; [lia|]. by apply lookup_cget. Qed.

Lemma cget_insert z i j x :
  0 <= i < Zlen z -> 0 <= j -> cget (<[Z.to_nat i := x]> z) j = if decide (i = j) then x else cget z j.
Proof.
  intros Hi Hj. rewrite !cget_lookup by lia. case_decide as H.
  - subst j. by rewrite list_lookup_insert_eq by lia.
  - by rewrite list_lookup_insert_ne by lia.
Qed.

(** The first place where a decidable property holds. *)
Lemma least_witness (P : Z -> bool) (n : Z) :
  0 <= n -> P n = true ->
  exists k, 0 <= k <= n /\ P k = true /\ forall j, 0 <= j < k -> P j = false.
Proof.
  intros Hn. rewrite <- (Z2Nat.id n) by done. generalize (Z.to_nat n) as m. clear n Hn.
  intros m. induction m as [m IH] using lt_wf_ind. intros HP.
  destruct (decide (Exists (fun j => P (Z.of_nat j) = true) (seq 0 m))) as [H|H].
  - apply Exists_exists in H as (j & [_ Hj]%in_seq & HPj).
    destruct (IH j ltac:(lia) HPj) as (k & Hk & HPk & Hmin). exists k. split_and!; done || lia.
  - exists (Z.of_nat m). split_and!; try done || lia. intros j Hj.
    apply not_true_iff_false. intros HPj. apply H, Exists_exists. exists (Z.to_nat j).
    split; [apply in_seq; lia|]. by rewrite Z2Nat.id by lia.
Qed.

(** ** [std::vector] *)

(** [v.insert(v.begin()+i, x)] and [v.erase(v.begin()+i)]: the position has
    to be inside the vector ([insert] also takes its end). *)
Definition vec_insert {A} (v : list A) (i : Z) (x : A) : result (list A) :=
  if (0 <=? i) && (i <=? Zlen v)
  then Ok (take (Z.to_nat i) v ++ x :: drop (Z.to_nat i) v) else Fault OutOfBounds.

Definition vec_erase {A} (v : list A) (i : Z) : result (list A) :=
  if (0 <=? i) && (i <? Zlen v)
  then Ok (take (Z.to_nat i) v ++ drop (S (Z.to_nat i)) v) else Fault OutOfBounds.

Lemma vec_insert_ok {A} (v : list A) (i : Z) (x : A) :
  0 <= i <= Zlen v -> vec_insert v i x = Ok (take (Z.to_nat i) v ++ x :: drop (Z.to_nat i) v).
Proof.
  intros [? ?]. unfold vec_insert.
  by rewrite (proj2 (Z.leb_le 0 i)), (proj2 (Z.leb_le i _)) by lia.
Qed.

Lemma vec_erase_ok {A} (v : list A) (i : Z) :
  0 <= i < Zlen v -> vec_erase v i = Ok (take (Z.to_nat i) v ++ drop (S (Z.to_nat i)) v).
Proof.
  intros [? ?]. unfold vec_erase.
  by rewrite (proj2 (Z.leb_le 0 i)), (proj2 (Z.ltb_lt i _)) by lia.
Qed.

(** The loop that applies a fallible function to every element of a vector. *)
Fixpoint mapR {A B} (f : A -> result B) (l : list A) : result (list B) :=
  match l with
  | [] => Ok []
  | x :: l => y ← f x; l ← mapR f l; Ok (y :: l)
  end.

Lemma mapR_ok {A B} (f : A -> result B) (g : A -> B) (l : list A) :
  Forall (fun x => f x = Ok (g x)) l -> mapR f l = Ok (g <$> l).
Proof. induction 1 as [|x l Hx _ IH]; simpl; [done|]. by rewrite Hx, bind_Ok, IH. Qed.
