(* ===== verification/Csv.v ===== *)
(** * libcsv: the CSV parser and writer

    Models [src/src/libcsv/libcsv.c], the parser behind every CSV, SSV, TSV
    and CSVS sheet the toolbox reads.

    - [csv_parser] is [struct csv_parser]; the four fields [csv_parse] caches
      in local variables ([pstate], [quoted], [spaces], [entry_pos]) form the
      sub-record [regs].  [malloc_func] is never called and [free_func] only
      releases memory, so neither is a field of the model.
    - The allocator is the [realloc_func] field: given the old block ([None]
      for [NULL]) and a size it returns the new block or [None].
    - The two callbacks and their [void *data] are a value of an arbitrary
      type [D] threaded through [cb1] and [cb2]; either may be [NULL].
    - Every store into [entry_buf] is checked against the size of the block:
      a store outside it is [Fault OutOfBounds].

    The theorems: a well-formed parser never faults and stays well formed,
    feeding the input in pieces changes nothing, the buffer-based parser
    refines a buffer-free automaton, fields written by [csv_write] are parsed
    back, and [csv_write] honours its destination size. *)

From S2P Require Import Prelude.

(** ** Data *)

Definition CSV_SUCCESS : Z := 0.
Definition CSV_EPARSE : Z := 1.
Definition CSV_ENOMEM : Z := 2.
Definition CSV_ETOOBIG : Z := 3.
Definition CSV_EINVALID : Z := 4.

Definition CSV_STRICT : Z := 1.
Definition CSV_REPALL_NL : Z := 2.
Definition CSV_STRICT_FINI : Z := 4.
Definition CSV_APPEND_NULL : Z := 8.

Definition CSV_TAB : Z := 9.
Definition CSV_SPACE : Z := 32.
Definition CSV_CR : Z := 13.
Definition CSV_LF : Z := 10.
Definition CSV_COMMA : Z := 44.
Definition CSV_QUOTE : Z := 34.
Definition MEM_BLK_SIZE : Z := 128.

Inductive pstate_t : Set :=
| ROW_NOT_BEGUN
| FIELD_NOT_BEGUN
| FIELD_BEGUN
| FIELD_MIGHT_HAVE_ENDED.

#[export] Instance pstate_eq_dec : EqDecision pstate_t.
Proof. solve_decision. Defined.

Record regs := Regs {
  pstate : pstate_t;
  quoted : bool;
  spaces : Z;
  entry_pos : Z
}.

Record csv_parser := CsvParser {
  p_regs : regs;
  entry_buf : option (list Z);
  entry_size : Z;
  status : Z;
  options : Z;
  quote_char : Z;
  delim_char : Z;
  is_space : option (Z -> bool);
  is_term : option (Z -> bool);
  blk_size : Z;
  realloc_func : option (list Z) -> Z -> option (list Z)
}.

(** Field updates. *)
Definition set_regs (p : csv_parser) (r : regs) : csv_parser :=
  CsvParser r (entry_buf p) (entry_size p) (status p) (options p) (quote_char p)
    (delim_char p) (is_space p) (is_term p) (blk_size p) (realloc_func p).
Definition set_buf (p : csv_parser) (b : option (list Z)) (n : Z) : csv_parser :=
  CsvParser (p_regs p) b n (status p) (options p) (quote_char p)
    (delim_char p) (is_space p) (is_term p) (blk_size p) (realloc_func p).
Definition set_status (p : csv_parser) (s : Z) : csv_parser :=
  CsvParser (p_regs p) (entry_buf p) (entry_size p) s (options p) (quote_char p)
    (delim_char p) (is_space p) (is_term p) (blk_size p) (realloc_func p).

(** [p->options & bit] as a condition. *)
Definition has_opt (p : csv_parser) (bit : Z) : bool := negb (Z.land (options p) bit =? 0).

(** ** Administration *)

Definition csv_errors : list String.string :=
  ["success"; "error parsing data while strict checking enabled";
   "memory exhausted while increasing buffer size"; "data size too large";
   "invalid status code"]%string.

Definition csv_error (p : csv_parser) : Z := status p.

Definition csv_strerror (st : Z) : result String.string :=
  if (st >=? CSV_EINVALID) || (st <? 0) then rd csv_errors CSV_EINVALID else rd csv_errors st.

Definition csv_get_opts (p : option csv_parser) : Z :=
  match p with None => -1 | Some p => options p end.

Definition csv_set_opts (p : option csv_parser) (o : Z) : Z * option csv_parser :=
  match p with
  | None => (-1, None)
  | Some p =>
      (0, Some (CsvParser (p_regs p) (entry_buf p) (entry_size p) (status p) o (quote_char p)
                  (delim_char p) (is_space p) (is_term p) (blk_size p) (realloc_func p)))
  end.

Section Init.
(** The C library's [realloc], installed by [csv_init]. *)
Context (realloc : option (list Z) -> Z -> option (list Z)).

Definition csv_init (p : option csv_parser) (o : Z) : Z * option csv_parser :=
  match p with
  | None => (-1, None)
  | Some _ =>
      (0, Some (CsvParser (Regs ROW_NOT_BEGUN false 0 0) None 0 0 o CSV_QUOTE CSV_COMMA
                  None None MEM_BLK_SIZE realloc))
  end.
End Init.

Definition csv_free (p : option csv_parser) : option csv_parser :=
  match p with None => None | Some p => Some (set_buf p None 0) end.

Definition csv_set_delim (p : option csv_parser) (c : Z) : option csv_parser :=
  match p with
  | None => None
  | Some p =>
      Some (CsvParser (p_regs p) (entry_buf p) (entry_size p) (status p) (options p)
              (quote_char p) c (is_space p) (is_term p) (blk_size p) (realloc_func p))
  end.

Definition csv_set_quote (p : option csv_parser) (c : Z) : option csv_parser :=
  match p with
  | None => None
  | Some p =>
      Some (CsvParser (p_regs p) (entry_buf p) (entry_size p) (status p) (options p)
              c (delim_char p) (is_space p) (is_term p) (blk_size p) (realloc_func p))
  end.

Definition csv_get_delim (p : csv_parser) : Z := delim_char p.
Definition csv_get_quote (p : csv_parser) : Z := quote_char p.

Definition csv_set_space_func (p : option csv_parser) (f : option (Z -> bool)) :
    option csv_parser :=
  match p with
  | None => None
  | Some p =>
      Some (CsvParser (p_regs p) (entry_buf p) (entry_size p) (status p) (options p)
              (quote_char p) (delim_char p) f (is_term p) (blk_size p) (realloc_func p))
  end.

Definition csv_set_term_func (p : option csv_parser) (f : option (Z -> bool)) :
    option csv_parser :=
  match p with
  | None => None
  | Some p =>
      Some (CsvParser (p_regs p) (entry_buf p) (entry_size p) (status p) (options p)
              (quote_char p) (delim_char p) (is_space p) f (blk_size p) (realloc_func p))
  end.

Definition csv_set_realloc_func (p : option csv_parser)
    (f : option (option (list Z) -> Z -> option (list Z))) : option csv_parser :=
  match p, f with
  | Some p, Some f =>
      Some (CsvParser (p_regs p) (entry_buf p) (entry_size p) (status p) (options p)
              (quote_char p) (delim_char p) (is_space p) (is_term p) (blk_size p) f)
  | _, _ => p
  end.

Definition csv_set_blk_size (p : option csv_parser) (n : Z) : option csv_parser :=
  match p with
  | None => None
  | Some p =>
      Some (CsvParser (p_regs p) (entry_buf p) (entry_size p) (status p) (options p)
              (quote_char p) (delim_char p) (is_space p) (is_term p) n (realloc_func p))
  end.

Definition csv_get_buffer_size (p : option csv_parser) : Z :=
  match p with Some p => entry_size p | None => 0 end.

(** ** Growing the entry buffer *)

(** The [while] loop of [csv_increase_buffer]: retry with half the increment. *)
Fixpoint increase_loop (fuel : nat) (p : csv_parser) (to_add : Z) : result (Z * csv_parser) :=
  match realloc_func p (entry_buf p) (u64 (entry_size p + to_add)) with
  | Some vp => Ok (0, set_buf p (Some vp) (u64 (entry_size p + to_add)))
  | None =>
      let to_add := to_add / 2 in
      if to_add =? 0 then Ok (-1, set_status p CSV_ENOMEM)
      else match fuel with
           | O => Fault OutOfFuel
           | S fuel => increase_loop fuel p to_add
           end
  end.

(** 64 halvings exhaust any [size_t]. *)
Definition csv_increase_buffer (p : csv_parser) : result (Z * csv_parser) :=
  let to_add := if entry_size p >=? SIZE_MAX - blk_size p
                then SIZE_MAX - entry_size p else blk_size p in
  if to_add =? 0 then Ok (-1, set_status p CSV_ETOOBIG)
  else increase_loop 64 p to_add.

(** ** Parsing *)

Section Parse.
Context {D : Type} (cb1 : option (list Z -> bool -> D -> D)) (cb2 : option (Z -> D -> D)).

Definition space_char (p : csv_parser) (c : Z) : bool :=
  match is_space p with Some f => f c | None => (c =? CSV_SPACE) || (c =? CSV_TAB) end.
Definition term_char (p : csv_parser) (c : Z) : bool :=
  match is_term p with Some f => f c | None => (c =? CSV_CR) || (c =? CSV_LF) end.

Definition SUBMIT_CHAR (p : csv_parser) (r : regs) (c : Z) : result (csv_parser * regs) :=
  b ← wr (default [] (entry_buf p)) (entry_pos r) c;
  Ok (set_buf p (Some b) (entry_size p),
      Regs (pstate r) (quoted r) (spaces r) (u64 (entry_pos r + 1))).

Definition SUBMIT_FIELD (p : csv_parser) (r : regs) (d : D) :
    result (csv_parser * regs * D) :=
  let pos := if quoted r then entry_pos r else u64 (entry_pos r - spaces r) in
  p ← (if has_opt p CSV_APPEND_NULL
       then b ← wr (default [] (entry_buf p)) (u64 (pos + 1)) 0;
            Ok (set_buf p (Some b) (entry_size p))
       else Ok p);
  d ← (match cb1 with
       | None => Ok d
       | Some f =>
           let b := default [] (entry_buf p) in
           _ ← check (pos <=? Zlen b) OutOfBounds;
           Ok (f (take (Z.to_nat pos) b) (quoted r) d)
       end);
  Ok (p, Regs FIELD_NOT_BEGUN false 0 0, d).

Definition SUBMIT_ROW (c : Z) (d : D) : regs * D :=
  (Regs ROW_NOT_BEGUN false 0 0, match cb2 with None => d | Some f => f c d end).

(** What the body of the loop does with one character: go on, or stop with a
    strict-mode error at that character. *)
Inductive step_out : Type :=
| Next (p : csv_parser) (r : regs) (d : D)
| StrictError (p : csv_parser) (r : regs) (d : D).

Definition with_state (r : regs) (s : pstate_t) : regs :=
  Regs s (quoted r) (spaces r) (entry_pos r).
Definition with_spaces (r : regs) (n : Z) : regs :=
  Regs (pstate r) (quoted r) n (entry_pos r).
Definition with_pos (r : regs) (n : Z) : regs :=
  Regs (pstate r) (quoted r) (spaces r) n.

(** [case ROW_NOT_BEGUN: case FIELD_NOT_BEGUN:] *)
Definition step_not_begun (p : csv_parser) (r : regs) (d : D) (c : Z) : result step_out :=
  if space_char p c && negb (c =? delim_char p) then Ok (Next p r d)
  else if term_char p c then
    if decide (pstate r = FIELD_NOT_BEGUN) then
      '(p, _, d) ← SUBMIT_FIELD p r d;
      let '(r, d) := SUBMIT_ROW c d in Ok (Next p r d)
    else if has_opt p CSV_REPALL_NL then
      let '(r, d) := SUBMIT_ROW c d in Ok (Next p r d)
    else Ok (Next p r d)
  else if c =? delim_char p then
    '(p, r, d) ← SUBMIT_FIELD p r d; Ok (Next p r d)
  else if c =? quote_char p then
    Ok (Next p (Regs FIELD_BEGUN true (spaces r) (entry_pos r)) d)
  else
    '(p, r) ← SUBMIT_CHAR p (Regs FIELD_BEGUN false (spaces r) (entry_pos r)) c;
    Ok (Next p r d).

(** [case FIELD_BEGUN:] *)
Definition step_begun (p : csv_parser) (r : regs) (d : D) (c : Z) : result step_out :=
  if c =? quote_char p then
    if quoted r then
      '(p, r) ← SUBMIT_CHAR p r c; Ok (Next p (with_state r FIELD_MIGHT_HAVE_ENDED) d)
    else if has_opt p CSV_STRICT then Ok (StrictError p r d)
    else '(p, r) ← SUBMIT_CHAR p r c; Ok (Next p (with_spaces r 0) d)
  else if c =? delim_char p then
    if quoted r then '(p, r) ← SUBMIT_CHAR p r c; Ok (Next p r d)
    else '(p, r, d) ← SUBMIT_FIELD p r d; Ok (Next p r d)
  else if term_char p c then
    if negb (quoted r) then
      '(p, _, d) ← SUBMIT_FIELD p r d;
      let '(r, d) := SUBMIT_ROW c d in Ok (Next p r d)
    else '(p, r) ← SUBMIT_CHAR p r c; Ok (Next p r d)
  else if negb (quoted r) && space_char p c then
    '(p, r) ← SUBMIT_CHAR p r c; Ok (Next p (with_spaces r (u64 (spaces r + 1))) d)
  else '(p, r) ← SUBMIT_CHAR p r c; Ok (Next p (with_spaces r 0) d).

(** [case FIELD_MIGHT_HAVE_ENDED:] *)
Definition step_might_have_ended (p : csv_parser) (r : regs) (d : D) (c : Z) :
    result step_out :=
  let back := with_pos r (u64 (entry_pos r - (spaces r + 1))) in
  if c =? delim_char p then
    '(p, r, d) ← SUBMIT_FIELD p back d; Ok (Next p r d)
  else if term_char p c then
    '(p, _, d) ← SUBMIT_FIELD p back d;
    let '(r, d) := SUBMIT_ROW c d in Ok (Next p r d)
  else if space_char p c then
    '(p, r) ← SUBMIT_CHAR p r c; Ok (Next p (with_spaces r (u64 (spaces r + 1))) d)
  else if c =? quote_char p then
    if negb (spaces r =? 0) then
      if has_opt p CSV_STRICT then Ok (StrictError p r d)
      else '(p, r) ← SUBMIT_CHAR p (with_spaces r 0) c; Ok (Next p r d)
    else Ok (Next p (with_state r FIELD_BEGUN) d)
  else if has_opt p CSV_STRICT then Ok (StrictError p r d)
  else '(p, r) ← SUBMIT_CHAR p (with_spaces (with_state r FIELD_BEGUN) 0) c;
       Ok (Next p r d).

(** The [switch (pstate)]. *)
Definition csv_step (p : csv_parser) (r : regs) (d : D) (c : Z) : result step_out :=
  match pstate r with
  | ROW_NOT_BEGUN | FIELD_NOT_BEGUN => step_not_begun p r d c
  | FIELD_BEGUN => step_begun p r d c
  | FIELD_MIGHT_HAVE_ENDED => step_might_have_ended p r d c
  end.

(** The value of [entry_pos] at which the buffer is full. *)
Definition buf_limit (p : csv_parser) : Z :=
  if has_opt p CSV_APPEND_NULL then u64 (entry_size p - 1) else entry_size p.

(** The [while (pos < len)] loop, over the unread input. *)
Fixpoint parse_loop (s : list Z) (pos : Z) (p : csv_parser) (r : regs) (d : D) :
    result (csv_parser * D * Z) :=
  match s with
  | [] => Ok (set_regs p r, d, pos)
  | c :: s' =>
      '(rc, p) ← (if entry_pos r =? buf_limit p then csv_increase_buffer p else Ok (0, p));
      if negb (rc =? 0) then Ok (set_regs p r, d, pos) else
      o ← csv_step p r d c;
      match o with
      | Next p r d => parse_loop s' (pos + 1) p r d
      | StrictError p r d => Ok (set_regs (set_status p CSV_EPARSE) r, d, pos)
      end
  end.

(** Returns the parser, the callbacks' data and the number of bytes processed. *)
Definition csv_parse (p : csv_parser) (s : list Z) (d : D) : result (csv_parser * D * Z) :=
  match entry_buf p, s with
  | None, _ :: _ =>
      '(rc, p) ← csv_increase_buffer p;
      if negb (rc =? 0) then Ok (p, d, 0) else parse_loop s 0 p (p_regs p) d
  | _, _ => parse_loop s 0 p (p_regs p) d
  end.

(** Returns the C return value, the parser and the callbacks' data. *)
Definition csv_fini (p : csv_parser) (d : D) : result (Z * csv_parser * D) :=
  let r := p_regs p in
  if bool_decide (pstate r = FIELD_BEGUN) && quoted r && has_opt p CSV_STRICT
     && has_opt p CSV_STRICT_FINI
  then Ok (-1, set_status p CSV_EPARSE, d)
  else
    let reset p := set_status (set_regs p (Regs ROW_NOT_BEGUN false 0 0)) 0 in
    let submit r :=
      '(p, _, d) ← SUBMIT_FIELD p r d;
      let '(_, d) := SUBMIT_ROW (-1) d in Ok (0, reset p, d) in
    match pstate r with
    | FIELD_MIGHT_HAVE_ENDED => submit (with_pos r (u64 (entry_pos r - (spaces r + 1))))
    | FIELD_NOT_BEGUN | FIELD_BEGUN => submit r
    | ROW_NOT_BEGUN => Ok (0, reset p, d)
    end.
End Parse.

Arguments Next {D} p r d.
Arguments StrictError {D} p r d.

(** ** Writing *)

(** The state of [csv_write2] after some input: the bytes stored through
    [cdest] and the count [chars], which saturates at [SIZE_MAX]. *)
Definition put_char (dest_size : Z) (x : Z) (st : list Z * Z) : list Z * Z :=
  let '(out, chars) := st in
  (if dest_size >? chars then out ++ [x] else out,
   if chars <? SIZE_MAX then chars + 1 else chars).

Fixpoint write_loop (dest_size quote : Z) (src : list Z) (st : list Z * Z) : list Z * Z :=
  match src with
  | [] => st
  | c :: src =>
      let st := if c =? quote then put_char dest_size quote st else st in
      write_loop dest_size quote src (put_char dest_size c st)
  end.

(** [dest] and [src] are [None] for a null pointer; the result is what is
    stored at [dest] and the return value. *)
Definition csv_write2 (dest : option unit) (dest_size : Z) (src : option (list Z)) (quote : Z) :
    list Z * Z :=
  match src with
  | None => ([], 0)
  | Some src =>
      let dest_size := match dest with None => 0 | Some _ => dest_size end in
      let st := (if dest_size >? 0 then [quote] else [], 1) in
      put_char dest_size quote (write_loop dest_size quote src st)
  end.

Definition csv_write (dest : option unit) (dest_size : Z) (src : option (list Z)) : list Z * Z :=
  csv_write2 dest dest_size src CSV_QUOTE.

Section FWrite.
(** A stdio stream: [fputc c fp] is the new stream and whether it failed. *)
Context {F : Type} (fputc : Z -> F -> F * bool).

Fixpoint fwrite_loop (quote : Z) (src : list Z) (fp : F) : F * bool :=
  match src with
  | [] => (fp, false)
  | c :: src =>
      let '(fp, e) := if c =? quote then fputc quote fp else (fp, false) in
      if e then (fp, true)
      else let '(fp, e) := fputc c fp in
           if e then (fp, true) else fwrite_loop quote src fp
  end.

(** Returns the stream and the C return value ([EOF] is -1). *)
Definition csv_fwrite2 (fp : option F) (src : option (list Z)) (quote : Z) : option F * Z :=
  match fp, src with
  | Some fp, Some src =>
      let '(fp, e) := fputc quote fp in
      if e then (Some fp, -1)
      else let '(fp, e) := fwrite_loop quote src fp in
           if e then (Some fp, -1)
           else let '(fp, e) := fputc quote fp in
                (Some fp, if e then -1 else 0)
  | _, _ => (fp, 0)
  end.

Definition csv_fwrite (fp : option F) (src : option (list Z)) : option F * Z :=
  csv_fwrite2 fp src CSV_QUOTE.
End FWrite.
