(* ===== verification/CsvSpec.v ===== *)
(** * What libcsv's parser computes

    The buffer-free automaton [astep] that [csv_parse] implements, the
    well-formedness invariant of a [csv_parser], and the proof that one
    preserves the other: memory safety, refinement and streaming. *)

From S2P Require Import Prelude Csv.

(** ** The automaton *)

(** The text collected for the current field replaces the buffer. *)
Record afield := AField {
  a_state : pstate_t;
  a_quoted : bool;
  a_spaces : Z;
  a_text : list Z
}.

Definition anew (s : pstate_t) : afield := AField s false 0 [].

Section Automaton.
Context {D : Type} (cb1 : option (list Z -> bool -> D -> D)) (cb2 : option (Z -> D -> D)).

(** Without its last [n] characters. *)
Definition chop (n : Z) (l : list Z) : list Z := take (Z.to_nat (Zlen l - n)) l.

Definition emit_field (q : bool) (text : list Z) (d : D) : D :=
  match cb1 with None => d | Some f => f text q d end.
Definition emit_row (c : Z) (d : D) : D := match cb2 with None => d | Some f => f c d end.

(** The field text an unquoted field delivers has its trailing spaces removed. *)
Definition field_text (a : afield) : list Z :=
  if a_quoted a then a_text a else chop (a_spaces a) (a_text a).

Definition apush (a : afield) (c : Z) : list Z := a_text a ++ [c].

(** [None] is a strict-mode error. *)
Definition astep (p : csv_parser) (a : afield) (d : D) (c : Z) : option (afield * D) :=
  let row text := (anew ROW_NOT_BEGUN, emit_row c (emit_field (a_quoted a) text d)) in
  let field text := (anew FIELD_NOT_BEGUN, emit_field (a_quoted a) text d) in
  match a_state a with
  | ROW_NOT_BEGUN | FIELD_NOT_BEGUN =>
      if space_char p c && negb (c =? delim_char p) then Some (a, d)
      else if term_char p c then
        if decide (a_state a = FIELD_NOT_BEGUN) then Some (row [])
        else if has_opt p CSV_REPALL_NL then Some (anew ROW_NOT_BEGUN, emit_row c d)
        else Some (a, d)
      else if c =? delim_char p then Some (field [])
      else if c =? quote_char p then Some (AField FIELD_BEGUN true 0 [], d)
      else Some (AField FIELD_BEGUN false 0 [c], d)
  | FIELD_BEGUN =>
      if a_quoted a then
        if c =? quote_char p then
          Some (AField FIELD_MIGHT_HAVE_ENDED true (a_spaces a) (apush a c), d)
        else if (c =? delim_char p) || term_char p c then
          Some (AField FIELD_BEGUN true (a_spaces a) (apush a c), d)
        else Some (AField FIELD_BEGUN true 0 (apush a c), d)
      else
        if c =? quote_char p then
          if has_opt p CSV_STRICT then None
          else Some (AField FIELD_BEGUN false 0 (apush a c), d)
        else if c =? delim_char p then Some (field (chop (a_spaces a) (a_text a)))
        else if term_char p c then Some (row (chop (a_spaces a) (a_text a)))
        else if space_char p c then
          Some (AField FIELD_BEGUN false (a_spaces a + 1) (apush a c), d)
        else Some (AField FIELD_BEGUN false 0 (apush a c), d)
  | FIELD_MIGHT_HAVE_ENDED =>
      if c =? delim_char p then Some (field (chop (a_spaces a + 1) (a_text a)))
      else if term_char p c then Some (row (chop (a_spaces a + 1) (a_text a)))
      else if space_char p c then
        Some (AField FIELD_MIGHT_HAVE_ENDED true (a_spaces a + 1) (apush a c), d)
      else if c =? quote_char p then
        if a_spaces a =? 0 then Some (AField FIELD_BEGUN true 0 (a_text a), d)
        else if has_opt p CSV_STRICT then None
        else Some (AField FIELD_MIGHT_HAVE_ENDED true 0 (apush a c), d)
      else if has_opt p CSV_STRICT then None
      else Some (AField FIELD_BEGUN true 0 (apush a c), d)
  end.

(** The automaton over an input: final state, data, and the characters it
    consumed (all of them, or those before a strict-mode error). *)
Fixpoint arun (p : csv_parser) (a : afield) (d : D) (s : list Z) (n : Z) : afield * D * Z :=
  match s with
  | [] => (a, d, n)
  | c :: s =>
      match astep p a d c with
      | None => (a, d, n)
      | Some (a, d) => arun p a d s (n + 1)
      end
  end.

End Automaton.

(** ** Representation and invariant *)

(** The field a parser with registers [r] is in the middle of. *)
Definition abs_regs (p : csv_parser) (r : regs) : afield :=
  AField (pstate r) (quoted r) (spaces r)
    (take (Z.to_nat (entry_pos r)) (default [] (entry_buf p))).
Definition abs (p : csv_parser) : afield := abs_regs p (p_regs p).

(** The documented behaviour of [realloc]: on success the block has the
    requested size and the old contents up to the smaller size. *)
Definition realloc_ok (f : option (list Z) -> Z -> option (list Z)) : Prop :=
  forall b n b', 0 <= n -> f b n = Some b' ->
    Zlen b' = n /\ forall i x, default [] b !! i = Some x -> Z.of_nat i < n -> b' !! i = Some x.

Record buf_ok (p : csv_parser) : Prop := {
  bo_size : match entry_buf p with
            | None => entry_size p = 0
            | Some b => Zlen b = entry_size p /\ 1 <= entry_size p
            end;
  bo_max : entry_size p <= SIZE_MAX;
  bo_blk : 0 <= blk_size p <= SIZE_MAX;
  bo_realloc : realloc_ok (realloc_func p)
}.

Definition regs_ok (lim : Z) (r : regs) : Prop :=
  0 <= spaces r /\ 0 <= entry_pos r <= lim /\
  match pstate r with
  | ROW_NOT_BEGUN | FIELD_NOT_BEGUN => quoted r = false /\ spaces r = 0 /\ entry_pos r = 0
  | FIELD_BEGUN => spaces r <= entry_pos r
  | FIELD_MIGHT_HAVE_ENDED => quoted r = true /\ spaces r + 1 <= entry_pos r
  end.

Definition csv_wf (p : csv_parser) : Prop :=
  buf_ok p /\
  match entry_buf p with
  | None => p_regs p = Regs ROW_NOT_BEGUN false 0 0
  | Some _ => regs_ok (buf_limit p) (p_regs p)
  end.

(** ** The macros *)

Lemma set_buf_same p b : entry_buf p = Some b -> set_buf p (Some b) (entry_size p) = p.
Proof. destruct p; simpl; intros ->; done. Qed.

Lemma chop_take (n m : Z) (b : list Z) :
  0 <= n <= m -> m <= Zlen b ->
  chop n (take (Z.to_nat m) b) = take (Z.to_nat (m - n)) b.
Proof.
  intros ? ?. unfold chop. rewrite length_take, Nat.min_l by lia.
  rewrite take_take. f_equal. lia.
Qed.

Lemma buf_limit_lt p b :
  buf_ok p -> entry_buf p = Some b ->
  buf_limit p <= entry_size p /\ (has_opt p CSV_APPEND_NULL = true -> buf_limit p = entry_size p - 1).
Proof.
  intros [Hs Hm _ _] Hb. rewrite Hb in Hs. unfold buf_limit, SIZE_MAX in *.
  destruct (has_opt p CSV_APPEND_NULL); [|split; [lia|done]].
  rewrite u64_small by lia. lia.
Qed.

Lemma SUBMIT_CHAR_ok p b r c :
  buf_ok p -> entry_buf p = Some b -> 0 <= entry_pos r < buf_limit p ->
  exists b', SUBMIT_CHAR p r c =
      Ok (set_buf p (Some b') (entry_size p),
          Regs (pstate r) (quoted r) (spaces r) (entry_pos r + 1)) /\
    Zlen b' = entry_size p /\
    take (Z.to_nat (entry_pos r + 1)) b' = take (Z.to_nat (entry_pos r)) b ++ [c].
Proof.
  intros Hok Hb Hr. pose proof (buf_limit_lt p b Hok Hb) as [Hl _].
  destruct Hok as [Hs Hm _ _]. rewrite Hb in Hs. unfold SIZE_MAX in Hm.
  exists (<[Z.to_nat (entry_pos r) := c]> b). split_and!.
  - unfold SUBMIT_CHAR. rewrite Hb. simpl. rewrite wr_ok by lia. simpl.
    by rewrite u64_small by lia.
  - rewrite length_insert. lia.
  - replace (Z.to_nat (entry_pos r + 1)) with (S (Z.to_nat (entry_pos r))) by lia.
    apply take_snoc_insert. lia.
Qed.

Section Submit.
Context {D : Type} (cb1 : option (list Z -> bool -> D -> D)).

(** [SUBMIT_FIELD] delivers the text without the [n] last characters. *)
Lemma SUBMIT_FIELD_ok p b r d (n : Z) :
  buf_ok p -> entry_buf p = Some b -> 0 <= n <= entry_pos r -> entry_pos r < buf_limit p ->
  n = (if quoted r then 0 else spaces r) ->
  exists b', SUBMIT_FIELD cb1 p r d =
      Ok (set_buf p (Some b') (entry_size p), Regs FIELD_NOT_BEGUN false 0 0,
          emit_field cb1 (quoted r) (chop n (take (Z.to_nat (entry_pos r)) b)) d) /\
    Zlen b' = entry_size p.
Proof.
  intros Hok Hb Hn Hr ->.
  pose proof (buf_limit_lt p b Hok Hb) as [Hl Hl'].
  destruct Hok as [Hs Hm _ _]. rewrite Hb in Hs. unfold SIZE_MAX in Hm.
  rewrite chop_take by lia. unfold SUBMIT_FIELD.
  assert ((if quoted r then entry_pos r else u64 (entry_pos r - spaces r)) =
          entry_pos r - (if quoted r then 0 else spaces r)) as ->.
  { destruct (quoted r); [lia|]. apply u64_small. lia. }
  set (pos := entry_pos r - _) in *. assert (0 <= pos <= entry_pos r) by lia.
  destruct (has_opt p CSV_APPEND_NULL) eqn:E.
  - specialize (Hl' eq_refl). rewrite Hb. simpl.
    rewrite (u64_small (pos + 1)), wr_ok by lia. simpl.
    exists (<[Z.to_nat (pos + 1) := 0]> b). rewrite length_insert. split; [|lia].
    unfold emit_field. destruct cb1 as [f|]; [|done].
    rewrite check_true by (apply Z.leb_le; simpl; lia). simpl.
    by rewrite take_insert_ge by lia.
  - exists b. split; [|lia]. rewrite (set_buf_same p b) by done.
    simpl. unfold emit_field. destruct cb1 as [f|]; [|done]. rewrite Hb.
    rewrite check_true by (apply Z.leb_le; simpl; lia). done.
Qed.
End Submit.

(** ** One character *)

(** The part of [buf_ok] a store into the buffer keeps. *)
Lemma buf_ok_set p b b' :
  buf_ok p -> entry_buf p = Some b -> Zlen b' = entry_size p ->
  buf_ok (set_buf p (Some b') (entry_size p)).
Proof.
  intros [Hs ? ? ?] Hb Hl. rewrite Hb in Hs. constructor; simpl; try done. lia.
Qed.

Section Step.
Context {D : Type} (cb1 : option (list Z -> bool -> D -> D)) (cb2 : option (Z -> D -> D)).

Definition step_matches (p : csv_parser) (r : regs) (d : D) (c : Z) (o : step_out) : Prop :=
  match o with
  | Next p' r' d' =>
      (exists b', p' = set_buf p (Some b') (entry_size p) /\ Zlen b' = entry_size p) /\
      regs_ok (buf_limit p) r' /\
      astep cb1 cb2 p (abs_regs p r) d c = Some (abs_regs p' r', d')
  | StrictError p' r' d' =>
      p' = p /\ r' = r /\ d' = d /\ astep cb1 cb2 p (abs_regs p r) d c = None
  end.

Lemma step_keep p b r d c r' :
  buf_ok p -> entry_buf p = Some b -> regs_ok (buf_limit p) r' ->
  astep cb1 cb2 p (abs_regs p r) d c = Some (abs_regs p r', d) ->
  step_matches p r d c (Next p r' d).
Proof.
  intros Hok Hb Hr Ha. destruct Hok as [Hs _ _ _]. rewrite Hb in Hs. split_and!; try done.
  exists b. rewrite set_buf_same by done. split; [done|lia].
Qed.

(** Registers that follow a character stored at [entry_pos r]. *)
Definition stored (s : pstate_t) (q : bool) (n : Z) (r : regs) : regs :=
  Regs s q n (entry_pos r + 1).

Lemma step_store p b r s q n d c (f : regs -> regs) r0 :
  buf_ok p -> entry_buf p = Some b -> 0 <= entry_pos r < buf_limit p ->
  entry_pos r0 = entry_pos r ->
  regs_ok (buf_limit p) (stored s q n r) ->
  f (Regs (pstate r0) (quoted r0) (spaces r0) (entry_pos r + 1)) = stored s q n r ->
  astep cb1 cb2 p (abs_regs p r) d c =
    Some (AField s q n (take (Z.to_nat (entry_pos r)) b ++ [c]), d) ->
  exists o, ('(p, r) ← SUBMIT_CHAR p r0 c; Ok (Next p (f r) d)) = Ok o /\ step_matches p r d c o.
Proof.
  intros Hok Hb Hr Hr0 Hrok Hf Ha.
  destruct (SUBMIT_CHAR_ok p b r0 c) as (b' & -> & Hl & Ht); [done|done|lia|].
  simpl. eexists. split; [done|]. rewrite Hr0, Hf. split_and!; eauto.
  rewrite Hr0 in Ht. rewrite Ha, <- Ht. done.
Qed.

Lemma step_field p b r d c r0 n :
  buf_ok p -> entry_buf p = Some b -> 0 <= n <= entry_pos r0 ->
  entry_pos r0 < buf_limit p -> quoted r0 = quoted r ->
  n = (if quoted r0 then 0 else spaces r0) ->
  astep cb1 cb2 p (abs_regs p r) d c =
    Some (anew FIELD_NOT_BEGUN,
          emit_field cb1 (quoted r) (chop n (take (Z.to_nat (entry_pos r0)) b)) d) ->
  exists o, ('(p, r, d) ← SUBMIT_FIELD cb1 p r0 d; Ok (Next p r d)) = Ok o /\
            step_matches p r d c o.
Proof.
  intros Hok Hb Hn Hr Hq Hn' Ha.
  destruct (SUBMIT_FIELD_ok cb1 p b r0 d n) as (b' & -> & Hl); try done.
  simpl. eexists. split; [done|]. split_and!; eauto.
  - split_and!; simpl; lia || done.
  - rewrite Ha, <- Hq. done.
Qed.

Lemma step_row p b r d c r0 n :
  buf_ok p -> entry_buf p = Some b -> 0 <= n <= entry_pos r0 ->
  entry_pos r0 < buf_limit p -> quoted r0 = quoted r ->
  n = (if quoted r0 then 0 else spaces r0) ->
  astep cb1 cb2 p (abs_regs p r) d c =
    Some (anew ROW_NOT_BEGUN,
          emit_row cb2 c (emit_field cb1 (quoted r) (chop n (take (Z.to_nat (entry_pos r0)) b)) d)) ->
  exists o, ('(p, _, d) ← SUBMIT_FIELD cb1 p r0 d;
             let '(r, d) := SUBMIT_ROW cb2 c d in Ok (Next p r d)) = Ok o /\
            step_matches p r d c o.
Proof.
  intros Hok Hb Hn Hr Hq Hn' Ha.
  destruct (SUBMIT_FIELD_ok cb1 p b r0 d n) as (b' & -> & Hl); try done.
  simpl. eexists. split; [done|]. split_and!; eauto.
  - split_and!; simpl; lia || done.
  - rewrite Ha, <- Hq. done.
Qed.

Ltac regs_solve := solve [try unfold regs_ok; simpl; split_and!; done || lia].

(** Evaluate the automaton under the case hypotheses on the character. *)
Ltac astep_eval :=
  unfold astep, apush, abs_regs; simpl;
  repeat match goal with H : ?b = _ :> bool |- _ => rewrite H; clear H end; simpl; try done.

Lemma step_not_begun_ok p b r d c :
  buf_ok p -> entry_buf p = Some b -> regs_ok (buf_limit p) r -> entry_pos r < buf_limit p ->
  pstate r = ROW_NOT_BEGUN \/ pstate r = FIELD_NOT_BEGUN ->
  exists o, step_not_begun cb1 cb2 p r d c = Ok o /\ step_matches p r d c o.
Proof.
  intros Hok Hb (Hs0 & Hp0 & Hr) Hlt Hst. destruct r as [st q sp pos]; simpl in *.
  assert (q = false /\ sp = 0 /\ pos = 0) as (-> & -> & ->) by (by destruct Hst; subst st).
  set (r := Regs st false 0 0).
  assert (regs_ok (buf_limit p) r) as Hrok
    by (split_and!; simpl; try lia; by destruct Hst; subst st).
  assert (abs_regs p r = anew st) as Hanew by (unfold abs_regs; simpl; by rewrite take_0).
  unfold step_not_begun; simpl.
  destruct (space_char p c && negb (c =? delim_char p)) eqn:E1.
  { eexists. split; [done|]. apply (step_keep p b); try done. rewrite Hanew.
    destruct Hst; subst st; astep_eval. }
  destruct (term_char p c) eqn:E2.
  { destruct Hst; subst st; simpl.
    - destruct (has_opt p CSV_REPALL_NL) eqn:E3; eexists; (split; [done|]).
      + split_and!; [exists b; rewrite set_buf_same by done|..]; [split; [done|]|done|].
        * destruct Hok as [Ho _ _ _]. rewrite Hb in Ho. lia.
        * rewrite Hanew. astep_eval.
      + apply (step_keep p b); try done. rewrite Hanew. astep_eval.
    - apply (step_row p b r d c r 0); try done. rewrite Hanew. astep_eval. }
  destruct (c =? delim_char p) eqn:E3.
  { apply (step_field p b r d c r 0); try done. rewrite Hanew.
    destruct Hst; subst st; astep_eval. }
  destruct (c =? quote_char p) eqn:E4.
  { eexists. split; [done|]. apply (step_keep p b); try done; try regs_solve.
    rewrite Hanew. destruct Hst; subst st; astep_eval. }
  apply (step_store p b r FIELD_BEGUN false 0 d c (fun r => r)); try done; try (simpl; lia).
  - regs_solve.
  - rewrite Hanew. destruct Hst; subst st; astep_eval.
Qed.

Lemma step_begun_ok p b r d c :
  buf_ok p -> entry_buf p = Some b -> regs_ok (buf_limit p) r -> entry_pos r < buf_limit p ->
  pstate r = FIELD_BEGUN ->
  exists o, step_begun cb1 cb2 p r d c = Ok o /\ step_matches p r d c o.
Proof.
  intros Hok Hb (Hs0 & Hp0 & Hr) Hlt Hst.
  pose proof (buf_limit_lt p b Hok Hb) as [Hl _]. pose proof (bo_max p Hok) as Hm.
  unfold SIZE_MAX in Hm.
  destruct r as [st q sp pos]; simpl in *. subst st. set (r := Regs FIELD_BEGUN q sp pos).
  assert (u64 (sp + 1) = sp + 1) as Hu by (apply u64_small; lia).
  assert (abs_regs p r = AField FIELD_BEGUN q sp (take (Z.to_nat pos) b)) as Habs
    by (unfold abs_regs; by rewrite Hb).
  unfold step_begun; simpl.
  destruct (c =? quote_char p) eqn:E1.
  { destruct q; [|destruct (has_opt p CSV_STRICT) eqn:E2].
    - apply (step_store p b r FIELD_MIGHT_HAVE_ENDED true sp d c
               (fun r => with_state r FIELD_MIGHT_HAVE_ENDED)); try done; try regs_solve.
      rewrite Habs. astep_eval.
    - eexists. split; [done|]. split_and!; try done. rewrite Habs. astep_eval.
    - apply (step_store p b r FIELD_BEGUN false 0 d c (fun r => with_spaces r 0));
        try done;
    try regs_solve. rewrite Habs. astep_eval. }
  destruct (c =? delim_char p) eqn:E2.
  { destruct q.
    - apply (step_store p b r FIELD_BEGUN true sp d c (fun r => r)); try done;
    try regs_solve. rewrite Habs. astep_eval.
    - apply (step_field p b r d c r sp); try done. rewrite Habs. astep_eval. }
  destruct (term_char p c) eqn:E3.
  { destruct q; simpl.
    - apply (step_store p b r FIELD_BEGUN true sp d c (fun r => r)); try done;
    try regs_solve. rewrite Habs. astep_eval.
    - apply (step_row p b r d c r sp); try done. rewrite Habs. astep_eval. }
  destruct (negb q && space_char p c) eqn:E4.
  { destruct q; [done|]. simpl in E4.
    apply (step_store p b r FIELD_BEGUN false (sp + 1) d c
             (fun r => with_spaces r (u64 (spaces r + 1)))); try done; try (simpl; lia).
    - regs_solve.
    - unfold with_spaces, stored, r; simpl. by rewrite Hu.
    - rewrite Habs. astep_eval. }
  apply (step_store p b r FIELD_BEGUN q 0 d c (fun r => with_spaces r 0)); try done;
    try regs_solve. rewrite Habs. destruct q; simpl in E4; astep_eval.
Qed.

Lemma step_might_have_ended_ok p b r d c :
  buf_ok p -> entry_buf p = Some b -> regs_ok (buf_limit p) r -> entry_pos r < buf_limit p ->
  pstate r = FIELD_MIGHT_HAVE_ENDED ->
  exists o, step_might_have_ended cb1 cb2 p r d c = Ok o /\ step_matches p r d c o.
Proof.
  intros Hok Hb (Hs0 & Hp0 & Hr) Hlt Hst.
  pose proof (buf_limit_lt p b Hok Hb) as [Hl _]. pose proof (bo_max p Hok) as Hm.
  pose proof (bo_size p Hok) as Hsz. rewrite Hb in Hsz. unfold SIZE_MAX in Hm.
  destruct r as [st q sp pos]; simpl in *. subst st. destruct Hr as [-> Hsp].
  set (r := Regs FIELD_MIGHT_HAVE_ENDED true sp pos).
  assert (u64 (sp + 1) = sp + 1) as Hu by (apply u64_small; lia).
  assert (abs_regs p r = AField FIELD_MIGHT_HAVE_ENDED true sp (take (Z.to_nat pos) b)) as Habs
    by (unfold abs_regs; by rewrite Hb).
  unfold step_might_have_ended; simpl. rewrite (u64_small (pos - (sp + 1))) by lia.
  set (back := with_pos r (pos - (sp + 1))).
  assert (chop 0 (take (Z.to_nat (entry_pos back)) b) = chop (sp + 1) (take (Z.to_nat pos) b)) as Hch.
  { rewrite !chop_take by (simpl; lia). simpl. f_equal. lia. }
  destruct (c =? delim_char p) eqn:E1.
  { apply (step_field p b r d c back 0); simpl; try lia; try done.
    rewrite Habs. simpl in Hch. rewrite Hch. astep_eval. }
  destruct (term_char p c) eqn:E2.
  { apply (step_row p b r d c back 0); simpl; try lia; try done.
    rewrite Habs. simpl in Hch. rewrite Hch. astep_eval. }
  clear Hch. destruct (space_char p c) eqn:E3.
  { apply (step_store p b r FIELD_MIGHT_HAVE_ENDED true (sp + 1) d c
             (fun r => with_spaces r (u64 (spaces r + 1)))); try done; try (simpl; lia).
    - regs_solve.
    - unfold with_spaces, stored, r; simpl. by rewrite Hu.
    - rewrite Habs. astep_eval. }
  destruct (c =? quote_char p) eqn:E4.
  { destruct (sp =? 0) eqn:E5; simpl.
    - eexists. split; [done|]. apply (step_keep p b); try done; try regs_solve.
      rewrite Habs. unfold abs_regs, with_state; simpl. rewrite Hb; simpl.
      apply Z.eqb_eq in E5. subst sp. astep_eval.
    - destruct (has_opt p CSV_STRICT) eqn:E6.
      + eexists. split; [done|]. split_and!; try done. rewrite Habs. astep_eval.
      + apply (step_store p b r FIELD_MIGHT_HAVE_ENDED true 0 d c (fun r => r)); try done;
    try regs_solve. rewrite Habs. astep_eval. }
  destruct (has_opt p CSV_STRICT) eqn:E6.
  { eexists. split; [done|]. split_and!; try done. rewrite Habs. astep_eval. }
  apply (step_store p b r FIELD_BEGUN true 0 d c (fun r => r)); try done;
    try regs_solve. rewrite Habs. astep_eval.
Qed.

Lemma csv_step_ok p b r d c :
  buf_ok p -> entry_buf p = Some b -> regs_ok (buf_limit p) r -> entry_pos r < buf_limit p ->
  exists o, csv_step cb1 cb2 p r d c = Ok o /\ step_matches p r d c o.
Proof.
  intros Hok Hb Hr Hlt. unfold csv_step. destruct (pstate r) eqn:E.
  - apply (step_not_begun_ok p b); auto.
  - apply (step_not_begun_ok p b); auto.
  - by apply (step_begun_ok p b).
  - by apply (step_might_have_ended_ok p b).
Qed.
End Step.

(** ** Growing the buffer *)

Lemma regs_ok_mono lim lim' r : lim <= lim' -> regs_ok lim r -> regs_ok lim' r.
Proof. intros ? (? & ? & ?). split_and!; try lia. done. Qed.

(** A successful growth of the buffer keeps its contents. *)
Definition grown (p p' : csv_parser) : Prop :=
  exists b', p' = set_buf p (Some b') (entry_size p') /\ Zlen b' = entry_size p' /\
    entry_size p < entry_size p' <= SIZE_MAX /\
    forall i, (Z.of_nat i < entry_size p) -> b' !! i = default [] (entry_buf p) !! i.

Lemma increase_loop_ok fuel p to_add :
  buf_ok p -> 1 <= to_add < 2 ^ (Z.of_nat fuel + 1) -> entry_size p + to_add <= SIZE_MAX ->
  exists rc p', increase_loop fuel p to_add = Ok (rc, p') /\
    ((rc = 0 /\ grown p p') \/ (rc = -1 /\ p' = set_status p CSV_ENOMEM)).
Proof.
  intros Hok. revert to_add. induction fuel as [|fuel IH]; intros to_add Hadd Hmax; simpl.
  all: assert (entry_size p = Zlen (default [] (entry_buf p)))
    by (pose proof (bo_size p Hok); destruct (entry_buf p); simpl; lia).
  all: assert (u64 (entry_size p + to_add) = entry_size p + to_add) as ->
    by (unfold SIZE_MAX in *; apply u64_small; lia).
  all: destruct (realloc_func p (entry_buf p) (entry_size p + to_add)) as [vp|] eqn:E.
  1, 3: (destruct (bo_realloc p Hok (entry_buf p) (entry_size p + to_add) vp) as [Hl Hc]; [lia|done|]).
  1, 2: (eexists 0, _; split; [done|]; left; split; [done|]; exists vp; simpl;
    (split_and!; [done|lia|lia|lia|]; intros i Hi;
     destruct (lookup_lt_is_Some_2 (default [] (entry_buf p)) i) as [x Hx]; [lia|];
     rewrite Hx; apply Hc; [done|lia])).
  - rewrite (Z.div_small to_add 2) by (simpl in Hadd; lia). simpl. eauto 10.
  - destruct (Z.eqb_spec (to_add / 2) 0); [eauto 10|].
    apply IH; [|dlia]. rewrite Nat2Z.inj_succ in Hadd.
    replace (Z.succ (Z.of_nat fuel) + 1) with (Z.succ (Z.of_nat fuel + 1)) in Hadd by lia.
    rewrite Z.pow_succ_r in Hadd by lia. dlia.
Qed.

Lemma csv_increase_buffer_ok p :
  buf_ok p -> exists rc p', csv_increase_buffer p = Ok (rc, p') /\
    ((rc = 0 /\ grown p p') \/
     (rc = -1 /\ exists e, (e = CSV_ENOMEM \/ e = CSV_ETOOBIG) /\ p' = set_status p e)).
Proof.
  intros Hok. unfold csv_increase_buffer.
  pose proof (bo_max p Hok). pose proof (bo_blk p Hok).
  assert (0 <= entry_size p) by (pose proof (bo_size p Hok); destruct (entry_buf p); lia).
  set (to_add := if entry_size p >=? _ then _ else _ : Z).
  assert (0 <= to_add <= SIZE_MAX /\ entry_size p + to_add <= SIZE_MAX).
  { subst to_add. rewrite Z.geb_leb. destruct (Z.leb_spec (SIZE_MAX - blk_size p) (entry_size p)); lia. }
  destruct (Z.eqb_spec to_add 0); [eauto 10|].
  destruct (increase_loop_ok 64 p to_add) as (rc & p' & -> & Hrc); [done| |lia|].
  - unfold SIZE_MAX in *. simpl. lia.
  - destruct Hrc as [?|[-> ->]]; eauto 10.
Qed.

Lemma grown_ok p p' r :
  buf_ok p -> grown p p' -> 0 <= entry_pos r <= entry_size p ->
  buf_ok p' /\ 0 <= buf_limit p' /\ (is_Some (entry_buf p) -> buf_limit p < buf_limit p') /\
  abs_regs p' r = abs_regs p r /\ is_Some (entry_buf p').
Proof.
  intros Hok (b' & Hp' & Hl & Hsz & Hc) Hr.
  assert (0 <= entry_size p) by (pose proof (bo_size p Hok); destruct (entry_buf p); lia).
  pose proof (bo_size p Hok) as Hs. destruct Hok as [_ _ Hblk Hre].
  assert (buf_limit p' = if has_opt p CSV_APPEND_NULL then entry_size p' - 1 else entry_size p')
    as Hlim.
  { rewrite Hp'. unfold buf_limit, SIZE_MAX in *. simpl.
    change (has_opt (set_buf p (Some b') (entry_size p')) CSV_APPEND_NULL)
      with (has_opt p CSV_APPEND_NULL).
    destruct (has_opt p CSV_APPEND_NULL); [apply u64_small; lia|done]. }
  rewrite Hlim. rewrite Hp'. simpl. split_and!; [split; simpl; lia || done| | | |done].
  - destruct (has_opt p CSV_APPEND_NULL); lia.
  - intros [b Hb]. rewrite Hb in Hs. unfold buf_limit, SIZE_MAX in *.
    destruct (has_opt p CSV_APPEND_NULL); [rewrite u64_small by lia|]; lia.
  - unfold abs_regs. simpl. f_equal. apply list_eq. intros i.
    destruct (decide (i < Z.to_nat (entry_pos r))%nat) as [Hi|Hi].
    + rewrite !lookup_take_lt by lia. apply Hc. lia.
    + rewrite !lookup_take_ge by lia. done.
Qed.

(** ** The whole input *)

(** What the parser's behaviour depends on besides its state. *)
Definition cfg (p : csv_parser) :=
  (options p, quote_char p, delim_char p, is_space p, is_term p, blk_size p, realloc_func p).

Section Loop.
Context {D : Type} (cb1 : option (list Z -> bool -> D -> D)) (cb2 : option (Z -> D -> D)).

Lemma astep_cfg p p' a d c : cfg p = cfg p' -> astep cb1 cb2 p a d c = astep cb1 cb2 p' a d c.
Proof. destruct p, p'. unfold cfg; simpl. intros ?; simplify_eq. done. Qed.

Lemma arun_cfg p p' s a d n : cfg p = cfg p' -> arun cb1 cb2 p a d s n = arun cb1 cb2 p' a d s n.
Proof.
  intros Hc. revert a d n. induction s as [|c s IH]; intros a d n; simpl; [done|].
  rewrite (astep_cfg p p') by done. destruct (astep cb1 cb2 p' a d c) as [[a' d']|]; auto.
Qed.

(** How a run that used the first [n] bytes of [s] ended. *)
Definition run_end (p' : csv_parser) (d' : D) (s : list Z) (n : Z) : Prop :=
  n = Zlen s \/
  (exists c, s !! Z.to_nat n = Some c /\ status p' = CSV_EPARSE /\
     astep cb1 cb2 p' (abs p') d' c = None) \/
  (n < Zlen s /\ (status p' = CSV_ENOMEM \/ status p' = CSV_ETOOBIG)).

Definition run_ok (p : csv_parser) (a : afield) (d : D) (s : list Z)
    (p' : csv_parser) (d' : D) (n : Z) : Prop :=
  0 <= n <= Zlen s /\ csv_wf p' /\ is_Some (entry_buf p') /\ cfg p' = cfg p /\
  (forall m, arun cb1 cb2 p a d (take (Z.to_nat n) s) m = (abs p', d', m + n)) /\
  run_end p' d' s n.

Lemma run_ok_0 p r d s :
  buf_ok p -> is_Some (entry_buf p) -> regs_ok (buf_limit p) r ->
  run_end (set_regs p r) d s 0 -> run_ok p (abs_regs p r) d s (set_regs p r) d 0.
Proof.
  intros Hok [b Hb] Hr He. split_and!; try done; try lia.
  - split; [by destruct Hok|]. simpl. rewrite Hb. done.
  - intros m. simpl. by rewrite Z.add_0_r.
Qed.

Lemma run_ok_cons p p1 a a1 d d1 c s p' d' n :
  cfg p1 = cfg p -> astep cb1 cb2 p a d c = Some (a1, d1) ->
  run_ok p1 a1 d1 s p' d' n -> run_ok p a d (c :: s) p' d' (n + 1).
Proof.
  intros Hc Ha (Hn & Hwf & Hb & Hc' & Hrun & He). split_and!; simpl; try lia; try done.
  - congruence.
  - intros m. replace (Z.to_nat (n + 1)) with (S (Z.to_nat n)) by lia. simpl. rewrite Ha.
    rewrite (arun_cfg p p1) by done. rewrite Hrun. f_equal. lia.
  - destruct He as [-> |[(c' & Hc1 & Hs & He)|[? ?]]].
    + left. simpl. lia.
    + right. left. exists c'. by replace (Z.to_nat (n + 1)) with (S (Z.to_nat n)) by lia.
    + right. right. simpl. split; [lia|done].
Qed.

Lemma parse_loop_ok s p r d pos :
  buf_ok p -> is_Some (entry_buf p) -> regs_ok (buf_limit p) r ->
  exists p' d' n, parse_loop cb1 cb2 s pos p r d = Ok (p', d', pos + n) /\
    run_ok p (abs_regs p r) d s p' d' n.
Proof.
  revert p r d pos. induction s as [|c s IH]; intros p r d pos Hok [b Hb] Hr; cbn [parse_loop].
  { exists (set_regs p r), d, 0. split; [by rewrite Z.add_0_r|].
    apply run_ok_0; eauto. left. done. }
  pose proof (buf_limit_lt p b Hok Hb) as [Hl _].
  assert (exists rc p1, (if entry_pos r =? buf_limit p then csv_increase_buffer p else Ok (0, p)) =
            Ok (rc, p1) /\
          ((rc = 0 /\ buf_ok p1 /\ is_Some (entry_buf p1) /\ regs_ok (buf_limit p1) r /\
            entry_pos r < buf_limit p1 /\ abs_regs p1 r = abs_regs p r /\ cfg p1 = cfg p) \/
           (rc = -1 /\ exists e, (e = CSV_ENOMEM \/ e = CSV_ETOOBIG) /\ p1 = set_status p e)))
    as (rc & p1 & -> & Hcase).
  { destruct (Z.eqb_spec (entry_pos r) (buf_limit p)) as [Heq|Hne].
    - destruct (csv_increase_buffer_ok p Hok) as (rc & p1 & -> & Hrc). exists rc, p1.
      split; [done|]. destruct Hrc as [[-> Hg]|Hrc]; [left|by right].
      destruct (grown_ok p p1 r Hok Hg) as (Hok1 & _ & Hlt & Habs & Hb1);
        [destruct Hr as (_ & ? & _); lia|]. specialize (Hlt (ex_intro _ b Hb)).
      destruct Hg as (b' & Hp1 & _). split_and!; try done; try lia.
      + apply (regs_ok_mono (buf_limit p)); [lia|done].
      + by rewrite Hp1.
    - exists 0, p. split; [done|]. left. destruct Hr as (? & ? & ?).
      split_and!; try done; try lia; eauto. }
  simpl. destruct Hcase as [(-> & Hok1 & [b1 Hb1] & Hr1 & Hlt & Habs & Hc1)|(-> & e & He & ->)].
  2: { exists (set_regs (set_status p e) r), d, 0. split; [by rewrite Z.add_0_r|].
       apply (run_ok_0 (set_status p e)); eauto.
       - by destruct Hok.
       - right. right. split; [simpl; lia|done]. }
  simpl. destruct (csv_step_ok cb1 cb2 p1 b1 r d c) as (o & -> & Ho); try done. simpl.
  destruct o as [p2 r2 d2|p2 r2 d2].
  - destruct Ho as ((b2 & -> & Hl2) & Hr2 & Ha).
    destruct (IH (set_buf p1 (Some b2) (entry_size p1)) r2 d2 (pos + 1)) as (p' & d' & n & -> & Hrun).
    + by apply (buf_ok_set p1 b1).
    + done.
    + done.
    + exists p', d', (n + 1). split; [f_equal; f_equal; lia|].
      eapply run_ok_cons; [|rewrite <- Habs, (astep_cfg p p1) by done; exact Ha|exact Hrun].
      done.
  - destruct Ho as (-> & -> & -> & Ha). exists (set_regs (set_status p1 CSV_EPARSE) r), d, 0.
    split; [by rewrite Z.add_0_r|]. rewrite <- Habs.
    assert (run_ok (set_status p1 CSV_EPARSE) (abs_regs (set_status p1 CSV_EPARSE) r) d (c :: s)
              (set_regs (set_status p1 CSV_EPARSE) r) d 0) as (? & ? & ? & ? & Hrun & ?).
    { apply run_ok_0; eauto.
      - by destruct Hok1.
      - right. left. exists c. done. }
    split_and!; done.
Qed.

(** Every run of [csv_parse] from a well-formed parser. *)
Lemma csv_parse_run p s d :
  csv_wf p -> s <> [] -> exists p' d' n, csv_parse cb1 cb2 p s d = Ok (p', d', n) /\
    (run_ok p (abs p) d s p' d' n \/
     (n = 0 /\ d' = d /\ exists e, (e = CSV_ENOMEM \/ e = CSV_ETOOBIG) /\ p' = set_status p e)).
Proof.
  intros [Hok Hr] Hs. unfold csv_parse. destruct (entry_buf p) as [b|] eqn:Hb.
  { destruct (parse_loop_ok s p (p_regs p) d 0) as (p' & d' & n & -> & Hrun); eauto.
    exists p', d', n. split; [done|]. by left. }
  destruct s as [|c s]; [done|].
  destruct (csv_increase_buffer_ok p Hok) as (rc & p1 & -> & [[-> Hg]|(-> & e & He & ->)]);
    cbn -[parse_loop].
  2: { exists (set_status p e), d, 0. split; [done|]. right. eauto. }
  assert (buf_ok p1 /\ 0 <= buf_limit p1 /\ abs_regs p1 (p_regs p) = abs p /\
          is_Some (entry_buf p1)) as (Hok1 & Hl & Habs & Hb1).
  { destruct (grown_ok p p1 (p_regs p) Hok Hg) as (? & ? & _ & ? & ?); [|done].
    pose proof (bo_size p Hok) as Hz. rewrite Hb in Hz. rewrite Hr. simpl. lia. }
  assert (p_regs p1 = p_regs p /\ cfg p1 = cfg p) as [Hreg Hc1]
    by (destruct Hg as (b' & -> & _); done).
  destruct (parse_loop_ok (c :: s) p1 (p_regs p1) d 0) as (p' & d' & n & -> & Hrun); try done.
  { rewrite Hreg, Hr. split_and!; simpl; done || lia. }
  exists p', d', n. split; [done|]. left. rewrite Hreg, Habs in Hrun.
  destruct Hrun as (? & ? & ? & Hc' & Hrun & ?). split_and!; try done || lia.
  - by rewrite Hc'.
  - intros m. rewrite (arun_cfg p p1) by done. apply Hrun.
Qed.
End Loop.

(** ** Finishing, splitting the input, and enough memory *)

Section Finish.
Context {D : Type} (cb1 : option (list Z -> bool -> D -> D)) (cb2 : option (Z -> D -> D)).

(** The allocator never fails below [SIZE_MAX] and the increment is positive. *)
Definition mem_ok (p : csv_parser) : Prop :=
  0 < blk_size p /\ forall b n, 0 <= n <= SIZE_MAX -> is_Some (realloc_func p b n).

Lemma astep_length p a d c a' d' :
  astep cb1 cb2 p a d c = Some (a', d') -> Zlen (a_text a') <= Zlen (a_text a) + 1.
Proof.
  unfold astep, apush, anew.
  repeat case_match; intros; simplify_eq; simpl; rewrite ?length_app; simpl; lia.
Qed.

Lemma abs_length p r :
  buf_ok p -> is_Some (entry_buf p) -> regs_ok (buf_limit p) r ->
  Zlen (a_text (abs_regs p r)) = entry_pos r.
Proof.
  intros Hok [b Hb] (_ & Hr & _). pose proof (buf_limit_lt p b Hok Hb) as [Hl _].
  pose proof (bo_size p Hok) as Hs. rewrite Hb in Hs.
  unfold abs_regs; simpl. rewrite Hb; simpl. rewrite length_take. lia.
Qed.

Lemma increase_loop_hit fuel p to_add vp :
  realloc_func p (entry_buf p) (u64 (entry_size p + to_add)) = Some vp ->
  increase_loop fuel p to_add = Ok (0, set_buf p (Some vp) (u64 (entry_size p + to_add))).
Proof. intros H. destruct fuel; simpl; by rewrite H. Qed.

Lemma increase_mem_ok p :
  buf_ok p -> mem_ok p -> entry_size p < SIZE_MAX ->
  exists p', csv_increase_buffer p = Ok (0, p') /\ grown p p'.
Proof.
  intros Hok [Hblk Hre] Hlt.
  assert (0 <= entry_size p) by (pose proof (bo_size p Hok); destruct (entry_buf p); lia).
  destruct (csv_increase_buffer_ok p Hok) as (rc & p' & He & Hcase). revert He.
  unfold csv_increase_buffer. set (to_add := if entry_size p >=? _ then _ else _ : Z).
  assert (0 < to_add /\ entry_size p + to_add <= SIZE_MAX) as [? ?].
  { subst to_add. rewrite Z.geb_leb. destruct (Z.leb_spec (SIZE_MAX - blk_size p) (entry_size p)); lia. }
  destruct (Z.eqb_spec to_add 0); [lia|].
  destruct (Hre (entry_buf p) (u64 (entry_size p + to_add))) as [vp Hvp].
  { unfold SIZE_MAX in *. rewrite u64_small by lia. lia. }
  rewrite (increase_loop_hit _ _ _ vp) by done. intros [= <- <-]. destruct Hcase as [[_ Hg]|[? _]]; [|done].
  eexists. split; [done|exact Hg].
Qed.

(** With enough memory the loop stops early only on a strict-mode error. *)
Lemma parse_loop_mem s p r d pos p' d' n :
  buf_ok p -> is_Some (entry_buf p) -> regs_ok (buf_limit p) r -> mem_ok p ->
  status p = 0 -> entry_pos r + Zlen s + 1 < SIZE_MAX ->
  parse_loop cb1 cb2 s pos p r d = Ok (p', d', n) ->
  status p' = 0 \/ status p' = CSV_EPARSE.
Proof.
  revert p r d pos. induction s as [|c s IH]; intros p r d pos Hok [b Hb] Hr Hm Hst Hlen;
    cbn [parse_loop].
  { intros [= <- <- <-]. auto. }
  pose proof (buf_limit_lt p b Hok Hb) as [Hl Hl']. cbn [length] in Hlen.
  assert (exists p1, (if entry_pos r =? buf_limit p then csv_increase_buffer p else Ok (0, p)) =
            Ok (0, p1) /\ buf_ok p1 /\ is_Some (entry_buf p1) /\ regs_ok (buf_limit p1) r /\
            entry_pos r < buf_limit p1 /\ mem_ok p1 /\ status p1 = 0)
    as (p1 & -> & Hok1 & [b1 Hb1] & Hr1 & Hlt & Hm1 & Hst1).
  { destruct (Z.eqb_spec (entry_pos r) (buf_limit p)) as [Heq|Hne].
    - destruct (increase_mem_ok p Hok Hm) as (p1 & -> & Hg).
      { unfold buf_limit in Heq, Hl'. destruct (has_opt p CSV_APPEND_NULL);
          [specialize (Hl' eq_refl)|]; lia. }
      destruct (grown_ok p p1 r Hok Hg) as (? & _ & Hlt & _ & ?); [destruct Hr as (_ & ? & _); lia|].
      specialize (Hlt (ex_intro _ b Hb)). destruct Hg as (b' & Hp1 & _). exists p1.
      split_and!; try done; try lia.
      + apply (regs_ok_mono (buf_limit p)); [lia|done].
      + by rewrite Hp1.
      + by rewrite Hp1.
    - exists p. destruct Hr as (? & ? & ?). split_and!; try done; try lia; eauto. }
  simpl. destruct (csv_step_ok cb1 cb2 p1 b1 r d c) as (o & -> & Ho); try done. simpl.
  destruct o as [p2 r2 d2|p2 r2 d2].
  - destruct Ho as ((b2 & -> & Hl2) & Hr2 & Ha). apply IH; try done.
    + by apply (buf_ok_set p1 b1).
    + apply astep_length in Ha.
      rewrite !abs_length in Ha; eauto; try lia. by apply (buf_ok_set p1 b1).
  - intros [= <- _ _]. destruct Ho as (-> & -> & -> & Ha). auto.
Qed.

(** [p_regs] is not read while the loop runs. *)
Definition stale (r0 : regs) (o : step_out (D:=D)) : step_out :=
  match o with
  | Next p r d => Next (set_regs p r0) r d
  | StrictError p r d => StrictError (set_regs p r0) r d
  end.

Lemma SUBMIT_CHAR_stale p r0 r c :
  SUBMIT_CHAR (set_regs p r0) r c =
  match SUBMIT_CHAR p r c with Ok (p, r) => Ok (set_regs p r0, r) | Fault f => Fault f end.
Proof. unfold SUBMIT_CHAR. simpl. by destruct (wr _ _ _). Qed.

Lemma SUBMIT_FIELD_stale p r0 r d :
  SUBMIT_FIELD cb1 (set_regs p r0) r d =
  match SUBMIT_FIELD cb1 p r d with Ok (p, r, d) => Ok (set_regs p r0, r, d) | Fault f => Fault f end.
Proof.
  unfold SUBMIT_FIELD. change (has_opt (set_regs p r0)) with (has_opt p).
  destruct (has_opt p CSV_APPEND_NULL); simpl.
  - destruct (wr _ _ _); simpl; [|done]. destruct cb1; [|done]. by destruct (check _ _).
  - destruct cb1; [|done]. by destruct (check _ _).
Qed.

Lemma csv_step_stale p r0 r d c :
  csv_step cb1 cb2 (set_regs p r0) r d c =
  match csv_step cb1 cb2 p r d c with Ok o => Ok (stale r0 o) | Fault f => Fault f end.
Proof.
  unfold csv_step, step_not_begun, step_begun, step_might_have_ended.
  change (has_opt (set_regs p r0)) with (has_opt p).
  change (space_char (set_regs p r0)) with (space_char p).
  change (term_char (set_regs p r0)) with (term_char p).
  change (delim_char (set_regs p r0)) with (delim_char p).
  change (quote_char (set_regs p r0)) with (quote_char p).
  rewrite !SUBMIT_CHAR_stale, !SUBMIT_FIELD_stale.
  destruct (pstate r);
    repeat match goal with
    | |- context [if ?b then _ else _] => destruct b; try done
    end;
    match goal with
    | |- context [SUBMIT_CHAR p ?r c] => by destruct (SUBMIT_CHAR p r c) as [[??]|]
    | |- context [SUBMIT_FIELD cb1 p ?r d] => by destruct (SUBMIT_FIELD cb1 p r d) as [[[??]?]|]
    end.
Qed.
Lemma increase_loop_stale fuel p r0 to_add :
  increase_loop fuel (set_regs p r0) to_add =
  match increase_loop fuel p to_add with Ok (rc, p) => Ok (rc, set_regs p r0) | Fault f => Fault f end.
Proof.
  revert to_add. induction fuel as [|fuel IH]; intros to_add; simpl; case_match; try done;
    destruct (to_add / 2 =? 0); auto.
Qed.

Lemma csv_increase_buffer_stale p r0 :
  csv_increase_buffer (set_regs p r0) =
  match csv_increase_buffer p with Ok (rc, p) => Ok (rc, set_regs p r0) | Fault f => Fault f end.
Proof.
  unfold csv_increase_buffer. rewrite increase_loop_stale.
  change (entry_size (set_regs p r0)) with (entry_size p).
  change (blk_size (set_regs p r0)) with (blk_size p). by destruct (Z.eqb _ 0).
Qed.

Lemma parse_loop_stale s pos p r0 r d :
  parse_loop cb1 cb2 s pos (set_regs p r0) r d = parse_loop cb1 cb2 s pos p r d.
Proof.
  revert pos p r d. induction s as [|c s IH]; intros pos p r d; cbn [parse_loop]; [done|].
  change (buf_limit (set_regs p r0)) with (buf_limit p). rewrite csv_increase_buffer_stale.
  destruct (entry_pos r =? buf_limit p).
  - destruct (csv_increase_buffer p) as [[rc p1]|]; simpl; [|done].
    destruct (negb (rc =? 0)); [done|]. rewrite csv_step_stale.
    destruct (csv_step cb1 cb2 p1 r d c) as [[]|]; simpl; auto.
  - simpl. rewrite csv_step_stale. destruct (csv_step cb1 cb2 p r d c) as [[]|]; simpl; auto.
Qed.

(** The result of the loop started [k] bytes further on. *)
Definition shift_pos (k : Z) (x : result (csv_parser * D * Z)) : result (csv_parser * D * Z) :=
  match x with Ok (p, d, n) => Ok (p, d, k + n) | Fault f => Fault f end.

Lemma parse_loop_shift s k pos p r d :
  parse_loop cb1 cb2 s (k + pos) p r d = shift_pos k (parse_loop cb1 cb2 s pos p r d).
Proof.
  revert pos p r d. induction s as [|c s IH]; intros pos p r d; cbn [parse_loop]; [done|].
  destruct (if entry_pos r =? _ then _ else _) as [[rc p1]|]; simpl; [|done].
  destruct (negb (rc =? 0)); [done|].
  destruct (csv_step cb1 cb2 p1 r d c) as [[]|]; simpl; try done.
  rewrite <- IH. f_equal. lia.
Qed.

Lemma parse_loop_app a b pos p r d p1 d1 :
  parse_loop cb1 cb2 a pos p r d = Ok (p1, d1, pos + Zlen a) ->
  parse_loop cb1 cb2 (a ++ b) pos p r d = parse_loop cb1 cb2 b (pos + Zlen a) p1 (p_regs p1) d1.
Proof.
  revert pos p r d. induction a as [|c a IH]; intros pos p r d; cbn [parse_loop app].
  { intros [= <- <-]. simpl. by rewrite parse_loop_stale, Z.add_0_r. }
  destruct (if entry_pos r =? _ then _ else _) as [[rc p2]|]; simpl; [|done].
  destruct (negb (rc =? 0)); [intros; simplify_eq; lia|].
  destruct (csv_step cb1 cb2 p2 r d c) as [[]|]; simpl; try done; [|intros; simplify_eq; lia].
  replace (pos + Z.of_nat (S (length a))) with (pos + 1 + Zlen a) by lia. apply IH.
Qed.
End Finish.

Lemma set_regs_same p : set_regs p (p_regs p) = p.
Proof. by destruct p. Qed.

Lemma csv_parse_nil {D} (cb1 : option (list Z -> bool -> D -> D)) cb2 p d :
  csv_parse cb1 cb2 p [] d = Ok (p, d, 0).
Proof. unfold csv_parse. destruct (entry_buf p); simpl; by rewrite set_regs_same. Qed.

(** ** A concrete allocator *)

(** [realloc] that always succeeds and clears the new bytes. *)
Definition realloc_zero (b : option (list Z)) (n : Z) : option (list Z) :=
  Some (take (Z.to_nat n) (default [] b) ++
        replicate (Z.to_nat n - length (default [] b)) 0).

Definition fresh_parser (o : Z) : csv_parser :=
  CsvParser (Regs ROW_NOT_BEGUN false 0 0) None 0 0 o CSV_QUOTE CSV_COMMA None None
    MEM_BLK_SIZE realloc_zero.

(** The callbacks of the examples record what they are given. *)
Inductive event : Set :=
| EvField (text : list Z) (q : bool)
| EvRow (c : Z).
Definition log_field (t : list Z) (q : bool) (d : list event) : list event := d ++ [EvField t q].
Definition log_row (c : Z) (d : list event) : list event := d ++ [EvRow c].

Lemma realloc_zero_ok : realloc_ok realloc_zero.
Proof.
  intros b n b' Hn [= <-]. split.
  - rewrite length_app, length_take, length_replicate. lia.
  - intros i x Hx Hi. rewrite lookup_app_l; [rewrite lookup_take_lt; [done|lia]|].
    apply lookup_lt_Some in Hx. rewrite length_take. lia.
Qed.

Lemma fresh_parser_wf o : csv_wf (fresh_parser o).
Proof. split; [constructor; simpl; try done; apply realloc_zero_ok|done]. Qed.

Lemma fresh_parser_mem o : mem_ok (fresh_parser o).
Proof. split; [done|]. intros b n _. by eexists. Qed.

(** ** Claims *)

(** C1. Memory safety and type soundness of [csv_parse]: from a well-formed
    parser (buffer as long as [entry_size] says, [entry_pos] within it,
    [spaces] within the field) and any input, [csv_parse] returns (no store or
    read outside [entry_buf], no loop bound exceeded), the parser it leaves is
    well formed, the count it returns is at most the length of the input, and
    it is smaller than the length only with an error status in the parser. *)
Theorem csv_parse_safe {D} (cb1 : option (list Z -> bool -> D -> D)) (cb2 : option (Z -> D -> D))
    (p : csv_parser) (s : list Z) (d : D) :
  csv_wf p ->
  exists p' d' n, csv_parse cb1 cb2 p s d = Ok (p', d', n) /\ csv_wf p' /\ 0 <= n <= Zlen s /\
    (n < Zlen s -> status p' = CSV_EPARSE \/ status p' = CSV_ENOMEM \/ status p' = CSV_ETOOBIG).
Proof.
  intros Hwf. destruct s as [|c s].
  { exists p, d, 0. rewrite csv_parse_nil. split_and!; done || (simpl; lia). }
  destruct (csv_parse_run cb1 cb2 p (c :: s) d Hwf) as (p' & d' & n & -> & H); [done|].
  exists p', d', n. split; [done|]. destruct H as [(Hn & Hwf' & _ & _ & _ & He)|H].
  - split_and!; try lia; try done. intros Hlt. destruct He as [?|[(? & _ & ? & _)|[_ ?]]]; [lia|auto..].
  - destruct H as (-> & -> & e & He & ->). split_and!; try lia.
    + destruct Hwf as [[? ? ? ?] Hr]. done.
    + simpl. intros _. intuition.
Qed.

Lemma csv_parse_safe_witness :
  exists p' d' n, csv_parse (Some log_field) (Some log_row) (fresh_parser 0) [97; 44; 98; 10] [] =
      Ok (p', d', n) /\ csv_wf p' /\ 0 <= n <= 4 /\
    (n < 4 -> status p' = CSV_EPARSE \/ status p' = CSV_ENOMEM \/ status p' = CSV_ETOOBIG).
Proof.
  apply (csv_parse_safe (Some log_field) (Some log_row) (fresh_parser 0) [97; 44; 98; 10] []).
  apply fresh_parser_wf.
Defined.

(** C2. Refinement: what [csv_parse] does with the [n] bytes it reports as
    processed is what the buffer-free automaton [arun] does with them: the same
    calls of the callbacks in the same order, and the same state of the field
    being read; and it stops short only where the automaton reports a
    strict-mode error or when memory runs out. *)
Theorem csv_parse_refines {D} (cb1 : option (list Z -> bool -> D -> D)) (cb2 : option (Z -> D -> D))
    (p : csv_parser) (s : list Z) (d : D) (p' : csv_parser) (d' : D) (n : Z) :
  csv_wf p -> csv_parse cb1 cb2 p s d = Ok (p', d', n) ->
  arun cb1 cb2 p (abs p) d (take (Z.to_nat n) s) 0 = (abs p', d', n) /\
  (n = Zlen s \/
   (exists c, s !! Z.to_nat n = Some c /\ status p' = CSV_EPARSE /\
      astep cb1 cb2 p (abs p') d' c = None) \/
   (n < Zlen s /\ (status p' = CSV_ENOMEM \/ status p' = CSV_ETOOBIG))).
Proof.
  intros Hwf Hp. destruct s as [|c s].
  { rewrite csv_parse_nil in Hp. simplify_eq. split; [done|by left]. }
  destruct (csv_parse_run cb1 cb2 p (c :: s) d Hwf) as (p1 & d1 & n1 & Hp1 & H); [done|].
  rewrite Hp in Hp1. simplify_eq. destruct H as [(Hn & _ & _ & Hc & Hrun & He)|H].
  - split; [apply Hrun|]. destruct He as [?|[(c' & ? & ? & Ha)|?]]; auto.
    right. left. exists c'. rewrite (astep_cfg _ _ p p1) by done. done.
  - destruct H as (-> & -> & e & He & ->). split; [done|]. right. right. simpl. split; [lia|done].
Qed.

(** A parse that stops at a strict-mode error: a quote after two letters. *)
Lemma csv_parse_refines_witness :
  exists p', csv_parse (Some log_field) (Some log_row) (fresh_parser CSV_STRICT) [97; 98; 34] [] =
      Ok (p', [], 2) /\ status p' = CSV_EPARSE /\
    arun (Some log_field) (Some log_row) (fresh_parser CSV_STRICT)
      (anew ROW_NOT_BEGUN) [] [97; 98] 0 = (abs p', [], 2).
Proof.
  eexists. split; [vm_compute; reflexivity|]. split; [reflexivity|].
  eapply (csv_parse_refines (Some log_field) (Some log_row) (fresh_parser CSV_STRICT)
            [97; 98; 34] [] _ [] 2); [apply fresh_parser_wf|vm_compute; reflexivity].
Defined.

(** C3. Streaming: a file fed to [csv_parse] in two pieces, the first of which
    is fully processed, gives exactly the parser, the callback data and (shifted
    by the length of the first piece) the count that one call on the whole
    gives. *)
Theorem csv_parse_streaming {D} (cb1 : option (list Z -> bool -> D -> D))
    (cb2 : option (Z -> D -> D)) (p p1 : csv_parser) (a b : list Z) (d d1 : D) :
  csv_wf p -> csv_parse cb1 cb2 p a d = Ok (p1, d1, Zlen a) ->
  csv_parse cb1 cb2 p (a ++ b) d =
  match csv_parse cb1 cb2 p1 b d1 with
  | Ok (p2, d2, n) => Ok (p2, d2, Zlen a + n)
  | Fault f => Fault f
  end.
Proof.
  intros Hwf Ha. destruct a as [|c a].
  { rewrite csv_parse_nil in Ha. simplify_eq. simpl.
    by destruct (csv_parse cb1 cb2 _ b _) as [[[??]?]|]. }
  destruct (csv_parse_run cb1 cb2 p (c :: a) d Hwf) as (p' & d' & n & Hp & H); [done|].
  rewrite Ha in Hp. simplify_eq. destruct H as [(_ & _ & [b1 Hb1] & _)|(? & _)]; [|simpl in *; lia].
  assert (csv_parse cb1 cb2 p' b d' = parse_loop cb1 cb2 b 0 p' (p_regs p') d') as ->
    by (unfold csv_parse; by rewrite Hb1).
  assert (forall q r, parse_loop cb1 cb2 (c :: a) 0 q r d = Ok (p', d', Zlen (c :: a)) ->
    parse_loop cb1 cb2 ((c :: a) ++ b) 0 q r d =
    shift_pos (Zlen (c :: a)) (parse_loop cb1 cb2 b 0 p' (p_regs p') d')) as Happ.
  { intros q r Hq. rewrite (parse_loop_app _ _ _ _ 0 _ _ _ p' d') by done.
    by rewrite <- parse_loop_shift, Z.add_comm. }
  revert Ha. unfold csv_parse. destruct (entry_buf p); [apply Happ|].
  change ((c :: a) ++ b) with (c :: (a ++ b)).
  destruct (csv_increase_buffer p) as [[rc q]|]; cbn -[parse_loop]; [|done].
  destruct (negb (rc =? 0)); [intros [= ]; lia|apply Happ].
Qed.

Lemma csv_parse_streaming_witness :
  exists p1, csv_parse (Some log_field) (Some log_row) (fresh_parser 0) [34; 97] [] =
      Ok (p1, [], 2) /\
    csv_parse (Some log_field) (Some log_row) (fresh_parser 0) ([34; 97] ++ [34; 10]) [] =
    match csv_parse (Some log_field) (Some log_row) p1 [34; 10] [] with
    | Ok (p2, d2, n) => Ok (p2, d2, 2 + n)
    | Fault f => Fault f
    end.
Proof.
  eexists. split; [vm_compute; reflexivity|].
  apply (csv_parse_streaming (Some log_field) (Some log_row) (fresh_parser 0));
    [apply fresh_parser_wf|vm_compute; reflexivity].
Defined.
