(* ===== verification/CsvRoundtrip.v ===== *)
(** * libcsv: end of input, the writer, and the write/parse round trip

    [csv_fini], [csv_write], [csv_write2], [csv_fwrite] and [csv_fwrite2] of
    [libcsv.c] against their specifications, and the theorem that a table
    written with [csv_write2] and read with [csv_parse] comes back unchanged. *)

From S2P Require Import Prelude Csv CsvSpec.

(** ** Specification of the writer *)

(** A quoted field: quotes are doubled. *)
Definition encode_body (q : Z) (f : list Z) : list Z :=
  flat_map (fun c => if c =? q then [q; q] else [c]) f.
Definition encode_field (q : Z) (f : list Z) : list Z := q :: encode_body q f ++ [q].

(** The characters of [s] put on a stream up to the first failure. *)
Fixpoint fputs {F} (fputc : Z -> F -> F * bool) (s : list Z) (fp : F) : F * bool :=
  match s with
  | [] => (fp, false)
  | c :: s => let '(fp, e) := fputc c fp in if e then (fp, true) else fputs fputc s fp
  end.

(** A field as [csv_write2] stores it in a buffer of the largest size needed. *)
Definition write_field (q : Z) (f : list Z) : list Z :=
  (csv_write2 (Some tt) (2 * Zlen f + 2) (Some f) q).1.

(** A row: its fields separated by [delim] and ended by [term]. *)
Fixpoint write_row (q delim term : Z) (row : list (list Z)) : list Z :=
  match row with
  | [] => []
  | [f] => write_field q f ++ [term]
  | f :: row => write_field q f ++ [delim] ++ write_row q delim term row
  end.
Definition write_table (q delim term : Z) (rows : list (list (list Z))) : list Z :=
  concat (write_row q delim term <$> rows).

Section Deliver.
Context {D : Type} (cb1 : option (list Z -> bool -> D -> D)) (cb2 : option (Z -> D -> D)).

(** The callbacks' view of a row and of a table. *)
Definition deliver_row (term : Z) (d : D) (row : list (list Z)) : D :=
  emit_row cb2 term (foldl (fun d f => emit_field cb1 true f d) d row).
Definition deliver_table (term : Z) (d : D) (rows : list (list (list Z))) : D :=
  foldl (deliver_row term) d rows.
End Deliver.

(** ** The writer *)

Lemma encode_body_length q f : Zlen f <= Zlen (encode_body q f) <= 2 * Zlen f.
Proof.
  induction f as [|c f IH]; simpl; [lia|]. destruct (c =? q); simpl; lia.
Qed.

Lemma encode_field_length q f : Zlen f + 2 <= Zlen (encode_field q f) <= 2 * Zlen f + 2.
Proof.
  pose proof (encode_body_length q f). unfold encode_field. simpl. rewrite length_app. simpl. lia.
Qed.

#[local] Arguments put_char : simpl never.

(** After the characters [w] the writer has stored the first [n] of them. *)
Definition wrote (n : Z) (w : list Z) : list Z * Z := (take (Z.to_nat n) w, Zlen w).

Lemma put_char_wrote n x w :
  0 <= n -> Zlen w < SIZE_MAX -> put_char n x (wrote n w) = wrote n (w ++ [x]).
Proof.
  intros Hn Hw. unfold put_char, wrote. rewrite Z.gtb_ltb.
  rewrite (proj2 (Z.ltb_lt _ _) Hw), length_app, Nat2Z.inj_add. simpl. f_equal.
  destruct (Z.ltb_spec (Zlen w) n).
  - rewrite !take_ge; [done|rewrite length_app; simpl; lia|lia].
  - by rewrite take_app_le by lia.
Qed.

Lemma write_loop_wrote n q f w :
  0 <= n -> Zlen w + Zlen (encode_body q f) <= SIZE_MAX ->
  write_loop n q f (wrote n w) = wrote n (w ++ encode_body q f).
Proof.
  intros Hn. revert w. induction f as [|c f IH]; intros w Hw; simpl; [by rewrite app_nil_r|].
  pose proof (encode_body_length q f). simpl in Hw. rewrite length_app in Hw.
  destruct (Z.eqb_spec c q) as [->|]; simpl in Hw.
  - rewrite !put_char_wrote by (rewrite ?length_app; simpl; lia).
    rewrite IH by (rewrite !length_app; simpl; lia). by rewrite <- !app_assoc.
  - rewrite put_char_wrote by lia. rewrite IH by (rewrite length_app; simpl; lia).
    by rewrite <- app_assoc.
Qed.

Lemma csv_write2_take (n q : Z) (f : list Z) :
  0 <= n -> 2 * Zlen f + 2 <= SIZE_MAX ->
  csv_write2 (Some tt) n (Some f) q =
  (take (Z.to_nat n) (encode_field q f), Zlen (encode_field q f)).
Proof.
  intros Hn Hf. pose proof (encode_body_length q f). unfold csv_write2.
  assert ((if n >? 0 then [q] else [], 1) = wrote n [q]) as ->.
  { unfold wrote. rewrite Z.gtb_ltb. destruct (Z.ltb_spec 0 n); simpl.
    - replace (Z.to_nat n) with (S (Z.to_nat (n - 1))) by lia. simpl. by rewrite take_nil.
    - by replace n with 0 by lia. }
  rewrite write_loop_wrote by (simpl; lia).
  rewrite put_char_wrote by (try rewrite length_app; simpl; lia). done.
Qed.

Lemma write_field_encode q f :
  2 * Zlen f + 2 <= SIZE_MAX -> write_field q f = encode_field q f.
Proof.
  intros H. unfold write_field. rewrite csv_write2_take by lia. simpl.
  apply take_ge. pose proof (encode_field_length q f). lia.
Qed.

Lemma fwrite_loop_fputs {F} (fputc : Z -> F -> F * bool) q f fp :
  fwrite_loop fputc q f fp = fputs fputc (encode_body q f) fp.
Proof.
  revert fp. induction f as [|c f IH]; intros fp; simpl; [done|].
  destruct (Z.eqb_spec c q) as [->|]; simpl.
  - destruct (fputc q fp) as [fp1 []]; [done|]. destruct (fputc q fp1) as [fp2 []]; [done|apply IH].
  - destruct (fputc c fp) as [fp1 []]; [done|apply IH].
Qed.

Lemma fputs_app {F} (fputc : Z -> F -> F * bool) s t fp :
  fputs fputc (s ++ t) fp =
  let '(fp, e) := fputs fputc s fp in if e then (fp, true) else fputs fputc t fp.
Proof.
  revert fp. induction s as [|c s IH]; intros fp; simpl; [done|].
  destruct (fputc c fp) as [fp1 []]; [done|apply IH].
Qed.

(** ** The automaton on written text *)

Section Read.
Context {D : Type} (cb1 : option (list Z -> bool -> D -> D)) (cb2 : option (Z -> D -> D)).

Lemma arun_app p a d s t n :
  arun cb1 cb2 p a d (s ++ t) n =
  let '(a1, d1, n1) := arun cb1 cb2 p a d s n in
  if n1 =? n + Zlen s then arun cb1 cb2 p a1 d1 t n1 else (a1, d1, n1).
Proof.
  revert a d n. induction s as [|c s IH]; intros a d n; simpl.
  { by rewrite Z.add_0_r, Z.eqb_refl. }
  destruct (astep cb1 cb2 p a d c) as [[a1 d1]|].
  - rewrite IH. by replace (n + Z.of_nat (S (length s))) with (n + 1 + Zlen s) by lia.
  - destruct (Z.eqb_spec n (n + Z.of_nat (S (length s)))); [lia|done].
Qed.

Lemma arun_app_full p a d s t n a1 d1 :
  arun cb1 cb2 p a d s n = (a1, d1, n + Zlen s) ->
  arun cb1 cb2 p a d (s ++ t) n = arun cb1 cb2 p a1 d1 t (n + Zlen s).
Proof. intros H. by rewrite arun_app, H, Z.eqb_refl. Qed.

(** A run that stops at a strict-mode error inside [s] does not consume [s]. *)
Lemma arun_stuck p a d s m c a' d' n :
  arun cb1 cb2 p a d (take m s) n = (a', d', n + Z.of_nat m) -> s !! m = Some c ->
  astep cb1 cb2 p a' d' c = None -> arun cb1 cb2 p a d s n = (a', d', n + Z.of_nat m).
Proof.
  intros Hr Hc Ha. rewrite <- (take_drop_middle s m c Hc).
  assert (length (take m s) = m) by (apply lookup_lt_Some in Hc; rewrite length_take; lia).
  rewrite arun_app, Hr. rewrite (proj2 (Z.eqb_eq _ _)) by lia. simpl. by rewrite Ha.
Qed.

Context (p : csv_parser).
(** The separators of the table are what the parser takes them for. *)
Definition separators_ok (term : Z) : Prop :=
  space_char p (quote_char p) = false /\ term_char p (quote_char p) = false /\
  delim_char p <> quote_char p /\
  term_char p (delim_char p) = false /\ term_char p term = true /\ term <> quote_char p.

Context (term : Z) (Hsep : separators_ok term).
Let q := quote_char p.

Lemma astep_open_quote text d :
  astep cb1 cb2 p (AField FIELD_BEGUN true 0 text) d q =
  Some (AField FIELD_MIGHT_HAVE_ENDED true 0 (text ++ [q]), d).
Proof. unfold astep, q; simpl. by rewrite Z.eqb_refl. Qed.

Lemma astep_second_quote text d :
  astep cb1 cb2 p (AField FIELD_MIGHT_HAVE_ENDED true 0 text) d q =
  Some (AField FIELD_BEGUN true 0 text, d).
Proof.
  destruct Hsep as (Hs & Ht & Hd & _ & _ & _). unfold astep, q; simpl.
  rewrite (proj2 (Z.eqb_neq _ _)) by congruence. by rewrite Ht, Hs, Z.eqb_refl.
Qed.

Lemma astep_plain text d c :
  c <> q ->
  astep cb1 cb2 p (AField FIELD_BEGUN true 0 text) d c =
  Some (AField FIELD_BEGUN true 0 (text ++ [c]), d).
Proof.
  intros Hc. unfold astep, q in *; simpl. rewrite (proj2 (Z.eqb_neq _ _)) by done.
  unfold apush; simpl. by destruct (_ || _).
Qed.

Lemma arun_body f text d n :
  arun cb1 cb2 p (AField FIELD_BEGUN true 0 text) d (encode_body q f) n =
  (AField FIELD_BEGUN true 0 (text ++ f), d, n + Zlen (encode_body q f)).
Proof.
  revert text n. induction f as [|c f IH]; intros text n; simpl.
  { by rewrite app_nil_r, Z.add_0_r. }
  destruct (Z.eqb_spec c q) as [->|Hc]; cbn [app arun].
  - rewrite astep_open_quote, astep_second_quote, IH, <- app_assoc. f_equal. simpl. lia.
  - rewrite astep_plain, IH, <- app_assoc by done. f_equal. simpl. lia.
Qed.

(** Reading a field from a not-begun state up to its closing quote. *)
Lemma arun_field st f d n :
  st = ROW_NOT_BEGUN \/ st = FIELD_NOT_BEGUN ->
  arun cb1 cb2 p (anew st) d (encode_field q f) n =
  (AField FIELD_MIGHT_HAVE_ENDED true 0 (f ++ [q]), d, n + Zlen (encode_field q f)).
Proof.
  intros Hst. destruct Hsep as (Hs & Ht & Hd & _ & _ & _).
  assert (astep cb1 cb2 p (anew st) d q = Some (AField FIELD_BEGUN true 0 [], d)) as Hq.
  { unfold astep, q. destruct Hst as [-> | ->]; simpl; rewrite Hs, Ht; simpl;
      rewrite (proj2 (Z.eqb_neq _ _)), Z.eqb_refl by congruence; done. }
  unfold encode_field. cbn [arun]. rewrite Hq.
  rewrite (arun_app_full p _ _ _ _ _ _ _ (arun_body f [] d (n + 1))). cbn [arun].
  assert (astep cb1 cb2 p (AField FIELD_BEGUN true 0 ([] ++ f)) d q =
          Some (AField FIELD_MIGHT_HAVE_ENDED true 0 (f ++ [q]), d)) as ->.
  { apply astep_open_quote. }
  f_equal. simpl. rewrite length_app. simpl. lia.
Qed.

Lemma chop_snoc (f : list Z) c : chop 1 (f ++ [c]) = f.
Proof. unfold chop. rewrite length_app; simpl. apply take_app_length'. lia. Qed.

Lemma astep_close_delim f d :
  astep cb1 cb2 p (AField FIELD_MIGHT_HAVE_ENDED true 0 (f ++ [q])) d (delim_char p) =
  Some (anew FIELD_NOT_BEGUN, emit_field cb1 true f d).
Proof. unfold astep; simpl. by rewrite Z.eqb_refl, chop_snoc. Qed.

Lemma astep_close_term f d :
  astep cb1 cb2 p (AField FIELD_MIGHT_HAVE_ENDED true 0 (f ++ [q])) d term =
  Some (anew ROW_NOT_BEGUN, emit_row cb2 term (emit_field cb1 true f d)).
Proof.
  destruct Hsep as (_ & _ & _ & Htd & Htt & _). unfold astep; simpl.
  rewrite (proj2 (Z.eqb_neq term _)) by congruence. by rewrite Htt, chop_snoc.
Qed.

Lemma arun_row row st d n :
  st = ROW_NOT_BEGUN \/ st = FIELD_NOT_BEGUN -> row <> [] ->
  Forall (fun f => 2 * Zlen f + 2 <= SIZE_MAX) row ->
  arun cb1 cb2 p (anew st) d (write_row q (delim_char p) term row) n =
  (anew ROW_NOT_BEGUN, deliver_row cb1 cb2 term d row,
   n + Zlen (write_row q (delim_char p) term row)).
Proof.
  intros Hst Hrow Hall. revert st d n Hst. induction row as [|f row IH]; intros st d n Hst; [done|].
  inversion Hall as [|? ? Hf Hall']; subst.
  destruct row as [|f2 row].
  - simpl. rewrite write_field_encode by done.
    rewrite (arun_app_full p _ _ _ _ _ _ _ (arun_field st f d n Hst)). cbn [arun].
    rewrite astep_close_term. unfold deliver_row. f_equal. rewrite length_app. cbn [length]. lia.
  - change (write_row q (delim_char p) term (f :: f2 :: row)) with
      (write_field q f ++ [delim_char p] ++ write_row q (delim_char p) term (f2 :: row)).
    rewrite write_field_encode by done.
    rewrite (arun_app_full p _ _ _ _ _ _ _ (arun_field st f d n Hst)).
    cbn [app arun]. rewrite astep_close_delim, IH by auto. f_equal.
    rewrite !length_app. cbn [length app]. lia.
Qed.

Lemma arun_table rows d n :
  Forall (fun row => row <> [] /\ Forall (fun f => 2 * Zlen f + 2 <= SIZE_MAX) row) rows ->
  arun cb1 cb2 p (anew ROW_NOT_BEGUN) d (write_table q (delim_char p) term rows) n =
  (anew ROW_NOT_BEGUN, deliver_table cb1 cb2 term d rows,
   n + Zlen (write_table q (delim_char p) term rows)).
Proof.
  intros Hall. revert d n. induction Hall as [|row rows [Hne Hrow] Hall IH]; intros d n; simpl.
  { by rewrite Z.add_0_r. }
  unfold write_table in *. simpl.
  rewrite (arun_app_full p _ _ _ _ _ _ _ (arun_row row _ d n (or_introl eq_refl) Hne Hrow)).
  rewrite IH. f_equal. rewrite length_app. unfold fmap. lia.
Qed.
End Read.

(** ** Complete runs *)

Section Complete.
Context {D : Type} (cb1 : option (list Z -> bool -> D -> D)) (cb2 : option (Z -> D -> D)).

(** With enough memory a run stops short only on a strict-mode error. *)
Lemma csv_parse_mem p s d p' d' n :
  csv_wf p -> mem_ok p -> status p = 0 -> Zlen (a_text (abs p)) + Zlen s + 1 < SIZE_MAX ->
  csv_parse cb1 cb2 p s d = Ok (p', d', n) -> status p' = 0 \/ status p' = CSV_EPARSE.
Proof.
  intros [Hok Hr] Hm Hst Hlen. destruct s as [|c s].
  { rewrite csv_parse_nil. intros [= <- <- <-]. auto. }
  unfold csv_parse. destruct (entry_buf p) as [b|] eqn:Hb.
  { apply parse_loop_mem; eauto. rewrite <- (abs_length p (p_regs p)); eauto. }
  destruct (increase_mem_ok p Hok Hm) as (p1 & -> & Hg).
  { pose proof (bo_size p Hok) as Hz. rewrite Hb in Hz. unfold SIZE_MAX. lia. }
  cbn -[parse_loop].
  destruct (grown_ok p p1 (p_regs p) Hok Hg) as (Hok1 & Hl & _ & _ & Hb1).
  { pose proof (bo_size p Hok) as Hz. rewrite Hb in Hz. rewrite Hr. simpl. lia. }
  destruct Hg as (b' & Hp1 & _).
  assert (p_regs p1 = Regs ROW_NOT_BEGUN false 0 0) as Hreg by (by rewrite Hp1, <- Hr).
  apply parse_loop_mem; try done.
  - rewrite Hreg. split_and!; simpl; done || lia.
  - by rewrite Hp1.
  - by rewrite Hp1.
  - rewrite Hreg. simpl. simpl in Hlen. lia.
Qed.

(** A run on input the automaton accepts consumes all of it. *)
Lemma csv_parse_complete p s d a1 d1 :
  csv_wf p -> mem_ok p -> status p = 0 -> Zlen (a_text (abs p)) + Zlen s + 1 < SIZE_MAX ->
  arun cb1 cb2 p (abs p) d s 0 = (a1, d1, Zlen s) ->
  exists p', csv_parse cb1 cb2 p s d = Ok (p', d1, Zlen s) /\ abs p' = a1 /\ csv_wf p'.
Proof.
  intros Hwf Hm Hst Hlen Hrun. destruct s as [|c s].
  { rewrite csv_parse_nil. simpl in *. simplify_eq. eauto. }
  destruct (csv_parse_run cb1 cb2 p (c :: s) d Hwf) as (p' & d' & n & Hp & H); [done|].
  pose proof (csv_parse_mem p _ d p' d' n Hwf Hm Hst Hlen Hp) as Hst'.
  destruct H as [(Hn & Hwf' & _ & Hc & Hr & He)|(_ & _ & e & He & ->)].
  2: { simpl in Hst'. unfold CSV_EPARSE, CSV_ENOMEM, CSV_ETOOBIG in *. lia. }
  specialize (Hr 0). destruct He as [->|[(c' & Hc' & _ & Ha)|[_ Hbad]]].
  - rewrite take_ge in Hr by lia. rewrite Hr in Hrun. simplify_eq. eauto.
  - assert (arun cb1 cb2 p (abs p) d (c :: s) 0 = (abs p', d', 0 + Z.of_nat (Z.to_nat n))) as Hs.
    { eapply arun_stuck; [|exact Hc'|by rewrite (astep_cfg _ _ p p') by done].
      by rewrite Hr, Z2Nat.id by lia. }
    rewrite Hs in Hrun. simplify_eq. apply lookup_lt_Some in Hc'. lia.
  - unfold CSV_EPARSE, CSV_ENOMEM, CSV_ETOOBIG in *. lia.
Qed.
End Complete.

(** ** Claims *)

(** [csv_write2] behaves like [snprintf]: for any destination size it stores
    exactly the first [dest_size] characters of the quoted field (the quote, the
    text with every quote doubled, the quote) and returns its full length. *)
Lemma csv_write2_spec (n q : Z) (f : list Z) :
  0 <= n -> 2 * Zlen f + 2 <= SIZE_MAX ->
  csv_write2 (Some tt) n (Some f) q =
  (take (Z.to_nat n) (encode_field q f), Zlen (encode_field q f)).
Proof. apply csv_write2_take. Qed.

(** [csv_fwrite2] puts the same quoted field on a stream, character by
    character, stops at the first character the stream refuses, and returns -1
    ([EOF]) exactly when one was refused. *)
Lemma csv_fwrite2_spec {F} (fputc : Z -> F -> F * bool) (fp : F) (f : list Z) (q : Z) :
  csv_fwrite2 fputc (Some fp) (Some f) q =
  let '(fp', e) := fputs fputc (encode_field q f) fp in (Some fp', if e then -1 else 0).
Proof.
  unfold csv_fwrite2, encode_field. cbn [fputs].
  destruct (fputc q fp) as [fp1 []]; [done|].
  rewrite fwrite_loop_fputs, fputs_app. destruct (fputs fputc (encode_body q f) fp1) as [fp2 []];
    [done|]. simpl. by destruct (fputc q fp2) as [fp3 []].
Qed.

(** C6. Round trip: a table whose fields are written with [csv_write2], separated
    by the parser's delimiter and ended by a terminator, is consumed completely
    by [csv_parse] in any mode (strict included), and the callbacks get exactly
    the table: every field with its original bytes, flagged as quoted, and every
    row end, in order. *)
Theorem csv_roundtrip {D} (cb1 : option (list Z -> bool -> D -> D)) (cb2 : option (Z -> D -> D))
    (p : csv_parser) (term : Z) (rows : list (list (list Z))) (d : D) :
  csv_wf p -> mem_ok p -> status p = 0 -> abs p = anew ROW_NOT_BEGUN ->
  separators_ok p term ->
  Forall (fun row => row <> [] /\ Forall (fun f => 2 * Zlen f + 2 <= SIZE_MAX) row) rows ->
  Zlen (write_table (quote_char p) (delim_char p) term rows) + 1 < SIZE_MAX ->
  exists p', csv_parse cb1 cb2 p (write_table (quote_char p) (delim_char p) term rows) d =
      Ok (p', deliver_table cb1 cb2 term d rows,
          Zlen (write_table (quote_char p) (delim_char p) term rows)) /\
    abs p' = anew ROW_NOT_BEGUN /\ csv_wf p'.
Proof.
  intros Hwf Hm Hst Habs Hsep Hrows Hlen. apply csv_parse_complete; try done.
  - rewrite Habs. simpl. lia.
  - rewrite Habs. by apply (arun_table cb1 cb2 p term Hsep rows d 0).
Qed.

Lemma csv_roundtrip_witness :
  let rows := [[[65; 34]; []]; [[44; 10]]] in
  exists p', csv_parse (Some log_field) (Some log_row) (fresh_parser CSV_STRICT)
               (write_table 34 44 10 rows) [] =
             Ok (p', [EvField [65; 34] true; EvField [] true; EvRow 10;
                      EvField [44; 10] true; EvRow 10], 14) /\
             abs p' = anew ROW_NOT_BEGUN /\ csv_wf p'.
Proof.
  apply (csv_roundtrip (Some log_field) (Some log_row) (fresh_parser CSV_STRICT) 10
           [[[65; 34]; []]; [[44; 10]]] []).
  - apply fresh_parser_wf.
  - apply fresh_parser_mem.
  - done.
  - done.
  - done.
  - repeat (constructor; try done).
  - done.
Defined.

(** ** The end of the input *)

(** The text of the field that is open at the end, if a row is. *)
Definition last_field (a : afield) : option (list Z) :=
  match a_state a with
  | ROW_NOT_BEGUN => None
  | FIELD_NOT_BEGUN | FIELD_BEGUN => Some (field_text a)
  | FIELD_MIGHT_HAVE_ENDED => Some (chop (a_spaces a + 1) (a_text a))
  end.

(** What [CSV_APPEND_NULL] does to the buffer when the field [t] is delivered: a
    NUL at the second place after the text, where there has to be room. *)
Definition null_fits (p : csv_parser) (t : list Z) : bool :=
  negb (has_opt p CSV_APPEND_NULL) || (Zlen t + 1 <? entry_size p).
Definition with_null (p : csv_parser) (t : list Z) : csv_parser :=
  if has_opt p CSV_APPEND_NULL
  then set_buf p (Some (<[S (length t) := 0]> (default [] (entry_buf p)))) (entry_size p) else p.

Lemma SUBMIT_FIELD_spec {D} (cb1 : option (list Z -> bool -> D -> D)) p b r d :
  buf_ok p -> entry_buf p = Some b -> 0 <= entry_pos r <= buf_limit p ->
  0 <= (if quoted r then 0 else spaces r) <= entry_pos r ->
  let t := chop (if quoted r then 0 else spaces r) (take (Z.to_nat (entry_pos r)) b) in
  SUBMIT_FIELD cb1 p r d =
  if null_fits p t then Ok (with_null p t, Regs FIELD_NOT_BEGUN false 0 0, emit_field cb1 (quoted r) t d)
  else Fault OutOfBounds.
Proof.
  intros Hok Hb Hpos Hn t. pose proof (buf_limit_lt p b Hok Hb) as [Hl Hl'].
  pose proof (bo_size p Hok) as Hs. rewrite Hb in Hs. destruct Hs as [Hs _].
  pose proof (bo_max p Hok) as Hmx. unfold SIZE_MAX in Hmx. unfold t. rewrite chop_take by lia. clear t.
  set (pos := entry_pos r - (if quoted r then 0 else spaces r)).
  assert (0 <= pos <= entry_pos r) as Hp by (unfold pos; lia).
  assert (Zlen (take (Z.to_nat pos) b) = pos) as Ht by (rewrite length_take; lia).
  unfold SUBMIT_FIELD, null_fits, with_null.
  assert ((if quoted r then entry_pos r else u64 (entry_pos r - spaces r)) = pos) as ->
    by (unfold pos; destruct (quoted r); [lia|apply u64_small; lia]).
  rewrite Hb. cbn [default from_option id]. destruct (has_opt p CSV_APPEND_NULL); cbn [negb orb].
  - specialize (Hl' eq_refl). rewrite Ht, u64_small by lia. unfold wr. rewrite Hs, (proj2 (Z.leb_le 0 _)) by lia.
    cbn [andb]. destruct (Z.ltb_spec (pos + 1) (entry_size p)); [|done]. rewrite !bind_Ok. cbn [entry_buf set_buf default from_option id].
    replace (S (length (take (Z.to_nat pos) b))) with (Z.to_nat (pos + 1)) by lia.
    unfold emit_field. destruct cb1; [|done].
    rewrite check_true, !bind_Ok by (apply Z.leb_le; rewrite length_insert; lia).
    by rewrite take_insert_ge by lia.
  - rewrite bind_Ok, Hb. cbn [default from_option id]. unfold emit_field. destruct cb1; [|done].
    by rewrite check_true, !bind_Ok by (apply Z.leb_le; lia).
Qed.

(** C7. [csv_fini] on any well-formed parser.  It reports [CSV_EPARSE] and changes
    nothing else exactly when the last field is an unterminated quoted field and
    both strict options are set.  Otherwise it delivers the open field and row
    (closed with -1, without the spaces and the closing quote that turned out not
    to be text), delivers nothing when no row is open, and resets the parser; with
    [CSV_APPEND_NULL] it also stores a NUL in the buffer, and faults exactly when
    the place for it is outside the buffer. *)
Theorem csv_fini_spec {D} (cb1 : option (list Z -> bool -> D -> D)) (cb2 : option (Z -> D -> D))
    (p : csv_parser) (d : D) :
  csv_wf p ->
  csv_fini cb1 cb2 p d =
  if bool_decide (a_state (abs p) = FIELD_BEGUN) && a_quoted (abs p) &&
     has_opt p CSV_STRICT && has_opt p CSV_STRICT_FINI
  then Ok (-1, set_status p CSV_EPARSE, d)
  else
    let reset p := set_status (set_regs p (Regs ROW_NOT_BEGUN false 0 0)) 0 in
    match last_field (abs p) with
    | None => Ok (0, reset p, d)
    | Some t =>
        if null_fits p t then Ok (0, reset (with_null p t), emit_row cb2 (-1) (emit_field cb1 (a_quoted (abs p)) t d))
        else Fault OutOfBounds
    end.
Proof.
  intros [Hok Hr]. unfold csv_fini. change (a_state (abs p)) with (pstate (p_regs p)).
  change (a_quoted (abs p)) with (quoted (p_regs p)).
  destruct (_ && _ && _ && _); [done|]. unfold last_field, field_text.
  change (a_state (abs p)) with (pstate (p_regs p)). change (a_quoted (abs p)) with (quoted (p_regs p)).
  change (a_spaces (abs p)) with (spaces (p_regs p)).
  destruct (entry_buf p) as [b|] eqn:Hb; [|by rewrite Hr].
  change (a_text (abs p)) with (take (Z.to_nat (entry_pos (p_regs p))) (default [] (entry_buf p))).
  rewrite Hb. cbn [default].
  pose proof (buf_limit_lt p b Hok Hb) as [Hl _]. pose proof (bo_size p Hok) as Hs.
  pose proof (bo_max p Hok) as Hmx. unfold SIZE_MAX in Hmx.
  rewrite Hb in Hs. destruct Hr as (Hsp & Hpos & Hr).
  assert (forall t, chop 0 t = t) as Hc0 by (intros t; unfold chop; rewrite take_ge; [done|lia]).
  destruct (pstate (p_regs p)) eqn:Est; [done| | |].
  - destruct Hr as (Hq & Hs0 & Hp0). rewrite (SUBMIT_FIELD_spec cb1 p b) by (rewrite ?Hq; done || lia).
    rewrite Hq. by destruct (null_fits _ _).
  - rewrite (SUBMIT_FIELD_spec cb1 p b) by (done || destruct (quoted _); lia).
    destruct (quoted (p_regs p)); rewrite ?Hc0; by destruct (null_fits _ _).
  - destruct Hr as [Hq Hsp1]. rewrite u64_small by lia.
    rewrite (SUBMIT_FIELD_spec cb1 p b) by (simpl; rewrite ?Hq; done || lia). simpl. rewrite Hq, Hc0, !chop_take by lia.
    by destruct (null_fits _ _).
Qed.

(** A parser that has read [a,"b" ], with the quote and the space of the open
    field still in doubt. *)
Definition open_field : csv_parser :=
  match csv_parse (Some log_field) (Some log_row) (fresh_parser CSV_APPEND_NULL) [97; 44; 34; 98; 34; 32] [] with
  | Ok (p, _, _) => p
  | Fault _ => fresh_parser 0
  end.

Lemma csv_fini_spec_witness :
  exists p', csv_fini (Some log_field) (Some log_row) open_field [] = Ok (0, p', [EvField [98] true; EvRow (-1)]).
Proof.
  eexists. rewrite (csv_fini_spec (Some log_field) (Some log_row) open_field []); [vm_compute; reflexivity|].
  unfold open_field.
  destruct (csv_parse_run (Some log_field) (Some log_row) (fresh_parser CSV_APPEND_NULL) [97; 44; 34; 98; 34; 32] [])
    as (p & d & n & -> & [(_ & Hp & _)|(_ & _ & e & _ & ->)]).
  - apply fresh_parser_wf.
  - discriminate.
  - exact Hp.
  - destruct (fresh_parser_wf CSV_APPEND_NULL) as [[? ? ? ?] Hr]. split; [by split|exact Hr].
Defined.

(** With [CSV_APPEND_NULL] the terminator is stored one past the place the
    buffer check leaves for it: a 127-byte field at the end of the input makes
    [csv_fini] write outside the 128-byte buffer. *)
Lemma csv_fini_append_null_overflow :
  exists p, csv_parse (Some log_field) (Some log_row) (fresh_parser CSV_APPEND_NULL)
              (replicate 127 97) [] = Ok (p, [], 127) /\
            status p = CSV_SUCCESS /\ entry_size p = 128 /\
            csv_fini (Some log_field) (Some log_row) p [] = Fault OutOfBounds.
Proof.
  eexists. split; [vm_compute; reflexivity|]. split_and!; vm_compute; reflexivity.
Qed.
