(* ===== verification/Delta.v ===== *)
(** * Delta compression

    Models [src/src/ssfossil/fossil/src/delta.c]: the codec ssfossil stores
    almost every artifact with.  A buffer is the list of its bytes; a text read
    past its end gives the NUL the callers keep there ([cget]).  The hash tables
    of [delta_create] are accessed through [rd], so an index outside them is a
    fault.  In [delta_apply] the position [zDelta] together with [lenDelta] is
    the list of the bytes not yet read, and [cap] is the number of bytes the
    caller allocated at [zOut]. *)

From S2P Require Import Prelude.

(** ** The rolling hash *)

Definition NHASH : Z := 16.

Record hash := Hash { h_a : Z; h_b : Z; h_i : Z; h_z : list Z }.

Definition hash_init (z : list Z) : hash :=
  let '(a, b) :=
    foldl (fun '(a, b) i => (u16 (a + schar (cget z i)), u16 (b + (NHASH - i) * schar (cget z i))))
      (0, 0) (seqZ 0 NHASH) in
  Hash (Z.land a 65535) (Z.land b 65535) 0 ((fun i => cget z i) <$> seqZ 0 NHASH).

(** [c] is the byte passed as the argument. *)
Definition hash_next (h : hash) (c : Z) : hash :=
  let old := u16 (schar (cget (h_z h) (h_i h))) in
  let a := u16 (h_a h - old + schar c) in
  Hash a (u16 (h_b h - NHASH * old + a)) (Z.land (h_i h + 1) (NHASH - 1))
    (<[Z.to_nat (h_i h) := c]> (h_z h)).

Definition hash_32bit (h : hash) : Z :=
  Z.lor (Z.land (h_a h) 65535) (Z.shiftl (Z.land (h_b h) 65535) 16).

(** ** Base-64 integers *)

Definition zDigits : list Z :=
  cstr "0123456789ABCDEFGHIJKLMNOPQRSTUVWXYZ_abcdefghijklmnopqrstuvwxyz~"%string.

(** The digits most significant first; six are enough for 32 bits. *)
Fixpoint putInt_loop (fuel : nat) (v : Z) (acc : list Z) : list Z :=
  match fuel with
  | O => acc
  | S fuel =>
      if v >? 0 then putInt_loop fuel (Z.shiftr v 6) (cget zDigits (Z.land v 63) :: acc) else acc
  end.

(** The characters [putInt] stores at [*pz]. *)
Definition putInt (v : Z) : list Z := if v =? 0 then [48] else putInt_loop 6 v [].

Definition zValue : list Z :=
  [-1;-1;-1;-1;-1;-1;-1;-1; -1;-1;-1;-1;-1;-1;-1;-1;
   -1;-1;-1;-1;-1;-1;-1;-1; -1;-1;-1;-1;-1;-1;-1;-1;
   -1;-1;-1;-1;-1;-1;-1;-1; -1;-1;-1;-1;-1;-1;-1;-1;
    0; 1; 2; 3; 4; 5; 6; 7;  8; 9;-1;-1;-1;-1;-1;-1;
   -1;10;11;12;13;14;15;16; 17;18;19;20;21;22;23;24;
   25;26;27;28;29;30;31;32; 33;34;35;-1;-1;-1;-1;36;
   -1;37;38;39;40;41;42;43; 44;45;46;47;48;49;50;51;
   52;53;54;55;56;57;58;59; 60;61;62;-1;-1;-1;63;-1].

Definition digit_value (c : Z) : Z := nth (Z.to_nat (Z.land 127 c)) zValue (-1).

(** Returns the value and the text after the digits. *)
Fixpoint getInt_loop (z : list Z) (v : Z) : Z * list Z :=
  match z with
  | [] => (v, [])
  | c :: z' =>
      if digit_value c >=? 0
      then getInt_loop z' (u32 (u32 (Z.shiftl v 6) + digit_value c)) else (v, z)
  end.
Definition getInt (z : list Z) : Z * list Z := getInt_loop z 0.

Fixpoint digit_count_loop (fuel : nat) (v i x : Z) : result Z :=
  if u32 v >=? x then
    match fuel with
    | O => Fault OutOfFuel
    | S fuel => digit_count_loop fuel v (i + 1) (u32 (Z.shiftl x 6))
    end
  else Ok i.
Definition digit_count (v : Z) : result Z := digit_count_loop 6 v 1 64.

(** ** The checksum *)

Fixpoint checksum16 (z : list Z) (sum : Z) : Z * list Z :=
  match z with
  | z0 :: z1 :: z2 :: z3 :: z4 :: z5 :: z6 :: z7 ::
    z8 :: z9 :: z10 :: z11 :: z12 :: z13 :: z14 :: z15 :: z' =>
      let sum := u32 (sum + u32 (Z.shiftl (z0 + z4 + z8 + z12) 24)) in
      let sum := u32 (sum + u32 (Z.shiftl (z1 + z5 + z9 + z13) 16)) in
      let sum := u32 (sum + u32 (Z.shiftl (z2 + z6 + z10 + z14) 8)) in
      checksum16 z' (u32 (sum + (z3 + z7 + z11 + z15)))
  | _ => (sum, z)
  end.

Fixpoint checksum4 (z : list Z) (sum : Z) : Z * list Z :=
  match z with
  | z0 :: z1 :: z2 :: z3 :: z' =>
      checksum4 z' (u32 (sum + Z.lor (Z.lor (Z.lor (Z.shiftl z0 24) (Z.shiftl z1 16))
                                        (Z.shiftl z2 8)) z3))
  | _ => (sum, z)
  end.

Definition checksum (z : list Z) : Z :=
  let '(sum, z) := checksum16 z 0 in
  let '(sum, z) := checksum4 z sum in
  match z with
  | [z0; z1; z2] => u32 (u32 (u32 (sum + Z.shiftl z2 8) + Z.shiftl z1 16) + Z.shiftl z0 24)
  | [z0; z1] => u32 (u32 (sum + Z.shiftl z1 16) + Z.shiftl z0 24)
  | [z0] => u32 (sum + Z.shiftl z0 24)
  | _ => sum
  end.

(** ** Creating a delta *)

Section Create.
(** Whether [malloc] of a number of bytes succeeds. *)
Context (malloc : Z -> bool).
Context (zSrc zOut : list Z).
Let lenSrc := Zlen zSrc.
Let lenOut := Zlen zOut.

(** The bucket of the source block at [i]. *)
Definition block_hash (i nHash : Z) : Z :=
  hash_32bit (hash_init (drop (Z.to_nat i) zSrc)) mod nHash.

(** The hash table over the source: [landmark] and [collide]. *)
Fixpoint landmark_loop (fuel : nat) (i nHash : Z) (landmark collide : list Z) :
    result (list Z * list Z) :=
  if i <? lenSrc - NHASH then
    match fuel with
    | O => Fault OutOfFuel
    | S fuel =>
        let hv := block_hash i nHash in
        l ← rd landmark hv;
        collide ← wr collide (i / NHASH) l;
        landmark ← wr landmark hv (i / NHASH);
        landmark_loop fuel (i + NHASH) nHash landmark collide
    end
  else Ok (landmark, collide).

(** [j] after the forward loop: the number of equal characters from [x], [y]. *)
Fixpoint match_forward (l1 l2 : list Z) : Z :=
  match l1, l2 with
  | c1 :: l1, c2 :: l2 => if c1 =? c2 then 1 + match_forward l1 l2 else 0
  | _, _ => 0
  end.

(** [k] after the backward loop, which runs at most [i] times. *)
Fixpoint match_back (fuel : nat) (iSrc base i k : Z) : Z :=
  match fuel with
  | O => k
  | S fuel =>
      if (k <? iSrc) && (k <=? i) && (cget zSrc (iSrc - k) =? cget zOut (base + i - k))
      then match_back fuel iSrc base i (k + 1) else k
  end.

Record best := Best { bestCnt : Z; bestOfst : Z; bestLitsz : Z }.

(** The match at landmark block [iBlock] against [zOut[base+i]]. *)
Definition try_block (base i iBlock : Z) (b : best) : result best :=
  let iSrc := iBlock * NHASH in
  let j := match_forward (drop (Z.to_nat iSrc) zSrc) (drop (Z.to_nat (base + i)) zOut) - 1 in
  let k := match_back (Z.to_nat i) iSrc base i 1 - 1 in
  let ofst := iSrc - k in
  let cnt := j + k + 1 in
  let litsz := i - k in
  d1 ← digit_count (i - k);
  d2 ← digit_count cnt;
  d3 ← digit_count ofst;
  let sz := d1 + d2 + d3 + 3 in
  Ok (if (cnt >=? sz) && (cnt >? bestCnt b) then Best cnt (iSrc - k) litsz else b).

(** [while( iBlock>=0 && (limit--)>0 )] *)
Fixpoint chain_loop (limit : nat) (collide : list Z) (base i iBlock : Z) (b : best) : result best :=
  if iBlock >=? 0 then
    match limit with
    | O => Ok b
    | S limit =>
        b ← try_block base i iBlock b;
        iBlock ← rd collide iBlock;
        chain_loop limit collide base i iBlock b
    end
  else Ok b.

(** [while( 1 )]: slide the window until a block matches ([Some]) or the end of
    the target is reached ([None]). *)
Fixpoint scan_loop (fuel : nat) (landmark collide : list Z) (nHash base i : Z) (h : hash) :
    result (option best) :=
  let hv := hash_32bit h mod nHash in
  iBlock ← rd landmark hv;
  b ← chain_loop 250 collide base i iBlock (Best 0 0 0);
  if bestCnt b >? 0 then Ok (Some b)
  else if base + i + NHASH >? lenOut then Ok None
  else match fuel with
       | O => Fault OutOfFuel
       | S fuel =>
           scan_loop fuel landmark collide nHash base (i + 1)
             (hash_next h (cget zOut (base + i + NHASH)))
       end.

(** [putInt(n); ':'; memcpy] and [putInt(n); '@'; putInt(ofst); ','] *)
Definition put_insert (base n : Z) : list Z := putInt n ++ [58] ++ slice zOut base n.
Definition put_copy (cnt ofst : Z) : list Z := putInt cnt ++ [64] ++ putInt ofst ++ [44].

(** [while( base+NHASH<lenOut )]: returns [base] and the delta so far. *)
Fixpoint delta_loop (fuel : nat) (landmark collide : list Z) (nHash base : Z) (zDelta : list Z) :
    result (Z * list Z) :=
  if base + NHASH <? lenOut then
    match fuel with
    | O => Fault OutOfFuel
    | S fuel =>
        o ← scan_loop (length zOut) landmark collide nHash base 0
              (hash_init (drop (Z.to_nat base) zOut));
        match o with
        | Some b =>
            let '(base, zDelta) :=
              if bestLitsz b >? 0
              then (base + bestLitsz b, zDelta ++ put_insert base (bestLitsz b))
              else (base, zDelta) in
            delta_loop fuel landmark collide nHash (base + bestCnt b)
              (zDelta ++ put_copy (bestCnt b) (bestOfst b))
        | None =>
            delta_loop fuel landmark collide nHash lenOut
              (zDelta ++ put_insert base (lenOut - base))
        end
    end
  else Ok (base, zDelta).

(** The delta, or [None] for the return value -1. *)
Definition delta_create : result (option (list Z)) :=
  let zDelta := putInt lenOut ++ [10] in
  if lenSrc <=? NHASH then
    Ok (Some (zDelta ++ put_insert 0 lenOut ++ putInt (checksum zOut) ++ [59]))
  else
    let nHash := lenSrc / NHASH in
    if negb (malloc (nHash * 2 * 4)) then Ok None else
    let minus1 := replicate (Z.to_nat nHash) (-1) in
    '(landmark, collide) ← landmark_loop (length zSrc) 0 nHash minus1 minus1;
    '(base, zDelta) ← delta_loop (length zOut) landmark collide nHash 0 zDelta;
    let zDelta := if base <? lenOut then zDelta ++ put_insert base (lenOut - base) else zDelta in
    Ok (Some (zDelta ++ putInt (checksum zOut) ++ [59])).
End Create.

(** ** Applying a delta *)

Definition delta_output_size (zDelta : list Z) : Z :=
  let '(size, z) := getInt zDelta in
  if negb (cget z 0 =? 10) then -1 else to_int size.

Section Apply.
Context (zSrc : list Z) (cap : Z).
Let lenSrc := Zlen zSrc.

(** [memcpy] of [w] to the current end of the output. *)
Definition emit (out w : list Z) : result (list Z) :=
  _ ← check (Zlen out + Zlen w <=? cap) OutOfBounds; Ok (out ++ w).

(** [while( *zDelta && lenDelta>0 )]: the return value, [total] converted to
    [int], and the output, or [None] for the error returns -1. *)
Fixpoint apply_loop (fuel : nat) (limit : Z) (z : list Z) (total : Z) (out : list Z) :
    result (option (Z * list Z)) :=
  if (cget z 0 =? 0) || (Zlen z <=? 0) then Ok None else
  match fuel with
  | O => Fault OutOfFuel
  | S fuel =>
      let '(cnt, z) := getInt z in
      match z with
      | 64 :: z =>                                            (* '@' *)
          let '(ofst, z) := getInt z in
          match z with
          | 44 :: z =>                                        (* ',' *)
              let total := u32 (total + cnt) in
              if total >? limit then Ok None
              else if u32 (ofst + cnt) >? lenSrc then Ok None
              else
                _ ← check (ofst + cnt <=? lenSrc) OutOfBounds;
                out ← emit out (slice zSrc ofst cnt);
                apply_loop fuel limit z total out
          | _ => Ok None
          end
      | 58 :: z =>                                            (* ':' *)
          let total := u32 (total + cnt) in
          if total >? limit then Ok None
          else if cnt >? Zlen z then Ok None
          else
            out ← emit out (slice z 0 cnt);
            apply_loop fuel limit (drop (Z.to_nat cnt) z) total out
      | 59 :: z =>                                            (* ';' *)
          _ ← check (Zlen out <? cap) OutOfBounds;
          if negb (cnt =? checksum (slice out 0 total)) then Ok None
          else if negb (total =? limit) then Ok None
          else Ok (Some (to_int total, out))
      | _ => Ok None
      end
  end.

Definition delta_apply (zDelta : list Z) : result (option (Z * list Z)) :=
  let '(limit, z) := getInt zDelta in
  match z with
  | 10 :: z => apply_loop (S (length z)) limit z 0 []
  | _ => Ok None
  end.
End Apply.
