(* ===== verification/DeltaSpec.v ===== *)
(** * The delta codec: integers, operations and the round trip

    Facts about [Delta]: the base-64 integers, the commands [delta_create]
    emits as values of [op], what they decode to, and how long they are. *)

From S2P Require Import Prelude Delta.

(** ** Base-64 integers *)

Lemma digit_value_zDigits d : 0 <= d < 64 -> digit_value (cget zDigits d) = d.
Proof.
  intros Hd. apply Z.eqb_eq. revert d Hd.
  apply (range_forallb 64 (fun d => digit_value (cget zDigits d) =? d)). vm_compute. done.
Qed.

Lemma putInt_loop_app fuel v acc : putInt_loop fuel v acc = putInt_loop fuel v [] ++ acc.
Proof.
  revert v acc. induction fuel as [|fuel IH]; intros v acc; simpl; [done|].
  destruct (v >? 0); [|done]. rewrite IH, (IH _ [_]), <- app_assoc. done.
Qed.

Lemma putInt_loop_S fuel v :
  0 < v -> putInt_loop (S fuel) v [] = putInt_loop fuel (v / 64) [] ++ [cget zDigits (v mod 64)].
Proof.
  intros Hv. cbn [putInt_loop]. rewrite Z.gtb_ltb, (proj2 (Z.ltb_lt 0 v)) by done.
  rewrite putInt_loop_app, Z.shiftr_div_pow2 by done.
  change 63 with (Z.ones 6). by rewrite Z.land_ones by done.
Qed.

Lemma putInt_loop_0 fuel v : v <= 0 -> putInt_loop fuel v [] = [].
Proof.
  intros Hv. destruct fuel; simpl; [done|]. rewrite Z.gtb_ltb.
  by rewrite (proj2 (Z.ltb_ge 0 v)).
Qed.

Lemma getInt_loop_putInt fuel v rest :
  0 <= v < 2 ^ 32 -> v < 64 ^ Z.of_nat fuel ->
  getInt_loop (putInt_loop fuel v [] ++ rest) 0 = getInt_loop rest v.
Proof.
  revert v rest. induction fuel as [|fuel IH]; intros v rest Hv Hb.
  { simpl in Hb. by replace v with 0 by lia. }
  destruct (decide (v = 0)) as [->|Hv0]; [by rewrite putInt_loop_0|].
  rewrite putInt_loop_S by lia. rewrite <- app_assoc.
  rewrite Nat2Z.inj_succ, Z.pow_succ_r in Hb by lia.
  rewrite IH; [|dlia|apply Z.div_lt_upper_bound; lia].
  pose proof (Z.mod_pos_bound v 64 ltac:(lia)). cbn [app getInt_loop].
  rewrite digit_value_zDigits by done. rewrite Z.geb_leb, (proj2 (Z.leb_le 0 _)) by lia.
  f_equal. rewrite Z.shiftl_mul_pow2 by done.
  rewrite (u32_small (v / 64 * 2 ^ 6)) by dlia. rewrite u32_small; dlia.
Qed.

(** The text after an integer begins with something that is not a digit. *)
Definition no_digit (z : list Z) : Prop := digit_value (cget z 0) < 0.

Lemma getInt_putInt v rest :
  0 <= v < 2 ^ 32 -> no_digit rest -> getInt (putInt v ++ rest) = (v, rest).
Proof.
  intros Hv Hr. assert (getInt_loop rest v = (v, rest)) as Hstop.
  { destruct rest as [|c rest]; [done|]. unfold no_digit, cget in Hr. simpl in Hr |- *.
    rewrite Z.geb_leb. by rewrite (proj2 (Z.leb_gt 0 _)). }
  unfold getInt, putInt. destruct (Z.eqb_spec v 0) as [->|]; [done|].
  rewrite (getInt_loop_putInt 6) by (simpl; lia). done.
Qed.

Lemma putInt_length v :
  0 <= v < 2 ^ 32 ->
  Zlen (putInt v) = if v <? 64 then 1 else if v <? 4096 then 2 else if v <? 2^18 then 3
                    else if v <? 2^24 then 4 else if v <? 2^30 then 5 else 6.
Proof.
  intros Hv. unfold putInt. destruct (Z.eqb_spec v 0) as [->|Hv0]; [done|].
  assert (forall fuel v, 0 < v ->
    Zlen (putInt_loop (S fuel) v []) = Zlen (putInt_loop fuel (v / 64) []) + 1) as Hs.
  { intros. rewrite putInt_loop_S, length_app by done. simpl. lia. }
  assert (forall fuel v, v <= 0 -> Zlen (putInt_loop fuel v []) = 0) as Hz.
  { intros. by rewrite putInt_loop_0. }
  rewrite Hs by lia.
  destruct (Z.ltb_spec v 64); [rewrite Hz by dlia; done|]. rewrite Hs by dlia.
  destruct (Z.ltb_spec v 4096); [rewrite Hz by dlia; done|]. rewrite Hs by dlia.
  destruct (Z.ltb_spec v (2^18)); [rewrite Hz by dlia; done|]. rewrite Hs by dlia.
  destruct (Z.ltb_spec v (2^24)); [rewrite Hz by dlia; done|]. rewrite Hs by dlia.
  destruct (Z.ltb_spec v (2^30)); [rewrite Hz by dlia; done|]. rewrite Hs by dlia.
  rewrite Hz by dlia. done.
Qed.

Lemma digit_count_putInt v : 0 <= v < 2 ^ 30 -> digit_count v = Ok (Zlen (putInt v)).
Proof.
  intros Hv. rewrite putInt_length by lia. unfold digit_count. cbn [digit_count_loop].
  rewrite (u32_small v) by lia. rewrite !Z.geb_leb.
  change (u32 (Z.shiftl 64 6)) with 4096. change (u32 (Z.shiftl 4096 6)) with (2^18).
  change (u32 (Z.shiftl (2^18) 6)) with (2^24). change (u32 (Z.shiftl (2^24) 6)) with (2^30).
  destruct (Z.ltb_spec v 64), (Z.leb_spec 64 v); try lia; [done|].
  destruct (Z.ltb_spec v 4096), (Z.leb_spec 4096 v); try lia; [done|].
  destruct (Z.ltb_spec v (2^18)), (Z.leb_spec (2^18) v); try lia; [done|].
  destruct (Z.ltb_spec v (2^24)), (Z.leb_spec (2^24) v); try lia; [done|].
  destruct (Z.ltb_spec v (2^30)), (Z.leb_spec (2^30) v); try lia. done.
Qed.

Lemma putInt_cons v : 0 <= v < 2 ^ 32 -> exists c z, putInt v = c :: z /\ c <> 0.
Proof.
  intros Hv. pose proof (putInt_length v Hv) as Hl.
  destruct (putInt v) as [|c z] eqn:E; [simpl in Hl; repeat case_match; lia|].
  exists c, z. split; [done|]. intros ->.
  assert (getInt (putInt v ++ []) = (v, [])) as Hg by (apply getInt_putInt; done).
  rewrite E in Hg. cbv in Hg. simplify_eq.
Qed.

(** ** Commands *)

(** A literal segment, or a copy of [cnt] source bytes from [ofst]. *)
Inductive op : Type :=
| OIns (w : list Z)
| OCpy (cnt ofst : Z).

Definition encode_op (o : op) : list Z :=
  match o with
  | OIns w => putInt (Zlen w) ++ [58] ++ w
  | OCpy cnt ofst => putInt cnt ++ [64] ++ putInt ofst ++ [44]
  end.
Definition encode_ops (ops : list op) : list Z := concat (encode_op <$> ops).

Section Ops.
Context (zSrc : list Z).

(** What a command adds to the output, and that it stays inside the source. *)
Definition op_text (o : op) : list Z :=
  match o with OIns w => w | OCpy cnt ofst => slice zSrc ofst cnt end.
Definition ops_text (ops : list op) : list Z := concat (op_text <$> ops).
Definition op_ok (o : op) : Prop :=
  match o with OIns _ => True | OCpy cnt ofst => 0 <= cnt /\ 0 <= ofst /\ ofst + cnt <= Zlen zSrc end.

Lemma ops_text_app a b : ops_text (a ++ b) = ops_text a ++ ops_text b.
Proof. unfold ops_text. by rewrite fmap_app, concat_app. Qed.
End Ops.

Lemma encode_ops_app a b : encode_ops (a ++ b) = encode_ops a ++ encode_ops b.
Proof. unfold encode_ops. by rewrite fmap_app, concat_app. Qed.

Lemma encode_ops_one o : encode_ops [o] = encode_op o.
Proof. unfold encode_ops. simpl. apply app_nil_r. Qed.
Lemma ops_text_one src o : ops_text src [o] = op_text src o.
Proof. unfold ops_text. simpl. apply app_nil_r. Qed.

Lemma encode_op_cons o rest :
  (match o with OIns w => Zlen w < 2^32 | OCpy cnt _ => 0 <= cnt < 2^32 end) ->
  exists c z, encode_op o ++ rest = c :: z /\ c <> 0.
Proof.
  intros H. assert (exists v t, 0 <= v < 2^32 /\ encode_op o = putInt v ++ t) as (v & t & Hv & ->).
  { destruct o as [w|cnt ofst]; [exists (Zlen w)|exists cnt]; simpl; eexists; split; done || lia. }
  destruct (putInt_cons v Hv) as (c & z & -> & Hc). simpl. eauto.
Qed.

(** ** Applying commands *)

Section ApplyOps.
Context (zSrc : list Z) (cap : Z).

Lemma emit_ok out w : Zlen out + Zlen w <= cap -> emit cap out w = Ok (out ++ w).
Proof. intros H. unfold emit. by rewrite check_true by (by apply Z.leb_le). Qed.

(** The guard of the loop on a text that begins with an integer. *)
Lemma guard_putInt v rest :
  0 <= v < 2^32 ->
  (cget (putInt v ++ rest) 0 =? 0) || (Zlen (putInt v ++ rest) <=? 0) = false.
Proof.
  intros Hv. destruct (putInt_cons v Hv) as (c & z & -> & Hc). unfold cget; simpl.
  rewrite (proj2 (Z.eqb_neq c 0)) by done. done.
Qed.

Lemma apply_insert fuel limit w rest out :
  Zlen out + Zlen w <= limit -> limit < 2^32 -> limit < cap ->
  apply_loop zSrc cap (S fuel) limit (encode_op (OIns w) ++ rest) (Zlen out) out =
  apply_loop zSrc cap fuel limit rest (Zlen (out ++ w)) (out ++ w).
Proof.
  intros Hw Hl Hc. cbn [encode_op apply_loop]. rewrite <- !app_assoc.
  rewrite guard_putInt by lia. rewrite getInt_putInt by (done || lia). cbn [app].
  rewrite (u32_small (_ + _)) by lia. rewrite !Z.gtb_ltb.
  rewrite (proj2 (Z.ltb_ge limit _)) by lia.
  rewrite (proj2 (Z.ltb_ge _ (Zlen w))) by (rewrite length_app; lia).
  assert (slice (w ++ rest) 0 (Zlen w) = w) as ->
    by (unfold slice; simpl; apply take_app_length'; lia).
  rewrite emit_ok by lia. simpl.
  rewrite drop_app_length' by lia. by rewrite length_app, Nat2Z.inj_add.
Qed.

Lemma apply_copy fuel limit cnt ofst rest out :
  op_ok zSrc (OCpy cnt ofst) -> Zlen zSrc < 2^32 ->
  Zlen out + cnt <= limit -> limit < 2^32 -> limit < cap ->
  apply_loop zSrc cap (S fuel) limit (encode_op (OCpy cnt ofst) ++ rest) (Zlen out) out =
  apply_loop zSrc cap fuel limit rest (Zlen (out ++ slice zSrc ofst cnt)) (out ++ slice zSrc ofst cnt).
Proof.
  intros (Hcnt & Hofst & Hin) Hsrc Hw Hl Hc. cbn [encode_op apply_loop]. rewrite <- !app_assoc.
  rewrite guard_putInt by lia. rewrite getInt_putInt by (done || lia). cbn [app].
  rewrite getInt_putInt by (done || lia). cbn [app].
  rewrite (u32_small (Zlen out + cnt)), (u32_small (ofst + cnt)) by lia. rewrite !Z.gtb_ltb.
  rewrite (proj2 (Z.ltb_ge limit _)), (proj2 (Z.ltb_ge (Zlen zSrc) _)) by lia.
  rewrite check_true by (apply Z.leb_le; lia). simpl.
  rewrite emit_ok by (rewrite length_slice; lia). simpl.
  rewrite length_app, Nat2Z.inj_add. by rewrite length_slice by lia.
Qed.

Lemma apply_end fuel limit out cks :
  Zlen out = limit -> limit < 2^31 -> limit < cap -> cks = checksum out -> 0 <= cks < 2^32 ->
  apply_loop zSrc cap (S fuel) limit (putInt cks ++ [59]) (Zlen out) out = Ok (Some (limit, out)).
Proof.
  intros Hl H31 Hc -> Hk. cbn [apply_loop]. rewrite guard_putInt by done.
  rewrite getInt_putInt by done. rewrite check_true by (apply Z.ltb_lt; lia).
  cbn -[checksum slice]. rewrite slice_all, Z.eqb_refl by done. simpl.
  rewrite (proj2 (Z.eqb_eq _ _)) by done. cbn [negb]. by rewrite Hl, to_int_small by lia.
Qed.

Lemma apply_ops fuel limit ops out cks :
  Forall (op_ok zSrc) ops -> (length ops < fuel)%nat -> Zlen zSrc < 2^32 ->
  Zlen out + Zlen (ops_text zSrc ops) = limit -> limit < 2^31 -> limit < cap ->
  cks = checksum (out ++ ops_text zSrc ops) -> 0 <= cks < 2^32 ->
  apply_loop zSrc cap fuel limit (encode_ops ops ++ putInt cks ++ [59]) (Zlen out) out =
  Ok (Some (limit, out ++ ops_text zSrc ops)).
Proof.
  intros Hok. revert fuel out. induction Hok as [|o ops Ho Hok IH];
    intros fuel out Hf Hsrc Hlim Hl32 Hcap Hcks Hc32; (destruct fuel as [|fuel]; [simpl in Hf; lia|]).
  - change (ops_text zSrc []) with (@nil Z) in *. rewrite app_nil_r in *. cbn [length] in Hlim.
    apply apply_end; done || lia.
  - change (encode_ops (o :: ops)) with (encode_op o ++ encode_ops ops).
    change (ops_text zSrc (o :: ops)) with (op_text zSrc o ++ ops_text zSrc ops) in *.
    rewrite <- app_assoc. rewrite length_app in Hlim. rewrite (app_assoc out) in Hcks |- *.
    destruct o as [w|cnt ofst]; simpl op_text in *.
    + rewrite apply_insert by lia. apply IH; try done; [simpl in Hf; lia|rewrite length_app; lia].
    + pose proof Ho as (Hcnt & Hofst & Hin).
      pose proof (length_slice zSrc ofst cnt Hofst Hcnt Hin). rewrite apply_copy by (done || lia).
      apply IH; try done; [simpl in Hf; lia|rewrite length_app; lia].
Qed.
End ApplyOps.

(** ** Finding matches *)

Lemma match_forward_spec l1 l2 :
  0 <= match_forward l1 l2 /\ match_forward l1 l2 <= Zlen l1 /\ match_forward l1 l2 <= Zlen l2 /\
  take (Z.to_nat (match_forward l1 l2)) l1 = take (Z.to_nat (match_forward l1 l2)) l2.
Proof.
  revert l2. induction l1 as [|c1 l1 IH]; intros [|c2 l2]; simpl; try (split_and!; done || lia).
  destruct (Z.eqb_spec c1 c2) as [->|]; [|split_and!; simpl; done || lia].
  destruct (IH l2) as (? & ? & ? & He). split_and!; try lia.
  replace (Z.to_nat (1 + match_forward l1 l2)) with (S (Z.to_nat (match_forward l1 l2))) by lia.
  simpl. by rewrite He.
Qed.

Section CreateOps.
Context (zSrc zOut : list Z).
Let lenSrc := Zlen zSrc.
Let lenOut := Zlen zOut.

Lemma match_back_spec fuel iSrc base i k :
  let k' := match_back zSrc zOut fuel iSrc base i k in
  k <= k' /\ forall m, k <= m < k' ->
    m < iSrc /\ m <= i /\ cget zSrc (iSrc - m) = cget zOut (base + i - m).
Proof.
  revert k. induction fuel as [|fuel IH]; intros k; simpl; [split; intros; lia|].
  destruct ((k <? iSrc) && (k <=? i) && _) eqn:E; [|split; intros; lia].
  apply andb_prop in E as [E E3]. apply andb_prop in E as [E1 E2].
  apply Z.ltb_lt in E1. apply Z.leb_le in E2. apply Z.eqb_eq in E3.
  destruct (IH (k + 1)) as [Hle H]. split; [lia|]. intros m Hm.
  destruct (decide (m = k)) as [->|]; [done|]. apply H. lia.
Qed.

(** A copy command worth emitting for the target from [base] on: it is right,
    and no longer than the text it replaces. *)
Record good_match (base : Z) (b : best) : Prop := {
  gm_pos : 0 < bestCnt b;
  gm_lit : 0 <= bestLitsz b;
  gm_out : base + bestLitsz b + bestCnt b <= lenOut;
  gm_ofst : 0 <= bestOfst b;
  gm_src : bestOfst b + bestCnt b <= lenSrc;
  gm_text : slice zSrc (bestOfst b) (bestCnt b) = slice zOut (base + bestLitsz b) (bestCnt b);
  gm_size : Zlen (putInt (bestLitsz b)) + Zlen (putInt (bestCnt b)) +
            Zlen (putInt (bestOfst b)) + 3 <= bestCnt b
}.

Context (Hsrc : lenSrc < 2^30) (Hout : lenOut < 2^30).

Lemma try_block_spec base i iBlock b :
  0 <= base -> 0 <= i -> base + i <= lenOut -> 0 <= iBlock -> iBlock * NHASH <= lenSrc ->
  exists b', try_block zSrc zOut base i iBlock b = Ok b' /\ (b' = b \/ good_match base b').
Proof.
  intros Hb Hi Hbi HiB Hs. unfold try_block. set (iSrc := iBlock * NHASH) in *.
  assert (0 <= iSrc) by (unfold iSrc, NHASH; lia).
  set (k := match_back zSrc zOut (Z.to_nat i) iSrc base i 1 - 1).
  set (f := match_forward (drop (Z.to_nat iSrc) zSrc) (drop (Z.to_nat (base + i)) zOut)).
  destruct (match_forward_spec (drop (Z.to_nat iSrc) zSrc) (drop (Z.to_nat (base + i)) zOut))
    as (Hf0 & Hf1 & Hf2 & Hft). fold f in Hf0, Hf1, Hf2, Hft. rewrite length_drop in Hf1, Hf2.
  destruct (match_back_spec (Z.to_nat i) iSrc base i 1) as [Hk0 Hkm].
  assert (0 <= k /\ k <= i /\ k <= iSrc /\
          forall m, 1 <= m <= k -> cget zSrc (iSrc - m) = cget zOut (base + i - m))
    as (Hk & Hki & Hks & Hkt).
  { split_and!; [lia| | |].
    - destruct (decide (k = 0)); [lia|]. apply (Hkm k). lia.
    - destruct (decide (k = 0)); [lia|]. destruct (Hkm k) as [? _]; lia.
    - intros m Hm. apply Hkm. lia. }
  clearbody k f iSrc. clear Hkm Hk0.
  assert (0 <= NHASH) by done. unfold lenSrc, lenOut in *.
  rewrite (digit_count_putInt (i - k)), (digit_count_putInt (f - 1 + k + 1)),
    (digit_count_putInt (iSrc - k)) by lia.
  cbn [mbind result_bind]. eexists. split; [done|].
  destruct ((_ >=? _) && (_ >? bestCnt b)) eqn:E; [right|by left].
  apply andb_prop in E as [E1 E2]. rewrite Z.geb_leb in E1. apply Z.leb_le in E1.
  assert (0 <= Zlen (putInt (i - k)) /\ 0 <= Zlen (putInt (f - 1 + k + 1)) /\
          0 <= Zlen (putInt (iSrc - k))) as (? & ? & ?) by lia.
  constructor; simpl; fold lenSrc lenOut; unfold lenSrc, lenOut; try lia.
  replace (f - 1 + k + 1) with (k + f) by lia.
  rewrite <- !slice_app_slice by lia. f_equal.
  - apply slice_eq; try lia. intros m Hm.
    replace (iSrc - k + m) with (iSrc - (k - m)) by lia.
    replace (base + (i - k) + m) with (base + i - (k - m)) by lia. apply Hkt. lia.
  - replace (iSrc - k + k) with iSrc by lia. by replace (base + (i - k) + k) with (base + i) by lia.
Qed.

#[local] Opaque hash_init hash_32bit hash_next.

(** The hash tables hold block numbers of the source, or -1. *)
Definition blocks_ok (nHash : Z) (t : list Z) : Prop :=
  Zlen t = nHash /\ Forall (fun e => e = -1 \/ 0 <= e < nHash) t.

Lemma blocks_ok_rd nHash t i :
  blocks_ok nHash t -> 0 <= i < nHash -> exists e, rd t i = Ok e /\ (e = -1 \/ 0 <= e < nHash).
Proof.
  intros [Hl Ht] Hi. destruct (lookup_lt_is_Some_2 t (Z.to_nat i)) as [e He]; [lia|].
  exists e. split; [apply rd_ok; [lia|done]|]. rewrite Forall_lookup in Ht. eauto.
Qed.

Lemma blocks_ok_wr nHash t i e :
  blocks_ok nHash t -> 0 <= i < nHash -> e = -1 \/ 0 <= e < nHash ->
  exists t', wr t i e = Ok t' /\ blocks_ok nHash t'.
Proof.
  intros [Hl Ht] Hi He. exists (<[Z.to_nat i := e]> t). rewrite wr_ok by lia.
  split; [done|]. split; [by rewrite length_insert|]. by apply Forall_insert.
Qed.

Lemma chain_loop_spec limit nHash collide base i iBlock b :
  blocks_ok nHash collide -> nHash * NHASH <= lenSrc ->
  0 <= base -> 0 <= i -> base + i <= lenOut -> iBlock = -1 \/ 0 <= iBlock < nHash ->
  exists b', chain_loop zSrc zOut limit collide base i iBlock b = Ok b' /\
    (b' = b \/ good_match base b').
Proof.
  intros Hc Hn Hb Hi Hbi. revert iBlock b.
  induction limit as [|limit IH]; intros iBlock b HB; simpl; rewrite Z.geb_leb;
    destruct (Z.leb_spec 0 iBlock); eauto.
  destruct HB as [->|HB]; [lia|].
  destruct (try_block_spec base i iBlock b) as (b1 & -> & Hb1); unfold NHASH in *; try lia. simpl.
  destruct (blocks_ok_rd nHash collide iBlock Hc HB) as (e & -> & He). simpl.
  destruct (IH e b1 He) as (b2 & -> & Hb2). exists b2. split; [done|].
  destruct Hb2 as [->|]; auto.
Qed.

Lemma hash_mod h nHash : 0 < nHash -> 0 <= hash_32bit h mod nHash < nHash.
Proof. apply Z.mod_pos_bound. Qed.

Lemma scan_loop_spec fuel nHash landmark collide base i h :
  blocks_ok nHash landmark -> blocks_ok nHash collide -> 0 < nHash -> nHash * NHASH <= lenSrc ->
  0 <= base -> 0 <= i -> base + i <= lenOut -> lenOut - base - i <= Z.of_nat fuel ->
  exists o, scan_loop zSrc zOut fuel landmark collide nHash base i h = Ok o /\
    match o with Some b => good_match base b | None => True end.
Proof.
  intros Hl Hc Hn0 Hn Hb. revert i h. induction fuel as [|fuel IH]; intros i h Hi Hbi Hf;
    cbn [scan_loop];
    (destruct (blocks_ok_rd nHash landmark _ Hl (hash_mod h nHash Hn0)) as (e & -> & He));
    cbn [mbind result_bind];
    (destruct (chain_loop_spec 250 nHash collide base i e (Best 0 0 0)) as (b & -> & Hgood); try done);
    cbn [mbind result_bind];
    (destruct (bestCnt b >? 0) eqn:E;
     [eexists; split; [done|]; destruct Hgood as [->|]; [done|done]|]);
    rewrite Z.gtb_ltb; (destruct (Z.ltb_spec (Zlen zOut) (base + i + NHASH));
      [eexists; split; done|]).
  - unfold NHASH, lenOut in *. lia.
  - apply IH; unfold NHASH, lenOut in *; lia.
Qed.

Lemma delta_loop_done fuel landmark collide nHash base zDelta :
  lenOut <= base + NHASH ->
  delta_loop zSrc zOut fuel landmark collide nHash base zDelta = Ok (base, zDelta).
Proof.
  intros H. destruct fuel; cbn [delta_loop]; fold lenOut; by rewrite (proj2 (Z.ltb_ge _ _)).
Qed.

Lemma delta_loop_spec fuel nHash landmark collide base zDelta :
  blocks_ok nHash landmark -> blocks_ok nHash collide -> 0 < nHash -> nHash * NHASH <= lenSrc ->
  0 <= base <= lenOut -> lenOut - base <= Z.of_nat fuel ->
  exists base' ops, delta_loop zSrc zOut fuel landmark collide nHash base zDelta =
      Ok (base', zDelta ++ encode_ops ops) /\
    base <= base' <= lenOut /\ Forall (op_ok zSrc) ops /\
    ops_text zSrc ops = slice zOut base (base' - base) /\
    Zlen (encode_ops ops) <= base' - base + (if base' =? lenOut then 6 else 0).
Proof.
  intros Hl Hc Hn0 Hn. revert base zDelta. induction fuel as [|fuel IH]; intros base zDelta Hb Hf;
    cbn [delta_loop]; fold lenOut; (destruct (Z.ltb_spec (base + NHASH) lenOut);
      [|exists base, []; rewrite app_nil_r, Z.sub_diag; split_and!; try lia; done || (simpl; case_match; lia)]).
  { unfold NHASH in *. lia. }
  destruct (scan_loop_spec (length zOut) nHash landmark collide base 0
              (hash_init (drop (Z.to_nat base) zOut))) as (o & -> & Ho);
    try done; try (unfold lenOut in *; lia). cbn [mbind result_bind].
  destruct o as [b|].
  - destruct Ho as [Hp Hlit Hbo Hofs Hsr Htx Hsz].
    set (lit := if bestLitsz b >? 0 then [OIns (slice zOut base (bestLitsz b))] else []).
    set (cpy := OCpy (bestCnt b) (bestOfst b)). unfold lenOut, lenSrc in *.
    assert (Zlen (slice zOut base (bestLitsz b)) = bestLitsz b) as Hsl by (apply length_slice; lia).
    assert ((if bestLitsz b >? 0 then (base + bestLitsz b, zDelta ++ put_insert zOut base (bestLitsz b))
             else (base, zDelta)) = (base + bestLitsz b, zDelta ++ encode_ops lit) /\
            ops_text zSrc lit = slice zOut base (bestLitsz b) /\ Forall (op_ok zSrc) lit /\
            Zlen (encode_ops lit) <= Zlen (putInt (bestLitsz b)) + 1 + bestLitsz b)
      as (-> & Htl & Hokl & Hszl).
    { subst lit. rewrite Z.gtb_ltb. unfold encode_ops, ops_text, put_insert.
      destruct (Z.ltb_spec 0 (bestLitsz b)); simpl; rewrite ?app_nil_r.
      - rewrite Hsl. split_and!; try done; [by repeat constructor|].
        rewrite length_app. simpl. lia.
      - replace (bestLitsz b) with 0 by lia. rewrite Z.add_0_r. split_and!; done || lia. }
    destruct (IH (base + bestLitsz b + bestCnt b)
                ((zDelta ++ encode_ops lit) ++ put_copy (bestCnt b) (bestOfst b)))
      as (base' & ops & -> & Hb' & Hok' & Htx' & Hsz'); [lia|lia|].
    exists base', (lit ++ [cpy] ++ ops). split_and!; try lia.
    + rewrite !encode_ops_app, encode_ops_one. by rewrite <- !app_assoc.
    + repeat apply Forall_app_2; try done. repeat constructor; lia.
    + rewrite !ops_text_app, ops_text_one, Htl, Htx'. cbn [op_text cpy]. rewrite Htx.
      replace (base' - base) with (bestLitsz b + (bestCnt b + (base' - (base + bestLitsz b + bestCnt b))))
        by lia. by rewrite <- !slice_app_slice by lia.
    + rewrite !encode_ops_app, encode_ops_one. unfold cpy, encode_op.
      rewrite !length_app. cbn [length]. lia.
  - rewrite delta_loop_done by (unfold NHASH, lenOut; lia). unfold lenOut in *.
    assert (Zlen (slice zOut base (Zlen zOut - base)) = Zlen zOut - base) as Hsl
      by (apply length_slice; lia).
    exists (Zlen zOut), [OIns (slice zOut base (Zlen zOut - base))]. split_and!; try lia.
    + unfold encode_ops, put_insert. simpl. by rewrite Hsl, app_nil_r.
    + by repeat constructor.
    + unfold ops_text. simpl. by rewrite app_nil_r.
    + unfold encode_ops. simpl. rewrite Z.eqb_refl, app_nil_r, length_app. simpl.
      rewrite Hsl. pose proof (putInt_length (Zlen zOut - base)) as Hp.
      repeat case_match; lia.
Qed.

Lemma landmark_loop_spec fuel i nHash landmark collide :
  blocks_ok nHash landmark -> blocks_ok nHash collide -> 0 < nHash -> nHash = lenSrc / NHASH ->
  0 <= i -> lenSrc - i <= Z.of_nat fuel ->
  exists l c, landmark_loop zSrc fuel i nHash landmark collide = Ok (l, c) /\
    blocks_ok nHash l /\ blocks_ok nHash c.
Proof.
  intros Hl Hc Hn0 Hn. revert i landmark collide Hl Hc.
  induction fuel as [|fuel IH]; intros i landmark collide Hl Hc Hi Hf; cbn [landmark_loop];
    fold lenSrc; (destruct (Z.ltb_spec i (lenSrc - NHASH)); [|by eauto]).
  { unfold NHASH in *. lia. }
  assert (0 <= i / NHASH < nHash) by (rewrite Hn; unfold NHASH in *; dlia).
  assert (0 <= block_hash zSrc i nHash < nHash) as Hbh by (by apply hash_mod).
  destruct (blocks_ok_rd nHash landmark _ Hl Hbh) as (e & -> & He). rewrite bind_Ok.
  destruct (blocks_ok_wr nHash collide (i / NHASH) e Hc) as (c1 & -> & Hc1); [done..|].
  rewrite bind_Ok.
  destruct (blocks_ok_wr nHash landmark (block_hash zSrc i nHash) (i / NHASH) Hl) as (l1 & -> & Hl1);
    [done|by right|]. rewrite bind_Ok.
  apply IH; try done; unfold NHASH in *; lia.
Qed.

(** A delta is a header, commands that rebuild the target, and its checksum. *)
Lemma delta_create_ops malloc d :
  delta_create malloc zSrc zOut = Ok (Some d) ->
  exists ops, d = putInt lenOut ++ [10] ++ encode_ops ops ++ putInt (checksum zOut) ++ [59] /\
    Forall (op_ok zSrc) ops /\ ops_text zSrc ops = zOut /\ Zlen (encode_ops ops) <= lenOut + 6.
Proof.
  unfold delta_create. fold lenSrc lenOut.
  assert (Zlen (encode_ops [OIns zOut]) <= lenOut + 6) as Hone.
  { unfold encode_ops. simpl. rewrite app_nil_r, length_app. simpl. unfold lenOut in *.
    pose proof (putInt_length (Zlen zOut)). repeat case_match; lia. }
  destruct (Z.leb_spec lenSrc NHASH) as [Hle|Hlt].
  { intros [= <-]. exists [OIns zOut]. split_and!; [|by apply Forall_singleton|apply ops_text_one|done].
    unfold put_insert, encode_ops, slice. simpl. unfold lenOut in *.
    rewrite app_nil_r, (take_ge zOut) by lia. by rewrite <- !app_assoc. }
  destruct (negb _); [intros [= ]|].
  set (nHash := lenSrc / NHASH) in *. assert (0 < nHash) by (unfold nHash, NHASH in *; dlia).
  assert (blocks_ok nHash (replicate (Z.to_nat nHash) (-1))) as Hr.
  { split; [rewrite length_replicate; lia|]. apply Forall_replicate. by left. }
  destruct (landmark_loop_spec (length zSrc) 0 nHash _ _ Hr Hr) as (l & c & -> & Hl & Hc);
    [done|done|lia|unfold lenSrc; lia|]. cbn [mbind result_bind].
  destruct (delta_loop_spec (length zOut) nHash l c 0 (putInt lenOut ++ [10])) as
    (base & ops & -> & Hb & Hok & Htx & Hsz); try done;
    [unfold nHash, NHASH in *; dlia|unfold lenOut; lia|unfold lenOut; lia|].
  cbn [mbind result_bind]. intros [= <-]. rewrite Z.sub_0_r in *.
  destruct (Z.ltb_spec base lenOut) as [Hbl|Hbl].
  - rewrite (proj2 (Z.eqb_neq base lenOut)) in Hsz by lia. unfold lenOut in *.
    assert (Zlen (slice zOut base (Zlen zOut - base)) = Zlen zOut - base) as Hsl
      by (apply length_slice; lia).
    exists (ops ++ [OIns (slice zOut base (Zlen zOut - base))]). split_and!.
    + rewrite encode_ops_app, encode_ops_one. unfold put_insert. cbn [encode_op].
      by rewrite Hsl, <- !app_assoc.
    + apply Forall_app_2; [done|by repeat constructor].
    + rewrite ops_text_app, ops_text_one, Htx. cbn [op_text]. rewrite slice_app_slice by lia. apply slice_all. lia.
    + rewrite encode_ops_app, encode_ops_one. cbn [encode_op]. rewrite !length_app.
      cbn [length]. rewrite Hsl.
      pose proof (putInt_length (Zlen zOut - base)). repeat case_match; lia.
  - assert (base = lenOut) as -> by lia. rewrite Z.eqb_refl in Hsz.
    exists ops. split_and!; [by rewrite <- !app_assoc|done|rewrite Htx; by apply slice_all|lia].
Qed.

Lemma delta_create_ok malloc :
  (forall n, malloc n = true) -> exists d, delta_create malloc zSrc zOut = Ok (Some d).
Proof.
  intros Hm. unfold delta_create. fold lenSrc lenOut.
  destruct (Z.leb_spec lenSrc NHASH) as [Hle|Hlt]; [by eauto|]. rewrite Hm. simpl negb. cbv iota.
  set (nHash := lenSrc / NHASH) in *. assert (0 < nHash) by (unfold nHash, NHASH in *; dlia).
  assert (blocks_ok nHash (replicate (Z.to_nat nHash) (-1))) as Hr.
  { split; [rewrite length_replicate; lia|]. apply Forall_replicate. by left. }
  destruct (landmark_loop_spec (length zSrc) 0 nHash _ _ Hr Hr) as (l & c & -> & Hl & Hc);
    [done|done|lia|unfold lenSrc; lia|]. cbn [mbind result_bind].
  destruct (delta_loop_spec (length zOut) nHash l c 0 (putInt lenOut ++ [10])) as
    (base & ops & -> & _); try done;
    [unfold nHash, NHASH in *; dlia|unfold lenOut; lia|unfold lenOut; lia|].
  cbn [mbind result_bind]. eauto.
Qed.
End CreateOps.

(** ** The rolling hash *)

(** The two sums of the comment on [struct hash]. *)
Definition zsum (l : list Z) : Z := foldr Z.add 0 l.
Fixpoint wsum (l : list Z) : Z :=
  match l with [] => 0 | x :: l => Zlen (x :: l) * x + wsum l end.

Lemma zsum_app l m : zsum (l ++ m) = zsum l + zsum m.
Proof. unfold zsum. induction l; simpl; lia. Qed.

Lemma wsum_snoc l c : wsum (l ++ [c]) = wsum l + zsum l + c.
Proof.
  unfold zsum. induction l as [|x l IH]; [cbn; lia|].
  cbn [app wsum foldr length]. rewrite IH, length_app. cbn [length].
  replace (Z.of_nat (S (length l + 1))) with (Z.of_nat (S (length l)) + 1) by lia. ring.
Qed.

(** [h] is the hash of the window [w] kept in the circular buffer. *)
Record hash_of (w : list Z) (h : hash) : Prop := {
  ho_a : h_a h = u16 (zsum (schar <$> w));
  ho_b : h_b h = u16 (wsum (schar <$> w));
  ho_i : 0 <= h_i h < NHASH;
  ho_len : length (h_z h) = 16%nat;
  ho_w : drop (Z.to_nat (h_i h)) (h_z h) ++ take (Z.to_nat (h_i h)) (h_z h) = w
}.

Lemma hash_of_32bit w h h' : hash_of w h -> hash_of w h' -> hash_32bit h = hash_32bit h'.
Proof. intros [Ha Hb _ _ _] [Ha' Hb' _ _ _]. Transparent hash_32bit. unfold hash_32bit. congruence. Qed.

(** Two values that differ by a multiple of 2^16 are the same [u16]. *)
Lemma u16_congr x y k : x = y + k * 2^16 -> u16 x = u16 y.
Proof. intros ->. unfold u16. apply Z_mod_plus_full. Qed.
Lemma u16_ex z : exists k, u16 z = z + k * 2^16.
Proof. exists (- (z / 2^16)). unfold u16. rewrite Z.mod_eq by lia. lia. Qed.

Lemma u16_u16 z : u16 (u16 z) = u16 z.
Proof. unfold u16. by rewrite Z.mod_mod. Qed.
Lemma u16_add_l x y : u16 (u16 x + y) = u16 (x + y).
Proof. unfold u16. by rewrite Zplus_mod_idemp_l. Qed.

Lemma hash_init_foldl (g : Z -> Z) (l : list Z) a b :
  foldl (fun '(a, b) i => (u16 (a + g i), u16 (b + (NHASH - i) * g i))) (u16 a, u16 b) l =
  (u16 (a + zsum (g <$> l)), u16 (b + zsum ((fun i => (NHASH - i) * g i) <$> l))).
Proof.
  revert a b. induction l as [|i l IH]; intros a b; simpl; [by rewrite !Z.add_0_r|].
  rewrite !u16_add_l, IH. f_equal; f_equal; unfold zsum, fmap; simpl; lia.
Qed.

Lemma land_u16 z : Z.land (u16 z) 65535 = u16 z.
Proof.
  change 65535 with (Z.ones 16). rewrite Z.land_ones by done. apply u16_u16.
Qed.

Lemma hash_init_eq z :
  hash_init z =
  Hash (u16 (zsum ((fun i => schar (cget z i)) <$> seqZ 0 NHASH)))
    (u16 (zsum ((fun i => (NHASH - i) * schar (cget z i)) <$> seqZ 0 NHASH)))
    0 ((fun i => cget z i) <$> seqZ 0 NHASH).
Proof.
  Transparent hash_init. unfold hash_init. Opaque hash_init.
  pose proof (hash_init_foldl (fun i => schar (cget z i)) (seqZ 0 NHASH) 0 0) as H.
  change (u16 0) with 0 in H. rewrite H, !Z.add_0_l, !land_u16. done.
Qed.

Lemma wsum_seqZ (g : Z -> Z) :
  zsum ((fun i => (NHASH - i) * g i) <$> seqZ 0 NHASH) = wsum (g <$> seqZ 0 NHASH).
Proof.
  change (seqZ 0 NHASH) with [0;1;2;3;4;5;6;7;8;9;10;11;12;13;14;15].
  unfold zsum, NHASH. cbn [fmap list_fmap foldr wsum length]. lia.
Qed.

Lemma hash_init_ok z : hash_of ((fun i => cget z i) <$> seqZ 0 NHASH) (hash_init z).
Proof.
  rewrite hash_init_eq. constructor; cbn [h_a h_b h_i h_z].
  - by rewrite <- list_fmap_compose.
  - rewrite wsum_seqZ. by rewrite <- list_fmap_compose.
  - done.
  - done.
  - change (Z.to_nat 0) with 0%nat. by rewrite drop_0, take_0, app_nil_r.
Qed.

Lemma hash_next_ok x w c h :
  hash_of (x :: w) h -> hash_of (w ++ [c]) (hash_next h c).
Proof.
  intros [Ha Hb Hi Hl Hw]. Transparent hash_next. unfold hash_next, NHASH in *.
  set (i := Z.to_nat (h_i h)) in *.
  destruct (lookup_lt_is_Some_2 (h_z h) i) as [y Hy]; [lia|].
  rewrite (drop_S _ _ _ Hy) in Hw. simpl in Hw. injection Hw as -> Hw.
  assert (cget (h_z h) (h_i h) = x) as Hold by (rewrite cget_lookup by lia; fold i; by rewrite Hy).
  rewrite Hold. clear Hold.
  assert (length w = 15%nat) as Hlw
    by (rewrite <- Hw, length_app, length_drop, length_take; lia).
  assert (u16 (h_a h - u16 (schar x) + schar c) = u16 (zsum (schar <$> w ++ [c]))) as Ha'.
  { rewrite Ha, fmap_app, zsum_app.
    destruct (u16_ex (zsum (schar <$> x :: w))) as [k1 ->], (u16_ex (schar x)) as [k2 ->].
    apply (u16_congr _ _ (k1 - k2)). unfold zsum, fmap. simpl. lia. }
  assert (h_i (hash_next h c) = (h_i h + 1) mod 16) as Hi'.
  { unfold hash_next, NHASH. simpl h_i. change (16 - 1) with (Z.ones 4).
    by rewrite Z.land_ones. }
  split; simpl; try done.
  - rewrite Ha', Hb, fmap_app. change (schar <$> [c]) with [schar c].
    rewrite wsum_snoc, zsum_app. change (zsum [schar c]) with (schar c + 0).
    change (schar <$> x :: w) with (schar x :: (schar <$> w)). cbn [wsum length].
    rewrite length_fmap, Hlw. change (Z.of_nat 16) with 16.
    destruct (u16_ex (16 * schar x + wsum (schar <$> w))) as [k1 ->], (u16_ex (schar x)) as [k2 ->].
    destruct (u16_ex (zsum (schar <$> w) + (schar c + 0))) as [k3 ->].
    apply (u16_congr _ _ (k1 - 16 * k2 + k3)). lia.
  - unfold hash_next, NHASH in Hi'. simpl in Hi'. rewrite Hi'. unfold NHASH. dlia.
  - by rewrite length_insert.
  - unfold hash_next, NHASH in Hi'. simpl in Hi'. rewrite Hi'. rewrite <- Hw.
    destruct (decide (h_i h = 15)) as [E|E].
    + rewrite E. change (Z.to_nat ((15 + 1) mod 16)) with 0%nat. rewrite drop_0, take_0, app_nil_r.
      assert (i = 15%nat) as Hi15 by lia. rewrite Hi15 in *.
      rewrite (drop_ge _ 16) by lia. simpl.
      rewrite <- (take_snoc_insert (h_z h) 15 c) by lia. symmetry. apply take_ge.
      rewrite length_insert. lia.
    + replace (Z.to_nat ((h_i h + 1) mod 16)) with (S i) by (subst i; dlia).
      rewrite drop_insert_lt, take_snoc_insert by lia. by rewrite app_assoc.
Qed.

Lemma hash_roll w z h :
  hash_of w h -> length w = 16%nat ->
  hash_of (drop (length z) (w ++ z)) (foldl hash_next h z).
Proof.
  revert w h. induction z as [|c z IH]; intros w h Hh Hl; simpl.
  { by rewrite app_nil_r. }
  destruct w as [|x w]; [done|]. simpl.
  replace (w ++ c :: z) with ((w ++ [c]) ++ z) by (by rewrite <- app_assoc).
  apply IH; [by apply (hash_next_ok x)|]. rewrite length_app. simpl in *. lia.
Qed.

Lemma seqZ_cget z : 16 <= Zlen z -> (fun i => cget z i) <$> seqZ 0 NHASH = take 16 z.
Proof.
  intros Hl. do 16 (destruct z as [|? z]; [simpl in Hl; lia|]). reflexivity.
Qed.

(** ** The checksum is a 32-bit value *)

Lemma checksum16_range z s : 0 <= s < 2^32 -> 0 <= fst (checksum16 z s) < 2^32.
Proof.
  revert s. induction z as [z IH] using (induction_ltof1 _ (@length Z)); intros s Hs.
  do 16 (destruct z as [|? z]; [done|]). cbn [checksum16]. apply IH; [unfold ltof; simpl; lia|].
  apply u32_range.
Qed.

Lemma checksum4_range z s : 0 <= s < 2^32 -> 0 <= fst (checksum4 z s) < 2^32.
Proof.
  revert s. induction z as [z IH] using (induction_ltof1 _ (@length Z)); intros s Hs.
  do 4 (destruct z as [|? z]; [done|]). cbn [checksum4]. apply IH; [unfold ltof; simpl; lia|].
  apply u32_range.
Qed.

Lemma checksum_range z : 0 <= checksum z < 2^32.
Proof.
  unfold checksum. pose proof (checksum16_range z 0 ltac:(lia)) as H.
  destruct (checksum16 z 0) as [s z']. pose proof (checksum4_range z' s H) as H'.
  destruct (checksum4 z' s) as [s' z'']. simpl in H'.
  repeat case_match; apply u32_range || done.
Qed.

Lemma encode_ops_length zSrc ops : Forall (op_ok zSrc) ops -> (length ops <= length (encode_ops ops))%nat.
Proof.
  induction 1 as [|o ops Ho _ IH]; simpl; [lia|].
  change (encode_ops (o :: ops)) with (encode_op o ++ encode_ops ops). rewrite length_app.
  assert (1 <= length (encode_op o))%nat by (destruct o; simpl; rewrite !length_app; simpl; lia). lia.
Qed.

(** An accepted command list is replayed by [delta_apply]. *)
Lemma delta_apply_ops zSrc cap ops zOut :
  Forall (op_ok zSrc) ops -> ops_text zSrc ops = zOut -> Zlen zSrc < 2^32 -> Zlen zOut < 2^31 ->
  Zlen zOut < cap ->
  delta_apply zSrc cap (putInt (Zlen zOut) ++ [10] ++ encode_ops ops ++ putInt (checksum zOut) ++ [59])
  = Ok (Some (Zlen zOut, zOut)).
Proof.
  intros Hok Htx Hs Ho Hc. unfold delta_apply. rewrite getInt_putInt by (done || lia). cbn [app].
  pose proof (encode_ops_length _ _ Hok).
  change 0 with (Zlen (@nil Z)) at 1. pose proof (checksum_range zOut).
  rewrite (apply_ops zSrc cap _ _ ops []); rewrite ?Htx; try done; try lia.
  rewrite !length_app. lia.
Qed.

(** ** What [delta_apply] accepts *)

Lemma getInt_loop_suffix z v x r :
  0 <= v < 2^32 -> getInt_loop z v = (x, r) -> 0 <= x < 2^32 /\ exists p, z = p ++ r.
Proof.
  revert v. induction z as [|c z IH]; intros v Hv; simpl.
  { intros [= <- <-]. split; [done|]. by exists []. }
  destruct (digit_value c >=? 0).
  - intros H. apply IH in H as [? [p ->]]; [|apply u32_range]. split; [done|]. by exists (c :: p).
  - intros [= <- <-]. split; [done|]. by exists [].
Qed.

Lemma getInt_suffix z x r : getInt z = (x, r) -> 0 <= x < 2^32 /\ exists p, z = p ++ r.
Proof. apply getInt_loop_suffix. lia. Qed.

(** [w] is a segment of [d]. *)
Definition segment (w d : list Z) : Prop := exists a b, d = a ++ w ++ b.

Lemma segment_app_l w a d : segment w d -> segment w (a ++ d).
Proof. intros (x & y & ->). exists (a ++ x), y. by rewrite <- app_assoc. Qed.

(** The literals of a command list are segments of the delta. *)
Definition literals_in (d : list Z) (ops : list op) : Prop :=
  forall w, OIns w ∈ ops -> segment w d.

Lemma literals_in_app_l a d ops : literals_in d ops -> literals_in (a ++ d) ops.
Proof. intros H w Hw. by apply segment_app_l, H. Qed.

Lemma literals_in_cons d o ops :
  literals_in d ops -> (forall w, o = OIns w -> segment w d) -> literals_in d (o :: ops).
Proof. intros H Ho w [Hw|Hw]%elem_of_cons; auto. Qed.

(** The numbers of the copy and insert commands [delta_apply] reads from [z];
    the number of the last command, a checksum, is not one of them. *)
Fixpoint apply_numbers (fuel : nat) (z : list Z) : list Z :=
  match fuel with
  | O => []
  | S fuel =>
      let '(cnt, z) := getInt z in
      match z with
      | 64 :: z =>
          let '(ofst, z) := getInt z in
          match z with
          | 44 :: z => cnt :: ofst :: apply_numbers fuel z
          | _ => []
          end
      | 58 :: z => cnt :: apply_numbers fuel (drop (Z.to_nat cnt) z)
      | _ => []
      end
  end.

(** The commands of the whole delta start after its size and a newline. *)
Definition delta_numbers (d : list Z) : list Z :=
  match (getInt d).2 with 10 :: z => apply_numbers (S (length z)) z | _ => [] end.

(** What a run of the loop from [z] and [out] has read when it ends with [out']. *)
Definition accepted (zSrc : list Z) (limit : Z) (z out out' : list Z) : Prop :=
  exists ops a z' tail,
    z = a ++ z' /\ getInt z' = (checksum out', 59 :: tail) /\
    Forall (op_ok zSrc) ops /\ literals_in z ops /\
    out' = out ++ ops_text zSrc ops /\ Zlen out' = limit.

Lemma accepted_step zSrc limit p z o out out' :
  op_ok zSrc o -> (forall w, o = OIns w -> segment w (p ++ z)) ->
  accepted zSrc limit z (out ++ op_text zSrc o) out' ->
  accepted zSrc limit (p ++ z) out out'.
Proof.
  intros Ho Hw (ops & a & z' & tail & -> & Hg & Hok & Hlit & Hout & Hl).
  exists (o :: ops), (p ++ a), z', tail. split_and!; try done.
  - by rewrite <- app_assoc.
  - by constructor.
  - apply literals_in_cons; [by apply literals_in_app_l|done].
  - rewrite Hout. change (o :: ops) with ([o] ++ ops). by rewrite ops_text_app, ops_text_one, app_assoc.
Qed.

(** The two results of a run that does not fault. *)
Definition apply_result (zSrc : list Z) (limit : Z) (z out : list Z)
    (r : result (option (Z * list Z))) : Prop :=
  r = Ok None \/ exists out', r = Ok (Some (limit, out')) /\ accepted zSrc limit z out out'.

Lemma apply_result_step zSrc limit p z o out r :
  op_ok zSrc o -> (forall w, o = OIns w -> segment w (p ++ z)) ->
  apply_result zSrc limit z (out ++ op_text zSrc o) r -> apply_result zSrc limit (p ++ z) out r.
Proof.
  intros Ho Hw [->|(out' & -> & H)]; [by left|]. right. exists out'. split; [done|].
  by apply accepted_step with o.
Qed.

Section NarrowNumbers.
Context (zSrc : list Z) (cap limit : Z).
Hypotheses (Hlim : limit < 2^31) (Hcap : limit < cap).

(** With numbers below 2^31 the sums of the guards do not wrap: a copy that
    passes them is inside the source and inside the output. *)
Lemma apply_loop_copy fuel z p cnt ofst out :
  0 <= cnt < 2^31 -> 0 <= ofst < 2^31 -> Zlen out <= limit ->
  (forall out, Zlen out <= limit -> apply_result zSrc limit z out (apply_loop zSrc cap fuel limit z (Zlen out) out)) ->
  apply_result zSrc limit (p ++ z) out
    (let total := u32 (Zlen out + cnt) in
     if total >? limit then Ok None
     else if u32 (ofst + cnt) >? Zlen zSrc then Ok None
     else
       _ ← check (ofst + cnt <=? Zlen zSrc) OutOfBounds;
       out ← emit cap out (slice zSrc ofst cnt);
       apply_loop zSrc cap fuel limit z total out).
Proof.
  intros Hcnt Hofst Hout IH. cbv zeta. rewrite (u32_small (Zlen out + cnt)), (u32_small (ofst + cnt)) by lia.
  destruct (_ >? limit) eqn:G1; [by left|]. destruct (_ >? Zlen zSrc) eqn:G2; [by left|].
  rewrite Z.gtb_ltb, Z.ltb_ge in G1, G2.
  assert (Zlen (slice zSrc ofst cnt) = cnt) as Hsl by (apply length_slice; lia).
  rewrite check_true by (by apply Z.leb_le). cbn [mbind result_bind].
  rewrite emit_ok by lia. cbn [mbind result_bind].
  apply (apply_result_step _ _ _ _ (OCpy cnt ofst)); [simpl; lia|done|]. cbn [op_text].
  replace (Zlen out + cnt) with (Zlen (out ++ slice zSrc ofst cnt)) by (rewrite length_app; lia).
  apply IH. rewrite length_app. lia.
Qed.

Lemma apply_loop_insert fuel z p cnt out :
  0 <= cnt < 2^31 -> Zlen out <= limit ->
  (forall out, Zlen out <= limit ->
     apply_result zSrc limit (drop (Z.to_nat cnt) z) out
       (apply_loop zSrc cap fuel limit (drop (Z.to_nat cnt) z) (Zlen out) out)) ->
  apply_result zSrc limit (p ++ z) out
    (let total := u32 (Zlen out + cnt) in
     if total >? limit then Ok None
     else if cnt >? Zlen z then Ok None
     else
       out ← emit cap out (slice z 0 cnt);
       apply_loop zSrc cap fuel limit (drop (Z.to_nat cnt) z) total out).
Proof.
  intros Hcnt Hout IH. cbv zeta. rewrite u32_small by lia.
  destruct (_ >? limit) eqn:G1; [by left|]. destruct (_ >? Zlen z) eqn:G2; [by left|].
  rewrite Z.gtb_ltb, Z.ltb_ge in G1, G2.
  assert (Zlen (slice z 0 cnt) = cnt) as Hsl by (apply length_slice; lia).
  rewrite emit_ok by lia. cbn [mbind result_bind].
  assert (p ++ z = (p ++ slice z 0 cnt) ++ drop (Z.to_nat cnt) z) as ->
    by (unfold slice; simpl; by rewrite <- app_assoc, take_drop).
  apply (apply_result_step _ _ _ _ (OIns (slice z 0 cnt))); [done| |].
  - intros w [= <-]. exists p, (drop (Z.to_nat cnt) z). by rewrite <- app_assoc.
  - cbn [op_text].
    replace (Zlen out + cnt) with (Zlen (out ++ slice z 0 cnt)) by (rewrite length_app; lia).
    apply IH. rewrite length_app. lia.
Qed.

Lemma apply_loop_result fuel z out :
  Forall (fun n => n < 2^31) (apply_numbers fuel z) -> (length z < fuel)%nat -> Zlen out <= limit ->
  apply_result zSrc limit z out (apply_loop zSrc cap fuel limit z (Zlen out) out).
Proof.
  revert z out. induction fuel as [|fuel IH]; intros z out Hnum Hf Hout; [lia|].
  cbn [apply_loop apply_numbers] in *. destruct (_ || _); [by left|].
  destruct (getInt z) as [cnt z1] eqn:E1.
  pose proof (getInt_suffix _ _ _ E1) as (Hcnt & p1 & ->). rewrite length_app in Hf.
  destruct z1 as [|c z1]; [by left|]. cbn [length] in Hf.
  destruct (decide (c = 64)) as [->|H64].
  { destruct (getInt z1) as [ofst z2] eqn:E2.
    pose proof (getInt_suffix _ _ _ E2) as (Hofst & p2 & ->). rewrite length_app in Hf.
    destruct z2 as [|c z2]; [by left|]. cbn [length] in Hf. destruct (decide (c = 44)) as [->|H44].
    2:{ left. clear -H44. destruct c as [|c|c]; try done. do 6 (destruct c as [c|c|]; try done). }
    apply list.Forall_cons in Hnum as [Hn1 Hnum]. apply list.Forall_cons in Hnum as [Hn2 Hnum].
    assert (p1 ++ 64 :: p2 ++ 44 :: z2 = (p1 ++ [64] ++ p2 ++ [44]) ++ z2) as ->
      by (by rewrite <- !app_assoc).
    apply apply_loop_copy; [lia|lia|done|]. intros out' Hout'. apply IH; [done|lia|done]. }
  destruct (decide (c = 58)) as [->|H58].
  { apply list.Forall_cons in Hnum as [Hn1 Hnum].
    assert (p1 ++ 58 :: z1 = (p1 ++ [58]) ++ z1) as -> by (by rewrite <- app_assoc).
    apply apply_loop_insert; [lia|done|]. intros out' Hout'. apply IH; [done|rewrite length_drop; lia|done]. }
  destruct (decide (c = 59)) as [->|H59].
  2:{ left. clear -H64 H58 H59. destruct c as [|c|c]; try done. do 7 (destruct c as [c|c|]; try done). }
  rewrite check_true by (apply Z.ltb_lt; lia). cbn [mbind result_bind]. rewrite slice_all by done.
  destruct (Z.eqb_spec cnt (checksum out)) as [->|]; [|by left]. cbn [negb].
  destruct (Z.eqb_spec (Zlen out) limit) as [Hl|]; [|by left]. cbn [negb].
  right. exists out. rewrite to_int_small, Hl by lia. split; [done|].
  exists [], [], (p1 ++ 59 :: z1), z1. split_and!; try done; [|by rewrite app_nil_r].
  intros w Hw. by apply not_elem_of_nil in Hw.
Qed.
End NarrowNumbers.

(** ** Claims *)

(** C9. Delta round trip: for every source and target of less than 2^30 bytes,
    when memory can be allocated, [delta_create] returns a delta without an
    access outside its tables, [delta_output_size] reads the size of the target
    from it, and [delta_apply] of that delta to the same source, into a buffer of
    that size and one more byte, rebuilds the target and returns its length. *)
Theorem delta_roundtrip malloc zSrc zOut cap :
  Zlen zSrc < 2^30 -> Zlen zOut < 2^30 -> (forall n, malloc n = true) -> Zlen zOut < cap ->
  exists d, delta_create malloc zSrc zOut = Ok (Some d) /\
    delta_output_size d = Zlen zOut /\
    delta_apply zSrc cap d = Ok (Some (Zlen zOut, zOut)).
Proof.
  intros Hs Ho Hm Hc. destruct (delta_create_ok zSrc zOut Hs Ho malloc Hm) as [d Hd].
  exists d. split; [done|].
  destruct (delta_create_ops zSrc zOut Hs Ho malloc d Hd) as (ops & -> & Hok & Htx & _). split.
  - unfold delta_output_size. rewrite getInt_putInt by (done || lia). cbn.
    by rewrite to_int_small by lia.
  - apply delta_apply_ops; done || lia.
Qed.

Definition sample_src : list Z :=
  cstr "The quick brown fox jumps over the lazy dog, then sleeps in the sun."%string.
Definition sample_out : list Z :=
  cstr "A quick brown fox jumps over the lazy dog, then it eats and sleeps in the sun."%string.

Lemma delta_roundtrip_witness :
  exists d, delta_create (fun _ => true) sample_src sample_out = Ok (Some d) /\
    delta_output_size d = Zlen sample_out /\
    delta_apply sample_src 200 d = Ok (Some (Zlen sample_out, sample_out)).
Proof.
  apply (delta_roundtrip (fun _ => true) sample_src sample_out 200);
    [reflexivity|reflexivity|intros n; reflexivity|reflexivity].
Defined.

(** C10. The delta is never more than 19 bytes longer than the target, so the
    buffer of 60 bytes more than the target that the interface of [delta_create]
    asks for is never overrun. *)
Theorem delta_create_size malloc zSrc zOut d :
  Zlen zSrc < 2^30 -> Zlen zOut < 2^30 -> delta_create malloc zSrc zOut = Ok (Some d) ->
  Zlen d <= Zlen zOut + 19.
Proof.
  intros Hs Ho Hd.
  destruct (delta_create_ops zSrc zOut Hs Ho malloc d Hd) as (ops & -> & _ & _ & Hsz).
  rewrite !length_app. simpl. pose proof (checksum_range zOut).
  pose proof (putInt_length (Zlen zOut)). pose proof (putInt_length (checksum zOut)).
  repeat case_match; lia.
Qed.

Lemma delta_create_size_witness :
  exists d, delta_create (fun _ => true) sample_src sample_out = Ok (Some d) /\
    Zlen d <= Zlen sample_out + 19.
Proof.
  destruct (delta_create (fun _ => true) sample_src sample_out) as [[d|]|f] eqn:E;
    [|vm_compute in E; discriminate E|vm_compute in E; discriminate E].
  exists d. split; [reflexivity|].
  apply (delta_create_size (fun _ => true) sample_src sample_out d); [reflexivity|reflexivity|exact E].
Defined.

(** C11. The rolling hash is a function of the window: sliding the window over
    [n] bytes one at a time gives the value that hashing the window there from
    scratch gives. *)
Theorem hash_next_rolls z n :
  (n + 16 <= length z)%nat ->
  hash_32bit (foldl hash_next (hash_init z) (take n (drop 16 z))) = hash_32bit (hash_init (drop n z)).
Proof.
  intros Hn. apply (hash_of_32bit (take 16 (drop n z))).
  - assert (drop n (take 16 z ++ take n (drop 16 z)) = take 16 (drop n z)) as Hw.
    { rewrite take_take_drop, (Nat.add_comm 16), <- take_drop_commute. done. }
    rewrite <- Hw.
    replace n with (length (take n (drop 16 z))) at 1 by (rewrite length_take, length_drop; lia).
    apply hash_roll; [|rewrite length_take; lia].
    rewrite <- seqZ_cget by lia. apply hash_init_ok.
  - rewrite <- seqZ_cget by (rewrite length_drop; lia). apply hash_init_ok.
Qed.

Lemma hash_next_rolls_witness :
  hash_32bit (foldl hash_next (hash_init sample_src) (take 20 (drop 16 sample_src))) =
  hash_32bit (hash_init (drop 20 sample_src)).
Proof. apply (hash_next_rolls sample_src 20). apply leb_complete. reflexivity. Defined.

(** C12. Any text at all can be applied as a delta, to a source of less than
    2^31 bytes and into a buffer larger than the size it declares, when the
    declared size is not negative as an [int] and the counts and offsets of its
    copy and insert commands are below 2^31: no command reads outside the source
    or the delta or writes outside the buffer, and the run ends.  The text is
    rejected, or the declared size is returned, and then the output has that
    size, is the concatenation of ranges that lie inside the source and of
    segments of the delta, and has the checksum the delta ends with. *)
Theorem delta_apply_sound zSrc cap d :
  Zlen zSrc < 2^31 -> Zlen d < 2^31 -> 0 <= delta_output_size d < cap ->
  Forall (fun n => n < 2^31) (delta_numbers d) ->
  delta_apply zSrc cap d = Ok None \/
  exists out, delta_apply zSrc cap d = Ok (Some (delta_output_size d, out)) /\
    Zlen out = delta_output_size d /\
    (exists ops, Forall (op_ok zSrc) ops /\ literals_in d ops /\ out = ops_text zSrc ops) /\
    exists a z tail, d = a ++ z /\ getInt z = (checksum out, 59 :: tail).
Proof.
  intros _ _. unfold delta_output_size, delta_apply, delta_numbers.
  destruct (getInt d) as [limit z] eqn:E. cbn [snd].
  pose proof (getInt_suffix _ _ _ E) as (Hlim & p & ->). clear E.
  destruct z as [|c z]; [by left|]. destruct (decide (c = 10)) as [->|H10].
  2:{ intros _ _. left. clear -H10. destruct c as [|c|c]; try done. do 4 (destruct c as [c|c|]; try done). }
  change (cget (10 :: z) 0 =? 10) with true. cbn [negb]. intros Hsz Hnum.
  assert (limit < 2^31 /\ to_int limit = limit) as [H31 Hlimit]
    by (revert Hsz; unfold to_int; rewrite u32_small by done; destruct (Z.ltb_spec limit (2^31)); lia).
  rewrite Hlimit in *. change (apply_loop zSrc cap (S (length z)) limit z 0 [])
    with (apply_loop zSrc cap (S (length z)) limit z (Zlen (@nil Z)) []).
  destruct (apply_loop_result zSrc cap limit H31 (proj2 Hsz) (S (length z)) z [])
    as [->|(out & -> & ops & a & z' & tail & -> & Hg & Hok & Hlit & Hout & Hl)]; [done|lia|simpl; lia|by left|].
  right. exists out. split_and!; [done|done| |].
  - exists ops. split_and!; [done| |done]. change (10 :: a ++ z') with ([10] ++ a ++ z').
    by apply literals_in_app_l, literals_in_app_l.
  - exists (p ++ 10 :: a), z', tail. split; [|done]. by rewrite <- app_assoc.
Qed.

(** A delta that takes three bytes of [sample_src] between two literals. *)
Definition sample_delta : list Z := cstr "7
2:ab3@4,2:yz"%string ++ putInt (checksum (cstr "abquiyz"%string)) ++ [59].

Lemma delta_apply_sound_witness :
  exists out, delta_apply sample_src 8 sample_delta = Ok (Some (7, out)) /\
    exists ops, Forall (op_ok sample_src) ops /\ literals_in sample_delta ops /\
      out = ops_text sample_src ops.
Proof.
  destruct (delta_apply_sound sample_src 8 sample_delta) as [H|(out & H & _ & Hops & _)].
  - reflexivity.
  - vm_compute. reflexivity.
  - vm_compute. split; [discriminate|reflexivity].
  - change (delta_numbers sample_delta) with [2; 3; 4; 2]. repeat constructor.
  - vm_compute in H. discriminate H.
  - exists out. split; [|exact Hops].
    change (delta_output_size sample_delta) with 7 in H. exact H.
Defined.

(** C13. A delta that makes [delta_apply] leave its buffers.  The sums the
    guards compare, [total] and [ofst+cnt], are 32-bit and wrap around: after
    one inserted byte, copying 2^32 - 1 bytes from offset 1 passes both guards,
    whatever the source, and the copy runs outside it. *)
Definition wrap_delta : list Z :=
  putInt 1 ++ [10] ++ putInt 1 ++ [58; 120] ++ putInt (2^32 - 1) ++ [64] ++ putInt 1 ++ [44].

Theorem delta_apply_wraps zSrc cap :
  Zlen zSrc < 2^31 -> 1 < cap ->
  delta_output_size wrap_delta = 1 /\ delta_apply zSrc cap wrap_delta = Fault OutOfBounds.
Proof.
  intros Hs Hc. split; [reflexivity|].
  change wrap_delta with (putInt 1 ++ [10] ++ encode_op (OIns [120]) ++ encode_op (OCpy (2^32 - 1) 1)).
  unfold delta_apply. rewrite getInt_putInt by (done || lia). cbn [app].
  change (S (length _)) with 13%nat. change 0 with (Zlen (@nil Z)) at 1.
  rewrite (apply_insert zSrc cap _ 1 [120]) by (simpl; lia).
  change (encode_op (OCpy (2^32 - 1) 1)) with (putInt (2^32 - 1) ++ [64] ++ putInt 1 ++ [44]).
  cbn [apply_loop]. rewrite guard_putInt by lia. rewrite getInt_putInt by (done || lia).
  cbn [app]. rewrite getInt_putInt by (done || lia). cbn -[Z.sub Z.add Z.leb slice].
  change (u32 (Z.of_nat 1 + _)) with 0. change (u32 (1 + _)) with 0.
  rewrite !Z.gtb_ltb, (proj2 (Z.ltb_ge (Zlen zSrc) 0)) by lia.
  rewrite (proj2 (Z.leb_gt _ (Zlen zSrc))) by lia. done.
Qed.

Lemma delta_apply_wraps_witness :
  delta_output_size wrap_delta = 1 /\ delta_apply sample_src 2 wrap_delta = Fault OutOfBounds.
Proof. apply (delta_apply_wraps sample_src 2); reflexivity. Defined.

(** [digit_count] does not terminate for an argument of 2^30 or more: its
    limit [x] shifts to 0, which every value reaches; no number of iterations
    is enough. *)
Lemma digit_count_diverges fuel v :
  2^30 <= v < 2^31 -> digit_count_loop fuel v 1 64 = Fault OutOfFuel.
Proof.
  intros Hv. assert (forall fuel i, digit_count_loop fuel v i 0 = Fault OutOfFuel) as Hz.
  { clear fuel. intros fuel. induction fuel as [|fuel IH]; intros i; cbn [digit_count_loop];
      rewrite Z.geb_leb, (proj2 (Z.leb_le _ _)) by (rewrite u32_small; lia); [done|apply IH]. }
  assert (forall fuel i x, 0 <= x <= 2^30 ->
    (forall fuel i, digit_count_loop fuel v i (u32 (Z.shiftl x 6)) = Fault OutOfFuel) ->
    digit_count_loop fuel v i x = Fault OutOfFuel) as Hs.
  { intros [|f] i x Hx H; cbn [digit_count_loop];
      rewrite Z.geb_leb, (proj2 (Z.leb_le _ _)) by (rewrite u32_small; lia); [done|apply H]. }
  do 5 (apply Hs; [vm_compute; split; discriminate|]; intros ? ?). apply Hz.
Qed.

Lemma digit_count_diverges_witness : digit_count_loop 1000 (2^30) 1 64 = Fault OutOfFuel.
Proof. apply (digit_count_diverges 1000 (2^30)). lia. Defined.
