(* ===== verification/Bag.v ===== *)
(** * Bags of integers

    Models [src/src/ssfossil/fossil/src/bag.c]: an open-addressing hash table of
    positive integers, used for sets of record ids.  The table [a] is the list
    of its slots (empty for the null pointer), 0 marks a free slot and -1 a
    deleted one.  Slots are accessed through [rd] and [wr]; the products and
    sums the code computes in [int] go through [i32]; the [assert]s are checks.
    A probe may take as many steps as there are slots.  [malloc] is taken to
    succeed (the code does not test it).

    The state invariant is [bag_wf]; the abstract value of a bag is the multiset
    [live] of its positive slots. *)

From S2P Require Import Prelude.

(** ** The table *)

Record Bag := MkBag { cnt : Z; sz : Z; used : Z; a : list Z }.

Definition bag_init : Bag := MkBag 0 0 0 [].
Definition bag_clear (p : Bag) : Bag := bag_init.

Definition bag_hash (i : Z) : result Z := i32 (i * 101).

(** The probing loops: go on from slot [h] to the first slot whose content
    satisfies [stop]. *)
Fixpoint probe (fuel : nat) (stop : Z -> bool) (n : Z) (t : list Z) (h : Z) : result Z :=
  x ← rd t h;
  if stop x then Ok h
  else match fuel with
       | O => Fault OutOfFuel
       | S fuel => probe fuel stop n t (if h + 1 >=? n then 0 else h + 1)
       end.

(** [while( p->a[h] )], [while( p->a[h]>0 && p->a[h]!=e )] and
    [while( p->a[h] && p->a[h]!=e )]: the negated conditions. *)
Definition stop_free (x : Z) : bool := x =? 0.
Definition stop_insert (e x : Z) : bool := negb ((0 <? x) && negb (x =? e)).
Definition stop_find (e x : Z) : bool := negb (negb (x =? 0) && negb (x =? e)).

(** The loop of [bag_resize] over the old slots. *)
Fixpoint resize_loop (old : list Z) (newSize : Z) (t : list Z) (nLive nDel : Z) :
    result (list Z * Z * Z) :=
  match old with
  | [] => Ok (t, nLive, nDel)
  | e :: old =>
      if e >? 0 then
        he ← bag_hash e;
        h ← probe (Z.to_nat newSize) stop_free newSize t (he mod newSize);
        t ← wr t h e;
        resize_loop old newSize t (nLive + 1) nDel
      else if e <? 0 then resize_loop old newSize t nLive (nDel + 1)
      else resize_loop old newSize t nLive nDel
  end.

Definition bag_resize (p : Bag) (newSize : Z) : result Bag :=
  _ ← check (newSize >? cnt p) AssertFailed;
  '(t, nLive, nDel) ← resize_loop (a p) newSize (replicate (Z.to_nat newSize) 0) 0 0;
  _ ← check (cnt p =? nLive) AssertFailed;
  _ ← check (used p =? nLive + nDel) AssertFailed;
  Ok (MkBag (cnt p) newSize (cnt p) t).

(** Returns the bag and whether the insert occurred. *)
Definition bag_insert (p : Bag) (e : Z) : result (Bag * bool) :=
  _ ← check (e >? 0) AssertFailed;
  p ← (if used p + 1 >=? sz p / 2 then
         n ← i32 (sz p * 2); n ← i32 (n + 20); bag_resize p n
       else Ok p);
  he ← bag_hash e;
  h ← probe (Z.to_nat (sz p)) (stop_insert e) (sz p) (a p) (he mod sz p);
  x ← rd (a p) h;
  if x <=? 0 then
    t ← wr (a p) h e;
    Ok (MkBag (cnt p + 1) (sz p) (if x =? 0 then used p + 1 else used p) t, true)
  else Ok (p, false).

(** The search shared by [bag_find], [bag_remove] and [bag_next]. *)
Definition bag_search (p : Bag) (e : Z) : result Z :=
  he ← bag_hash e;
  probe (Z.to_nat (sz p)) (stop_find e) (sz p) (a p) (he mod sz p).

Definition bag_find (p : Bag) (e : Z) : result bool :=
  _ ← check (e >? 0) AssertFailed;
  if sz p =? 0 then Ok false
  else h ← bag_search p e; x ← rd (a p) h; Ok (x =? e).

Definition bag_remove (p : Bag) (e : Z) : result Bag :=
  _ ← check (e >? 0) AssertFailed;
  if sz p =? 0 then Ok p
  else
    h ← bag_search p e;
    x ← rd (a p) h;
    if x =? 0 then Ok p
    else
      y ← rd (a p) (if h + 1 >=? sz p then 0 else h + 1);
      t ← wr (a p) h (if y =? 0 then 0 else -1);
      let p := MkBag (cnt p - 1) (sz p) (if y =? 0 then used p - 1 else used p) t in
      if cnt p =? 0 then Ok (MkBag (cnt p) (sz p) 0 (replicate (length (a p)) 0))
      else if (sz p >? 40) && (cnt p <? sz p / 8) then bag_resize p (sz p / 2)
      else Ok p.

(** The scans of [bag_first] and [bag_next] over the slots from some index on:
    the first positive one, or 0. *)
Fixpoint first_live (t : list Z) : Z :=
  match t with [] => 0 | x :: t => if x <=? 0 then first_live t else x end.

Definition bag_first (p : Bag) : Z := first_live (take (Z.to_nat (sz p)) (a p)).

Definition bag_next (p : Bag) (e : Z) : result Z :=
  _ ← check (sz p >? 0) AssertFailed;
  _ ← check (e >? 0) AssertFailed;
  h ← bag_search p e;
  x ← rd (a p) h;
  _ ← check (negb (x =? 0)) AssertFailed;
  Ok (first_live (drop (Z.to_nat (h + 1)) (take (Z.to_nat (sz p)) (a p)))).

Definition bag_count (p : Bag) : Z := cnt p.

(** The loop the callers iterate with:
    [for(e=bag_first(p); e>0; e=bag_next(p,e))]. *)
Fixpoint walk_from (fuel : nat) (p : Bag) (e : Z) : result (list Z) :=
  if e >? 0 then
    match fuel with
    | O => Fault OutOfFuel
    | S fuel => e' ← bag_next p e; l ← walk_from fuel p e'; Ok (e :: l)
    end
  else Ok [].
Definition bag_walk (p : Bag) : result (list Z) := walk_from (length (a p)) p (bag_first p).
