(* ===== verification/BagSpec.v ===== *)
(** * Bags: invariant, refinement to multisets, iteration

    [bag_wf] is the representation invariant of [Bag.Bag]; [live] is the
    abstract value.  Every operation is shown total on well-formed bags (no slot
    outside the table, no failed [assert], no endless probe) and related to the
    multiset operation it implements. *)

From S2P Require Import Prelude Bag.

(** ** Invariant *)

Definition live (t : list Z) : list Z := filter (fun x => 0 < x) t.
Definition occupied (t : list Z) : list Z := filter (fun x => x <> 0) t.

Definition slot_val (x : Z) : Prop := x = -1 \/ x = 0 \/ (0 < x /\ x * 101 <= INT_MAX).

(** The [k]-th slot of the probe sequence of [e] in a table of [n] slots. *)
Definition probe_pos (n e k : Z) : Z := (e * 101 + k) mod n.

(** No free slot on the way from the hash of a live element to its slot. *)
Definition chained (n : Z) (t : list Z) : Prop :=
  forall i, 0 <= i < n -> 0 < cget t i ->
  forall k, 0 <= k < (i - cget t i * 101) mod n -> cget t (probe_pos n (cget t i) k) <> 0.

Record table_ok (n : Z) (t : list Z) : Prop := {
  t_len : Zlen t = n;
  t_vals : Forall slot_val t;
  t_free : 0 < n -> Zlen (occupied t) < n;
  t_chain : chained n t
}.

Record bag_wf (p : Bag) : Prop := {
  wf_table : table_ok (sz p) (a p);
  wf_cnt : cnt p = Zlen (live (a p));
  wf_used : used p = Zlen (occupied (a p))
}.

(** ** Slots *)

Lemma insert_delete_perm {A} (l : list A) i x : (i < length l)%nat -> <[i := x]> l ≡ₚ x :: delete i l.
Proof.
  intros Hi. rewrite (delete_Permutation (<[i := x]> l) i x) by (by apply list_lookup_insert_eq).
  rewrite !delete_take_drop, take_insert_ge, drop_insert_lt by lia. done.
Qed.

Lemma cget_delete_perm t i : 0 <= i < Zlen t -> t ≡ₚ cget t i :: delete (Z.to_nat i) t.
Proof. intros Hi. apply delete_Permutation, lookup_cget, Hi. Qed.

Lemma live_cons x t : live (x :: t) = if decide (0 < x) then x :: live t else live t.
Proof. apply filter_cons. Qed.
Lemma occupied_cons x t : occupied (x :: t) = if decide (x <> 0) then x :: occupied t else occupied t.
Proof. unfold occupied. by rewrite filter_cons. Qed.

#[export] Instance live_proper : Proper ((≡ₚ) ==> (≡ₚ)) live.
Proof. intros t u H. unfold live. by rewrite H. Qed.
#[export] Instance occupied_proper : Proper ((≡ₚ) ==> (≡ₚ)) occupied.
Proof. intros t u H. unfold occupied. by rewrite H. Qed.

(** The live and the occupied slots of a table and of an update of it, with the
    rest [delete i t] in common. *)
Lemma live_update t i x :
  0 <= i < Zlen t -> live (<[Z.to_nat i := x]> t) ≡ₚ live (x :: delete (Z.to_nat i) t) /\
                     live t ≡ₚ live (cget t i :: delete (Z.to_nat i) t).
Proof.
  intros Hi. split; apply live_proper; [apply insert_delete_perm; lia|by apply cget_delete_perm].
Qed.

Lemma occupied_update t i x :
  0 <= i < Zlen t ->
  Zlen (occupied (<[Z.to_nat i := x]> t)) = Zlen (occupied (x :: delete (Z.to_nat i) t)) /\
  Zlen (occupied t) = Zlen (occupied (cget t i :: delete (Z.to_nat i) t)).
Proof.
  intros Hi. split; f_equal; apply Permutation_length, occupied_proper;
    [apply insert_delete_perm; lia|by apply cget_delete_perm].
Qed.

Lemma live_occupied t : Zlen (live t) <= Zlen (occupied t).
Proof.
  induction t as [|x t IH]; [done|]. rewrite live_cons, occupied_cons.
  repeat case_decide; simpl; lia.
Qed.

Lemma elem_of_live t e : e ∈ live t <-> 0 < e /\ exists i, 0 <= i < Zlen t /\ cget t i = e.
Proof.
  unfold live. rewrite list_elem_of_filter. split; intros [He H]; (split; [done|]).
  - apply list_elem_of_lookup in H as [i Hi]. exists (Z.of_nat i). pose proof (lookup_lt_Some _ _ _ Hi).
    split; [lia|]. apply cget_Some; [lia|]. by rewrite Nat2Z.id.
  - destruct H as (i & Hi & <-). apply list_elem_of_lookup. eexists. by apply lookup_cget.
Qed.

Lemma all_occupied t : (forall i, 0 <= i < Zlen t -> cget t i <> 0) -> Zlen (occupied t) = Zlen t.
Proof.
  intros H. unfold occupied. f_equal. assert (filter (fun x => x <> 0) t = t) as ->; [|done].
  induction t as [|x t IH]; [done|]. rewrite filter_cons. rewrite decide_True.
  - f_equal. apply IH. intros i Hi. specialize (H (i + 1)).
    rewrite cget_lookup in H |- * by lia. replace (Z.to_nat (i + 1)) with (S (Z.to_nat i)) in H by lia.
    apply H. simpl. lia.
  - apply (H 0). simpl. lia.
Qed.

Lemma free_slot n t : 0 < n -> table_ok n t -> exists i, 0 <= i < n /\ cget t i = 0.
Proof.
  intros Hn Ht. destruct (decide (Exists (fun i => cget t i = 0) (seqZ 0 n))) as [H|H].
  - apply Exists_exists in H as (i & Hi & Hc). apply list_elem_of_In, elem_of_seqZ in Hi.
    exists i. split; [lia|done].
  - exfalso. pose proof (t_free n t Ht Hn). rewrite all_occupied in H0; [pose proof (t_len n t Ht); lia|].
    intros i Hi Hc. apply H, Exists_exists. exists i. split; [|done].
    apply list_elem_of_In, elem_of_seqZ. pose proof (t_len n t Ht). lia.
Qed.

(** ** Probing *)

Lemma pos_range n e k : 0 < n -> 0 <= probe_pos n e k < n.
Proof. apply Z.mod_pos_bound. Qed.

Lemma pos_next n e k :
  0 < n -> (if probe_pos n e k + 1 >=? n then 0 else probe_pos n e k + 1) = probe_pos n e (k + 1).
Proof.
  intros Hn. unfold probe_pos. rewrite Z.geb_leb. pose proof (Z.mod_pos_bound (e * 101 + k) n Hn).
  rewrite Z.add_assoc, <- (Z.add_mod_idemp_l (e * 101 + k) 1) by lia.
  destruct (Z.leb_spec n ((e * 101 + k) mod n + 1)).
  - replace ((e * 101 + k) mod n + 1) with n by lia. by rewrite Z.mod_same by lia.
  - symmetry. apply Z.mod_small. lia.
Qed.

(** The distance of a slot from the start of a probe sequence. *)
Lemma pos_dist n e i : 0 <= i < n -> probe_pos n e ((i - e * 101) mod n) = i.
Proof.
  intros Hi. unfold probe_pos. rewrite Z.add_mod_idemp_r by lia.
  replace (e * 101 + (i - e * 101)) with i by lia. by apply Z.mod_small.
Qed.

Lemma dist_pos n e k : 0 <= k < n -> (probe_pos n e k - e * 101) mod n = k.
Proof.
  intros Hk. unfold probe_pos. rewrite Zminus_mod_idemp_l.
  replace (e * 101 + k - e * 101) with k by lia. by apply Z.mod_small.
Qed.

Lemma probe_reaches stop n t e (k : nat) j fuel :
  0 < n -> Zlen t = n -> (k <= fuel)%nat ->
  stop (cget t (probe_pos n e (j + Z.of_nat k))) = true ->
  (forall m, j <= m < j + Z.of_nat k -> stop (cget t (probe_pos n e m)) = false) ->
  probe fuel stop n t (probe_pos n e j) = Ok (probe_pos n e (j + Z.of_nat k)).
Proof.
  intros Hn Hl. revert j fuel. induction k as [|k IH]; intros j fuel Hf Hs Hb.
  - rewrite Z.add_0_r in *. pose proof (pos_range n e j Hn).
    destruct fuel; cbn [probe]; rewrite rd_cget, bind_Ok, Hs by lia; done.
  - destruct fuel as [|fuel]; [lia|]. cbn [probe]. pose proof (pos_range n e j Hn).
    rewrite rd_cget, bind_Ok, (Hb j) by lia. rewrite pos_next by done.
    replace (j + Z.of_nat (S k)) with (j + 1 + Z.of_nat k) in * by lia.
    apply IH; [lia|done|]. intros m Hm. apply Hb. lia.
Qed.

(** A probe that stops at a free slot stops within one round. *)
Lemma probe_spec stop n t e :
  0 < n -> table_ok n t -> stop 0 = true ->
  exists k, 0 <= k < n /\
    probe (Z.to_nat n) stop n t ((e * 101) mod n) = Ok (probe_pos n e k) /\
    stop (cget t (probe_pos n e k)) = true /\
    forall j, 0 <= j < k -> stop (cget t (probe_pos n e j)) = false.
Proof.
  intros Hn Ht H0. destruct (free_slot n t Hn Ht) as (i & Hi & Hc).
  pose proof (Z.mod_pos_bound (i - e * 101) n Hn) as Hd.
  destruct (least_witness (fun k => stop (cget t (probe_pos n e k))) ((i - e * 101) mod n))
    as (k & Hk & Hs & Hmin); [lia|by rewrite pos_dist, Hc by lia|].
  exists k. split_and!; try done || lia.
  replace ((e * 101) mod n) with (probe_pos n e 0) by (unfold probe_pos; by rewrite Z.add_0_r).
  replace (probe_pos n e k) with (probe_pos n e (0 + Z.of_nat (Z.to_nat k))) by (f_equal; lia).
  apply probe_reaches; try done; try lia; [apply (t_len n t Ht)| |].
  - by replace (0 + Z.of_nat (Z.to_nat k)) with k by lia.
  - intros m Hm. apply Hmin. lia.
Qed.

(** ** Updates of the table *)

Definition key (e : Z) : Prop := 0 < e /\ e * 101 <= INT_MAX.

Lemma bag_hash_ok e : key e -> bag_hash e = Ok (e * 101).
Proof. intros [? ?]. apply i32_ok. unfold INT_MIN. lia. Qed.

Lemma slot_key n t i : table_ok n t -> 0 <= i < n -> 0 < cget t i -> key (cget t i).
Proof.
  intros Ht Hi Hc. pose proof (t_len n t Ht). pose proof (lookup_cget t i ltac:(lia)) as Hl.
  pose proof (Forall_lookup_1 _ _ _ _ (t_vals n t Ht) Hl) as [?|[?|?]]; [lia|lia|done].
Qed.

Lemma table_put n t e k :
  0 < n -> table_ok n t -> key e -> 0 <= k < n -> cget t (probe_pos n e k) <= 0 ->
  (forall j, 0 <= j < k -> cget t (probe_pos n e j) <> 0) ->
  Zlen (occupied (<[Z.to_nat (probe_pos n e k) := e]> t)) < n ->
  table_ok n (<[Z.to_nat (probe_pos n e k) := e]> t).
Proof.
  intros Hn Ht He Hk Hold Hb Hocc. pose proof (t_len n t Ht) as Hl.
  pose proof (pos_range n e k Hn) as Hp. set (q := probe_pos n e k) in *. split; try done.
  - by rewrite length_insert.
  - apply Forall_insert; [apply Ht|]. by right; right.
  - intros i Hi Hpos j Hj.
    assert (cget t (probe_pos n (cget (<[Z.to_nat q:=e]> t) i) j) <> 0 ->
            cget (<[Z.to_nat q:=e]> t) (probe_pos n (cget (<[Z.to_nat q:=e]> t) i) j) <> 0) as Hmono.
    { intros H. pose proof (pos_range n (cget (<[Z.to_nat q:=e]> t) i) j Hn).
      rewrite (cget_insert t q (probe_pos _ _ _)) by lia. case_decide; [destruct He; lia|done]. }
    apply Hmono. clear Hmono. rewrite cget_insert in * by lia. case_decide as E.
    + apply Hb. subst i. unfold q in Hj. rewrite dist_pos in Hj by lia. lia.
    + by apply (t_chain n t Ht).
Qed.

(** Deleting a live element: its slot becomes free when the next one is, and is
    marked otherwise. *)
Lemma table_del n t h :
  0 < n -> table_ok n t -> 0 <= h < n -> 0 < cget t h ->
  table_ok n (<[Z.to_nat h := if cget t (if h + 1 >=? n then 0 else h + 1) =? 0 then 0 else -1]> t).
Proof.
  intros Hn Ht Hh Hc. pose proof (t_len n t Ht) as Hl.
  set (nx := if h + 1 >=? n then 0 else h + 1). set (v := if cget t nx =? 0 then 0 else -1).
  assert (v = 0 \/ v = -1) as Hv by (unfold v; destruct (_ =? _); auto).
  split.
  - by rewrite length_insert.
  - apply Forall_insert; [apply Ht|]. unfold slot_val. lia.
  - intros _. destruct (occupied_update t h v ltac:(lia)) as [-> Ho]. pose proof (t_free n t Ht Hn) as Hf.
    rewrite Ho in Hf. rewrite !occupied_cons in *. rewrite (decide_True _ _ (P := cget t h <> 0)) in Hf by lia.
    clear Ho. clearbody v. cbn [length] in Hf. case_decide; cbn [length]; lia.
  - intros i Hi Hpos k Hk. rewrite (cget_insert t h i) in * by lia. case_decide as E; [lia|].
    set (e := cget t i) in *. pose proof (pos_range n e k Hn) as Hp.
    pose proof (t_chain n t Ht i Hi Hpos) as Hchain. fold e in Hchain.
    rewrite cget_insert by lia. case_decide as Ek; [|by apply Hchain].
    unfold v. destruct (Z.eqb_spec (cget t nx) 0) as [Hz|Hz]; [|done]. exfalso. revert Hz.
    assert (nx = probe_pos n e (k + 1)) as ->.
    { unfold nx. rewrite Ek. by apply pos_next. }
    destruct (decide (k + 1 = (i - e * 101) mod n)) as [->|Hne].
    + rewrite pos_dist by done. fold e. lia.
    + apply Hchain. lia.
Qed.

Lemma occupied_zeros m : occupied (replicate m 0) = [].
Proof. induction m as [|m IH]; [done|]. simpl. by rewrite occupied_cons, decide_False by lia. Qed.
Lemma live_zeros m : live (replicate m 0) = [].
Proof. induction m as [|m IH]; [done|]. simpl. by rewrite live_cons, decide_False by lia. Qed.

Lemma table_empty n : 0 <= n -> table_ok n (replicate (Z.to_nat n) 0).
Proof.
  intros Hn. assert (forall i, cget (replicate (Z.to_nat n) 0) i = 0) as H0.
  { intros i. unfold cget. destruct (i <? 0); [done|]. rewrite nth_lookup.
    destruct (_ !! _) eqn:E; [|done]. by apply lookup_replicate in E as [-> _]. }
  split.
  - rewrite length_replicate. lia.
  - apply Forall_replicate. right. by left.
  - intros ?. rewrite occupied_zeros. done.
  - intros i _ Hpos. rewrite H0 in Hpos. lia.
Qed.

(** ** Resizing *)

Lemma resize_loop_spec old n t nl nd :
  0 < n -> table_ok n t -> Forall slot_val old -> Zlen (occupied t) + Zlen (live old) < n ->
  exists t', resize_loop old n t nl nd =
      Ok (t', nl + Zlen (live old), nd + (Zlen (occupied old) - Zlen (live old))) /\
    table_ok n t' /\ live t' ≡ₚ live t ++ live old /\
    Zlen (occupied t') = Zlen (occupied t) + Zlen (live old).
Proof.
  intros Hn. revert t nl nd. induction old as [|e old IH]; intros t nl nd Ht Hv Hroom; cbn [resize_loop].
  { exists t. rewrite app_nil_r. split_and!; try done; [|simpl; lia]. repeat f_equal; simpl; lia. }
  apply Forall_cons_1 in Hv as [He Hv]. rewrite Z.gtb_ltb.
  rewrite live_cons in Hroom. rewrite live_cons, occupied_cons.
  destruct (Z.ltb_spec 0 e) as [Hpos|Hneg].
  - rewrite decide_True in Hroom |- * by lia. rewrite decide_True by lia.
    assert (key e) as Hkey by (destruct He as [?|[?|?]]; done || lia).
    rewrite bag_hash_ok, bind_Ok by done.
    destruct (probe_spec stop_free n t e Hn Ht eq_refl) as (k & Hk & -> & Hstop & Hb). rewrite bind_Ok.
    unfold stop_free in Hstop, Hb. apply Z.eqb_eq in Hstop.
    pose proof (pos_range n e k Hn) as Hp. pose proof (t_len n t Ht) as Hl.
    rewrite wr_ok, bind_Ok by lia.
    destruct (occupied_update t (probe_pos n e k) e ltac:(lia)) as [Ho1 Ho2].
    rewrite occupied_cons, decide_True in Ho1 by lia. rewrite Hstop, occupied_cons, decide_False in Ho2 by lia.
    destruct (live_update t (probe_pos n e k) e ltac:(lia)) as [Hl1 Hl2].
    rewrite live_cons, decide_True in Hl1 by lia. rewrite Hstop, live_cons, decide_False in Hl2 by lia.
    simpl in Hroom, Ho1. edestruct (IH (<[Z.to_nat (probe_pos n e k):=e]> t)) as (t' & -> & Ht' & Hlv & Hoc).
    + apply table_put; try done; [lia| |lia]. intros j Hj. apply Z.eqb_neq. by apply Hb.
    + done.
    + lia.
    + exists t'. cbn [length]. split_and!; try done; [do 2 f_equal; [f_equal|]; lia| |lia].
      rewrite Hlv, Hl1, Hl2. by rewrite <- Permutation_middle.
  - rewrite decide_False in Hroom |- * by lia. destruct (Z.ltb_spec e 0) as [H0|H0].
    + rewrite decide_True by lia. destruct (IH t nl (nd + 1) Ht Hv Hroom) as (t' & -> & H). exists t'.
      split; [|done]. cbn [length]. do 2 f_equal; lia.
    + rewrite decide_False by lia. by apply IH.
Qed.

Lemma bag_resize_spec p n :
  bag_wf p -> cnt p < n ->
  exists p', bag_resize p n = Ok p' /\ bag_wf p' /\ live (a p') ≡ₚ live (a p) /\
    sz p' = n /\ used p' = cnt p' /\ cnt p' = cnt p.
Proof.
  intros [Ht Hc Hu] Hn. unfold bag_resize.
  rewrite check_true, bind_Ok by (rewrite Z.gtb_ltb; by apply Z.ltb_lt).
  destruct (resize_loop_spec (a p) n (replicate (Z.to_nat n) 0) 0 0) as (t & -> & Ht' & Hlv & Hoc).
  { lia. } { apply table_empty. lia. } { apply Ht. } { rewrite occupied_zeros. simpl. lia. }
  rewrite bind_Ok, check_true, bind_Ok by (apply Z.eqb_eq; lia).
  rewrite check_true, bind_Ok by (apply Z.eqb_eq; lia).
  rewrite live_zeros in Hlv. rewrite occupied_zeros in Hoc. simpl in Hlv, Hoc.
  eexists. split_and!; try done. split; simpl; [done| |lia].
  by rewrite Hlv.
Qed.

(** ** Searching *)

Lemma bag_search_spec p e :
  bag_wf p -> 0 < sz p -> key e ->
  exists h, bag_search p e = Ok h /\ 0 <= h < sz p /\
    ((e ∈ live (a p) /\ cget (a p) h = e) \/ ((e ∉ live (a p)) /\ cget (a p) h = 0)).
Proof.
  intros [Ht _ _] Hn He. pose proof (t_len _ _ Ht) as Hl.
  unfold bag_search. rewrite bag_hash_ok, bind_Ok by done.
  destruct (probe_spec (stop_find e) _ _ e Hn Ht eq_refl) as (k & Hk & -> & Hstop & Hb).
  pose proof (pos_range (sz p) e k Hn) as Hp. eexists. split_and!; [done|lia|lia|].
  assert (cget (a p) (probe_pos (sz p) e k) = 0 \/ cget (a p) (probe_pos (sz p) e k) = e) as Hx.
  { unfold stop_find in Hstop. destruct (Z.eqb_spec (cget (a p) (probe_pos (sz p) e k)) 0); [auto|].
    destruct (Z.eqb_spec (cget (a p) (probe_pos (sz p) e k)) e); [auto|done]. }
  destruct (decide (e ∈ live (a p))) as [Hin|Hout]; [left; split; [done|]|right; split; [done|]].
  - apply elem_of_live in Hin as (Hpos & i & Hi & Hc). destruct Hx as [Hx|Hx]; [|done]. exfalso.
    pose proof (Z.mod_pos_bound (i - e * 101) (sz p) Hn).
    destruct (Z.lt_total k ((i - e * 101) mod sz p)) as [Hlt|[->|Hgt]].
    + pose proof (t_chain _ _ Ht i ltac:(lia)) as Hch. rewrite Hc in Hch.
      by apply (Hch Hpos k); [lia|].
    + rewrite pos_dist in Hx by lia. lia.
    + pose proof (Hb ((i - e * 101) mod sz p) ltac:(lia)) as Hs. rewrite pos_dist in Hs by lia.
      rewrite Hc in Hs. unfold stop_find in Hs. rewrite Z.eqb_refl, andb_false_r in Hs. done.
  - destruct Hx as [Hx|Hx]; [done|]. exfalso. apply Hout, elem_of_live.
    split; [apply He|]. eexists. split; [|done]. lia.
Qed.

Lemma no_deleted t i :
  Zlen (occupied t) = Zlen (live t) -> 0 <= i < Zlen t -> cget t i <> 0 -> 0 < cget t i.
Proof.
  intros H Hi. rewrite cget_lookup by lia. destruct (lookup_lt_is_Some_2 t (Z.to_nat i)) as [x Hx]; [lia|].
  rewrite Hx. simpl. revert Hx. generalize (Z.to_nat i) as j. clear Hi i.
  induction t as [|y t IH]; intros [|j]; simpl; try done.
  - intros [= ->] Hx. pose proof (live_occupied t). rewrite live_cons, occupied_cons in H.
    rewrite (decide_True (P := x <> 0)) in H by done. case_decide; [done|]. cbn [length] in H. lia.
  - apply IH. pose proof (live_occupied t). rewrite live_cons, occupied_cons in H.
    repeat case_decide; cbn [length] in H; lia.
Qed.

(** The slot an insertion probes to: it holds [e], or it is not live and every
    slot before it on the probe sequence is occupied. *)
Lemma insert_slot n t e :
  0 < n -> table_ok n t -> key e ->
  exists k, 0 <= k < n /\
    probe (Z.to_nat n) (stop_insert e) n t ((e * 101) mod n) = Ok (probe_pos n e k) /\
    (cget t (probe_pos n e k) = e \/ cget t (probe_pos n e k) <= 0) /\
    (forall j, 0 <= j < k -> cget t (probe_pos n e j) <> 0) /\
    (Zlen (occupied t) = Zlen (live t) -> e ∈ live t -> cget t (probe_pos n e k) = e).
Proof.
  intros Hn Ht He. destruct (probe_spec (stop_insert e) n t e Hn Ht eq_refl) as (k & Hk & Hp & Hstop & Hb).
  assert (forall x, stop_insert e x = true <-> x = e \/ x <= 0) as Hst.
  { intros x. unfold stop_insert. destruct (Z.ltb_spec 0 x), (Z.eqb_spec x e); simpl; intuition (lia || done). }
  apply Hst in Hstop. exists k. split_and!; try done; try lia.
  - intros j Hj Hz. specialize (Hb j Hj). apply not_true_iff_false in Hb. apply Hb, Hst. lia.
  - intros Hno (Hpos & i & Hi & Hc)%elem_of_live. destruct Hstop as [?|Hneg]; [done|]. exfalso.
    pose proof (t_len n t Ht) as Hl. pose proof (Z.mod_pos_bound (i - e * 101) n Hn).
    pose proof (pos_range n e k Hn). destruct (Z.lt_total k ((i - e * 101) mod n)) as [Hlt|[->|Hgt]].
    + pose proof (t_chain n t Ht i ltac:(lia)) as Hch. rewrite Hc in Hch.
      pose proof (no_deleted t (probe_pos n e k) Hno ltac:(lia) (Hch Hpos k ltac:(lia))). lia.
    + rewrite pos_dist in Hneg by lia. lia.
    + pose proof (Hb ((i - e * 101) mod n) ltac:(lia)) as Hs. rewrite pos_dist in Hs by lia.
      apply not_true_iff_false in Hs. apply Hs, Hst. by left.
Qed.

Lemma live_inj t (i j : nat) x :
  NoDup (live t) -> 0 < x -> t !! i = Some x -> t !! j = Some x -> i = j.
Proof.
  intros Hnd Hx. revert i j Hnd.
  induction t as [|y t IH]; intros [|i] [|j] Hnd Hi Hj; simpl in Hi, Hj; try done.
  - simplify_eq. exfalso. rewrite live_cons, decide_True in Hnd by done. apply NoDup_cons_1_1 in Hnd as Hn.
    apply Hn. unfold live. apply list_elem_of_filter. split; [done|by eapply list_elem_of_lookup_2].
  - simplify_eq. exfalso. rewrite live_cons, decide_True in Hnd by done. apply NoDup_cons_1_1 in Hnd as Hn.
    apply Hn. unfold live. apply list_elem_of_filter. split; [done|by eapply list_elem_of_lookup_2].
  - f_equal. apply IH; try done. rewrite live_cons in Hnd. case_decide; [by apply NoDup_cons_1_2 in Hnd|done].
Qed.

(** [chained] as a test. *)
Definition chainedb (n : Z) (t : list Z) : bool :=
  forallb (fun i => (cget t i <=? 0) ||
    forallb (fun k => negb (cget t (probe_pos n (cget t i) k) =? 0))
      (seqZ 0 ((i - cget t i * 101) mod n))) (seqZ 0 n).

Lemma chainedb_ok n t : chainedb n t = true -> chained n t.
Proof.
  intros H i Hi Hpos k Hk. pose proof (range_forallb _ _ H i Hi) as Hb. simpl in Hb.
  rewrite (proj2 (Z.leb_gt _ 0)) in Hb by done. simpl in Hb.
  pose proof (range_forallb _ _ Hb k Hk) as Hz. by apply negb_true_iff, Z.eqb_neq in Hz.
Qed.

(** ** Claims *)

(** The bag the rest of an insertion works on: enlarged when it is half full. *)
Lemma insert_room p :
  bag_wf p -> sz p * 2 + 20 <= INT_MAX ->
  exists p1, (if used p + 1 >=? sz p / 2 then
         n ← i32 (sz p * 2); n ← i32 (n + 20); bag_resize p n else Ok p) = Ok p1 /\
    bag_wf p1 /\ live (a p1) ≡ₚ live (a p) /\ used p1 + 1 < sz p1 /\
    (used p = cnt p -> used p1 = cnt p1).
Proof.
  intros Hwf Hmax. pose proof (wf_table p Hwf) as Ht. pose proof (t_len _ _ Ht) as Hl.
  pose proof (wf_cnt p Hwf) as Hc. pose proof (wf_used p Hwf) as Hu. pose proof (live_occupied (a p)).
  rewrite Z.geb_leb. destruct (Z.leb_spec (sz p / 2) (used p + 1)).
  - rewrite i32_ok, bind_Ok by (unfold INT_MIN; lia). rewrite i32_ok, bind_Ok by (unfold INT_MIN; lia).
    assert (Zlen (occupied (a p)) <= sz p).
    { destruct (decide (0 < sz p)) as [Hs|Hs]; [pose proof (t_free _ _ Ht Hs); lia|].
      destruct (a p); [simpl in Hl |- *; lia|simpl in Hl; lia]. }
    destruct (bag_resize_spec p (sz p * 2 + 20) Hwf) as (p1 & -> & Hwf1 & Hlv & Hs & Huc & Hcc); [lia|].
    exists p1. split_and!; try done. lia.
  - exists p. split_and!; try done. dlia.
Qed.

(** C15. [bag_insert] on a well-formed bag and a key whose hash does not overflow
    returns (no failed [assert], no endless probe, no slot outside the table)
    and leaves a well-formed bag.  When it reports an insert the element is
    added to the multiset of live elements; when it does not, the element was
    there and the multiset is unchanged.  On a bag without deleted slots it
    reports an insert exactly when the element was not there. *)
Theorem bag_insert_spec p e :
  bag_wf p -> key e -> sz p * 2 + 20 <= INT_MAX ->
  exists p' b, bag_insert p e = Ok (p', b) /\ bag_wf p' /\
    (if b then live (a p') ≡ₚ e :: live (a p) else e ∈ live (a p) /\ live (a p') ≡ₚ live (a p)) /\
    (used p = cnt p -> b = negb (bool_decide (e ∈ live (a p)))).
Proof.
  intros Hwf He Hmax. unfold bag_insert.
  rewrite check_true, bind_Ok by (rewrite Z.gtb_ltb; apply Z.ltb_lt, He).
  destruct (insert_room p Hwf Hmax) as (p1 & -> & [Ht Hc Hu] & Hlv & Hroom & Huc).
  rewrite bind_Ok, bag_hash_ok, bind_Ok by done.
  pose proof (t_len _ _ Ht) as Hl. assert (0 < sz p1) as Hn by lia.
  destruct (insert_slot _ _ e Hn Ht He) as (k & Hk & -> & Hx & Hb & Hno). rewrite bind_Ok.
  pose proof (pos_range (sz p1) e k Hn) as Hp. rewrite rd_cget, bind_Ok by lia.
  set (q := probe_pos (sz p1) e k) in *.
  destruct (live_update (a p1) q e ltac:(lia)) as [Hl1 Hl2].
  destruct (occupied_update (a p1) q e ltac:(lia)) as [Ho1 Ho2].
  rewrite live_cons, decide_True in Hl1 by apply He. rewrite live_cons in Hl2.
  rewrite occupied_cons, decide_True in Ho1 by (destruct He; lia). rewrite occupied_cons in Ho2.
  destruct (Z.leb_spec (cget (a p1) q) 0) as [Hle|Hgt].
  - rewrite wr_ok, bind_Ok by lia. rewrite decide_False in Hl2 by lia. cbn [length] in Ho1.
    do 2 eexists. split; [done|]. split; [split; simpl|split].
    + apply table_put; try done. fold q. case_decide; cbn [length] in Ho2; lia.
    + rewrite Hc. apply Permutation_length in Hl1, Hl2. rewrite Hl1, Hl2. simpl. lia.
    + destruct (Z.eqb_spec (cget (a p1) q) 0); case_decide; cbn [length] in Ho2; lia.
    + simpl. by rewrite Hl1, <- Hl2, Hlv.
    + intros Hd. rewrite bool_decide_false; [done|]. intros Hin. rewrite <- Hlv in Hin.
      destruct He. specialize (Huc Hd). rewrite Hno in Hle; [lia|lia|done].
  - do 2 eexists. split; [done|]. destruct Hx as [Hx|Hx]; [|lia].
    assert (e ∈ live (a p)) as Hin.
    { rewrite <- Hlv. apply elem_of_live. split; [apply He|]. exists q. split; [lia|done]. }
    split; [done|]. split; [done|]. intros _. by rewrite bool_decide_true.
Qed.

Definition bag3 : Bag := MkBag 3 20 3 ([0; 1; 21; 41] ++ replicate 16 0).

Lemma bag3_wf : bag_wf bag3.
Proof.
  split; [split|reflexivity|reflexivity].
  - reflexivity.
  - repeat (constructor; [unfold slot_val, INT_MAX; lia|]). constructor.
  - intros _. reflexivity.
  - apply chainedb_ok. vm_compute. reflexivity.
Qed.

Lemma bag_insert_spec_witness :
  exists p' b, bag_insert bag3 61 = Ok (p', b) /\ bag_wf p' /\
    (if b then live (a p') ≡ₚ 61 :: live (a bag3)
     else 61 ∈ live (a bag3) /\ live (a p') ≡ₚ live (a bag3)) /\
    (used bag3 = cnt bag3 -> b = negb (bool_decide (61 ∈ live (a bag3)))).
Proof.
  apply (bag_insert_spec bag3 61); [apply bag3_wf|unfold key, INT_MAX; lia|vm_compute; discriminate].
Defined.

(** [bag_find] decides membership, also in the presence of deleted slots. *)
Lemma bag_find_spec p e :
  bag_wf p -> key e -> bag_find p e = Ok (bool_decide (e ∈ live (a p))).
Proof.
  intros Hwf He. unfold bag_find. rewrite check_true, bind_Ok by (rewrite Z.gtb_ltb; apply Z.ltb_lt, He).
  pose proof (t_len _ _ (wf_table p Hwf)) as Hl.
  destruct (Z.eqb_spec (sz p) 0) as [E|E].
  { destruct (a p); [|simpl in Hl; lia]. by rewrite bool_decide_false by (apply not_elem_of_nil). }
  destruct (bag_search_spec p e Hwf ltac:(lia) He) as (h & -> & Hh & Hc).
  rewrite bind_Ok, rd_cget, bind_Ok by lia. f_equal. destruct He.
  destruct Hc as [[Hin ->]|[Hout ->]].
  - by rewrite Z.eqb_refl, bool_decide_true.
  - rewrite bool_decide_false by done. apply Z.eqb_neq. lia.
Qed.

Lemma bag_find_sample : bag_find bag3 41 = Ok (bool_decide (41 ∈ live (a bag3))).
Proof. apply (bag_find_spec bag3 41); [apply bag3_wf|unfold key, INT_MAX; lia]. Defined.

(** C17. [bag_remove] on a well-formed bag returns, leaves a well-formed bag and
    removes one occurrence of the element from the multiset of live elements;
    the bag is unchanged when the element is not there. *)
Theorem bag_remove_spec p e :
  bag_wf p -> key e ->
  exists p', bag_remove p e = Ok p' /\ bag_wf p' /\
    if decide (e ∈ live (a p)) then live (a p) ≡ₚ e :: live (a p') else p' = p.
Proof.
  intros Hwf He. unfold bag_remove. rewrite check_true, bind_Ok by (rewrite Z.gtb_ltb; apply Z.ltb_lt, He).
  pose proof (wf_table p Hwf) as Ht. pose proof (t_len _ _ Ht) as Hl.
  destruct (Z.eqb_spec (sz p) 0) as [E|E].
  { destruct (a p) eqn:Ea; [|simpl in Hl; lia]. exists p. split_and!; try done. }
  assert (0 < sz p) as Hn by lia.
  destruct (bag_search_spec p e Hwf Hn He) as (h & -> & Hh & Hc). rewrite bind_Ok.
  rewrite (rd_cget (a p) h) by lia. rewrite bind_Ok.
  destruct (decide (e ∈ live (a p))) as [Hin|Hout];
    (destruct Hc as [[Hin' Hc]|[Hout' Hc]]; try done); [|rewrite Hc; by exists p].
  rewrite Hc. destruct He as [Hpos Hmax]. rewrite (proj2 (Z.eqb_neq e 0)) by lia.
  rewrite rd_cget, bind_Ok by (rewrite Z.geb_leb; destruct (Z.leb_spec (sz p) (h + 1)); lia).
  pose proof (table_del (sz p) (a p) h Hn Ht Hh ltac:(lia)) as Ht1.
  set (y := cget (a p) (if h + 1 >=? sz p then 0 else h + 1)) in *.
  rewrite wr_ok, bind_Ok by lia. cbn [Bag.cnt Bag.sz Bag.used Bag.a].
  set (v := if y =? 0 then 0 else -1) in *.
  destruct (live_update (a p) h v ltac:(lia)) as [Hl1 Hl2].
  destruct (occupied_update (a p) h v ltac:(lia)) as [Ho1 Ho2].
  rewrite live_cons, decide_False in Hl1 by (unfold v; destruct (y =? 0); lia).
  rewrite live_cons, Hc, decide_True in Hl2 by lia. rewrite <- Hl1 in Hl2.
  rewrite occupied_cons in Ho1. rewrite occupied_cons, Hc, decide_True in Ho2 by lia. cbn [length] in Ho2.
  pose proof (Permutation_length Hl2) as Hlen. cbn [length] in Hlen.
  set (p1 := MkBag (cnt p - 1) (sz p) (if y =? 0 then used p - 1 else used p) (<[Z.to_nat h:=v]> (a p))). assert (bag_wf p1) as Hwf1.
  { split; simpl; [done|rewrite (wf_cnt p Hwf); lia|]. rewrite (wf_used p Hwf), Ho1.
    unfold v. destruct (y =? 0); [rewrite decide_False by lia|rewrite decide_True by lia]; cbn [length]; lia. }
  destruct (Z.eqb_spec (cnt p - 1) 0) as [E0|E0].
  - eexists. split; [done|]. rewrite length_insert. replace (length (a p)) with (Z.to_nat (sz p)) by lia.
    simpl. split; [split; simpl|].
    + apply table_empty. lia.
    + rewrite live_zeros. simpl. lia.
    + by rewrite occupied_zeros.
    + rewrite live_zeros. rewrite Hl2. apply Permutation_cons; [done|].
      destruct (live (<[Z.to_nat h:=v]> (a p))) eqn:El; [done|].
      exfalso. pose proof (wf_cnt p Hwf). cbn [length] in Hlen. lia.
  - destruct (_ && _) eqn:Eb; [|by exists p1].
    apply andb_true_iff in Eb as [Eb1 Eb2]. rewrite Z.gtb_ltb, Z.ltb_lt in Eb1. apply Z.ltb_lt in Eb2.
    destruct (bag_resize_spec p1 (sz p / 2) Hwf1) as (p2 & -> & Hwf2 & Hlv & _); [simpl; dlia|].
    exists p2. split_and!; try done. by rewrite Hl2, Hlv.
Qed.

Lemma bag_remove_spec_witness :
  exists p', bag_remove bag3 1 = Ok p' /\ bag_wf p' /\
    if decide (1 ∈ live (a bag3)) then live (a bag3) ≡ₚ 1 :: live (a p') else p' = bag3.
Proof. apply (bag_remove_spec bag3 1); [apply bag3_wf|unfold key, INT_MAX; lia]. Defined.

(** The successor of the element in slot [i] is the first live one after it. *)
Lemma bag_next_at p i :
  bag_wf p -> NoDup (live (a p)) -> 0 <= i < sz p -> 0 < cget (a p) i ->
  bag_next p (cget (a p) i) = Ok (first_live (drop (Z.to_nat (i + 1)) (a p))).
Proof.
  intros Hwf Hnd Hi Hpos. pose proof (wf_table p Hwf) as Ht. pose proof (t_len _ _ Ht) as Hl.
  pose proof (slot_key _ _ i Ht Hi Hpos) as Hk. unfold bag_next.
  rewrite !check_true, !bind_Ok by (rewrite Z.gtb_ltb; apply Z.ltb_lt; lia).
  destruct (bag_search_spec p _ Hwf ltac:(lia) Hk) as (h & -> & Hh & Hc).
  assert (cget (a p) i ∈ live (a p)) as Hin.
  { apply elem_of_live. split; [done|]. exists i. split; [lia|done]. }
  destruct Hc as [[_ Hc]|[? _]]; [|done].
  assert (h = i) as ->.
  { assert (Z.to_nat h = Z.to_nat i); [|lia]. apply (live_inj (a p) _ _ (cget (a p) i) Hnd Hpos).
    - rewrite lookup_cget by lia. by f_equal.
    - apply lookup_cget. lia. }
  rewrite bind_Ok, rd_cget, bind_Ok by lia.
  rewrite check_true, bind_Ok by (apply negb_true_iff, Z.eqb_neq; lia).
  by rewrite (take_ge (a p)) by lia.
Qed.

Lemma walk_from_spec p n i fuel :
  bag_wf p -> NoDup (live (a p)) -> 0 <= i -> i + Z.of_nat n = sz p -> (n <= fuel)%nat ->
  walk_from fuel p (first_live (drop (Z.to_nat i) (a p))) = Ok (live (drop (Z.to_nat i) (a p))).
Proof.
  intros Hwf Hnd. pose proof (t_len _ _ (wf_table p Hwf)) as Hl.
  revert i fuel. induction n as [|n IH]; intros i fuel Hi Hn Hf.
  { rewrite (drop_ge (a p)) by lia. by destruct fuel. }
  rewrite (drop_S (a p) (cget (a p) i)) by (apply lookup_cget; lia).
  rewrite live_cons. cbn [first_live]. replace (S (Z.to_nat i)) with (Z.to_nat (i + 1)) by lia.
  destruct (Z.leb_spec (cget (a p) i) 0) as [Hle|Hgt].
  - rewrite decide_False by lia. apply IH; lia.
  - rewrite decide_True by lia. destruct fuel as [|fuel]; [lia|]. cbn [walk_from].
    rewrite Z.gtb_ltb, (proj2 (Z.ltb_lt 0 _)) by lia.
    rewrite bag_next_at, bind_Ok by (done || lia). rewrite IH by lia. done.
Qed.

(** Iteration: on a well-formed bag without duplicates the loop over
    [bag_first] and [bag_next] terminates and visits every live element exactly
    once, in the order of the slots. *)
Lemma bag_walk_spec p :
  bag_wf p -> NoDup (live (a p)) -> bag_walk p = Ok (live (a p)) /\ bag_count p = Zlen (live (a p)).
Proof.
  intros Hwf Hnd. split; [|apply Hwf]. pose proof (t_len _ _ (wf_table p Hwf)) as Hl.
  unfold bag_walk, bag_first. rewrite take_ge by lia.
  apply (walk_from_spec p (length (a p)) 0); try done; lia.
Qed.

(** An element can get into the bag twice: [bag_insert] stops at a deleted
    slot without looking further down the chain.  After inserting 1, 21 and 41
    (which share a chain) and removing 1, [bag_find] sees 21, yet inserting 21
    again reports an insert and counts it twice; removing it once leaves it in
    the bag, and the iteration over the bag never ends. *)
Lemma bag_insert_duplicates :
  exists p0 p1 p2 p3,
    foldl (fun p e => '(p, _) ← p; bag_insert p e) (Ok (bag_init, false)) [1; 21; 41] = Ok (p0, true) /\
    bag_remove p0 1 = Ok p1 /\ bag_find p1 21 = Ok true /\
    bag_insert p1 21 = Ok (p2, true) /\ live (a p2) = [21; 21; 41] /\ bag_count p2 = 3 /\
    bag_remove p2 21 = Ok p3 /\ bag_find p3 21 = Ok true /\
    forall fuel, walk_from fuel p2 (bag_first p2) = Fault OutOfFuel.
Proof.
  do 4 eexists. do 8 (split; [vm_compute; reflexivity|]).
  intros fuel. change (bag_first _) with 21.
  assert (forall p, bag_next p 21 = Ok 21 -> walk_from fuel p 21 = Fault OutOfFuel) as H.
  { intros p Hp. induction fuel as [|fuel IH]; [done|]. cbn [walk_from]. simpl. rewrite Hp, bind_Ok, IH. done. }
  apply H. vm_compute. reflexivity.
Qed.
