(* ===== verification/PQueue.v ===== *)
(** * The priority queue

    Models [src/src/ssfossil/fossil/src/pqueue.c]: an array of ids kept in
    ascending order of a [double] value.  A [double] is Rocq's specification
    float ([spec_float]) and [>] its IEEE comparison, false on NaN.  The array is
    the list of its slots; the slots [realloc] adds hold an arbitrary element
    [junk].  [realloc] is taken to succeed (the code does not test it). *)

From S2P Require Import Prelude.
From Stdlib Require Import Floats.SpecFloat Sorted.

(** ** The array and its operations *)

Record QueueElement := QE { id : Z; value : spec_float }.
Record PQueue := MkPQueue { pq_cnt : Z; pq_sz : Z; pq_a : list QueueElement }.

(** C's [x > y] on doubles. *)
Definition fgt (x y : spec_float) : bool := SFltb y x.

Definition pqueue_init : PQueue := MkPQueue 0 0 [].
Definition pqueue_clear (p : PQueue) : PQueue := pqueue_init.

Section Realloc.
Context (junk : QueueElement).

Definition pqueue_resize (p : PQueue) (N : Z) : PQueue :=
  MkPQueue (pq_cnt p) N
    (take (Z.to_nat N) (pq_a p) ++ replicate (Z.to_nat (N - Zlen (pq_a p))) junk).

(** [for(i=0; i<p->cnt; i++) if( p->a[i].value>v ) ... break;]: where the loop
    leaves [i]. *)
Fixpoint find_slot (fuel : nat) (t : list QueueElement) (cnt : Z) (v : spec_float) (i : Z) : result Z :=
  if i <? cnt then
    x ← rd t i;
    if fgt (value x) v then Ok i
    else match fuel with O => Fault OutOfFuel | S fuel => find_slot fuel t cnt v (i + 1) end
  else Ok i.

(** [for(j=p->cnt; j>i; j--) p->a[j] = p->a[j-1];] with [n = j - i]. *)
Fixpoint shift_up (n : nat) (t : list QueueElement) (i : Z) : result (list QueueElement) :=
  match n with
  | O => Ok t
  | S n => x ← rd t (i + Z.of_nat n); t ← wr t (i + Z.of_nat n + 1) x; shift_up n t i
  end.

Definition pqueue_insert (p : PQueue) (e : Z) (v : spec_float) : result PQueue :=
  n ← i32 (pq_cnt p + 1);
  p ← (if n >? pq_sz p then n ← i32 (pq_cnt p + 5); Ok (pqueue_resize p n) else Ok p);
  i ← find_slot (Z.to_nat (pq_cnt p)) (pq_a p) (pq_cnt p) v 0;
  t ← shift_up (Z.to_nat (pq_cnt p - i)) (pq_a p) i;
  t ← wr t i (QE e v);
  Ok (MkPQueue (pq_cnt p + 1) (pq_sz p) t).
End Realloc.

(** [for(i=0; i<p->cnt-1; i++) p->a[i] = p->a[i+1];] with [n] rounds left. *)
Fixpoint shift_down (n : nat) (t : list QueueElement) (i : Z) : result (list QueueElement) :=
  match n with
  | O => Ok t
  | S n => x ← rd t (i + 1); t ← wr t i x; shift_down n t (i + 1)
  end.

(** Returns the queue and the id, or 0. *)
Definition pqueue_extract (p : PQueue) : result (PQueue * Z) :=
  if pq_cnt p =? 0 then Ok (p, 0)
  else
    x ← rd (pq_a p) 0;
    t ← shift_down (Z.to_nat (pq_cnt p - 1)) (pq_a p) 0;
    Ok (MkPQueue (pq_cnt p - 1) (pq_sz p) t, id x).

(** ** The order on doubles that are not NaN *)

Definition fkey (f : spec_float) : Z * Z * Z :=
  match f with
  | S754_infinity s => (if s then -2 else 2, 0, 0)
  | S754_zero _ | S754_nan => (0, 0, 0)
  | S754_finite s m e => if s then (-1, - e, - Zpos m) else (1, e, Zpos m)
  end.
Definition klt (x y : Z * Z * Z) : Prop :=
  let '(x1, x2, x3) := x in let '(y1, y2, y3) := y in
  x1 < y1 \/ (x1 = y1 /\ (x2 < y2 \/ (x2 = y2 /\ x3 < y3))).
Definition number (f : spec_float) : Prop := f <> S754_nan.

Lemma fgt_key f g : number f -> number g -> fgt f g = true <-> klt (fkey g) (fkey f).
Proof.
  unfold number, fgt, SFltb, klt.
  destruct f as [sf|sf| |sf mf ef], g as [sg|sg| |sg mg eg]; intros Hf Hg; try done;
    destruct sf, sg; simpl; try (split; intros; done || lia);
    destruct (Z.compare_spec eg ef) as [E|E|E]; try (split; intros; done || lia);
    change (Pos.compare_cont Eq mg mf) with (Pos.compare mg mf);
    destruct (Pos.compare_spec mg mf) as [E'|E'|E']; simpl; split; intros; subst; done || lia.
Qed.

Lemma fgt_false_key f g : number f -> number g -> fgt f g = false <-> ~ klt (fkey g) (fkey f).
Proof. intros Hf Hg. rewrite <- (fgt_key f g Hf Hg), not_true_iff_false. done. Qed.

Lemma fgt_trans_le u v w :
  number u -> number v -> number w -> fgt u v = true -> fgt u w = false -> fgt w v = true.
Proof.
  intros Hu Hv Hw. rewrite (fgt_key u v), (fgt_false_key u w), (fgt_key w v) by done.
  unfold klt. destruct (fkey u) as [[? ?] ?], (fkey v) as [[? ?] ?], (fkey w) as [[? ?] ?]. lia.
Qed.

Lemma fgt_asym u v : number u -> number v -> fgt u v = true -> fgt v u = false.
Proof.
  intros Hu Hv. rewrite (fgt_key u v), (fgt_false_key v u) by done.
  unfold klt. destruct (fkey u) as [[? ?] ?], (fkey v) as [[? ?] ?]. lia.
Qed.

(** ** Invariant *)

Definition contents (p : PQueue) : list QueueElement := take (Z.to_nat (pq_cnt p)) (pq_a p).
Definition ascending (l : list QueueElement) : Prop :=
  StronglySorted (fun x y => fgt (value x) (value y) = false) l.

Record pq_wf (p : PQueue) : Prop := {
  pq_len : Zlen (pq_a p) = pq_sz p;
  pq_fits : 0 <= pq_cnt p <= pq_sz p;
  pq_numbers : Forall (fun x => number (value x)) (contents p);
  pq_sorted : ascending (contents p)
}.

(** ** The loops *)

Lemma find_slot_spec fuel t cnt v i :
  0 <= i <= cnt -> cnt <= Zlen t -> cnt - i <= Z.of_nat fuel ->
  exists k, find_slot fuel t cnt v i = Ok k /\ i <= k <= cnt /\
    (forall j x, i <= j < k -> t !! Z.to_nat j = Some x -> fgt (value x) v = false) /\
    (forall x, k < cnt -> t !! Z.to_nat k = Some x -> fgt (value x) v = true).
Proof.
  revert i. induction fuel as [|fuel IH]; intros i Hi Hc Hf; cbn [find_slot].
  - rewrite (proj2 (Z.ltb_ge i cnt)) by lia. exists i. split_and!; done || lia.
  - destruct (Z.ltb_spec i cnt) as [Hlt|Hge]; [|exists i; split_and!; done || lia].
    destruct (lookup_lt_is_Some_2 t (Z.to_nat i)) as [x Hx]; [lia|].
    rewrite (rd_ok t i x), bind_Ok by (done || lia).
    destruct (fgt (value x) v) eqn:E.
    + exists i. split_and!; try done || lia. intros y _ Hy. by simplify_eq.
    + destruct (IH (i + 1)) as (k & -> & Hk & Hb & He); [lia|lia|lia|].
      exists k. split_and!; try done || lia. intros j y Hj Hy.
      destruct (decide (i = j)) as [->|]; [by simplify_eq|apply (Hb j); [lia|done]].
Qed.

Lemma shift_up_spec n t i l1 l2 y l3 :
  t = l1 ++ l2 ++ y :: l3 -> i = Zlen l1 -> n = length l2 ->
  exists y', shift_up n t i = Ok (l1 ++ y' :: l2 ++ l3).
Proof.
  intros -> -> ->. revert y l3. induction l2 as [|x l2 IH] using rev_ind; intros y l3; simpl.
  { by exists y. }
  rewrite length_app. simpl. rewrite Nat.add_1_r. cbn [shift_up].
  rewrite (rd_ok _ _ x).
  - rewrite bind_Ok, wr_ok by (rewrite !length_app; simpl; lia). rewrite bind_Ok.
    replace (<[_ := x]> _) with (l1 ++ l2 ++ x :: (x :: l3)).
    + destruct (IH x (x :: l3)) as [y' ->]. exists y'. by rewrite <- !app_assoc.
    + replace (Z.to_nat (Zlen l1 + Z.of_nat (length l2) + 1)) with (length l1 + S (length l2))%nat by lia.
      rewrite insert_app_r, <- app_assoc. f_equal.
      replace (S (length l2)) with (length l2 + 1)%nat by lia. by rewrite insert_app_r.
  - lia.
  - rewrite lookup_app_r, <- app_assoc, lookup_app_r by lia.
    replace (_ - _ - _)%nat with 0%nat by lia. done.
Qed.

Lemma shift_down_spec n t i l1 x l2 l3 :
  t = l1 ++ x :: l2 ++ l3 -> i = Zlen l1 -> n = length l2 ->
  exists y, shift_down n t i = Ok (l1 ++ l2 ++ y :: l3).
Proof.
  intros -> -> ->. revert l1 x. induction l2 as [|z l2 IH]; intros l1 x; cbn [length shift_down].
  { by exists x. }
  rewrite (rd_ok _ _ z), bind_Ok.
  - rewrite wr_ok, bind_Ok by (rewrite !length_app; simpl; lia).
    replace (<[_ := z]> _) with ((l1 ++ [z]) ++ z :: l2 ++ l3).
    + replace (Zlen l1 + 1) with (Zlen (l1 ++ [z])) by (rewrite length_app; simpl; lia).
      destruct (IH (l1 ++ [z]) z) as [y ->]. exists y. by rewrite <- app_assoc.
    + rewrite insert_app_r_alt, <- app_assoc by lia.
      by replace (_ - _)%nat with 0%nat by lia.
  - lia.
  - rewrite lookup_app_r by lia. by replace (_ - _)%nat with 1%nat by lia.
Qed.

(** ** Claims *)

(** The array before an insertion: room for one more element. *)
Lemma insert_grow junk p :
  pq_wf p -> pq_cnt p + 5 <= INT_MAX ->
  exists p1 y l3, (n ← i32 (pq_cnt p + 1);
      if n >? pq_sz p then n ← i32 (pq_cnt p + 5); Ok (pqueue_resize junk p n) else Ok p) = Ok p1 /\
    pq_cnt p1 = pq_cnt p /\ Zlen (pq_a p1) = pq_sz p1 /\ pq_a p1 = contents p ++ y :: l3.
Proof.
  intros [Hl Hf _ _] Hmax. rewrite (i32_ok (pq_cnt p + 1)), bind_Ok by (unfold INT_MIN; lia). cbv beta.
  rewrite Z.gtb_ltb.
  destruct (Z.ltb_spec (pq_sz p) (pq_cnt p + 1)).
  - rewrite i32_ok, bind_Ok by (unfold INT_MIN; lia). eexists _, junk, (replicate 4 junk).
    split_and!; [done|done| |].
    + simpl. rewrite length_app, length_take, length_replicate. lia.
    + unfold contents. simpl. rewrite !take_ge by lia.
      by replace (Z.to_nat _) with 5%nat by lia.
  - destruct (drop (Z.to_nat (pq_cnt p)) (pq_a p)) as [|y l3] eqn:E.
    { apply (f_equal length) in E. rewrite length_drop in E. simpl in E. lia. }
    exists p, y, l3. split_and!; try done. unfold contents. by rewrite <- E, take_drop.
Qed.

Lemma ascending_app_r l1 l2 : ascending (l1 ++ l2) -> ascending l2.
Proof. induction l1 as [|x l1 IH]; [done|]. intros [H _]%StronglySorted_inv. by apply IH. Qed.

Lemma ascending_split l k v :
  Forall (fun x => number (value x)) l -> number v -> ascending l ->
  (forall x, l !! k = Some x -> fgt (value x) v = true) ->
  Forall (fun x => fgt (value x) v = true) (drop k l).
Proof.
  intros Hn Hv Hs Hk. destruct (drop k l) as [|x l2] eqn:E; [done|].
  assert (l !! k = Some x) as Hx by (rewrite <- (Nat.add_0_r k), <- lookup_drop, E; done).
  pose proof (Hk x Hx) as Hgt. rewrite <- (take_drop k l), E in Hs, Hn.
  apply Forall_app in Hn as [_ [Hnx Hn2]%Forall_cons_1].
  constructor; [done|]. apply ascending_app_r, StronglySorted_inv in Hs as [_ Hall].
  apply Forall_forall. intros y Hy. rewrite Forall_forall in Hall, Hn2.
  apply (fgt_trans_le (value x)); auto.
Qed.

Lemma ascending_insert l1 l2 x :
  Forall (fun y => number (value y)) (l1 ++ l2) -> number (value x) -> ascending (l1 ++ l2) ->
  Forall (fun y => fgt (value y) (value x) = false) l1 ->
  Forall (fun y => fgt (value y) (value x) = true) l2 -> ascending (l1 ++ x :: l2).
Proof.
  intros Hn Hx Hs H1 H2. induction l1 as [|y l1 IH]; simpl in *.
  - constructor; [done|]. apply Forall_forall. intros y Hy. rewrite Forall_forall in H2, Hn.
    apply fgt_asym; auto.
  - apply Forall_cons_1 in Hn as [Hy Hn], H1 as [Hyx H1]. apply StronglySorted_inv in Hs as [Hs Hall].
    constructor; [by apply IH|]. apply Forall_app in Hall as [Ha1 Ha2].
    apply Forall_app. split; [done|]. by constructor.
Qed.

(** Inserting into a queue in ascending order never leaves the array and
    puts the new element after every element whose value is not greater and
    before every element whose value is greater; nothing else moves, so the
    queue stays in ascending order and elements of equal value keep their order
    of insertion. *)
Lemma pqueue_insert_spec junk p e v :
  pq_wf p -> number v -> pq_cnt p + 5 <= INT_MAX ->
  exists p' l1 l2, pqueue_insert junk p e v = Ok p' /\ pq_wf p' /\
    contents p = l1 ++ l2 /\ contents p' = l1 ++ QE e v :: l2 /\
    Forall (fun x => fgt (value x) v = false) l1 /\ Forall (fun x => fgt (value x) v = true) l2.
Proof.
  intros Hwf Hv Hmax. pose proof Hwf as [Hl Hf Hn Hs].
  assert (Zlen (contents p) = pq_cnt p) as Hlen by (unfold contents; rewrite length_take; lia).
  destruct (insert_grow junk p Hwf Hmax) as (p1 & y & l3 & Hp1 & Hc & Hl1 & Ha).
  unfold pqueue_insert. apply bind_Ok_inv in Hp1 as (n & -> & Hp1). rewrite bind_Ok, Hp1, bind_Ok, Hc.
  destruct (find_slot_spec (Z.to_nat (pq_cnt p)) (pq_a p1) (pq_cnt p) v 0)
    as (k & -> & Hk & Hb & He); [lia|rewrite Ha, length_app; lia|lia|]. rewrite bind_Ok.
  set (l1 := take (Z.to_nat k) (contents p)). set (l2 := drop (Z.to_nat k) (contents p)).
  assert (contents p = l1 ++ l2) as Hsplit by (symmetry; apply take_drop).
  assert (Zlen l1 = k) as Hlk by (unfold l1; rewrite length_take; lia).
  assert (forall j x, 0 <= j -> contents p !! Z.to_nat j = Some x -> pq_a p1 !! Z.to_nat j = Some x) as Hlk1.
  { intros j x _ Hx. rewrite Ha. by apply lookup_app_l_Some. }
  assert (Forall (fun x => fgt (value x) v = false) l1) as Hle.
  { apply Forall_lookup. intros i x Hx. unfold l1 in Hx. apply lookup_take_Some in Hx as [Hx Hi].
    apply (Hb (Z.of_nat i) x); [lia|]. apply Hlk1; [lia|]. by rewrite Nat2Z.id. }
  assert (Forall (fun x => fgt (value x) v = true) l2) as Hgt.
  { apply ascending_split; try done. intros x Hx. apply He; [|by apply Hlk1; [lia|]].
    apply lookup_lt_Some in Hx. lia. }
  destruct (shift_up_spec (Z.to_nat (pq_cnt p - k)) (pq_a p1) k l1 l2 y l3) as [y' ->].
  { by rewrite Ha, Hsplit, <- app_assoc. } { done. } { rewrite Hsplit, length_app in Hlen. lia. }
  assert (length (l1 ++ y' :: l2 ++ l3) = length (pq_a p1)) as Hll
    by (rewrite Ha, Hsplit, !length_app; simpl; rewrite length_app; lia).
  rewrite bind_Ok, wr_ok, bind_Ok by (rewrite length_app; simpl; lia).
  replace (Z.to_nat k) with (length l1 + 0)%nat by lia. rewrite insert_app_r. simpl.
  set (p' := MkPQueue _ _ _). assert (contents p' = l1 ++ QE e v :: l2) as Hcon.
  { unfold contents, p'. cbn [pq_cnt pq_a]. change (l1 ++ QE e v :: l2 ++ l3) with (l1 ++ (QE e v :: l2) ++ l3).
    rewrite app_assoc. apply take_app_length'. rewrite length_app. simpl.
    rewrite Hsplit, length_app in Hlen. lia. }
  exists p', l1, l2. split_and!; try done. split.
  - simpl. rewrite <- Hl1, <- Hll, !length_app. done.
  - simpl. rewrite <- Hl1, Ha, length_app. simpl. lia.
  - rewrite Hcon. rewrite Hsplit in Hn. apply Forall_app in Hn as [? ?]. apply Forall_app. split; [done|].
    by constructor.
  - rewrite Hcon. apply ascending_insert; try done; by rewrite <- Hsplit.
Qed.

(** [pqueue_extract] returns 0 and changes nothing on an empty queue;
    otherwise it returns the id of the first element, whose value is not greater
    than any other, and leaves exactly the rest, in order. *)
Lemma pqueue_extract_spec p :
  pq_wf p ->
  match contents p with
  | [] => pqueue_extract p = Ok (p, 0)
  | x :: l => exists p', pqueue_extract p = Ok (p', id x) /\ contents p' = l /\ pq_wf p' /\
      Forall (fun y => fgt (value x) (value y) = false) l
  end.
Proof.
  intros [Hl Hf Hn Hs]. unfold pqueue_extract.
  assert (Zlen (contents p) = pq_cnt p) as Hlen by (unfold contents; rewrite length_take; lia).
  destruct (contents p) as [|x l] eqn:E; [simpl in Hlen; by rewrite <- Hlen|].
  simpl in Hlen. rewrite (proj2 (Z.eqb_neq _ 0)) by lia.
  assert (pq_a p = [] ++ x :: l ++ drop (Z.to_nat (pq_cnt p)) (pq_a p)) as Ha.
  { simpl. rewrite app_comm_cons, <- E. unfold contents. by rewrite take_drop. }
  rewrite (rd_ok _ 0 x), bind_Ok by (lia || by rewrite Ha).
  destruct (shift_down_spec (Z.to_nat (pq_cnt p - 1)) (pq_a p) 0 [] x l _ Ha) as [y ->]; [done|lia|].
  rewrite bind_Ok. apply StronglySorted_inv in Hs as [Hs Hall]. apply Forall_cons_1 in Hn as [_ Hn].
  set (p' := MkPQueue _ _ _). assert (contents p' = l) as Hc
    by (unfold contents, p'; simpl; apply take_app_length'; lia).
  exists p'. split_and!; try done. split; rewrite ?Hc; try done.
  - simpl. rewrite <- Hl. apply (f_equal length) in Ha. simpl in Ha. rewrite length_app in Ha |- *. simpl. lia.
  - simpl. lia.
Qed.
