(* ===== verification/Encode.v ===== *)
(** * Encodings

    Models [src/src/ssfossil/fossil/src/encode.c]: the HTML, HTTP, fossilize,
    base-64 and base-16 encodings of the repository's text and ids.

    Bytes are the integers 0 to 255; [schar] gives the value a plain [char] has
    where the code computes with it.  Output written to a block obtained from
    [malloc] goes through [push], which faults when the block is full; the sizes
    are computed in [int] ([i32]).  The in-place decoders work on the whole
    buffer with their two indices.  [malloc] is taken to succeed. *)

From S2P Require Import Prelude.

(** ** Output blocks *)

(** [zOut[i++] = x] in a block of [cap] bytes of which [out] is filled. *)
Definition push (cap : Z) (out : list Z) (x : Z) : result (list Z) :=
  if Zlen out <? cap then Ok (out ++ [x]) else Fault OutOfBounds.

Fixpoint pushes (cap : Z) (out : list Z) (l : list Z) : result (list Z) :=
  match l with
  | [] => Ok out
  | x :: l => out ← push cap out x; pushes cap out l
  end.

(** The text of a terminated block: [zOut[i] = 0; return zOut]. *)
Definition finish (cap : Z) (out : list Z) : result (list Z) :=
  _ ← check (Zlen out <? cap) OutOfBounds; Ok out.

(** [strlen]; the text ends at its first NUL or at the end of the list. *)
Fixpoint strlen (z : list Z) : Z :=
  match z with [] => 0 | c :: z => if c =? 0 then 0 else 1 + strlen z end.

(** ** HTML *)

Definition html_width (c : Z) : Z :=
  if c =? 60 then 4 else if c =? 62 then 4 else if c =? 38 then 5 else if c =? 34 then 6 else 1.

Definition html_char (c : Z) : list Z :=
  if c =? 60 then [38; 108; 116; 59]                    (* &lt; *)
  else if c =? 62 then [38; 103; 116; 59]               (* &gt; *)
  else if c =? 38 then [38; 97; 109; 112; 59]           (* &amp; *)
  else if c =? 34 then [38; 113; 117; 111; 116; 59]     (* &quot; *)
  else [c].

(** [while( i<n && (c = zIn[i])!=0 )] *)
Fixpoint html_count (n : nat) (z : list Z) (count : Z) : result Z :=
  match n, z with
  | S n, c :: z =>
      if c =? 0 then Ok count else count ← i32 (count + html_width c); html_count n z count
  | _, _ => Ok count
  end.

Fixpoint html_loop (cap : Z) (n : nat) (z : list Z) (out : list Z) : result (list Z) :=
  match n, z with
  | S n, c :: z =>
      if c =? 0 then Ok out else out ← pushes cap out (html_char c); html_loop cap n z out
  | _, _ => Ok out
  end.

Definition htmlize (zIn : list Z) (n : Z) : result (list Z) :=
  let n := if n <? 0 then strlen zIn else n in
  count ← html_count (Z.to_nat n) zIn 0;
  cap ← i32 (count + 1);
  out ← html_loop cap (Z.to_nat n) zIn [];
  finish cap out.

(** ** HTTP *)

(** [isalnum] in the C locale. *)
Definition isalnum (c : Z) : bool :=
  ((48 <=? c) && (c <=? 57)) || ((65 <=? c) && (c <=? 90)) || ((97 <=? c) && (c <=? 122)).

Definition IsSafeChar (other c : Z) : bool :=
  isalnum c || (c =? 46) || (c =? 36) || (c =? 126) || (c =? 45) || (c =? 95) || (c =? other).

Definition HEX : list Z := cstr "0123456789ABCDEF"%string.

Fixpoint http_count (other : Z) (n : nat) (z : list Z) (count : Z) : result Z :=
  match n, z with
  | S n, c :: z =>
      if c =? 0 then Ok count
      else
        count ← i32 (count + (if IsSafeChar other (schar c) || (schar c =? 32) then 1 else 3));
        http_count other n z count
  | _, _ => Ok count
  end.

Definition http_char (other c : Z) : list Z :=
  if IsSafeChar other (schar c) then [c]
  else if schar c =? 32 then [43]
  else [37; cget HEX (Z.land (Z.shiftr (schar c) 4) 15); cget HEX (Z.land (schar c) 15)].

Fixpoint http_loop (cap other : Z) (n : nat) (z : list Z) (out : list Z) : result (list Z) :=
  match n, z with
  | S n, c :: z =>
      if c =? 0 then Ok out
      else out ← pushes cap out (http_char other c); http_loop cap other n z out
  | _, _ => Ok out
  end.

Definition EncodeHttp (zIn : option (list Z)) (n : Z) (encodeSlash : bool) :
    result (option (list Z)) :=
  match zIn with
  | None => Ok None
  | Some zIn =>
      let n := if n <? 0 then strlen zIn else n in
      let other := if encodeSlash then 97 else 47 in
      count ← http_count other (Z.to_nat n) zIn 0;
      cap ← i32 (count + 1);
      out ← http_loop cap other (Z.to_nat n) zIn [];
      out ← finish cap out;
      Ok (Some out)
  end.

Definition httpize (z : option (list Z)) (n : Z) : result (option (list Z)) := EncodeHttp z n true.
Definition urlize (z : option (list Z)) (n : Z) : result (option (list Z)) := EncodeHttp z n false.

Definition AsciiToHex (c : Z) : Z :=
  if (97 <=? c) && (c <=? 102) then c + (10 - 97)
  else if (65 <=? c) && (c <=? 70) then c + (10 - 65)
  else if (48 <=? c) && (c <=? 57) then c - 48
  else 0.

(** One pass of the loop of [dehttpize]: the buffer and [i] before [i++]. *)
Definition dehttp_step (z : list Z) (i j c : Z) : result (list Z * Z) :=
  if c =? 37 then
    c1 ← rd z (i + 1);
    if c1 =? 0 then Ok (z, i) else
    c2 ← rd z (i + 2);
    if c2 =? 0 then Ok (z, i) else
    z ← wr z j (u8 (Z.shiftl (AsciiToHex (schar c1)) 4));
    x ← rd z j;
    c2 ← rd z (i + 2);
    z ← wr z j (u8 (Z.lor x (AsciiToHex (schar c2))));
    Ok (z, i + 2)
  else if c =? 43 then z ← wr z j 32; Ok (z, i)
  else z ← wr z j c; Ok (z, i).

Fixpoint dehttp_loop (fuel : nat) (z : list Z) (i j : Z) : result (list Z * Z) :=
  c ← rd z i;
  if c =? 0 then z ← wr z j 0; Ok (z, j)
  else match fuel with
       | O => Fault OutOfFuel
       | S fuel => '(z, i) ← dehttp_step z i j c; dehttp_loop fuel z (i + 1) (j + 1)
       end.

(** The buffer and the returned length. *)
Definition dehttpize (z : option (list Z)) : result (option (list Z) * Z) :=
  match z with
  | None => Ok (None, 0)
  | Some z => '(z, j) ← dehttp_loop (length z) z 0 0; Ok (Some z, j)
  end.

(** ** Fossilize *)

(** [isspace] in the C locale. *)
Definition isspace (c : Z) : bool := (c =? 32) || ((9 <=? c) && (c <=? 13)).

Definition fossil_special (c : Z) : bool :=
  (c =? 0) || (c =? 32) || (c =? 10) || (c =? 9) || (c =? 13) || (c =? 12) || (c =? 11) || (c =? 92).

Definition fossil_char (c : Z) : list Z :=
  if c =? 0 then [92; 48]
  else if c =? 92 then [92; 92]
  else if isspace (schar c) then
    [92; if c =? 10 then 110 else if c =? 32 then 115 else if c =? 9 then 116
         else if c =? 13 then 114 else if c =? 11 then 118 else if c =? 12 then 102 else c]
  else [c].

Fixpoint fossil_count (z : list Z) (n : Z) : result Z :=
  match z with
  | [] => Ok n
  | c :: z => if fossil_special c then n ← i32 (n + 1); fossil_count z n else fossil_count z n
  end.

Fixpoint fossil_loop (cap : Z) (z : list Z) (out : list Z) : result (list Z) :=
  match z with
  | [] => Ok out
  | c :: z => out ← pushes cap out (fossil_char c); fossil_loop cap z out
  end.

(** The bytes of a block that a positive length, or [strlen], selects. *)
Definition input_bytes (z : list Z) (n : Z) (by_strlen : bool) : result (list Z) :=
  let n := if by_strlen then strlen z else n in
  _ ← check (n <=? Zlen z) OutOfBounds; Ok (take (Z.to_nat n) z).

Definition fossilize (zIn : list Z) (nIn : Z) : result (list Z) :=
  z ← input_bytes zIn nIn (nIn <? 0);
  n ← fossil_count z 0;
  n ← i32 (n + Zlen z);
  cap ← i32 (n + 1);
  out ← fossil_loop cap z [];
  finish cap out.

Definition unescape (c : Z) : Z :=
  if c =? 110 then 10 else if c =? 115 then 32 else if c =? 116 then 9 else if c =? 114 then 13
  else if c =? 118 then 11 else if c =? 102 then 12 else if c =? 48 then 0 else if c =? 92 then 92
  else c.

(** The value stored and [i] before [i++]. *)
Definition defossil_step (z : list Z) (i c : Z) : result (Z * Z) :=
  if c =? 92 then
    c1 ← rd z (i + 1);
    if c1 =? 0 then Ok (c, i) else Ok (unescape c1, i + 1)
  else Ok (c, i).

Fixpoint defossil_loop (fuel : nat) (z : list Z) (i j : Z) : result (list Z) :=
  c ← rd z i;
  if c =? 0 then
    x ← rd z j;
    if negb (x =? 0) then wr z j 0 else Ok z
  else match fuel with
       | O => Fault OutOfFuel
       | S fuel =>
           '(c, i) ← defossil_step z i c;
           z ← wr z j c;
           defossil_loop fuel z (i + 1) (j + 1)
       end.

Definition defossilize (z : list Z) : result (list Z) := defossil_loop (length z) z 0 0.

(** ** Base 64 *)

Definition zBase : list Z :=
  cstr "ABCDEFGHIJKLMNOPQRSTUVWXYZabcdefghijklmnopqrstuvwxyz0123456789+/"%string.

(** The four digits of a group of bytes, of which the last may be missing (0). *)
Definition digit1 (x : Z) : Z := cget zBase (Z.land (Z.shiftr (schar x) 2) 63).
Definition digit2 (x y : Z) : Z :=
  cget zBase (Z.lor (Z.land (Z.shiftl (schar x) 4) 48) (Z.land (Z.shiftr (schar y) 4) 15)).
Definition digit3 (y w : Z) : Z :=
  cget zBase (Z.lor (Z.land (Z.shiftl (schar y) 2) 60) (Z.land (Z.shiftr (schar w) 6) 3)).
Definition digit4 (w : Z) : Z := cget zBase (Z.land (schar w) 63).

Fixpoint encode64_loop (cap : Z) (z : list Z) (out : list Z) : result (list Z) :=
  match z with
  | x :: y :: w :: z =>
      out ← pushes cap out [digit1 x; digit2 x y; digit3 y w; digit4 w];
      encode64_loop cap z out
  | [x; y] =>
      pushes cap out [digit1 x; digit2 x y; cget zBase (Z.land (Z.shiftl (schar y) 2) 60); 61]
  | [x] => pushes cap out [digit1 x; cget zBase (Z.land (Z.shiftl (schar x) 4) 48); 61; 61]
  | [] => Ok out
  end.

Definition encode64 (zData : list Z) (nData : Z) : result (list Z) :=
  z ← input_bytes zData nData (nData <=? 0);
  n4 ← i32 (Zlen z * 4);
  let cap := n4 / 3 + 8 in
  out ← encode64_loop cap z [];
  finish cap out.

(** The table [trans], built from [zBase]. *)
Definition trans : list Z :=
  foldl (fun t i => <[Z.to_nat (Z.land (cget zBase i) 127) := i]> t) (replicate 128 0) (seqZ 0 64).

Definition trans64 (c : Z) : Z := cget trans (Z.land (schar c) 127).

Definition byte1 (a b : Z) : Z := Z.lor (Z.land (Z.shiftl a 2) 252) (Z.land (Z.shiftr b 4) 3).
Definition byte2 (b c : Z) : Z := Z.lor (Z.land (Z.shiftl b 4) 240) (Z.land (Z.shiftr c 2) 15).
Definition byte3 (c d : Z) : Z := Z.lor (Z.land (Z.shiftl c 6) 192) (Z.land d 63).

Fixpoint decode64_loop (cap : Z) (z : list Z) (out : list Z) : result (list Z) :=
  match z with
  | a :: b :: c :: d :: z =>
      let a := trans64 a in let b := trans64 b in let c := trans64 c in let d := trans64 d in
      out ← pushes cap out [byte1 a b; byte2 b c; byte3 c d];
      decode64_loop cap z out
  | [a; b; c] =>
      let a := trans64 a in let b := trans64 b in let c := trans64 c in
      pushes cap out [byte1 a b; byte2 b c]
  | [a; b] => let a := trans64 a in let b := trans64 b in pushes cap out [byte1 a b]
  | _ => Ok out
  end.

(** [while( n64>0 && z64[n64-1]=='=' ) n64--;] on the reversed text. *)
Fixpoint skip_eq (z : list Z) : list Z :=
  match z with [] => [] | c :: z' => if c =? 61 then skip_eq z' else z end.

(** The decoded bytes; their number is [*pnByte]. *)
Definition decode64 (z64 : list Z) : result (list Z) :=
  let z := rev (skip_eq (rev (take (Z.to_nat (strlen z64)) z64))) in
  n3 ← i32 (Zlen z * 3);
  let cap := n3 / 4 + 4 in
  out ← decode64_loop cap z [];
  finish cap out.

(** ** Base 16 *)

Definition zEncode : list Z := cstr "0123456789abcdef"%string.

(** The [2 N] digits written to [zOut]; the return value is always 0. *)
Definition encode16 (pIn : list Z) : list Z :=
  concat ((fun x => [cget zEncode (Z.shiftr x 4); cget zEncode (Z.land x 15)]) <$> pIn).

Definition zDecode : list Z :=
  replicate 48 64 ++
  [0; 1; 2; 3; 4; 5; 6; 7; 8; 9; 64; 64; 64; 64; 64; 64;
   64; 10; 11; 12; 13; 14; 15; 64; 64; 1; 64; 64; 1; 64; 64; 0] ++
  replicate 16 64 ++
  [64; 10; 11; 12; 13; 14; 15; 64; 64; 1; 64; 64; 1; 64; 64; 0] ++
  replicate 144 64.

(** The bytes stored at [pOut] and the return value. *)
Fixpoint decode16_loop (z : list Z) (out : list Z) : list Z * Z :=
  match z with
  | a1 :: a2 :: z =>
      if negb (Z.land a1 128 =? 0) || (cget zDecode a1 =? 64) then (out, 1)
      else if negb (Z.land a2 128 =? 0) || (cget zDecode a2 =? 64) then (out, 1)
      else decode16_loop z (out ++ [u8 (Z.shiftl (cget zDecode a1) 4 + cget zDecode a2)])
  | _ => (out, 0)
  end.

Definition decode16 (zIn : list Z) : list Z * Z :=
  if negb (Z.land (Zlen zIn) 1 =? 0) then ([], 1) else decode16_loop zIn [].

Fixpoint validate16 (zIn : list Z) (nIn : nat) : bool :=
  match nIn, zIn with
  | S n, c :: z => if cget zDecode (Z.land (schar c) 255) >? 63 then c =? 0 else validate16 z n
  | S _, [] => true
  | O, _ => true
  end.

Fixpoint canonical16 (z : list Z) (n : Z) : list Z :=
  match z with
  | [] => []
  | c :: z' =>
      if (c =? 0) || (n =? 0) then z
      else cget zEncode (Z.land (cget zDecode (Z.land (schar c) 127)) 31) :: canonical16 z' (n - 1)
  end.
