(* ===== verification/EncodeSpec.v ===== *)
(** * Encodings: round trips and buffer bounds

    Every encoder stays within the block whose size it computes, and every
    decoder restores what its encoder was given. *)

From S2P Require Import Prelude Encode.

(** ** Output blocks *)

Lemma pushes_ok cap out l : Zlen out + Zlen l <= cap -> pushes cap out l = Ok (out ++ l).
Proof.
  revert out. induction l as [|x l IH]; intros out H; cbn [pushes]; [by rewrite app_nil_r|].
  simpl in H. unfold push. rewrite (proj2 (Z.ltb_lt _ cap)), bind_Ok by lia.
  rewrite IH by (rewrite length_app; simpl; lia). by rewrite <- app_assoc.
Qed.

Lemma finish_ok cap out : Zlen out < cap -> finish cap out = Ok out.
Proof. intros H. unfold finish. by rewrite check_true by (by apply Z.ltb_lt). Qed.

(** The text that [n] and the first NUL delimit. *)
Fixpoint ctext (n : nat) (z : list Z) : list Z :=
  match n, z with
  | S n, c :: z => if c =? 0 then [] else c :: ctext n z
  | _, _ => []
  end.

Lemma ctext_length n z : Zlen (ctext n z) <= Zlen z.
Proof. revert z. induction n; intros [|c z]; simpl; try lia. destruct (c =? 0); simpl; [lia|]. specialize (IHn z). lia. Qed.

Lemma strlen_no_nul z : Forall (fun c => c <> 0) z -> strlen z = Zlen z.
Proof. induction 1 as [|c z Hc _ IH]; [done|]. simpl. rewrite (proj2 (Z.eqb_neq c 0)), IH by done. lia. Qed.

Lemma ctext_no_nul z : Forall (fun c => c <> 0) z -> ctext (length z) z = z.
Proof. induction 1 as [|c z Hc _ IH]; [done|]. simpl. by rewrite (proj2 (Z.eqb_neq c 0)), IH. Qed.

Lemma byte_cases (f : Z -> bool) : forallb f (seqZ 0 256) = true -> forall c, byte c -> f c = true.
Proof. intros H c Hc. by apply (range_forallb 256). Qed.

Lemma concat_cons {A B} (f : A -> list B) x l : concat (f <$> x :: l) = f x ++ concat (f <$> l).
Proof. done. Qed.

(** ** HTML *)

Lemma html_width_char c : Zlen (html_char c) = html_width c.
Proof. unfold html_char, html_width. repeat (destruct (_ =? _); [done|]). done. Qed.

Lemma html_width_bound c : 1 <= html_width c <= 6.
Proof. unfold html_width. repeat (destruct (_ =? _); [lia|]). lia. Qed.

Lemma html_count_spec n z count :
  0 <= count -> count + Zlen (concat (html_char <$> ctext n z)) <= INT_MAX ->
  html_count n z count = Ok (count + Zlen (concat (html_char <$> ctext n z))).
Proof.
  revert z count. induction n as [|n IH]; intros [|c z] count H0 Hb; simpl;
    try (f_equal; lia). simpl in Hb. destruct (c =? 0); [f_equal; simpl; lia|].
  rewrite concat_cons, length_app, Nat2Z.inj_add, html_width_char in *.
  pose proof (html_width_bound c). unfold INT_MAX in *.
  rewrite i32_ok by (unfold INT_MIN, INT_MAX; lia). rewrite bind_Ok, IH; [f_equal; lia|lia|lia].
Qed.

Lemma html_loop_spec cap n z out :
  Zlen out + Zlen (concat (html_char <$> ctext n z)) <= cap ->
  html_loop cap n z out = Ok (out ++ concat (html_char <$> ctext n z)).
Proof.
  revert z out. induction n as [|n IH]; intros [|c z] out Hb; simpl; try (by rewrite app_nil_r).
  simpl in Hb. destruct (c =? 0); [by rewrite app_nil_r|].
  rewrite concat_cons, length_app in Hb. rewrite pushes_ok, bind_Ok by lia.
  rewrite IH by (rewrite length_app; lia). by rewrite concat_cons, <- app_assoc.
Qed.

(** ** HTTP *)

Section Http.
Context (other : Z) (Hother : other = 97 \/ other = 47).

(** What [dehttpize] makes of the one or three characters of a byte. *)
Definition http_decodes (c : Z) (h : list Z) : bool :=
  match h with
  | [x] => negb (x =? 0) && negb (x =? 37) && (if x =? 43 then c =? 32 else x =? c)
  | [x; h1; h2] =>
      (x =? 37) && negb (h1 =? 0) && negb (h2 =? 0) &&
      (u8 (Z.lor (u8 (Z.shiftl (AsciiToHex (schar h1)) 4)) (AsciiToHex (schar h2))) =? c)
  | _ => false
  end.

Lemma http_char_decodes c : byte c -> c <> 0 -> http_decodes c (http_char other c) = true.
Proof.
  intros Hc H0.
  assert ((c =? 0) || http_decodes c (http_char other c) = true) as H.
  { revert c Hc H0. cut (forall c, byte c -> (c =? 0) || http_decodes c (http_char other c) = true); [auto|].
    apply byte_cases. destruct Hother as [-> | ->]; vm_compute; reflexivity. }
  by rewrite (proj2 (Z.eqb_neq c 0)) in H.
Qed.

Lemma http_width c :
  Zlen (http_char other c) = if IsSafeChar other (schar c) || (schar c =? 32) then 1 else 3.
Proof. unfold http_char. destruct (IsSafeChar _ _); [done|]. by destruct (_ =? 32). Qed.

Lemma http_count_spec n z count :
  0 <= count -> count + Zlen (concat (http_char other <$> ctext n z)) <= INT_MAX ->
  http_count other n z count = Ok (count + Zlen (concat (http_char other <$> ctext n z))).
Proof.
  revert z count. induction n as [|n IH]; intros [|c z] count H0 Hb; simpl;
    try (f_equal; lia). simpl in Hb. destruct (c =? 0); [f_equal; simpl; lia|].
  rewrite concat_cons, length_app, Nat2Z.inj_add, http_width in *.
  unfold INT_MAX in *. destruct (_ || _);
    (rewrite i32_ok by (unfold INT_MIN, INT_MAX; lia)); rewrite bind_Ok, IH; try lia; f_equal; lia.
Qed.

Lemma http_loop_spec cap n z out :
  Zlen out + Zlen (concat (http_char other <$> ctext n z)) <= cap ->
  http_loop cap other n z out = Ok (out ++ concat (http_char other <$> ctext n z)).
Proof.
  revert z out. induction n as [|n IH]; intros [|c z] out Hb; simpl; try (by rewrite app_nil_r).
  simpl in Hb. destruct (c =? 0); [by rewrite app_nil_r|].
  rewrite concat_cons, length_app in Hb. rewrite pushes_ok, bind_Ok by lia.
  rewrite IH by (rewrite length_app; lia). by rewrite concat_cons, <- app_assoc.
Qed.

Lemma http_length z : Zlen (concat (http_char other <$> z)) <= 3 * Zlen z.
Proof.
  induction z as [|c z IH]; [done|]. rewrite concat_cons, length_app.
  pose proof (http_width c). cbn [length]. destruct (_ || _); lia.
Qed.
End Http.

(** ** Decoding in place *)

Lemma rd_at {A} (l1 : list A) x l2 i : i = Zlen l1 -> rd (l1 ++ x :: l2) i = Ok x.
Proof. intros ->. apply rd_ok; [lia|]. rewrite Nat2Z.id. apply list_lookup_middle. done. Qed.

Lemma wr_at {A} (l1 : list A) y l2 i x : i = Zlen l1 -> wr (l1 ++ y :: l2) i x = Ok (l1 ++ x :: l2).
Proof.
  intros ->. rewrite wr_ok by (rewrite length_app; simpl; lia). rewrite Nat2Z.id.
  by rewrite <- (Nat.add_0_r (length l1)), insert_app_r.
Qed.

Lemma rd_nth {A} (l l1 : list A) x l2 i : l = l1 ++ x :: l2 -> i = Zlen l1 -> rd l i = Ok x.
Proof. intros -> Hi. by apply rd_at. Qed.

(** Where an element is in a concatenation. *)
Ltac list_at :=
  first [ done | by rewrite <- ?app_assoc | rewrite ?length_app; simpl; rewrite ?length_app; simpl; lia ].

(** The write index never passes the read index: a decoder that consumed [h]
    and stores [x] leaves the rest of the text as it was. *)
Lemma wr_behind (out mid h tail : list Z) j x :
  j = Zlen out -> h <> [] ->
  exists mid', wr (out ++ mid ++ h ++ tail) j x = Ok ((out ++ [x]) ++ mid' ++ tail) /\
    Zlen mid' + 1 = Zlen mid + Zlen h.
Proof.
  intros -> Hh. destruct (mid ++ h) as [|y mid'] eqn:E.
  { apply app_eq_nil in E as [_ ?]. done. }
  exists mid'. rewrite (app_assoc mid), E. simpl. rewrite wr_at by done. rewrite <- app_assoc. split; [done|].
  apply (f_equal length) in E. rewrite length_app in E. simpl in E. lia.
Qed.

Section Dehttp.
Context (other : Z) (Hother : other = 97 \/ other = 47).

Lemma dehttp_step_spec out mid c tail :
  byte c -> c <> 0 ->
  exists c0 mid', rd (out ++ mid ++ http_char other c ++ tail) (Zlen out + Zlen mid) = Ok c0 /\ c0 <> 0 /\
    dehttp_step (out ++ mid ++ http_char other c ++ tail) (Zlen out + Zlen mid) (Zlen out) c0 =
    Ok ((out ++ [c]) ++ mid' ++ tail, Zlen out + Zlen mid' ) /\
    Zlen mid' + 1 = Zlen mid + Zlen (http_char other c).
Proof.
  intros Hc H0. pose proof (http_char_decodes other Hother c Hc H0) as Hd.
  assert (forall (k : list Z) x t, Zlen k = Zlen out + Zlen mid -> rd (k ++ x :: t) (Zlen out + Zlen mid) = Ok x) as Hrd.
  { intros k x t Hk. apply rd_at. lia. }
  destruct (http_char other c) as [|x [|h1 [|h2 [|? ?]]]] eqn:E; try done.
  - simpl in Hd. exists x.
    destruct (wr_behind out mid [x] tail (Zlen out) c eq_refl) as (mid' & Hw & Hl); [done|].
    exists mid'. apply andb_true_iff in Hd as [Hd Hx]. apply andb_true_iff in Hd as [Hx0 Hx37].
    apply negb_true_iff in Hx0, Hx37. split_and!.
    + rewrite app_assoc. apply Hrd. rewrite length_app. lia.
    + by apply Z.eqb_neq in Hx0.
    + unfold dehttp_step. rewrite Hx37. simpl in Hl. destruct (x =? 43).
      * apply Z.eqb_eq in Hx as ->. rewrite Hw, bind_Ok. do 2 f_equal. lia.
      * apply Z.eqb_eq in Hx as ->. rewrite Hw, bind_Ok. do 2 f_equal. lia.
    + done.
  - simpl in Hd. exists x. repeat rewrite andb_true_iff in Hd. destruct Hd as [[[Hx Hh1] Hh2] Hv].
    apply Z.eqb_eq in Hx as ->, Hv. apply negb_true_iff in Hh1, Hh2.
    set (v := u8 (Z.shiftl (AsciiToHex (schar h1)) 4)) in *.
    destruct (wr_behind out mid [37; h1] (h2 :: tail) (Zlen out) v eq_refl) as (m & Hw & Hl); [done|].
    exists (m ++ [h2]). simpl in Hw, Hl. split_and!.
    + rewrite app_assoc. apply Hrd. rewrite length_app. lia.
    + done.
    + unfold dehttp_step. simpl. rewrite (rd_nth _ (out ++ mid ++ [37]) h1 (h2 :: tail) (Zlen out + Zlen mid + 1))
        by list_at.
      rewrite bind_Ok, Hh1. rewrite (rd_nth _ (out ++ mid ++ [37; h1]) h2 tail (Zlen out + Zlen mid + 2))
        by list_at.
      rewrite bind_Ok, Hh2. fold v. rewrite Hw, bind_Ok.
      rewrite (rd_nth _ out v (m ++ h2 :: tail) (Zlen out)) by list_at. rewrite bind_Ok.
      rewrite (rd_nth _ ((out ++ [v]) ++ m) h2 tail (Zlen out + Zlen mid + 2))
        by list_at. rewrite bind_Ok, Hv.
      rewrite <- (app_assoc out). simpl. rewrite wr_at, bind_Ok by done. 
      rewrite <- !app_assoc. simpl. do 2 f_equal. rewrite length_app. simpl. lia.
    + rewrite length_app. simpl. lia.
Qed.

Lemma dehttp_loop_spec z fuel out mid tail :
  Forall byte z -> Forall (fun c => c <> 0) z -> (length z <= fuel)%nat ->
  exists tail', dehttp_loop fuel (out ++ mid ++ concat (http_char other <$> z) ++ 0 :: tail)
      (Zlen out + Zlen mid) (Zlen out) = Ok (out ++ z ++ 0 :: tail', Zlen out + Zlen z).
Proof.
  intros Hb H0. revert fuel out mid. induction Hb as [|c z Hc Hb IH]; intros fuel out mid Hf.
  - simpl. destruct (wr_behind out mid [0] tail (Zlen out) 0 eq_refl) as (m & Hw & _); [done|].
    assert (rd (out ++ mid ++ 0 :: tail) (Zlen out + Zlen mid) = Ok 0) as Hrd
      by (rewrite app_assoc; apply rd_at; rewrite length_app; lia).
    exists (m ++ tail). simpl in Hw.
    destruct fuel; cbn [dehttp_loop]; rewrite Hrd, bind_Ok; simpl; rewrite Hw, bind_Ok;
      rewrite <- app_assoc; simpl; do 2 f_equal; lia.
  - apply Forall_cons_1 in H0 as [Hc0 H0]. destruct fuel as [|fuel]; [simpl in Hf; lia|].
    rewrite concat_cons, <- (app_assoc (http_char other c)).
    destruct (dehttp_step_spec out mid c (concat (http_char other <$> z) ++ 0 :: tail) Hc Hc0)
      as (c0 & mid' & Hrd & Hc00 & Hst & Hl).
    cbn [dehttp_loop]. rewrite Hrd, bind_Ok, (proj2 (Z.eqb_neq c0 0)), Hst, bind_Ok by done.
    destruct (IH H0 fuel (out ++ [c]) mid') as [t Ht]; [simpl in Hf; lia|].
    exists t. rewrite length_app in Ht. simpl in Ht.
    replace (Zlen out + Zlen mid' + 1) with (Z.of_nat (length out + 1) + Zlen mid') by lia.
    replace (Zlen out + 1) with (Z.of_nat (length out + 1)) by lia.
    rewrite Ht, <- app_assoc. simpl. do 2 f_equal. lia.
Qed.
End Dehttp.

(** ** Fossilize *)

Definition fossil_decodes (c : Z) (h : list Z) : bool :=
  match h with
  | [x] => negb (x =? 0) && negb (x =? 92) && (x =? c)
  | [x; e] => (x =? 92) && negb (e =? 0) && (unescape e =? c)
  | _ => false
  end.

Lemma fossil_char_decodes c : byte c -> fossil_decodes c (fossil_char c) = true.
Proof. revert c. apply byte_cases. vm_compute. reflexivity. Qed.

(** Neither NUL nor white space survives the encoding. *)
Lemma fossil_char_plain c : byte c -> Forall (fun x => x <> 0 /\ isspace x = false) (fossil_char c).
Proof.
  intros Hc. assert (forallb (fun x => negb (x =? 0) && negb (isspace x)) (fossil_char c) = true) as H.
  { revert c Hc. apply byte_cases. vm_compute. reflexivity. }
  rewrite forallb_forall in H. apply Forall_forall. intros x Hx.
  specialize (H x Hx). apply andb_true_iff in H as [H1 H2].
  apply negb_true_iff in H1, H2. split; [by apply Z.eqb_neq in H1|done].
Qed.

Lemma fossil_width c : byte c -> Zlen (fossil_char c) = if fossil_special c then 2 else 1.
Proof.
  intros Hc. apply Z.eqb_eq. revert c Hc.
  apply (byte_cases (fun c => Zlen (fossil_char c) =? (if fossil_special c then 2 else 1))).
  vm_compute. reflexivity.
Qed.

Lemma fossil_count_spec z n :
  Forall byte z -> 0 <= n -> n + Zlen z <= INT_MAX ->
  fossil_count z n = Ok (n + (Zlen (concat (fossil_char <$> z)) - Zlen z)).
Proof.
  intros Hb. revert n. induction Hb as [|c z Hc Hb IH]; intros n Hn Hm; cbn [fossil_count].
  { f_equal. simpl. lia. }
  rewrite concat_cons, length_app, Nat2Z.inj_add, (fossil_width c Hc). cbn [length] in *.
  destruct (fossil_special c).
  - rewrite i32_ok, bind_Ok by (unfold INT_MIN in *; lia). rewrite IH by lia. f_equal. lia.
  - rewrite IH by lia. f_equal. lia.
Qed.

Lemma fossil_loop_spec cap z out :
  Zlen out + Zlen (concat (fossil_char <$> z)) <= cap ->
  fossil_loop cap z out = Ok (out ++ concat (fossil_char <$> z)).
Proof.
  revert out. induction z as [|c z IH]; intros out Hb; cbn [fossil_loop]; [by rewrite app_nil_r|].
  rewrite concat_cons, length_app in Hb. rewrite pushes_ok, bind_Ok by lia.
  rewrite IH by (rewrite length_app; lia). by rewrite concat_cons, <- app_assoc.
Qed.

Lemma fossil_length z :
  Forall byte z -> Zlen z <= Zlen (concat (fossil_char <$> z)) <= 2 * Zlen z.
Proof.
  induction 1 as [|c z Hc _ IH]; [done|]. rewrite concat_cons, length_app.
  pose proof (fossil_width c Hc). cbn [length]. destruct (fossil_special c); lia.
Qed.

Lemma defossil_step_spec (l : list Z) c tail :
  byte c ->
  exists c0, rd (l ++ fossil_char c ++ tail) (Zlen l) = Ok c0 /\ c0 <> 0 /\ fossil_char c <> [] /\
    defossil_step (l ++ fossil_char c ++ tail) (Zlen l) c0 =
    Ok (c, Zlen l + Zlen (fossil_char c) - 1).
Proof.
  intros Hc. pose proof (fossil_char_decodes c Hc) as Hd.
  destruct (fossil_char c) as [|x [|e [|? ?]]] eqn:E; try done; simpl in Hd; exists x;
    repeat rewrite andb_true_iff in Hd; destruct Hd as [[H1 H2] H3]; apply negb_true_iff in H2.
  - apply negb_true_iff in H1. apply Z.eqb_eq in H3 as ->. split_and!; try done.
    + by apply rd_at.
    + by apply Z.eqb_neq in H1.
    + unfold defossil_step. rewrite H2. do 2 f_equal. simpl. lia.
  - apply Z.eqb_eq in H1 as ->. apply Z.eqb_eq in H3. split_and!; try done.
    + by apply rd_at.
    + unfold defossil_step. simpl. rewrite (rd_nth _ (l ++ [92]) e tail) by list_at.
      rewrite bind_Ok, H2, H3. do 2 f_equal. lia.
Qed.

Lemma defossil_loop_spec z fuel out mid tail :
  Forall byte z -> (length z <= fuel)%nat ->
  exists tail', defossil_loop fuel (out ++ mid ++ concat (fossil_char <$> z) ++ 0 :: tail)
      (Zlen out + Zlen mid) (Zlen out) = Ok (out ++ z ++ 0 :: tail').
Proof.
  intros Hb. revert fuel out mid. induction Hb as [|c z Hc Hb IH]; intros fuel out mid Hf.
  - simpl. assert (rd (out ++ mid ++ 0 :: tail) (Zlen out + Zlen mid) = Ok 0) as Hrd
      by (rewrite app_assoc; apply rd_at; rewrite length_app; lia).
    destruct (mid ++ 0 :: tail) as [|y m] eqn:E; [by apply app_eq_nil in E as [_ ?]|].
    exists m. destruct fuel; cbn [defossil_loop]; rewrite Hrd, bind_Ok; simpl;
      rewrite rd_at, bind_Ok by done; (destruct (Z.eqb_spec y 0) as [->|]; simpl; [done|by rewrite wr_at]).
  - destruct fuel as [|fuel]; [simpl in Hf; lia|].
    rewrite concat_cons, <- (app_assoc (fossil_char c)).
    destruct (defossil_step_spec (out ++ mid) c (concat (fossil_char <$> z) ++ 0 :: tail) Hc)
      as (c0 & Hrd & Hc00 & Hne & Hst).
    rewrite <- app_assoc in Hrd, Hst. rewrite length_app, Nat2Z.inj_add in Hrd, Hst.
    cbn [defossil_loop]. rewrite Hrd, bind_Ok, (proj2 (Z.eqb_neq c0 0)), Hst, bind_Ok by done.
    destruct (wr_behind out mid (fossil_char c) (concat (fossil_char <$> z) ++ 0 :: tail) (Zlen out) c
      eq_refl Hne) as (mid' & -> & Hl). rewrite bind_Ok.
    destruct (IH fuel (out ++ [c]) mid') as [t Ht]; [simpl in Hf; lia|].
    exists t. rewrite length_app in Ht. simpl in Ht.
    replace (Zlen out + Zlen mid + Zlen (fossil_char c) - 1 + 1)
      with (Z.of_nat (length out + 1) + Zlen mid') by lia.
    replace (Zlen out + 1) with (Z.of_nat (length out + 1)) by lia.
    by rewrite Ht, <- app_assoc.
Qed.

Lemma input_bytes_all z n : n = Zlen z -> input_bytes z n false = Ok z.
Proof.
  intros ->. unfold input_bytes. rewrite check_true, bind_Ok by (apply Z.leb_le; lia).
  by rewrite take_ge by lia.
Qed.

(** ** Base 64 *)

(** The six-bit values behind the digits, as parts contributed by one byte. *)
Definition hi2 (x : Z) : Z := Z.land (Z.shiftr (schar x) 2) 63.
Definition lo2 (x : Z) : Z := Z.land (Z.shiftl (schar x) 4) 48.
Definition hi4 (y : Z) : Z := Z.land (Z.shiftr (schar y) 4) 15.
Definition lo4 (y : Z) : Z := Z.land (Z.shiftl (schar y) 2) 60.
Definition hi6 (w : Z) : Z := Z.land (Z.shiftr (schar w) 6) 3.
Definition lo6 (w : Z) : Z := Z.land (schar w) 63.

Definition parts_ok (x : Z) : bool :=
  (Z.lor (Z.land (Z.shiftl (hi2 x) 2) 252) (Z.land (Z.shiftr (lo2 x) 4) 3) =? x) &&
  (Z.lor (Z.land (Z.shiftl (hi4 x) 4) 240) (Z.land (Z.shiftr (lo4 x) 2) 15) =? x) &&
  (Z.lor (Z.land (Z.shiftl (hi6 x) 6) 192) (Z.land (lo6 x) 63) =? x) &&
  (Z.land (Z.shiftr (hi4 x) 4) 3 =? 0) && (Z.land (Z.shiftl (lo2 x) 4) 240 =? 0) &&
  (Z.land (Z.shiftr (hi6 x) 2) 15 =? 0) && (Z.land (Z.shiftl (lo4 x) 6) 192 =? 0) &&
  forallb (fun v => Z.land v 63 =? v) [hi2 x; lo2 x; hi4 x; lo4 x; hi6 x; lo6 x].

Lemma parts x : byte x -> parts_ok x = true.
Proof. revert x. apply byte_cases. vm_compute. reflexivity. Qed.

(** [parts] as equations. *)
Ltac parts_of x H :=
  let P := fresh "P" in
  pose proof (parts x H) as P; unfold parts_ok in P; cbn [forallb] in P;
  repeat rewrite andb_true_iff in P;
  repeat match type of P with _ /\ _ => let Q := fresh "Q" in destruct P as [P Q] end;
  repeat match goal with H : (_ =? _) = true |- _ => apply Z.eqb_eq in H end;
  repeat match goal with H : _ /\ _ |- _ => destruct H end;
  repeat match goal with H : (_ =? _) = true |- _ => apply Z.eqb_eq in H end.

Lemma land63_range v : Z.land v 63 = v -> 0 <= v < 64.
Proof. intros <-. change 63 with (Z.ones 6). rewrite Z.land_ones by lia. by apply Z.mod_pos_bound. Qed.

Lemma trans64_zBase v : 0 <= v < 64 -> trans64 (cget zBase v) = v.
Proof.
  intros Hv. apply Z.eqb_eq. revert v Hv.
  apply (range_forallb 64 (fun v => trans64 (cget zBase v) =? v)). vm_compute. reflexivity.
Qed.

Lemma zBase_plain v : 0 <= v < 64 -> cget zBase v <> 61 /\ cget zBase v <> 0.
Proof.
  intros Hv. assert (negb (cget zBase v =? 61) && negb (cget zBase v =? 0) = true) as H.
  { revert v Hv. apply (range_forallb 64 (fun v => negb (cget zBase v =? 61) && negb (cget zBase v =? 0))).
    vm_compute. reflexivity. }
  apply andb_true_iff in H as [H1 H2]. apply negb_true_iff in H1, H2. by apply Z.eqb_neq in H1, H2.
Qed.

Section Group.
Context (x y w : Z) (Hx : byte x) (Hy : byte y) (Hw : byte w).

Lemma group_ranges :
  0 <= hi2 x < 64 /\ 0 <= Z.lor (lo2 x) (hi4 y) < 64 /\ 0 <= Z.lor (lo4 y) (hi6 w) < 64 /\ 0 <= lo6 w < 64.
Proof.
  parts_of x Hx. parts_of y Hy. parts_of w Hw.
  split_and!; apply land63_range; rewrite ?Z.land_lor_distr_l; congruence.
Qed.

Lemma group_byte1 : byte1 (hi2 x) (Z.lor (lo2 x) (hi4 y)) = x.
Proof.
  parts_of x Hx. parts_of y Hy. unfold byte1. rewrite Z.shiftr_lor, Z.land_lor_distr_l.
  match goal with H : Z.land (Z.shiftr (hi4 y) 4) 3 = 0 |- _ => rewrite H end.
  by rewrite Z.lor_0_r.
Qed.

Lemma group_byte2 : byte2 (Z.lor (lo2 x) (hi4 y)) (Z.lor (lo4 y) (hi6 w)) = y.
Proof.
  parts_of x Hx. parts_of y Hy. parts_of w Hw. unfold byte2.
  rewrite Z.shiftr_lor, Z.shiftl_lor, !Z.land_lor_distr_l.
  match goal with H : Z.land (Z.shiftl (lo2 x) 4) 240 = 0 |- _ => rewrite H end.
  match goal with H : Z.land (Z.shiftr (hi6 w) 2) 15 = 0 |- _ => rewrite H end.
  by rewrite Z.lor_0_r, Z.lor_0_l.
Qed.

Lemma group_byte3 : byte3 (Z.lor (lo4 y) (hi6 w)) (lo6 w) = w.
Proof.
  parts_of y Hy. parts_of w Hw. unfold byte3. rewrite Z.shiftl_lor, Z.land_lor_distr_l.
  match goal with H : Z.land (Z.shiftl (lo4 y) 6) 192 = 0 |- _ => rewrite H end.
  by rewrite Z.lor_0_l.
Qed.
End Group.

(** The digits of a text without the padding, and the padding. *)
Fixpoint body64 (z : list Z) : list Z :=
  match z with
  | x :: y :: w :: z => [digit1 x; digit2 x y; digit3 y w; digit4 w] ++ body64 z
  | [x; y] => [digit1 x; digit2 x y; digit3 y 0]
  | [x] => [digit1 x; digit2 x 0]
  | [] => []
  end.
Fixpoint pad64 (z : list Z) : list Z :=
  match z with
  | _ :: _ :: _ :: z => pad64 z
  | [_; _] => [61]
  | [_] => [61; 61]
  | [] => []
  end.

(** Induction by groups of three. *)
Lemma list3_ind (P : list Z -> Prop) :
  P [] -> (forall x, P [x]) -> (forall x y, P [x; y]) ->
  (forall x y w z, P z -> P (x :: y :: w :: z)) -> forall z, P z.
Proof.
  intros H0 H1 H2 H3 z. induction z as [z IH] using (induction_ltof1 _ (@length Z)).
  destruct z as [|x [|y [|w z]]]; auto. apply H3, IH. unfold ltof. simpl. lia.
Qed.

Lemma digit3_0 y : digit3 y 0 = cget zBase (Z.land (Z.shiftl (schar y) 2) 60).
Proof. unfold digit3. by rewrite Z.lor_0_r. Qed.
Lemma digit2_0 x : digit2 x 0 = cget zBase (Z.land (Z.shiftl (schar x) 4) 48).
Proof. unfold digit2. by rewrite Z.lor_0_r. Qed.

Lemma body64_length z : Zlen (body64 z ++ pad64 z) = 4 * ((Zlen z + 2) / 3).
Proof.
  induction z as [|x|x y|x y w z IH] using list3_ind; try done.
  cbn [body64 pad64]. rewrite length_app in *. simpl length. dlia.
Qed.

Lemma body64_size z : 4 * Zlen z <= 3 * Zlen (body64 z).
Proof. induction z as [|x|x y|x y w z IH] using list3_ind; try done. simpl in *. lia. Qed.

Lemma encode64_loop_spec cap z out :
  Zlen out + Zlen (body64 z ++ pad64 z) <= cap ->
  encode64_loop cap z out = Ok (out ++ body64 z ++ pad64 z).
Proof.
  revert out. induction z as [|x|x y|x y w z IH] using list3_ind; intros out H; cbn [encode64_loop].
  - by rewrite app_nil_r.
  - rewrite <- digit2_0. by apply pushes_ok.
  - rewrite <- digit3_0. by apply pushes_ok.
  - cbn [body64 pad64] in *. rewrite <- app_assoc, length_app in H. cbn [length] in H.
    rewrite pushes_ok, bind_Ok by (simpl; lia). rewrite IH by (rewrite length_app; simpl; lia).
    by rewrite <- !app_assoc.
Qed.

Lemma digits_trans x y w :
  byte x -> byte y -> byte w ->
  trans64 (digit1 x) = hi2 x /\ trans64 (digit2 x y) = Z.lor (lo2 x) (hi4 y) /\
  trans64 (digit3 y w) = Z.lor (lo4 y) (hi6 w) /\ trans64 (digit4 w) = lo6 w.
Proof.
  intros Hx Hy Hw. destruct (group_ranges x y w Hx Hy Hw) as (H1 & H2 & H3 & H4).
  split_and!; by apply trans64_zBase.
Qed.

Lemma decode64_loop_spec cap z out :
  Forall byte z -> Zlen out + Zlen z <= cap -> decode64_loop cap (body64 z) out = Ok (out ++ z).
Proof.
  assert (byte 0) as Hb0 by (unfold byte; lia).
  revert out. induction z as [|x|x y|x y w z IH] using list3_ind; intros out Hb H.
  - simpl. by rewrite app_nil_r.
  - apply Forall_cons_1 in Hb as [Hx _]. destruct (digits_trans x 0 0 Hx Hb0 Hb0) as (E1 & E2 & _).
    cbn [body64 decode64_loop]. cbv zeta. rewrite E1, E2, group_byte1 by done. by apply pushes_ok.
  - apply Forall_cons_1 in Hb as [Hx [Hy _]%Forall_cons_1].
    destruct (digits_trans x y 0 Hx Hy Hb0) as (E1 & E2 & E3 & _).
    cbn [body64 decode64_loop]. cbv zeta.
    rewrite E1, E2, E3, group_byte1, group_byte2 by done. by apply pushes_ok.
  - apply Forall_cons_1 in Hb as [Hx [Hy [Hw Hb]%Forall_cons_1]%Forall_cons_1].
    destruct (digits_trans x y w Hx Hy Hw) as (E1 & E2 & E3 & E4).
    cbn [body64 app decode64_loop]. cbv zeta. cbn [length] in H.
    rewrite E1, E2, E3, E4, group_byte1, group_byte2, group_byte3 by done.
    rewrite pushes_ok, bind_Ok by (simpl; lia). rewrite IH by (done || rewrite length_app; simpl; lia).
    by rewrite <- app_assoc.
Qed.

Lemma body64_plain z : Forall byte z -> Forall (fun c => c <> 61 /\ c <> 0) (body64 z).
Proof.
  assert (byte 0) as Hb0 by (unfold byte; lia).
  assert (forall x y w, byte x -> byte y -> byte w ->
    Forall (fun c => c <> 61 /\ c <> 0) [digit1 x; digit2 x y; digit3 y w; digit4 w]) as Hg.
  { intros x y w Hx Hy Hw. destruct (group_ranges x y w Hx Hy Hw) as (H1 & H2 & H3 & H4).
    repeat constructor; by apply zBase_plain. }
  induction z as [|x|x y|x y w z IH] using list3_ind; intros Hb.
  - constructor.
  - apply Forall_cons_1 in Hb as [Hx _]. by apply (Forall_take _ 2 _ (Hg x 0 0 Hx Hb0 Hb0)).
  - apply Forall_cons_1 in Hb as [Hx [Hy _]%Forall_cons_1]. by apply (Forall_take _ 3 _ (Hg x y 0 Hx Hy Hb0)).
  - apply Forall_cons_1 in Hb as [Hx [Hy [Hw Hb]%Forall_cons_1]%Forall_cons_1].
    cbn [body64]. apply Forall_app. split; [by apply Hg|by apply IH].
Qed.

Lemma skip_eq_pad p l : Forall (fun c => c = 61) p -> Forall (fun c => c <> 61) l -> skip_eq (p ++ l) = l.
Proof.
  intros Hp Hl. induction Hp as [|c p -> _ IH]; [|done].
  destruct Hl as [|c l Hc _]; [done|]. simpl. by rewrite (proj2 (Z.eqb_neq c 61)).
Qed.

Lemma pad64_eq z : Forall (fun c => c = 61) (pad64 z).
Proof. induction z as [|x|x y|x y w z IH] using list3_ind; simpl; [..|done]; repeat constructor. Qed.

Lemma Forall_rev_iff {A} (P : A -> Prop) l : Forall P l -> Forall P (rev l).
Proof. intros H. apply Forall_forall. intros x Hx%in_rev. rewrite Forall_forall in H. by apply H. Qed.

Lemma strip_pad z :
  Forall byte z -> rev (skip_eq (rev (body64 z ++ pad64 z))) = body64 z.
Proof.
  intros Hb. rewrite rev_app_distr, skip_eq_pad; [by apply rev_involutive| |].
  - apply Forall_rev_iff, pad64_eq.
  - apply Forall_rev_iff, (List.Forall_impl _ (P := fun c => c <> 61 /\ c <> 0)); [by intros c []|].
    by apply body64_plain.
Qed.

(** ** Base 16 *)

Definition hex_ok (x : Z) : bool :=
  let d1 := cget zEncode (Z.shiftr x 4) in
  let d2 := cget zEncode (Z.land x 15) in
  (Z.land d1 128 =? 0) && (Z.land d2 128 =? 0) && negb (cget zDecode d1 =? 64) &&
  negb (cget zDecode d2 =? 64) && (u8 (Z.shiftl (cget zDecode d1) 4 + cget zDecode d2) =? x).

Lemma hex_byte x : byte x -> hex_ok x = true.
Proof. revert x. apply byte_cases. vm_compute. reflexivity. Qed.

Lemma decode16_loop_encode16 z out :
  Forall byte z -> decode16_loop (encode16 z) out = (out ++ z, 0).
Proof.
  intros Hb. revert out. induction Hb as [|x z Hx _ IH]; intros out; [simpl; by rewrite app_nil_r|].
  pose proof (hex_byte x Hx) as H. unfold hex_ok in H. repeat rewrite andb_true_iff in H.
  destruct H as [[[[H1 H2] H3] H4] H5]. apply Z.eqb_eq in H5. apply negb_true_iff in H3, H4.
  change (encode16 (x :: z)) with
    (cget zEncode (Z.shiftr x 4) :: cget zEncode (Z.land x 15) :: encode16 z).
  cbn [decode16_loop]. rewrite H1, H2, H3, H4, H5. cbn [negb orb]. rewrite IH. by rewrite <- app_assoc.
Qed.

Lemma encode16_length z : Zlen (encode16 z) = 2 * Zlen z.
Proof.
  induction z as [|x z IH]; [done|]. unfold encode16 in *. rewrite concat_cons, length_app.
  cbn [length]. lia.
Qed.

(** A character [decode16] accepts. *)
Definition hex_char (a : Z) : bool := (Z.land a 128 =? 0) && negb (cget zDecode a =? 64).

Lemma hex_char_value a :
  byte a -> hex_char a = true ->
  0 <= cget zDecode a < 16 /\ a <> 0 /\ cget zDecode (Z.land (schar a) 255) <= 63 /\
  Z.land (cget zDecode (Z.land (schar a) 127)) 31 = cget zDecode a.
Proof.
  intros Ha Hh. assert (negb (hex_char a) || ((0 <=? cget zDecode a) && (cget zDecode a <? 16) &&
    negb (a =? 0) && (cget zDecode (Z.land (schar a) 255) <=? 63) &&
    (Z.land (cget zDecode (Z.land (schar a) 127)) 31 =? cget zDecode a)) = true) as H.
  { revert a Ha Hh. cut (forall a, byte a -> negb (hex_char a) || ((0 <=? cget zDecode a) &&
      (cget zDecode a <? 16) && negb (a =? 0) && (cget zDecode (Z.land (schar a) 255) <=? 63) &&
      (Z.land (cget zDecode (Z.land (schar a) 127)) 31 =? cget zDecode a)) = true); [by auto|].
    apply byte_cases. vm_compute. reflexivity. }
  rewrite Hh in H. cbn [negb orb] in H. repeat rewrite andb_true_iff in H.
  destruct H as [[[[H1 H2] H3] H4] H5]. apply negb_true_iff in H3.
  split_and!; [by apply Z.leb_le|by apply Z.ltb_lt|by apply Z.eqb_neq|by apply Z.leb_le|by apply Z.eqb_eq].
Qed.

Lemma encode16_pair v1 v2 :
  0 <= v1 < 16 -> 0 <= v2 < 16 ->
  cget zEncode (Z.shiftr (u8 (Z.shiftl v1 4 + v2)) 4) = cget zEncode v1 /\
  cget zEncode (Z.land (u8 (Z.shiftl v1 4 + v2)) 15) = cget zEncode v2.
Proof.
  intros H1 H2. unfold u8. rewrite Z.shiftl_mul_pow2, Z.mod_small by lia.
  rewrite Z.shiftr_div_pow2 by lia. change 15 with (Z.ones 4). rewrite Z.land_ones by lia.
  split; f_equal; dlia.
Qed.

Lemma decode16_loop_canonical z out res :
  Forall byte z -> decode16_loop z out = (res, 0) -> Z.even (Zlen z) = true ->
  exists r, res = out ++ r /\ canonical16 z (Zlen z) = encode16 r /\ validate16 z (length z) = true.
Proof.
  revert out. induction z as [z IH] using (induction_ltof1 _ (@length Z)). intros out Hb H He.
  destruct z as [|a1 [|a2 z]]; [|done|].
  { injection H as <-. exists []. by rewrite app_nil_r. }
  apply Forall_cons_1 in Hb as [H1 [H2 Hb]%Forall_cons_1]. cbn [decode16_loop] in H.
  destruct (negb (Z.land a1 128 =? 0) || (cget zDecode a1 =? 64)) eqn:E1; [done|].
  destruct (negb (Z.land a2 128 =? 0) || (cget zDecode a2 =? 64)) eqn:E2; [done|].
  assert (forall a, negb (Z.land a 128 =? 0) || (cget zDecode a =? 64) = false -> hex_char a = true) as Hh.
  { intros a. unfold hex_char. destruct (Z.land a 128 =? 0), (cget zDecode a =? 64); simpl; congruence. }
  destruct (hex_char_value a1 H1 (Hh a1 E1)) as (R1 & N1 & V1 & C1).
  destruct (hex_char_value a2 H2 (Hh a2 E2)) as (R2 & N2 & V2 & C2).
  apply IH in H as (r & -> & Hc & Hv); [|unfold ltof; simpl; lia|done|].
  2:{ cbn [length] in He. rewrite !Nat2Z.inj_succ, Z.even_succ_succ in He. done. }
  eexists (_ :: r). split; [by rewrite <- app_assoc|]. cbn [length]. rewrite !Nat2Z.inj_succ. split.
  - cbn [canonical16]. rewrite (proj2 (Z.eqb_neq a1 0)), (proj2 (Z.eqb_neq a2 0)) by done.
    rewrite (proj2 (Z.eqb_neq (Z.succ (Z.succ _)) 0)), (proj2 (Z.eqb_neq (_ - 1) 0)) by lia. cbn [orb].
    rewrite C1, C2. replace (Z.succ (Z.succ (Zlen z)) - 1 - 1) with (Zlen z) by lia. rewrite Hc.
    destruct (encode16_pair _ _ R1 R2) as [P1 P2].
    unfold encode16 at 2. rewrite concat_cons. cbn [app]. by rewrite P1, P2.
  - cbn [validate16]. rewrite !Z.gtb_ltb, (proj2 (Z.ltb_ge 63 _)), (proj2 (Z.ltb_ge 63 _)) by done. done.
Qed.

(** ** Claims *)

(** [htmlize] returns, within the block it allocates, the text up to the
    length given or the first NUL with every special character replaced by its
    entity; no angle bracket or double quote is left in the output. *)
Lemma htmlize_spec z n :
  let t := ctext (Z.to_nat (if n <? 0 then strlen z else n)) z in
  6 * Zlen t < INT_MAX ->
  htmlize z n = Ok (concat (html_char <$> t)) /\
  Forall (fun c => c <> 60 /\ c <> 62 /\ c <> 34) (concat (html_char <$> t)).
Proof.
  intros t Hb. assert (Zlen (concat (html_char <$> t)) <= 6 * Zlen t) as Hl.
  { clear Hb. induction t as [|c l IH]; [done|]. rewrite concat_cons, length_app. cbn [length].
    pose proof (html_width_char c). pose proof (html_width_bound c). lia. }
  split.
  - unfold htmlize. rewrite html_count_spec, bind_Ok by (fold t; lia). fold t.
    rewrite i32_ok, bind_Ok by (unfold INT_MIN, INT_MAX in *; lia).
    rewrite html_loop_spec, bind_Ok by (fold t; simpl; lia). fold t. simpl. apply finish_ok. lia.
  - clear. induction t as [|c l IH]; [constructor|]. rewrite concat_cons. apply Forall_app. split; [|done].
    unfold html_char. destruct (Z.eqb_spec c 60), (Z.eqb_spec c 62), (Z.eqb_spec c 38), (Z.eqb_spec c 34);
      repeat constructor; lia.
Qed.

Definition sample_html : list Z := [97; 60; 98; 62; 38; 34; 34; 99].

(** C23. HTTP round trip: for any text of bytes other than NUL, [EncodeHttp]
    (behind [httpize] and [urlize]) stays within its block, and [dehttpize] in
    place turns its output back into the text and returns its length. *)
Theorem http_roundtrip z slash :
  Forall byte z -> Forall (fun c => c <> 0) z -> 3 * Zlen z < INT_MAX ->
  exists e, EncodeHttp (Some z) (-1) slash = Ok (Some e) /\
    exists rest, dehttpize (Some (e ++ [0])) = Ok (Some (z ++ 0 :: rest), Zlen z).
Proof.
  intros Hb H0 Hm. set (other := if slash then 97 else 47).
  assert (other = 97 \/ other = 47) as Hother by (unfold other; destruct slash; auto).
  pose proof (http_length other z) as Hl.
  exists (concat (http_char other <$> z)). split.
  - unfold EncodeHttp. fold other. change (-1 <? 0) with true. cbv iota.
    rewrite (strlen_no_nul z H0), Nat2Z.id.
    rewrite http_count_spec, bind_Ok; rewrite ?(ctext_no_nul z H0); try lia.
    rewrite i32_ok, bind_Ok by (unfold INT_MIN, INT_MAX in *; lia).
    rewrite http_loop_spec, bind_Ok; rewrite ?(ctext_no_nul z H0); [|simpl; lia].
    simpl. rewrite finish_ok by lia. done.
  - unfold dehttpize.
    destruct (dehttp_loop_spec other Hother z (length (concat (http_char other <$> z) ++ [0])) [] [] [] Hb H0)
      as [t Ht].
    + rewrite length_app. assert (length z <= length (concat (http_char other <$> z)))%nat; [|lia].
      clear. induction z as [|c z IH]; [done|]. rewrite concat_cons, length_app. cbn [length].
      pose proof (http_width other c). destruct (_ || _); lia.
    + exists t. change (Zlen (@nil Z) + Zlen (@nil Z)) with 0 in Ht. change (Zlen (@nil Z)) with 0 in Ht.
      cbn [app] in Ht. rewrite Ht. done.
Qed.

Lemma http_roundtrip_witness :
  exists e, EncodeHttp (Some [97; 32; 47; 37; 43; 200; 10]) (-1) true = Ok (Some e) /\
    exists rest, dehttpize (Some (e ++ [0])) = Ok (Some ([97; 32; 47; 37; 43; 200; 10] ++ 0 :: rest), 7).
Proof.
  apply (http_roundtrip [97; 32; 47; 37; 43; 200; 10] true);
    [repeat constructor; discriminate|repeat constructor; discriminate|reflexivity].
Defined.

(** C24. Fossilize round trip: for any bytes, NUL included, [fossilize] stays
    within its block, its output has no NUL and no white space, and
    [defossilize] in place restores the bytes. *)
Theorem fossilize_roundtrip z :
  Forall byte z -> 2 * Zlen z < INT_MAX ->
  exists e, fossilize z (Zlen z) = Ok e /\ Forall (fun x => x <> 0 /\ isspace x = false) e /\
    exists rest, defossilize (e ++ [0]) = Ok (z ++ 0 :: rest).
Proof.
  intros Hb Hm. pose proof (fossil_length z Hb) as Hl. exists (concat (fossil_char <$> z)). split_and!.
  - unfold fossilize. rewrite (proj2 (Z.ltb_ge (Zlen z) 0)), input_bytes_all, bind_Ok by (done || lia).
    rewrite fossil_count_spec, bind_Ok by (done || lia).
    rewrite i32_ok, bind_Ok by (unfold INT_MIN, INT_MAX in *; lia).
    rewrite i32_ok, bind_Ok by (unfold INT_MIN, INT_MAX in *; lia).
    rewrite fossil_loop_spec, bind_Ok by (simpl; lia). simpl. apply finish_ok. lia.
  - clear Hl Hm. induction Hb as [|c z Hc _ IH]; [constructor|]. rewrite concat_cons. apply Forall_app.
    split; [by apply fossil_char_plain|done].
  - unfold defossilize.
    destruct (defossil_loop_spec z (length (concat (fossil_char <$> z) ++ [0])) [] [] [] Hb) as [t Ht];
      [rewrite length_app; lia|]. exists t. exact Ht.
Qed.

Lemma fossilize_roundtrip_witness :
  exists e, fossilize [32; 0; 92; 9; 65; 200] 6 = Ok e /\ Forall (fun x => x <> 0 /\ isspace x = false) e /\
    exists rest, defossilize (e ++ [0]) = Ok ([32; 0; 92; 9; 65; 200] ++ 0 :: rest).
Proof.
  apply (fossilize_roundtrip [32; 0; 92; 9; 65; 200]); [repeat constructor; discriminate|reflexivity].
Defined.

(** Base-64 round trip: for any non-empty sequence of bytes, [encode64]
    stays within its block and [decode64] returns exactly those bytes, within
    its block. *)
Lemma base64_roundtrip z :
  Forall byte z -> z <> [] -> 4 * Zlen z + 8 <= INT_MAX ->
  exists e, encode64 z (Zlen z) = Ok e /\ decode64 e = Ok z.
Proof.
  intros Hb Hne Hm. exists (body64 z ++ pad64 z).
  pose proof (body64_length z) as Hlen. pose proof (body64_size z) as Hsz.
  assert (Zlen (@nil Z) = 0) as Hnil by done. split.
  - unfold encode64. destruct z as [|x z0]; [done|]. set (z := x :: z0) in *.
    rewrite (proj2 (Z.leb_gt (Zlen z) 0)), input_bytes_all, bind_Ok by (done || (simpl; lia)).
    rewrite i32_ok, bind_Ok by (unfold INT_MIN in *; lia).
    rewrite encode64_loop_spec, bind_Ok by dlia. rewrite app_nil_l.
    apply finish_ok. dlia.
  - unfold decode64. rewrite strlen_no_nul.
    + rewrite take_ge, strip_pad by (done || lia).
      rewrite i32_ok, bind_Ok by (rewrite length_app in Hlen; unfold INT_MIN in *; dlia).
      rewrite decode64_loop_spec, bind_Ok by (done || dlia).
      rewrite app_nil_l. apply finish_ok. dlia.
    + apply Forall_app. split.
      * apply (List.Forall_impl _ (P := fun c => c <> 61 /\ c <> 0)); [by intros c []|]. by apply body64_plain.
      * apply (List.Forall_impl _ (P := fun c => c = 61)); [by intros c ->|]. apply pad64_eq.
Qed.

(** Base-16: [decode16] inverts [encode16]; and whenever [decode16] accepts
    a text, [validate16] accepts it too and [canonical16] rewrites it in place to
    what [encode16] prints for the decoded bytes. *)
Lemma base16_roundtrip :
  (forall z, Forall byte z -> decode16 (encode16 z) = (z, 0)) /\
  (forall t z, Forall byte t -> decode16 t = (z, 0) ->
     canonical16 t (Zlen t) = encode16 z /\ validate16 t (length t) = true).
Proof.
  assert (forall n, (Z.land n 1 =? 0) = Z.even n) as Heven.
  { intros n. change 1 with (Z.ones 1). rewrite Z.land_ones by lia. change (2 ^ 1) with 2.
    rewrite Zmod_even. by destruct (Z.even n). }
  split.
  - intros z Hb. unfold decode16. rewrite Heven, encode16_length, Z.even_mul. simpl.
    by apply (decode16_loop_encode16 z []).
  - intros t z Hb. unfold decode16. rewrite Heven. destruct (Z.even (Zlen t)) eqn:E; [|done]. simpl.
    intros H. destruct (decode16_loop_canonical t [] z Hb H E) as (r & -> & Hc & Hv). done.
Qed.
