(* ===== verification/Blob.v ===== *)
(** * Blobs

    Models [src/src/ssfossil/fossil/src/blob.c]: growable byte buffers with a
    reading cursor.  Blobs made by [blob_init], [blob_extract], [blob_line] and
    [blob_token] point into memory they do not own, so the model keeps the
    memory: a [heap] is the list of all blocks ever allocated and a pointer is a
    block and an offset.  A freed block is empty, so any access through a
    dangling pointer is a fault, as is any access outside a block; fresh bytes
    hold an arbitrary value [junk].  Block 0 is the constant empty string the
    code points to.  Running out of memory ends the program and is not modelled.

    [unsigned int] sums wrap ([u32]). *)

From S2P Require Import Prelude Encode.

(** ** Memory *)

Abbreviation heap := (list (list Z)).
Inductive ptr : Set := Null | Ptr (b : nat) (o : Z).

Definition block (h : heap) (b : nat) : list Z := default [] (h !! b).

(** [p[i]] read and written. *)
Definition ld (h : heap) (p : ptr) (i : Z) : result Z :=
  match p with Null => Fault OutOfBounds | Ptr b o => rd (block h b) (o + i) end.
Definition st (h : heap) (p : ptr) (i x : Z) : result heap :=
  match p with
  | Null => Fault OutOfBounds
  | Ptr b o => blk ← wr (block h b) (o + i) x; Ok (<[b := blk]> h)
  end.

(** The [n] bytes at [p + i], and storing the bytes [w] there. *)
Definition ld_range (h : heap) (p : ptr) (i n : Z) : result (list Z) :=
  match p with
  | Null => _ ← check (n =? 0) OutOfBounds; Ok []
  | Ptr b o =>
      _ ← check ((0 <=? o + i) && (0 <=? n) && (o + i + n <=? Zlen (block h b))) OutOfBounds;
      Ok (slice (block h b) (o + i) n)
  end.
Definition st_range (h : heap) (p : ptr) (i : Z) (w : list Z) : result heap :=
  match p with
  | Null => _ ← check (Zlen w =? 0) OutOfBounds; Ok h
  | Ptr b o =>
      _ ← check ((0 <=? o + i) && (o + i + Zlen w <=? Zlen (block h b))) OutOfBounds;
      Ok (<[b := take (Z.to_nat (o + i)) (block h b) ++ w ++
                 drop (Z.to_nat (o + i) + length w) (block h b)]> h)
  end.

Definition padd (p : ptr) (n : Z) : ptr := match p with Null => Null | Ptr b o => Ptr b (o + n) end.

(** [strlen(p)]: the block must hold a NUL after [p]. *)
Definition strlen_at (h : heap) (p : ptr) : result Z :=
  match p with
  | Null => Fault OutOfBounds
  | Ptr b o =>
      let t := drop (Z.to_nat o) (block h b) in
      _ ← check ((0 <=? o) && (strlen t <? Zlen t)) OutOfBounds; Ok (strlen t)
  end.

Definition free (h : heap) (p : ptr) : result heap :=
  match p with
  | Null => Ok h
  | Ptr b o => _ ← check (o =? 0) OutOfBounds; Ok (<[b := []]> h)
  end.

Section Blob.
Context (junk : Z).

Definition malloc (h : heap) (n : Z) : heap * ptr :=
  (h ++ [replicate (Z.to_nat n) junk], Ptr (length h) 0).

Definition realloc (h : heap) (p : ptr) (n : Z) : result (heap * ptr) :=
  match p with
  | Null => Ok (malloc h n)
  | Ptr b o =>
      _ ← check (o =? 0) OutOfBounds;
      let old := block h b in
      Ok (<[b := []]> h ++
            [take (Z.to_nat n) old ++ replicate (Z.to_nat (n - Zlen old)) junk], Ptr (length h) 0)
  end.

(** ** The structure *)

Inductive xrealloc : Set := blobReallocMalloc | blobReallocStatic.
Record Blob := MkBlob { nUsed : Z; nAlloc : Z; iCursor : Z; aData : ptr; xRealloc : xrealloc }.

Definition set_used (p : Blob) (n : Z) : Blob := MkBlob n (nAlloc p) (iCursor p) (aData p) (xRealloc p).
Definition set_cursor (p : Blob) (n : Z) : Blob := MkBlob (nUsed p) (nAlloc p) n (aData p) (xRealloc p).

Definition blob_size (p : Blob) : Z := nUsed p.
Definition blob_buffer (p : Blob) : ptr := aData p.

Definition blob_isspace (c : Z) : bool := (schar c =? 32) || ((schar c <=? 13) && (schar c >=? 9)).

Definition empty_blob : Blob := MkBlob 0 0 0 Null blobReallocMalloc.

(** The function [blobReallocMalloc]. *)
Definition realloc_malloc (h : heap) (p : Blob) (newSize : Z) : result (heap * Blob) :=
  if newSize =? 0 then
    h ← free h (aData p); Ok (h, MkBlob 0 0 0 Null (xRealloc p))
  else if (newSize >? nAlloc p) || (newSize <? u32 (nAlloc p - 4000)) then
    '(h, pNew) ← realloc h (aData p) newSize;
    Ok (h, MkBlob (if nUsed p >? newSize then newSize else nUsed p) newSize (iCursor p) pNew (xRealloc p))
  else Ok (h, p).

(** The function [blobReallocStatic]. *)
Definition realloc_static (h : heap) (p : Blob) (newSize : Z) : result (heap * Blob) :=
  if newSize =? 0 then Ok (h, empty_blob)
  else
    let '(h, pNew) := malloc h newSize in
    let used := if nUsed p >? newSize then newSize else nUsed p in
    w ← ld_range h (aData p) 0 used;
    h ← st_range h pNew 0 w;
    Ok (h, MkBlob used newSize (iCursor p) pNew blobReallocMalloc).

(** [pBlob->xRealloc(pBlob, newSize)] *)
Definition call_realloc (h : heap) (p : Blob) (newSize : Z) : result (heap * Blob) :=
  match xRealloc p with
  | blobReallocMalloc => realloc_malloc h p newSize
  | blobReallocStatic => realloc_static h p newSize
  end.

Definition blob_reset (h : heap) (p : Blob) : result (heap * Blob) := call_realloc h p 0.

Definition blob_init (h : heap) (zData : ptr) (size : Z) : result Blob :=
  match zData with
  | Null => Ok empty_blob
  | Ptr _ _ =>
      size ← (if size <=? 0 then strlen_at h zData else Ok size);
      Ok (MkBlob size size 0 zData blobReallocStatic)
  end.

Definition blob_set (h : heap) (zStr : ptr) : result Blob := blob_init h zStr (-1).

(** [zEmpty] *)
Definition zEmpty : ptr := Ptr 0 0.
Definition blob_zero : Blob := MkBlob 0 1 0 zEmpty blobReallocStatic.

Definition blob_append (h : heap) (p : Blob) (aData0 : ptr) (nData : Z) : result (heap * Blob) :=
  nData ← (if nData <? 0 then strlen_at h aData0 else Ok nData);
  if nData =? 0 then Ok (h, p)
  else
    '(h, p) ← (if u32 (nUsed p + nData) >=? nAlloc p then
                 '(h, p) ← call_realloc h p (u32 (nUsed p + nData + nAlloc p + 100));
                 _ ← check (negb (u32 (nUsed p + nData) >=? nAlloc p)) AssertFailed;
                 Ok (h, p)
               else Ok (h, p));
    w ← ld_range h aData0 0 nData;
    h ← st_range h (aData p) (nUsed p) w;
    let p := set_used p (u32 (nUsed p + nData)) in
    h ← st h (aData p) (nUsed p) 0;
    Ok (h, p).

Definition blob_copy (h : heap) (pFrom : Blob) : result (heap * Blob) :=
  blob_append h blob_zero (blob_buffer pFrom) (to_int (blob_size pFrom)).

Definition blob_resize (h : heap) (p : Blob) (newSize : Z) : result (heap * Blob) :=
  '(h, p) ← call_realloc h p (u32 (newSize + 1));
  let p := set_used p newSize in
  h ← st h (aData p) newSize 0;
  Ok (h, p).

Definition blob_materialize (h : heap) (p : Blob) : result (heap * Blob) := blob_resize h p (nUsed p).

(** The string is at [aData] of the blob returned. *)
Definition blob_str (h : heap) (p : Blob) : result (heap * Blob) :=
  '(h, p) ← (if nUsed p =? 0 then
               '(h, p) ← blob_append h p zEmpty 1; Ok (h, set_used p 0)
             else Ok (h, p));
  c ← ld h (aData p) (nUsed p);
  if negb (c =? 0) then blob_materialize h p else Ok (h, p).

Definition blob_terminate (h : heap) (p : Blob) : result (heap * ptr) :=
  if nUsed p =? 0 then Ok (h, zEmpty)
  else h ← st h (aData p) (nUsed p) 0; Ok (h, aData p).

(** The sign of [memcmp] on two lists of the same length. *)
Fixpoint memcmp (x y : list Z) : Z :=
  match x, y with
  | c :: x, d :: y => if c <? d then -1 else if d <? c then 1 else memcmp x y
  | _, _ => 0
  end.

Definition blob_compare (h : heap) (pA pB : Blob) : result Z :=
  let szA := to_int (nUsed pA) in
  let szB := to_int (nUsed pB) in
  let sz := u64 (if szA <? szB then szA else szB) in
  x ← ld_range h (aData pA) 0 sz;
  y ← ld_range h (aData pB) 0 sz;
  let rc := memcmp x y in
  if rc =? 0 then i32 (szA - szB) else Ok rc.

Definition blob_eq_str (h : heap) (p : Blob) (z : ptr) (n : Z) : result bool :=
  n ← (if n <=? 0 then n ← strlen_at h z; Ok (to_int n) else Ok n);
  rc ← blob_compare h p (MkBlob (u32 n) 0 0 z blobReallocStatic);
  Ok (rc =? 0).

Definition blob_dehttpize (h : heap) (p : Blob) : result (heap * Blob) :=
  '(h, p) ← blob_materialize h p;
  match aData p with
  | Ptr b 0 =>
      '(z, n) ← dehttpize (Some (block h b));
      Ok (<[b := default [] z]> h, set_used p n)
  | _ => Fault OutOfBounds
  end.

(** ** Reading *)

(** Returns the two blobs and the number of bytes. *)
Definition blob_extract (pFrom : Blob) (N : Z) : Blob * Blob * Z :=
  let take_n N :=
    (set_cursor pFrom (u32 (iCursor pFrom + N)),
     MkBlob (u32 N) (u32 N) 0 (padd (aData pFrom) (iCursor pFrom)) blobReallocStatic, N) in
  if u32 (iCursor pFrom + N) >? nUsed pFrom then
    let N := to_int (nUsed pFrom - iCursor pFrom) in
    if N <=? 0 then (pFrom, blob_zero, 0) else take_n N
  else take_n N.

Definition blob_rewind (p : Blob) : Blob := set_cursor p 0.

Definition BLOB_SEEK_SET : Z := 1.
Definition BLOB_SEEK_CUR : Z := 2.
Definition BLOB_SEEK_END : Z := 3.

(** [iCursor] is unsigned: the test [p->iCursor<0] never holds. *)
Definition blob_seek (p : Blob) (offset whence : Z) : Blob * Z :=
  let c :=
    if whence =? BLOB_SEEK_SET then u32 offset
    else if whence =? BLOB_SEEK_CUR then u32 (iCursor p + offset)
    else if whence =? BLOB_SEEK_END then u32 (nUsed p + offset - 1)
    else iCursor p in
  let c := if c >? nUsed p then nUsed p else c in
  (set_cursor p c, to_int c).

Definition blob_tell (p : Blob) : Z := to_int (iCursor p).

(** [while( i<n && f(aData[i]) ){ i++; }] *)
Fixpoint skip_while (fuel : nat) (h : heap) (z : ptr) (f : Z -> bool) (i n : Z) : result Z :=
  if i <? n then
    c ← ld h z i;
    if f c then
      match fuel with O => Fault OutOfFuel | S fuel => skip_while fuel h z f (i + 1) n end
    else Ok i
  else Ok i.

(** With [int n = p->nUsed]. *)
Definition skip (h : heap) (p : Blob) (f : Z -> bool) (i : Z) : result Z :=
  let n := to_int (nUsed p) in skip_while (Z.to_nat (n - i)) h (aData p) f i n.

Definition blob_line (h : heap) (pFrom : Blob) : result (Blob * Blob * Z) :=
  i ← skip h pFrom (fun c => negb (c =? 10)) (to_int (iCursor pFrom));
  let i := if i <? to_int (nUsed pFrom) then i + 1 else i in
  let '(pFrom, pTo, _) := blob_extract pFrom (to_int (i - iCursor pFrom)) in
  Ok (pFrom, pTo, to_int (nUsed pTo)).

(** [while( n>0 && blob_isspace(z[n-1]) ){ n--; }] *)
Fixpoint trim_loop (n : nat) (h : heap) (z : ptr) : result Z :=
  match n with
  | O => Ok 0
  | S m => c ← ld h z (Z.of_nat m); if blob_isspace c then trim_loop m h z else Ok (Z.of_nat n)
  end.

Definition blob_trim (h : heap) (p : Blob) : result (Blob * Z) :=
  let n := to_int (nUsed p) in
  n ← (if n >? 0 then trim_loop (Z.to_nat n) h (aData p) else Ok n);
  Ok (set_used p (u32 n), n).

Definition blob_token (h : heap) (pFrom : Blob) : result (Blob * Blob * Z) :=
  i ← skip h pFrom blob_isspace (to_int (iCursor pFrom));
  let pFrom := set_cursor pFrom (u32 i) in
  i ← skip h pFrom (fun c => negb (blob_isspace c)) i;
  let '(pFrom, pTo, _) := blob_extract pFrom (to_int (i - iCursor pFrom)) in
  i ← skip h pFrom blob_isspace i;
  Ok (set_cursor pFrom (u32 i), pTo, to_int (nUsed pTo)).

Definition blob_tail (pFrom : Blob) : Blob * Blob * Z :=
  let c := to_int (iCursor pFrom) in
  let '(pFrom, pTo, _) := blob_extract pFrom (to_int (nUsed pFrom - iCursor pFrom)) in
  (set_cursor pFrom (u32 c), pTo, to_int (nUsed pTo)).

(** The loop of [blob_copy_lines]: [i] after [N - cnt] more newlines. *)
Fixpoint lines_loop (fuel : nat) (h : heap) (z : ptr) (i n cnt N : Z) : result Z :=
  if i <? n then
    c ← ld h z i;
    let cnt := if c =? 10 then cnt + 1 else cnt in
    if (c =? 10) && (cnt =? N) then Ok (i + 1)
    else match fuel with O => Fault OutOfFuel | S fuel => lines_loop fuel h z (i + 1) n cnt N end
  else Ok i.

Definition blob_copy_lines (h : heap) (pTo : option Blob) (pFrom : Blob) (N : Z) :
    result (heap * option Blob * Blob) :=
  if N =? 0 then Ok (h, pTo, pFrom)
  else
    let i := to_int (iCursor pFrom) in
    let n := to_int (nUsed pFrom) in
    i ← lines_loop (Z.to_nat (n - i)) h (aData pFrom) i n 0 N;
    '(h, pTo) ← (match pTo with
                 | Some pTo =>
                     '(h, pTo) ← blob_append h pTo (padd (aData pFrom) (iCursor pFrom))
                                   (to_int (i - iCursor pFrom));
                     Ok (h, Some pTo)
                 | None => Ok (h, None)
                 end);
    Ok (h, pTo, set_cursor pFrom (u32 i)).

Definition UUID_SIZE : Z := 40.
Definition blob_is_uuid_n (h : heap) (p : Blob) (n : Z) : result bool :=
  if negb (blob_size p =? n) then Ok false
  else z ← ld_range h (aData p) 0 n; Ok (validate16 z (Z.to_nat n)).
Definition blob_is_uuid (h : heap) (p : Blob) : result bool := blob_is_uuid_n h p UUID_SIZE.

(** [isdigit] in the C locale. *)
Definition isdigit (c : Z) : bool := (48 <=? c) && (c <=? 57).

(** The digits read and the index after them. *)
Fixpoint int_loop (z : list Z) (v i : Z) : result (Z * Z) :=
  match z with
  | [] => Ok (v, i)
  | c :: z =>
      if negb (c =? 0) && isdigit (schar c) then
        v ← i32 (v * 10); v ← i32 (v + schar c); v ← i32 (v - 48); int_loop z v (i + 1)
      else Ok (v, i)
  end.

(** [*pValue] when the function returns 1. *)
Definition blob_is_int (h : heap) (p : Blob) : result (option Z) :=
  let n := to_int (nUsed p) in
  z ← ld_range h (aData p) 0 (Z.max n 0);
  '(v, i) ← int_loop z 0 0;
  Ok (if i =? n then Some v else None).

(** The blobs of [aToken] that were filled; their number is returned. *)
Fixpoint blob_tokenize (h : heap) (pIn : Blob) (nToken : nat) : result (Blob * list Blob) :=
  match nToken with
  | O => Ok (pIn, [])
  | S n =>
      '(pIn, t, sz) ← blob_token h pIn;
      if sz =? 0 then Ok (pIn, [])
      else '(pIn, ts) ← blob_tokenize h pIn n; Ok (pIn, t :: ts)
  end.

(** ** Carriage returns *)

(** [for(i=j=0; z[i]; i++) if( z[i]!='\r' ) z[j++] = z[i]; z[j] = 0;] *)
Fixpoint remove_cr_loop (fuel : nat) (z : list Z) (i j : Z) : result (list Z * Z) :=
  c ← rd z i;
  if c =? 0 then z ← wr z j 0; Ok (z, j)
  else match fuel with
       | O => Fault OutOfFuel
       | S fuel =>
           if negb (c =? 13) then z ← wr z j c; remove_cr_loop fuel z (i + 1) (j + 1)
           else remove_cr_loop fuel z (i + 1) j
       end.

Definition blob_remove_cr (h : heap) (p : Blob) : result (heap * Blob) :=
  '(h, p) ← blob_materialize h p;
  match aData p with
  | Ptr b 0 =>
      '(z, j) ← remove_cr_loop (length (block h b)) (block h b) 0 0;
      Ok (<[b := z]> h, set_used p j)
  | _ => Fault OutOfBounds
  end.

(** ** Compression *)

Section Zlib.
(** zlib's [compress] and [uncompress]: the latter gets the bytes it may read
    and the room for the result, and fails with [None]. *)
Context (compress : list Z -> list Z) (uncompress : list Z -> Z -> option (list Z)).

Definition be32 (n : Z) : list Z :=
  [Z.land (Z.shiftr n 24) 255; Z.land (Z.shiftr n 16) 255; Z.land (Z.shiftr n 8) 255; Z.land n 255].

Definition blob_compress (h : heap) (pIn : Blob) : result (heap * Blob) :=
  let nIn := blob_size pIn in
  let nOut := u32 (13 + nIn + u32 (nIn + 999) / 1000) in
  '(h, temp) ← blob_resize h blob_zero (u32 (nOut + 4));
  h ← st_range h (aData temp) 0 (be32 nIn);
  z ← ld_range h (aData pIn) 0 (blob_size pIn);
  let out := compress z in
  _ ← check (Zlen out <=? nOut) OutOfBounds;
  h ← st_range h (aData temp) 4 out;
  blob_resize h temp (u32 (Zlen out + 4)).

(** The C return value, and the output blob where it is set.  The length
    passed to [uncompress] is that of the whole input blob. *)
Definition blob_uncompress (h : heap) (pIn : Blob) : result (heap * option Blob * Z) :=
  let nIn := blob_size pIn in
  if nIn <=? 4 then Ok (h, None, 0)
  else
    hd ← ld_range h (aData pIn) 0 4;
    let nOut := u32 (Z.shiftl (cget hd 0) 24 + Z.shiftl (cget hd 1) 16 +
                     Z.shiftl (cget hd 2) 8 + cget hd 3) in
    '(h, temp) ← blob_resize h blob_zero (u32 (nOut + 1));
    let src := match aData pIn with
               | Null => []
               | Ptr b o => slice (block h b) (o + 4) nIn
               end in
    match uncompress src nOut with
    | None => '(h, _) ← blob_reset h temp; Ok (h, None, 1)
    | Some out =>
        _ ← check (Zlen out <=? nOut) OutOfBounds;
        h ← st_range h (aData temp) 0 out;
        '(h, temp) ← blob_resize h temp (Zlen out);
        Ok (h, Some temp, 0)
    end.
End Zlib.
End Blob.
