(* ===== verification/BlobSpec.v ===== *)
(** * Blobs: content, ownership and framing

    [text h p] is the content of a blob; [blob_ok] says that the blob and the
    heap fit together; [frame h p h'] that nothing changed outside the memory
    the blob owns.  The writing operations are specified by what they do to the
    content and by the frame, the reading operations by the part of the content
    after the cursor. *)

From S2P Require Import Prelude Encode EncodeSpec Blob.

(** ** Heaps *)

Lemma block_insert_eq h b l : (b < length h)%nat -> block (<[b := l]> h) b = l.
Proof. intros Hb. unfold block. by rewrite list_lookup_insert_eq. Qed.

Lemma block_insert_ne h b c l : b <> c -> block (<[b := l]> h) c = block h c.
Proof. intros Hb. unfold block. by rewrite list_lookup_insert_ne. Qed.

Lemma block_app_l h h' b : (b < length h)%nat -> block (h ++ h') b = block h b.
Proof. intros Hb. unfold block. by rewrite lookup_app_l. Qed.

Lemma block_app_last h l : block (h ++ [l]) (length h) = l.
Proof. unfold block. by rewrite list_lookup_middle. Qed.

Definition heap_ok (h : heap) : Prop := h !! 0%nat = Some [0].

(** The block a blob may write to and free. *)
Definition owns (p : Blob) (b : nat) : Prop :=
  xRealloc p = blobReallocMalloc /\ exists o, aData p = Ptr b o.

Definition text (h : heap) (p : Blob) : list Z :=
  match aData p with Null => [] | Ptr b o => slice (block h b) o (nUsed p) end.

Record blob_ok (h : heap) (p : Blob) : Prop := {
  bo_sizes : 0 <= nUsed p /\ 0 <= nAlloc p;
  bo_static : xRealloc p = blobReallocStatic -> nAlloc p <= nUsed p + 1;
  bo_data : match aData p with
            | Null => nUsed p = 0 /\ nAlloc p = 0 /\ xRealloc p = blobReallocMalloc
            | Ptr b o =>
                (b < length h)%nat /\ 0 <= o /\ o + nUsed p <= Zlen (block h b) /\
                (xRealloc p = blobReallocMalloc -> o = 0 /\ b <> 0%nat /\ Zlen (block h b) = nAlloc p)
            end
}.

Definition frame (h : heap) (p : Blob) (h' : heap) : Prop :=
  (length h <= length h')%nat /\
  forall b, (b < length h)%nat -> ~ owns p b -> block h' b = block h b.

(** A blob in its own block, with room for [n] bytes and a terminator. *)
Record owned (h : heap) (p : Blob) (b : nat) (n : Z) : Prop := {
  ow_ptr : aData p = Ptr b 0;
  ow_kind : xRealloc p = blobReallocMalloc;
  ow_blk : (b < length h)%nat /\ b <> 0%nat;
  ow_len : Zlen (block h b) = nAlloc p;
  ow_room : n < nAlloc p
}.

Lemma length_text h p : blob_ok h p -> Zlen (text h p) = nUsed p.
Proof.
  intros [[? ?] _ Hd]. unfold text. destruct (aData p) as [|b o]; [simpl; lia|].
  apply length_slice; lia.
Qed.

Lemma ld_range_text h p : blob_ok h p -> ld_range h (aData p) 0 (nUsed p) = Ok (text h p).
Proof.
  intros [[Hu ?] _ Hd]. unfold ld_range, text. destruct (aData p) as [|b o].
  - rewrite check_true; [done|]. apply Z.eqb_eq. lia.
  - rewrite Z.add_0_r. rewrite check_true; [done|].
    rewrite !andb_true_iff. repeat split; apply Z.leb_le; lia.
Qed.

Lemma slice_app_l (l1 l2 : list Z) i n :
  0 <= i -> i + n <= Zlen l1 -> slice (l1 ++ l2) i n = slice l1 i n.
Proof.
  intros Hi Hn. unfold slice. destruct (decide (n <= 0)); [by replace (Z.to_nat n) with 0%nat by lia|].
  rewrite drop_app_le, take_app_le by (rewrite ?length_drop; lia). done.
Qed.

Lemma slice_take (l : list Z) m n : 0 <= n <= m -> slice (take (Z.to_nat m) l) 0 n = take (Z.to_nat n) l.
Proof. intros H. unfold slice. simpl. rewrite drop_0, take_take. f_equal. lia. Qed.

Lemma take_slice (l : list Z) i n m : 0 <= m -> take (Z.to_nat m) (slice l i n) = slice l i (Z.min m n).
Proof. intros Hm. unfold slice. rewrite take_take. f_equal. lia. Qed.

(** ** Reallocation *)

Section Junk.
Context (junk : Z).

(** What a request for [n > 0] bytes achieves: the blob is in a block of its own
    with room for them, which holds the content that fits. *)
Definition reallocated (h : heap) (p : Blob) (n : Z) (h1 : heap) (p1 : Blob) (b : nat) : Prop :=
  heap_ok h1 /\ owned h1 p1 b (n - 1) /\
  iCursor p1 = iCursor p /\ frame h p h1 /\ ((b < length h)%nat -> owns p b) /\
  0 <= nUsed p1 <= nAlloc p1 /\ (nUsed p <= n -> nUsed p1 = nUsed p) /\
  slice (block h1 b) 0 (Z.min n (nUsed p)) = take (Z.to_nat n) (text h p).

Lemma clip_used p n : (if nUsed p >? n then n else nUsed p) = Z.min n (nUsed p).
Proof. rewrite Z.gtb_ltb. destruct (Z.ltb_spec n (nUsed p)); lia. Qed.

Lemma realloc_spec h p n :
  heap_ok h -> blob_ok h p -> 0 < n -> xRealloc p = blobReallocMalloc ->
  exists h1 b, realloc junk h (aData p) n = Ok (h1, Ptr b 0) /\ heap_ok h1 /\
    (b < length h1)%nat /\ b <> 0%nat /\ Zlen (block h1 b) = n /\ frame h p h1 /\ b = length h /\
    slice (block h1 b) 0 (Z.min n (nUsed p)) = take (Z.to_nat n) (text h p).
Proof.
  intros Hh Hp Hn Ex. pose proof Hp as [[Hu Ha] _ Hd]. pose proof (lookup_lt_Some _ _ _ Hh) as Hlen.
  unfold realloc, text. destruct (aData p) as [|b o] eqn:Ep.
  - do 2 eexists. split; [done|]. split_and!.
    + unfold heap_ok. by rewrite lookup_app_l.
    + rewrite length_app. simpl. lia.
    + lia.
    + rewrite block_app_last, length_replicate. lia.
    + split; [rewrite length_app; lia|]. intros c Hc _. by apply block_app_l.
    + done.
    + destruct Hd as (-> & _). rewrite Z.min_r, take_nil by lia. done.
  - destruct Hd as (Hb & Ho & Hin & Hm). destruct (Hm Ex) as (-> & Hb0 & Hbl).
    rewrite check_true, bind_Ok by done. do 2 eexists. split; [done|].
    assert (length (<[b:=[]]> h) = length h) as Hli by apply length_insert.
    rewrite <- Hli. split_and!.
    + unfold heap_ok. rewrite lookup_app_l by lia. by rewrite list_lookup_insert_ne.
    + rewrite length_app. simpl. lia.
    + lia.
    + rewrite block_app_last, length_app, length_take, length_replicate. lia.
    + split; [rewrite length_app; lia|]. intros c Hc Hno. rewrite block_app_l by lia.
      apply block_insert_ne. intros ->. apply Hno. split; [done|]. by exists 0.
    + done.
    + rewrite block_app_last, take_slice by lia. unfold slice. simpl. rewrite !drop_0.
      rewrite take_app_le by (rewrite length_take; lia). rewrite take_take. f_equal. lia.
Qed.

Lemma realloc_malloc_spec h p n :
  heap_ok h -> blob_ok h p -> 0 < n -> xRealloc p = blobReallocMalloc ->
  exists h1 p1 b, realloc_malloc junk h p n = Ok (h1, p1) /\ reallocated h p n h1 p1 b.
Proof.
  intros Hh Hp Hn Ex. pose proof Hp as [[Hu Ha] _ Hd].
  unfold realloc_malloc, reallocated. rewrite (proj2 (Z.eqb_neq n 0)) by lia.
  destruct (_ || _) eqn:Ecase.
  - destruct (realloc_spec h p n Hh Hp Hn Ex) as (h1 & b & -> & Hh1 & Hb & Hb0 & Hbl & Hfr & Hnew & Hsl).
    rewrite bind_Ok, clip_used. do 3 eexists. split; [done|]. simpl.
    split_and!; try done; try lia. split; simpl; done || lia.
  - exists h, p. apply orb_false_iff in Ecase as [Hle _]. rewrite Z.gtb_ltb in Hle. apply Z.ltb_ge in Hle.
    unfold text. destruct (aData p) as [|b o] eqn:Ep; [lia|].
    destruct Hd as (Hb & Ho & Hin & Hm). destruct (Hm Ex) as (-> & Hb0 & Hbl).
    exists b. split_and!; try done; try lia; [split; done || lia| |rewrite take_slice by lia; done].
    intros _. split; [done|]. by exists 0.
Qed.

Lemma realloc_static_spec h p n :
  heap_ok h -> blob_ok h p -> 0 < n -> xRealloc p = blobReallocStatic ->
  exists h1 p1 b, realloc_static junk h p n = Ok (h1, p1) /\ reallocated h p n h1 p1 b.
Proof.
  intros Hh Hp Hn Ex. pose proof Hp as [[Hu Ha] _ Hd]. pose proof (lookup_lt_Some _ _ _ Hh) as Hlen.
  unfold realloc_static, reallocated. rewrite (proj2 (Z.eqb_neq n 0)), clip_used by lia. unfold malloc.
  unfold ld_range, st_range, text. destruct (aData p) as [|b o] eqn:Ep.
  { destruct Hd as (_ & _ & ?). congruence. }
  destruct Hd as (Hb & Ho & Hin & _). rewrite (block_app_l h _ b) by done. rewrite !Z.add_0_r, block_app_last.
  rewrite check_true, bind_Ok by (rewrite !andb_true_iff; repeat split; apply Z.leb_le; lia).
  rewrite bind_Ok. assert (Zlen (slice (block h b) o (Z.min n (nUsed p))) = Z.min n (nUsed p)) as Hsl
    by (apply length_slice; lia).
  rewrite check_true, bind_Ok by (rewrite length_replicate, Hsl; apply Z.leb_le; lia).
  simpl Z.to_nat. rewrite take_0. cbn [app]. rewrite bind_Ok. do 2 eexists. exists (length h).
  split; [done|]. simpl. set (blk := slice _ _ _ ++ drop _ _).
  assert (Zlen blk = n) as Hblk by (unfold blk; rewrite length_app, length_drop, length_replicate; lia).
  assert (<[length h:=blk]> (h ++ [replicate (Z.to_nat n) junk]) = h ++ [blk]) as Hins.
  { rewrite <- (Nat.add_0_r (length h)) at 1. by rewrite insert_app_r. }
  simpl app. rewrite Hins. split_and!; try done; try lia.
  - unfold heap_ok. by rewrite lookup_app_l.
  - split; simpl; try done; try lia; [|by rewrite block_app_last].
    rewrite length_app. simpl. lia.
  - split; [rewrite length_app; lia|]. intros c Hc _. by apply block_app_l.
  - rewrite block_app_last. unfold blk. rewrite slice_app_l by lia. rewrite take_slice by lia.
    by apply slice_all.
Qed.

Lemma call_realloc_spec h p n :
  heap_ok h -> blob_ok h p -> 0 < n ->
  exists h1 p1 b, call_realloc junk h p n = Ok (h1, p1) /\ reallocated h p n h1 p1 b.
Proof.
  intros Hh Hp Hn. unfold call_realloc. destruct (xRealloc p) eqn:Ex;
    [by apply realloc_malloc_spec|by apply realloc_static_spec].
Qed.

(** ** Writing into an owned block *)

Lemma st_range_spec h b i w :
  (b < length h)%nat -> 0 <= i -> i + Zlen w <= Zlen (block h b) ->
  exists h', st_range h (Ptr b 0) i w = Ok h' /\ length h' = length h /\
    (forall c, c <> b -> block h' c = block h c) /\
    block h' b = take (Z.to_nat i) (block h b) ++ w ++ drop (Z.to_nat i + length w) (block h b).
Proof.
  intros Hb Hi Hl. unfold st_range. rewrite Z.add_0_l, check_true, bind_Ok
    by (rewrite andb_true_iff; split; apply Z.leb_le; lia).
  eexists. split; [done|]. split_and!; [apply length_insert| |by apply block_insert_eq].
  intros c Hc. by apply block_insert_ne.
Qed.

Lemma st_spec h b i x :
  (b < length h)%nat -> 0 <= i < Zlen (block h b) ->
  exists h', st h (Ptr b 0) i x = Ok h' /\ length h' = length h /\
    (forall c, c <> b -> block h' c = block h c) /\ block h' b = <[Z.to_nat i := x]> (block h b).
Proof.
  intros Hb Hi. unfold st. rewrite Z.add_0_l, wr_ok, bind_Ok by lia. eexists. split; [done|].
  split_and!; [apply length_insert| |by apply block_insert_eq]. intros c Hc. by apply block_insert_ne.
Qed.

(** Storing [w] at the end of the content and a terminator after it. *)
Lemma write_end h p b w :
  owned h p b (nUsed p + Zlen w) -> 0 <= nUsed p ->
  exists h1 h2, st_range h (aData p) (nUsed p) w = Ok h1 /\
    st h1 (aData p) (nUsed p + Zlen w) 0 = Ok h2 /\ length h2 = length h /\
    (forall c, c <> b -> block h2 c = block h c) /\ Zlen (block h2 b) = Zlen (block h b) /\
    slice (block h2 b) 0 (nUsed p + Zlen w) = slice (block h b) 0 (nUsed p) ++ w /\
    ld h2 (aData p) (nUsed p + Zlen w) = Ok 0.
Proof.
  intros [Hptr _ [Hb Hb0] Hlen Hroom] Hu. rewrite Hptr.
  destruct (st_range_spec h b (nUsed p) w Hb Hu) as (h1 & Hs1 & Hl1 & Hf1 & Hb1); [lia|].
  set (blk := block h b) in *. assert (Zlen (block h1 b) = Zlen blk) as Hbl1.
  { rewrite Hb1, !length_app, length_take, length_drop. lia. }
  destruct (st_spec h1 b (nUsed p + Zlen w) 0) as (h2 & Hs2 & Hl2 & Hf2 & Hb2); [lia|lia|].
  exists h1, h2. split_and!; try done.
  - lia.
  - intros c Hc. by rewrite Hf2, Hf1.
  - by rewrite Hb2, length_insert.
  - rewrite Hb2. unfold slice. simpl. rewrite !drop_0, take_insert_ge by lia.
    rewrite Hb1, app_assoc. apply take_app_length'. rewrite length_app, length_take. lia.
  - unfold ld. rewrite Hb2, Z.add_0_l. apply rd_ok; [lia|]. apply list_lookup_insert_eq. lia.
Qed.

(** ** Appending *)

Lemma ld_range_frame h h' p n w :
  ld_range h p 0 n = Ok w -> (forall b o, p = Ptr b o -> block h' b = block h b) ->
  ld_range h' p 0 n = Ok w.
Proof. unfold ld_range. destruct p as [|b o]; [done|]. intros H Hb. by rewrite (Hb b o eq_refl). Qed.

Lemma ld_range_length h p n w : ld_range h p 0 n = Ok w -> 0 <= n -> Zlen w = n.
Proof.
  unfold ld_range. destruct p as [|b o]; intros H Hn; res_inv.
  - apply Z.eqb_eq in Heqb as ->. done.
  - rewrite !andb_true_iff in Heqb0. destruct Heqb0 as [[H1 H2] H3].
    apply Z.leb_le in H1, H2, H3. by apply length_slice.
Qed.

(** Before the bytes are copied: the blob is in its own block, with room. *)
Lemma append_room h p n :
  heap_ok h -> blob_ok h p -> 0 < n -> nUsed p + n + nAlloc p + 100 < 2^32 ->
  exists h1 p1 b,
    (if u32 (nUsed p + n) >=? nAlloc p then
       '(h, p) ← call_realloc junk h p (u32 (nUsed p + n + nAlloc p + 100));
       _ ← check (negb (u32 (nUsed p + n) >=? nAlloc p)) AssertFailed; Ok (h, p)
     else Ok (h, p)) = Ok (h1, p1) /\
    heap_ok h1 /\ owned h1 p1 b (nUsed p + n) /\ iCursor p1 = iCursor p /\ frame h p h1 /\
    ((b < length h)%nat -> owns p b) /\ nUsed p1 = nUsed p /\
    slice (block h1 b) 0 (nUsed p) = text h p.
Proof.
  intros Hh Hp Hn Hsz. pose proof Hp as [[Hu Ha] Hst Hd].
  rewrite (u32_small (nUsed p + n)), u32_small, Z.geb_leb by lia.
  destruct (Z.leb_spec (nAlloc p) (nUsed p + n)) as [Hge|Hlt].
  - destruct (call_realloc_spec h p (nUsed p + n + nAlloc p + 100) Hh Hp) as
      (h1 & p1 & b & -> & Hh1 & Ho & Hc & Hf & Hown & Hr & Hus & Hsl); [lia|].
    pose proof (ow_room _ _ _ _ Ho) as Hroom. rewrite bind_Ok. rewrite (Hus ltac:(lia)).
    rewrite check_true, bind_Ok by (rewrite u32_small, Z.geb_leb by lia; apply negb_true_iff, Z.leb_gt; lia).
    exists h1, p1, b. rewrite Z.min_r in Hsl by lia.
    rewrite take_ge in Hsl by (pose proof (length_text h p Hp); lia).
    split_and!; try done; [|by apply Hus; lia]. destruct Ho. split; done || lia.
  - exists h, p. destruct (aData p) as [|b o] eqn:Ep; [lia|]. exists b. destruct Hd as (Hb & Ho & Hin & Hm).
    destruct (xRealloc p) eqn:Ex; [|pose proof (Hst eq_refl); lia].
    destruct (Hm eq_refl) as (-> & Hb0 & Hbl). unfold text. rewrite Ep. split_and!; try done.
    intros _. split; [done|]. by exists 0.
Qed.

Lemma append_spec h p src n w :
  heap_ok h -> blob_ok h p -> 0 <= n -> ld_range h src 0 n = Ok w ->
  (forall b o, src = Ptr b o -> (b < length h)%nat /\ ~ owns p b) ->
  nUsed p + n + nAlloc p + 100 < 2^32 ->
  exists h' p', blob_append junk h p src n = Ok (h', p') /\ heap_ok h' /\ blob_ok h' p' /\
    text h' p' = text h p ++ w /\ iCursor p' = iCursor p /\ frame h p h' /\
    (0 < n -> ld h' (aData p') (nUsed p') = Ok 0).
Proof.
  intros Hh Hp Hn Hw Hsrc Hsz. unfold blob_append. rewrite (proj2 (Z.ltb_ge n 0)), bind_Ok by lia.
  pose proof (ld_range_length _ _ _ _ Hw Hn) as Hlw. destruct (Z.eqb_spec n 0) as [E|E].
  { exists h, p. destruct w; [|simpl in Hlw; lia]. rewrite app_nil_r. split_and!; done || lia. }
  destruct (append_room h p n Hh Hp ltac:(lia) Hsz) as (h1 & p1 & b & -> & Hh1 & Ho & Hc & Hf & Hown & Hus & Hsl).
  rewrite bind_Ok. destruct Hf as [Hfl Hff].
  rewrite (ld_range_frame h h1 src n w Hw), bind_Ok by (intros c o ->; destruct (Hsrc c o eq_refl); by apply Hff).
  rewrite u32_small by (destruct Hp as [[? ?] _ _]; lia). rewrite <- Hlw in *.
  destruct (write_end h1 p1 b w) as (h2 & h3 & -> & Hst & Hl3 & Hf3 & Hb3 & Hs3 & Hz); [by rewrite Hus|
    destruct Hp as [[? ?] _ _]; lia|].
  rewrite bind_Ok. cbn [set_used aData nUsed]. rewrite Hst, bind_Ok. do 2 eexists. split; [done|].
  destruct Ho as [Hptr Hk [Hb Hb0] Hbl Hroom]. destruct Hp as [[Hu Ha] _ _]. split_and!.
  - unfold heap_ok in *. destruct (h3 !! 0%nat) as [x|] eqn:E0;
      [|apply lookup_ge_None in E0; apply lookup_lt_Some in Hh1; lia].
    pose proof (Hf3 0%nat ltac:(lia)) as H0. unfold block in H0. rewrite E0, Hh1 in H0. simpl in H0. by subst.
  - split; simpl; [lia| |]; [by rewrite Hk|]. rewrite Hptr. split_and!; try lia.
  - unfold text at 1. simpl. rewrite Hptr, Hs3, Hus, Hsl. done.
  - done.
  - split; [lia|]. intros c Hc' Hno. rewrite Hf3; [by apply Hff|]. intros ->. by apply Hno, Hown.
  - done.
Qed.
End Junk.

(** ** Reading *)

Lemma ld_text h p i :
  blob_ok h p -> 0 <= i < nUsed p -> ld h (aData p) i = Ok (cget (text h p) i).
Proof.
  intros [[Hu ?] _ Hd] Hi. unfold ld, text. destruct (aData p) as [|b o]; [lia|].
  destruct Hd as (Hb & Ho & Hin & _). rewrite rd_cget by lia. f_equal. rewrite !cget_lookup by lia.
  rewrite slice_lookup. rewrite decide_True by lia. do 2 f_equal. lia.
Qed.

(** The length of the longest prefix of characters in [f]. *)
Fixpoint prefix_len (f : Z -> bool) (l : list Z) : Z :=
  match l with [] => 0 | c :: l => if f c then 1 + prefix_len f l else 0 end.

Lemma prefix_len_range f l : 0 <= prefix_len f l <= Zlen l.
Proof. induction l as [|c l IH]; simpl; [lia|]. destruct (f c); lia. Qed.

Lemma drop_cget (l : list Z) i : 0 <= i < Zlen l -> drop (Z.to_nat i) l = cget l i :: drop (Z.to_nat (i + 1)) l.
Proof.
  intros Hi. rewrite (drop_S l (cget l i)) by (by apply lookup_cget). f_equal. f_equal. lia.
Qed.

Lemma skip_while_spec fuel h p f i :
  blob_ok h p -> 0 <= i <= nUsed p -> nUsed p - i <= Z.of_nat fuel ->
  skip_while fuel h (aData p) f i (nUsed p) = Ok (i + prefix_len f (drop (Z.to_nat i) (text h p))).
Proof.
  intros Hp. pose proof (length_text h p Hp) as Hl. revert i.
  induction fuel as [|fuel IH]; intros i Hi Hf; cbn [skip_while].
  - rewrite (proj2 (Z.ltb_ge i _)) by lia. rewrite drop_ge by lia. f_equal. simpl. lia.
  - destruct (Z.ltb_spec i (nUsed p)) as [Hlt|Hge]; [|rewrite drop_ge by lia; f_equal; simpl; lia].
    rewrite ld_text, bind_Ok by (done || lia). rewrite (drop_cget _ i) by lia. cbn [prefix_len].
    destruct (f (cget (text h p) i)); [|f_equal; lia]. rewrite IH by lia. f_equal. lia.
Qed.

Lemma skip_spec h p f i :
  blob_ok h p -> 0 <= i <= nUsed p -> nUsed p < 2^31 ->
  skip h p f i = Ok (i + prefix_len f (drop (Z.to_nat i) (text h p))).
Proof. intros Hp Hi Hn. unfold skip. rewrite to_int_small by lia. apply skip_while_spec; done || lia. Qed.

Lemma ok_cursor h p c : blob_ok h p -> blob_ok h (set_cursor p c).
Proof. intros [? ? ?]. by split. Qed.

Lemma text_cursor h p c : text h (set_cursor p c) = text h p.
Proof. done. Qed.

Lemma slice_slice (z : list Z) i n j m :
  0 <= i -> 0 <= j -> 0 <= m -> j + m <= n -> slice (slice z i n) j m = slice z (i + j) m.
Proof.
  intros Hi Hj Hm Hle. apply list_eq. intros k. rewrite slice_lookup. case_decide as Hk.
  - rewrite !slice_lookup, !decide_True by lia. f_equal. lia.
  - rewrite slice_lookup. by rewrite decide_False by lia.
Qed.

Lemma blob_extract_spec h p N :
  blob_ok h p -> 0 <= iCursor p -> 0 <= N -> iCursor p + N <= nUsed p -> nUsed p < 2^32 ->
  exists pTo, blob_extract p N = (set_cursor p (iCursor p + N), pTo, N) /\ nUsed pTo = N /\
    text h pTo = slice (text h p) (iCursor p) N.
Proof.
  intros Hp Hc HN Hin Hmax. pose proof Hp as [[Hu _] _ Hd]. unfold blob_extract.
  rewrite (u32_small (iCursor p + N)), (u32_small N), Z.gtb_ltb, (proj2 (Z.ltb_ge (nUsed p) _)) by lia.
  eexists. split_and!; [done|done|]. unfold text at 1. simpl. destruct (aData p) as [|b o] eqn:Ep; simpl.
  - unfold text. rewrite Ep. unfold slice. by rewrite drop_nil, take_nil.
  - unfold text. rewrite Ep. destruct Hd as (Hb & Ho & _). symmetry. apply slice_slice; lia.
Qed.

(** ** Tokens *)

Definition nonspace (c : Z) : bool := negb (blob_isspace c).

(** The maximal runs of non-space characters. *)
Fixpoint words_aux (l acc : list Z) : list (list Z) :=
  match l with
  | [] => match acc with [] => [] | _ => [acc] end
  | c :: l =>
      if blob_isspace c then match acc with [] => words_aux l [] | _ => acc :: words_aux l [] end
      else words_aux l (acc ++ [c])
  end.
Definition words (l : list Z) : list (list Z) := words_aux l [].

Lemma words_skip l : words (drop (Z.to_nat (prefix_len blob_isspace l)) l) = words l.
Proof.
  induction l as [|c l IH]; [done|]. simpl. destruct (blob_isspace c) eqn:E.
  - pose proof (prefix_len_range blob_isspace l).
    replace (Z.to_nat (1 + prefix_len blob_isspace l)) with (S (Z.to_nat (prefix_len blob_isspace l))) by lia.
    simpl. rewrite IH. unfold words. simpl. by rewrite E.
  - done.
Qed.

Lemma words_aux_take l acc :
  acc ++ take (Z.to_nat (prefix_len nonspace l)) l <> [] ->
  words_aux l acc =
  (acc ++ take (Z.to_nat (prefix_len nonspace l)) l) :: words (drop (Z.to_nat (prefix_len nonspace l)) l).
Proof.
  revert acc. induction l as [|c l IH]; intros acc Hne.
  { simpl in *. rewrite app_nil_r in *. by destruct acc. }
  simpl in *. change (nonspace c) with (negb (blob_isspace c)) in *.
  destruct (blob_isspace c) eqn:E; simpl in *.
  - rewrite app_nil_r in *. unfold words. simpl. rewrite E. by destruct acc.
  - pose proof (prefix_len_range nonspace l).
    replace (Z.to_nat (1 + prefix_len nonspace l)) with (S (Z.to_nat (prefix_len nonspace l))) in * by lia.
    simpl in *. rewrite IH by (rewrite <- app_assoc; done). by rewrite <- app_assoc.
Qed.

Lemma prefix_len_done f l : prefix_len f (drop (Z.to_nat (prefix_len f l)) l) = 0.
Proof.
  induction l as [|c l IH]; [done|]. simpl. destruct (f c) eqn:E; [|simpl; by rewrite E].
  pose proof (prefix_len_range f l).
  by replace (Z.to_nat (1 + prefix_len f l)) with (S (Z.to_nat (prefix_len f l))) by lia.
Qed.

Lemma words_tok l :
  let l1 := drop (Z.to_nat (prefix_len blob_isspace l)) l in
  let k := prefix_len nonspace l1 in
  words l = if k =? 0 then [] else take (Z.to_nat k) l1 :: words (drop (Z.to_nat k) l1).
Proof.
  intros l1 k. rewrite <- words_skip. fold l1. destruct (Z.eqb_spec k 0) as [E|E].
  - pose proof (prefix_len_done blob_isspace l) as Hd. fold l1 in Hd.
    destruct l1 as [|c r]; [done|]. unfold k in E. simpl in E, Hd. unfold nonspace in E at 1.
    pose proof (prefix_len_range nonspace r). pose proof (prefix_len_range blob_isspace r).
    destruct (blob_isspace c); simpl in E; lia.
  - pose proof (prefix_len_range nonspace l1) as Hr. fold k in Hr. unfold words at 1.
    rewrite words_aux_take; [done|]. fold k. simpl. intros Hn. apply (f_equal length) in Hn.
    rewrite length_take in Hn. simpl in Hn. lia.
Qed.

(** One call of [blob_token]: the next word, or nothing at the end. *)
Lemma blob_token_spec h p :
  blob_ok h p -> 0 <= iCursor p <= nUsed p -> nUsed p < 2^31 ->
  exists pF pT sz, blob_token h p = Ok (pF, pT, sz) /\ sz = Zlen (text h pT) /\
    blob_ok h pF /\ text h pF = text h p /\ 0 <= iCursor pF <= nUsed pF /\ nUsed pF = nUsed p /\
    words (drop (Z.to_nat (iCursor p)) (text h p)) =
      (if sz =? 0 then [] else text h pT :: words (drop (Z.to_nat (iCursor pF)) (text h p))).
Proof.
  intros Hp Hc Hmax. pose proof (length_text h p Hp) as Hl. unfold blob_token.
  change (fun c => negb (blob_isspace c)) with nonspace.
  rewrite (to_int_small (iCursor p)), skip_spec, bind_Ok by (done || lia).
  set (l := drop (Z.to_nat (iCursor p)) (text h p)).
  assert (Zlen l = nUsed p - iCursor p) as Hll by (unfold l; rewrite length_drop; lia).
  set (k0 := prefix_len blob_isspace l). pose proof (prefix_len_range blob_isspace l) as Hk0. fold k0 in Hk0.
  rewrite (u32_small (iCursor p + k0)) by lia.
  rewrite skip_spec, bind_Ok by (try apply ok_cursor; simpl; done || lia). rewrite text_cursor.
  assert (drop (Z.to_nat (iCursor p + k0)) (text h p) = drop (Z.to_nat k0) l) as ->
    by (unfold l; rewrite drop_drop, <- Z2Nat.inj_add by lia; done).
  set (l1 := drop (Z.to_nat k0) l).
  assert (Zlen l1 = Zlen l - k0) as Hl1 by (unfold l1; rewrite length_drop; lia).
  set (k := prefix_len nonspace l1). pose proof (prefix_len_range nonspace l1) as Hk. fold k in Hk.
  cbn [iCursor set_cursor]. replace (iCursor p + k0 + k - (iCursor p + k0)) with k by lia.
  rewrite (to_int_small k) by lia.
  destruct (blob_extract_spec h (set_cursor p (iCursor p + k0)) k) as (pT & -> & HuT & HtT);
    try (simpl; done || lia); [by apply ok_cursor|].
  rewrite skip_spec by (repeat apply ok_cursor; simpl; done || lia). rewrite bind_Ok.
  rewrite !text_cursor in *. cbn [iCursor nUsed set_cursor] in *.
  set (l2 := drop (Z.to_nat (iCursor p + k0 + k)) (text h p)).
  assert (Zlen l2 = Zlen l1 - k) as Hl2 by (unfold l2; rewrite length_drop; lia).
  pose proof (prefix_len_range blob_isspace l2) as Hk2.
  rewrite HuT, (to_int_small k), u32_small by lia.
  do 3 eexists. split; [done|]. cbn [iCursor nUsed set_cursor]. split_and!; try done; try lia.
  - rewrite HtT, length_slice; lia.
  - by repeat apply ok_cursor.
  - rewrite (words_tok l). fold k0 l1 k. rewrite HtT. destruct (k =? 0); [done|]. f_equal.
    + unfold slice, l1, l. by rewrite drop_drop, <- Z2Nat.inj_add by lia.
    + rewrite Z2Nat.inj_add, <- (drop_drop (text h p)) by lia. fold l2. rewrite words_skip. f_equal.
      unfold l2, l1, l. by rewrite !drop_drop, <- !Z2Nat.inj_add, Z.add_assoc by lia.
Qed.

(** ** Resizing and block copies *)

Lemma zero_ok h : heap_ok h -> blob_ok h blob_zero.
Proof.
  intros Hh. split; simpl; try done; try lia. split_and!; try done; try lia.
  by apply lookup_lt_Some in Hh.
Qed.

Lemma zero_owns b : ~ owns blob_zero b.
Proof. by intros [? _]. Qed.

Lemma heap_ok_keep h h' b :
  heap_ok h -> length h' = length h -> b <> 0%nat -> (forall c, c <> b -> block h' c = block h c) -> heap_ok h'.
Proof.
  intros Hh Hl Hb Hf. unfold heap_ok in *. pose proof (lookup_lt_Some _ _ _ Hh).
  destruct (h' !! 0%nat) as [x|] eqn:E0; [|apply lookup_ge_None in E0; lia].
  pose proof (Hf 0%nat ltac:(lia)) as H0. unfold block in H0. rewrite E0, Hh in H0. simpl in H0. by subst.
Qed.

Section Resize.
Context (junk : Z).

Lemma resize_spec h p n :
  heap_ok h -> blob_ok h p -> 0 <= n -> n + 1 < 2^32 ->
  exists h' p' b, blob_resize junk h p n = Ok (h', p') /\ heap_ok h' /\ blob_ok h' p' /\
    owned h' p' b n /\ nUsed p' = n /\ frame h p h' /\ ((b < length h)%nat -> owns p b) /\
    take (Z.to_nat (Z.min n (nUsed p))) (text h' p') = take (Z.to_nat n) (text h p).
Proof.
  intros Hh Hp Hn Hmax. pose proof Hp as [[Hu _] _ _]. unfold blob_resize. rewrite u32_small by lia.
  destruct (call_realloc_spec junk h p (n + 1) Hh Hp) as
    (h1 & p1 & b & -> & Hh1 & Ho & Hc & Hf & Hown & Hr & Hus & Hsl); [lia|].
  destruct Ho as [Hptr Hk [Hb Hb0] Hlen Hroom]. rewrite bind_Ok. cbn [set_used aData nUsed]. rewrite Hptr.
  destruct (st_spec h1 b n 0 Hb) as (h2 & -> & Hl2 & Hf2 & Hb2); [lia|]. rewrite bind_Ok.
  assert (Zlen (block h2 b) = nAlloc p1) as Hlen2 by (rewrite Hb2, length_insert; lia).
  do 3 eexists. split; [done|]. split_and!.
  - by apply (heap_ok_keep h1 h2 b).
  - split; simpl; [lia|by rewrite Hk|]. rewrite Hptr. split_and!; try lia.
  - split; simpl; done || lia.
  - done.
  - destruct Hf as [Hfl Hff]. split; [lia|]. intros c Hc' Hno. rewrite Hf2; [by apply Hff|].
    intros ->. by apply Hno, Hown.
  - done.
  - unfold text at 1. simpl. rewrite Hptr, take_slice, Hb2 by lia.
    replace (Z.min (Z.min n (nUsed p)) n) with (Z.min n (nUsed p)) by lia.
    assert (take (Z.to_nat n) (text h p) = take (Z.to_nat n) (take (Z.to_nat (n + 1)) (text h p))) as ->
      by (rewrite take_take; f_equal; lia).
    rewrite <- Hsl, take_slice by lia. unfold slice. simpl. rewrite !drop_0.
    replace (Z.min n (Z.min (n + 1) (nUsed p))) with (Z.min n (nUsed p)) by lia.
    by rewrite take_insert_ge by lia.
Qed.

(** Overwriting a range of an owned blob keeps everything but its content. *)
Lemma overwrite_spec h p b n i w :
  heap_ok h -> owned h p b n -> 0 <= i -> i + Zlen w <= n ->
  exists h', st_range h (aData p) i w = Ok h' /\ heap_ok h' /\ owned h' p b n /\ length h' = length h /\
    (forall c, c <> b -> block h' c = block h c) /\
    block h' b = take (Z.to_nat i) (block h b) ++ w ++ drop (Z.to_nat i + length w) (block h b).
Proof.
  intros Hh [Hptr Hk [Hb Hb0] Hlen Hroom] Hi Hw. rewrite Hptr.
  destruct (st_range_spec h b i w Hb Hi) as (h' & -> & Hl & Hf & Hbl); [lia|].
  exists h'. split_and!; try done; [by apply (heap_ok_keep h h' b)|].
  split; try done; [lia|]. rewrite Hbl, !length_app, length_take, length_drop. lia.
Qed.

Lemma owned_ok h p b n : owned h p b n -> nUsed p = n -> 0 <= n -> blob_ok h p.
Proof.
  intros [Hptr Hk [Hb Hb0] Hlen Hroom] Hu Hn. split; [lia|by rewrite Hk|]. rewrite Hptr. split_and!; try done; lia.
Qed.
End Resize.

(** ** Claims *)

(** C27. [blob_append] to a blob that is well formed, of bytes the blob does not
    own, returns without leaving a block; the content becomes the old content
    followed by the bytes, terminated by a NUL, the cursor stays, and no memory
    changes but what the blob owns (in particular the constant or parent blob an
    ephemeral blob points into is left alone). *)
Theorem blob_append_spec junk h p src n w :
  heap_ok h -> blob_ok h p -> 0 <= n -> ld_range h src 0 n = Ok w ->
  (forall b o, src = Ptr b o -> (b < length h)%nat /\ ~ owns p b) ->
  nUsed p + n + nAlloc p + 100 < 2^32 ->
  exists h' p', blob_append junk h p src n = Ok (h', p') /\ heap_ok h' /\ blob_ok h' p' /\
    text h' p' = text h p ++ w /\ iCursor p' = iCursor p /\ frame h p h' /\
    (0 < n -> ld h' (aData p') (nUsed p') = Ok 0).
Proof. apply append_spec. Qed.

Definition heap2 : heap := [[0]; cstr "two words "%string ++ [0]].
Definition blob2 : Blob := MkBlob 10 10 0 (Ptr 1 0) blobReallocStatic.

Lemma blob2_ok : heap_ok heap2 /\ blob_ok heap2 blob2.
Proof.
  split; [done|]. split; [simpl; lia|simpl; lia|]. simpl.
  split_and!; [lia|lia|vm_compute; discriminate|done].
Qed.

Lemma blob_append_spec_witness :
  exists h' p', blob_append 170 heap2 blob2 (Ptr 1 4) 5 = Ok (h', p') /\ heap_ok h' /\ blob_ok h' p' /\
    text h' p' = text heap2 blob2 ++ cstr "words"%string /\ iCursor p' = 0 /\ frame heap2 blob2 h' /\
    (0 < 5 -> ld h' (aData p') (nUsed p') = Ok 0).
Proof.
  apply (blob_append_spec 170 heap2 blob2 (Ptr 1 4) 5 (cstr "words"%string));
    [apply blob2_ok|apply blob2_ok|lia|reflexivity| |simpl; lia].
  intros b o [= <- _]. split; [simpl; lia|]. by intros [? _].
Defined.

(** [blob_tokenize] splits the text after the cursor at white space: the
    blobs it fills are the first [nToken] words, as parts of the original
    buffer, and it stops earlier only when there are no more. *)
Lemma blob_tokenize_spec h p nToken :
  blob_ok h p -> 0 <= iCursor p <= nUsed p -> nUsed p < 2^31 ->
  exists p' ts, blob_tokenize h p nToken = Ok (p', ts) /\
    text h <$> ts = take nToken (words (drop (Z.to_nat (iCursor p)) (text h p))).
Proof.
  revert p. induction nToken as [|n IH]; intros p Hp Hc Hmax; cbn [blob_tokenize].
  { exists p, []. done. }
  destruct (blob_token_spec h p Hp Hc Hmax) as (pF & pT & sz & -> & Hsz & HpF & HtF & HcF & HuF & ->).
  rewrite bind_Ok. destruct (Z.eqb_spec sz 0) as [E|E].
  { exists pF, []. by rewrite take_nil. }
  destruct (IH pF HpF HcF) as (p' & ts & -> & Hts); [lia|]. rewrite bind_Ok.
  exists p', (pT :: ts). split; [done|]. rewrite fmap_cons, Hts, HtF. done.
Qed.

Lemma blob_tokenize_spec_witness :
  exists p' ts, blob_tokenize heap2 blob2 5 = Ok (p', ts) /\
    text heap2 <$> ts = [cstr "two"%string; cstr "words"%string].
Proof. apply (blob_tokenize_spec heap2 blob2 5); [apply blob2_ok|simpl; lia|simpl; lia]. Defined.

(** ** Compression *)

Lemma be32_length n : length (be32 n) = 4%nat.
Proof. done. Qed.

Lemma be32_value n :
  0 <= n < 2^32 ->
  u32 (Z.shiftl (cget (be32 n) 0) 24 + Z.shiftl (cget (be32 n) 1) 16 +
       Z.shiftl (cget (be32 n) 2) 8 + cget (be32 n) 3) = n.
Proof.
  intros Hn. unfold be32, cget. simpl nth. change 255 with (Z.ones 8). rewrite !Z.land_ones by lia.
  rewrite !Z.shiftr_div_pow2, !Z.shiftl_mul_pow2 by lia.
  change (2^24) with (256 * 256 * 256). change (2^16) with (256 * 256). change (2^8) with 256.
  rewrite <- !Z.div_div by lia. change (2^32) with 4294967296 in Hn.
  change (0 <? 0) with false. change (1 <? 0) with false. change (2 <? 0) with false.
  change (3 <? 0) with false. cbv iota. unfold u32. change (2^32) with 4294967296. rewrite Z.mod_small; dlia.
Qed.

Section Compress.
Context (junk : Z) (compress : list Z -> list Z) (uncompress : list Z -> Z -> option (list Z)).
(** zlib: the output of [compress] fits in a block 0.1% larger than the input
    plus 13 bytes and is not empty; [uncompress] finds the end of the data by
    itself and restores the input given room for it. *)
Hypothesis compress_bound : forall x, 0 < Zlen (compress x) <= 13 + Zlen x + (Zlen x + 999) / 1000.
Hypothesis uncompress_compress : forall x rest, uncompress (compress x ++ rest) (Zlen x) = Some x.

(** The compressed blob holds the size and the compressed bytes, in a block of
    its own that did not exist before. *)
Lemma compress_spec h p :
  heap_ok h -> blob_ok h p -> nUsed p < 2^31 ->
  exists h1 c b, blob_compress junk compress h p = Ok (h1, c) /\ heap_ok h1 /\ blob_ok h1 c /\
    aData c = Ptr b 0 /\ text h1 c = be32 (nUsed p) ++ compress (text h p).
Proof.
  intros Hh Hp Hmax. pose proof (length_text h p Hp) as Hlt. pose proof Hp as [[Hu _] _ _].
  pose proof (compress_bound (text h p)) as Hcb. rewrite Hlt in Hcb.
  set (out := compress (text h p)) in *. unfold blob_compress, blob_size.
  assert (13 + nUsed p + (nUsed p + 999) / 1000 + 4 + 1 < 2^32) as Hbig by dlia.
  assert (0 <= (nUsed p + 999) / 1000) as Hpos by dlia.
  rewrite (u32_small (nUsed p + 999)), !u32_small by lia.
  set (nOut := 13 + nUsed p + (nUsed p + 999) / 1000) in *.
  destruct (resize_spec junk h blob_zero (nOut + 4) Hh (zero_ok h Hh)) as
    (h1 & t & b & -> & Hh1 & _ & Ho1 & Hu1 & Hf1 & Hown & _); [lia|lia|]. rewrite bind_Ok.
  assert (~ (b < length h)%nat) as Hnew by (intros Hb; by apply (zero_owns b), Hown).
  destruct (overwrite_spec h1 t b (nOut + 4) 0 (be32 (nUsed p)) Hh1 Ho1) as
    (h2 & -> & Hh2 & Ho2 & Hl2 & Hf2 & Hb2); [lia|rewrite be32_length; lia|]. rewrite bind_Ok.
  rewrite (ld_range_frame h h2 (aData p) (nUsed p) (text h p)), bind_Ok.
  2: by apply ld_range_text.
  2:{ intros c o Ec. destruct Hp as [_ _ Hd]. rewrite Ec in Hd. destruct Hd as (Hc & _).
      rewrite Hf2 by (intros ->; done). apply Hf1; [done|apply zero_owns]. }
  fold out. rewrite check_true, bind_Ok by (apply Z.leb_le; lia).
  destruct (overwrite_spec h2 t b (nOut + 4) 4 out Hh2 Ho2) as
    (h3 & -> & Hh3 & Ho3 & Hl3 & Hf3 & Hb3); [lia|lia|]. rewrite bind_Ok.
  rewrite u32_small by lia.
  destruct (resize_spec junk h3 t (Zlen out + 4) Hh3 (owned_ok _ _ _ _ Ho3 Hu1 ltac:(lia))) as
    (h4 & c & b4 & -> & Hh4 & Hc4 & Ho4 & Hu4 & _ & _ & Htx); [lia|lia|].
  exists h4, c, b4. split_and!; try done; [apply Ho4|].
  rewrite Z.min_l in Htx by lia. rewrite take_ge in Htx by (pose proof (length_text h4 c Hc4); lia).
  rewrite Htx. unfold text. rewrite (ow_ptr _ _ _ _ Ho3), take_slice, Hb3, Hb2 by lia. rewrite Hu1.
  unfold slice. simpl. rewrite ?drop_0, Z.min_l by lia.
  change (Pos.to_nat 4) with 4%nat. rewrite app_comm_cons. simpl.
  replace (Z.to_nat (Zlen out + 4)) with (4 + length out)%nat by lia. simpl. do 4 f_equal.
  by apply take_app_length'.
Qed.

(** C29. Compression round trip: given zlib's contract, [blob_uncompress] applied
    to the result of [blob_compress] succeeds and yields a blob with the original
    content; neither leaves a block. *)
Theorem blob_compress_roundtrip h p :
  heap_ok h -> blob_ok h p -> nUsed p < 2^31 ->
  exists h1 c h2 q, blob_compress junk compress h p = Ok (h1, c) /\
    blob_uncompress junk uncompress h1 c = Ok (h2, Some q, 0) /\ blob_ok h2 q /\ text h2 q = text h p.
Proof.
  intros Hh Hp Hmax. destruct (compress_spec h p Hh Hp Hmax) as (h1 & c & b & Hcmp & Hh1 & Hc1 & Hptr & Htx).
  pose proof (length_text h p Hp) as Hlt. pose proof Hp as [[Hu _] _ _].
  pose proof (length_text h1 c Hc1) as Hlc. rewrite Htx, length_app, be32_length in Hlc.
  pose proof (compress_bound (text h p)) as Hcb. set (out := compress (text h p)) in *.
  exists h1, c. unfold blob_uncompress, blob_size. rewrite (proj2 (Z.leb_gt (nUsed c) 4)) by lia.
  pose proof Hc1 as [_ _ Hd]. rewrite Hptr in Hd. destruct Hd as (Hb & _ & Hin & _).
  assert (slice (block h1 b) 0 (nUsed c) = be32 (nUsed p) ++ out) as Hblk
    by (rewrite <- Htx; unfold text; by rewrite Hptr).
  assert (slice (block h1 b) 0 4 = be32 (nUsed p) /\ slice (block h1 b) 4 (Zlen out) = out) as [Hhd Hout].
  { replace (nUsed c) with (4 + Zlen out) in Hblk by lia. rewrite <- slice_app_slice in Hblk by lia.
    apply app_inj_1 in Hblk; [done|]. rewrite be32_length.
    pose proof (length_slice (block h1 b) 0 4). lia. }
  assert (ld_range h1 (aData c) 0 4 = Ok (be32 (nUsed p))) as ->.
  { rewrite Hptr. unfold ld_range. rewrite check_true, bind_Ok
      by (rewrite !andb_true_iff; repeat split; apply Z.leb_le; lia). f_equal. exact Hhd. }
  rewrite bind_Ok, be32_value by lia. rewrite (u32_small (nUsed p + 1)) by lia.
  destruct (resize_spec junk h1 blob_zero (nUsed p + 1) Hh1 (zero_ok h1 Hh1)) as
    (h2 & t & b2 & -> & Hh2 & _ & Ho2 & Hu2 & Hf2 & Hown & _); [lia|lia|]. rewrite bind_Ok, Hptr.
  rewrite (proj2 Hf2 b Hb (zero_owns b)), Z.add_0_l.
  assert (exists rest, slice (block h1 b) 4 (nUsed c) = out ++ rest) as [rest ->].
  { exists (slice (block h1 b) (4 + Zlen out) 4). replace (nUsed c) with (Zlen out + 4) by lia.
    rewrite <- slice_app_slice by lia. by rewrite Hout. }
  unfold out. rewrite <- Hlt, uncompress_compress, Hlt. cbv iota.
  rewrite check_true, bind_Ok by (apply Z.leb_le; lia).
  destruct (overwrite_spec h2 t b2 (nUsed p + 1) 0 (text h p) Hh2 Ho2) as
    (h3 & -> & Hh3 & Ho3 & Hl3 & Hf3 & Hb3); [lia|lia|]. rewrite bind_Ok.
  destruct (resize_spec junk h3 t (nUsed p) Hh3 (owned_ok _ _ _ _ Ho3 Hu2 ltac:(lia))) as
    (h4 & q & b4 & -> & Hh4 & Hq & Ho4 & Hu4 & _ & _ & Hq'); [lia|lia|].
  rewrite bind_Ok. exists h4, q. split_and!; try done.
  rewrite Z.min_l in Hq' by lia. rewrite take_ge in Hq' by (pose proof (length_text h4 q Hq); lia).
  rewrite Hq'. unfold text at 1. rewrite (ow_ptr _ _ _ _ Ho3), take_slice, Hb3 by lia.
  rewrite Hu2, Z.min_l by lia. unfold slice. simpl. rewrite ?drop_0. apply take_app_length'. lia.
Qed.
End Compress.

(** A codec that stores its input after one byte. *)
Definition store_compress (x : list Z) : list Z := 120 :: x.
Definition store_uncompress (s : list Z) (n : Z) : option (list Z) :=
  match s with [] => None | _ :: s => Some (take (Z.to_nat n) s) end.

Lemma blob_compress_roundtrip_witness :
  exists h1 c h2 q, blob_compress 170 store_compress heap2 blob2 = Ok (h1, c) /\
    blob_uncompress 170 store_uncompress h1 c = Ok (h2, Some q, 0) /\ blob_ok h2 q /\
    text h2 q = text heap2 blob2.
Proof.
  apply (blob_compress_roundtrip 170 store_compress store_uncompress);
    [| |apply blob2_ok|apply blob2_ok|reflexivity].
  - intros x. unfold store_compress. simpl length. dlia.
  - intros x rest. simpl. by rewrite take_app_length' by lia.
Defined.

(** Appending to a trimmed ephemeral blob overwrites the memory it points
    into: [blob_trim] lowers [nUsed] below [nAlloc], so [blob_append] finds room
    and writes there, although the blob does not own the block.  Here the blob
    over a string constant is trimmed and extended by one byte, and the constant
    has changed. *)
Lemma blob_append_after_trim :
  exists p h' p', blob_trim (heap2 ++ [cstr "x  "%string ++ [0]])
      (MkBlob 3 3 0 (Ptr 2 0) blobReallocStatic) = Ok (p, 1) /\
    blob_append 170 (heap2 ++ [cstr "x  "%string ++ [0]]) p (Ptr 1 0) 1 = Ok (h', p') /\
    block h' 2 = cstr "xt"%string ++ [0; 0] /\ xRealloc p' = blobReallocStatic.
Proof. do 3 eexists. do 3 (split; [vm_compute; reflexivity|]). reflexivity. Qed.

(** A seek to before the start of a blob ends up at its end: the cursor is
    unsigned, so the test for a negative cursor never holds and the wrapped value
    is cut to the size. *)
Lemma blob_seek_before_start p k :
  0 <= iCursor p <= nUsed p -> nUsed p < 2^31 -> iCursor p < k <= 2^31 ->
  blob_seek p (- k) BLOB_SEEK_CUR = (set_cursor p (nUsed p), nUsed p).
Proof.
  intros Hc Hu Hk. unfold blob_seek. simpl. unfold u32.
  replace ((iCursor p + - k) mod 2^32) with (iCursor p - k + 2^32).
  - by rewrite Z.gtb_ltb, (proj2 (Z.ltb_lt (nUsed p) _)), to_int_small by lia.
  - rewrite <- (Z.mod_small (iCursor p - k + 2^32) (2^32)) by lia.
    rewrite <- (Z.mod_add (iCursor p + - k) 1 (2^32)) by lia. f_equal; lia.
Qed.

Lemma blob_seek_before_start_witness : blob_seek blob2 (- 1) BLOB_SEEK_CUR = (set_cursor blob2 10, 10).
Proof. apply (blob_seek_before_start blob2 1); simpl; lia. Defined.
