(* ===== verification/Diff.v ===== *)
(** * Line differences

    Models [src/src/ssfossil/fossil/src/diff.c]: the diff engine behind file
    merges, the diff commands and annotation.

    A text is the list of its bytes; the pointer [DLine.z] is the text from the
    start of the line on.  The arrays of lines are accessed through [rd] and
    [wr].  The edit script [aEdit] is the list of the [nEdit] integers in use,
    [None] for the null pointer, with [nEditAlloc] the number allocated; whether
    [realloc] succeeds is the parameter [realloc_ok].  The scores are IEEE
    doubles: [score] computes in the specification floats with 53 bits.  The
    integers are [int]s: the sums of two line numbers, the new size of the script
    and the product of the sizes of two ranges are checked ([i32]); the other
    sums stay below the number of lines or of edits.

    The unified diff of [contextDiff] is a list of output items, rendered to
    bytes by [render]. *)

From S2P Require Import Prelude Encode.
From Stdlib Require Import Floats.SpecFloat.

(** ** Lines *)

Definition LENGTH_MASK : Z := 8191.

Record DLine := MkDLine { dz : list Z; dh : Z; diNext : Z; diHash : Z }.

(** The counting loop: the number of lines, or [None] for a binary file or a
    line that is too long. *)
Fixpoint count_lines (z : list Z) (j nLine : Z) : option Z :=
  match z with
  | [] => if j >? LENGTH_MASK then None else Some nLine
  | c :: z =>
      if c =? 0 then None
      else if (c =? 10) && negb (cget z 0 =? 0) then
        if j >? LENGTH_MASK then None else count_lines z 1 (nLine + 1)
      else count_lines z (j + 1) nLine
  end.

(** [for(j=0; z[j] && z[j]!='\n'; j++){}] *)
Fixpoint line_len (z : list Z) : Z :=
  match z with
  | [] => 0
  | c :: z => if (c =? 0) || (c =? 10) then 0 else 1 + line_len z
  end.

(** [while( ignoreWS && k>0 && isspace(z[k-1]) ){ k--; }] *)
Fixpoint trim_ws (ignoreWS : bool) (z : list Z) (k : nat) : Z :=
  match k with
  | O => 0
  | S m => if ignoreWS && isspace (schar (cget z (Z.of_nat m))) then trim_ws ignoreWS z m else Z.of_nat k
  end.

Definition line_hash (z : list Z) : Z :=
  foldl (fun h c => Z.lxor (Z.lxor h (u32 (Z.shiftl h 2))) (u32 (schar c))) 0 z.

(** [h] and the length [k] of the line at the start of [z]. *)
Definition dline_h (ignoreWS : bool) (z : list Z) : Z :=
  let k := trim_ws ignoreWS z (Z.to_nat (line_len z)) in
  Z.lor (u32 (Z.shiftl (line_hash (take (Z.to_nat k) z)) 13)) k.

(** The loop that fills the array, with [m] lines to go. *)
Fixpoint fill_lines (m : nat) (ignoreWS : bool) (nLine i : Z) (z : list Z) (a : list DLine) :
    result (list DLine) :=
  match m with
  | O => Ok a
  | S m =>
      let h := dline_h ignoreWS z in
      let h2 := h mod nLine in
      x ← rd a i;
      a ← wr a i (MkDLine z h (diNext x) (diHash x));
      y ← rd a h2;
      x ← rd a i;
      a ← wr a i (MkDLine (dz x) (dh x) (diHash y) (diHash x));
      y ← rd a h2;
      a ← wr a h2 (MkDLine (dz y) (dh y) (diNext y) (i + 1));
      fill_lines m ignoreWS nLine (i + 1) (drop (Z.to_nat (line_len z + 1)) z) a
  end.

Definition break_into_lines (z : list Z) (ignoreWS : bool) : result (option (list DLine)) :=
  match count_lines z 0 1 with
  | None => Ok None
  | Some nLine =>
      a ← fill_lines (Z.to_nat nLine) ignoreWS nLine 0 z
            (replicate (Z.to_nat nLine) (MkDLine [] 0 0 0));
      Ok (Some a)
  end.

(** [memcmp] of the first [n] bytes is zero. *)
Definition same_bytes (x y : list Z) (n : Z) : bool :=
  bool_decide (take (Z.to_nat n) x = take (Z.to_nat n) y).

Definition same_dline (pA pB : DLine) : bool :=
  (dh pA =? dh pB) && same_bytes (dz pA) (dz pB) (Z.land (dh pA) LENGTH_MASK).

(** ** The edit script *)

Record DContext := MkDContext { aEdit : option (list Z); nEditAlloc : Z }.
Definition edits (p : DContext) : list Z := default [] (aEdit p).

Section Realloc.
Context (realloc_ok : Z -> bool).

Definition expandEdit (p : DContext) (nEdit : Z) : DContext :=
  if realloc_ok nEdit then MkDContext (Some (take (Z.to_nat nEdit) (edits p))) nEdit
  else MkDContext None 0.

(** [aEdit[nEdit++] = x] *)
Definition put_edit (p : DContext) (x : Z) : result DContext :=
  _ ← check (Zlen (edits p) <? nEditAlloc p) OutOfBounds;
  Ok (MkDContext (Some (edits p ++ [x])) (nEditAlloc p)).

(** [aEdit[nEdit-i] += x] *)
Definition add_edit (e : list Z) (i x : Z) : result (list Z) :=
  y ← rd e (Zlen e - i); wr e (Zlen e - i) (y + x).

Definition appendTriple (p : DContext) (nCopy nDel nIns : Z) : result DContext :=
  let e := edits p in
  let ret e := Ok (MkDContext (Some e) (nEditAlloc p)) in
  let push :=
    p ← (if Zlen e + 3 >? nEditAlloc p then n ← i32 (Zlen e * 2 + 15); Ok (expandEdit p n) else Ok p);
    match aEdit p with
    | None => Ok p
    | Some _ => p ← put_edit p nCopy; p ← put_edit p nDel; put_edit p nIns
    end in
  if Zlen e >=? 3 then
    x1 ← rd e (Zlen e - 1);
    x2 ← rd e (Zlen e - 2);
    if (x1 =? 0) && (x2 =? 0) then
      e ← add_edit e 3 nCopy; e ← add_edit e 2 nDel; e ← add_edit e 1 nIns; ret e
    else if (x1 =? 0) && (nCopy =? 0) then
      e ← add_edit e 2 nDel; e ← add_edit e 1 nIns; ret e
    else if (nCopy =? 0) && (nDel =? 0) then
      e ← add_edit e 1 nIns; ret e
    else push
  else push.

(** ** Common sequences *)

Section Files.
(** [aFrom] is the memory from the start of the array on: its [nFrom] lines and
    what follows them. *)
Context (aFrom aTo : list DLine) (nFrom : Z).
Let nTo := Zlen aTo.

(** [same_dline(&p->aFrom[i], &p->aTo[j])] *)
Definition same_at (i j : Z) : result bool :=
  x ← rd aFrom i; y ← rd aTo j; Ok (same_dline x y).

(** The number of equal lines from [i] and [j] forward, below the two ends, and
    backward, above the two starts. *)
Fixpoint extend_fwd (fuel : nat) (i j iE1 iE2 : Z) : result Z :=
  if (i <? iE1) && (j <? iE2) then
    s ← same_at i j;
    if (s : bool) then
      match fuel with
      | O => Fault OutOfFuel
      | S fuel => k ← extend_fwd fuel (i + 1) (j + 1) iE1 iE2; Ok (k + 1)
      end
    else Ok 0
  else Ok 0.

Fixpoint extend_back (fuel : nat) (i j iS1 iS2 : Z) : result Z :=
  if (i >? iS1) && (j >? iS2) then
    s ← same_at (i - 1) (j - 1);
    if (s : bool) then
      match fuel with
      | O => Fault OutOfFuel
      | S fuel => k ← extend_back fuel (i - 1) (j - 1) iS1 iS2; Ok (k + 1)
      end
    else Ok 0
  else Ok 0.

(** A common segment: lines [sX] to [eX - 1] of one file and [sY] to [eY - 1] of
    the other. *)
Record seg := Seg { sX : Z; eX : Z; sY : Z; eY : Z }.

(** One candidate of [optimalLCS]; the best so far is [(mxLength, iSXb, iSYb)]. *)
Definition try_pair (iE1 iE2 i j : Z) (b : Z * Z * Z) : result (Z * Z * Z) :=
  let '(mx, bx, by_) := b in
  s ← same_at i j;
  if negb s then Ok b
  else
    s2 ← (if mx =? 0 then Ok true else same_at (i + mx) (j + mx));
    if negb s2 then Ok b
    else
      k ← extend_fwd (Z.to_nat (iE1 - i)) (i + 1) (j + 1) iE1 iE2;
      let k := k + 1 in
      Ok (if k >? mx then (k, i, j) else b).

Fixpoint lcs_inner (fuel : nat) (iE1 iE2 i j : Z) (b : Z * Z * Z) : result (Z * Z * Z) :=
  if j <? iE2 - fst (fst b) then
    match fuel with
    | O => Fault OutOfFuel
    | S fuel => b ← try_pair iE1 iE2 i j b; lcs_inner fuel iE1 iE2 i (j + 1) b
    end
  else Ok b.

Fixpoint lcs_outer (fuel : nat) (iE1 iS2 iE2 i : Z) (b : Z * Z * Z) : result (Z * Z * Z) :=
  if i <? iE1 - fst (fst b) then
    match fuel with
    | O => Fault OutOfFuel
    | S fuel =>
        b ← lcs_inner (Z.to_nat (iE2 - iS2)) iE1 iE2 i iS2 b;
        lcs_outer fuel iE1 iS2 iE2 (i + 1) b
    end
  else Ok b.

Definition optimalLCS (iS1 iE1 iS2 iE2 : Z) : result seg :=
  '(mx, bx, by_) ← lcs_outer (Z.to_nat (iE1 - iS1)) iE1 iS2 iE2 iS1 (0, iS1, iS2);
  Ok (Seg bx (bx + mx) by_ (by_ + mx)).

(** The search for a line of [aTo] like line [i] of [aFrom], along a hash chain;
    at most twelve steps. *)
Fixpoint chain (fuel : nat) (i iS2 iE2 j limit : Z) : result Z :=
  if j >? 0 then
    bad ← (if (j - 1 <? iS2) || (j >=? iE2) then Ok true
           else s ← same_at i (j - 1); Ok (negb s));
    if (bad : bool) then
      if limit >? 10 then Ok 0
      else match fuel with
           | O => Fault OutOfFuel
           | S fuel => y ← rd aTo (j - 1); chain fuel i iS2 iE2 (diNext y) (limit + 1)
           end
    else Ok j
  else Ok j.

(** C's conversion of an [int] to [double], and the constants 0.05 and -1e30. *)
Definition f64 (z : Z) : spec_float := binary_normalize 53 1024 z 0 false.
Definition f005 : spec_float := S754_finite false 7205759403792794 (-57).
Definition f_neg1e30 : spec_float := f64 (- 10 ^ 30).

Definition score (len skew dist : Z) : spec_float :=
  let sub := SFsub 53 1024 in
  let mul := SFmul 53 1024 in
  sub (sub (f64 len) (mul f005 (f64 skew))) (mul f005 (f64 dist)).

(** Integer division truncates towards zero. *)
Definition half (z : Z) : Z := Z.quot z 2.

Record lcs_state := Lcs { bestScore : spec_float; seg_b : seg; seg_p : seg }.

(** The body of the loop over [aFrom]. *)
Definition lcs_line (iS1 iE1 iS2 iE2 mid i : Z) (s : lcs_state) : result lcs_state :=
  x ← rd aFrom i;
  y ← rd aTo (dh x mod nTo);
  j ← chain 12 i iS2 iE2 (diHash y) 0;
  if j =? 0 then Ok s
  else
    let b := seg_b s in
    let p := seg_p s in
    _ ← check ((i >=? sX b) && (i >=? sX p)) AssertFailed;
    if (i <? eX b) && (j >=? sY b) && (j <? eY b) then Ok s
    else if (i <? eX p) && (j >=? sY p) && (j <? eY p) then Ok s
    else
      kb ← extend_back (Z.to_nat (i - iS1)) i (j - 1) iS1 iS2;
      kf ← extend_fwd (Z.to_nat (iE1 - i)) (i + 1) j iE1 iE2;
      let m := Seg (i - kb) (i + 1 + kf) (j - 1 - kb) (j + kf) in
      let skew := Z.abs ((sX m - iS1) - (sY m - iS2)) in
      t ← i32 (sX m + eX m);
      let dist := Z.abs (half t - mid) in
      let sc := score (eX m - sX m) skew dist in
      Ok (if SFltb (bestScore s) sc then Lcs sc m p else Lcs (bestScore s) b m).

Fixpoint lcs_loop (fuel : nat) (iS1 iE1 iS2 iE2 mid i : Z) (s : lcs_state) : result lcs_state :=
  if i <? iE1 then
    match fuel with
    | O => Fault OutOfFuel
    | S fuel => s ← lcs_line iS1 iE1 iS2 iE2 mid i s; lcs_loop fuel iS1 iE1 iS2 iE2 mid (i + 1) s
    end
  else Ok s.

Definition longestCommonSequence (iS1 iE1 iS2 iE2 : Z) : result seg :=
  let m0 := Seg iS1 iS1 iS2 iS2 in
  t ← i32 (iE1 + iS1);
  s ← lcs_loop (Z.to_nat (iE1 - iS1)) iS1 iE1 iS2 iE2 (half t) iS1 (Lcs f_neg1e30 m0 m0);
  let b := seg_b s in
  exact ← (if sX b =? eX b then n ← i32 ((iE1 - iS1) * (iE2 - iS2)); Ok (n <? 400) else Ok false);
  if (exact : bool) then optimalLCS iS1 iE1 iS2 iE2 else Ok b.

(** ** Divide and conquer *)

Fixpoint diff_step (fuel : nat) (p : DContext) (iS1 iE1 iS2 iE2 : Z) : result DContext :=
  match fuel with
  | O => Fault OutOfFuel
  | S fuel =>
      if iE1 <=? iS1 then
        if iE2 >? iS2 then appendTriple p 0 0 (iE2 - iS2) else Ok p
      else if iE2 <=? iS2 then appendTriple p 0 (iE1 - iS1) 0
      else
        m ← longestCommonSequence iS1 iE1 iS2 iE2;
        if eX m >? sX m then
          p ← diff_step fuel p iS1 (sX m) iS2 (sY m);
          p ← appendTriple p (eX m - sX m) 0 0;
          diff_step fuel p (eX m) iE1 (eY m) iE2
        else appendTriple p 0 (iE1 - iS1) (iE2 - iS2)
  end.

Definition diff_all (p : DContext) : result DContext :=
  kb ← extend_back (Z.to_nat nFrom) nFrom nTo 0 0;
  let iE1 := nFrom - kb in
  let iE2 := nTo - kb in
  let mnE := if iE1 <? iE2 then iE1 else iE2 in
  iS ← extend_fwd (Z.to_nat nFrom) 0 0 mnE mnE;
  p ← (if iS >? 0 then appendTriple p iS 0 0 else Ok p);
  p ← diff_step (Z.to_nat (iE1 + iE2 + 1)) p iS iE1 iS iE2;
  p ← (if iE1 <? nFrom then appendTriple p (nFrom - iE1) 0 0 else Ok p);
  let p := expandEdit p (Zlen (edits p) + 3) in
  match aEdit p with
  | None => Ok p
  | Some _ => p ← put_edit p 0; p ← put_edit p 0; put_edit p 0
  end.
End Files.

(** The script computed by [text_diff] when [pOut] is NULL; the outer [None] is
    the null pointer returned for binary files.  [slack] is the memory that can
    be read after the array of the lines of the first file: [optimalLCS] can
    read one element of it, and with [slack] empty such a read is a fault. *)
Definition text_diff (slack : list DLine) (zA zB : list Z) (ignoreEolWs : bool) : result (option (list Z)) :=
  a ← break_into_lines zA ignoreEolWs;
  b ← break_into_lines zB ignoreEolWs;
  match a, b with
  | Some aFrom, Some aTo => p ← diff_all (aFrom ++ slack) aTo (Zlen aFrom) (MkDContext None 0); Ok (aEdit p)
  | _, _ => Ok None
  end.
End Realloc.
