(* ===== verification/DiffSpec.v ===== *)
(** * Line differences: correctness of the edit script

    First the engine over two arrays of lines ([Section Engine]): every segment
    [longestCommonSequence] reports is a run of equal lines inside the ranges,
    [diff_step] terminates, and the triples walk through both files exactly once.
    Then [break_into_lines]: the array holds the lines of the text and a
    well-formed hash table, and [same_dline] is equality of lines.  Together:
    the script of [text_diff] turns the lines of one file into the other's. *)

From S2P Require Import Prelude Encode Diff.
From Stdlib Require Import Floats.SpecFloat.

(** ** The array of edits *)

Lemma put_edit_ok p x :
  Zlen (edits p) < nEditAlloc p ->
  put_edit p x = Ok (MkDContext (Some (edits p ++ [x])) (nEditAlloc p)).
Proof. intros H. unfold put_edit. by rewrite check_true by (by apply Z.ltb_lt). Qed.

Lemma put3_ok e n x y z :
  Zlen e + 3 <= n ->
  (p ← put_edit (MkDContext (Some e) n) x; p ← put_edit p y; put_edit p z) =
  Ok (MkDContext (Some (e ++ [x; y; z])) n).
Proof.
  intros H. rewrite put_edit_ok, bind_Ok by (unfold edits; simpl; lia). cbn [edits aEdit default nEditAlloc].
  rewrite put_edit_ok, bind_Ok by (unfold edits; simpl; rewrite length_app; simpl; lia).
  rewrite put_edit_ok by (unfold edits; simpl; rewrite !length_app; simpl; lia).
  unfold edits. simpl. by rewrite <- !app_assoc.
Qed.

Lemma add_edit_at (R : list Z) l1 y l2 i x :
  R = l1 ++ y :: l2 -> i = Zlen l2 + 1 -> add_edit R i x = Ok (l1 ++ (y + x) :: l2).
Proof.
  intros -> ->. unfold add_edit. assert (Zlen (l1 ++ y :: l2) - (Zlen l2 + 1) = Zlen l1) as ->
    by (rewrite length_app; simpl; lia).
  rewrite (rd_ok _ _ y), bind_Ok; [|lia|rewrite Nat2Z.id; by apply list_lookup_middle].
  rewrite wr_ok by (rewrite length_app; simpl; lia). rewrite Nat2Z.id.
  by rewrite <- (Nat.add_0_r (length l1)), insert_app_r.
Qed.

Lemma add_edit3 (R : list Z) x y z v : add_edit (R ++ [x; y; z]) 3 v = Ok (R ++ [x + v; y; z]).
Proof. by apply add_edit_at. Qed.
Lemma add_edit2 (R : list Z) x y z v : add_edit (R ++ [x; y; z]) 2 v = Ok (R ++ [x; y + v; z]).
Proof. rewrite (add_edit_at _ (R ++ [x]) y [z]) by (done || by rewrite <- app_assoc). by rewrite <- app_assoc. Qed.
Lemma add_edit1 (R : list Z) x y z v : add_edit (R ++ [x; y; z]) 1 v = Ok (R ++ [x; y; z + v]).
Proof. rewrite (add_edit_at _ (R ++ [x; y]) z []) by (done || by rewrite <- app_assoc). by rewrite <- app_assoc. Qed.

Lemma rd_last3 (R : list Z) c d i :
  let e := R ++ [c; d; i] in rd e (Zlen e - 1) = Ok i /\ rd e (Zlen e - 2) = Ok d.
Proof.
  intros e. assert (Zlen e = Zlen R + 3) as He by (unfold e; rewrite length_app; simpl; lia). split.
  - rewrite He. apply rd_ok; [lia|]. unfold e. rewrite lookup_app_r by lia.
    by replace (_ - _)%nat with 2%nat by lia.
  - rewrite He. apply rd_ok; [lia|]. unfold e. rewrite lookup_app_r by lia.
    by replace (_ - _)%nat with 1%nat by lia.
Qed.

Section Engine.
(** The memory [aFrom] holds at least the [nFrom] lines of the first file. *)
Context (aFrom aTo : list DLine) (nFrom : Z) (Hmem : nFrom <= Zlen aFrom).
Abbreviation nTo := (Zlen aTo).
Context (Hsum : nFrom + nTo <= 2^28 + 2) (Hprod : nFrom * nTo <= INT_MAX).

(** Lines [i] and [j] are equal. *)
Definition eqv (i j : Z) : Prop :=
  exists x y, aFrom !! Z.to_nat i = Some x /\ aTo !! Z.to_nat j = Some y /\ same_dline x y = true.
Definition eqv_run (i j k : Z) : Prop := forall m, 0 <= m < k -> eqv (i + m) (j + m).

Lemma same_at_ok i j :
  0 <= i < Zlen aFrom -> 0 <= j < nTo ->
  exists s, same_at aFrom aTo i j = Ok s /\ (s = true <-> eqv i j).
Proof.
  intros Hi Hj. destruct (lookup_lt_is_Some_2 aFrom (Z.to_nat i)) as [x Hx]; [lia|].
  destruct (lookup_lt_is_Some_2 aTo (Z.to_nat j)) as [y Hy]; [lia|].
  unfold same_at. rewrite (rd_ok _ i x), bind_Ok, (rd_ok _ j y), bind_Ok by (done || lia).
  eexists. split; [done|]. split.
  - intros Hs. by exists x, y.
  - intros (x' & y' & Hx' & Hy' & Hs). congruence.
Qed.

Lemma eqv_run_cons i j k : eqv i j -> eqv_run (i + 1) (j + 1) k -> eqv_run i j (k + 1).
Proof.
  intros H0 Hr m Hm. destruct (decide (m = 0)) as [->|Hm0]; [by rewrite !Z.add_0_r|].
  specialize (Hr (m - 1) ltac:(lia)).
  replace (i + 1 + (m - 1)) with (i + m) in Hr by lia. by replace (j + 1 + (m - 1)) with (j + m) in Hr by lia.
Qed.

Lemma eqv_run_app i j k l : 0 <= k -> eqv_run i j k -> eqv_run (i + k) (j + k) l -> eqv_run i j (k + l).
Proof.
  intros Hk H1 H2 m Hm. destruct (decide (m < k)) as [Hlt|Hge]; [apply H1; lia|].
  specialize (H2 (m - k) ltac:(lia)).
  replace (i + k + (m - k)) with (i + m) in H2 by lia. by replace (j + k + (m - k)) with (j + m) in H2 by lia.
Qed.

(** Sums and products of line numbers are [int]s. *)
Ltac int_bounds := change INT_MIN with (-2147483648) in *; change INT_MAX with 2147483647 in *; nia.

(** Nothing in common here. *)
Ltac no_run := solve [exists 0; split; [done|]; split; [lia|]; split; [by left|]; intros m Hm; lia].

Lemma extend_fwd_spec fuel i j iE1 iE2 :
  0 <= i -> 0 <= j -> iE1 <= nFrom -> iE2 <= nTo -> iE1 - i <= Z.of_nat fuel ->
  exists k, extend_fwd aFrom aTo fuel i j iE1 iE2 = Ok k /\ 0 <= k /\
    (k = 0 \/ (i + k <= iE1 /\ j + k <= iE2)) /\ eqv_run i j k.
Proof.
  revert i j. induction fuel as [|fuel IH]; intros i j Hi Hj H1 H2 Hf; cbn [extend_fwd].
  - rewrite (proj2 (Z.ltb_ge i iE1)) by lia. no_run.
  - destruct (Z.ltb_spec i iE1), (Z.ltb_spec j iE2); simpl;
      try no_run.
    destruct (same_at_ok i j) as (s & -> & Hs); [lia|lia|]. rewrite bind_Ok. destruct s.
    + destruct (IH (i + 1) (j + 1)) as (k & -> & Hk & Hin & Hr); try lia. rewrite bind_Ok.
      exists (k + 1). split_and!; try done || lia. apply eqv_run_cons; [by apply Hs|done].
    + no_run.
Qed.

Lemma extend_back_spec fuel i j iS1 iS2 :
  0 <= iS1 -> 0 <= iS2 -> i <= nFrom -> j <= nTo -> i - iS1 <= Z.of_nat fuel ->
  exists k, extend_back aFrom aTo fuel i j iS1 iS2 = Ok k /\ 0 <= k /\
    (k = 0 \/ (iS1 <= i - k /\ iS2 <= j - k)) /\ eqv_run (i - k) (j - k) k.
Proof.
  revert i j. induction fuel as [|fuel IH]; intros i j Hi Hj H1 H2 Hf; cbn [extend_back];
    rewrite !Z.gtb_ltb.
  - rewrite (proj2 (Z.ltb_ge iS1 i)) by lia. no_run.
  - destruct (Z.ltb_spec iS1 i), (Z.ltb_spec iS2 j); simpl;
      try no_run.
    destruct (same_at_ok (i - 1) (j - 1)) as (s & -> & Hs); [lia|lia|]. rewrite bind_Ok. destruct s.
    + destruct (IH (i - 1) (j - 1)) as (k & -> & Hk & Hin & Hr); try lia. rewrite bind_Ok.
      exists (k + 1). split_and!; try done || lia.
      replace (i - (k + 1)) with (i - 1 - k) by lia. replace (j - (k + 1)) with (j - 1 - k) by lia.
      apply eqv_run_app; [lia|done|]. intros m Hm. replace m with 0 by lia.
      replace (i - 1 - k + k + 0) with (i - 1) by lia. replace (j - 1 - k + k + 0) with (j - 1) by lia.
      by apply Hs.
    + no_run.
Qed.

(** The scan back from two equal lines finds at least them. *)
Lemma extend_back_pos fuel i j iS1 iS2 k :
  extend_back aFrom aTo fuel i j iS1 iS2 = Ok k -> 0 <= iS1 < i -> 0 <= iS2 < j ->
  i <= Zlen aFrom -> j <= nTo -> eqv (i - 1) (j - 1) -> 0 < k.
Proof.
  intros H Hi Hj Hl Hl2 Heq. destruct fuel as [|fuel]; cbn [extend_back] in H;
    rewrite !Z.gtb_ltb, !(proj2 (Z.ltb_lt _ _)) in H by lia; cbn [andb] in H;
    (destruct (same_at_ok (i - 1) (j - 1)) as (s & Hsame & Hs); [lia|lia|]); rewrite Hsame, bind_Ok in H;
    rewrite (proj2 Hs Heq) in H; [done|].
  destruct (extend_back aFrom aTo fuel (i - 1) (j - 1) iS1 iS2) as [k'|] eqn:E; [|done].
  injection H as <-. enough (0 <= k') by lia. clear -E.
  revert i j k' E. induction fuel as [|fuel IH]; intros i j k' E; cbn [extend_back] in E.
  - destruct (_ && _); [|by injection E as <-]. destruct (same_at _ _ _ _) as [[]|]; try done. by injection E as <-.
  - destruct (_ && _); [|by injection E as <-]. destruct (same_at _ _ _ _) as [[]|]; try done; [|by injection E as <-].
    cbn [mbind result_bind] in E. destruct (extend_back _ _ _ _ _ _ _) as [k|] eqn:E'; [|done].
    injection E as <-. apply IH in E'. lia.
Qed.

(** ** Common segments *)

Record segment_ok (iS1 iE1 iS2 iE2 : Z) (m : seg) : Prop := {
  sg_x : iS1 <= sX m <= eX m /\ eX m <= iE1;
  sg_y : iS2 <= sY m /\ eY m <= iE2;
  sg_len : eX m - sX m = eY m - sY m;
  sg_eq : eqv_run (sX m) (sY m) (eX m - sX m)
}.

Section Ranges.
Context (iS1 iE1 iS2 iE2 : Z).
Context (H1 : 0 <= iS1 <= iE1) (H1' : iE1 <= nFrom) (H2 : 0 <= iS2 <= iE2) (H2' : iE2 <= nTo).
(** The line after the range can be read: [optimalLCS] may look at it. *)
Context (Hread : iE1 < Zlen aFrom).

Definition best_ok (b : Z * Z * Z) : Prop :=
  segment_ok iS1 iE1 iS2 iE2 (Seg (snd (fst b)) (snd (fst b) + fst (fst b)) (snd b) (snd b + fst (fst b))).

Lemma try_pair_spec i j b :
  best_ok b -> iS1 <= i < iE1 -> i + fst (fst b) <= iE1 -> iS2 <= j < iE2 - fst (fst b) ->
  exists b', try_pair aFrom aTo iE1 iE2 i j b = Ok b' /\ best_ok b' /\ i + fst (fst b') <= iE1 /\
    fst (fst b) <= fst (fst b').
Proof.
  intros Hb Hi Hmx Hj. destruct b as [[mx bx] by_]. simpl in *. unfold try_pair.
  pose proof (sg_x _ _ _ _ _ Hb) as Hx. simpl in Hx.
  destruct (same_at_ok i j) as (s & -> & Hs); [lia|lia|]. rewrite bind_Ok.
  destruct s; simpl; [|exists (mx, bx, by_); by split_and!].
  assert (exists s2, (if mx =? 0 then Ok true else same_at aFrom aTo (i + mx) (j + mx)) = Ok s2) as [s2 ->].
  { destruct (mx =? 0); [by eexists|]. destruct (same_at_ok (i + mx) (j + mx)) as (s & -> & _); [lia|lia|].
    by eexists. }
  rewrite bind_Ok. destruct s2; simpl; [|exists (mx, bx, by_); by split_and!].
  destruct (extend_fwd_spec (Z.to_nat (iE1 - i)) (i + 1) (j + 1) iE1 iE2) as (k & -> & Hk & Hin & Hr); try lia.
  rewrite bind_Ok, Z.gtb_ltb. destruct (Z.ltb_spec mx (k + 1)).
  - eexists. split; [done|]. split; [|simpl; lia]. split; simpl; [lia|lia|lia|].
    replace (i + (k + 1) - i) with (k + 1) by lia. apply eqv_run_cons; [by apply Hs|done].
  - exists (mx, bx, by_). by split_and!.
Qed.

Lemma lcs_inner_spec fuel i j b :
  best_ok b -> iS1 <= i < iE1 -> i + fst (fst b) <= iE1 -> iS2 <= j -> iE2 - j <= Z.of_nat fuel ->
  exists b', lcs_inner aFrom aTo fuel iE1 iE2 i j b = Ok b' /\ best_ok b' /\ fst (fst b) <= fst (fst b').
Proof.
  revert j b. induction fuel as [|fuel IH]; intros j b Hb Hi Hmx Hj Hf; cbn [lcs_inner];
    pose proof (sg_x _ _ _ _ _ Hb) as Hx; simpl in Hx.
  - rewrite (proj2 (Z.ltb_ge j _)) by lia. by exists b.
  - destruct (Z.ltb_spec j (iE2 - fst (fst b))); [|by exists b].
    destruct (try_pair_spec i j b Hb Hi Hmx) as (b1 & -> & Hb1 & Hmx1 & Hle); [lia|]. rewrite bind_Ok.
    destruct (IH (j + 1) b1) as (b2 & -> & Hb2 & Hle2); try done; try lia. exists b2. split_and!; done || lia.
Qed.

Lemma lcs_outer_spec fuel i b :
  best_ok b -> iS1 <= i -> iE1 - i <= Z.of_nat fuel ->
  exists b', lcs_outer aFrom aTo fuel iE1 iS2 iE2 i b = Ok b' /\ best_ok b'.
Proof.
  revert i b. induction fuel as [|fuel IH]; intros i b Hb Hi Hf; cbn [lcs_outer];
    pose proof (sg_x _ _ _ _ _ Hb) as Hx; simpl in Hx.
  - rewrite (proj2 (Z.ltb_ge i _)) by lia. by exists b.
  - destruct (Z.ltb_spec i (iE1 - fst (fst b))); [|by exists b].
    destruct (lcs_inner_spec (Z.to_nat (iE2 - iS2)) i iS2 b) as (b1 & -> & Hb1 & Hle); try done; try lia.
    rewrite bind_Ok. apply IH; done || lia.
Qed.

Lemma optimalLCS_spec :
  exists m, optimalLCS aFrom aTo iS1 iE1 iS2 iE2 = Ok m /\ segment_ok iS1 iE1 iS2 iE2 m.
Proof.
  unfold optimalLCS. destruct (lcs_outer_spec (Z.to_nat (iE1 - iS1)) iS1 (0, iS1, iS2)) as (b & -> & Hb).
  - split; simpl; try lia. intros m Hm. lia.
  - lia.
  - lia.
  - destruct b as [[mx bx] by_]. rewrite bind_Ok. by eexists.
Qed.

(** The hash table over the second file points to its lines. *)
Definition table_ok : Prop :=
  0 < nTo /\ Forall (fun y => 0 <= diNext y <= nTo /\ 0 <= diHash y <= nTo) aTo.

Context (Htab : table_ok).

Lemma table_rd j :
  0 <= j < nTo -> exists y, rd aTo j = Ok y /\ 0 <= diNext y <= nTo /\ 0 <= diHash y <= nTo.
Proof.
  intros Hj. destruct (lookup_lt_is_Some_2 aTo (Z.to_nat j)) as [y Hy]; [lia|].
  exists y. split; [apply rd_ok; done || lia|]. by apply (Forall_lookup_1 _ _ _ _ (proj2 Htab) Hy).
Qed.

Lemma chain_spec fuel i j limit :
  iS1 <= i < iE1 -> 0 <= j <= nTo -> 0 <= limit -> 12 - limit <= Z.of_nat fuel ->
  exists j', chain aFrom aTo fuel i iS2 iE2 j limit = Ok j' /\ 0 <= j' /\
    (0 < j' -> iS2 <= j' - 1 /\ j' < iE2 /\ eqv i (j' - 1)).
Proof.
  intros Hi. revert j limit. induction fuel as [|fuel IH]; intros j limit Hj Hl Hf; cbn [chain];
    rewrite Z.gtb_ltb; (destruct (Z.ltb_spec 0 j); [|exists j; split_and!; done || lia]);
    (assert (exists bad : bool, (if (j - 1 <? iS2) || (j >=? iE2) then Ok true
        else s ← same_at aFrom aTo i (j - 1); Ok (negb s)) = Ok bad /\
        (bad = false -> iS2 <= j - 1 /\ j < iE2 /\ eqv i (j - 1))) as (bad & -> & Hbad);
     [rewrite Z.geb_leb; destruct (Z.ltb_spec (j - 1) iS2), (Z.leb_spec iE2 j); simpl; try (by eexists);
      destruct (same_at_ok i (j - 1)) as (s & -> & Hs); [lia|lia|]; rewrite bind_Ok; eexists; split; [done|];
      intros ?; split_and!; try lia; apply Hs; by destruct s|]); rewrite bind_Ok;
    (destruct bad; [|exists j; split_and!; try done || lia; intros _; by apply Hbad]).
  - rewrite Z.gtb_ltb, (proj2 (Z.ltb_lt 10 limit)) by lia. exists 0. split_and!; done || lia.
  - rewrite Z.gtb_ltb. destruct (Z.ltb_spec 10 limit); [exists 0; split_and!; done || lia|].
    destruct (table_rd (j - 1)) as (y & -> & Hn & _); [lia|]. rewrite bind_Ok. apply IH; lia.
Qed.

(** The invariant of the loop over the first file. *)
Definition lcs_ok (i : Z) (s : lcs_state) : Prop :=
  segment_ok iS1 iE1 iS2 iE2 (seg_b s) /\ sX (seg_b s) <= i /\ sX (seg_p s) <= i.

Lemma lcs_line_spec mid i s :
  lcs_ok i s -> iS1 <= i < iE1 ->
  exists s', lcs_line aFrom aTo iS1 iE1 iS2 iE2 mid i s = Ok s' /\ lcs_ok (i + 1) s'.
Proof.
  intros (Hb & Hbx & Hpx) Hi. unfold lcs_line.
  assert (lcs_ok (i + 1) s) as Hnext by (split_and!; done || lia).
  destruct (lookup_lt_is_Some_2 aFrom (Z.to_nat i)) as [x Hx]; [lia|].
  rewrite (rd_ok _ i x), bind_Ok by (done || lia).
  destruct (table_rd (dh x mod nTo)) as (y & -> & _ & Hy); [apply Z.mod_pos_bound, Htab|]. rewrite bind_Ok.
  destruct (chain_spec 12 i (diHash y) 0 Hi Hy) as (j & -> & Hj & Hjin); [lia|lia|]. rewrite bind_Ok.
  destruct (Z.eqb_spec j 0) as [->|Hj0]; [by exists s|]. destruct Hjin as (Hj1 & Hj2 & Heq); [lia|].
  rewrite check_true, bind_Ok by (rewrite andb_true_iff, !Z.geb_leb; split; apply Z.leb_le; lia).
  destruct (_ && _); [by exists s|]. destruct (_ && _); [by exists s|].
  destruct (extend_back_spec (Z.to_nat (i - iS1)) i (j - 1) iS1 iS2) as (kb & -> & Hkb & Hkin & Hrb); try lia.
  rewrite bind_Ok.
  destruct (extend_fwd_spec (Z.to_nat (iE1 - i)) (i + 1) j iE1 iE2) as (kf & -> & Hkf & Hfin & Hrf); try lia.
  rewrite bind_Ok. cbv zeta. cbn [sX eX].
  rewrite i32_ok, bind_Ok by int_bounds. eexists. split; [done|].
  set (m := Seg (i - kb) (i + 1 + kf) (j - 1 - kb) (j + kf)).
  assert (segment_ok iS1 iE1 iS2 iE2 m) as Hm.
  { split; simpl; try lia. replace (i + 1 + kf - (i - kb)) with (kb + (kf + 1)) by lia.
    apply eqv_run_app; [lia|done|]. replace (i - kb + kb) with i by lia.
    replace (j - 1 - kb + kb) with (j - 1) by lia. apply eqv_run_cons; [done|].
    by replace (j - 1 + 1) with j by lia. }
  destruct (SFltb _ _); split_and!; simpl; try done; lia.
Qed.

Lemma lcs_loop_spec fuel mid i s :
  lcs_ok i s -> iS1 <= i -> iE1 - i <= Z.of_nat fuel ->
  exists s', lcs_loop aFrom aTo fuel iS1 iE1 iS2 iE2 mid i s = Ok s' /\
    segment_ok iS1 iE1 iS2 iE2 (seg_b s').
Proof.
  revert i s. induction fuel as [|fuel IH]; intros i s Hs Hi Hf; cbn [lcs_loop].
  - rewrite (proj2 (Z.ltb_ge i iE1)) by lia. exists s. split; [done|apply Hs].
  - destruct (Z.ltb_spec i iE1); [|exists s; split; [done|apply Hs]].
    destruct (lcs_line_spec mid i s Hs) as (s1 & -> & Hs1); [lia|]. rewrite bind_Ok. apply IH; done || lia.
Qed.

Lemma longestCommonSequence_spec :
  exists m, longestCommonSequence aFrom aTo iS1 iE1 iS2 iE2 = Ok m /\ segment_ok iS1 iE1 iS2 iE2 m.
Proof.
  unfold longestCommonSequence. cbv zeta.
  rewrite (i32_ok (iE1 + iS1)), (i32_ok ((iE1 - iS1) * (iE2 - iS2))), bind_Ok by int_bounds.
  destruct (lcs_loop_spec (Z.to_nat (iE1 - iS1)) (half (iE1 + iS1)) iS1
    (Lcs f_neg1e30 (Seg iS1 iS1 iS2 iS2) (Seg iS1 iS1 iS2 iS2))) as (s & -> & Hs); try lia.
  { split_and!; simpl; try lia. split; simpl; try lia. intros m Hm. lia. }
  rewrite bind_Ok. destruct (sX _ =? eX _); [|by eexists]. rewrite !bind_Ok.
  destruct (_ <? 400); [apply optimalLCS_spec|by eexists].
Qed.
End Ranges.

(** ** Edit scripts *)

(** A valid triple at lines [a], [b]: [c] equal lines, then [d] lines of the
    first file and [i] of the second. *)
Definition triple_ok (a b c d i : Z) : Prop := 0 <= c /\ 0 <= d /\ 0 <= i /\ eqv_run a b c.

(** The triples lead from lines [a], [b] to lines [a'], [b']. *)
Fixpoint script_ok (R : list Z) (a b a' b' : Z) : Prop :=
  match R with
  | [] => a' = a /\ b' = b
  | c :: d :: i :: R => triple_ok a b c d i /\ script_ok R (a + c + d) (b + c + i) a' b'
  | _ => False
  end.

Lemma list3_rev_ind (P : list Z -> Prop) :
  P [] -> (forall R c d i, P R -> P (R ++ [c; d; i])) ->
  forall R a b a' b', script_ok R a b a' b' -> P R.
Proof.
  intros H0 Hs R. assert (forall n R, (length R <= n)%nat -> forall Q, P Q ->
    forall a b a' b', script_ok R a b a' b' -> P (Q ++ R)) as H.
  { clear R. intros n. induction n as [|n IH]; intros [|c [|d [|i R]]] Hl Q HQ a b a' b' HR; try done;
      simpl in Hl; try lia; rewrite ?app_nil_r; try done.
    simpl in HR. destruct HR as [_ HR].
    replace (Q ++ c :: d :: i :: R) with ((Q ++ [c; d; i]) ++ R) by (by rewrite <- app_assoc).
    apply (IH R ltac:(lia) (Q ++ [c; d; i]) (Hs Q c d i HQ) _ _ _ _ HR). }
  intros a b a' b' HR. exact (H (length R) R ltac:(lia) [] H0 a b a' b' HR).
Qed.

Lemma script_snoc R c d i a b a' b' :
  script_ok (R ++ [c; d; i]) a b a' b' <->
  exists a1 b1, script_ok R a b a1 b1 /\ triple_ok a1 b1 c d i /\ a' = a1 + c + d /\ b' = b1 + c + i.
Proof.
  assert (forall n R, (length R <= n)%nat -> forall a b,
    script_ok (R ++ [c; d; i]) a b a' b' <->
    exists a1 b1, script_ok R a b a1 b1 /\ triple_ok a1 b1 c d i /\ a' = a1 + c + d /\ b' = b1 + c + i) as H.
  { clear R a b. intros n. induction n as [|n IH]; intros [|x [|y [|z R]]] Hl a b; simpl in Hl; try lia; simpl.
    - split; [intros (? & ? & ?); by exists a, b|by intros (? & ? & [-> ->] & ? & ? & ?)].
    - split; [intros (? & ? & ?); by exists a, b|by intros (? & ? & [-> ->] & ? & ? & ?)].
    - split; [by intros [_ []]|by intros (? & ? & [] & _)].
    - split; [by intros [_ []]|by intros (? & ? & [] & _)].
    - rewrite (IH R) by lia. split.
      + intros (Ht & a1 & b1 & H1 & H2). by exists a1, b1.
      + intros (a1 & b1 & [Ht H1] & H2). split; [done|]. by exists a1, b1. }
  by apply (H (length R)).
Qed.

(** ** Appending triples *)

Section Append.
Context (realloc_ok : Z -> bool) (Hre : forall n, realloc_ok n = true).

(** The script in use is within the space allocated for it. *)
Definition ctx_ok (p : DContext) : Prop :=
  Zlen (edits p) <= nEditAlloc p /\ (aEdit p = None -> nEditAlloc p = 0).

(** The script up to lines [a] and [b] has at most one triple for each line. *)
Definition short (p : DContext) (a b : Z) : Prop := Zlen (edits p) <= 3 * (a + b).

(** Merging a triple into the last one. *)
Lemma triple_merge a b c d i c' d' i' :
  triple_ok a b c d i -> triple_ok (a + c + d) (b + c + i) c' d' i' ->
  (i = 0 /\ d = 0 -> triple_ok a b (c + c') (d + d') (i + i')) /\
  (c' = 0 -> triple_ok a b c (d + d') (i + i')).
Proof.
  intros (Hc & Hd & Hi & Hr) (Hc' & Hd' & Hi' & Hr'). split.
  - intros [-> ->]. rewrite !Z.add_0_r in Hr'. split_and!; try lia. by apply eqv_run_app.
  - intros _. split_and!; try lia. done.
Qed.

(** A new triple at the end, after growing the array when it is full. *)
Lemma push_spec p c d i :
  ctx_ok p -> Zlen (edits p) <= 3 * (nFrom + nTo) ->
  exists p', (p0 ← (if Zlen (edits p) + 3 >? nEditAlloc p
      then n ← i32 (Zlen (edits p) * 2 + 15); Ok (expandEdit realloc_ok p n) else Ok p);
    match aEdit p0 with
    | None => Ok p0
    | Some _ => p1 ← put_edit p0 c; p1 ← put_edit p1 d; put_edit p1 i
    end) = Ok p' /\ ctx_ok p' /\ edits p' = edits p ++ [c; d; i].
Proof.
  intros [Hctx Hnull] Hlen. rewrite Z.gtb_ltb.
  destruct (Z.ltb_spec (nEditAlloc p) (Zlen (edits p) + 3)) as [Hlt|Hge].
  - rewrite i32_ok, !bind_Ok by int_bounds. unfold expandEdit. rewrite Hre. cbn [aEdit]. rewrite take_ge by lia.
    rewrite put3_ok by lia. eexists. split; [done|]. split; [|done]. split; [|done].
    unfold edits in *. simpl. rewrite length_app. simpl. lia.
  - rewrite bind_Ok. destruct p as [[e|] n]; unfold edits in *; simpl in *; [|specialize (Hnull eq_refl); lia].
    rewrite put3_ok by lia. eexists. split; [done|]. split; [|done]. split; [|done].
    unfold edits. simpl. rewrite length_app. simpl. lia.
Qed.

Lemma appendTriple_spec p a b a1 b1 c d i :
  ctx_ok p -> script_ok (edits p) a b a1 b1 -> triple_ok a1 b1 c d i ->
  short p a1 b1 -> a1 <= nFrom -> b1 <= nTo -> 0 < c + d + i ->
  exists p', appendTriple realloc_ok p c d i = Ok p' /\ ctx_ok p' /\
    script_ok (edits p') a b (a1 + c + d) (b1 + c + i) /\ short p' (a1 + c + d) (b1 + c + i).
Proof.
  intros Hctx Hs Ht Hsh Ha1 Hb1 Hpos. unfold appendTriple. unfold short in Hsh.
  destruct (push_spec p c d i Hctx ltac:(lia)) as (pp & Hpp & Hcp & Hep).
  pose proof Ht as (Hc0 & Hd0 & Hi0 & _).
  assert (script_ok (edits pp) a b (a1 + c + d) (b1 + c + i) /\ short pp (a1 + c + d) (b1 + c + i)) as Hsp
    by (split; [rewrite Hep; apply script_snoc; by exists a1, b1|];
        unfold short; rewrite Hep, length_app; simpl; lia).
  cbv zeta in Hpp |- *. rewrite Hpp. clear Hpp Hep Hc0 Hd0 Hi0.
  rewrite Z.geb_leb. destruct (Z.leb_spec 3 (Zlen (edits p))) as [H3|]; [|by exists pp].
  assert (exists R c0 d0 i0, edits p = R ++ [c0; d0; i0]) as (R & c0 & d0 & i0 & He).
  { revert H3. apply (list3_rev_ind (fun e => 3 <= Zlen e -> exists R c0 d0 i0, e = R ++ [c0; d0; i0]))
      with a b a1 b1; [simpl; lia|by eauto 10|done]. }
  assert (forall x y z, ctx_ok (MkDContext (Some (R ++ [x; y; z])) (nEditAlloc p))) as Hok.
  { intros x y z. destruct Hctx as [Hl _]. split; [|done]. rewrite He in Hl. unfold edits. simpl.
    rewrite !length_app in *. simpl in *. lia. }
  rewrite He in Hs |- *. apply script_snoc in Hs as (a0 & b0 & HR & Ht0 & -> & ->).
  destruct (triple_merge _ _ _ _ _ _ _ _ Ht0 Ht) as [Hm1 Hm2].
  destruct (rd_last3 R c0 d0 i0) as [-> ->]. rewrite !bind_Ok.
  assert (forall c1 d1 i1, triple_ok a0 b0 c1 d1 i1 ->
    a0 + c1 + d1 = a0 + c0 + d0 + c + d -> b0 + c1 + i1 = b0 + c0 + i0 + c + i ->
    script_ok (R ++ [c1; d1; i1]) a b (a0 + c0 + d0 + c + d) (b0 + c0 + i0 + c + i) /\
    Zlen (R ++ [c1; d1; i1]) <= 3 * (a0 + c0 + d0 + c + d + (b0 + c0 + i0 + c + i))) as Hfin.
  { intros c1 d1 i1 Ht1 Ha Hb. split; [apply script_snoc; exists a0, b0; by rewrite Ha, Hb|].
    destruct Ht as (? & ? & ? & _). rewrite He, !length_app in Hsh. rewrite !length_app. simpl in *. lia. }
  destruct (_ && _) eqn:E1.
  { apply andb_true_iff in E1 as [Hi0%Z.eqb_eq Hd0%Z.eqb_eq].
    rewrite add_edit3, bind_Ok, add_edit2, bind_Ok, add_edit1, bind_Ok. eexists. split; [done|]. split; [done|].
    apply Hfin; [by apply Hm1|lia|lia]. }
  clear E1. destruct (_ && _) eqn:E2.
  { apply andb_true_iff in E2 as [Hi0%Z.eqb_eq Hc%Z.eqb_eq].
    rewrite add_edit2, bind_Ok, add_edit1, bind_Ok. eexists. split; [done|]. split; [done|].
    apply Hfin; [by apply Hm2|lia|lia]. }
  clear E2. destruct (_ && _) eqn:E3; [|by exists pp].
  apply andb_true_iff in E3 as [Hc%Z.eqb_eq Hd%Z.eqb_eq].
  rewrite add_edit1, bind_Ok. eexists. split; [done|]. split; [done|].
  apply Hfin; [|lia|lia]. replace d0 with (d0 + d) by lia. by apply Hm2.
Qed.

(** ** The recursion *)

Context (Htab : table_ok).

Lemma diff_step_spec fuel p iS1 iE1 iS2 iE2 :
  ctx_ok p -> script_ok (edits p) 0 0 iS1 iS2 -> short p iS1 iS2 ->
  0 <= iS1 <= iE1 -> iE1 <= nFrom -> 0 <= iS2 <= iE2 -> iE2 <= nTo -> iE1 < Zlen aFrom ->
  (iE1 - iS1) + (iE2 - iS2) < Z.of_nat fuel ->
  exists p', diff_step realloc_ok aFrom aTo fuel p iS1 iE1 iS2 iE2 = Ok p' /\ ctx_ok p' /\
    script_ok (edits p') 0 0 iE1 iE2 /\ short p' iE1 iE2.
Proof.
  revert p iS1 iE1 iS2 iE2. induction fuel as [|fuel IH];
    intros p iS1 iE1 iS2 iE2 Hp Hs Hsh H1 H1' H2 H2' Hrd Hf; [lia|].
  cbn [diff_step].
  assert (forall d i, 0 <= d -> 0 <= i -> iS1 + d = iE1 -> iS2 + i = iE2 -> 0 < d + i ->
    exists p', appendTriple realloc_ok p 0 d i = Ok p' /\ ctx_ok p' /\
      script_ok (edits p') 0 0 iE1 iE2 /\ short p' iE1 iE2) as Hno.
  { intros d i Hd Hi <- <- Hpos.
    destruct (appendTriple_spec p 0 0 iS1 iS2 0 d i Hp Hs) as (p' & Hr & Hp' & Hs'); try done; try lia.
    - split_and!; try done. intros m Hm. lia.
    - exists p'. rewrite !Z.add_0_r in Hs'. done. }
  destruct (Z.leb_spec iE1 iS1).
  { rewrite Z.gtb_ltb. destruct (Z.ltb_spec iS2 iE2); [apply Hno; lia|].
    exists p. split_and!; try done; by replace iE1 with iS1 by lia; replace iE2 with iS2 by lia. }
  destruct (Z.leb_spec iE2 iS2); [apply Hno; lia|].
  destruct (longestCommonSequence_spec iS1 iE1 iS2 iE2 H1 H1' H2 H2' Hrd Htab) as (m & -> & [Hx Hy Hl Heq]).
  rewrite bind_Ok, Z.gtb_ltb. destruct (Z.ltb_spec (sX m) (eX m)); [|apply Hno; lia].
  destruct (IH p iS1 (sX m) iS2 (sY m)) as (p1 & -> & Hp1 & Hs1 & Hsh1); try done; try lia. rewrite bind_Ok.
  destruct (appendTriple_spec p1 0 0 (sX m) (sY m) (eX m - sX m) 0 0 Hp1 Hs1)
    as (p2 & -> & Hp2 & Hs2 & Hsh2); try done; try lia; [split_and!; done || lia|].
  rewrite bind_Ok. replace (sX m + (eX m - sX m) + 0) with (eX m) in Hs2, Hsh2 by lia.
  replace (sY m + (eX m - sX m) + 0) with (eY m) in Hs2, Hsh2 by lia. apply IH; try done; lia.
Qed.

(** The script is extended by a run of [k] common lines, if there are any. *)
Lemma append_copy p a b k :
  ctx_ok p -> script_ok (edits p) 0 0 a b -> short p a b -> a <= nFrom -> b <= nTo -> 0 <= k -> eqv_run a b k ->
  exists p', (if k >? 0 then appendTriple realloc_ok p k 0 0 else Ok p) = Ok p' /\ ctx_ok p' /\
    script_ok (edits p') 0 0 (a + k) (b + k) /\ short p' (a + k) (b + k).
Proof.
  intros Hp Hs Hsh Ha Hb Hk Hr. rewrite Z.gtb_ltb. destruct (Z.ltb_spec 0 k).
  - destruct (appendTriple_spec p 0 0 a b k 0 0 Hp Hs) as (p1 & -> & Hp1 & Hs1); try done; try lia.
    exists p1. by rewrite !Z.add_0_r in Hs1.
  - exists p. by replace k with 0 by lia; rewrite !Z.add_0_r.
Qed.

(** There is something to read after the first file, or the files end alike. *)
Lemma diff_all_spec :
  0 <= nFrom -> (nFrom < Zlen aFrom \/ 0 < nFrom /\ eqv (nFrom - 1) (nTo - 1)) ->
  exists p R, diff_all realloc_ok aFrom aTo nFrom (MkDContext None 0) = Ok p /\
    aEdit p = Some (R ++ [0; 0; 0]) /\ script_ok R 0 0 nFrom nTo.
Proof.
  intros H0 Hend. unfold diff_all. pose proof (proj1 Htab) as HnTo.
  destruct (extend_back_spec (Z.to_nat nFrom) nFrom nTo 0 0) as (kb & Hback & Hkb & Hkin & Hrb); try lia.
  assert (nFrom < Zlen aFrom \/ 0 < kb) as Hend'.
  { destruct Hend as [|[Hpos Heq]]; [by left|right]. apply (extend_back_pos _ _ _ _ _ _ Hback); done || lia. }
  rewrite Hback, bind_Ok. clear Hback Hend. set (iE1 := nFrom - kb) in *. set (iE2 := nTo - kb) in *.
  assert (0 <= iE1 /\ 0 <= iE2) as [HE1 HE2] by lia.
  set (mnE := if iE1 <? iE2 then iE1 else iE2).
  assert (0 <= mnE /\ mnE <= iE1 /\ mnE <= iE2) as (Hm0 & Hm1 & Hm2)
    by (unfold mnE; destruct (Z.ltb_spec iE1 iE2); lia).
  destruct (extend_fwd_spec (Z.to_nat nFrom) 0 0 mnE mnE) as (iS & -> & HiS & HiSin & HrS); try lia.
  rewrite bind_Ok.
  destruct (append_copy (MkDContext None 0) 0 0 iS) as (p1 & -> & Hp1 & Hs1 & Hsh1); try done; try lia.
  rewrite bind_Ok. rewrite !Z.add_0_l in Hs1, Hsh1.
  destruct (diff_step_spec (Z.to_nat (iE1 + iE2 + 1)) p1 iS iE1 iS iE2 Hp1 Hs1 Hsh1)
    as (p2 & -> & Hp2 & Hs2 & Hsh2); try lia.
  rewrite bind_Ok.
  assert ((iE1 <? nFrom) = (kb >? 0)) as ->
    by (rewrite Z.gtb_ltb; unfold iE1; destruct (Z.ltb_spec 0 kb); [apply Z.ltb_lt|apply Z.ltb_ge]; lia).
  replace (nFrom - iE1) with kb by lia.
  destruct (append_copy p2 iE1 iE2 kb) as (p3 & -> & Hp3 & Hs3 & _); try done; try lia.
  rewrite bind_Ok. unfold expandEdit. rewrite Hre. cbn [aEdit]. rewrite take_ge by lia.
  rewrite put3_ok by lia. eexists _, (edits p3). split_and!; [done|done|].
  replace nFrom with (iE1 + kb) by lia. by replace nTo with (iE2 + kb) by lia.
Qed.
End Append.
End Engine.

(** ** Breaking a text into lines *)

(** The lines of a text: the pieces between newlines, without an empty piece
    after a final newline; an empty text has one empty line. *)
Fixpoint lines_aux (z acc : list Z) : list (list Z) :=
  match z with
  | [] => [acc]
  | c :: z => if c =? 10 then match z with [] => [acc] | _ => acc :: lines_aux z [] end
              else lines_aux z (acc ++ [c])
  end.
Definition split_lines (z : list Z) : list (list Z) := lines_aux z [].

Lemma count_lines_cons c z j n :
  count_lines (c :: z) j n =
  if c =? 0 then None
  else if (c =? 10) && negb (cget z 0 =? 0) then
    if j >? LENGTH_MASK then None else count_lines z 1 (n + 1)
  else count_lines z (j + 1) n.
Proof. done. Qed.

Lemma count_lines_spec z j n m acc :
  Zlen acc <= j -> count_lines z j n = Some m ->
  Forall (fun c => c <> 0) z /\ m = n + Zlen (lines_aux z acc) - 1 /\
  Forall (fun l => Zlen l <= LENGTH_MASK) (lines_aux z acc).
Proof.
  revert j n acc. induction z as [|c z IH]; intros j n acc Hacc.
  { simpl. rewrite Z.gtb_ltb. destruct (Z.ltb_spec LENGTH_MASK j); [done|]. intros [= <-].
    split_and!; [constructor|lia|]. repeat constructor. lia. }
  rewrite count_lines_cons. destruct (Z.eqb_spec c 0) as [|Hc]; [done|].
  destruct (Z.eqb_spec c 10) as [->|Hc10].
  - destruct z as [|c' z].
    + intros H. apply (IH _ _ acc) in H as (H1 & H2 & H3); [|lia]. split_and!; [by repeat constructor|done|done].
    + change (cget (c' :: z) 0) with c'. rewrite andb_true_l.
      destruct (Z.eqb_spec c' 0) as [->|E]; [by rewrite count_lines_cons|].
      change (negb false) with true. cbv iota. rewrite Z.gtb_ltb.
      destruct (Z.ltb_spec LENGTH_MASK j); [done|]. intros H'.
      apply (IH _ _ []) in H' as (H1 & H2 & H3); [|simpl; lia].
      change (lines_aux (10 :: c' :: z) acc) with (acc :: lines_aux (c' :: z) []).
      split_and!; [by constructor|cbn [length]; lia|]. constructor; [lia|done].
  - rewrite andb_false_l. intros H.
    apply (IH _ _ (acc ++ [c])) in H as (H1 & H2 & H3); [|rewrite length_app; simpl; lia].
    cbn [lines_aux]. rewrite (proj2 (Z.eqb_neq c 10)) by done.
    split_and!; [by constructor|done|done].
Qed.

Lemma line_len_range z : 0 <= line_len z <= Zlen z.
Proof. induction z as [|c z IH]; simpl; [lia|]. destruct (_ || _); lia. Qed.

Lemma lines_aux_step z acc :
  Forall (fun c => c <> 0) z ->
  lines_aux z acc =
  (acc ++ take (Z.to_nat (line_len z)) z) ::
  match drop (Z.to_nat (line_len z + 1)) z with [] => [] | r => lines_aux r [] end.
Proof.
  intros Hz. revert acc. induction Hz as [|c z Hc Hz IH]; intros acc; [simpl; by rewrite app_nil_r|].
  simpl. rewrite (proj2 (Z.eqb_neq c 0)) by done. simpl. destruct (Z.eqb_spec c 10) as [->|Hc10]; simpl.
  - rewrite app_nil_r. by destruct z.
  - pose proof (line_len_range z). rewrite IH.
    replace (Z.to_nat (1 + line_len z)) with (S (Z.to_nat (line_len z))) by lia.
    replace (Z.to_nat (1 + line_len z + 1)) with (S (Z.to_nat (line_len z + 1))) by lia.
    simpl. by rewrite <- app_assoc.
Qed.

(** The places where [m] lines start. *)
Fixpoint starts (m : nat) (z : list Z) : list (list Z) :=
  match m with O => [] | S m => z :: starts m (drop (Z.to_nat (line_len z + 1)) z) end.

Lemma starts_lines m z :
  Forall (fun c => c <> 0) z -> m = length (split_lines z) ->
  (fun s => take (Z.to_nat (line_len s)) s) <$> starts m z = split_lines z.
Proof.
  revert z. induction m as [|m IH]; intros z Hz Hm; unfold split_lines in *.
  - rewrite lines_aux_step in Hm by done. done.
  - rewrite lines_aux_step in Hm |- * by done. simpl in Hm |- *. f_equal.
    destruct (drop (Z.to_nat (line_len z + 1)) z) as [|c r] eqn:E; [by injection Hm as ->|].
    apply IH; [|simpl in *; lia]. rewrite <- E. by apply Forall_drop.
Qed.

Section Fill.
Context (ws : bool) (nLine : Z).

Definition pos_hash (d : DLine) : list Z * Z := (dz d, dh d).
Definition links_ok (d : DLine) : Prop := 0 <= diNext d <= nLine /\ 0 <= diHash d <= nLine.

Lemma fill_step a i z :
  Zlen a = nLine -> 0 <= i < nLine -> Forall links_ok a ->
  exists a', (x ← rd a i;
      a ← wr a i (MkDLine z (dline_h ws z) (diNext x) (diHash x));
      y ← rd a (dline_h ws z mod nLine);
      x ← rd a i;
      a ← wr a i (MkDLine (dz x) (dh x) (diHash y) (diHash x));
      y ← rd a (dline_h ws z mod nLine);
      wr a (dline_h ws z mod nLine) (MkDLine (dz y) (dh y) (diNext y) (i + 1))) = Ok a' /\
    Zlen a' = nLine /\ Forall links_ok a' /\ pos_hash <$> a' = <[Z.to_nat i := (z, dline_h ws z)]> (pos_hash <$> a).
Proof.
  intros Hl Hi Ha. set (h := dline_h ws z). set (h2 := h mod nLine).
  assert (0 <= h2 < nLine) as Hh by (apply Z.mod_pos_bound; lia).
  assert (forall (a : list DLine) k, Zlen a = nLine -> 0 <= k < nLine -> Forall links_ok a ->
    exists x, rd a k = Ok x /\ links_ok x /\ a !! Z.to_nat k = Some x) as Hrd.
  { clear. intros a k Hl Hk Ha. destruct (lookup_lt_is_Some_2 a (Z.to_nat k)) as [x Hx]; [lia|].
    exists x. split_and!; [apply rd_ok; done || lia|by apply (Forall_lookup_1 _ _ _ _ Ha Hx)|done]. }
  assert (forall (a : list DLine) k d x, Zlen a = nLine -> 0 <= k < nLine -> Forall links_ok a -> links_ok d ->
    a !! Z.to_nat k = Some x ->
    exists a', wr a k d = Ok a' /\ Zlen a' = nLine /\ Forall links_ok a' /\
      pos_hash <$> a' = <[Z.to_nat k := pos_hash d]> (pos_hash <$> a) /\
      (pos_hash d = pos_hash x -> pos_hash <$> a' = pos_hash <$> a) /\ a' !! Z.to_nat k = Some d) as Hwr.
  { clear. intros a k d x Hl Hk Ha Hd Hx. rewrite wr_ok by lia. eexists. split; [done|].
    split_and!; [by rewrite length_insert|by apply Forall_insert|apply list_fmap_insert| |].
    - intros E. rewrite list_fmap_insert, E. apply list_insert_id. by rewrite list_lookup_fmap, Hx.
    - apply list_lookup_insert_eq. lia. }
  destruct (Hrd a i Hl Hi Ha) as (x & -> & Hx & Hxl). rewrite bind_Ok.
  destruct (Hwr a i (MkDLine z h (diNext x) (diHash x)) x Hl Hi Ha Hx Hxl) as (a1 & -> & Hl1 & Ha1 & Hf1 & _ & Hg1).
  rewrite bind_Ok. destruct (Hrd a1 h2 Hl1 Hh Ha1) as (y & -> & Hy & _). rewrite bind_Ok.
  rewrite (rd_ok a1 i _ ltac:(lia) Hg1), bind_Ok. cbn [dz dh diHash diNext].
  destruct (Hwr a1 i (MkDLine z h (diHash y) (diHash x))
    (MkDLine z h (diNext x) (diHash x)) Hl1 Hi Ha1)
    as (a2 & -> & Hl2 & Ha2 & _ & Hf2 & _); [split; [apply Hy|apply Hx]|done|].
  rewrite bind_Ok. destruct (Hrd a2 h2 Hl2 Hh Ha2) as (y2 & -> & Hy2 & Hy2l). rewrite bind_Ok.
  destruct (Hwr a2 h2 (MkDLine (dz y2) (dh y2) (diNext y2) (i + 1)) y2 Hl2 Hh Ha2) as (a3 & -> & Hl3 & Ha3 & _ & Hf3 & _);
    [split; [apply Hy2|simpl; lia]|done|].
  exists a3. split_and!; try done. by rewrite Hf3, Hf2, Hf1.
Qed.

Lemma fill_lines_spec m i z a :
  Zlen a = nLine -> 0 <= i -> i + Z.of_nat m = nLine -> Forall links_ok a ->
  exists a', fill_lines m ws nLine i z a = Ok a' /\ Zlen a' = nLine /\ Forall links_ok a' /\
    pos_hash <$> a' = take (Z.to_nat i) (pos_hash <$> a) ++ ((fun s => (s, dline_h ws s)) <$> starts m z).
Proof.
  revert i z a. induction m as [|m IH]; intros i z a Hl Hi Hm Ha.
  { exists a. split_and!; try done. rewrite app_nil_r, take_ge; [done|]. rewrite length_fmap. lia. }
  destruct (fill_step a i z Hl ltac:(lia) Ha) as (a1 & H1 & Hl1 & Ha1 & Hf1).
  destruct (IH (i + 1) (drop (Z.to_nat (line_len z + 1)) z) a1) as (a2 & H2 & Hl2 & Ha2 & Hf2); try done; try lia.
  exists a2. split_and!; try done.
  - cbn [fill_lines]. cbv zeta. res_inv. rewrite Hx, bind_Ok, Hx0, bind_Ok, Hx1, bind_Ok, Hx2, bind_Ok, Hx3,
      bind_Ok, Hx4, bind_Ok, H1, bind_Ok. exact H2.
  - rewrite Hf2, Hf1. replace (Z.to_nat (i + 1)) with (S (Z.to_nat i)) by lia.
    rewrite take_snoc_insert by (rewrite length_fmap; lia). rewrite <- app_assoc. done.
Qed.
End Fill.

(** ** Equal lines *)

(** A line without its trailing white space. *)
Definition rstrip (l : list Z) : list Z :=
  foldr (fun c t => if isspace (schar c) && bool_decide (t = []) then [] else c :: t) [] l.
Definition trim_line (ws : bool) (l : list Z) : list Z := if ws then rstrip l else l.

Lemma rstrip_snoc l c : rstrip (l ++ [c]) = if isspace (schar c) then rstrip l else l ++ [c].
Proof.
  assert (forall t, t <> [] -> foldr (fun c t => if isspace (schar c) && bool_decide (t = []) then [] else c :: t) t l
    = l ++ t) as Hne.
  { intros t Ht. induction l as [|x l IH]; [done|]. simpl. rewrite IH, bool_decide_false, andb_false_r; [done|].
    by destruct l, t. }
  unfold rstrip. rewrite foldr_app. simpl. rewrite andb_true_r.
  destruct (isspace (schar c)) eqn:E; [done|]. by apply Hne.
Qed.

Lemma trim_ws_range ws z k : 0 <= trim_ws ws z k <= Z.of_nat k.
Proof. induction k as [|k IH]; cbn [trim_ws]; [lia|]. destruct (_ && _); lia. Qed.

Lemma trim_ws_spec ws z k :
  (k <= length z)%nat -> take (Z.to_nat (trim_ws ws z k)) z = trim_line ws (take k z).
Proof.
  intros Hk. destruct ws; [|by destruct k; cbn [trim_ws andb trim_line]; rewrite ?Nat2Z.id].
  cbn [trim_line]. induction k as [|k IH]; cbn [trim_ws andb].
  - by rewrite !take_0.
  - destruct (lookup_lt_is_Some_2 z k) as [c Hc]; [lia|].
    rewrite (take_S_r _ _ c), rstrip_snoc, (cget_Some z _ c) by (try rewrite Nat2Z.id; done || lia).
    destruct (isspace (schar c)); [apply IH; lia|]. by rewrite Nat2Z.id, (take_S_r _ _ c).
Qed.

(** The line at the start of [s]. *)
Definition line_at (s : list Z) : list Z := take (Z.to_nat (line_len s)) s.

Lemma dline_h_length ws s :
  Zlen (line_at s) <= LENGTH_MASK ->
  Z.land (dline_h ws s) LENGTH_MASK = trim_ws ws s (Z.to_nat (line_len s)).
Proof.
  intros Hl. pose proof (line_len_range s). unfold line_at in Hl. rewrite length_take in Hl.
  pose proof (trim_ws_range ws s (Z.to_nat (line_len s))) as Hr.
  unfold dline_h. set (k := trim_ws _ _ _) in *. cbv zeta.
  assert (0 <= k <= LENGTH_MASK) as Hk by lia.
  change LENGTH_MASK with (Z.ones 13) in *. rewrite Z.land_lor_distr_l, !Z.land_ones by lia.
  unfold LENGTH_MASK in Hk. change (Z.ones 13) with 8191 in Hk. rewrite (Z.mod_small k) by lia.
  set (h := line_hash _). rewrite Z.shiftl_mul_pow2 by lia. unfold u32.
  replace ((h * 2 ^ 13) mod 2 ^ 32 mod 2 ^ 13) with 0; [done|].
  rewrite Z.mod_mod_divide by (by exists (2 ^ 19)).
  by rewrite Z.mod_mul.
Qed.

Lemma same_dline_spec ws (x y : DLine) :
  dh x = dline_h ws (dz x) -> dh y = dline_h ws (dz y) ->
  Zlen (line_at (dz x)) <= LENGTH_MASK -> Zlen (line_at (dz y)) <= LENGTH_MASK ->
  same_dline x y = true <-> trim_line ws (line_at (dz x)) = trim_line ws (line_at (dz y)).
Proof.
  intros Hx Hy Lx Ly. unfold same_dline. rewrite Hx, Hy, (dline_h_length ws (dz x)) by done.
  pose proof (line_len_range (dz x)) as Rx. pose proof (line_len_range (dz y)) as Ry.
  pose proof (trim_ws_range ws (dz x) (Z.to_nat (line_len (dz x)))) as Tx.
  pose proof (trim_ws_range ws (dz y) (Z.to_nat (line_len (dz y)))) as Ty.
  unfold line_at. rewrite <- !trim_ws_spec by lia. unfold same_bytes.
  rewrite andb_true_iff, Z.eqb_eq, bool_decide_eq_true. split.
  - intros [Hh Hb]. rewrite Hb. f_equal. f_equal.
    rewrite <- (dline_h_length ws (dz x)), <- (dline_h_length ws (dz y)) by done. by rewrite Hh.
  - intros E. assert (trim_ws ws (dz x) (Z.to_nat (line_len (dz x))) = trim_ws ws (dz y) (Z.to_nat (line_len (dz y)))) as Ek.
    { apply (f_equal (fun l : list Z => Zlen l)) in E. rewrite !length_take in E. lia. }
    unfold dline_h. rewrite E. split; [by rewrite Ek|]. rewrite Ek at 1. by rewrite <- E, Ek.
Qed.

(** ** The array of lines *)

(** Element [x] stands for line [l]. *)
Definition holds_line (ws : bool) (x : DLine) (l : list Z) : Prop :=
  dh x = dline_h ws (dz x) /\ line_at (dz x) = l /\ Zlen l <= LENGTH_MASK.

Lemma lines_aux_length z acc : 0 < Zlen (lines_aux z acc).
Proof.
  revert acc. induction z as [|c z IH]; intros acc; simpl; [lia|].
  destruct (c =? 10); [destruct z; simpl; lia|apply IH].
Qed.

Lemma break_into_lines_spec ws z m :
  count_lines z 0 1 = Some m ->
  exists a, break_into_lines z ws = Ok (Some a) /\ table_ok a /\ Forall2 (holds_line ws) a (split_lines z).
Proof.
  intros Hc. destruct (count_lines_spec z 0 1 m [] ltac:(simpl; lia) Hc) as (Hz & Hm & Hlen).
  pose proof (lines_aux_length z []) as Hpos. fold (split_lines z) in *.
  unfold break_into_lines. rewrite Hc.
  destruct (fill_lines_spec ws m (Z.to_nat m) 0 z (replicate (Z.to_nat m) (MkDLine [] 0 0 0)))
    as (a & -> & Ha & Hl & Hf); [rewrite length_replicate; lia|lia|lia|apply Forall_replicate; split; simpl; lia|].
  exists a. rewrite bind_Ok. split_and!; [done|split; [lia|by rewrite Ha]|].
  rewrite take_0 in Hf. simpl in Hf.
  assert (Forall2 (fun x s => dz x = s /\ dh x = dline_h ws s) a (starts (Z.to_nat m) z)) as H2.
  { clear -Hf. revert Hf. generalize (starts (Z.to_nat m) z). induction a as [|x a IH]; intros [|s l] Hf; try done.
    rewrite !fmap_cons in Hf. unfold pos_hash at 1 in Hf. injection Hf as E1 E2 E3.
    constructor; [by subst|by apply IH]. }
  rewrite <- (starts_lines (Z.to_nat m) z Hz) in Hlen |- * by lia.
  revert Hlen. generalize dependent (starts (Z.to_nat m) z). clear. intros l _ H2.
  induction H2 as [|x s a l [<- Hh] H2 IH]; intros Hlen; simpl in *; constructor.
  - split_and!; [done|done|]. by apply Forall_cons_1 in Hlen as [? _].
  - apply IH. by apply Forall_cons_1 in Hlen as [_ ?].
Qed.

(** ** What a script does *)

(** [transforms R A B]: the triples [R] copy, delete and insert their way from
    [A] to [B], using all of both. *)
Inductive transforms : list Z -> list (list Z) -> list (list Z) -> Prop :=
| transforms_nil : transforms [] [] []
| transforms_triple C D I R A B :
    transforms R A B ->
    transforms (Zlen C :: Zlen D :: Zlen I :: R) (C ++ D ++ A) (C ++ I ++ B).

Lemma split3 {A} (l : list A) (n m : Z) :
  0 <= n -> 0 <= m -> n + m <= Zlen l ->
  l = take (Z.to_nat n) l ++ take (Z.to_nat m) (drop (Z.to_nat n) l) ++ drop (Z.to_nat (n + m)) l.
Proof.
  intros Hn Hm Hl. rewrite Z2Nat.inj_add by lia. rewrite <- (drop_drop l). by rewrite !take_drop.
Qed.

Section Script.
Context (ws : bool) (aFrom slack aTo : list DLine) (LA LB : list (list Z)).
Context (HA : Forall2 (holds_line ws) aFrom LA) (HB : Forall2 (holds_line ws) aTo LB).
Abbreviation tA := (trim_line ws <$> LA).
Abbreviation tB := (trim_line ws <$> LB).

Lemma eqv_lines i j :
  0 <= i < Zlen LA -> 0 <= j < Zlen LB -> eqv (aFrom ++ slack) aTo i j ->
  tA !! Z.to_nat i = tB !! Z.to_nat j.
Proof.
  intros Hi Hj (x & y & Hx & Hy & Hs).
  rewrite lookup_app_l in Hx by (rewrite (Forall2_length HA); lia).
  destruct (Forall2_lookup_l _ _ _ _ _ HA Hx) as (l1 & Hl1 & H1a & H1b & H1c).
  destruct (Forall2_lookup_l _ _ _ _ _ HB Hy) as (l2 & Hl2 & H2a & H2b & H2c). subst l1 l2.
  rewrite !list_lookup_fmap, Hl1, Hl2. simpl. f_equal. by apply (same_dline_spec ws x y).
Qed.

Lemma script_ok_mono R a b a' b' : script_ok (aFrom ++ slack) aTo R a b a' b' -> a <= a' /\ b <= b'.
Proof.
  remember (length R) as n eqn:Hn. revert R Hn a b. induction n as [n IH] using lt_wf_ind.
  intros [|c [|d [|i R]]] Hn a b; simpl; try done; [intros [-> ->]; lia|].
  intros [(? & ? & ? & _) Hs]. apply (IH (length R)) in Hs; [lia|simpl in Hn; lia|done].
Qed.

Lemma eqv_run_lines a b c :
  0 <= a -> 0 <= b -> 0 <= c -> a + c <= Zlen LA -> b + c <= Zlen LB ->
  eqv_run (aFrom ++ slack) aTo a b c ->
  take (Z.to_nat c) (drop (Z.to_nat a) tA) = take (Z.to_nat c) (drop (Z.to_nat b) tB).
Proof.
  intros Ha Hb Hc Hla Hlb Hrun. apply list_eq. intros k.
  destruct (decide (Z.of_nat k < c)); [|by rewrite !lookup_take_ge by lia].
  rewrite !lookup_take_lt, !lookup_drop by lia.
  pose proof (Hrun (Z.of_nat k) ltac:(lia)) as E. apply eqv_lines in E; [|lia|lia].
  by rewrite !Z2Nat.inj_add, !Nat2Z.id in E by lia.
Qed.

Lemma script_transforms R a b :
  0 <= a -> 0 <= b -> script_ok (aFrom ++ slack) aTo R a b (Zlen LA) (Zlen LB) ->
  transforms R (drop (Z.to_nat a) tA) (drop (Z.to_nat b) tB).
Proof.
  remember (length R) as n eqn:Hn. revert R Hn a b. induction n as [n IH] using lt_wf_ind.
  intros [|c [|d [|i R]]] Hn a b Ha Hb; simpl; try done.
  { intros [? ?]. rewrite !drop_ge by (rewrite length_fmap; lia). constructor. }
  intros [(Hc & Hd & Hi & Hrun) HR]. destruct (script_ok_mono _ _ _ _ _ HR) as [Hma Hmb].
  apply (IH (length R)) in HR; [|simpl in Hn; lia|done|lia|lia].
  rewrite (split3 (drop (Z.to_nat a) tA) c d), (split3 (drop (Z.to_nat b) tB) c i)
    by (try rewrite length_drop, length_fmap; lia).
  rewrite <- (eqv_run_lines a b c) by (done || lia). rewrite !drop_drop.
  replace (Z.to_nat a + Z.to_nat (c + d))%nat with (Z.to_nat (a + c + d)) by lia.
  replace (Z.to_nat b + Z.to_nat (c + i))%nat with (Z.to_nat (b + c + i)) by lia.
  set (C := take (Z.to_nat c) _). set (D := take (Z.to_nat d) _). set (I := take (Z.to_nat i) _).
  replace c with (Zlen C) at 1 by (unfold C; rewrite length_take, length_drop, length_fmap; lia).
  replace d with (Zlen D) at 1 by (unfold D; rewrite length_take, !length_drop, length_fmap; lia).
  replace i with (Zlen I) at 1 by (unfold I; rewrite length_take, !length_drop, length_fmap; lia).
  by constructor.
Qed.
End Script.

(** A text that [text_diff] accepts: no NUL byte, and no line of more than 8189
    bytes.  (The count includes the newline of the line before and the last
    newline of the file, so some lines of 8190 and 8191 bytes are refused.) *)
Definition is_text (z : list Z) : Prop :=
  Forall (fun c => c <> 0) z /\ Forall (fun l => Zlen l <= LENGTH_MASK - 2) (split_lines z).

Lemma count_lines_text z j n acc :
  Forall (fun c => c <> 0) z -> Forall (fun l => Zlen l <= LENGTH_MASK - 2) (lines_aux z acc) ->
  j <= Zlen acc + 1 -> exists m, count_lines z j n = Some m.
Proof.
  intros Hz. revert j n acc. induction Hz as [|c z Hc Hz IH]; intros j n acc Hl Hj.
  { apply Forall_cons_1 in Hl as [Hl _]. exists n. simpl. rewrite Z.gtb_ltb.
    by rewrite (proj2 (Z.ltb_ge _ _)) by lia. }
  rewrite count_lines_cons, (proj2 (Z.eqb_neq c 0)) by done. cbn [lines_aux] in Hl.
  destruct (Z.eqb_spec c 10) as [->|Hc10].
  - destruct Hz as [|c' z Hc' Hz].
    + apply Forall_cons_1 in Hl as [Hl _]. exists n. simpl. rewrite Z.gtb_ltb.
      by rewrite (proj2 (Z.ltb_ge _ _)) by lia.
    + change (cget (c' :: z) 0) with c'. rewrite (proj2 (Z.eqb_neq c' 0)) by done. cbv iota beta.
      change (true && negb false) with true. apply Forall_cons_1 in Hl as [Hl1 Hl2].
      rewrite Z.gtb_ltb, (proj2 (Z.ltb_ge _ _)) by lia. apply (IH _ _ []); [done|simpl; lia].
  - rewrite andb_false_l. apply (IH _ _ (acc ++ [c])); [done|]. rewrite length_app. simpl. lia.
Qed.

(** [break_into_lines] is total: it accepts texts, and what it accepts has no NUL
    byte. *)
Lemma break_total ws z :
  exists r, break_into_lines z ws = Ok r /\
    (is_text z -> r <> None) /\ (Exists (fun c => c = 0) z -> r = None) /\
    (forall a, r = Some a -> table_ok a /\ Forall2 (holds_line ws) a (split_lines z)).
Proof.
  destruct (count_lines z 0 1) as [m|] eqn:Hc.
  - destruct (break_into_lines_spec ws z m Hc) as (a & -> & Ht & Hf). exists (Some a).
    split_and!; [done|done| |by intros ? [= <-]].
    intros Hn. destruct (count_lines_spec z 0 1 m [] ltac:(simpl; lia) Hc) as (Hz & _ & _).
    apply Exists_exists in Hn as (c & Hin & ->). rewrite List.Forall_forall in Hz. by destruct (Hz 0 Hin).
  - exists None. unfold break_into_lines. rewrite Hc. split_and!; try done.
    intros [Hz Hl]. destruct (count_lines_text z 0 1 [] Hz Hl ltac:(simpl; lia)) as [m Hm]. congruence.
Qed.

(** The sizes at which the [int]s of [text_diff] do not overflow: the sum of the
    lengths of the texts, and the product of their numbers of lines. *)
Definition diff_sized (zA zB : list Z) : Prop :=
  Zlen zA + Zlen zB <= 2^28 /\ Zlen (split_lines zA) * Zlen (split_lines zB) <= INT_MAX.

Lemma lines_aux_le z acc : Zlen (lines_aux z acc) <= Zlen z + 1.
Proof.
  revert acc. induction z as [|c z IH]; intros acc; cbn [lines_aux]; [simpl; lia|].
  destruct (c =? 10); [destruct z as [|c' z]; [simpl; lia|]|]; [specialize (IH [])|specialize (IH (acc ++ [c]))];
    cbn [length] in *; lia.
Qed.

(** The lines two texts are compared by, and that the last ones are equal. *)
Definition cmp_lines (ws : bool) (z : list Z) : list (list Z) := trim_line ws <$> split_lines z.
Definition last_line (L : list (list Z)) : option (list Z) := L !! pred (length L).
Definition same_end (ws : bool) (zA zB : list Z) : Prop :=
  last_line (cmp_lines ws zA) = last_line (cmp_lines ws zB).
#[export] Instance same_end_dec ws zA zB : Decision (same_end ws zA zB).
Proof. unfold same_end. apply _. Defined.

Lemma holds_last ws a L :
  Forall2 (holds_line ws) a L -> 0 < Zlen a ->
  exists x l, a !! Z.to_nat (Zlen a - 1) = Some x /\ last_line (trim_line ws <$> L) = Some (trim_line ws l) /\ holds_line ws x l.
Proof.
  intros H Hpos. destruct (lookup_lt_is_Some_2 a (Z.to_nat (Zlen a - 1))) as [x Hx]; [lia|].
  destruct (Forall2_lookup_l _ _ _ _ _ H Hx) as (l & Hl & Hh). exists x, l. split_and!; [done| |done].
  unfold last_line. rewrite length_fmap, list_lookup_fmap, <- (Forall2_length H).
  replace (pred (length a)) with (Z.to_nat (Zlen a - 1)) by lia. by rewrite Hl.
Qed.

Lemma same_end_eqv ws aF aT LA LB :
  Forall2 (holds_line ws) aF LA -> Forall2 (holds_line ws) aT LB -> 0 < Zlen aF -> 0 < Zlen aT ->
  last_line (trim_line ws <$> LA) = last_line (trim_line ws <$> LB) -> eqv aF aT (Zlen aF - 1) (Zlen aT - 1).
Proof.
  intros HA HB H1 H2 Hlast. destruct (holds_last ws aF LA HA H1) as (x & l & Hx & Hl & Hhx & <- & Lx).
  destruct (holds_last ws aT LB HB H2) as (y & l' & Hy & Hl' & Hhy & <- & Ly).
  exists x, y. split_and!; [done|done|]. apply (same_dline_spec ws); try done. congruence.
Qed.

(** The engine on the arrays of two files. *)
Lemma diff_all_files realloc_ok slack zA zB ws aF aT :
  (forall n, realloc_ok n = true) -> diff_sized zA zB -> (slack <> [] \/ same_end ws zA zB) ->
  table_ok aF -> Forall2 (holds_line ws) aF (split_lines zA) ->
  table_ok aT -> Forall2 (holds_line ws) aT (split_lines zB) ->
  exists p R, diff_all realloc_ok (aF ++ slack) aT (Zlen aF) (MkDContext None 0) = Ok p /\
    aEdit p = Some (R ++ [0; 0; 0]) /\ transforms R (cmp_lines ws zA) (cmp_lines ws zB).
Proof.
  intros Hre [Hsum Hprod] Hs [HpA _] HFA HtB HFB.
  pose proof (lines_aux_le zA []) as HlA. pose proof (lines_aux_le zB []) as HlB.
  fold (split_lines zA) in HlA. fold (split_lines zB) in HlB.
  rewrite <- (Forall2_length HFA), <- (Forall2_length HFB) in Hprod.
  rewrite <- (Forall2_length HFA) in HlA. rewrite <- (Forall2_length HFB) in HlB.
  destruct (diff_all_spec (aF ++ slack) aT (Zlen aF)) with (realloc_ok := realloc_ok) as (p & R & Hp & He & Hok);
    [rewrite length_app; lia|lia|done|done|done|lia| |].
  { destruct slack as [|d slack]; [|left; rewrite length_app; simpl; lia]. right. split; [done|].
    destruct Hs as [|Hs]; [done|]. rewrite app_nil_r. by apply (same_end_eqv ws aF aT _ _ HFA HFB); [|apply HtB|]. }
  exists p, R. split_and!; [done|done|].
  apply (script_transforms ws aF slack aT _ _ HFA HFB R 0 0); [done|done|].
  by rewrite <- (Forall2_length HFA), <- (Forall2_length HFB).
Qed.

Lemma text_diff_total (realloc_ok : Z -> bool) (slack : list DLine) (zA zB : list Z) (ws : bool) :
  (forall n, realloc_ok n = true) -> diff_sized zA zB -> (slack <> [] \/ same_end ws zA zB) ->
  exists r, text_diff realloc_ok slack zA zB ws = Ok r /\
    (is_text zA -> is_text zB -> r <> None) /\
    (Exists (fun c => c = 0) zA \/ Exists (fun c => c = 0) zB -> r = None) /\
    (forall e, r = Some e -> exists R, e = R ++ [0; 0; 0] /\ transforms R (cmp_lines ws zA) (cmp_lines ws zB)).
Proof.
  intros Hre Hsz Hs. unfold text_diff.
  destruct (break_total ws zA) as (rA & -> & HA1 & HA2 & HA3). destruct (break_total ws zB) as (rB & -> & HB1 & HB2 & HB3).
  rewrite !bind_Ok.
  destruct rA as [aF|]; [|exists None; split_and!; [done|tauto|done|done]].
  destruct rB as [aT|]; [|exists None; split_and!; [done|tauto|done|done]].
  destruct (HA3 aF eq_refl) as [HtA HFA]. destruct (HB3 aT eq_refl) as [HtB HFB].
  destruct (diff_all_files realloc_ok slack zA zB ws aF aT) as (p & R & -> & He & Htr); try done.
  rewrite bind_Ok, He. eexists. split; [done|]. split_and!; [done|intros [H|H]; [by specialize (HA2 H)|by specialize (HB2 H)]|].
  intros e [= <-]. by exists R.
Qed.

(** ** Reading after the first file *)

(** [x] does what [y] does, or stops at an access outside an array. *)
Definition oob_le {A} (x y : result A) : Prop := x = Fault OutOfBounds \/ x = y.

Lemma oob_refl {A} (x : result A) : oob_le x x.
Proof. by right. Qed.

Lemma oob_bind {A B} (x y : result A) (f g : A -> result B) :
  oob_le x y -> (forall a, oob_le (f a) (g a)) -> oob_le (x ≫= f) (y ≫= g).
Proof.
  intros [->| ->] H; [by left|]. destruct y as [a|]; [apply H|by right].
Qed.

(** Less memory after the first file changes nothing but where reads fail. *)
Section LessMemory.
Context (aFrom slack aTo : list DLine) (nFrom : Z) (realloc_ok : Z -> bool).
Abbreviation more := (aFrom ++ slack).

Lemma rd_oob i : oob_le (rd aFrom i) (rd more i).
Proof.
  unfold rd. destruct (Z.ltb_spec i 0); [by left|].
  destruct (decide (i < Zlen aFrom)); [right; by rewrite lookup_app_l by lia|].
  left. by rewrite lookup_ge_None_2 by lia.
Qed.

Lemma same_at_oob i j : oob_le (same_at aFrom aTo i j) (same_at more aTo i j).
Proof. apply oob_bind; [apply rd_oob|intros; apply oob_refl]. Qed.

Ltac oob := repeat first
  [ match goal with |- oob_le ?x ?x => apply oob_refl end
  | simple apply rd_oob | simple apply same_at_oob
  | match goal with IH : forall _, _ |- _ => simple apply IH end
  | simple apply oob_bind; [|intros] | progress case_match ].

Lemma extend_fwd_oob fuel i j iE1 iE2 :
  oob_le (extend_fwd aFrom aTo fuel i j iE1 iE2) (extend_fwd more aTo fuel i j iE1 iE2).
Proof. revert i j. induction fuel as [|fuel IH]; intros i j; cbn [extend_fwd]; oob. Qed.

Lemma extend_back_oob fuel i j iS1 iS2 :
  oob_le (extend_back aFrom aTo fuel i j iS1 iS2) (extend_back more aTo fuel i j iS1 iS2).
Proof. revert i j. induction fuel as [|fuel IH]; intros i j; cbn [extend_back]; oob. Qed.

Lemma lcs_inner_oob fuel iE1 iE2 i j b :
  oob_le (lcs_inner aFrom aTo fuel iE1 iE2 i j b) (lcs_inner more aTo fuel iE1 iE2 i j b).
Proof.
  revert j b. induction fuel as [|fuel IH]; intros j b; cbn [lcs_inner]; oob.
  destruct b as [[mx bx] by_]. unfold try_pair. oob. apply extend_fwd_oob.
Qed.

Lemma lcs_outer_oob fuel iE1 iS2 iE2 i b :
  oob_le (lcs_outer aFrom aTo fuel iE1 iS2 iE2 i b) (lcs_outer more aTo fuel iE1 iS2 iE2 i b).
Proof. revert i b. induction fuel as [|fuel IH]; intros i b; cbn [lcs_outer]; oob. apply lcs_inner_oob. Qed.

Lemma chain_oob fuel i iS2 iE2 j limit :
  oob_le (chain aFrom aTo fuel i iS2 iE2 j limit) (chain more aTo fuel i iS2 iE2 j limit).
Proof. revert j limit. induction fuel as [|fuel IH]; intros j limit; cbn [chain]; oob. Qed.

Lemma lcs_loop_oob fuel iS1 iE1 iS2 iE2 mid i st :
  oob_le (lcs_loop aFrom aTo fuel iS1 iE1 iS2 iE2 mid i st) (lcs_loop more aTo fuel iS1 iE1 iS2 iE2 mid i st).
Proof.
  revert i st. induction fuel as [|fuel IH]; intros i st; cbn [lcs_loop]; oob.
  unfold lcs_line. oob; [apply chain_oob|apply extend_back_oob|apply extend_fwd_oob].
Qed.

Lemma diff_step_oob fuel p iS1 iE1 iS2 iE2 :
  oob_le (diff_step realloc_ok aFrom aTo fuel p iS1 iE1 iS2 iE2) (diff_step realloc_ok more aTo fuel p iS1 iE1 iS2 iE2).
Proof.
  revert p iS1 iE1 iS2 iE2. induction fuel as [|fuel IH]; intros p iS1 iE1 iS2 iE2; cbn [diff_step]; oob.
  unfold longestCommonSequence, optimalLCS. oob; [apply lcs_loop_oob|apply lcs_outer_oob].
Qed.

Lemma diff_all_oob p : oob_le (diff_all realloc_ok aFrom aTo nFrom p) (diff_all realloc_ok more aTo nFrom p).
Proof. unfold diff_all. oob; first [apply extend_back_oob|apply extend_fwd_oob|apply diff_step_oob]. Qed.
End LessMemory.

Lemma text_diff_oob realloc_ok slack zA zB ws :
  oob_le (text_diff realloc_ok [] zA zB ws) (text_diff realloc_ok slack zA zB ws).
Proof.
  unfold text_diff. destruct (break_into_lines zA ws) as [[aF|]|]; cbn [mbind result_bind]; [|by right..].
  destruct (break_into_lines zB ws) as [[aT|]|]; cbn [mbind result_bind]; [|by right..].
  simple apply oob_bind; [|by right]. rewrite app_nil_r. apply diff_all_oob.
Qed.

(** Either there is nothing to read after the first array, the files do not end
    with equal lines, and the run stops at such a read; or the result is as in
    [text_diff_total]. *)
Lemma text_diff_cases (realloc_ok : Z -> bool) (slack : list DLine) (zA zB : list Z) (ws : bool) :
  (forall n, realloc_ok n = true) -> diff_sized zA zB ->
  (text_diff realloc_ok slack zA zB ws = Fault OutOfBounds /\ slack = [] /\ ~ same_end ws zA zB) \/
  exists r, text_diff realloc_ok slack zA zB ws = Ok r /\
    (is_text zA -> is_text zB -> r <> None) /\
    (Exists (fun c => c = 0) zA \/ Exists (fun c => c = 0) zB -> r = None) /\
    (forall e, r = Some e -> exists R, e = R ++ [0; 0; 0] /\ transforms R (cmp_lines ws zA) (cmp_lines ws zB)).
Proof.
  intros Hre Hsz. destruct (decide (same_end ws zA zB)) as [He|He];
    [right; apply text_diff_total; auto|]. destruct slack as [|d slack]; [|right; apply text_diff_total; auto].
  destruct (text_diff_oob realloc_ok [MkDLine [] 0 0 0] zA zB ws) as [->| ->]; [by left|right].
  apply text_diff_total; auto.
Qed.

(** C32. The script of [text_diff], for two files of at most 2^28 bytes together
    whose numbers of lines have a product that is an [int], when memory can be
    allocated.  A script ends in the triple 0,0,0, and its triples copy equal
    lines, delete lines of the first text and insert lines of the second, in
    order and covering both texts completely; lines are compared without their
    trailing white space when [ignoreEolWs] is set.  [text_diff] returns such a
    script for two texts without NUL bytes and overlong lines; on every other
    input it returns NULL or such a script, and NULL when either file has a NUL
    byte.  The one exception is a read of the element after the array of the
    first file's lines: it is made only when the two files end with different
    lines, and it is a fault only when no memory can be read there ([slack] is
    empty). *)
Theorem text_diff_spec (realloc_ok : Z -> bool) (slack : list DLine) (zA zB : list Z) (ws : bool) :
  (forall n, realloc_ok n = true) -> diff_sized zA zB ->
  (text_diff realloc_ok slack zA zB ws = Fault OutOfBounds /\ slack = [] /\ ~ same_end ws zA zB) \/
  exists r, text_diff realloc_ok slack zA zB ws = Ok r /\
    (is_text zA -> is_text zB -> r <> None) /\
    (Exists (fun c => c = 0) zA \/ Exists (fun c => c = 0) zB -> r = None) /\
    (forall e, r = Some e -> exists R, e = R ++ [0; 0; 0] /\ transforms R (cmp_lines ws zA) (cmp_lines ws zB)).
Proof. apply text_diff_cases. Qed.

Lemma text_diff_spec_witness :
  text_diff (fun _ => true) [] (cstr "a"%string ++ [10] ++ cstr "b"%string) (cstr "a"%string ++ [10] ++ cstr "c"%string) false
    = Ok (Some [1; 1; 1; 0; 0; 0]) /\
  transforms [1; 1; 1] [cstr "a"%string; cstr "b"%string] [cstr "a"%string; cstr "c"%string].
Proof.
  split; [vm_compute; reflexivity|].
  destruct (text_diff_spec (fun _ => true) [] (cstr "a"%string ++ [10] ++ cstr "b"%string)
    (cstr "a"%string ++ [10] ++ cstr "c"%string) false) as [[Hr _]|(r & Hr & _ & _ & Hs)].
  - reflexivity.
  - split; vm_compute; discriminate.
  - vm_compute in Hr. discriminate Hr.
  - vm_compute in Hr. injection Hr as <-. destruct (Hs _ eq_refl) as (R & HR & Ht).
    apply (app_inv_tail [0; 0; 0] [1; 1; 1] R) in HR as <-.
    exact Ht.
Defined.

(** The texts of the next claim: one line [x], and fifteen lines of which the
    second and third are [x]. *)
Definition overread_A : list Z := [120].
Definition overread_B : list Z :=
  [97; 10; 120; 10; 120; 10] ++ concat ((fun c => [c; 10]) <$> seqZ 98 13).

(** [optimalLCS] tests line [i + mxLength] of the first file before it
    knows that the line exists: for a one-line file compared with a longer file
    that has the line twice, the search reads [aFrom[1]], outside the array of
    one element. *)
Lemma text_diff_overread :
  text_diff (fun _ => true) [] overread_A overread_B false = Fault OutOfBounds.
Proof. vm_compute. reflexivity. Qed.
