(* ===== verification/DiffScript.v ===== *)
(** * Edit scripts as lists of triples

    The array of [text_diff] is the concatenation of triples of natural numbers
    that are not all zero, of which only the first can be a pure insertion: the
    form that [appendTriple] keeps and on which the merge relies. *)

From S2P Require Import Prelude Encode Diff DiffSpec.

Abbreviation triple := (Z * Z * Z)%type.
Definition flat (T : list triple) : list Z := concat ((fun '(c, d, i) => [c; d; i]) <$> T).

Definition pos3 (t : triple) : Prop := let '(c, d, i) := t in 0 <= c /\ 0 <= d /\ 0 <= i /\ 0 < c + d + i.
Definition moves (t : triple) : Prop := let '(c, d, _) := t in 0 < c + d.
Definition canonical (T : list triple) : Prop := Forall pos3 T /\ Forall moves (tail T).

Lemma flat_app T U : flat (T ++ U) = flat T ++ flat U.
Proof. unfold flat. by rewrite fmap_app, concat_app. Qed.

Lemma length_flat T : Zlen (flat T) = 3 * Zlen T.
Proof. induction T as [|[[c d] i] T IH]; [done|].
  change (flat ((c, d, i) :: T)) with ([c; d; i] ++ flat T). rewrite length_app. simpl. lia. Qed.

Lemma canonical_snoc T t :
  canonical T -> pos3 t -> (T = [] \/ moves t) -> canonical (T ++ [t]).
Proof.
  intros [H1 H2] Ht Hm. split; [by apply Forall_app_2; [|apply Forall_singleton]|].
  destruct T as [|t0 T]; [by simpl|]. simpl in *. destruct Hm as [|Hm]; [done|].
  apply Forall_app_2; [done|]. by apply Forall_singleton.
Qed.

Lemma canonical_last T t t' :
  canonical (T ++ [t]) -> pos3 t' -> (moves t -> moves t') -> canonical (T ++ [t']).
Proof.
  intros [[H1 Ht]%Forall_app H2] Ht' Hm. split.
  { apply Forall_app_2; [done|]. by apply Forall_singleton. }
  destruct T as [|t0 T]; [by constructor|]. simpl in *. apply Forall_app in H2 as [H2 H3].
  apply Forall_app_2; [done|]. apply Forall_singleton, Hm.
  by apply Forall_cons_1 in H3 as [? _].
Qed.

Section Canonical.
Context (realloc_ok : Z -> bool) (Hre : forall n, realloc_ok n = true).

Definition script_of (p : DContext) : Prop := exists T, edits p = flat T /\ canonical T.

Lemma put3_inv p x y z p' :
  (p ← put_edit p x; p ← put_edit p y; put_edit p z) = Ok p' -> edits p' = edits p ++ [x; y; z].
Proof.
  unfold put_edit. intros H. res_inv. unfold edits. simpl. by rewrite <- !app_assoc.
Qed.

Lemma appendTriple_canonical p c d i p' :
  script_of p -> pos3 (c, d, i) -> appendTriple realloc_ok p c d i = Ok p' -> script_of p'.
Proof.
  intros (T & HT & Hcan) Ht. unfold appendTriple.
  assert (T = [] \/ moves (c, d, i) -> (p0 ← (if Zlen (edits p) + 3 >? nEditAlloc p
      then n ← i32 (Zlen (edits p) * 2 + 15); Ok (expandEdit realloc_ok p n) else Ok p);
    match aEdit p0 with
    | None => Ok p0
    | Some _ => p1 ← put_edit p0 c; p1 ← put_edit p1 d; put_edit p1 i
    end) = Ok p' -> script_of p') as Hpush.
  { intros Hm H. apply bind_Ok_inv in H as (p0 & H0 & H).
    assert (edits p0 = edits p) as E0.
    { destruct (_ >? _); [|by injection H0 as <-]. apply bind_Ok_inv in H0 as (n & Hn & H0). injection H0 as <-.
      unfold i32 in Hn. destruct (in_i32 _); [injection Hn as <-|done].
      unfold expandEdit. rewrite Hre. unfold edits at 1. simpl. by rewrite take_ge by lia. }
    destruct (aEdit p0) eqn:Ep0.
    - apply put3_inv in H. rewrite E0, HT in H. exists (T ++ [(c, d, i)]).
      rewrite flat_app. split; [done|]. by apply canonical_snoc.
    - injection H as <-. exists T. by rewrite E0. }
  cbv zeta in Hpush |- *. destruct (decide (T = [])) as [->|Hne].
  { rewrite HT. change (Zlen (flat [])) with 0 in Hpush |- *. rewrite HT in Hpush. simpl. by apply Hpush, or_introl. }
  destruct (exists_last Hne) as (T0 & [[c0 d0] i0] & ->).
  rewrite HT in Hpush |- *. rewrite flat_app in Hpush |- *. change (flat [(c0, d0, i0)]) with [c0; d0; i0] in *.
  rewrite Z.geb_leb, (proj2 (Z.leb_le 3 _)) by (rewrite length_app; simpl; lia).
  destruct (rd_last3 (flat T0) c0 d0 i0) as [-> ->]. rewrite !bind_Ok.
  assert (pos3 (c0, d0, i0)) as Ht0 by (destruct Hcan as [[_ H]%Forall_app _]; by apply Forall_cons_1 in H as [? _]).
  assert (forall t : triple, pos3 t -> (moves (c0, d0, i0) -> moves t) ->
    edits p' = flat (T0 ++ [t]) -> script_of p') as Hlast.
  { intros t H1 H2 H3. exists (T0 ++ [t]). split; [done|]. by apply (canonical_last _ _ _ Hcan). }
  simpl in Ht, Ht0. destruct (_ && _) eqn:E1.
  { apply andb_true_iff in E1 as [Hi0%Z.eqb_eq Hd0%Z.eqb_eq].
    rewrite add_edit3, bind_Ok, add_edit2, bind_Ok, add_edit1, bind_Ok. intros [= <-].
    apply (Hlast (c0 + c, d0 + d, i0 + i)); simpl; [lia|lia|]. by rewrite flat_app. }
  destruct ((i0 =? 0) && (c =? 0)) eqn:E2.
  { apply andb_true_iff in E2 as [Hi0%Z.eqb_eq Hc%Z.eqb_eq].
    rewrite add_edit2, bind_Ok, add_edit1, bind_Ok. intros [= <-].
    apply (Hlast (c0, d0 + d, i0 + i)); simpl; [lia|lia|]. by rewrite flat_app. }
  destruct ((c =? 0) && (d =? 0)) eqn:E3.
  { rewrite add_edit1, bind_Ok. intros [= <-].
    apply (Hlast (c0, d0, i0 + i)); simpl; [lia|lia|]. by rewrite flat_app. }
  apply Hpush. right. simpl. apply andb_false_iff in E3 as [H%Z.eqb_neq|H%Z.eqb_neq]; lia.
Qed.

Context (aFrom aTo : list DLine).

Lemma diff_step_canonical fuel p iS1 iE1 iS2 iE2 p' :
  script_of p -> diff_step realloc_ok aFrom aTo fuel p iS1 iE1 iS2 iE2 = Ok p' -> script_of p'.
Proof.
  revert p iS1 iE1 iS2 iE2 p'. induction fuel as [|fuel IH]; intros p iS1 iE1 iS2 iE2 p' Hp; [done|].
  cbn [diff_step]. destruct (Z.leb_spec iE1 iS1).
  { rewrite Z.gtb_ltb. destruct (Z.ltb_spec iS2 iE2); [|by intros [= <-]].
    apply appendTriple_canonical; [done|]. simpl. lia. }
  destruct (Z.leb_spec iE2 iS2); [apply appendTriple_canonical; [done|]; simpl; lia|].
  intros H'. apply bind_Ok_inv in H' as (m & _ & H'). rewrite Z.gtb_ltb in H'.
  destruct (Z.ltb_spec (sX m) (eX m)).
  - apply bind_Ok_inv in H' as (p1 & Hq1 & H'). apply bind_Ok_inv in H' as (p2 & Hq2 & H').
    apply IH in Hq1; [|done]. apply appendTriple_canonical in Hq2; [|done|simpl; lia]. by apply IH in H'.
  - apply appendTriple_canonical in H'; [done|done|simpl; lia].
Qed.

Lemma diff_all_canonical nFrom p' :
  diff_all realloc_ok aFrom aTo nFrom (MkDContext None 0) = Ok p' ->
  exists T, edits p' = flat T ++ [0; 0; 0] /\ canonical T.
Proof.
  unfold diff_all. intros H. apply bind_Ok_inv in H as (kb & _ & H). cbv zeta in H.
  apply bind_Ok_inv in H as (iS & _ & H). apply bind_Ok_inv in H as (p1 & H1 & H).
  apply bind_Ok_inv in H as (p2 & H2 & H). apply bind_Ok_inv in H as (p3 & H3 & H).
  assert (script_of (MkDContext None 0)) as H0 by (exists []; repeat split; constructor).
  assert (script_of p1) as Hp1.
  { rewrite Z.gtb_ltb in H1. destruct (Z.ltb_spec 0 iS); [|by injection H1 as <-].
    apply appendTriple_canonical in H1; [done|done|simpl; lia]. }
  apply diff_step_canonical in H2; [|done].
  assert (script_of p3) as (T & HT & Hc).
  { destruct (Z.ltb_spec (nFrom - kb) nFrom); [|by injection H3 as <-].
    apply appendTriple_canonical in H3; [done|done|simpl; lia]. }
  unfold expandEdit in H. rewrite Hre in H. cbn [aEdit] in H. apply put3_inv in H.
  exists T. split; [|done]. rewrite H. f_equal. unfold edits at 1. simpl. rewrite take_ge by lia. done.
Qed.
End Canonical.

Lemma text_diff_canonical realloc_ok slack zA zB ws e :
  (forall n, realloc_ok n = true) -> text_diff realloc_ok slack zA zB ws = Ok (Some e) ->
  exists T, e = flat T ++ [0; 0; 0] /\ canonical T.
Proof.
  intros Hre H. unfold text_diff in H. apply bind_Ok_inv in H as (a & _ & H). apply bind_Ok_inv in H as (b & _ & H).
  destruct a as [a|], b as [b|]; try done. apply bind_Ok_inv in H as (p & Hp & H).
  apply diff_all_canonical in Hp as (T & HT & Hc); [|done]. exists T. split; [|done].
  injection H as H. rewrite <- HT. unfold edits. by rewrite H.
Qed.
