(* ===== verification/Merge3.v ===== *)
(** * Three-way merge

    Models [src/src/ssfossil/fossil/src/merge3.c].

    The function reads each input blob through its cursor: an input is the list
    of the bytes that are left after the cursor, and [take_lines] is what
    [blob_copy_lines] moves (proved of the blob itself in [BlobLines]).  The
    buffers end with a NUL, because [text_diff] has called [blob_str] on them;
    reading beyond it is a fault.  The edit arrays are changed in place, through
    [rd] and [wr].

    On a conflict [blob_merge] calls [csv_merge] of
    [src/src/ssfossil/src/csv_hooks.cpp], which merges the files as CSV books.
    [csv_merge] is modelled with the three operations on books it calls
    (reading, merging and writing a [CsvTextBook], not modelled) as parameters;
    [blob_merge] is defined over any function in its place, which is given the
    three texts and the output so far and returns a code and the output. *)

From S2P Require Import Prelude Encode Diff.

(** [blob_copy_lines] with [N > 0]: the bytes up to and including the [N]-th
    newline, and those after. *)
Fixpoint lines_prefix (z : list Z) (N : Z) : list Z * list Z :=
  match z with
  | [] => ([], [])
  | c :: z =>
      if (c =? 10) && (N =? 1) then ([c], z)
      else let '(a, b) := lines_prefix z (if c =? 10 then N - 1 else N) in (c :: a, b)
  end.
Definition take_lines (z : list Z) (N : Z) : list Z * list Z :=
  if N =? 0 then ([], z) else lines_prefix z N.

(** The loop of [sameLines]. *)
Fixpoint same_loop (z1 z2 : list Z) (N : Z) : result bool :=
  match z1, z2 with
  | [], [] => Fault OutOfBounds
  | c1 :: z1, c2 :: z2 =>
      if c1 =? c2 then
        if c1 =? 10 then if N - 1 =? 0 then Ok true else same_loop z1 z2 (N - 1)
        else same_loop z1 z2 N
      else Ok false
  | c :: _, [] | [], c :: _ => if c =? 0 then Fault OutOfBounds else Ok false
  end.
Definition sameLines (pV1 pV2 : list Z) (N : Z) : result bool :=
  if N =? 0 then Ok true else same_loop pV1 pV2 N.

(** The triple at index [i]. *)
Definition rd3 (aC : list Z) (i : Z) : result (Z * Z * Z) :=
  x ← rd aC i; y ← rd aC (i + 1); z ← rd aC (i + 2); Ok (x, y, z).

Definition sameEdit (aC1 : list Z) (i1 : Z) (aC2 : list Z) (i2 : Z) (pV1 pV2 : list Z) : result bool :=
  '(c1, d1, n1) ← rd3 aC1 i1;
  '(c2, d2, n2) ← rd3 aC2 i2;
  if negb (c1 =? c2) then Ok false
  else if negb (d1 =? d2) then Ok false
  else if negb (n1 =? n2) then Ok false
  else sameLines pV1 pV2 n1.

Fixpoint ends_at_CPY (fuel : nat) (aC : list Z) (i sz : Z) : result bool :=
  if sz >? 0 then
    '(c, d, n) ← rd3 aC i;
    if (c >? 0) || (d >? 0) || (n >? 0) then
      if c >=? sz then Ok true
      else
        let sz := sz - c in
        if d >? sz then Ok false
        else match fuel with O => Fault OutOfFuel | S fuel => ends_at_CPY fuel aC (i + 3) (sz - d) end
    else Ok true
  else Ok true.

(** The result is the output, the rest of the source, the array and the index. *)
Fixpoint output_one_side (fuel : nat) (pOut pSrc aC : list Z) (i sz : Z) :
    result (list Z * list Z * list Z * Z) :=
  if sz >? 0 then
    '(c, d, n) ← rd3 aC i;
    if (c =? 0) && (d =? 0) && (n =? 0) then Ok (pOut, pSrc, aC, i)
    else if c >=? sz then
      let '(x, pSrc) := take_lines pSrc sz in
      aC ← wr aC i (c - sz);
      Ok (pOut ++ x, pSrc, aC, i)
    else
      let '(x, pSrc) := take_lines pSrc c in
      let '(y, pSrc) := take_lines pSrc n in
      match fuel with
      | O => Fault OutOfFuel
      | S fuel => output_one_side fuel (pOut ++ x ++ y) pSrc aC (i + 3) (sz - (c + d))
      end
  else Ok (pOut, pSrc, aC, i).

Definition zBegin : list Z := cstr ">>>>>>> BEGIN MERGE CONFLICT"%string.
Definition zMid : list Z := cstr "============================"%string.
Definition zEnd : list Z := cstr "<<<<<<< END MERGE CONFLICT"%string.
Definition nl : list Z := [10].

(** The number of integers before the terminating triple. *)
Fixpoint limit_loop (fuel : nat) (aC : list Z) (i : Z) : result Z :=
  '(c, d, n) ← rd3 aC i;
  if negb (c =? 0) || negb (d =? 0) || negb (n =? 0) then
    match fuel with O => Fault OutOfFuel | S fuel => limit_loop fuel aC (i + 3) end
  else Ok i.

(** The local variables and blobs of [blob_merge]. *)
Record mstate := MState {
  aC1 : list Z; aC2 : list Z; i1 : Z; i2 : Z;
  pPivot : list Z; pV1 : list Z; pV2 : list Z; pOut : list Z; nConflict : Z }.

(** [while( !ends_at_CPY(&aC1[i1], sz) || !ends_at_CPY(&aC2[i2], sz) ) sz++] *)
Fixpoint conflict_size (fuel : nat) (s : mstate) (sz : Z) : result Z :=
  e1 ← ends_at_CPY (length (aC1 s)) (aC1 s) (i1 s) sz;
  e ← (if negb e1 then Ok false else ends_at_CPY (length (aC2 s)) (aC2 s) (i2 s) sz);
  if negb e then match fuel with O => Fault OutOfFuel | S fuel => conflict_size fuel s (sz + 1) end
  else Ok sz.

Definition sum (l : list Z) : Z := foldr Z.add 0 l.

(** ** The hook for CSV files *)

Section CsvHook.
(** [readCsvsData], [BookCompare::compare] with the "merge" patcher, which
    leaves the merged book in the first version's, and [writeCsvsData]. *)
Context {Book : Type} (readCsvsData : list Z -> option Book)
  (compare : Book -> Book -> Book -> option Book) (writeCsvsData : Book -> list Z).

Definition csv_merge (pPivot pV1 pV2 pOut : list Z) : Z * list Z :=
  match readCsvsData pPivot, readCsvsData pV1, readCsvsData pV2 with
  | Some csvs0, Some csvs1, Some csvs2 =>
      match compare csvs0 csvs1 csvs2 with
      | Some csvs1 => (1, c_string (writeCsvsData csvs1))
      | None => (0, pOut)
      end
  | _, _, _ => (0, pOut)
  end.
End CsvHook.

(** ** The merge *)

Section CsvMerge.
Context (csv_merge : list Z -> list Z -> list Z -> list Z -> Z * list Z).
(** The texts of the three blobs. *)
Context (zP zV1 zV2 : list Z).

(** The last branch of the loop body. *)
Definition merge_conflict (s : mstate) : result (mstate + Z * list Z) :=
  sz ← conflict_size (Z.to_nat (sum (aC1 s) + sum (aC2 s))) s 1;
  let '(sub, out) := csv_merge zP zV1 zV2 (pOut s) in
  if (sub =? 1) || (sub =? -1) then Ok (inr ((if sub =? 1 then 0 else -1), out))
  else
    let out := out ++ zBegin ++ nl in
    '(out, v1, a1, j1) ← output_one_side (length (aC1 s)) out (pV1 s) (aC1 s) (i1 s) sz;
    let out := out ++ zMid ++ nl in
    '(out, v2, a2, j2) ← output_one_side (length (aC2 s)) out (pV2 s) (aC2 s) (i2 s) sz;
    let out := out ++ zEnd ++ nl in
    Ok (inl (MState a1 a2 j1 j2 (snd (take_lines (pPivot s) sz)) v1 v2 out (nConflict s + 1))).

(** The body of the loop up to the advance over finished triples; [inr] is a
    return from the function. *)
Definition merge_branch (s : mstate) : result (mstate + Z * list Z) :=
  let '(MState a1 a2 j1 j2 p v1 v2 out k) := s in
  '(c1, d1, n1) ← rd3 a1 j1;
  '(c2, d2, n2) ← rd3 a2 j2;
  if (c1 >? 0) && (c2 >? 0) then
    let nCpy := if c1 <? c2 then c1 else c2 in
    let '(x, p) := take_lines p nCpy in
    a1 ← wr a1 j1 (c1 - nCpy);
    a2 ← wr a2 j2 (c2 - nCpy);
    Ok (inl (MState a1 a2 j1 j2 p (snd (take_lines v1 nCpy)) (snd (take_lines v2 nCpy)) (out ++ x) k))
  else if (c1 >=? d2) && (c1 >? 0) && (d2 + n2 >? 0) then
    let '(y, v2) := take_lines v2 n2 in
    a1 ← wr a1 j1 (c1 - d2);
    Ok (inl (MState a1 a2 j1 (j2 + 3) (snd (take_lines p d2)) (snd (take_lines v1 d2)) v2 (out ++ y) k))
  else if (c2 >=? d1) && (c2 >? 0) && (d1 + n1 >? 0) then
    let '(y, v1) := take_lines v1 n1 in
    a2 ← wr a2 j2 (c2 - d1);
    Ok (inl (MState a1 a2 (j1 + 3) j2 (snd (take_lines p d1)) v1 (snd (take_lines v2 d1)) (out ++ y) k))
  else
    e ← sameEdit a1 j1 a2 j2 v1 v2;
    if (e : bool) then
      _ ← check (c1 =? 0) AssertFailed;
      let '(y, v1) := take_lines v1 n1 in
      Ok (inl (MState a1 a2 (j1 + 3) (j2 + 3) (snd (take_lines p d1)) v1 (snd (take_lines v2 n1)) (out ++ y) k))
    else merge_conflict s.

(** [if( i<limit && aC[i]==0 && aC[i+1]==0 && aC[i+2]==0 ) i += 3;] *)
Definition advance (aC : list Z) (i limit : Z) : result Z :=
  if i <? limit then
    '(c, d, n) ← rd3 aC i;
    Ok (if (c =? 0) && (d =? 0) && (n =? 0) then i + 3 else i)
  else Ok i.

Definition merge_step (limit1 limit2 : Z) (s : mstate) : result (mstate + Z * list Z) :=
  r ← merge_branch s;
  match r with
  | inr x => Ok (inr x)
  | inl s =>
      j1 ← advance (aC1 s) (i1 s) limit1;
      j2 ← advance (aC2 s) (i2 s) limit2;
      Ok (inl (MState (aC1 s) (aC2 s) j1 j2 (pPivot s) (pV1 s) (pV2 s) (pOut s) (nConflict s)))
  end.

Fixpoint merge_loop (fuel : nat) (limit1 limit2 : Z) (s : mstate) : result (mstate + Z * list Z) :=
  if (i1 s <? limit1) && (i2 s <? limit2) then
    match fuel with
    | O => Fault OutOfFuel
    | S fuel =>
        r ← merge_step limit1 limit2 s;
        match r with inl s => merge_loop fuel limit1 limit2 s | inr x => Ok (inr x) end
    end
  else Ok (inl s).

(** The inserts left in one of the vectors. *)
Definition merge_tail (limit1 limit2 : Z) (s : mstate) : result (Z * list Z) :=
  n1 ← (if i1 s <? limit1 then rd (aC1 s) (i1 s + 2) else Ok 0);
  if n1 >? 0 then Ok (nConflict s, pOut s ++ fst (take_lines (pV1 s) n1))
  else
    n2 ← (if i2 s <? limit2 then rd (aC2 s) (i2 s + 2) else Ok 0);
    if n2 >? 0 then Ok (nConflict s, pOut s ++ fst (take_lines (pV2 s) n2))
    else Ok (nConflict s, pOut s).

(** The two scripts and the arrays of lines are computed by [text_diff]; the
    result is the code returned and the content of [pOut]. *)
Definition blob_merge (realloc_ok : Z -> bool) (slack : list DLine) : result (Z * list Z) :=
  r1 ← text_diff realloc_ok slack zP zV1 true;
  r2 ← text_diff realloc_ok slack zP zV2 true;
  match r1, r2 with
  | Some a1, Some a2 =>
      limit1 ← limit_loop (length a1) a1 0;
      limit2 ← limit_loop (length a2) a2 0;
      r ← merge_loop (Z.to_nat (limit1 + limit2 + 2)) limit1 limit2 (MState a1 a2 0 0 zP zV1 zV2 [] 0);
      match r with
      | inr x => Ok x
      | inl s => merge_tail limit1 limit2 s
      end
  | _, _ => Ok (-1, [])
  end.
End CsvMerge.

(** Examples: a clean merge, the same edit on both sides, and a conflict. *)
Definition line (s : String.string) : list Z := cstr s ++ nl.
Definition no_csv (_ _ _ out : list Z) : Z * list Z := (0, out).
Definition spare : list DLine := [MkDLine [] 0 0 0].
Abbreviation L s := (line s%string).

Example merge_clean :
  blob_merge no_csv (L "a" ++ L "b" ++ L "c" ++ L "d") (L "a" ++ L "B" ++ L "c" ++ L "d")
    (L "a" ++ L "b" ++ L "c" ++ L "d" ++ L "e") (fun _ => true) spare
  = Ok (0, L "a" ++ L "B" ++ L "c" ++ L "d" ++ L "e").
Proof. vm_compute. reflexivity. Qed.

Example merge_conflicting :
  blob_merge no_csv (L "a" ++ L "b" ++ L "c") (L "a" ++ L "x" ++ L "c") (L "a" ++ L "y" ++ L "c")
    (fun _ => true) spare
  = Ok (1, L "a" ++ zBegin ++ nl ++ L "x" ++ zMid ++ nl ++ L "y" ++ zEnd ++ nl ++ L "c").
Proof. vm_compute. reflexivity. Qed.
