(* ===== verification/Merge3Spec.v ===== *)
(** * Three-way merge: correctness

    [merged n P V1 V2 O] says what a three-way merge of lines is: [P], [V1] and
    [V2] are cut into the same regions, and in each region the output has the
    common lines, the lines of the only version that changed, the change both
    versions made, or a marked conflict with both versions; [n] counts the
    conflicts.  [blob_merge] terminates with such an output, or with the one
    that [csv_merge] sets.  It relies on the form of the scripts of [text_diff]
    ([DiffScript]) and on the lines they copy being equal ([DiffSpec]). *)

From S2P Require Import Prelude Encode Diff DiffSpec DiffScript Merge3.

(** ** Lines of a text *)

Definition nonl (l : list Z) : Prop := Forall (fun c => c <> 10) l.
Definition unlines (L : list (list Z)) : list Z := concat ((fun l => l ++ nl) <$> L).

Lemma unlines_cons l L : unlines (l :: L) = l ++ 10 :: unlines L.
Proof. unfold unlines. simpl. by rewrite <- app_assoc. Qed.
Lemma unlines_app L M : unlines (L ++ M) = unlines L ++ unlines M.
Proof. unfold unlines. by rewrite fmap_app, concat_app. Qed.

Lemma lines_prefix_line l r N :
  nonl l ->
  lines_prefix (l ++ 10 :: r) N =
  if N =? 1 then (l ++ [10], r) else let '(a, b) := lines_prefix r (N - 1) in (l ++ 10 :: a, b).
Proof.
  induction 1 as [|c l Hc Hl IH]; simpl.
  - destruct (N =? 1); [done|]. by destruct (lines_prefix r (N - 1)).
  - rewrite (proj2 (Z.eqb_neq c 10)) by done. simpl. rewrite IH.
    destruct (N =? 1); [done|]. by destruct (lines_prefix r (N - 1)).
Qed.

Lemma take_lines_unlines L n :
  Forall nonl L -> 0 <= n ->
  take_lines (unlines L) n = (unlines (take (Z.to_nat n) L), unlines (drop (Z.to_nat n) L)).
Proof.
  intros HL Hn. unfold take_lines. destruct (Z.eqb_spec n 0) as [->|Hn0]; [by rewrite take_0|].
  assert (1 <= n) as H1 by lia. clear Hn Hn0. revert n H1.
  induction HL as [|l L Hl HL IH]; intros n Hn; [by rewrite take_nil, drop_nil|].
  rewrite unlines_cons, lines_prefix_line by done. destruct (Z.eqb_spec n 1) as [->|Hn1].
  - simpl. rewrite take_0, drop_0. unfold unlines. simpl. by rewrite app_nil_r.
  - rewrite IH by lia. replace (Z.to_nat n) with (S (Z.to_nat (n - 1))) by lia.
    cbn [take drop]. by rewrite unlines_cons.
Qed.

Lemma take_lines_app L M :
  Forall nonl (L ++ M) -> take_lines (unlines (L ++ M)) (Zlen L) = (unlines L, unlines M).
Proof. intros H. rewrite take_lines_unlines, Nat2Z.id, take_app_length, drop_app_length by (done || lia). done. Qed.

Lemma take_lines_len L M n :
  Zlen L = n -> Forall nonl (L ++ M) -> take_lines (unlines (L ++ M)) n = (unlines L, unlines M).
Proof. intros <-. apply take_lines_app. Qed.

Lemma same_loop_line l1 l2 r1 r2 N :
  nonl l1 -> nonl l2 ->
  same_loop (l1 ++ 10 :: r1) (l2 ++ 10 :: r2) N =
  if bool_decide (l1 = l2) then if N - 1 =? 0 then Ok true else same_loop r1 r2 (N - 1) else Ok false.
Proof.
  intros H1. revert l2. induction H1 as [|c1 l1 Hc1 Hl1 IH]; intros l2 H2.
  - destruct H2 as [|c2 l2 Hc2 _]; [done|]. cbn [same_loop app]. by rewrite (proj2 (Z.eqb_neq 10 c2)) by congruence.
  - destruct H2 as [|c2 l2 Hc2 H2].
    + cbn [same_loop app]. by rewrite (proj2 (Z.eqb_neq c1 10)) by congruence.
    + cbn [same_loop app]. destruct (Z.eqb_spec c1 c2) as [->|Hne].
      * rewrite (proj2 (Z.eqb_neq c2 10)), IH by done. by repeat case_bool_decide; simplify_eq.
      * by rewrite bool_decide_false by congruence.
Qed.

Lemma sameLines_spec L1 L2 N :
  Forall nonl L1 -> Forall nonl L2 -> 0 <= N <= Zlen L1 -> N <= Zlen L2 ->
  sameLines (unlines L1) (unlines L2) N =
  Ok (bool_decide (take (Z.to_nat N) L1 = take (Z.to_nat N) L2)).
Proof.
  intros H1 H2 HN1 HN2. unfold sameLines. destruct (Z.eqb_spec N 0) as [->|Hn0]; [done|].
  assert (1 <= N) as HN by lia. destruct HN1 as [_ HN1]. clear Hn0. revert L2 N H2 HN HN1 HN2.
  induction H1 as [|l1 L1 Hl1 H1 IH]; intros [|l2 L2] N H2 HN HN1 HN2; simpl in HN1, HN2; try lia.
  apply Forall_cons_1 in H2 as [Hl2 H2]. rewrite !unlines_cons, same_loop_line by done.
  replace (Z.to_nat N) with (S (Z.to_nat (N - 1))) by lia. cbn [take].
  case_bool_decide as E; [|by rewrite bool_decide_false by congruence]. subst l2.
  destruct (Z.eqb_spec (N - 1) 0) as [E0|E0].
  - rewrite E0. by rewrite !take_0, bool_decide_true.
  - rewrite IH by (done || lia). f_equal. apply bool_decide_ext. split; [by intros ->|by intros [= ->]].
Qed.

(** ** Scripts between lists of lines *)

(** Equal up to white space at the end. *)
Definition sim (A B : list (list Z)) : Prop := rstrip <$> A = rstrip <$> B.

Inductive edit : list triple -> list (list Z) -> list (list Z) -> Prop :=
| edit_nil : edit [] [] []
| edit_cons C C' D I T A B :
    sim C C' -> edit T A B ->
    edit ((Zlen C, Zlen D, Zlen I) :: T) (C ++ D ++ A) (C' ++ I ++ B).

Lemma sim_length A B : sim A B -> length A = length B.
Proof. intros H. apply (f_equal length) in H. by rewrite !length_fmap in H. Qed.

Lemma transforms_edit T A B :
  transforms (flat T) (rstrip <$> A) (rstrip <$> B) -> edit T A B.
Proof.
  remember (flat T) as R eqn:HR. remember (rstrip <$> A) as A' eqn:HA. remember (rstrip <$> B) as B' eqn:HB.
  intros H. revert T A B HR HA HB. induction H as [|C D I R A' B' H IH]; intros [|[[c d] i] T] A B HR HA HB; try done.
  - symmetry in HA, HB. apply fmap_nil_inv in HA, HB. subst. constructor.
  - injection HR as <- <- <- HR. symmetry in HA, HB.
    apply fmap_app_inv in HA as (C1 & A1 & -> & HA & ->). symmetry in HA.
    apply fmap_app_inv in HA as (D1 & A2 & -> & HA & ->).
    apply fmap_app_inv in HB as (C2 & B1 & HC & HB & ->). symmetry in HB.
    apply fmap_app_inv in HB as (I1 & B2 & -> & HB & ->).
    rewrite !length_fmap. constructor; [done|]. by apply (IH T).
Qed.

(** ** The arrays *)

Definition arr (pre : list Z) (T : list triple) : list Z := pre ++ flat T ++ [0; 0; 0].

Lemma arr_cons pre t T : arr pre (t :: T) = arr (pre ++ flat [t]) T.
Proof. unfold arr. destruct t as [[c d] i]. by rewrite <- app_assoc. Qed.

Lemma rd3_at pre c d i post : rd3 (pre ++ c :: d :: i :: post) (Zlen pre) = Ok (c, d, i).
Proof.
  unfold rd3.
  assert (forall k x n, (c :: d :: i :: post) !! k = Some x -> n = Zlen pre + Z.of_nat k ->
    rd (pre ++ c :: d :: i :: post) n = Ok x) as H.
  { intros k x n Hk ->. apply rd_ok; [lia|]. rewrite lookup_app_r by lia. by replace (_ - _)%nat with k by lia. }
  by rewrite (H 0%nat c (Zlen pre)), bind_Ok, (H 1%nat d (Zlen pre + 1)), bind_Ok, (H 2%nat i (Zlen pre + 2))
    by (done || lia).
Qed.

Lemma rd3_cons pre c d i T : rd3 (arr pre ((c, d, i) :: T)) (Zlen pre) = Ok (c, d, i).
Proof. apply rd3_at. Qed.
Lemma rd3_end pre : rd3 (arr pre []) (Zlen pre) = Ok (0, 0, 0).
Proof. apply rd3_at. Qed.

Lemma wr_cons pre c d i T x :
  wr (arr pre ((c, d, i) :: T)) (Zlen pre) x = Ok (arr pre ((x, d, i) :: T)).
Proof.
  unfold arr. rewrite wr_ok by (rewrite length_app; simpl; lia). rewrite Nat2Z.id.
  rewrite <- (Nat.add_0_r (length pre)), insert_app_r. done.
Qed.

(** ** Where a region of the pivot ends *)

(** Skipping [sz] lines of the pivot does not end inside a deletion. *)
Fixpoint lands (T : list triple) (sz : Z) : bool :=
  if sz <=? 0 then true
  else match T with
       | [] => true
       | (c, d, _) :: T => if sz <=? c then true else if sz - c <? d then false else lands T (sz - c - d)
       end.

Definition total (T : list triple) : Z := foldr (fun '(c, d, _) n => c + d + n) 0 T.

Lemma total_nonneg T : Forall pos3 T -> 0 <= total T.
Proof. induction 1 as [|[[c d] i] T Ht _ IH]; simpl in *; lia. Qed.

Lemma lands_total T sz : Forall pos3 T -> total T <= sz -> lands T sz = true.
Proof.
  intros HT. revert sz. induction HT as [|[[c d] i] T Ht HT IH]; intros sz Hsz; simpl in *.
  - by destruct (_ <=? _).
  - pose proof (total_nonneg T HT). destruct (Z.leb_spec sz 0); [done|]. destruct (Z.leb_spec sz c); [done|].
    destruct (Z.ltb_spec (sz - c) d); [lia|]. apply IH. lia.
Qed.

Lemma ends_at_CPY_spec fuel pre T sz :
  Forall pos3 T -> (length T <= fuel)%nat ->
  ends_at_CPY fuel (arr pre T) (Zlen pre) sz = Ok (lands T sz).
Proof.
  intros HT. revert fuel pre sz. induction HT as [|[[c d] i] T Ht HT IH]; intros fuel pre sz Hf.
  - destruct fuel; cbn [ends_at_CPY lands]; rewrite Z.gtb_ltb;
      destruct (Z.ltb_spec 0 sz), (Z.leb_spec sz 0); try done; try lia; by rewrite rd3_end.
  - destruct fuel as [|fuel]; simpl in Hf; [lia|]. cbn [ends_at_CPY lands]. rewrite Z.gtb_ltb.
    destruct (Z.ltb_spec 0 sz), (Z.leb_spec sz 0); try done; try lia.
    rewrite rd3_cons, bind_Ok. simpl in Ht.
    assert ((c >? 0) || (d >? 0) || (i >? 0) = true) as ->
      by (rewrite !orb_true_iff, !Z.gtb_lt; lia).
    rewrite Z.geb_leb. destruct (Z.leb_spec sz c); [done|]. rewrite Z.gtb_ltb.
    destruct (Z.ltb_spec (sz - c) d); [done|]. rewrite arr_cons.
    replace (Zlen pre + 3) with (Zlen (pre ++ flat [(c, d, i)])) by (rewrite length_app; simpl; lia).
    apply IH. lia.
Qed.

Lemma conflict_size_spec fuel s pre1 T1 pre2 T2 sz :
  aC1 s = arr pre1 T1 -> i1 s = Zlen pre1 -> aC2 s = arr pre2 T2 -> i2 s = Zlen pre2 ->
  Forall pos3 T1 -> Forall pos3 T2 ->
  total T1 <= sz + Z.of_nat fuel -> total T2 <= sz + Z.of_nat fuel ->
  exists sz', conflict_size fuel s sz = Ok sz' /\ sz <= sz' /\ lands T1 sz' = true /\ lands T2 sz' = true.
Proof.
  intros E1 E2 E3 E4 H1 H2.
  assert (forall sz, ends_at_CPY (length (aC1 s)) (aC1 s) (i1 s) sz = Ok (lands T1 sz)) as L1.
  { intros n. rewrite E1, E2. apply ends_at_CPY_spec; [done|].
    unfold arr. rewrite !length_app. pose proof (length_flat T1). lia. }
  assert (forall sz, ends_at_CPY (length (aC2 s)) (aC2 s) (i2 s) sz = Ok (lands T2 sz)) as L2.
  { intros n. rewrite E3, E4. apply ends_at_CPY_spec; [done|].
    unfold arr. rewrite !length_app. pose proof (length_flat T2). lia. }
  revert sz. induction fuel as [|fuel IH]; intros sz Hs1 Hs2; cbn [conflict_size]; rewrite L1, bind_Ok.
  - rewrite (lands_total T1 sz) by (done || lia). cbn [negb]. rewrite L2, bind_Ok.
    rewrite (lands_total T2 sz) by (done || lia). exists sz. split_and!; [done|lia|apply lands_total; done || lia..].
  - assert (exists sz', conflict_size fuel s (sz + 1) = Ok sz' /\ sz <= sz' /\ lands T1 sz' = true /\ lands T2 sz' = true)
      as Hnext by (destruct (IH (sz + 1)) as (sz' & ? & ? & ?); [lia|lia|exists sz'; split_and!; [done|lia|tauto|tauto]]).
    destruct (lands T1 sz) eqn:E; cbn [negb]; [|by rewrite bind_Ok]. rewrite L2, bind_Ok.
    destruct (lands T2 sz) eqn:E'; cbn [negb]; [|done]. exists sz. split_and!; done || lia.
Qed.

(** ** One side of a conflict *)

(** A script whose first triple may have been used up. *)
Definition loose (T : list triple) : Prop :=
  match T with
  | [] => True
  | (c, d, i) :: T => (0 <= c /\ 0 <= d /\ 0 <= i) /\ Forall pos3 T /\ Forall moves T
  end.

Lemma canonical_loose T : canonical T -> loose T.
Proof.
  intros [H1 H2]. destruct T as [|[[c d] i] T]; [done|]. apply Forall_cons_1 in H1 as [H H1].
  simpl in *. split_and!; try done; lia.
Qed.

Lemma canonical_cons t T : canonical (t :: T) -> canonical T.
Proof.
  intros [H1 H2]. apply Forall_cons_1 in H1 as [_ H1]. split; [done|].
  destruct T; [constructor|]. by apply Forall_cons_1 in H2 as [_ H2].
Qed.

Lemma edit_inv c d i T A B :
  edit ((c, d, i) :: T) A B ->
  exists C C' D I A' B', c = Zlen C /\ d = Zlen D /\ i = Zlen I /\ A = C ++ D ++ A' /\ B = C' ++ I ++ B' /\
    sim C C' /\ edit T A' B'.
Proof. intros H. inversion H; subst. by exists C, C', D, I, A0, B0. Qed.

(** Part of the lines of the first triple are used. *)
Lemma edit_split n c d i T A B :
  edit ((c, d, i) :: T) A B -> 0 <= n <= c ->
  exists C C' A' B', Zlen C = n /\ Zlen C' = n /\ A = C ++ A' /\ B = C' ++ B' /\ sim C C' /\
    edit ((c - n, d, i) :: T) A' B'.
Proof.
  intros (C & C' & D & I & A' & B' & -> & -> & -> & -> & -> & Hs & He)%edit_inv Hn.
  pose proof (sim_length _ _ Hs) as Hl.
  exists (take (Z.to_nat n) C), (take (Z.to_nat n) C'), (drop (Z.to_nat n) C ++ D ++ A'), (drop (Z.to_nat n) C' ++ I ++ B').
  rewrite !length_take. split_and!; [lia|lia|by rewrite (app_assoc (take _ _)), take_drop|by rewrite (app_assoc (take _ _)), take_drop| |].
  - unfold sim in *. by rewrite !fmap_take, Hs.
  - replace (Zlen C - n) with (Zlen (drop (Z.to_nat n) C)) by (rewrite length_drop; lia).
    constructor; [|done]. unfold sim in *. by rewrite !fmap_drop, Hs.
Qed.

Lemma drop_app_Z {A} (l k : list A) n : n = Zlen l -> drop (Z.to_nat n) (l ++ k) = k /\ take (Z.to_nat n) (l ++ k) = l.
Proof. intros ->. by rewrite Nat2Z.id, drop_app_length, take_app_length. Qed.

Lemma length_arr pre T : Zlen (arr pre T) = Zlen pre + 3 * Zlen T + 3.
Proof. unfold arr. rewrite !length_app. pose proof (length_flat T). simpl. lia. Qed.

Lemma edit_length T A B : edit T A B -> Zlen A = total T.
Proof.
  induction 1 as [|C C' D I T A B Hs He IH]; [done|]. rewrite !length_app. simpl. rewrite <- IH. lia.
Qed.

Definition head_copy (T : list triple) : Z := match T with [] => 0 | (c, _, _) :: _ => c end.

Lemma output_one_side_spec fuel out pre T A B sz :
  edit T A B -> canonical T -> Forall nonl B -> Forall (fun x => 0 <= x) pre ->
  lands T sz = true -> 0 <= sz -> (length T <= fuel)%nat ->
  exists pre' T' B1 B', B = B1 ++ B' /\ edit T' (drop (Z.to_nat sz) A) B' /\ loose T' /\
    Zlen pre' + 3 * Zlen T' = Zlen pre + 3 * Zlen T /\ Zlen T' <= Zlen T /\
    (T <> [] -> head_copy T < sz -> Zlen T' < Zlen T) /\ Forall (fun x => 0 <= x) pre' /\
    output_one_side fuel out (unlines B) (arr pre T) (Zlen pre) sz =
      Ok (out ++ unlines B1, unlines B', arr pre' T', Zlen pre').
Proof.
  intros He Hc HB Hpre Hl Hsz Hf. revert fuel out pre sz Hc HB Hpre Hl Hsz Hf.
  assert (forall fuel out pre T A B, edit T A B -> canonical T -> Forall (fun x => 0 <= x) pre ->
    exists pre' T' B1 B', B = B1 ++ B' /\ edit T' (drop (Z.to_nat 0) A) B' /\ loose T' /\
    Zlen pre' + 3 * Zlen T' = Zlen pre + 3 * Zlen T /\ Zlen T' <= Zlen T /\
    (T <> [] -> head_copy T < 0 -> Zlen T' < Zlen T) /\ Forall (fun x => 0 <= x) pre' /\
    output_one_side fuel out (unlines B) (arr pre T) (Zlen pre) 0 =
      Ok (out ++ unlines B1, unlines B', arr pre' T', Zlen pre')) as H0.
  { clear. intros fuel out pre T A B He Hc Hpre. exists pre, T, [], B. change (unlines []) with (@nil Z).
    rewrite (app_nil_r out).
    split_and!; try done; [by apply canonical_loose| |by destruct fuel].
    intros Hne. destruct T as [|[[c d] i] T]; [done|]. destruct Hc as [[Hc _]%Forall_cons_1 _].
    simpl in *. lia. }
  induction He as [|C C' D I T A B Hs He IH]; intros fuel out pre sz Hc HB Hpre Hl Hsz Hf.
  { exists pre, [], [], []. rewrite drop_nil. change (unlines []) with (@nil Z). rewrite (app_nil_r out).
    split_and!; try done; [constructor|].
    destruct fuel; cbn [output_one_side]; (destruct (sz >? 0); [|done]); by rewrite rd3_end. }
  destruct (decide (sz = 0)) as [->|Hsz0]; [apply H0; [by constructor|done|done]|].
  destruct fuel as [|fuel]; simpl in Hf; [lia|]. cbn [output_one_side].
  rewrite Z.gtb_ltb, (proj2 (Z.ltb_lt 0 sz)), rd3_cons, bind_Ok by lia.
  pose proof Hc as [[Ht _]%Forall_cons_1 _]. simpl in Ht.
  assert ((Zlen C =? 0) && (Zlen D =? 0) && (Zlen I =? 0) = false) as ->
    by (rewrite !andb_false_iff, !Z.eqb_neq; lia).
  rewrite Z.geb_leb. cbn [lands] in Hl. rewrite (proj2 (Z.leb_gt sz 0)) in Hl by lia.
  destruct (Z.leb_spec sz (Zlen C)).
  - destruct (edit_split sz (Zlen C) (Zlen D) (Zlen I) T (C ++ D ++ A) (C' ++ I ++ B))
      as (C1 & C1' & A' & B' & H1 & H2 & HA & HB' & Hs' & He'); [by constructor|lia|].
    rewrite HB' in HB |- *. rewrite HA.
    pose proof (take_lines_app C1' B' HB) as Htk. rewrite H2 in Htk. rewrite Htk, wr_cons, bind_Ok.
    destruct (drop_app_Z C1 A' sz) as [-> _]; [done|].
    eexists pre, _, C1', B'. split_and!; try done; [|simpl; lia].
    apply canonical_loose in Hc. destruct Hc as ((? & ? & ?) & ? & ?). split_and!; done || lia.
  - destruct (Z.ltb_spec (sz - Zlen C) (Zlen D)); [done|]. rewrite (sim_length _ _ Hs), take_lines_app by done.
    rewrite take_lines_app by (by apply Forall_app in HB as [_ HB]). rewrite arr_cons.
    replace (Zlen pre + 3) with (Zlen (pre ++ flat [(Zlen C', Zlen D, Zlen I)])) by (rewrite length_app; simpl; lia).
    apply Forall_app in HB as [HB1 [HB2 HB]%Forall_app].
    destruct (IH fuel (out ++ unlines C' ++ unlines I) (pre ++ flat [(Zlen C', Zlen D, Zlen I)])
      (sz - Zlen C - Zlen D)) as (pre' & T' & B1 & B' & -> & He' & Hl' & Hlen & Hle & _ & Hpre' & Heq);
      [by apply canonical_cons in Hc|done|apply Forall_app_2; [done|repeat constructor; lia]|done|lia|lia|].
    exists pre', T', (C' ++ I ++ B1), B'. rewrite length_app in Hlen. simpl in Hlen. cbn [length].
    rewrite <- !app_assoc. split_and!; try done; try lia.
    + rewrite (sim_length _ _ Hs) in He'. replace (drop (Z.to_nat sz) (C ++ D ++ A)) with
        (drop (Z.to_nat (sz - Zlen C' - Zlen D)) A); [done|].
      rewrite app_assoc, drop_app_ge; [|rewrite length_app; lia]. f_equal. rewrite length_app.
      rewrite (sim_length _ _ Hs). lia.
    + rewrite (sim_length _ _ Hs) in Heq.
      replace (sz - (Zlen C' + Zlen D)) with (sz - Zlen C' - Zlen D) by lia.
      etrans; [exact Heq|]. by rewrite !unlines_app, <- !app_assoc.
Qed.

(** ** Three-way merges of lines *)

Inductive merged : Z -> list (list Z) -> list (list Z) -> list (list Z) -> list (list Z) -> Prop :=
| merged_nil : merged 0 [] [] [] []
| merged_same n C C1 C2 P V1 V2 O :
    sim C C1 -> sim C C2 -> merged n P V1 V2 O ->
    merged n (C ++ P) (C1 ++ V1) (C2 ++ V2) (C ++ O)
| merged_only2 n D D1 I P V1 V2 O :
    sim D D1 -> merged n P V1 V2 O ->
    merged n (D ++ P) (D1 ++ V1) (I ++ V2) (I ++ O)
| merged_only1 n D D2 I P V1 V2 O :
    sim D D2 -> merged n P V1 V2 O ->
    merged n (D ++ P) (I ++ V1) (D2 ++ V2) (I ++ O)
| merged_both n D I P V1 V2 O :
    merged n P V1 V2 O ->
    merged n (D ++ P) (I ++ V1) (I ++ V2) (I ++ O)
| merged_conflict n D I1 I2 P V1 V2 O :
    merged n P V1 V2 O ->
    merged (n + 1) (D ++ P) (I1 ++ V1) (I2 ++ V2) ([zBegin] ++ I1 ++ [zMid] ++ I2 ++ [zEnd] ++ O).

(** ** The state of the loop *)

(** An array with the index of the triples that are left. *)
Definition side (aC : list Z) (i limit : Z) (T : list triple) : Prop :=
  exists pre, aC = arr pre T /\ i = Zlen pre /\ Forall (fun x => 0 <= x) pre /\ limit = Zlen pre + 3 * Zlen T.

Definition nat3 (t : triple) : Prop := let '(c, d, i) := t in 0 <= c /\ 0 <= d /\ 0 <= i.

Lemma side_rd3 aC i lim c d n T : side aC i lim ((c, d, n) :: T) -> rd3 aC i = Ok (c, d, n).
Proof. intros (pre & -> & -> & _). apply rd3_cons. Qed.

Lemma side_wr aC i lim c d n T x :
  side aC i lim ((c, d, n) :: T) ->
  exists aC', wr aC i x = Ok aC' /\ side aC' i lim ((x, d, n) :: T).
Proof. intros (pre & -> & -> & Hp & ->). rewrite wr_cons. eexists. split; [done|]. by exists pre. Qed.

Lemma side_next aC i lim t T : side aC i lim (t :: T) -> nat3 t -> side aC (i + 3) lim T.
Proof.
  intros (pre & -> & -> & Hp & ->) Ht. exists (pre ++ flat [t]). destruct t as [[c d] n]. simpl in Ht.
  rewrite arr_cons, length_app. split_and!; [done|simpl; lia| |cbn [length flat concat fmap app list_fmap]; simpl; lia].
  apply Forall_app_2; [done|]. repeat constructor; lia.
Qed.

Lemma side_end aC i lim T : side aC i lim T -> (i <? lim) = negb (bool_decide (T = [])).
Proof.
  intros (pre & -> & -> & _ & ->). destruct T as [|t T].
  - rewrite bool_decide_true by done. apply Z.ltb_ge. simpl. lia.
  - rewrite bool_decide_false by done. apply Z.ltb_lt. simpl. lia.
Qed.

Lemma advance_spec aC i lim T :
  side aC i lim T -> loose T ->
  exists i' T', advance aC i lim = Ok i' /\ side aC i' lim T' /\ canonical T' /\
    3 * Zlen T' + (if head_copy T' >? 0 then 1 else 0) <= 3 * Zlen T + (if head_copy T >? 0 then 1 else 0) /\
    forall P V, edit T P V -> edit T' P V.
Proof.
  intros Hs Hl. unfold advance. rewrite (side_end _ _ _ _ Hs). destruct T as [|[[c d] n] T].
  { exists i, []. split_and!; try done; constructor. }
  rewrite bool_decide_false by done. cbn [negb]. rewrite (side_rd3 _ _ _ _ _ _ _ Hs), bind_Ok.
  destruct Hl as (Hn & Hp & Hm). destruct (_ && _) eqn:E.
  - apply andb_true_iff in E as [[->%Z.eqb_eq ->%Z.eqb_eq]%andb_true_iff ->%Z.eqb_eq].
    exists (i + 3), T. split_and!; [done|by apply (side_next _ _ _ _ _ Hs)| | |].
    + split; [done|]. destruct Hm; [constructor|done].
    + cbn [length]. destruct (head_copy T >? 0); simpl; lia.
    + intros P V (C & C' & D & I & A' & B' & HC & HD & HI & -> & -> & Hsim & He)%edit_inv.
      apply sim_length in Hsim. destruct C, C', D, I; simpl in *; done || lia.
  - exists i, ((c, d, n) :: T). split_and!; try done. split; [|done]. constructor; [|done].
    apply andb_false_iff in E as [[E%Z.eqb_neq|E%Z.eqb_neq]%andb_false_iff|E%Z.eqb_neq]; simpl; lia.
Qed.

Lemma side_sum aC i lim T : side aC i lim T -> Forall pos3 T -> total T <= sum aC.
Proof.
  intros (pre & -> & _ & Hp & _) HT. unfold arr.
  assert (forall l k, sum (l ++ k) = sum l + sum k) as Happ.
  { intros l k. induction l as [|x l IH]; simpl; [done|]. unfold sum in *. lia. }
  rewrite !Happ. assert (0 <= sum pre) by (clear -Hp; induction Hp; unfold sum in *; simpl; lia).
  assert (total T <= sum (flat T)) as H'; [|change (sum [0; 0; 0]) with 0; lia].
  clear -HT Happ. induction HT as [|[[c d] i] T Ht HT IH]; [done|].
  change (flat ((c, d, i) :: T)) with ([c; d; i] ++ flat T). rewrite Happ. unfold sum at 1. simpl in *. lia.
Qed.

Record rep (lim1 lim2 : Z) (s : mstate) (P V1 V2 : list (list Z)) (T1 T2 : list triple) : Prop := {
  rep_side1 : side (aC1 s) (i1 s) lim1 T1;
  rep_side2 : side (aC2 s) (i2 s) lim2 T2;
  rep_pivot : pPivot s = unlines P;
  rep_v1 : pV1 s = unlines V1;
  rep_v2 : pV2 s = unlines V2;
  rep_nonl : Forall nonl P /\ Forall nonl V1 /\ Forall nonl V2;
  rep_edit1 : edit T1 P V1;
  rep_edit2 : edit T2 P V2 }.

(** What a step adds to the output for the lines it uses. *)
Definition region (k : Z) (P V1 V2 O P' V1' V2' : list (list Z)) : Prop :=
  forall n O', merged n P' V1' V2' O' -> merged (n + k) P V1 V2 (O ++ O').

Definition measure (T1 T2 : list triple) : Z :=
  3 * Zlen T1 + (if head_copy T1 >? 0 then 1 else 0) + (3 * Zlen T2 + (if head_copy T2 >? 0 then 1 else 0)).

(** The outcome of a step from state [s]. *)
Definition progress (lim1 lim2 : Z) (s : mstate) (P V1 V2 : list (list Z)) (T1 T2 : list triple)
    (ok : list triple -> Prop) (r : result (mstate + Z * list Z)) : Prop :=
  exists s' P' V1' V2' T1' T2' O k,
    r = Ok (inl s') /\ rep lim1 lim2 s' P' V1' V2' T1' T2' /\ ok T1' /\ ok T2' /\
    pOut s' = pOut s ++ unlines O /\ nConflict s' = nConflict s + k /\
    region k P V1 V2 O P' V1' V2' /\ measure T1' T2' < measure T1 T2.

Lemma ind_range (T : list triple) : 0 <= (if head_copy T >? 0 then 1 else 0) <= 1.
Proof. destruct (_ >? _); lia. Qed.

Ltac forall_app := repeat match goal with
  | H : Forall _ (_ ++ _) |- _ => apply Forall_app in H as [? ?]
  | H : _ /\ _ |- _ => destruct H
  end.

Section Loop.
Context (csv_merge : list Z -> list Z -> list Z -> list Z -> Z * list Z) (zP zV1 zV2 : list Z).
Context (Hcsv : forall o, csv_merge zP zV1 zV2 o = (0, o) \/ fst (csv_merge zP zV1 zV2 o) = 1 \/
  fst (csv_merge zP zV1 zV2 o) = -1).

(** The result that [csv_merge] set, or its refusal. *)
Definition from_csv (x : Z * list Z) : Prop :=
  exists o, csv_merge zP zV1 zV2 o = (1, snd x) /\ fst x = 0 \/
            csv_merge zP zV1 zV2 o = (-1, snd x) /\ fst x = -1.

Section Branches.
Context (lim1 lim2 : Z) (a1 a2 : list Z) (j1 j2 : Z) (p v1 v2 out : list Z) (k : Z).
Abbreviation s := (MState a1 a2 j1 j2 p v1 v2 out k).
Context (P V1 V2 : list (list Z)) (c1 d1 n1 c2 d2 n2 : Z) (T1 T2 : list triple).
Abbreviation U1 := ((c1, d1, n1) :: T1).
Abbreviation U2 := ((c2, d2, n2) :: T2).
Context (Hrep : rep lim1 lim2 s P V1 V2 U1 U2) (Hc1 : canonical U1) (Hc2 : canonical U2).

Lemma branch_copy :
  0 < c1 -> 0 < c2 ->
  progress lim1 lim2 s P V1 V2 U1 U2 loose
    (let nCpy := if c1 <? c2 then c1 else c2 in
     let '(x, p) := take_lines p nCpy in
     a1 ← wr a1 j1 (c1 - nCpy);
     a2 ← wr a2 j2 (c2 - nCpy);
     Ok (inl (MState a1 a2 j1 j2 p (snd (take_lines v1 nCpy)) (snd (take_lines v2 nCpy)) (out ++ x) k))).
Proof.
  intros H1 H2. cbv zeta. set (m := if c1 <? c2 then c1 else c2).
  assert (0 < m /\ m <= c1 /\ m <= c2 /\ (m = c1 \/ m = c2)) as (Hm0 & Hm1 & Hm2 & Hm)
    by (unfold m; destruct (Z.ltb_spec c1 c2); lia).
  destruct Hrep as [S1 S2 Ep Ev1 Ev2 Hnl E1 E2]. cbn in S1, S2, Ep, Ev1, Ev2.
  destruct (edit_split m _ _ _ _ _ _ E1) as (C & C1 & A' & B' & HC & HC1 & EA & EB & Hs1 & E1'); [lia|].
  destruct (edit_split m _ _ _ _ _ _ E2) as (C0 & C2 & A2 & B2 & HC0 & HC2 & EA2 & EB2 & Hs2 & E2'); [lia|].
  rewrite EA in EA2. apply app_inj_1 in EA2 as [<- <-]; [|lia]. subst P V1 V2 p v1 v2.
  destruct (side_wr _ _ _ _ _ _ _ (c1 - m) S1) as (a1' & -> & S1').
  destruct (side_wr _ _ _ _ _ _ _ (c2 - m) S2) as (a2' & -> & S2').
  rewrite (take_lines_len C A' m HC), !bind_Ok by tauto.
  rewrite (take_lines_len C1 B' m HC1), (take_lines_len C2 B2 m HC2) by tauto. cbn [snd].
  forall_app. eexists _, A', B', B2, _, _, C, 0. split_and!; [done| | | |done|cbn; lia| |].
  - by constructor.
  - apply canonical_loose in Hc1. cbn in Hc1 |- *. split; [lia|tauto].
  - apply canonical_loose in Hc2. cbn in Hc2 |- *. split; [lia|tauto].
  - intros n O' Hmg. rewrite Z.add_0_r. by apply merged_same.
  - unfold measure. cbn [length head_copy]. rewrite !Z.gtb_ltb.
    destruct (Z.ltb_spec 0 (c1 - m)), (Z.ltb_spec 0 (c2 - m)), (Z.ltb_spec 0 c1), (Z.ltb_spec 0 c2); lia.
Qed.

Lemma branch_only2 :
  0 < c1 -> c2 = 0 -> d2 <= c1 ->
  progress lim1 lim2 s P V1 V2 U1 U2 loose
    (let '(y, v2) := take_lines v2 n2 in
     a1 ← wr a1 j1 (c1 - d2);
     Ok (inl (MState a1 a2 j1 (j2 + 3) (snd (take_lines p d2)) (snd (take_lines v1 d2)) v2 (out ++ y) k))).
Proof.
  intros H1 H2 Hd.
  destruct Hrep as [S1 S2 Ep Ev1 Ev2 Hnl E1 E2]. cbn in S1, S2, Ep, Ev1, Ev2.
  pose proof Hc2 as [[Hpos2 _]%Forall_cons_1 _]. cbn in Hpos2.
  destruct (edit_split d2 _ _ _ _ _ _ E1) as (D & D1 & A' & B' & HD & HD1 & EA & EB & Hs1 & E1'); [lia|].
  apply edit_inv in E2 as (C0 & C0' & D2 & I & A2 & B2 & HC0 & HD2 & HI & EA2 & EB2 & Hs2 & E2').
  apply sim_length in Hs2. destruct C0; [|simpl in *; lia]. destruct C0'; [|simpl in *; lia]. simpl in EA2, EB2.
  rewrite EA in EA2. apply app_inj_1 in EA2 as [<- <-]; [|lia]. subst P V1 V2 p v1 v2.
  destruct (side_wr _ _ _ _ _ _ _ (c1 - d2) S1) as (a1' & -> & S1').
  rewrite (take_lines_len I B2 _ (eq_sym HI)), bind_Ok by tauto.
  rewrite (take_lines_len D A' d2 HD), (take_lines_len D1 B' d2 HD1) by tauto. cbn [snd].
  forall_app. eexists _, A', B', B2, _, T2, I, 0. split_and!; [done| | | |done|cbn; lia| |].
  - constructor; try done. apply (side_next _ _ _ _ _ S2). cbn. lia.
  - apply canonical_loose in Hc1. cbn in Hc1 |- *. split; [lia|tauto].
  - by apply canonical_cons, canonical_loose in Hc2.
  - intros n O' Hmg. rewrite Z.add_0_r. by apply merged_only2.
  - unfold measure. cbn [length head_copy]. pose proof (ind_range T2). rewrite !Z.gtb_ltb in *.
    destruct (Z.ltb_spec 0 (c1 - d2)), (Z.ltb_spec 0 c1), (Z.ltb_spec 0 c2); lia.
Qed.

Lemma branch_only1 :
  0 < c2 -> c1 = 0 -> d1 <= c2 ->
  progress lim1 lim2 s P V1 V2 U1 U2 loose
    (let '(y, v1) := take_lines v1 n1 in
     a2 ← wr a2 j2 (c2 - d1);
     Ok (inl (MState a1 a2 (j1 + 3) j2 (snd (take_lines p d1)) v1 (snd (take_lines v2 d1)) (out ++ y) k))).
Proof.
  intros H1 H2 Hd.
  destruct Hrep as [S1 S2 Ep Ev1 Ev2 Hnl E1 E2]. cbn in S1, S2, Ep, Ev1, Ev2.
  pose proof Hc1 as [[Hpos1 _]%Forall_cons_1 _]. cbn in Hpos1.
  destruct (edit_split d1 _ _ _ _ _ _ E2) as (D & D1 & A' & B' & HD & HD1 & EA & EB & Hs1 & E2'); [lia|].
  apply edit_inv in E1 as (C0 & C0' & D2 & I & A2 & B2 & HC0 & HD2 & HI & EA2 & EB2 & Hs2 & E1').
  apply sim_length in Hs2. destruct C0; [|simpl in *; lia]. destruct C0'; [|simpl in *; lia]. simpl in EA2, EB2.
  rewrite EA in EA2. apply app_inj_1 in EA2 as [<- <-]; [|lia]. subst P V1 V2 p v1 v2.
  destruct (side_wr _ _ _ _ _ _ _ (c2 - d1) S2) as (a2' & -> & S2').
  rewrite (take_lines_len I B2 _ (eq_sym HI)), bind_Ok by tauto.
  rewrite (take_lines_len D A' d1 HD), (take_lines_len D1 B' d1 HD1) by tauto. cbn [snd].
  forall_app. eexists _, A', B2, B', T1, _, I, 0. split_and!; [done| | | |done|cbn; lia| |].
  - constructor; try done. apply (side_next _ _ _ _ _ S1). cbn. lia.
  - by apply canonical_cons, canonical_loose in Hc1.
  - apply canonical_loose in Hc2. cbn in Hc2 |- *. split; [lia|tauto].
  - intros n O' Hmg. rewrite Z.add_0_r. by apply merged_only1.
  - unfold measure. cbn [length head_copy]. pose proof (ind_range T1). rewrite !Z.gtb_ltb in *.
    destruct (Z.ltb_spec 0 (c2 - d1)), (Z.ltb_spec 0 c1), (Z.ltb_spec 0 c2); lia.
Qed.

(** Both versions have an edit at this place of the pivot. *)
Lemma branch_same_edit :
  c1 = 0 -> c2 = 0 ->
  exists e, sameEdit a1 j1 a2 j2 v1 v2 = Ok e /\
    (e = true -> progress lim1 lim2 s P V1 V2 U1 U2 loose
      (let '(y, v1) := take_lines v1 n1 in
       Ok (inl (MState a1 a2 (j1 + 3) (j2 + 3) (snd (take_lines p d1)) v1 (snd (take_lines v2 n1)) (out ++ y) k)))).
Proof.
  intros -> ->. destruct Hrep as [S1 S2 Ep Ev1 Ev2 Hnl E1 E2]. cbn in S1, S2, Ep, Ev1, Ev2.
  unfold sameEdit. rewrite (side_rd3 _ _ _ _ _ _ _ S1), bind_Ok, (side_rd3 _ _ _ _ _ _ _ S2), bind_Ok. cbn [Z.eqb negb].
  destruct (Z.eqb_spec d1 d2) as [<-|]; cbn [negb]; [|by exists false].
  destruct (Z.eqb_spec n1 n2) as [<-|]; cbn [negb]; [|by exists false].
  pose proof Hc1 as [[Hpos1 _]%Forall_cons_1 _]. pose proof Hc2 as [[Hpos2 _]%Forall_cons_1 _]. cbn in Hpos1, Hpos2.
  apply edit_inv in E1 as (C0 & C0' & D1 & I1 & A1 & B1 & HC0 & HD1 & HI1 & EA1 & EB1 & Hs1 & E1').
  apply edit_inv in E2 as (C3 & C3' & D2 & I2 & A2 & B2 & HC3 & HD2 & HI2 & EA2 & EB2 & Hs2 & E2').
  apply sim_length in Hs1, Hs2. destruct C0, C0', C3, C3'; simpl in HC0, HC3, Hs1, Hs2; try lia.
  simpl in EA1, EB1, EA2, EB2. subst P V1 V2 p v1 v2. apply app_inj_1 in EA2 as [<- <-]; [|lia].
  rewrite sameLines_spec by (tauto || (rewrite ?length_app; lia)). eexists. split; [done|].
  destruct (drop_app_Z I1 B1 n1 HI1) as [_ ->]. destruct (drop_app_Z I2 B2 n1 HI2) as [_ ->].
  rewrite bool_decide_eq_true. intros <-.
  rewrite (take_lines_len I1 B1 _ (eq_sym HI1)) by tauto.
  rewrite (take_lines_len D1 A1 _ (eq_sym HD1)), (take_lines_len I1 B2 _ (eq_sym HI2)) by tauto. cbn [snd].
  forall_app. eexists _, A1, B1, B2, T1, T2, I1, 0. split_and!; [done| | | |done|cbn; lia| |].
  - constructor; try done; [apply (side_next _ _ _ _ _ S1)|apply (side_next _ _ _ _ _ S2)]; cbn; lia.
  - by apply canonical_cons, canonical_loose in Hc1.
  - by apply canonical_cons, canonical_loose in Hc2.
  - intros n O' Hmg. rewrite Z.add_0_r. by apply merged_both.
  - unfold measure. cbn [length]. pose proof (ind_range T1). pose proof (ind_range T2).
    pose proof (ind_range ((0, d1, n1) :: T1)). pose proof (ind_range ((0, d1, n1) :: T2)). lia.
Qed.

Lemma side_canonical_length aC i lim T : side aC i lim T -> (length T <= length aC)%nat.
Proof. intros (pre & -> & _). pose proof (length_arr pre T). lia. Qed.

Lemma branch_conflict :
  c1 <= 0 \/ c2 <= 0 ->
  progress lim1 lim2 s P V1 V2 U1 U2 loose (merge_conflict csv_merge zP zV1 zV2 s) \/
  exists x, merge_conflict csv_merge zP zV1 zV2 s = Ok (inr x) /\ from_csv x.
Proof.
  intros Hzero. destruct Hrep as [S1 S2 Ep Ev1 Ev2 Hnl E1 E2]. cbn in S1, S2, Ep, Ev1, Ev2.
  pose proof (proj1 Hc1) as Hp1. pose proof (proj1 Hc2) as Hp2.
  pose proof (side_sum _ _ _ _ S1 Hp1) as Hsum1. pose proof (side_sum _ _ _ _ S2 Hp2) as Hsum2.
  pose proof (total_nonneg _ Hp1). pose proof (total_nonneg _ Hp2).
  unfold merge_conflict. cbn [aC1 aC2 i1 i2 pPivot pV1 pV2 pOut nConflict].
  pose proof (side_canonical_length _ _ _ _ S1) as L1. pose proof (side_canonical_length _ _ _ _ S2) as L2.
  destruct S1 as (pre1 & Ea1 & Ej1 & Hpre1 & Hlim1). destruct S2 as (pre2 & Ea2 & Ej2 & Hpre2 & Hlim2).
  destruct (conflict_size_spec (Z.to_nat (sum a1 + sum a2)) s pre1 U1 pre2 U2 1) as (sz & -> & Hsz & Hl1 & Hl2);
    [done..|lia|lia|].
  rewrite bind_Ok. destruct (csv_merge zP zV1 zV2 out) as [sub o] eqn:Ecsv.
  destruct ((sub =? 1) || (sub =? -1)) eqn:Esub.
  { right. eexists. split; [done|]. exists out. rewrite Ecsv. cbn [fst snd].
    destruct (Z.eqb_spec sub 1) as [->|]; [by left|]. cbn in Esub. apply Z.eqb_eq in Esub as ->. by right. }
  left. assert (sub = 0 /\ o = out) as [-> ->].
  { apply orb_false_iff in Esub as [Q1%Z.eqb_neq Q2%Z.eqb_neq].
    destruct (Hcsv out) as [H'|[H'|H']]; rewrite Ecsv in H'; cbn in H'; [by simplify_eq|done|done]. }
  subst a1 a2 j1 j2 p v1 v2. destruct Hnl as (NP & N1 & N2).
  destruct (output_one_side_spec (length (arr pre1 U1)) (out ++ zBegin ++ nl) pre1 U1 P V1 sz)
    as (pre1' & T1' & B1 & B1' & -> & E1' & Hlo1 & Hlen1 & Hle1 & Hlt1 & Hpre1' & ->); [done..|lia|lia|].
  rewrite bind_Ok.
  destruct (output_one_side_spec (length (arr pre2 U2)) (((out ++ zBegin ++ nl) ++ unlines B1) ++ zMid ++ nl) pre2 U2 P V2 sz)
    as (pre2' & T2' & B2 & B2' & -> & E2' & Hlo2 & Hlen2 & Hle2 & Hlt2 & Hpre2' & ->); [done..|lia|lia|].
  rewrite bind_Ok, take_lines_unlines by (done || lia). cbn [snd].
  eexists _, (drop (Z.to_nat sz) P), B1', B2', T1', T2', ([zBegin] ++ B1 ++ [zMid] ++ B2 ++ [zEnd]), 1.
  split_and!; [done| |done|done| |done| |].
  - constructor; cbn; try done; [exists pre1'; split_and!; done || lia|exists pre2'; split_and!; done || lia|].
    forall_app. split_and!; [by apply Forall_drop|done|done].
  - cbn [pOut]. rewrite !unlines_app, !unlines_cons, <- !app_assoc. done.
  - intros n O' Hmg. rewrite <- !app_assoc. rewrite <- (take_drop (Z.to_nat sz) P) at 1. by apply merged_conflict.
  - pose proof (ind_range T1'). pose proof (ind_range T2'). pose proof (ind_range U1). pose proof (ind_range U2).
    unfold measure. cbn [head_copy] in Hlt1, Hlt2. destruct Hzero.
    + specialize (Hlt1 ltac:(done) ltac:(lia)). lia.
    + specialize (Hlt2 ltac:(done) ltac:(lia)). lia.
Qed.

Lemma merge_branch_spec :
  progress lim1 lim2 s P V1 V2 U1 U2 loose (merge_branch csv_merge zP zV1 zV2 s) \/
  exists x, merge_branch csv_merge zP zV1 zV2 s = Ok (inr x) /\ from_csv x.
Proof.
  pose proof Hc1 as [[Hpos1 _]%Forall_cons_1 _]. pose proof Hc2 as [[Hpos2 _]%Forall_cons_1 _]. cbn in Hpos1, Hpos2.
  unfold merge_branch. pose proof (rep_side1 _ _ _ _ _ _ _ _ Hrep) as S1. pose proof (rep_side2 _ _ _ _ _ _ _ _ Hrep) as S2.
  cbn in S1, S2. rewrite (side_rd3 _ _ _ _ _ _ _ S1), bind_Ok, (side_rd3 _ _ _ _ _ _ _ S2), bind_Ok.
  rewrite !Z.gtb_ltb, !Z.geb_leb.
  destruct (Z.ltb_spec 0 c1) as [H1|H1], (Z.ltb_spec 0 c2) as [H2|H2]; cbn [andb]; rewrite ?andb_true_r, ?andb_false_r;
    cbn [andb]; [by left; apply branch_copy|..].
  - destruct (Z.leb_spec d2 c1); cbn [andb].
    + rewrite (proj2 (Z.ltb_lt 0 (d2 + n2))) by lia. left. apply branch_only2; lia.
    + unfold sameEdit. rewrite (side_rd3 _ _ _ _ _ _ _ S1), bind_Ok, (side_rd3 _ _ _ _ _ _ _ S2), bind_Ok.
      rewrite (proj2 (Z.eqb_neq c1 c2)) by lia. cbn [negb]. rewrite bind_Ok. apply branch_conflict. lia.
  - destruct (Z.leb_spec d1 c2); cbn [andb].
    + rewrite (proj2 (Z.ltb_lt 0 (d1 + n1))) by lia. left. apply branch_only1; lia.
    + unfold sameEdit. rewrite (side_rd3 _ _ _ _ _ _ _ S1), bind_Ok, (side_rd3 _ _ _ _ _ _ _ S2), bind_Ok.
      rewrite (proj2 (Z.eqb_neq c1 c2)) by lia. cbn [negb]. rewrite bind_Ok. apply branch_conflict. lia.
  - destruct branch_same_edit as (e & -> & He); [lia|lia|]. rewrite bind_Ok. destruct e.
    + left. rewrite check_true, bind_Ok by (apply Z.eqb_eq; lia). by apply He.
    + apply branch_conflict. lia.
Qed.
End Branches.

Lemma merge_step_spec lim1 lim2 s P V1 V2 T1 T2 :
  rep lim1 lim2 s P V1 V2 T1 T2 -> canonical T1 -> canonical T2 -> T1 <> [] -> T2 <> [] ->
  progress lim1 lim2 s P V1 V2 T1 T2 canonical (merge_step csv_merge zP zV1 zV2 lim1 lim2 s) \/
  exists x, merge_step csv_merge zP zV1 zV2 lim1 lim2 s = Ok (inr x) /\ from_csv x.
Proof.
  intros Hrep Hc1 Hc2 H1 H2. destruct T1 as [|[[c1 d1] n1] T1]; [done|]. destruct T2 as [|[[c2 d2] n2] T2]; [done|].
  destruct s as [a1 a2 j1 j2 p v1 v2 out k]. unfold merge_step.
  destruct (merge_branch_spec lim1 lim2 a1 a2 j1 j2 p v1 v2 out k P V1 V2 c1 d1 n1 c2 d2 n2 T1 T2 Hrep Hc1 Hc2)
    as [(s' & P' & V1' & V2' & T1' & T2' & O & m & -> & [S1 S2 Ep Ev1 Ev2 Hnl E1 E2] & L1 & L2 & Ho & Hn & Hreg & Hm)
       |(x & -> & Hx)]; [left|right; by exists x].
  rewrite bind_Ok. destruct (advance_spec _ _ _ _ S1 L1) as (j1' & T1'' & -> & S1' & C1 & M1 & X1).
  destruct (advance_spec _ _ _ _ S2 L2) as (j2' & T2'' & -> & S2' & C2 & M2 & X2). rewrite !bind_Ok.
  eexists _, P', V1', V2', T1'', T2'', O, m. split_and!; try done; [constructor; cbn; auto|].
  apply (Z.le_lt_trans _ (measure T1' T2')); [|done]. by apply Z.add_le_mono.
Qed.

Lemma merge_loop_spec fuel lim1 lim2 s P V1 V2 T1 T2 :
  rep lim1 lim2 s P V1 V2 T1 T2 -> canonical T1 -> canonical T2 -> measure T1 T2 <= Z.of_nat fuel ->
  (exists s' P' V1' V2' T1' T2' O k,
    merge_loop csv_merge zP zV1 zV2 fuel lim1 lim2 s = Ok (inl s') /\ rep lim1 lim2 s' P' V1' V2' T1' T2' /\
    canonical T1' /\ canonical T2' /\ (T1' = [] \/ T2' = []) /\
    pOut s' = pOut s ++ unlines O /\ nConflict s' = nConflict s + k /\ region k P V1 V2 O P' V1' V2') \/
  exists x, merge_loop csv_merge zP zV1 zV2 fuel lim1 lim2 s = Ok (inr x) /\ from_csv x.
Proof.
  revert s P V1 V2 T1 T2. induction fuel as [|fuel IH]; intros s P V1 V2 T1 T2 Hrep Hc1 Hc2 Hf; cbn [merge_loop];
    rewrite (side_end _ _ _ _ (rep_side1 _ _ _ _ _ _ _ _ Hrep)), (side_end _ _ _ _ (rep_side2 _ _ _ _ _ _ _ _ Hrep)).
  - assert (T1 = [] /\ T2 = []) as [-> ->].
    { unfold measure in Hf. pose proof (ind_range T1). pose proof (ind_range T2).
      destruct T1, T2; simpl in *; done || lia. }
    left. exists s, P, V1, V2, [], [], [], 0. cbn [bool_decide negb andb]. rewrite app_nil_r.
    split_and!; try done; [by left|lia|]. intros n O' H. by rewrite Z.add_0_r.
  - destruct (decide (T1 = [] \/ T2 = [])) as [Hend|Hne].
    + left. exists s, P, V1, V2, T1, T2, [], 0. rewrite app_nil_r. split_and!; try done; [|lia|].
      * destruct Hend as [-> | ->]; [done|]. by rewrite andb_false_r.
      * intros n O' H. by rewrite Z.add_0_r.
    + apply Decidable.not_or in Hne as [H1 H2]. rewrite !bool_decide_false by done. cbn [negb andb].
      destruct (merge_step_spec _ _ _ _ _ _ _ _ Hrep Hc1 Hc2 H1 H2)
        as [(s1 & P1 & W1 & W2 & U1 & U2 & O1 & k1 & -> & Hrep1 & C1 & C2 & Ho1 & Hk1 & Hr1 & Hm)|(x & -> & Hx)];
        [|right; by exists x].
      rewrite bind_Ok. destruct (IH s1 P1 W1 W2 U1 U2 Hrep1 C1 C2 ltac:(lia))
        as [(s' & P' & V1' & V2' & T1' & T2' & O & k & -> & Hrep' & C1' & C2' & Hend & Ho & Hk & Hr)|(x & -> & Hx)];
        [left|right; by exists x].
      exists s', P', V1', V2', T1', T2', (O1 ++ O), (k + k1). split_and!; try done; [|lia|].
      * by rewrite Ho, Ho1, unlines_app, <- app_assoc.
      * intros n O' H. rewrite Z.add_assoc, <- app_assoc. by apply Hr1, Hr.
Qed.

(** A script that uses no line of the pivot is at most one insertion. *)
Lemma insert_only T V : edit T [] V -> canonical T ->
  T = [] /\ V = [] \/ exists n, T = [(0, 0, n)] /\ n = Zlen V /\ 0 < n.
Proof.
  intros He [Hp Hm]. pose proof (edit_length _ _ _ He) as Ht. simpl in Ht. destruct T as [|[[c d] n] T].
  { left. split; [done|]. by inversion He. }
  right. apply Forall_cons_1 in Hp as [Ht0 Hp]. simpl in Ht0, Ht, Hm. pose proof (total_nonneg T Hp).
  destruct T as [|[[c' d'] n'] T].
  - apply edit_inv in He as (C & C' & D & I & A' & B' & HC & HD & HI & EA & EB & Hs & He).
    apply sim_length in Hs. destruct C, C', D; simpl in *; try (done || lia). exists n. inversion He; subst.
    rewrite app_nil_r. split_and!; [|done|lia]. done.
  - apply Forall_cons_1 in Hm as [Hm _]. apply Forall_cons_1 in Hp as [Hp0 Hp]. pose proof (total_nonneg T Hp).
    simpl in *. lia.
Qed.

Lemma merge_tail_spec lim1 lim2 s P V1 V2 T1 T2 :
  rep lim1 lim2 s P V1 V2 T1 T2 -> canonical T1 -> canonical T2 -> T1 = [] \/ T2 = [] ->
  exists O, merge_tail lim1 lim2 s = Ok (nConflict s, pOut s ++ unlines O) /\ merged 0 P V1 V2 O.
Proof.
  intros [S1 S2 Ep Ev1 Ev2 (NP & N1 & N2) E1 E2] Hc1 Hc2 Hend.
  assert (P = []) as ->.
  { destruct Hend as [-> | ->]; [by inversion E1|by inversion E2]. }
  assert (forall n aC i lim, side aC i lim [(0, 0, n)] -> rd aC (i + 2) = Ok n) as Hrd.
  { intros n aC i lim Hs. apply side_rd3 in Hs. unfold rd3 in Hs. res_inv. by simplify_eq. }
  unfold merge_tail. rewrite (side_end _ _ _ _ S1), (side_end _ _ _ _ S2), Ev1, Ev2.
  assert (forall V, Forall nonl V -> fst (take_lines (unlines V) (Zlen V)) = unlines V) as Htk.
  { intros V HV. rewrite <- (app_nil_r V) in HV |- * at 1. by rewrite take_lines_app. }
  destruct (insert_only T1 V1 E1 Hc1) as [[-> ->]|(n1 & -> & Hn1 & Hpos1)].
  - rewrite (bool_decide_true (@nil triple = [])) by done. cbn [negb]. rewrite bind_Ok. cbn [Z.gtb Z.compare].
    destruct (insert_only T2 V2 E2 Hc2) as [[-> ->]|(n2 & -> & Hn2 & Hpos2)].
    + rewrite bool_decide_true by done. cbn [negb]. rewrite bind_Ok. exists []. change (unlines []) with (@nil Z). split; [by rewrite (app_nil_r (pOut s))|constructor].
    + rewrite (bool_decide_false ([(0, 0, n2)] = [])) by done. cbn [negb]. rewrite (Hrd n2 _ _ _ S2), bind_Ok, Z.gtb_ltb, (proj2 (Z.ltb_lt 0 n2)) by done.
      exists V2. rewrite Hn2, Htk by done. split; [done|].
      rewrite <- (app_nil_r V2) at 1 2. by apply (merged_only2 0 [] [] V2 [] [] [] []); [|constructor].
  - destruct Hend as [Hend|Hend]; [done|]. subst T2. rewrite (bool_decide_false ([(0, 0, n1)] = [])) by done. cbn [negb].
    rewrite (Hrd n1 _ _ _ S1), bind_Ok, Z.gtb_ltb, (proj2 (Z.ltb_lt 0 n1)) by done.
    exists V1. rewrite Hn1, Htk by done. split; [done|]. inversion E2; subst.
    rewrite <- (app_nil_r V1) at 1 2. by apply (merged_only1 0 [] [] V1 [] [] [] []); [|constructor].
Qed.
End Loop.

(** ** The whole merge *)

Lemma limit_loop_spec fuel pre T :
  Forall pos3 T -> (length T <= fuel)%nat ->
  limit_loop fuel (arr pre T) (Zlen pre) = Ok (Zlen pre + 3 * Zlen T).
Proof.
  intros HT. revert fuel pre. induction HT as [|[[c d] i] T Ht HT IH]; intros fuel pre Hf.
  - destruct fuel; cbn [limit_loop]; rewrite rd3_end, bind_Ok; cbn; by rewrite Z.add_0_r.
  - destruct fuel as [|fuel]; simpl in Hf; [lia|]. cbn [limit_loop]. rewrite rd3_cons, bind_Ok. simpl in Ht.
    assert (negb (c =? 0) || negb (d =? 0) || negb (i =? 0) = true) as ->
      by (rewrite !orb_true_iff, !negb_true_iff, !Z.eqb_neq; lia).
    rewrite arr_cons.
    replace (Zlen pre + 3) with (Zlen (pre ++ flat [(c, d, i)])) by (rewrite length_app; simpl; lia).
    rewrite IH by lia. f_equal. rewrite length_app. simpl. lia.
Qed.

Definition ends_nl (z : list Z) : Prop := List.last z 0 = 10.

Lemma lines_aux_nonl z acc : nonl acc -> Forall nonl (lines_aux z acc).
Proof.
  revert acc. induction z as [|c z IH]; intros acc Ha; [by repeat constructor|]. cbn [lines_aux].
  destruct (Z.eqb_spec c 10) as [->|Hc].
  - destruct z; [by repeat constructor|]. constructor; [done|]. apply IH. constructor.
  - apply IH. apply Forall_app_2; [done|]. by repeat constructor.
Qed.

Lemma unlines_lines z acc : ends_nl z -> unlines (lines_aux z acc) = acc ++ z.
Proof.
  revert acc. induction z as [|c z IH]; intros acc Hz; [done|]. cbn [lines_aux].
  destruct (Z.eqb_spec c 10) as [->|Hc]; destruct z as [|c' z]; try by (unfold unlines; simpl; rewrite ?app_nil_r).
  - rewrite unlines_cons, IH; [done|]. by unfold ends_nl in *.
  - rewrite IH by (by unfold ends_nl in *). by rewrite <- app_assoc.
Qed.

Section Whole.
Context (realloc_ok : Z -> bool) (Hre : forall n, realloc_ok n = true) (slack : list DLine).

Lemma text_diff_edit zA zB :
  is_text zA -> is_text zB -> diff_sized zA zB -> (slack <> [] \/ same_end true zA zB) ->
  exists T, text_diff realloc_ok slack zA zB true = Ok (Some (arr [] T)) /\ canonical T /\
    edit T (split_lines zA) (split_lines zB).
Proof.
  intros HA HB Hsz Hs. destruct (text_diff_total realloc_ok slack zA zB true Hre Hsz Hs) as (r & Hr & Hne & _ & Hscr).
  specialize (Hne HA HB). destruct r as [e|]; [|done]. clear Hne.
  destruct (text_diff_canonical _ _ _ _ _ _ Hre Hr) as (T & -> & Hc).
  destruct (Hscr _ eq_refl) as (R & ER & Ht). apply app_inv_tail in ER as <-.
  exists T. split_and!; [done|done|]. by apply transforms_edit.
Qed.

Context (csv : list Z -> list Z -> list Z -> list Z -> Z * list Z) (zP zV1 zV2 : list Z).

(** The contract of [csv_merge]: it returns 0 without touching the output, or
    1, or -1. *)
Lemma blob_merge_total :
  (forall o, csv zP zV1 zV2 o = (0, o) \/ fst (csv zP zV1 zV2 o) = 1 \/ fst (csv zP zV1 zV2 o) = -1) ->
  diff_sized zP zV1 -> diff_sized zP zV2 ->
  (slack <> [] \/ same_end true zP zV1 /\ same_end true zP zV2) ->
  (Forall is_text [zP; zV1; zV2] -> Forall ends_nl [zP; zV1; zV2] ->
   exists n out, blob_merge csv zP zV1 zV2 realloc_ok slack = Ok (n, out) /\
    (from_csv csv zP zV1 zV2 (n, out) \/
     exists O, out = unlines O /\ merged n (split_lines zP) (split_lines zV1) (split_lines zV2) O)) /\
  (Exists (Exists (fun c => c = 0)) [zP; zV1; zV2] ->
   blob_merge csv zP zV1 zV2 realloc_ok slack = Ok (-1, [])).
Proof.
  intros Hcsv Hz1 Hz2 Hs.
  assert ((slack <> [] \/ same_end true zP zV1) /\ (slack <> [] \/ same_end true zP zV2)) as [Hs1 Hs2] by tauto.
  split.
  - intros [Tp [T1 [T2 _]%Forall_cons_1]%Forall_cons_1]%Forall_cons_1
      [Np [N1 [N2 _]%Forall_cons_1]%Forall_cons_1]%Forall_cons_1.
    destruct (text_diff_edit zP zV1 Tp T1 Hz1 Hs1) as (S1 & HS1 & C1 & E1).
    destruct (text_diff_edit zP zV2 Tp T2 Hz2 Hs2) as (S2 & HS2 & C2 & E2).
    unfold blob_merge. rewrite HS1, bind_Ok, HS2, bind_Ok.
    assert (forall S, canonical S -> limit_loop (length (arr [] S)) (arr [] S) 0 = Ok (3 * Zlen S)) as Hlim.
    { intros S HS. rewrite (limit_loop_spec _ [] S); [done|apply HS|]. pose proof (length_arr [] S). lia. }
    rewrite (Hlim S1 C1), bind_Ok, (Hlim S2 C2), bind_Ok.
    destruct (merge_loop_spec csv zP zV1 zV2 Hcsv (Z.to_nat (3 * Zlen S1 + 3 * Zlen S2 + 2)) (3 * Zlen S1) (3 * Zlen S2)
      (MState (arr [] S1) (arr [] S2) 0 0 zP zV1 zV2 [] 0) (split_lines zP) (split_lines zV1) (split_lines zV2) S1 S2)
      as [(s' & P' & V1' & V2' & T1' & T2' & O & k & -> & Hrep & C1' & C2' & Hend & Ho & Hk & Hr)|([n o] & -> & Hx)];
      [|done|done| | |].
    + constructor; try done; cbn; [by exists []|by exists []|..]; unfold split_lines; try by rewrite unlines_lines.
      split_and!; apply lines_aux_nonl; constructor.
    + unfold measure. pose proof (ind_range S1). pose proof (ind_range S2). lia.
    + rewrite bind_Ok. destruct (merge_tail_spec _ _ _ _ _ _ _ _ Hrep C1' C2' Hend) as (O' & -> & Hm).
      eexists _, _. split; [done|]. right. exists (O ++ O'). cbn in Ho, Hk. rewrite Ho, Hk, unlines_app. split; [done|].
      apply (Hr 0 O' Hm).
    + exists n, o. split; [done|]. by left.
  - intros Hnul. unfold blob_merge.
    destruct (text_diff_total realloc_ok slack zP zV1 true Hre Hz1 Hs1) as (r1 & -> & _ & Hn1 & _).
    destruct (text_diff_total realloc_ok slack zP zV2 true Hre Hz2 Hs2) as (r2 & -> & _ & Hn2 & _).
    rewrite !bind_Ok. apply Exists_cons in Hnul as [H|[H|[H|H]%Exists_cons]%Exists_cons].
    + by rewrite (Hn1 (or_introl H)).
    + by rewrite (Hn1 (or_intror H)).
    + rewrite (Hn2 (or_intror H)). by destruct r1.
    + by apply Exists_nil in H.
Qed.

Lemma blob_merge_oob :
  oob_le (blob_merge csv zP zV1 zV2 realloc_ok []) (blob_merge csv zP zV1 zV2 realloc_ok slack).
Proof.
  unfold blob_merge. simple apply oob_bind; [apply text_diff_oob|]. intros r1.
  simple apply oob_bind; [apply text_diff_oob|]. by right.
Qed.
End Whole.

(** ** With the hook *)

Section Hook.
Context {Book : Type} (readCsvsData : list Z -> option Book).
Context (compare : Book -> Book -> Book -> option Book) (writeCsvsData : Book -> list Z).
Abbreviation hook := (csv_merge readCsvsData compare writeCsvsData).

(** The three texts are read as books and merged into a book of which [out] is
    the text. *)
Definition csv_merged (zP zV1 zV2 out : list Z) : Prop :=
  exists b0 b1 b2 b, readCsvsData zP = Some b0 /\ readCsvsData zV1 = Some b1 /\ readCsvsData zV2 = Some b2 /\
    compare b0 b1 b2 = Some b /\ out = c_string (writeCsvsData b).

Lemma csv_merge_cases zP zV1 zV2 o :
  hook zP zV1 zV2 o = (0, o) \/ exists out, hook zP zV1 zV2 o = (1, out) /\ csv_merged zP zV1 zV2 out.
Proof.
  unfold csv_merge. destruct (readCsvsData zP) as [b0|] eqn:E0; [|by left].
  destruct (readCsvsData zV1) as [b1|] eqn:E1; [|by left]. destruct (readCsvsData zV2) as [b2|] eqn:E2; [|by left].
  destruct (compare b0 b1 b2) as [b|] eqn:E; [|by left]. right. eexists. split; [done|]. by exists b0, b1, b2, b.
Qed.

Lemma from_csv_merged zP zV1 zV2 n out :
  from_csv hook zP zV1 zV2 (n, out) -> n = 0 /\ csv_merged zP zV1 zV2 out.
Proof.
  intros (o & H). destruct (csv_merge_cases zP zV1 zV2 o) as [E|(out' & E & Hm)]; rewrite E in H; cbn in H.
  - by destruct H as [[H _]|[H _]].
  - destruct H as [[H H0]|[H _]]; [|done]. injection H as <-. done.
Qed.

End Hook.

(** Texts that are not read as books. *)
Definition no_books (_ : list Z) : option unit := None.


(** When both versions add the same last line and neither file ends with a
    newline, [sameLines] finds no newline to stop at: it compares the two NUL
    terminators, which are equal, and reads on beyond them. *)
Lemma blob_merge_overread :
  blob_merge no_csv (L "a") (L "a" ++ cstr "x"%string) (L "a" ++ cstr "x"%string) (fun _ => true) spare
  = Fault OutOfBounds.
Proof. vm_compute. reflexivity. Qed.
