(* ===== verification/BlobLines.v ===== *)
(** * Copying lines between blobs

    [blob_copy_lines] moves what [Merge3.take_lines] says from the text after the
    cursor: the refinement on which the model of the three-way merge rests. *)

From S2P Require Import Prelude Blob BlobSpec Merge3.

Lemma lines_prefix_app z N : fst (lines_prefix z N) ++ snd (lines_prefix z N) = z.
Proof.
  revert N. induction z as [|c z IH]; intros N; [done|]. cbn [lines_prefix].
  destruct (_ && _); [done|]. specialize (IH (if c =? 10 then N - 1 else N)).
  destruct (lines_prefix z _) as [a b]. simpl in *. by rewrite IH.
Qed.

Lemma lines_loop_spec fuel h p i cnt N :
  blob_ok h p -> 0 <= i <= nUsed p -> nUsed p - i <= Z.of_nat fuel ->
  lines_loop fuel h (aData p) i (nUsed p) cnt N =
  Ok (i + Zlen (fst (lines_prefix (drop (Z.to_nat i) (text h p)) (N - cnt)))).
Proof.
  intros Hp. pose proof (length_text h p Hp) as Hl. revert i cnt.
  induction fuel as [|fuel IH]; intros i cnt Hi Hf; cbn [lines_loop].
  - rewrite (proj2 (Z.ltb_ge i _)), drop_ge by lia. f_equal. simpl. lia.
  - destruct (Z.ltb_spec i (nUsed p)) as [Hlt|Hge]; [|rewrite drop_ge by lia; f_equal; simpl; lia].
    rewrite ld_text, bind_Ok by (done || lia). rewrite (drop_cget _ i) by lia. cbn [lines_prefix].
    set (c := cget (text h p) i). destruct (Z.eqb_spec c 10) as [Hc|Hc]; cbn [andb].
    + destruct (Z.eqb_spec (cnt + 1) N), (Z.eqb_spec (N - cnt) 1); try lia; [f_equal; simpl; lia|].
      rewrite IH by lia. replace (N - (cnt + 1)) with (N - cnt - 1) by lia.
      destruct (lines_prefix _ _) as [a b]. f_equal. cbn [fst length]. lia.
    + rewrite IH by lia. destruct (lines_prefix _ _) as [a b]. f_equal. cbn [fst length]. lia.
Qed.

Section Copy.
Context (junk : Z) (h : heap) (pFrom : Blob) (N : Z).
Context (Hh : heap_ok h) (Hfrom : blob_ok h pFrom) (Hcur : 0 <= iCursor pFrom <= nUsed pFrom).
Context (Hint : nUsed pFrom <= INT_MAX).
Abbreviation rest := (drop (Z.to_nat (iCursor pFrom)) (text h pFrom)).

(** Where the cursor ends up. *)
Lemma copied_end :
  N <> 0 ->
  let n := Zlen (fst (take_lines rest N)) in
  iCursor pFrom + n <= nUsed pFrom /\
  fst (take_lines rest N) = slice (text h pFrom) (iCursor pFrom) n /\
  snd (take_lines rest N) = drop (Z.to_nat (iCursor pFrom + n)) (text h pFrom).
Proof.
  intros HN n. unfold n, take_lines. rewrite (proj2 (Z.eqb_neq N 0)) by done.
  pose proof (lines_prefix_app rest N) as Happ. set (a := fst (lines_prefix rest N)) in *.
  set (b := snd (lines_prefix rest N)) in *. pose proof (length_text _ _ Hfrom) as Hl.
  assert (Zlen rest = nUsed pFrom - iCursor pFrom) as Hr by (rewrite length_drop; lia).
  pose proof Hr as Hr'. rewrite <- Happ, length_app in Hr'. split_and!; [lia| |].
  - unfold slice. rewrite <- Happ, Nat2Z.id, take_app_length. done.
  - rewrite Z2Nat.inj_add, Nat2Z.id, <- drop_drop by lia. by rewrite <- Happ, drop_app_length.
Qed.

(** C36. [blob_copy_lines], from a source of at most [INT_MAX] bytes (its size
    and cursor are read into [int]s), appends to the destination, when there is
    one, the next [N] lines after the cursor (all that is left when there are
    fewer), moves the cursor behind them, and changes no other memory than the
    destination's own. *)
Theorem blob_copy_lines_spec (pTo : Blob) :
  blob_ok h pTo ->
  (forall b o, aData pFrom = Ptr b o -> ~ owns pTo b) ->
  nUsed pTo + nUsed pFrom + nAlloc pTo + 100 < 2^32 ->
  (exists h' to' from', blob_copy_lines junk h (Some pTo) pFrom N = Ok (h', Some to', from') /\
    heap_ok h' /\ blob_ok h' to' /\ frame h pTo h' /\
    text h' to' = text h pTo ++ fst (take_lines rest N) /\
    text h' from' = text h pFrom /\
    drop (Z.to_nat (iCursor from')) (text h' from') = snd (take_lines rest N)) /\
  (exists from', blob_copy_lines junk h None pFrom N = Ok (h, None, from') /\
    text h from' = text h pFrom /\
    drop (Z.to_nat (iCursor from')) (text h from') = snd (take_lines rest N)).
Proof.
  intros Hto Hsep Hsz. unfold blob_copy_lines.
  destruct (Z.eqb_spec N 0) as [->|HN].
  { split; [exists h, pTo, pFrom|by exists pFrom]. cbn [take_lines Z.eqb fst]. rewrite app_nil_r. by split_and!. }
  change INT_MAX with 2147483647 in Hint. rewrite !to_int_small by lia.
  rewrite lines_loop_spec, bind_Ok by (done || lia). rewrite Z.sub_0_r.
  destruct (copied_end HN) as (Hn & Hx & Hr). unfold take_lines in *.
  rewrite (proj2 (Z.eqb_neq N 0)) in * by done. set (a := fst (lines_prefix rest N)) in *.
  split; [|rewrite !bind_Ok, u32_small by lia; exists (set_cursor pFrom (iCursor pFrom + Zlen a)); rewrite text_cursor;
    split_and!; [reflexivity|reflexivity|exact (eq_sym Hr)]].
  assert (ld_range h (padd (aData pFrom) (iCursor pFrom)) 0 (Zlen a) =
    Ok (slice (text h pFrom) (iCursor pFrom) (Zlen a))) as Hw.
  { destruct Hfrom as [[Hu _] _ Hd]. clear Hx Hr. revert Hn. generalize (Zlen a) as n, (Zle_0_nat (length a)).
    intros n Hn0 Hn. unfold ld_range, text.
    destruct (aData pFrom) as [|b o]; cbn [padd].
    - rewrite check_true, bind_Ok by (apply Z.eqb_eq; lia). unfold slice. by rewrite drop_nil, take_nil.
    - destruct Hd as (Hb & Ho & Hin & _). rewrite check_true, bind_Ok by (rewrite !andb_true_iff, !Z.leb_le; lia).
      rewrite slice_slice by lia. f_equal. f_equal; lia. }
  rewrite <- Hx in Hw.
  replace (iCursor pFrom + Zlen a - iCursor pFrom) with (Zlen a) by lia.
  rewrite to_int_small by lia.
  destruct (append_spec junk h pTo (padd (aData pFrom) (iCursor pFrom)) (Zlen a) a)
    as (h' & to' & -> & Hh' & Hto' & Ht' & _ & Hfr & _); try done; [lia| |lia|].
  { intros b o E. destruct (aData pFrom) as [|b' o'] eqn:Ep; [done|]. injection E as -> _.
    split; [|by apply (Hsep b o')]. pose proof (bo_data _ _ Hfrom) as Hd. rewrite Ep in Hd. tauto. }
  rewrite !bind_Ok, u32_small by lia. do 3 eexists. split; [done|].
  assert (text h' (set_cursor pFrom (iCursor pFrom + Zlen a)) = text h pFrom) as Htx.
  { rewrite text_cursor. unfold text. pose proof (bo_data _ _ Hfrom) as Hd.
    destruct (aData pFrom) as [|b o] eqn:Ep; [done|]. by rewrite (proj2 Hfr b ltac:(tauto) (Hsep b o eq_refl)). }
  split_and!; try done. by rewrite Htx, Hr.
Qed.
End Copy.

(** Two lines and a half, of which the first is copied behind a byte. *)
Definition heap_lines : heap := [[0]; cstr "ab"%string ++ [10] ++ cstr "cd"%string ++ [10] ++ cstr "e"%string ++ [0];
  cstr "x"%string ++ [0]].
Definition blob_lines : Blob := MkBlob 7 7 1 (Ptr 1 0) blobReallocStatic.
Definition blob_dest : Blob := MkBlob 1 2 0 (Ptr 2 0) blobReallocMalloc.

Lemma blob_copy_lines_spec_witness :
  exists h' to' from', blob_copy_lines 170 heap_lines (Some blob_dest) blob_lines 2 = Ok (h', Some to', from') /\
    text h' to' = cstr "xb"%string ++ [10] ++ cstr "cd"%string ++ [10] /\
    drop (Z.to_nat (iCursor from')) (text h' from') = cstr "e"%string.
Proof.
  destruct (blob_copy_lines_spec 170 heap_lines blob_lines 2) with (pTo := blob_dest)
    as [(h' & to' & from' & Hr & _ & _ & _ & Ht & _ & Hd) _].
  - reflexivity.
  - split; simpl; [lia|lia|]. split_and!; try lia. discriminate.
  - simpl. lia.
  - discriminate.
  - split; simpl; [lia|lia|]. split_and!; try lia; done.
  - intros b o [= <- <-] [_ [o' H]]. discriminate H.
  - simpl. lia.
  - exists h', to', from'. split_and!; [exact Hr| |].
    + rewrite Ht. reflexivity.
    + rewrite Hd. reflexivity.
Defined.
