(* ===== verification/Blocks.v ===== *)
(** * Hashing in blocks of 64 bytes

    What MD5 and SHA-1 share: 32-bit word operations, writing into the block
    buffer, and the reference way to absorb a message, block after block, into a
    chaining value. *)

From S2P Require Import Prelude.

(** ** 32-bit words *)

Definition add32 (x y : Z) : Z := u32 (x + y).
Definition not32 (x : Z) : Z := 2^32 - 1 - x.
(** [x << n | x >> (32 - n)] *)
Definition rol32 (n x : Z) : Z := Z.lor (u32 (Z.shiftl x n)) (Z.shiftr x (32 - n)).

Definition word (x : Z) : Prop := 0 <= x < 2^32.

Lemma word_bits x : word x <-> 0 <= x /\ forall i, 32 <= i -> Z.testbit x i = false.
Proof.
  unfold word. split.
  - intros [H0 H]. split; [done|]. intros i Hi. destruct (decide (x = 0)) as [->|Hx]; [apply Z.bits_0|].
    apply Z.bits_above_log2; [done|]. apply Z.log2_lt_pow2; [lia|].
    apply (Z.lt_le_trans _ (2^32)); [done|]. by apply Z.pow_le_mono_r.
  - intros [H0 H]. split; [done|]. destruct (decide (x < 2^32)) as [|Hx]; [done|].
    assert (32 <= Z.log2 x) as Hl by (apply Z.log2_le_pow2; lia).
    specialize (H (Z.log2 x) Hl). rewrite Z.bit_log2 in H by lia. done.
Qed.

Lemma word_lor x y : word x -> word y -> word (Z.lor x y).
Proof.
  rewrite !word_bits. intros [? Hx] [? Hy]. split; [by apply Z.lor_nonneg|].
  intros i Hi. by rewrite Z.lor_spec, Hx, Hy.
Qed.
Lemma word_lxor x y : word x -> word y -> word (Z.lxor x y).
Proof.
  rewrite !word_bits. intros [? Hx] [? Hy]. split; [by apply Z.lxor_nonneg|].
  intros i Hi. by rewrite Z.lxor_spec, Hx, Hy.
Qed.
Lemma word_land x y : word x -> word (Z.land x y).
Proof.
  rewrite !word_bits. intros [? Hx]. split; [apply Z.land_nonneg; by left|].
  intros i Hi. by rewrite Z.land_spec, Hx.
Qed.
Lemma word_u32 x : word (u32 x).
Proof. apply u32_range. Qed.
Lemma word_rol n x : word x -> 0 <= n <= 32 -> word (rol32 n x).
Proof.
  intros Hx Hn. apply word_lor; [apply word_u32|]. unfold word in *. rewrite Z.shiftr_div_pow2 by lia.
  assert (0 < 2 ^ (32 - n)) by (apply Z.pow_pos_nonneg; lia). split; [apply Z.div_pos; lia|].
  apply Z.div_lt_upper_bound; [done|]. nia.
Qed.

Lemma not32_bits x i : word x -> 0 <= i < 32 -> Z.testbit (not32 x) i = negb (Z.testbit x i).
Proof.
  intros Hx Hi. unfold not32. replace (2^32 - 1 - x) with (Z.ones 32 - x) by (rewrite Z.ones_equiv; lia).
  rewrite Z.sub_nocarry_ldiff.
  - rewrite Z.ldiff_spec, Z.ones_spec_low by lia. done.
  - apply Z.bits_inj'. intros j Hj. rewrite Z.ldiff_spec, Z.bits_0. destruct (decide (j < 32)).
    + rewrite Z.ones_spec_low by lia. apply andb_false_r.
    + apply word_bits in Hx as [_ Hx]. by rewrite Hx by lia.
Qed.
Lemma word_not x : word x -> word (not32 x).
Proof. unfold word, not32. lia. Qed.

(** Equality of words bit by bit. *)
Lemma word_eq x y : word x -> word y -> (forall i, 0 <= i < 32 -> Z.testbit x i = Z.testbit y i) -> x = y.
Proof.
  intros Hx Hy H. apply Z.bits_inj'. intros i Hi. destruct (decide (i < 32)); [apply H; lia|].
  apply word_bits in Hx as [_ Hx], Hy as [_ Hy]. by rewrite Hx, Hy by lia.
Qed.

(** Putting a number behind [n] free bits. *)
Lemma lor_shiftl x y n : 0 <= n -> 0 <= y < 2 ^ n -> Z.lor (Z.shiftl x n) y = x * 2 ^ n + y.
Proof.
  intros Hn Hy. rewrite <- Z.shiftl_mul_pow2 by done. symmetry.
  assert (Z.land (Z.shiftl x n) y = 0) as H0.
  { apply Z.bits_inj'. intros i Hi. rewrite Z.land_spec, Z.bits_0. destruct (decide (i < n)).
    - by rewrite Z.shiftl_spec_low.
    - rewrite <- (Z.mod_small y (2 ^ n)) by done. by rewrite Z.mod_pow2_bits_high, andb_false_r by lia. }
  rewrite Z.add_nocarry_lxor by done. by rewrite Z.lxor_lor.
Qed.

(** ** The block buffer *)

(** [memcpy(a + i, w, length of w)] *)
Definition blit (a : list Z) (i : Z) (w : list Z) : result (list Z) :=
  _ ← check ((0 <=? i) && (i + Zlen w <=? Zlen a)) OutOfBounds;
  Ok (take (Z.to_nat i) a ++ w ++ drop (Z.to_nat (i + Zlen w)) a).

Lemma blit_ok a i w :
  0 <= i -> i + Zlen w <= Zlen a ->
  exists a', blit a i w = Ok a' /\ length a' = length a /\ take (Z.to_nat (i + Zlen w)) a' = take (Z.to_nat i) a ++ w.
Proof.
  intros Hi Hw. unfold blit. rewrite check_true, bind_Ok by (rewrite andb_true_iff, !Z.leb_le; lia).
  eexists. split; [done|]. split.
  - rewrite !length_app, length_take, length_drop. lia.
  - rewrite app_assoc, take_app_le by (rewrite length_app, length_take; lia).
    rewrite take_ge by (rewrite length_app, length_take; lia). done.
Qed.

Lemma blit_start a w :
  Zlen w <= Zlen a ->
  exists a', blit a 0 w = Ok a' /\ length a' = length a /\ take (length w) a' = w.
Proof.
  intros Hw. destruct (blit_ok a 0 w) as (a' & -> & Hl & Ht); [lia|lia|]. exists a'. split_and!; [done|done|].
  by rewrite Z.add_0_l, Nat2Z.id in Ht.
Qed.

(** ** Reference absorption *)

Section Absorb.
Context {St : Type} (compress : St -> list Z -> St).

Fixpoint blocks (n : nat) (m : list Z) : list (list Z) :=
  match n with O => [] | S n => take 64 m :: blocks n (drop 64 m) end.

(** All the full blocks of [m]. *)
Definition absorb (st : St) (m : list Z) : St := foldl compress st (blocks (Z.to_nat (Zlen m / 64)) m).

Lemma absorb_short st m : Zlen m < 64 -> absorb st m = st.
Proof. intros H. unfold absorb. by rewrite Z.div_small by lia. Qed.

Lemma absorb_block st b m : Zlen b = 64 -> absorb st (b ++ m) = absorb (compress st b) m.
Proof.
  intros Hb. unfold absorb. rewrite length_app.
  replace (Z.to_nat (Z.of_nat (length b + length m) / 64)) with (S (Z.to_nat (Zlen m / 64))).
  - cbn [blocks foldl]. by rewrite take_app_length', drop_app_length' by lia.
  - replace (Z.of_nat (length b + length m)) with (1 * 64 + Zlen m) by lia.
    rewrite Z.div_add_l by lia. pose proof (Z.div_pos (Zlen m) 64). lia.
Qed.

Lemma absorb_app st m1 m2 : (64 | Zlen m1) -> absorb st (m1 ++ m2) = absorb (absorb st m1) m2.
Proof.
  intros [q Hq]. rewrite <- (Z2Nat.id q) in Hq by lia. revert st m1 Hq. generalize (Z.to_nat q) as n. clear q.
  induction n as [|n IH]; intros st m1 Hm.
  - destruct m1; [|simpl in Hm; lia]. done.
  - rewrite <- (take_drop 64 m1), <- app_assoc.
    assert (Zlen (take 64 m1) = 64) as Hl by (rewrite length_take; lia).
    rewrite (absorb_block st (take 64 m1) (drop 64 m1 ++ m2)), (absorb_block st (take 64 m1) (drop 64 m1)) by done.
    apply IH. rewrite length_drop. lia.
Qed.

Lemma absorb_one st b : Zlen b = 64 -> absorb st b = compress st b.
Proof. intros Hb. rewrite <- (app_nil_r b) at 1. by rewrite absorb_block, absorb_short by (done || simpl; lia). Qed.
End Absorb.

Lemma absorb_ext {St} (f g : St -> list Z -> St) st m :
  (forall st b, Zlen b = 64 -> bytes b -> f st b = g st b) -> bytes m -> absorb f st m = absorb g st m.
Proof.
  intros H. unfold absorb. assert (forall n m st, 64 * Z.of_nat n <= Zlen m -> bytes m ->
    foldl f st (blocks n m) = foldl g st (blocks n m)) as Hn.
  { clear m st. intros n. induction n as [|n IH]; intros m st Hm Hb; [done|]. cbn [blocks foldl].
    rewrite H by (rewrite ?length_take; lia || by apply Forall_take). apply IH; [rewrite length_drop; lia|].
    by apply Forall_drop. }
  apply Hn. rewrite Z2Nat.id by (apply Z.div_pos; lia). apply Z.mul_div_le. lia.
Qed.

(** The padding of both algorithms, before the length: a one bit and zeros up to
    56 bytes in the last block. *)
Definition pad_zeros (len : Z) : Z := (55 - len) mod 64.
Definition padded (m tail : list Z) : list Z := m ++ [128] ++ replicate (Z.to_nat (pad_zeros (Zlen m))) 0 ++ tail.
