(* ===== verification/Md5.v ===== *)
(** * MD5

    Models [src/src/ssfossil/fossil/src/md5.c] on a little-endian machine, where
    the words that [byteReverse] stores over the bytes are those bytes: the
    context keeps the bytes and [MD5Transform] is given the words.  The 64
    [MD5STEP]s are the rows (index, constant, shift) of four tables; from one
    step to the next the four variables rotate.

    The sizes of blobs are [unsigned], those passed to the incremental functions
    are [int]s (converted by [to_int]), and [MD5Update] takes an [unsigned].

    The static incremental state is passed explicitly.  The text of the result is
    returned instead of being stored in a blob. *)

From S2P Require Import Prelude Blocks.

Record MD5Context := MkMD5 { isInit : Z; mbuf : list Z; bits0 : Z; bits1 : Z; inb : list Z }.

(** The words of a byte array. *)
Fixpoint byteReverse (z : list Z) : list Z :=
  match z with
  | b0 :: b1 :: b2 :: b3 :: z =>
      Z.lor (Z.shiftl (Z.lor (Z.shiftl b3 8) b2) 16) (Z.lor (Z.shiftl b1 8) b0) :: byteReverse z
  | _ => []
  end.
(** The bytes of a word array. *)
Definition word_bytes (w : Z) : list Z := [u8 w; u8 (Z.shiftr w 8); u8 (Z.shiftr w 16); u8 (Z.shiftr w 24)].

Definition F1 (x y z : Z) : Z := Z.lxor z (Z.land x (Z.lxor y z)).
Definition F2 (x y z : Z) : Z := F1 z x y.
Definition F3 (x y z : Z) : Z := Z.lxor (Z.lxor x y) z.
Definition F4 (x y z : Z) : Z := Z.lxor y (Z.lor x (not32 z)).

Definition quad : Type := Z * Z * Z * Z.

(** One step, and the rotation of the variables for the next. *)
Definition MD5STEP (f : Z -> Z -> Z -> Z) (words : list Z) (s : quad) (row : Z * Z * Z) : quad :=
  let '(w, x, y, z) := s in
  let '(k, data, sh) := row in
  let w := add32 w (add32 (f x y z) (add32 (cget words k) data)) in
  let w := rol32 sh w in
  let w := add32 w x in
  (z, w, x, y).

Definition md5_round1 : list (Z * Z * Z) :=
  [(0, 0xd76aa478, 7); (1, 0xe8c7b756, 12); (2, 0x242070db, 17); (3, 0xc1bdceee, 22);
   (4, 0xf57c0faf, 7); (5, 0x4787c62a, 12); (6, 0xa8304613, 17); (7, 0xfd469501, 22);
   (8, 0x698098d8, 7); (9, 0x8b44f7af, 12); (10, 0xffff5bb1, 17); (11, 0x895cd7be, 22);
   (12, 0x6b901122, 7); (13, 0xfd987193, 12); (14, 0xa679438e, 17); (15, 0x49b40821, 22)].
Definition md5_round2 : list (Z * Z * Z) :=
  [(1, 0xf61e2562, 5); (6, 0xc040b340, 9); (11, 0x265e5a51, 14); (0, 0xe9b6c7aa, 20);
   (5, 0xd62f105d, 5); (10, 0x02441453, 9); (15, 0xd8a1e681, 14); (4, 0xe7d3fbc8, 20);
   (9, 0x21e1cde6, 5); (14, 0xc33707d6, 9); (3, 0xf4d50d87, 14); (8, 0x455a14ed, 20);
   (13, 0xa9e3e905, 5); (2, 0xfcefa3f8, 9); (7, 0x676f02d9, 14); (12, 0x8d2a4c8a, 20)].
Definition md5_round3 : list (Z * Z * Z) :=
  [(5, 0xfffa3942, 4); (8, 0x8771f681, 11); (11, 0x6d9d6122, 16); (14, 0xfde5380c, 23);
   (1, 0xa4beea44, 4); (4, 0x4bdecfa9, 11); (7, 0xf6bb4b60, 16); (10, 0xbebfbc70, 23);
   (13, 0x289b7ec6, 4); (0, 0xeaa127fa, 11); (3, 0xd4ef3085, 16); (6, 0x04881d05, 23);
   (9, 0xd9d4d039, 4); (12, 0xe6db99e5, 11); (15, 0x1fa27cf8, 16); (2, 0xc4ac5665, 23)].
Definition md5_round4 : list (Z * Z * Z) :=
  [(0, 0xf4292244, 6); (7, 0x432aff97, 10); (14, 0xab9423a7, 15); (5, 0xfc93a039, 21);
   (12, 0x655b59c3, 6); (3, 0x8f0ccc92, 10); (10, 0xffeff47d, 15); (1, 0x85845dd1, 21);
   (8, 0x6fa87e4f, 6); (15, 0xfe2ce6e0, 10); (6, 0xa3014314, 15); (13, 0x4e0811a1, 21);
   (4, 0xf7537e82, 6); (11, 0xbd3af235, 10); (2, 0x2ad7d2bb, 15); (9, 0xeb86d391, 21)].

Definition MD5Transform (b words : list Z) : list Z :=
  let s := (cget b 0, cget b 1, cget b 2, cget b 3) in
  let s := foldl (MD5STEP F1 words) s md5_round1 in
  let s := foldl (MD5STEP F2 words) s md5_round2 in
  let s := foldl (MD5STEP F3 words) s md5_round3 in
  let '(a, b', c, d) := foldl (MD5STEP F4 words) s md5_round4 in
  [add32 (cget b 0) a; add32 (cget b 1) b'; add32 (cget b 2) c; add32 (cget b 3) d].

Definition MD5Init (i : list Z) : MD5Context :=
  MkMD5 1 [0x67452301; 0xefcdab89; 0x98badcfe; 0x10325476] 0 0 i.

(** [byteReverse(ctx->in, 16); MD5Transform(ctx->buf, ctx->in);] *)
Definition transform_in (b i : list Z) : list Z := MD5Transform b (byteReverse i).

(** [while (len >= 64)], then the bytes that are left. *)
Fixpoint update_loop (fuel : nat) (b i data : list Z) : result (list Z * list Z) :=
  if Zlen data >=? 64 then
    match fuel with
    | O => Fault OutOfFuel
    | S fuel => i ← blit i 0 (take 64 data); update_loop fuel (transform_in b i) i (drop 64 data)
    end
  else i ← blit i 0 data; Ok (b, i).

Definition MD5Update (ctx : MD5Context) (data : list Z) : result MD5Context :=
  let len := Zlen data in
  let t := bits0 ctx in
  let lo := u32 (t + u32 (Z.shiftl len 3)) in
  let hi := if lo <? t then u32 (bits1 ctx + 1) else bits1 ctx in
  let hi := u32 (hi + Z.shiftr len 29) in
  let t := Z.land (Z.shiftr t 3) 0x3f in
  if negb (t =? 0) then
    let n := 64 - t in
    if len <? n then
      i ← blit (inb ctx) t data;
      Ok (MkMD5 (isInit ctx) (mbuf ctx) lo hi i)
    else
      i ← blit (inb ctx) t (take (Z.to_nat n) data);
      '(b, i) ← update_loop (length data) (transform_in (mbuf ctx) i) i (drop (Z.to_nat n) data);
      Ok (MkMD5 (isInit ctx) b lo hi i)
  else
    '(b, i) ← update_loop (length data) (mbuf ctx) (inb ctx) data;
    Ok (MkMD5 (isInit ctx) b lo hi i).

Definition zeros (n : Z) : list Z := replicate (Z.to_nat n) 0.

(** The sixteen bytes of the digest and the context afterwards: [memset(ctx, 0,
    sizeof(ctx))] clears as many bytes as a pointer has, [isInit] and the first
    word of the buffer. *)
Definition MD5Final (ctx : MD5Context) : result (list Z * MD5Context) :=
  let count := Z.land (Z.shiftr (bits0 ctx) 3) 0x3f in
  i ← blit (inb ctx) count [128];
  let p := count + 1 in
  let count := 64 - 1 - count in
  '(b, i) ← (if count <? 8 then
               i ← blit i p (zeros count);
               let b := transform_in (mbuf ctx) i in
               i ← blit i 0 (zeros 56);
               Ok (b, i)
             else i ← blit i p (zeros (count - 8)); Ok (mbuf ctx, i));
  let b := MD5Transform b (byteReverse (take 56 i) ++ [bits0 ctx; bits1 ctx]) in
  let i := take 56 i ++ word_bytes (bits0 ctx) ++ word_bytes (bits1 ctx) in
  Ok (concat (word_bytes <$> b), MkMD5 0 (0 :: drop 1 b) (bits0 ctx) (bits1 ctx) i).

Definition hex_digit (n : Z) : Z := cget (cstr "0123456789abcdef"%string) n.
Definition DigestToBase16 (digest : list Z) : list Z :=
  concat ((fun a => [hex_digit (Z.land (Z.shiftr a 4) 15); hex_digit (Z.land a 15)]) <$> digest).

(** ** Incremental sums *)

(** [incrInit] and [incrCtx]. *)
Record incr := Incr { incrInit : bool; incrCtx : MD5Context }.

Definition md5sum_init (s : incr) : incr := Incr false (incrCtx s).

(** [zText] is the memory at the pointer. *)
Definition md5sum_step_text (s : incr) (zText : list Z) (nBytes : Z) : result incr :=
  let s := if incrInit s then s else Incr true (MD5Init (inb (incrCtx s))) in
  if nBytes =? 0 then Ok s
  else
    let nBytes := if nBytes <? 0 then to_int (Zlen (c_string zText)) else nBytes in
    let data := take (Z.to_nat (u32 nBytes)) zText in
    c ← MD5Update (incrCtx s) data;
    Ok (Incr true c).

Definition md5sum_step_blob (s : incr) (text : list Z) : result incr := 
  md5sum_step_text s text (to_int (Zlen text)).

Definition md5sum_finish (s : incr) : result (incr * list Z) :=
  s ← md5sum_step_text s [] 0;
  '(zResult, c) ← MD5Final (incrCtx s);
  Ok (Incr false c, DigestToBase16 zResult).

(** [junk] is the initial content of the uninitialised block on the stack. *)
Fixpoint update_all (ctx : MD5Context) (chunks : list (list Z)) : result MD5Context :=
  match chunks with [] => Ok ctx | d :: chunks => c ← MD5Update ctx d; update_all c chunks end.

(** The pieces that [fread] delivers are arguments. *)
Definition md5sum_file (junk : list Z) (chunks : list (list Z)) : result (list Z) :=
  ctx ← update_all (MD5Init junk) chunks; '(zResult, _) ← MD5Final ctx; Ok (DigestToBase16 zResult).

Definition md5sum_blob (junk text : list Z) : result (list Z) :=
  ctx ← MD5Update (MD5Init junk) text; '(zResult, _) ← MD5Final ctx; Ok (DigestToBase16 zResult).

Definition junk64 : list Z := replicate 64 170.

(** Test values of RFC 1321. *)
Example md5_empty : md5sum_blob junk64 [] = Ok (cstr "d41d8cd98f00b204e9800998ecf8427e"%string).
Proof. vm_compute. reflexivity. Qed.
Example md5_digits :
  md5sum_blob junk64 (cstr "12345678901234567890123456789012345678901234567890123456789012345678901234567890"%string)
  = Ok (cstr "57edf4a22be3c955ac49da2e2107b67a"%string).
Proof. vm_compute. reflexivity. Qed.
