(* ===== verification/Md5Spec.v ===== *)
(** * MD5: agreement with the definition of the algorithm

    The reference [md5] follows RFC 1321 and shares nothing with the model: the
    message is padded as a whole, cut into blocks of 64 bytes, and each block
    goes through 64 steps given by the round functions and formulas of the RFC.
    The constant of step [i] is the integer part of 4294967296 times |sin i|,
    computed here from the series of the sine.  The theorem says that any
    sequence of updates followed by [MD5Final] computes it, for every cutting of
    the message into pieces. *)

From S2P Require Import Prelude Blocks Md5.

(** ** The reference *)

Definition ref_F (i x y z : Z) : Z :=
  if i <? 16 then Z.lor (Z.land x y) (Z.land (not32 x) z)
  else if i <? 32 then Z.lor (Z.land x z) (Z.land y (not32 z))
  else if i <? 48 then Z.lxor (Z.lxor x y) z
  else Z.lxor y (Z.lor x (not32 z)).
Definition ref_k (i : Z) : Z :=
  if i <? 16 then i else if i <? 32 then (5 * i + 1) mod 16
  else if i <? 48 then (3 * i + 5) mod 16 else (7 * i) mod 16.
Definition ref_s (i : Z) : Z :=
  cget (if i <? 16 then [7; 12; 17; 22] else if i <? 32 then [5; 9; 14; 20]
        else if i <? 48 then [4; 11; 16; 23] else [6; 10; 15; 21]) (i mod 4).

(** The constants.  With [n] terms, [x * p / q] is a partial sum of the series
    of sin x = x * (1 - x^2/(2*3) * (1 - x^2/(4*5) * ...)); the terms alternate,
    and decrease after the first 32, so that the value of the sine lies between
    two successive sums.  With 120 and with 121 terms the integer part is the
    same. *)
Fixpoint sin_series (n : nat) (k x : Z) : Z * Z :=
  match n with
  | O => (1, 1)
  | S n => let '(p, q) := sin_series n (k + 1) x in
           let m := (2 * k) * (2 * k + 1) in (m * q - x * x * p, m * q)
  end.
Definition sine (n : nat) (x : Z) : Z := let '(p, q) := sin_series n 1 x in 2^32 * Z.abs (x * p) / q.
Definition sine_table : list Z := Eval vm_compute in (sine 120 <$> seqZ 1 64).
Example sine_table_series : sine_table = sine 120 <$> seqZ 1 64 /\ sine_table = sine 121 <$> seqZ 1 64.
Proof. vm_compute. done. Qed.
Definition ref_T (i : Z) : Z := cget sine_table i.

(** Rotation, the words of a block and the bytes of a word. *)
Definition ref_rol (n x : Z) : Z := Z.lor ((x * 2^n) mod 2^32) (x / 2^(32 - n)).
Fixpoint ref_words (z : list Z) : list Z :=
  match z with
  | b0 :: b1 :: b2 :: b3 :: z =>
      Z.lor b0 (Z.lor (Z.shiftl b1 8) (Z.lor (Z.shiftl b2 16) (Z.shiftl b3 24))) :: ref_words z
  | _ => []
  end.
Definition ref_bytes (w : Z) : list Z := [w mod 2^8; w / 2^8 mod 2^8; w / 2^16 mod 2^8; w / 2^24 mod 2^8].

Definition ref_step (words : list Z) (s : Z * Z * Z * Z) (i : Z) : Z * Z * Z * Z :=
  let '(a, b, c, d) := s in
  (d, u32 (b + ref_rol (ref_s i) (u32 (a + ref_F i b c d + cget words (ref_k i) + ref_T i))), b, c).

Definition ref_compress (st block : list Z) : list Z :=
  let '(a, b, c, d) := foldl (ref_step (ref_words block)) (cget st 0, cget st 1, cget st 2, cget st 3) (seqZ 0 64) in
  [u32 (cget st 0 + a); u32 (cget st 1 + b); u32 (cget st 2 + c); u32 (cget st 3 + d)].

Definition md5_iv : list Z := [0x67452301; 0xefcdab89; 0x98badcfe; 0x10325476].
Definition length_le (n : Z) : list Z := ref_bytes (u32 n) ++ ref_bytes (u32 (n / 2^32)).
Definition md5 (m : list Z) : list Z :=
  concat (ref_bytes <$> absorb ref_compress md5_iv (padded m (length_le (8 * Zlen m)))).
(** Lower-case hexadecimal. *)
Definition ref_digit (n : Z) : Z := if n <? 10 then 48 + n else 87 + n.
Definition ref_hex (digest : list Z) : list Z :=
  concat ((fun a => [ref_digit (a / 16); ref_digit (a mod 16)]) <$> digest).

(** ** One block *)

Definition quad_word (s : quad) : Prop := let '(a, b, c, d) := s in word a /\ word b /\ word c /\ word d.

Lemma rol_ref n x : 0 <= n <= 32 -> rol32 n x = ref_rol n x.
Proof. intros Hn. unfold rol32, ref_rol, u32. by rewrite Z.shiftl_mul_pow2, Z.shiftr_div_pow2 by lia. Qed.

Lemma ref_s_range i : 0 <= ref_s i <= 32.
Proof.
  assert (0 <= i mod 4 < 4) as Hi by (apply Z.mod_pos_bound; lia). unfold ref_s.
  assert (i mod 4 = 0 \/ i mod 4 = 1 \/ i mod 4 = 2 \/ i mod 4 = 3) as [-> |[-> |[-> | ->]]] by lia;
    repeat case_match; vm_compute; split; discriminate.
Qed.

Lemma words_ref z : byteReverse z = ref_words z.
Proof.
  remember (length z) as n eqn:Hn. revert z Hn. induction n as [n IH] using lt_wf_ind.
  intros [|b0 [|b1 [|b2 [|b3 z]]]] Hn; try done. cbn [byteReverse ref_words]. f_equal.
  - rewrite Z.shiftl_lor, Z.shiftl_shiftl by lia. change (8 + 16) with 24.
    by rewrite Z.lor_comm, (Z.lor_comm _ b0), (Z.lor_comm (Z.shiftl b3 24)), <- Z.lor_assoc.
  - apply (IH (length z)); [simpl in Hn; lia|done].
Qed.

Lemma bytes_ref w : word_bytes w = ref_bytes w.
Proof. unfold word_bytes, ref_bytes, u8. by rewrite !Z.shiftr_div_pow2. Qed.

Lemma hex_ref l : bytes l -> DigestToBase16 l = ref_hex l.
Proof.
  assert (forall a, byte a -> [hex_digit (Z.land (Z.shiftr a 4) 15); hex_digit (Z.land a 15)] =
    [ref_digit (a / 16); ref_digit (a mod 16)]) as H.
  { intros a Ha. refine (proj1 (bool_decide_eq_true _) _). revert a Ha.
    apply (range_forallb 256 (fun a => bool_decide ([hex_digit (Z.land (Z.shiftr a 4) 15); hex_digit (Z.land a 15)] =
      [ref_digit (a / 16); ref_digit (a mod 16)]))). vm_compute. done. }
  unfold DigestToBase16, ref_hex. induction 1 as [|a l Ha _ IH]; [done|]. by rewrite !fmap_cons, !concat_cons, H, IH.
Qed.

Lemma md5_bytes m : bytes (md5 m).
Proof.
  unfold md5. generalize (absorb ref_compress md5_iv (padded m (length_le (8 * Zlen m)))). intros l.
  induction l as [|w l IH]; [constructor|]. rewrite fmap_cons, concat_cons. apply Forall_app_2; [|done].
  repeat constructor; apply Z.mod_pos_bound; lia.
Qed.

Ltac bit_cases :=
  intros i Hi; rewrite ?Z.lor_spec, ?Z.land_spec, ?Z.lxor_spec, ?Z.land_spec, ?Z.lxor_spec, ?not32_bits by done;
  repeat match goal with |- context [Z.testbit ?x i] => destruct (Z.testbit x i) end; done.

Lemma F1_ref x y z : word x -> word y -> word z -> F1 x y z = Z.lor (Z.land x y) (Z.land (not32 x) z).
Proof.
  intros Hx Hy Hz. unfold F1. apply word_eq; [| |bit_cases].
  - by apply word_lxor, word_land.
  - apply word_lor; [by apply word_land|by apply word_land, word_not].
Qed.

Lemma F2_ref x y z : word x -> word y -> word z -> F2 x y z = Z.lor (Z.land x z) (Z.land y (not32 z)).
Proof.
  intros Hx Hy Hz. unfold F2. rewrite F1_ref by done. by rewrite (Z.land_comm z x), (Z.land_comm (not32 z) y).
Qed.

Definition row_at (i : Z) : Z * Z * Z := (ref_k i, ref_T i, ref_s i).

Lemma add_u32_r x y : u32 (x + u32 y) = u32 (x + y).
Proof. unfold u32. by rewrite Z.add_mod_idemp_r. Qed.
Lemma add_u32_l x y : u32 (u32 x + y) = u32 (x + y).
Proof. unfold u32. by rewrite Z.add_mod_idemp_l. Qed.

Lemma step_ref f words s i :
  (forall x y z, word x -> word y -> word z -> f x y z = ref_F i x y z) -> quad_word s ->
  MD5STEP f words s (row_at i) = ref_step words s i.
Proof.
  destruct s as [[[a b] c] d]. intros Hf (Ha & Hb & Hc & Hd). unfold MD5STEP, ref_step, row_at, add32.
  rewrite <- rol_ref by apply ref_s_range.
  rewrite Hf, !add_u32_r by done. rewrite (Z.add_comm (rol32 _ _)).
  by rewrite (Z.add_assoc a), add_u32_r, Z.add_assoc.
Qed.

Lemma ref_step_word words s i : quad_word s -> quad_word (ref_step words s i).
Proof.
  destruct s as [[[a b] c] d]. intros (Ha & Hb & Hc & Hd). split_and!; try done. apply word_u32.
Qed.

Lemma round_ref f words lo s :
  (forall i, lo <= i < lo + 16 -> forall x y z, word x -> word y -> word z -> f x y z = ref_F i x y z) ->
  quad_word s ->
  foldl (MD5STEP f words) s (row_at <$> seqZ lo 16) = foldl (ref_step words) s (seqZ lo 16) /\
  quad_word (foldl (ref_step words) s (seqZ lo 16)).
Proof.
  intros H. assert (Forall (fun i => lo <= i < lo + 16) (seqZ lo 16)) as Hall.
  { apply List.Forall_forall. intros i Hi. apply list_elem_of_In, elem_of_seqZ in Hi. lia. }
  revert s. induction Hall as [|i ix Hi Hix IH]; intros s Hs; [done|].
  cbn [fmap list_fmap foldl]. rewrite step_ref by (done || by apply H). apply IH. by apply ref_step_word.
Qed.

Lemma rounds_rows :
  md5_round1 = row_at <$> seqZ 0 16 /\ md5_round2 = row_at <$> seqZ 16 16 /\
  md5_round3 = row_at <$> seqZ 32 16 /\ md5_round4 = row_at <$> seqZ 48 16.
Proof. vm_compute. by split_and!. Qed.

(** The four rounds. *)
Lemma rounds_ref words s :
  quad_word s ->
  foldl (MD5STEP F4 words) (foldl (MD5STEP F3 words) (foldl (MD5STEP F2 words) (foldl (MD5STEP F1 words) s
    md5_round1) md5_round2) md5_round3) md5_round4 = foldl (ref_step words) s (seqZ 0 64) .
Proof.
  intros Hs. destruct rounds_rows as (-> & -> & -> & ->).
  change (seqZ 0 64) with (seqZ 0 16 ++ seqZ 16 16 ++ seqZ 32 16 ++ seqZ 48 16). rewrite !foldl_app.
  destruct (round_ref F1 words 0 s) as [-> Hq1]; [|done|].
  { intros i Hi x y z Hx Hy Hz. rewrite F1_ref by done. unfold ref_F. by rewrite (proj2 (Z.ltb_lt i 16)) by lia. }
  edestruct (round_ref F2 words 16) as [E2 Hq2]; [|exact Hq1|rewrite E2; clear E2].
  { intros i Hi x y z Hx Hy Hz. rewrite F2_ref by done. unfold ref_F.
    by rewrite (proj2 (Z.ltb_ge i 16)), (proj2 (Z.ltb_lt i 32)) by lia. }
  edestruct (round_ref F3 words 32) as [E3 Hq3]; [|exact Hq2|rewrite E3; clear E3].
  { intros i Hi x y z Hx Hy Hz. unfold ref_F.
    by rewrite (proj2 (Z.ltb_ge i 16)), (proj2 (Z.ltb_ge i 32)), (proj2 (Z.ltb_lt i 48)) by lia. }
  edestruct (round_ref F4 words 48) as [E4 Hq4]; [|exact Hq3|rewrite E4; clear E4; done].
  intros i Hi x y z Hx Hy Hz. unfold ref_F.
  by rewrite (proj2 (Z.ltb_ge i 16)), (proj2 (Z.ltb_ge i 32)), (proj2 (Z.ltb_ge i 48)) by lia.
Qed.

Lemma transform_ref st block :
  Forall word st -> length st = 4%nat -> transform_in st block = ref_compress st block /\
  Forall word (ref_compress st block) /\ length (ref_compress st block) = 4%nat.
Proof.
  intros Hst Hl. destruct st as [|a [|b [|c [|d [|]]]]]; try done.
  unfold transform_in, MD5Transform, ref_compress.
  change (cget [a; b; c; d] 0) with a. change (cget [a; b; c; d] 1) with b.
  change (cget [a; b; c; d] 2) with c. change (cget [a; b; c; d] 3) with d. cbv zeta.
  rewrite rounds_ref, words_ref.
  - generalize (foldl (ref_step (ref_words block)) (a, b, c, d) (seqZ 0 64)). intros [[[a' b'] c'] d'].
    split_and!; [done| |done]. repeat constructor; apply word_u32.
  - repeat apply Forall_cons_1 in Hst as [? Hst]. by split_and!.
Qed.

(** ** Any way to cut the message *)

(** The context after the message [m]. *)
Record md5_state (ctx : MD5Context) (m m1 r : list Z) : Prop := {
  ms_split : m = m1 ++ r;
  ms_full : (64 | Zlen m1);
  ms_rest : Zlen r < 64;
  ms_buf : mbuf ctx = absorb transform_in md5_iv m1;
  ms_in : length (inb ctx) = 64%nat /\ take (length r) (inb ctx) = r;
  ms_bits : bits0 ctx = u32 (8 * Zlen m) /\ bits1 ctx = u32 (8 * Zlen m / 2^32) }.

Lemma bits_update n k :
  0 <= n -> 0 <= k < 2^32 ->
  let lo := u32 (u32 n + u32 (Z.shiftl k 3)) in
  lo = u32 (n + 8 * k) /\
  u32 ((if lo <? u32 n then u32 (u32 (n / 2^32) + 1) else u32 (n / 2^32)) + Z.shiftr k 29) = u32 ((n + 8 * k) / 2^32).
Proof.
  intros Hn Hk lo. rewrite Z.shiftr_div_pow2 by lia. unfold lo. rewrite Z.shiftl_mul_pow2 by lia.
  change (2^3) with 8. change (2^29) with 536870912. unfold u32. change (2^32) with 4294967296 in *. clear lo.
  split.
  - rewrite <- Z.add_mod by lia. f_equal. lia.
  - rewrite <- Z.add_mod by lia.
    assert ((if (n + k * 8) mod 4294967296 <? n mod 4294967296 then (n / 4294967296 mod 4294967296 + 1) mod 4294967296
             else n / 4294967296 mod 4294967296) =
            (n / 4294967296 + (if (n + k * 8) mod 4294967296 <? n mod 4294967296 then 1 else 0)) mod 4294967296) as ->.
    { destruct (_ <? _); [by rewrite Z.add_mod_idemp_l|by rewrite Z.add_0_r]. }
    rewrite Z.add_mod_idemp_l by lia. f_equal.
    destruct (Z.ltb_spec ((n + k * 8) mod 4294967296) (n mod 4294967296)); dlia.
Qed.

Lemma rest_count ctx m m1 r :
  md5_state ctx m m1 r -> Z.land (Z.shiftr (bits0 ctx) 3) 0x3f = Zlen r.
Proof.
  intros [-> [q Hq] Hr _ _ [-> _]]. change 0x3f with (Z.ones 6). rewrite Z.land_ones by lia.
  rewrite Z.shiftr_div_pow2 by lia. rewrite length_app, Nat2Z.inj_add, Hq. unfold u32.
  change (2^6) with 64. change (2^3) with 8. change (2^32) with 4294967296. dlia.
Qed.

Lemma update_loop_spec fuel b i data m1 :
  (64 | Zlen m1) -> b = absorb transform_in md5_iv m1 -> length i = 64%nat -> Zlen data / 64 <= Z.of_nat fuel ->
  exists b' i' m2 r, update_loop fuel b i data = Ok (b', i') /\ data = m2 ++ r /\ (64 | Zlen (m1 ++ m2)) /\
    Zlen r < 64 /\ b' = absorb transform_in md5_iv (m1 ++ m2) /\ length i' = 64%nat /\ take (length r) i' = r.
Proof.
  revert b i data m1. induction fuel as [|fuel IH]; intros b i data m1 Hd Hb Hi Hf; cbn [update_loop];
    rewrite Z.geb_leb; destruct (Z.leb_spec 64 (Zlen data)) as [H64|H64].
  - apply Z.div_le_mono with (c := 64) in H64; [|lia]. change (64 / 64) with 1 in H64. lia.
  - destruct (blit_start i data) as (i' & -> & Hi' & Ht); [lia|].
    exists b, i', [], data. rewrite app_nil_r. split_and!; try done; congruence.
  - assert (Zlen (take 64 data) = 64) as Hl by (rewrite length_take; lia).
    destruct (blit_start i (take 64 data)) as (i' & -> & Hi' & Ht); [lia|]. rewrite bind_Ok.
    rewrite take_ge in Ht by lia.
    destruct (IH (transform_in b i') i' (drop 64 data) (m1 ++ take 64 data))
      as (b' & i'' & m2 & r & -> & Hdata & Hdiv & Hr & Hb' & Hi'' & Htk).
    + rewrite length_app, Nat2Z.inj_add, Hl. apply Z.divide_add_r; [done|by exists 1].
    + rewrite absorb_app by done. rewrite <- Hb, Ht. rewrite <- (app_nil_r (take 64 data)) at 2.
      by rewrite absorb_block, absorb_short by (done || simpl; lia).
    + congruence.
    + rewrite length_drop. replace (Z.of_nat (length data - 64)) with (Zlen data + (-1) * 64) by lia.
      rewrite Z.div_add by lia. lia.
    + exists b', i'', (take 64 data ++ m2), r. rewrite <- app_assoc in *. rewrite <- Hdata, take_drop.
      split_and!; done.
  - destruct (blit_start i data) as (i' & -> & Hi' & Ht); [lia|].
    exists b, i', [], data. rewrite app_nil_r. split_and!; try done; congruence.
Qed.

Lemma MD5Update_spec ctx m m1 r data :
  md5_state ctx m m1 r -> Zlen data < 2^32 ->
  exists ctx' m1' r', MD5Update ctx data = Ok ctx' /\ md5_state ctx' (m ++ data) m1' r'.
Proof.
  intros Hst Hlen. pose proof (rest_count _ _ _ _ Hst) as Hcount. destruct Hst as [-> Hdiv Hr Hbuf [Hi Htk] [Hb0 Hb1]].
  destruct (bits_update (8 * Zlen (m1 ++ r)) (Zlen data)) as [Hlo Hhi]; [lia|lia|].
  replace (8 * Zlen (m1 ++ r) + 8 * Zlen data) with (8 * Zlen ((m1 ++ r) ++ data)) in * by (rewrite !length_app; lia).
  unfold MD5Update. rewrite Hcount, Hb0, Hb1, Hhi, Hlo. clear Hlo Hhi.
  destruct (Z.eqb_spec (Zlen r) 0) as [Hr0|Hr0]; cbn [negb].
  - destruct r; [|simpl in Hr0; lia]. rewrite app_nil_r in *.
    destruct (update_loop_spec (length data) (mbuf ctx) (inb ctx) data m1) as
      (b' & i' & m2 & r & -> & Hdata & Hdiv' & Hr' & Hb' & Hi' & Htk'); try done.
    { apply Z.div_le_upper_bound; lia. }
    rewrite bind_Ok. eexists _, (m1 ++ m2), r. split; [done|]. split; try done. by rewrite Hdata, app_assoc.
  - destruct (Z.ltb_spec (Zlen data) (64 - Zlen r)).
    + destruct (blit_ok (inb ctx) (Zlen r) data) as (i' & -> & Hi' & Ht); [lia|lia|]. rewrite bind_Ok.
      eexists _, m1, (r ++ data). split; [done|]. split; cbn; try done.
      * by rewrite app_assoc.
      * rewrite length_app. lia.
      * split; [congruence|]. rewrite Nat2Z.id, Htk in Ht. rewrite <- Ht at 2. f_equal. rewrite length_app. lia.
    + set (n := 64 - Zlen r) in *. assert (Zlen (take (Z.to_nat n) data) = n) as Hln by (rewrite length_take; lia).
      destruct (blit_ok (inb ctx) (Zlen r) (take (Z.to_nat n) data)) as (i' & -> & Hi' & Ht); [lia|lia|].
      rewrite bind_Ok. rewrite Hln, Nat2Z.id, Htk, take_ge in Ht by lia.
      destruct (update_loop_spec (length data) (transform_in (mbuf ctx) i') i' (drop (Z.to_nat n) data)
        ((m1 ++ r) ++ take (Z.to_nat n) data)) as (b' & i'' & m2 & r' & -> & Hdata & Hdiv' & Hr' & Hb' & Hi'' & Htk').
      * rewrite !length_app. rewrite !Nat2Z.inj_add, Hln. destruct Hdiv as [q ->]. exists (q + 1). lia.
      * rewrite <- app_assoc, absorb_app, <- Hbuf, Ht by done. rewrite <- (app_nil_r (r ++ _)) at 2.
        rewrite absorb_block, absorb_short; [done|simpl; lia|]. rewrite length_app. lia.
      * congruence.
      * rewrite length_drop. apply Z.div_le_upper_bound; lia.
      * rewrite bind_Ok. eexists _, _, r'. split; [done|]. split; try done.
        cbn. rewrite <- !app_assoc. rewrite <- Hdata, take_drop. done.
Qed.

(** ** The end of the message *)

Lemma byteReverse_word w : word w -> byteReverse (word_bytes w) = [w].
Proof.
  unfold word. intros Hw. unfold word_bytes, byteReverse, u8. change (2^8) with 256 in *.
  rewrite !Z.shiftr_div_pow2 by lia. change (2^8) with 256. change (2^16) with 65536. change (2^24) with 16777216.
  assert (forall x, 0 <= x mod 256 < 256) as H8 by (intros x; apply Z.mod_pos_bound; lia).
  pose proof (H8 w). pose proof (H8 (w / 256)). pose proof (H8 (w / 65536)). pose proof (H8 (w / 16777216)).
  rewrite (lor_shiftl _ _ 8), (lor_shiftl _ _ 8), lor_shiftl by (change (2^8) with 256; change (2^16) with 65536; lia).
  f_equal. change (2^8) with 256. change (2^16) with 65536. change (2^32) with 4294967296 in *.
  clear H8. dlia.
Qed.

Lemma byteReverse_app x y : (4 | Zlen x) -> byteReverse (x ++ y) = byteReverse x ++ byteReverse y.
Proof.
  intros [q Hq]. rewrite <- (Z2Nat.id q) in Hq by lia. revert x Hq. generalize (Z.to_nat q) as n. clear q.
  induction n as [|n IH]; intros x Hx.
  - destruct x; [done|simpl in Hx; lia].
  - destruct x as [|a [|b [|c [|d x]]]]; simpl in Hx; try lia. cbn [byteReverse app]. f_equal. apply IH. lia.
Qed.

Lemma last_block b i n :
  length i = 56%nat -> MD5Transform b (byteReverse i ++ [u32 n; u32 (n / 2^32)]) = transform_in b (i ++ length_le n).
Proof.
  intros Hi. unfold transform_in, length_le. rewrite <- !bytes_ref. rewrite byteReverse_app by (rewrite Hi; by exists 14).
  rewrite byteReverse_app by (by exists 1). by rewrite !byteReverse_word by apply word_u32.
Qed.

Lemma absorb_ref m :
  absorb transform_in md5_iv m = absorb ref_compress md5_iv m.
Proof.
  unfold absorb. generalize (blocks (Z.to_nat (Zlen m / 64)) m) as l.
  assert (forall l st, Forall word st -> length st = 4%nat -> foldl transform_in st l = foldl ref_compress st l) as H.
  { intros l. induction l as [|b l IH]; intros st H1 H2; [done|]. simpl.
    destruct (transform_ref st b H1 H2) as (-> & H1' & H2'). by apply IH. }
  intros l. apply H; [|done]. repeat constructor; done.
Qed.

Lemma MD5Final_spec ctx m m1 r :
  md5_state ctx m m1 r -> exists ctx', MD5Final ctx = Ok (md5 m, ctx').
Proof.
  intros Hst. pose proof (rest_count _ _ _ _ Hst) as Hcount. destruct Hst as [Hm Hdiv Hr Hbuf [Hi Htk] [Hb0 Hb1]].
  unfold MD5Final. rewrite Hcount.
  destruct (blit_ok (inb ctx) (Zlen r) [128]) as (i1 & -> & Hi1 & Ht1); [lia|simpl; lia|].
  rewrite bind_Ok. rewrite Nat2Z.id, Htk in Ht1. change (Zlen [128]) with 1 in Ht1.
  assert (Zlen (r ++ [128]) = Zlen r + 1) as Hlr by (rewrite length_app; simpl; lia).
  unfold md5. rewrite <- (list_fmap_ext _ _ _ (fun _ w _ => bytes_ref w)), <- absorb_ref, Hm. unfold padded. rewrite <- !app_assoc, absorb_app, <- Hbuf by done.
  rewrite <- Hm. set (n := 8 * Zlen m) in *. assert (Zlen (length_le n) = 8) as Hle by done.
  assert (exists q, Zlen m = 64 * q + Zlen r) as [q Hq]
    by (destruct Hdiv as [q Hq]; exists q; rewrite Hm, length_app; lia).
  destruct (Z.ltb_spec (64 - 1 - Zlen r) 8).
  - assert (pad_zeros (Zlen m) = (63 - Zlen r) + 56) as ->.
    { unfold pad_zeros. rewrite Hq. symmetry. apply Z.mod_unique with (- q - 1); lia. }
    rewrite Z2Nat.inj_add, replicate_add, <- !app_assoc by lia.
    destruct (blit_ok i1 (Zlen r + 1) (zeros (64 - 1 - Zlen r))) as (i2 & -> & Hi2 & Ht2);
      [lia|unfold zeros; rewrite length_replicate; lia|]. rewrite bind_Ok.
    destruct (blit_start i2 (zeros 56)) as (i3 & -> & Hi3 & Ht3); [change (Zlen (zeros 56)) with 56; lia|].
    rewrite !bind_Ok. change (length (zeros 56)) with 56%nat in Ht3. rewrite Ht3, Hb0, Hb1, last_block by done.
    eexists. do 3 f_equal. rewrite Ht1, take_ge in Ht2 by (unfold zeros; rewrite length_replicate; lia).
    rewrite Ht2. rewrite !app_assoc, <- (app_assoc _ _ (length_le n)).
    rewrite absorb_block, absorb_one.
    + unfold zeros. rewrite <- !app_assoc. do 3 f_equal.
    + done.
    + rewrite !length_app, length_replicate. simpl. lia.
  - assert (pad_zeros (Zlen m) = 55 - Zlen r) as ->.
    { unfold pad_zeros. rewrite Hq. symmetry. apply Z.mod_unique with (- q); lia. }
    destruct (blit_ok i1 (Zlen r + 1) (zeros (64 - 1 - Zlen r - 8))) as (i2 & -> & Hi2 & Ht2);
      [lia|unfold zeros; rewrite length_replicate; lia|]. rewrite !bind_Ok.
    assert (take 56 i2 = r ++ [128] ++ zeros (55 - Zlen r)) as E.
    { rewrite Ht1 in Ht2. unfold zeros in *. rewrite length_replicate in Ht2.
      replace (64 - 1 - Zlen r - 8) with (55 - Zlen r) in Ht2 by lia.
      replace (Z.to_nat (Zlen r + 1 + Z.of_nat (Z.to_nat (55 - Zlen r)))) with 56%nat in Ht2 by lia.
      by rewrite Ht2, <- app_assoc. }
    rewrite E, Hb0, Hb1, last_block by (rewrite <- E, length_take; lia).
    eexists. do 3 f_equal. rewrite <- !app_assoc. unfold zeros. rewrite absorb_one; [done|].
    rewrite !length_app, length_replicate. simpl. lia.
Qed.

(** ** Whole messages *)

Lemma MD5Init_state i : length i = 64%nat -> md5_state (MD5Init i) [] [] [].
Proof. intros Hi. split; done || by exists 0. Qed.

Lemma update_all_spec ctx m m1 r chunks :
  md5_state ctx m m1 r -> Forall (fun d => Zlen d < 2^32) chunks ->
  exists ctx' m1' r', update_all ctx chunks = Ok ctx' /\ md5_state ctx' (m ++ concat chunks) m1' r'.
Proof.
  intros Hst Hc. revert ctx m m1 r Hst. induction Hc as [|d chunks Hd Hc IH]; intros ctx m m1 r Hst; cbn [update_all concat].
  - exists ctx, m1, r. by rewrite app_nil_r.
  - destruct (MD5Update_spec _ _ _ _ d Hst Hd) as (ctx1 & m1' & r' & -> & Hst'). rewrite bind_Ok, app_assoc.
    by apply (IH _ _ m1' r').
Qed.

(** The incremental state when [m] has been added since the last reset. *)
Definition incr_state (s : incr) (m : list Z) : Prop :=
  length (inb (incrCtx s)) = 64%nat /\
  (if incrInit s then exists m1 r, md5_state (incrCtx s) m m1 r else m = []).

Fixpoint step_blobs (s : incr) (texts : list (list Z)) : result incr :=
  match texts with [] => Ok s | t :: texts => s ← md5sum_step_blob s t; step_blobs s texts end.

Lemma started s m :
  incr_state s m ->
  exists m1 r, md5_state (incrCtx (if incrInit s then s else Incr true (MD5Init (inb (incrCtx s))))) m m1 r.
Proof.
  intros [Hi Hs]. destruct (incrInit s); [done|]. subst m. exists [], []. by apply MD5Init_state.
Qed.

Lemma step_blob_spec s m t :
  incr_state s m -> Zlen t < 2^31 ->
  exists s', md5sum_step_blob s t = Ok s' /\ incr_state s' (m ++ t).
Proof.
  intros Hs Ht. destruct (started s m Hs) as (m1 & r & Hst). unfold md5sum_step_blob, md5sum_step_text.
  rewrite to_int_small by lia. set (s1 := if incrInit s then s else _) in *.
  assert (incrInit s1 = true) as E1 by (unfold s1; by destruct (incrInit s) eqn:E).
  destruct (Z.eqb_spec (Zlen t) 0) as [E|E].
  - destruct t; [|simpl in E; lia]. exists s1. rewrite app_nil_r. split; [done|]. split; [apply Hst|].
    rewrite E1. by exists m1, r.
  - rewrite (proj2 (Z.ltb_ge _ _)), u32_small, Nat2Z.id, take_ge by lia.
    destruct (MD5Update_spec _ _ _ _ t Hst ltac:(lia)) as (c & m1' & r' & -> & Hst'). rewrite bind_Ok.
    eexists. split; [done|]. split; [apply Hst'|]. by exists m1', r'.
Qed.

Lemma md5sum_finish_spec s m :
  incr_state s m ->
  exists c, md5sum_finish s = Ok (Incr false c, DigestToBase16 (md5 m)).
Proof.
  intros Hs. destruct (started s m Hs) as (m1 & r & Hst). unfold md5sum_finish, md5sum_step_text.
  cbn [Z.eqb]. rewrite bind_Ok. destruct (MD5Final_spec _ _ _ _ Hst) as (c & ->). rewrite bind_Ok. by exists c.
Qed.

(** C37. However a message is cut into pieces of at most [INT_MAX] bytes, the
    sum of a file read in these pieces, of an incremental computation over them
    (after any earlier use of the static context), and of a blob of less than
    2^32 bytes that holds the message, is the hexadecimal MD5 of the message, as
    RFC 1321 defines it by padding the whole message, with the constants of the
    sine; no operation leaves its buffers. *)
Theorem md5sum_spec (junk : list Z) (s : incr) (chunks : list (list Z)) :
  length junk = 64%nat -> length (inb (incrCtx s)) = 64%nat -> Forall (fun d => Zlen d <= INT_MAX) chunks ->
  let sum := ref_hex (md5 (concat chunks)) in
  md5sum_file junk chunks = Ok sum /\
  (Zlen (concat chunks) < 2^32 -> md5sum_blob junk (concat chunks) = Ok sum) /\
  exists s', (s ← step_blobs (md5sum_init s) chunks; md5sum_finish s) = Ok (s', sum) /\ incrInit s' = false.
Proof.
  intros Hj Hs Hi sum. unfold sum. rewrite <- hex_ref by apply md5_bytes. clear sum.
  assert (Forall (fun d => Zlen d < 2^31) chunks) as Hc
    by (eapply Forall_impl; [|exact Hi]; change INT_MAX with (2^31 - 1); intros d Hd; simpl in Hd; lia).
  split_and!.
  - unfold md5sum_file. destruct (update_all_spec _ _ _ _ chunks (MD5Init_state junk Hj)) as (ctx & m1 & r & -> & Hst);
      [eapply Forall_impl; [|exact Hc]; intros d Hd; simpl in Hd; lia|].
    rewrite bind_Ok. destruct (MD5Final_spec _ _ _ _ Hst) as (c & ->). by rewrite bind_Ok.
  - intros Hl. unfold md5sum_blob.
    destruct (MD5Update_spec _ _ _ _ (concat chunks) (MD5Init_state junk Hj) Hl) as (ctx & m1 & r & -> & Hst).
    rewrite bind_Ok. destruct (MD5Final_spec _ _ _ _ Hst) as (c & ->). by rewrite bind_Ok.
  - assert (forall s m, incr_state s m -> exists s', step_blobs s chunks = Ok s' /\ incr_state s' (m ++ concat chunks)) as H.
    { clear -Hc. induction Hc as [|d chunks Hd Hc IH]; intros s m Hs; cbn [step_blobs concat].
      - exists s. by rewrite app_nil_r.
      - destruct (step_blob_spec s m d Hs Hd) as (s1 & -> & Hs1). rewrite bind_Ok, app_assoc. by apply IH. }
    destruct (H (md5sum_init s) []) as (s1 & -> & Hs1); [by split|]. rewrite bind_Ok.
    destruct (md5sum_finish_spec s1 (concat chunks) Hs1) as (c & ->). by exists (Incr false c).
Qed.

Lemma md5sum_spec_witness :
  md5sum_file junk64 [cstr "message "%string; cstr "digest"%string] =
    Ok (ref_hex (md5 (cstr "message digest"%string))) /\
  ref_hex (md5 (cstr "message digest"%string)) = cstr "f96b697d7cb7938d525a2f31aaf161d0"%string.
Proof.
  split; [|vm_compute; reflexivity].
  destruct (md5sum_spec junk64 (Incr false (MD5Init junk64)) [cstr "message "%string; cstr "digest"%string])
    as (H & _ & _); [reflexivity|reflexivity|repeat constructor; discriminate|exact H].
Defined.
