(* ===== verification/Sha1.v ===== *)
(** * SHA-1

    Models [src/src/ssfossil/fossil/src/sha1.c].  The message block is an array
    accessed through [rd] and [wr]; the words are unsigned 32-bit numbers.  (The
    shift of a byte by 24 is done in [int] before it is stored in a word; the
    model computes the word.)  The length that [SHA1Input] takes is [unsigned],
    those of the incremental functions are [int]s.  The text of a result is returned instead of being
    stored in a blob or allocated with [mprintf]. *)

From S2P Require Import Prelude Blocks Md5.

Definition SHA1HashSize : Z := 20.
Definition shaSuccess : Z := 0.
Definition shaStateError : Z := 2.

Record SHA1Context := MkSHA1 {
  Intermediate_Hash : list Z;
  Length_Low : Z; Length_High : Z;
  Message_Block_Index : Z; Message_Block : list Z;
  Computed : bool; Corrupted : Z }.

Definition SHA1CircularShift (bits word : Z) : Z := rol32 bits word.

(** The block of the context is not written. *)
Definition SHA1Reset (block : list Z) : SHA1Context :=
  MkSHA1 [0x67452301; 0xEFCDAB89; 0x98BADCFE; 0x10325476; 0xC3D2E1F0] 0 0 0 block false 0.

(** ** The words of a block *)

Definition block_word (block : list Z) (t : Z) : Z :=
  let b i := cget block (t * 4 + i) in
  Z.lor (Z.lor (Z.lor (u32 (Z.shiftl (b 0) 24)) (u32 (Z.shiftl (b 1) 16))) (Z.shiftl (b 2) 8)) (b 3).

(** [W[t]] for [t >= 16], added to the words before it. *)
Definition next_word (W : list Z) (t : Z) : list Z :=
  W ++ [SHA1CircularShift 1 (Z.lxor (Z.lxor (Z.lxor (cget W (t - 3)) (cget W (t - 8))) (cget W (t - 14))) (cget W (t - 16)))].

Definition word_sequence (block : list Z) : list Z :=
  foldl next_word (block_word block <$> seqZ 0 16) (seqZ 16 64).

Definition five : Type := Z * Z * Z * Z * Z.

(** The body of the four loops, with the function and constant of the loop. *)
Definition sha_round (f : Z -> Z -> Z -> Z) (K : Z) (W : list Z) (s : five) (t : Z) : five :=
  let '(A, B, C, D, E) := s in
  let temp := add32 (add32 (add32 (add32 (SHA1CircularShift 5 A) (f B C D)) E) (cget W t)) K in
  (temp, A, SHA1CircularShift 30 B, C, D).

Definition f_ch (B C D : Z) : Z := Z.lor (Z.land B C) (Z.land (not32 B) D).
Definition f_parity (B C D : Z) : Z := Z.lxor (Z.lxor B C) D.
Definition f_maj (B C D : Z) : Z := Z.lor (Z.lor (Z.land B C) (Z.land B D)) (Z.land C D).

Definition process_hash (H block : list Z) : list Z :=
  let W := word_sequence block in
  let s := (cget H 0, cget H 1, cget H 2, cget H 3, cget H 4) in
  let s := foldl (sha_round f_ch 0x5A827999 W) s (seqZ 0 20) in
  let s := foldl (sha_round f_parity 0x6ED9EBA1 W) s (seqZ 20 20) in
  let s := foldl (sha_round f_maj 0x8F1BBCDC W) s (seqZ 40 20) in
  let '(A, B, C, D, E) := foldl (sha_round f_parity 0xCA62C1D6 W) s (seqZ 60 20) in
  [add32 (cget H 0) A; add32 (cget H 1) B; add32 (cget H 2) C; add32 (cget H 3) D; add32 (cget H 4) E].

Definition SHA1ProcessMessageBlock (c : SHA1Context) : SHA1Context :=
  MkSHA1 (process_hash (Intermediate_Hash c) (Message_Block c)) (Length_Low c) (Length_High c) 0
    (Message_Block c) (Computed c) (Corrupted c).

(** ** Input *)

(** [context->Message_Block[context->Message_Block_Index++] = x] *)
Definition put_byte (c : SHA1Context) (x : Z) : result SHA1Context :=
  b ← wr (Message_Block c) (Message_Block_Index c) x;
  Ok (MkSHA1 (Intermediate_Hash c) (Length_Low c) (Length_High c) (Message_Block_Index c + 1) b
        (Computed c) (Corrupted c)).

Definition count_byte (c : SHA1Context) : SHA1Context :=
  let lo := u32 (Length_Low c + 8) in
  let hi := if lo =? 0 then u32 (Length_High c + 1) else Length_High c in
  let cor := if (lo =? 0) && (hi =? 0) then 1 else Corrupted c in
  MkSHA1 (Intermediate_Hash c) lo hi (Message_Block_Index c) (Message_Block c) (Computed c) cor.

Fixpoint input_loop (c : SHA1Context) (message_array : list Z) : result SHA1Context :=
  match message_array with
  | [] => Ok c
  | x :: message_array =>
      if negb (Corrupted c =? 0) then Ok c
      else
        c ← put_byte c (Z.land x 255);
        let c := count_byte c in
        let c := if Message_Block_Index c =? 64 then SHA1ProcessMessageBlock c else c in
        input_loop c message_array
  end.

(** The error code and the context; [length] is converted to [unsigned]. *)
Definition SHA1Input (c : SHA1Context) (message_array : list Z) (length : Z) : result (Z * SHA1Context) :=
  let length := u32 length in
  if length =? 0 then Ok (shaSuccess, c)
  else if Computed c then
    Ok (shaStateError, MkSHA1 (Intermediate_Hash c) (Length_Low c) (Length_High c) (Message_Block_Index c)
                         (Message_Block c) (Computed c) shaStateError)
  else if negb (Corrupted c =? 0) then Ok (Corrupted c, c)
  else c ← input_loop c (take (Z.to_nat length) message_array); Ok (shaSuccess, c).

(** ** The result *)

(** [while(context->Message_Block_Index < n) put 0] *)
Fixpoint fill_to (fuel : nat) (c : SHA1Context) (n : Z) : result SHA1Context :=
  if Message_Block_Index c <? n then
    match fuel with
    | O => Fault OutOfFuel
    | S fuel => c ← put_byte c 0; fill_to fuel c n
    end
  else Ok c.

Definition be_bytes (w : Z) : list Z := [u8 (Z.shiftr w 24); u8 (Z.shiftr w 16); u8 (Z.shiftr w 8); u8 w].

Definition SHA1PadMessage (c : SHA1Context) : result SHA1Context :=
  c ← (if Message_Block_Index c >? 55 then
         c ← put_byte c 128;
         c ← fill_to 64 c 64;
         fill_to 64 (SHA1ProcessMessageBlock c) 56
       else c ← put_byte c 128; fill_to 64 c 56);
  b ← blit (Message_Block c) 56 (be_bytes (Length_High c) ++ be_bytes (Length_Low c));
  Ok (SHA1ProcessMessageBlock
        (MkSHA1 (Intermediate_Hash c) (Length_Low c) (Length_High c) (Message_Block_Index c) b
           (Computed c) (Corrupted c))).

(** Byte [i] of the digest. *)
Definition digest_byte (H : list Z) (i : Z) : Z :=
  u8 (Z.shiftr (cget H (Z.shiftr i 2)) (8 * (3 - Z.land i 3))).

(** The error code, the digest array (not written on errors) and the context. *)
Definition SHA1Result (c : SHA1Context) (Message_Digest : list Z) : result (Z * list Z * SHA1Context) :=
  if negb (Corrupted c =? 0) then Ok (Corrupted c, Message_Digest, c)
  else
    c ← (if Computed c then Ok c
         else
           c ← SHA1PadMessage c;
           Ok (MkSHA1 (Intermediate_Hash c) 0 0 (Message_Block_Index c) (zeros 64) true (Corrupted c)));
    Ok (shaSuccess, digest_byte (Intermediate_Hash c) <$> seqZ 0 SHA1HashSize, c).

(** ** Sums of texts *)

(** The callers ignore the error codes. *)
Definition input (c : SHA1Context) (d : list Z) (n : Z) : result SHA1Context :=
  '(_, c) ← SHA1Input c d n; Ok c.
Fixpoint input_all (c : SHA1Context) (chunks : list (list Z)) : result SHA1Context :=
  match chunks with [] => Ok c | d :: chunks => c ← input c d (Zlen d); input_all c chunks end.

(** [incrInit] and [incrCtx]. *)
Record incr1 := Incr1 { incrInit1 : bool; incrCtx1 : SHA1Context }.

Section Sums.
(** What the digest array holds before it is written, and the message block of a
    context on the stack. *)
Context (uninit junk : list Z).

Definition sha1_finish (c : SHA1Context) : result (list Z * SHA1Context) :=
  '(_, d, c) ← SHA1Result c uninit; Ok (DigestToBase16 d, c).

Definition sha1sum_file (chunks : list (list Z)) : result (list Z) :=
  c ← input_all (SHA1Reset junk) chunks; '(z, _) ← sha1_finish c; Ok z.
Definition sha1sum_blob (text : list Z) : result (list Z) :=
  c ← input (SHA1Reset junk) text (Zlen text); '(z, _) ← sha1_finish c; Ok z.
(** [zIn] is the memory at the pointer, up to and including a NUL. *)
Definition sha1sum (zIn : list Z) : result (list Z) :=
  c ← input (SHA1Reset junk) zIn (Zlen (c_string zIn)); '(z, _) ← sha1_finish c; Ok z.

Definition sha1sum_step_text (s : incr1) (zText : list Z) (nBytes : Z) : result incr1 :=
  let s := if incrInit1 s then s else Incr1 true (SHA1Reset (Message_Block (incrCtx1 s))) in
  if nBytes =? 0 then Ok s
  else
    let nBytes := if nBytes <? 0 then to_int (Zlen (c_string zText)) else nBytes in
    c ← input (incrCtx1 s) zText nBytes;
    Ok (Incr1 true c).
Definition sha1sum_step_blob (s : incr1) (text : list Z) : result incr1 :=
  sha1sum_step_text s text (to_int (Zlen text)).
Definition sha1sum_finish (s : incr1) : result (incr1 * list Z) :=
  s ← sha1sum_step_text s [] 0;
  '(z, c) ← sha1_finish (incrCtx1 s);
  Ok (Incr1 false c, z).

(** [zProjectId] is the cached project code; [db_get] is its value in the
    database.  The strings are without their NUL. *)
Definition sha1_shared_secret (zProjectId db_get : option (list Z)) (zPw zLogin : list Z) :
    result (option (list Z) * list Z) :=
  let id := match zProjectId with None => db_get | Some z => Some z end in
  match id with
  | None => Ok (None, zPw)
  | Some z =>
      let slash := cstr "/"%string in
      c ← input_all (SHA1Reset junk) [z; slash; zLogin; slash; zPw];
      '(d, _) ← sha1_finish c;
      Ok (Some z, d)
  end.

End Sums.

(** Test values of FIPS 180-1. *)
Example sha1_abc : sha1sum_blob [] junk64 (cstr "abc"%string) = Ok (cstr "a9993e364706816aba3e25717850c26c9cd0d89d"%string).
Proof. vm_compute. reflexivity. Qed.
Example sha1_two_blocks :
  sha1sum_blob [] junk64 (cstr "abcdbcdecdefdefgefghfghighijhijkijkljklmklmnlmnomnopnopq"%string)
  = Ok (cstr "84983e441c3bd26ebaae4aa1f95129e5e54670f1"%string).
Proof. vm_compute. reflexivity. Qed.
