(* ===== verification/Sha1Spec.v ===== *)
(** * SHA-1: agreement with the definition of the algorithm

    The reference [sha1] follows FIPS 180-1 and shares nothing with the model: the
    padded message is cut into blocks of 64 bytes and each goes through 80 steps.
    The theorems say that any sequence of inputs followed by [SHA1Result] computes
    it, and that the shared secret of two users is such a hash. *)

From S2P Require Import Prelude Blocks Md5 Md5Spec Sha1.

(** ** The reference *)

Definition ref_f (t B C D : Z) : Z :=
  if t <? 20 then Z.lor (Z.land B C) (Z.land (not32 B) D)
  else if t <? 40 then Z.lxor (Z.lxor B C) D
  else if t <? 60 then Z.lor (Z.lor (Z.land B C) (Z.land B D)) (Z.land C D)
  else Z.lxor (Z.lxor B C) D.
Definition ref_K (t : Z) : Z :=
  if t <? 20 then 0x5A827999 else if t <? 40 then 0x6ED9EBA1 else if t <? 60 then 0x8F1BBCDC else 0xCA62C1D6.

Definition sha_ref_step (W : list Z) (s : Z * Z * Z * Z * Z) (t : Z) : Z * Z * Z * Z * Z :=
  let '(A, B, C, D, E) := s in
  (u32 (ref_rol 5 A + ref_f t B C D + E + cget W t + ref_K t), A, ref_rol 30 B, C, D).

(** The words: big-endian numbers, then the recurrence. *)
Fixpoint be_words (z : list Z) : list Z :=
  match z with
  | b0 :: b1 :: b2 :: b3 :: z => (b0 * 2^24 + b1 * 2^16 + b2 * 2^8 + b3) :: be_words z
  | _ => []
  end.
Fixpoint extend_words (n : nat) (W : list Z) : list Z :=
  match n with
  | O => W
  | S n =>
      let t := Zlen W in
      extend_words n (W ++ [ref_rol 1 (Z.lxor (Z.lxor (Z.lxor (cget W (t - 3)) (cget W (t - 8))) (cget W (t - 14)))
                                       (cget W (t - 16)))])
  end.

Definition sha_ref_compress (H block : list Z) : list Z :=
  let W := extend_words 64 (be_words block) in
  let '(A, B, C, D, E) := foldl (sha_ref_step W) (cget H 0, cget H 1, cget H 2, cget H 3, cget H 4) (seqZ 0 80) in
  [u32 (cget H 0 + A); u32 (cget H 1 + B); u32 (cget H 2 + C); u32 (cget H 3 + D); u32 (cget H 4 + E)].

Definition sha1_iv : list Z := [0x67452301; 0xEFCDAB89; 0x98BADCFE; 0x10325476; 0xC3D2E1F0].
Definition ref_be (w : Z) : list Z := [w / 2^24 mod 2^8; w / 2^16 mod 2^8; w / 2^8 mod 2^8; w mod 2^8].
Definition length_be (n : Z) : list Z := ref_be (u32 (n / 2^32)) ++ ref_be (u32 n).
Definition sha1 (m : list Z) : list Z :=
  concat (ref_be <$> absorb sha_ref_compress sha1_iv (padded m (length_be (8 * Zlen m)))).

(** ** One block *)

Lemma be_ref w : be_bytes w = ref_be w.
Proof. unfold be_bytes, ref_be, u8. by rewrite !Z.shiftr_div_pow2. Qed.

Lemma block_word_be b0 b1 b2 b3 :
  byte b0 -> byte b1 -> byte b2 -> byte b3 ->
  Z.lor (Z.lor (Z.lor (u32 (Z.shiftl b0 24)) (u32 (Z.shiftl b1 16))) (Z.shiftl b2 8)) b3 =
  b0 * 2^24 + b1 * 2^16 + b2 * 2^8 + b3.
Proof.
  unfold byte. intros H0 H1 H2 H3.
  assert (forall b n, 0 <= n <= 24 -> 0 <= b < 256 -> u32 (Z.shiftl b n) = Z.shiftl b n) as Hu.
  { intros b n Hn Hb. apply u32_small. rewrite Z.shiftl_mul_pow2 by lia.
    assert (0 < 2 ^ n <= 2^24) by (split; [apply Z.pow_pos_nonneg; lia|apply Z.pow_le_mono_r; lia]). nia. }
  rewrite !Hu by lia.
  assert (forall x y, Z.lor (Z.shiftl x 8) (Z.shiftl y 0) = Z.lor (Z.shiftl x 8) y) as H8 by (intros; by rewrite Z.shiftl_0_r).
  replace 24 with (16 + 8) at 1 by lia. replace 16 with (8 + 8) at 1 2 by lia.
  rewrite <- !Z.shiftl_shiftl by lia. rewrite <- !Z.shiftl_lor.
  rewrite !lor_shiftl by (change (2^8) with 256; lia).
  change (2^24) with 16777216. change (2^16) with 65536. change (2^8) with 256. lia.
Qed.

Lemma cget_S (x : Z) z i : 0 <= i -> cget (x :: z) (i + 1) = cget z i.
Proof. intros Hi. rewrite !cget_lookup by lia. by replace (Z.to_nat (i + 1)) with (S (Z.to_nat i)) by lia. Qed.

Lemma first_words n block :
  bytes block -> length block = (4 * n)%nat -> block_word block <$> seqZ 0 (Z.of_nat n) = be_words block.
Proof.
  revert block. induction n as [|n IH]; intros block Hb Hl; [by destruct block|].
  destruct block as [|b0 [|b1 [|b2 [|b3 block]]]]; simpl in Hl; try lia.
  rewrite seqZ_cons by lia. rewrite fmap_cons. cbn [be_words].
  apply Forall_cons_1 in Hb as [H0 Hb]. apply Forall_cons_1 in Hb as [H1 Hb].
  apply Forall_cons_1 in Hb as [H2 Hb]. apply Forall_cons_1 in Hb as [H3 Hb].
  f_equal; [by apply block_word_be|]. rewrite <- (IH block Hb) by lia.
  replace (Z.pred (Z.of_nat (S n))) with (Z.of_nat n) by lia.
  change (Z.succ 0) with (1 + 0). rewrite <- fmap_add_seqZ, <- list_fmap_compose.
  apply list_fmap_ext. intros k t Ht. apply list_elem_of_lookup_2, elem_of_seqZ in Ht. simpl.
  unfold block_word.
  assert (forall i, 0 <= i -> cget (b0 :: b1 :: b2 :: b3 :: block) ((1 + t) * 4 + i) = cget block (t * 4 + i)) as Hg.
  { intros i Hi. replace ((1 + t) * 4 + i) with (t * 4 + i + 1 + 1 + 1 + 1) by lia. by rewrite !cget_S by lia. }
  by rewrite !Hg by lia.
Qed.

Lemma word_sequence_ref n W t :
  t = Zlen W -> foldl next_word W (seqZ t (Z.of_nat n)) = extend_words n W.
Proof.
  revert W t. induction n as [|n IH]; intros W t ->; [done|]. rewrite seqZ_cons by lia. cbn [foldl extend_words].
  replace (Z.pred (Z.of_nat (S n))) with (Z.of_nat n) by lia.
  unfold next_word at 2. unfold SHA1CircularShift. rewrite rol_ref by lia. apply IH. rewrite length_app. simpl. lia.
Qed.

Lemma be_words_length n block : length block = (4 * n)%nat -> length (be_words block) = n.
Proof.
  revert block. induction n as [|n IH]; intros block Hl; [by destruct block|].
  destruct block as [|b0 [|b1 [|b2 [|b3 block]]]]; simpl in Hl; try lia. cbn [be_words length]. f_equal. apply IH. lia.
Qed.

Lemma sha_rounds_ref f K W lo s :
  (forall t B C D, lo <= t < lo + 20 -> f B C D = ref_f t B C D /\ K = ref_K t) ->
  foldl (sha_round f K W) s (seqZ lo 20) = foldl (sha_ref_step W) s (seqZ lo 20).
Proof.
  intros H. assert (Forall (fun t => lo <= t < lo + 20) (seqZ lo 20)) as Hall.
  { apply List.Forall_forall. intros t Ht. apply list_elem_of_In, elem_of_seqZ in Ht. lia. }
  revert s. induction Hall as [|t ts Ht Hts IH]; intros s; [done|]. cbn [foldl]. rewrite IH. f_equal.
  destruct s as [[[[A B] C] D] E]. unfold sha_round, sha_ref_step, add32, SHA1CircularShift. rewrite !rol_ref by lia.
  destruct (H t B C D Ht) as [-> ->]. unfold u32. rewrite <- !Z.add_assoc.
  repeat (rewrite Z.add_mod_idemp_l by done; rewrite <- ?Z.add_assoc). done.
Qed.

Lemma process_ref H block : Zlen block = 64 -> bytes block -> process_hash H block = sha_ref_compress H block.
Proof.
  intros Hl Hb. unfold process_hash, sha_ref_compress, word_sequence.
  assert (block_word block <$> seqZ 0 16 = be_words block) as -> by (apply (first_words 16); done || lia).
  assert (foldl next_word (be_words block) (seqZ 16 64) = extend_words 64 (be_words block)) as ->.
  { apply (word_sequence_ref 64). rewrite (be_words_length 16) by lia. done. }
  generalize (extend_words 64 (be_words block)) as W. intros W.
  change (seqZ 0 80) with (seqZ 0 20 ++ seqZ 20 20 ++ seqZ 40 20 ++ seqZ 60 20). rewrite !foldl_app.
  assert (forall s, foldl (sha_round f_ch 0x5A827999 W) s (seqZ 0 20) = foldl (sha_ref_step W) s (seqZ 0 20)) as ->.
  { intros s. apply sha_rounds_ref. intros t B C D Ht. unfold ref_f, ref_K.
    by rewrite (proj2 (Z.ltb_lt t 20)) by lia. }
  assert (forall s, foldl (sha_round f_parity 0x6ED9EBA1 W) s (seqZ 20 20) = foldl (sha_ref_step W) s (seqZ 20 20)) as ->.
  { intros s. apply sha_rounds_ref. intros t B C D Ht. unfold ref_f, ref_K.
    by rewrite (proj2 (Z.ltb_ge t 20)), (proj2 (Z.ltb_lt t 40)) by lia. }
  assert (forall s, foldl (sha_round f_maj 0x8F1BBCDC W) s (seqZ 40 20) = foldl (sha_ref_step W) s (seqZ 40 20)) as ->.
  { intros s. apply sha_rounds_ref. intros t B C D Ht. unfold ref_f, ref_K.
    by rewrite (proj2 (Z.ltb_ge t 20)), (proj2 (Z.ltb_ge t 40)), (proj2 (Z.ltb_lt t 60)) by lia. }
  assert (forall s, foldl (sha_round f_parity 0xCA62C1D6 W) s (seqZ 60 20) = foldl (sha_ref_step W) s (seqZ 60 20)) as ->.
  { intros s. apply sha_rounds_ref. intros t B C D Ht. unfold ref_f, ref_K.
    by rewrite (proj2 (Z.ltb_ge t 20)), (proj2 (Z.ltb_ge t 40)), (proj2 (Z.ltb_ge t 60)) by lia. }
  done.
Qed.

(** ** Any way to cut the message *)

Record sha_state (c : SHA1Context) (m m1 r : list Z) : Prop := {
  ss_split : m = m1 ++ r;
  ss_full : (64 | Zlen m1);
  ss_rest : Zlen r < 64;
  ss_hash : Intermediate_Hash c = absorb process_hash sha1_iv m1;
  ss_block : length (Message_Block c) = 64%nat /\ take (length r) (Message_Block c) = r;
  ss_index : Message_Block_Index c = Zlen r;
  ss_length : Length_Low c = u32 (8 * Zlen m) /\ Length_High c = u32 (8 * Zlen m / 2^32);
  ss_flags : Computed c = false /\ Corrupted c = 0;
  ss_bytes : bytes m }.

(** The fields other than the block are kept. *)
Definition same_but_block (c c' : SHA1Context) : Prop :=
  Intermediate_Hash c' = Intermediate_Hash c /\ Length_Low c' = Length_Low c /\ Length_High c' = Length_High c /\
  Computed c' = Computed c /\ Corrupted c' = Corrupted c.

Lemma put_byte_spec c x (i : nat) :
  length (Message_Block c) = 64%nat -> Message_Block_Index c = Z.of_nat i -> (i < 64)%nat ->
  exists c', put_byte c x = Ok c' /\ same_but_block c c' /\ length (Message_Block c') = 64%nat /\
    Message_Block_Index c' = Z.of_nat (S i) /\ take (S i) (Message_Block c') = take i (Message_Block c) ++ [x].
Proof.
  intros Hl Hi Hlt. unfold put_byte. rewrite Hi, wr_ok, bind_Ok by lia. eexists. split; [done|]. cbn.
  rewrite length_insert, Nat2Z.id, take_snoc_insert by lia. split_and!; try done. lia.
Qed.

Lemma fill_to_spec fuel c (i n : nat) :
  length (Message_Block c) = 64%nat -> Message_Block_Index c = Z.of_nat i -> (i <= n <= 64)%nat -> (n - i <= fuel)%nat ->
  exists c', fill_to fuel c (Z.of_nat n) = Ok c' /\ same_but_block c c' /\ length (Message_Block c') = 64%nat /\
    Message_Block_Index c' = Z.of_nat n /\
    take n (Message_Block c') = take i (Message_Block c) ++ replicate (n - i) 0.
Proof.
  revert c i. induction fuel as [|fuel IH]; intros c i Hl Hi Hn Hf; cbn [fill_to]; rewrite Hi.
  - rewrite (proj2 (Z.ltb_ge _ _)) by lia. exists c. replace n with i by lia. rewrite Nat.sub_diag, app_nil_r. by split_and!.
  - destruct (Z.ltb_spec (Z.of_nat i) (Z.of_nat n)).
    + destruct (put_byte_spec c 0 i Hl Hi) as (c1 & -> & S1 & Hl1 & Hi1 & Ht1); [lia|]. rewrite bind_Ok.
      destruct (IH c1 (S i) Hl1 Hi1) as (c2 & -> & S2 & Hl2 & Hi2 & Ht2); [lia|lia|].
      exists c2. split_and!; try done.
      * destruct S1 as (? & ? & ? & ? & ?), S2 as (? & ? & ? & ? & ?). split_and!; congruence.
      * rewrite Ht2, Ht1, <- app_assoc. f_equal. by replace (n - i)%nat with (S (n - S i)) by lia.
    + exists c. replace n with i by lia. rewrite Nat.sub_diag, app_nil_r. by split_and!.
Qed.

Lemma count_length n :
  0 <= n -> 8 * (n + 1) < 2^64 ->
  u32 (u32 (8 * n) + 8) = u32 (8 * (n + 1)) /\
  (if u32 (8 * (n + 1)) =? 0 then u32 (u32 (8 * n / 2^32) + 1) else u32 (8 * n / 2^32)) = u32 (8 * (n + 1) / 2^32) /\
  (u32 (8 * (n + 1)) =? 0) && (u32 (8 * (n + 1) / 2^32) =? 0) = false.
Proof.
  intros Hn Hlt. unfold u32. change (2^32) with 4294967296. change (2^64) with 18446744073709551616 in Hlt.
  split_and!.
  - rewrite Z.add_mod_idemp_l by lia. f_equal. lia.
  - destruct (Z.eqb_spec ((8 * (n + 1)) mod 4294967296) 0).
    + rewrite Z.add_mod_idemp_l by lia. f_equal. dlia.
    + f_equal. dlia.
  - destruct (Z.eqb_spec ((8 * (n + 1)) mod 4294967296) 0); [|done]. apply Z.eqb_neq.
    assert (8 * (n + 1) / 4294967296 < 4294967296) by (apply Z.div_lt_upper_bound; lia).
    assert (0 <= 8 * (n + 1) / 4294967296) by (apply Z.div_pos; lia).
    rewrite Z.mod_small by lia. dlia.
Qed.

Lemma land_byte x : byte x -> Z.land x 255 = x.
Proof. intros Hx. change 255 with (Z.ones 8). rewrite Z.land_ones by lia. by apply Z.mod_small. Qed.

Lemma input_loop_spec c m m1 r data :
  sha_state c m m1 r -> bytes data -> 8 * Zlen (m ++ data) < 2^64 ->
  exists c' m1' r', input_loop c data = Ok c' /\ sha_state c' (m ++ data) m1' r'.
Proof.
  intros Hst Hd. revert c m m1 r Hst. induction Hd as [|x data Hx Hd IH]; intros c m m1 r Hst Hlen.
  { exists c, m1, r. by rewrite app_nil_r. }
  destruct Hst as [Hm Hdiv Hr Hh [Hl Htk] Hi [Hlo Hhi] [Hcomp Hcor] Hb]. cbn [input_loop]. rewrite Hcor. cbn [negb Z.eqb].
  rewrite land_byte by done.
  destruct (put_byte_spec c x (length r) Hl Hi) as (c1 & -> & (S1 & S2 & S3 & S4 & S5) & Hl1 & Hi1 & Ht1); [lia|].
  rewrite bind_Ok. rewrite Htk in Ht1.
  rewrite length_app in Hlen. cbn [length] in Hlen.
  destruct (count_length (Zlen m)) as (L1 & L2 & L3); [lia|lia|].
  assert (Zlen (m ++ [x]) = Zlen m + 1) as Hm1 by (rewrite length_app; simpl; lia).
  set (c2 := count_byte c1).
  assert (Length_Low c2 = u32 (8 * Zlen (m ++ [x])) /\ Length_High c2 = u32 (8 * Zlen (m ++ [x]) / 2^32) /\
    Corrupted c2 = 0) as (Hlo2 & Hhi2 & Hcor2).
  { unfold c2, count_byte. cbn. rewrite S2, S3, Hlo, Hhi, L1, L2, L3, S5, Hm1. done. }
  replace (m ++ x :: data) with ((m ++ [x]) ++ data) by (by rewrite <- app_assoc).
  assert (bytes (m ++ [x])) as Hbx by (apply Forall_app_2; [done|by apply Forall_cons_2]).
  assert (Message_Block_Index c2 = Z.of_nat (S (length r))) as Hi2 by exact Hi1. cbv zeta. fold c2. rewrite Hi2.
  assert (8 * Zlen ((m ++ [x]) ++ data) < 2^64) as Hlen' by (rewrite length_app, Nat2Z.inj_add; lia).
  destruct (Z.eqb_spec (Z.of_nat (S (length r))) 64) as [E|E].
  - apply (IH _ _ (m1 ++ r ++ [x]) []); [|done]. rewrite take_ge in Ht1 by lia.
    split; cbn; try done.
    + by rewrite app_nil_r, Hm, <- app_assoc.
    + rewrite !length_app. cbn. destruct Hdiv as [q Hq]. exists (q + 1). lia.
    + unfold c2, count_byte. cbn. rewrite Ht1, S1, Hh, absorb_app by done. symmetry. apply absorb_one.
      rewrite length_app. simpl. lia.
    + split; [cbn; by rewrite S4|exact Hcor2].
  - apply (IH _ _ m1 (r ++ [x])); [|done]. split; try done.
    + by rewrite Hm, <- app_assoc.
    + rewrite length_app. simpl. lia.
    + unfold c2, count_byte. cbn. by rewrite S1.
    + split; [done|]. unfold c2, count_byte. cbn. rewrite <- Ht1 at 2. f_equal. rewrite length_app. simpl. lia.
    + unfold c2, count_byte. cbn. rewrite Hi1, length_app. simpl. lia.
    + split; [|done]. unfold c2, count_byte. cbn. by rewrite S4.
Qed.

(** ** The end of the message *)

Lemma pad_split (m m1 r : list Z) :
  m = m1 ++ r -> (64 | Zlen m1) -> Zlen r < 64 ->
  pad_zeros (Zlen m) = if Zlen r >? 55 then (63 - Zlen r) + 56 else 55 - Zlen r.
Proof.
  intros -> [q Hq] Hr. unfold pad_zeros. rewrite length_app, Nat2Z.inj_add, Hq, Z.gtb_ltb.
  destruct (Z.ltb_spec 55 (Zlen r)); symmetry.
  - apply Z.mod_unique with (- q - 1); lia.
  - apply Z.mod_unique with (- q); lia.
Qed.

Lemma SHA1PadMessage_spec c m m1 r :
  sha_state c m m1 r ->
  exists c', SHA1PadMessage c = Ok c' /\ Computed c' = false /\ Corrupted c' = 0 /\
    Intermediate_Hash c' = absorb process_hash sha1_iv (padded m (length_be (8 * Zlen m))).
Proof.
  intros [Hm Hdiv Hr Hh [Hl Htk] Hi [Hlo Hhi] [Hcomp Hcor] Hb]. unfold SHA1PadMessage. rewrite Hi.
  destruct (put_byte_spec c 128 (length r) Hl Hi) as (c1 & -> & (P1 & P2 & P3 & P4 & P5) & Hl1 & Hi1 & Ht1); [lia|].
  rewrite Htk in Ht1.
  set (tail := length_be (8 * Zlen m)). assert (Zlen tail = 8) as Htl by done.
  (* the last block, once its first 56 bytes are in place *)
  assert (forall c2 b56, length (Message_Block c2) = 64%nat -> take 56 (Message_Block c2) = b56 ->
    Length_High c2 = Length_High c -> Length_Low c2 = Length_Low c -> Computed c2 = false -> Corrupted c2 = 0 ->
    exists c', (b ← blit (Message_Block c2) 56 (be_bytes (Length_High c2) ++ be_bytes (Length_Low c2));
      Ok (SHA1ProcessMessageBlock (MkSHA1 (Intermediate_Hash c2) (Length_Low c2) (Length_High c2)
        (Message_Block_Index c2) b (Computed c2) (Corrupted c2)))) = Ok c' /\ Computed c' = false /\ Corrupted c' = 0 /\
      Intermediate_Hash c' = process_hash (Intermediate_Hash c2) (b56 ++ tail)) as Hlast.
  { intros c2 b56 H1 H2 H3 H4 H5 H6. rewrite H3, H4, Hlo, Hhi, !be_ref. fold (length_be (8 * Zlen m)). fold tail.
    destruct (blit_ok (Message_Block c2) 56 tail) as (b & -> & Hb' & Ht'); [lia|lia|]. rewrite bind_Ok.
    eexists. split; [done|]. cbn. split_and!; [done|done|]. rewrite Htl in Ht'.
    rewrite take_ge in Ht' by (simpl; lia). change (Z.to_nat 56) with 56%nat in Ht'. by rewrite Ht', H2. }
  assert (absorb process_hash sha1_iv (padded m tail) = absorb process_hash (Intermediate_Hash c)
    (r ++ [128] ++ replicate (Z.to_nat (if Zlen r >? 55 then (63 - Zlen r) + 56 else 55 - Zlen r)) 0 ++ tail)) as ->.
  { unfold padded. rewrite (pad_split m m1 r) by done. rewrite Hm, <- app_assoc, absorb_app by done. by rewrite Hh. }
  rewrite Z.gtb_ltb. destruct (Z.ltb_spec 55 (Zlen r)).
  - rewrite bind_Ok. destruct (fill_to_spec 64 c1 (S (length r)) 64 Hl1 Hi1) as
      (c2 & E2 & (Q1 & Q2 & Q3 & Q4 & Q5) & Hl2 & Hi2 & Ht2); [lia|lia|].
    change (Z.of_nat 64) with 64 in E2. rewrite E2, bind_Ok.
    destruct (fill_to_spec 64 (SHA1ProcessMessageBlock c2) 0 56) as
      (c3 & E3 & (R1 & R2 & R3 & R4 & R5) & Hl3 & Hi3 & Ht3); [done|done|lia|lia|].
    change (Z.of_nat 56) with 56 in E3. rewrite E3, bind_Ok. cbn [app take] in Ht3.
    change (Length_High (SHA1ProcessMessageBlock c2)) with (Length_High c2) in R3.
    change (Length_Low (SHA1ProcessMessageBlock c2)) with (Length_Low c2) in R2.
    change (Computed (SHA1ProcessMessageBlock c2)) with (Computed c2) in R4.
    change (Corrupted (SHA1ProcessMessageBlock c2)) with (Corrupted c2) in R5.
    destruct (Hlast c3 (replicate 56 0) Hl3 Ht3) as (c' & -> & F1 & F2 & F3); [congruence..|].
    exists c'. split_and!; [done|done|done|]. rewrite F3, R1. cbn [SHA1ProcessMessageBlock Intermediate_Hash].
    rewrite take_ge, Ht1 in Ht2 by lia. rewrite Ht2, Q1, P1.
    rewrite Z2Nat.inj_add, replicate_add, <- !app_assoc by lia.
    replace (r ++ [128] ++ replicate (Z.to_nat (63 - Zlen r)) 0 ++ replicate (Z.to_nat 56) 0 ++ tail)
      with ((r ++ [128] ++ replicate (64 - S (length r)) 0) ++ replicate 56 0 ++ tail).
    + rewrite absorb_block, absorb_one; [done|done|]. rewrite !length_app, length_replicate. simpl. lia.
    + rewrite <- !app_assoc. do 3 f_equal. f_equal. lia.
  - rewrite bind_Ok. destruct (fill_to_spec 64 c1 (S (length r)) 56 Hl1 Hi1) as
      (c2 & E2 & (Q1 & Q2 & Q3 & Q4 & Q5) & Hl2 & Hi2 & Ht2); [lia|lia|].
    change (Z.of_nat 56) with 56 in E2. rewrite E2, bind_Ok. rewrite Ht1 in Ht2.
    destruct (Hlast c2 _ Hl2 Ht2) as (c' & -> & F1 & F2 & F3); try congruence.
    exists c'. split_and!; [done|done|done|]. rewrite F3, Q1, P1.
    replace (56 - S (length r))%nat with (Z.to_nat (55 - Zlen r)) by lia. rewrite <- !app_assoc.
    rewrite absorb_one; [done|]. rewrite !length_app, length_replicate. simpl. lia.
Qed.

Lemma absorb_length n H m : length H = 5%nat -> length (foldl process_hash H (blocks n m)) = 5%nat.
Proof.
  revert H m. induction n as [|n IH]; intros H m HH; [done|]. cbn [blocks foldl]. apply IH. unfold process_hash.
  by destruct (foldl _ _ _) as [[[[A B] C] D] E].
Qed.

Lemma digest_spec H : length H = 5%nat -> digest_byte H <$> seqZ 0 SHA1HashSize = concat (ref_be <$> H).
Proof.
  rewrite <- (list_fmap_ext _ _ H (fun _ w _ => be_ref w)).
  intros HH. destruct H as [|a [|b [|c [|d [|e [|]]]]]]; try done.
Qed.

Lemma bytes_padded m n : bytes m -> bytes (padded m (length_be n)).
Proof.
  intros Hm. assert (forall x, byte (x mod 2^8)) as H8 by (intros x; apply Z.mod_pos_bound; done).
  unfold padded. apply Forall_app_2; [done|]. apply Forall_app_2; [by repeat constructor|].
  apply Forall_app_2; [by apply Forall_replicate|]. unfold length_be, ref_be. cbn [app]. repeat constructor; apply H8.
Qed.

Lemma SHA1Result_spec c m m1 r uninit :
  sha_state c m m1 r -> exists c', SHA1Result c uninit = Ok (shaSuccess, sha1 m, c') /\ Computed c' = true.
Proof.
  intros Hst. destruct (SHA1PadMessage_spec c m m1 r Hst) as (c' & Hpad & _ & _ & Hh).
  destruct Hst as [_ _ _ _ _ _ _ [Hcomp Hcor] Hb]. unfold SHA1Result. rewrite Hcor, Hcomp. cbn [negb Z.eqb].
  rewrite Hpad, !bind_Ok. cbn [Intermediate_Hash]. rewrite Hh.
  rewrite digest_spec by (by apply absorb_length).
  rewrite (absorb_ext process_hash sha_ref_compress) by (by apply process_ref || by apply bytes_padded).
  by eexists.
Qed.

(** ** Whole messages *)

Lemma SHA1Reset_state i : length i = 64%nat -> sha_state (SHA1Reset i) [] [] [].
Proof. intros Hi. split; done || by exists 0. Qed.

Lemma input_spec c m m1 r d :
  sha_state c m m1 r -> bytes d -> 8 * Zlen (m ++ d) < 2^64 -> Zlen d < 2^32 ->
  exists c' m1' r', input c d (Zlen d) = Ok c' /\ sha_state c' (m ++ d) m1' r'.
Proof.
  intros Hst Hd Hl Hn. unfold input, SHA1Input. rewrite u32_small, Nat2Z.id, take_ge by lia. destruct (Z.eqb_spec (Zlen d) 0) as [E|E].
  - destruct d; [|simpl in E; lia]. exists c, m1, r. by rewrite app_nil_r.
  - destruct (ss_flags _ _ _ _ Hst) as [Hc1 Hc2]. rewrite Hc1, Hc2. cbn [negb Z.eqb].
    destruct (input_loop_spec _ _ _ _ d Hst Hd Hl) as (c' & m1' & r' & -> & Hst'). rewrite !bind_Ok. by eauto.
Qed.

Lemma input_all_spec c m m1 r chunks :
  sha_state c m m1 r -> Forall (fun d => bytes d /\ Zlen d < 2^32) chunks ->
  8 * Zlen (m ++ concat chunks) < 2^64 ->
  exists c' m1' r', input_all c chunks = Ok c' /\ sha_state c' (m ++ concat chunks) m1' r'.
Proof.
  intros Hst Hc. revert c m m1 r Hst. induction Hc as [|d chunks [Hd Hn] Hc IH]; intros c m m1 r Hst Hl; cbn [input_all concat] in *.
  - exists c, m1, r. by rewrite app_nil_r.
  - rewrite app_assoc in Hl |- *.
    destruct (input_spec _ _ _ _ d Hst Hd) as (c1 & m1' & r' & -> & Hst'); [|done|].
    { rewrite length_app, Nat2Z.inj_add in Hl. lia. }
    rewrite bind_Ok. by apply (IH _ _ m1' r').
Qed.

Lemma sha1_finish_spec uninit c m m1 r :
  sha_state c m m1 r -> exists c', sha1_finish uninit c = Ok (DigestToBase16 (sha1 m), c').
Proof.
  intros Hst. unfold sha1_finish. destruct (SHA1Result_spec _ _ _ _ uninit Hst) as (c' & -> & _). rewrite bind_Ok. by exists c'.
Qed.

Definition incr1_state (s : incr1) (m : list Z) : Prop :=
  length (Message_Block (incrCtx1 s)) = 64%nat /\
  (if incrInit1 s then exists m1 r, sha_state (incrCtx1 s) m m1 r else m = []).

Fixpoint step_blobs1 (s : incr1) (texts : list (list Z)) : result incr1 :=
  match texts with [] => Ok s | t :: texts => s ← sha1sum_step_blob s t; step_blobs1 s texts end.

Lemma started1 s m :
  incr1_state s m ->
  exists m1 r, sha_state (incrCtx1 (if incrInit1 s then s else Incr1 true (SHA1Reset (Message_Block (incrCtx1 s))))) m m1 r.
Proof.
  intros [Hi Hs]. destruct (incrInit1 s); [done|]. subst m. exists [], []. by apply SHA1Reset_state.
Qed.

Lemma step_blobs1_spec s m texts :
  incr1_state s m -> Forall (fun t => bytes t /\ Zlen t < 2^31) texts -> 8 * Zlen (m ++ concat texts) < 2^64 ->
  exists s', step_blobs1 s texts = Ok s' /\ incr1_state s' (m ++ concat texts).
Proof.
  intros Hs Ht. revert s m Hs. induction Ht as [|t texts [Hb Hn] Ht IH]; intros s m Hs Hl; cbn [step_blobs1 concat] in *.
  { exists s. by rewrite app_nil_r. }
  rewrite app_assoc in Hl |- *. destruct (started1 s m Hs) as (m1 & r & Hst).
  unfold sha1sum_step_blob, sha1sum_step_text. rewrite to_int_small by lia. set (s1 := if incrInit1 s then s else _) in *.
  assert (incrInit1 s1 = true) as E1 by (unfold s1; by destruct (incrInit1 s) eqn:E).
  destruct (Z.eqb_spec (Zlen t) 0) as [E|E].
  - destruct t; [|simpl in E; lia]. rewrite bind_Ok. apply IH; [|done]. rewrite app_nil_r. split; [apply Hst|].
    rewrite E1. by exists m1, r.
  - rewrite (proj2 (Z.ltb_ge _ _)) by lia.
    destruct (input_spec _ _ _ _ t Hst Hb) as (c & m1' & r' & -> & Hst'); [|lia|].
    { rewrite length_app, Nat2Z.inj_add in Hl. lia. }
    rewrite !bind_Ok. apply IH; [|done]. split; [apply Hst'|]. by exists m1', r'.
Qed.

Lemma sha1_bytes m : bytes (sha1 m).
Proof.
  unfold sha1. generalize (absorb sha_ref_compress sha1_iv (padded m (length_be (8 * Zlen m)))). intros l.
  induction l as [|w l IH]; [constructor|]. rewrite fmap_cons, concat_cons. apply Forall_app_2; [|done].
  repeat constructor; apply Z.mod_pos_bound; lia.
Qed.

(** C38. However a message of less than 2^61 bytes is cut into pieces of at most
    [INT_MAX] bytes, the sum of a file read in these pieces and of an incremental
    computation over them (after any earlier use of the static context) is the
    hexadecimal SHA-1 of the message, as FIPS 180-1 defines it by padding the
    whole message; so is the sum of a blob and of a string that hold the message,
    when it has less than 2^32 bytes.  No operation leaves the message block. *)
Theorem sha1sum_spec (uninit junk : list Z) (s : incr1) (chunks : list (list Z)) :
  length junk = 64%nat -> length (Message_Block (incrCtx1 s)) = 64%nat ->
  Forall (fun d => bytes d /\ Zlen d <= INT_MAX) chunks -> 8 * Zlen (concat chunks) < 2^64 ->
  let msg := concat chunks in
  let sum := ref_hex (sha1 msg) in
  sha1sum_file uninit junk chunks = Ok sum /\
  (exists s', (s ← step_blobs1 (Incr1 false (incrCtx1 s)) chunks; sha1sum_finish uninit s) = Ok (s', sum) /\
    incrInit1 s' = false) /\
  (Zlen msg < 2^32 -> sha1sum_blob uninit junk msg = Ok sum /\
    (Forall (fun c => c <> 0) msg -> sha1sum uninit junk (msg ++ [0]) = Ok sum)).
Proof.
  intros Hj Hs Hi Hl msg sum. unfold sum. rewrite <- hex_ref by apply sha1_bytes. clear sum.
  assert (Forall (fun d => bytes d /\ Zlen d < 2^31) chunks) as Hb
    by (eapply Forall_impl; [|exact Hi]; change INT_MAX with (2^31 - 1); intros d [? ?]; split; [done|lia]).
  assert (bytes msg) as Hm by (apply Forall_concat; eapply Forall_impl; [|exact Hb]; by intros d []).
  pose proof (SHA1Reset_state junk Hj) as H0. split_and!.
  - unfold sha1sum_file. destruct (input_all_spec _ _ _ _ chunks H0) as (c & m1 & r & -> & Hst); [|done|].
    { eapply Forall_impl; [|exact Hb]. intros d [? ?]. split; [done|lia]. }
    rewrite bind_Ok. destruct (sha1_finish_spec uninit _ _ _ _ Hst) as (c' & ->). by rewrite bind_Ok.
  - destruct (step_blobs1_spec (Incr1 false (incrCtx1 s)) [] chunks) as (s1 & -> & Hs1); [by split|done|done|].
    rewrite bind_Ok. destruct (started1 s1 _ Hs1) as (m1 & r & Hst). unfold sha1sum_finish, sha1sum_step_text.
    cbn [Z.eqb]. rewrite bind_Ok. destruct (sha1_finish_spec uninit _ _ _ _ Hst) as (c & ->). rewrite bind_Ok. by eexists.
  - intros Hn. destruct (input_spec _ _ _ _ msg H0 Hm Hl Hn) as (c & m1 & r & Hin & Hst).
    destruct (sha1_finish_spec uninit _ _ _ _ Hst) as (c' & Hfin). split.
    + unfold sha1sum_blob. by rewrite Hin, bind_Ok, Hfin, bind_Ok.
    + intros Hnul. unfold sha1sum. assert (c_string (msg ++ [0]) = msg) as ->.
      { clear -Hnul. induction Hnul as [|c l Hc _ IH]; [done|]. simpl. by rewrite (proj2 (Z.eqb_neq c 0)), IH. }
      assert (input (SHA1Reset junk) (msg ++ [0]) (Zlen msg) = input (SHA1Reset junk) msg (Zlen msg)) as ->.
      { unfold input, SHA1Input. by rewrite u32_small, Nat2Z.id, take_app_length, take_ge by lia. }
      by rewrite Hin, bind_Ok, Hfin, bind_Ok.
Qed.

Lemma sha1sum_spec_witness :
  sha1sum_file [] junk64 [cstr "ab"%string; cstr "c"%string] = Ok (ref_hex (sha1 (cstr "abc"%string))) /\
  ref_hex (sha1 (cstr "abc"%string)) = cstr "a9993e364706816aba3e25717850c26c9cd0d89d"%string.
Proof.
  split; [|vm_compute; reflexivity].
  destruct (sha1sum_spec [] junk64 (Incr1 false (SHA1Reset junk64)) [cstr "ab"%string; cstr "c"%string])
    as (H & _ & _); [reflexivity|reflexivity| |reflexivity|exact H].
  repeat constructor; discriminate.
Defined.

(** The shared secret of a user is the hash of project code, login and password
    with slashes between them; without a project code it is the password. *)
Lemma shared_secret_spec uninit junk id db zPw zLogin :
  length junk = 64%nat ->
  (forall z, match id with None => db | Some z => Some z end = Some z ->
    let msg := z ++ [47] ++ zLogin ++ [47] ++ zPw in
    bytes msg -> Zlen msg < 2^32 ->
    sha1_shared_secret uninit junk id db zPw zLogin = Ok (Some z, DigestToBase16 (sha1 msg))) /\
  (id = None -> db = None -> sha1_shared_secret uninit junk id db zPw zLogin = Ok (None, zPw)).
Proof.
  intros Hj. unfold sha1_shared_secret. split; [|by intros -> ->].
  intros z Hid. cbv zeta. intros Hb Hl. rewrite Hid. pose proof (SHA1Reset_state junk Hj) as H0.
  destruct (input_all_spec _ _ _ _ [z; cstr "/"%string; zLogin; cstr "/"%string; zPw] H0) as (c & m1 & r & -> & Hst).
  - rewrite !Forall_app in Hb. rewrite !length_app in Hl. simpl in Hl.
    repeat constructor; try (tauto || done); simpl; lia.
  - cbn [concat]. rewrite app_nil_r. rewrite !length_app in *. cbn [length] in Hl. change (length (cstr "/"%string)) with 1%nat. cbn [length]. lia.
  - rewrite bind_Ok. destruct (sha1_finish_spec uninit _ _ _ _ Hst) as (c' & ->). rewrite bind_Ok.
    simpl. by rewrite app_nil_r.
Qed.
