(* ===== verification/DiffOut.v ===== *)
(** * Unified diffs and annotation

    The output side of [src/src/ssfossil/fossil/src/diff.c]: [contextDiff], the
    part of [text_diff] that writes to a blob, and the annotator.  The output is
    a list of items, one per call that appends to the blob, turned into bytes by
    [render].  Lines of the two files and elements of the script are read through
    [rd]. *)

From S2P Require Import Prelude Encode Diff.

(** What is appended to the output: a header "@@ -a,na +b,nb @@", or a prefix
    character and a line. *)
Inductive ditem : Set :=
| Header (a na b nb : Z)
| DiffLine (zPrefix : Z) (line : list Z).

Definition SP : Z := 32.
Definition MINUS : Z := 45.
Definition PLUS : Z := 43.

Definition appendDiffLine (zPrefix : Z) (pLine : DLine) : ditem :=
  DiffLine zPrefix (take (Z.to_nat (Z.land (dh pLine) LENGTH_MASK)) (dz pLine)).

(** [for(j=0; j<m; j++) appendDiffLine(pOut, zPrefix, &X[a+j])] *)
Fixpoint show_lines (m : nat) (zPrefix : Z) (X : list DLine) (a : Z) : result (list ditem) :=
  match m with
  | O => Ok []
  | S m => x ← rd X a; l ← show_lines m zPrefix X (a + 1); Ok (appendDiffLine zPrefix x :: l)
  end.

Section Context.
(** The two files, the script and the number of lines of context. *)
Context (A B : list DLine) (R : list Z) (nContext : Z).

(** [while( mxr>2 && R[mxr-1]==0 && R[mxr-2]==0 ){ mxr -= 3; }] *)
Fixpoint trim_script (fuel : nat) (mxr : Z) : result Z :=
  if mxr >? 2 then
    x ← rd R (mxr - 1);
    y ← rd R (mxr - 2);
    if (x =? 0) && (y =? 0) then
      match fuel with O => Fault OutOfFuel | S fuel => trim_script fuel (mxr - 3) end
    else Ok mxr
  else Ok mxr.

(** [for(nr=1; R[r+nr*3]>0 && R[r+nr*3]<nContext*2; nr++){}] *)
Fixpoint block_size (fuel : nat) (r nr : Z) : result Z :=
  x ← rd R (r + nr * 3);
  more ← (if x >? 0 then n ← i32 (nContext * 2); Ok (x <? n) else Ok false);
  if (more : bool) then
    match fuel with O => Fault OutOfFuel | S fuel => block_size fuel r (nr + 1) end
  else Ok nr.

(** The sum of [R[r + i*3 + k]] for [i] from [i] on, [n] terms. *)
Fixpoint sum_field (n : nat) (k r i : Z) : result Z :=
  match n with
  | O => Ok 0
  | S n => x ← rd R (r + i * 3 + k); s ← sum_field n k r (i + 1); Ok (x + s)
  end.

(** The changes of a block with [n] triples to go, of which the first is at [r]:
    the output and the places after it. *)
Fixpoint show_changes (n : nat) (r a b : Z) : result (list ditem * Z * Z) :=
  match n with
  | O => Ok ([], a, b)
  | S n' =>
      m ← rd R (r + 1);
      dels ← show_lines (Z.to_nat m) MINUS A a;
      let a := a + m in
      m ← rd R (r + 2);
      inss ← show_lines (Z.to_nat m) PLUS B b;
      let b := b + m in
      '(mid, a, b) ← (match n' with
                      | O => Ok ([], a, b)
                      | S _ =>
                          m ← rd R (r + 3);
                          l ← show_lines (Z.to_nat m) SP B b;
                          Ok (l, a + m, b + m)
                      end);
      '(rest, a, b) ← show_changes n' (r + 3) a b;
      Ok (dels ++ inss ++ mid ++ rest, a, b)
  end.

(** The body of the loop over blocks: the output of the block at [r], the number
    of its triples and the places after it. *)
Definition show_block (r a b : Z) : result (list ditem * Z * Z * Z) :=
  nr ← block_size (length R) r 1;
  c ← rd R r;
  let '(n0, skip) := if c >? nContext then (nContext, c - nContext) else (c, 0) in
  sa ← sum_field (Z.to_nat nr) 1 r 0;
  sb ← sum_field (Z.to_nat nr) 2 r 0;
  last ← rd R (r + nr * 3);
  let n1 := if last >? nContext then nContext else last in
  sc ← sum_field (Z.to_nat (nr - 1)) 0 r 1;
  let na := n0 + sa + n1 + sc in
  let nb := n0 + sb + n1 + sc in
  let head := Header (a + skip + 1) na (b + skip + 1) nb in
  let a := a + skip in
  let b := b + skip in
  let m := c - skip in
  l0 ← show_lines (Z.to_nat m) SP A a;
  let a := a + m in
  let b := b + m in
  '(l1, a, b) ← show_changes (Z.to_nat nr) r a b;
  l2 ← show_lines (Z.to_nat n1) SP B b;
  Ok (head :: l0 ++ l1 ++ l2, nr, a, b).

Fixpoint context_loop (fuel : nat) (mxr r a b : Z) : result (list ditem) :=
  if r <? mxr then
    match fuel with
    | O => Fault OutOfFuel
    | S fuel =>
        '(l, nr, a, b) ← show_block r a b;
        rest ← context_loop fuel mxr (r + 3 * nr) a b;
        Ok (l ++ rest)
    end
  else Ok [].

Definition contextDiff : result (list ditem) :=
  mxr ← trim_script (length R) (Zlen R);
  context_loop (length R) mxr 0 0 0.
End Context.

(** [text_diff] with an output blob; [None] stands for the text "cannot compute
    difference between binary files". *)
Definition text_diff_out (realloc_ok : Z -> bool) (slack : list DLine) (zA zB : list Z) (nContext : Z)
    (ignoreEolWs : bool) : result (option (list ditem)) :=
  a ← break_into_lines zA ignoreEolWs;
  b ← break_into_lines zB ignoreEolWs;
  match a, b with
  | Some aFrom, Some aTo =>
      p ← diff_all realloc_ok (aFrom ++ slack) aTo (Zlen aFrom) (MkDContext None 0);
      l ← contextDiff aFrom aTo (edits p) nContext;
      Ok (Some l)
  | _, _ => Ok None
  end.

(** "%d" of [blob_appendf]. *)
Fixpoint digits (fuel : nat) (n : Z) : list Z :=
  match fuel with
  | O => []
  | S fuel => (if n <? 10 then [] else digits fuel (n / 10)) ++ [48 + n mod 10]
  end.
Definition dec (n : Z) : list Z := if n <? 0 then 45 :: digits 20 (- n) else digits 20 n.

Definition render_item (x : ditem) : list Z :=
  match x with
  | Header a na b nb =>
      cstr "@@ -"%string ++ dec a ++ cstr ","%string ++ dec na ++ cstr " +"%string ++ dec b ++ cstr ","%string ++
      dec nb ++ cstr " @@"%string ++ [10]
  | DiffLine p l => p :: l ++ [10]
  end.
(** The bytes in the blob. *)
Definition render (l : option (list ditem)) : list Z :=
  match l with
  | None => cstr "cannot compute difference between binary files"%string ++ [10]
  | Some l => concat (render_item <$> l)
  end.

Example render_example :
  (l ← text_diff_out (fun _ => true) [MkDLine [] 0 0 0] (cstr "a"%string ++ [10] ++ cstr "b"%string ++ [10])
     (cstr "a"%string ++ [10] ++ cstr "c"%string ++ [10]) 3 false; Ok (render l)) =
  Ok (cstr "@@ -1,2 +1,2 @@"%string ++ [10] ++ cstr " a"%string ++ [10] ++ cstr "-b"%string ++ [10] ++
      cstr "+c"%string ++ [10]).
Proof. vm_compute. reflexivity. Qed.

(** ** Annotation *)

(** A line of the annotated file: text, length and origin. *)
Record aline := ALine { al_z : list Z; al_n : Z; zSrc : option (list Z) }.
Record Annotator := MkAnnotator { an_aTo : list DLine; aOrig : list aline }.

Definition annotation_start (pInput : list Z) : result (option Annotator) :=
  a ← break_into_lines pInput true;
  match a with
  | None => Ok None
  | Some aTo => Ok (Some (MkAnnotator aTo ((fun d => ALine (dz d) (Z.land (dh d) LENGTH_MASK) None) <$> aTo)))
  end.

(** [for(j=0; j<m; j++, lnTo++) p->aOrig[lnTo].zSrc = zPName] *)
Fixpoint label_lines (m : nat) (o : list aline) (lnTo : Z) (zPName : list Z) : result (list aline) :=
  match m with
  | O => Ok o
  | S m =>
      x ← rd o lnTo;
      o ← wr o lnTo (ALine (al_z x) (al_n x) (Some zPName));
      label_lines m o (lnTo + 1) zPName
  end.

Fixpoint label_loop (fuel : nat) (e : list Z) (i lnTo : Z) (o : list aline) (zPName : list Z) : result (list aline) :=
  if i <? Zlen e then
    match fuel with
    | O => Fault OutOfFuel
    | S fuel =>
        c ← rd e i;
        o ← label_lines (Z.to_nat c) o lnTo zPName;
        n ← rd e (i + 2);
        label_loop fuel e (i + 3) (lnTo + c + n) o zPName
    end
  else Ok o.

(** [None] is the return value 1, for a parent that is not a text. *)
Definition annotation_step (realloc_ok : Z -> bool) (slack : list DLine) (p : Annotator) (pParent zPName : list Z) :
    result (option Annotator) :=
  a ← break_into_lines pParent true;
  match a with
  | None => Ok None
  | Some aFrom =>
      c ← diff_all realloc_ok (aFrom ++ slack) (an_aTo p) (Zlen aFrom) (MkDContext None 0);
      o ← label_loop (length (edits c)) (edits c) 0 0 (aOrig p) zPName;
      Ok (Some (MkAnnotator (an_aTo p) o))
  end.
