(* ===== verification/DiffOutSpec.v ===== *)
(** * Unified diffs: the output is a patch

    [patches a b items A B] reads the output as a patch: the hunks are in order,
    each header gives the position and the numbers of lines of its hunk in both
    files, the context and deleted lines are those of the first file, and the
    context and inserted lines make the second file; between hunks the files
    agree. *)

From S2P Require Import Prelude Encode Diff DiffSpec DiffScript DiffOut.

Definition is_line (x : ditem) : Prop := match x with DiffLine _ _ => True | Header _ _ _ _ => False end.
(** The lines of a hunk that belong to the first and to the second file. *)
Definition old_side (l : list ditem) : list (list Z) :=
  omap (fun x => match x with DiffLine p t => if p =? PLUS then None else Some t | _ => None end) l.
Definition new_side (l : list ditem) : list (list Z) :=
  omap (fun x => match x with DiffLine p t => if p =? MINUS then None else Some t | _ => None end) l.

Inductive patches : Z -> Z -> list ditem -> list (list Z) -> list (list Z) -> Prop :=
| patches_end a b A : patches a b [] A A
| patches_hunk a b C body items A B :
    Forall is_line body ->
    patches (a + Zlen C + Zlen (old_side body)) (b + Zlen C + Zlen (new_side body)) items A B ->
    patches a b
      (Header (a + Zlen C + 1) (Zlen (old_side body)) (b + Zlen C + 1) (Zlen (new_side body)) :: body ++ items)
      (C ++ old_side body ++ A) (C ++ new_side body ++ B).

(** ** Scripts over exactly equal lines *)

Inductive exact : list triple -> list (list Z) -> list (list Z) -> Prop :=
| exact_nil : exact [] [] []
| exact_cons C D I T A B :
    exact T A B -> exact ((Zlen C, Zlen D, Zlen I) :: T) (C ++ D ++ A) (C ++ I ++ B).

Lemma transforms_exact T A B : transforms (flat T) A B -> exact T A B.
Proof.
  remember (flat T) as R eqn:HR. intros H. revert T HR.
  induction H as [|C D I R A B H IH]; intros [|[[c d] i] T] HR; try done; [constructor|].
  injection HR as <- <- <- HR. constructor. by apply IH.
Qed.

Lemma exact_zero T A B : exact T A B -> exact (T ++ [(0, 0, 0)]) A B.
Proof.
  induction 1 as [|C D I T A B H IH]; [apply (exact_cons [] [] []); constructor|]. by constructor.
Qed.

Lemma exact_inv c d i T A B :
  exact ((c, d, i) :: T) A B ->
  exists C D I A' B', c = Zlen C /\ d = Zlen D /\ i = Zlen I /\ A = C ++ D ++ A' /\ B = C ++ I ++ B' /\ exact T A' B'.
Proof. intros H. inversion H; subst. by exists C, D, I, A0, B0. Qed.

(** Triples that only copy. *)
Definition pure (t : triple) : Prop := let '(_, d, i) := t in d = 0 /\ i = 0.

Lemma exact_pure T A B : exact T A B -> Forall pure T -> A = B.
Proof.
  induction 1 as [|C D I T A B H IH]; intros HT; [done|]. apply Forall_cons_1 in HT as [[HD HI] HT].
  destruct D, I; try (simpl in *; lia). simpl. by rewrite (IH HT).
Qed.

(** ** Sides of pieces of the output *)

Lemma old_app l k : old_side (l ++ k) = old_side l ++ old_side k.
Proof. apply omap_app. Qed.
Lemma new_app l k : new_side (l ++ k) = new_side l ++ new_side k.
Proof. apply omap_app. Qed.

Lemma sides_SP (L : list (list Z)) : old_side (DiffLine SP <$> L) = L /\ new_side (DiffLine SP <$> L) = L.
Proof. induction L as [|l L [IH1 IH2]]; [done|]. split; simpl; unfold old_side, new_side in *; simpl; by f_equal. Qed.
Lemma sides_MINUS (L : list (list Z)) : old_side (DiffLine MINUS <$> L) = L /\ new_side (DiffLine MINUS <$> L) = [].
Proof. induction L as [|l L [IH1 IH2]]; [done|]. split; simpl; [by f_equal|exact IH2]. Qed.
Lemma sides_PLUS (L : list (list Z)) : old_side (DiffLine PLUS <$> L) = [] /\ new_side (DiffLine PLUS <$> L) = L.
Proof. induction L as [|l L [IH1 IH2]]; [done|]. split; simpl; [exact IH1|by f_equal]. Qed.
Lemma lines_are p (L : list (list Z)) : Forall is_line (DiffLine p <$> L).
Proof. apply Forall_fmap, List.Forall_forall. done. Qed.

(** ** Reading the arrays *)

(** Array [X] holds the lines [L]. *)
Definition holds (X : list DLine) (L : list (list Z)) : Prop :=
  Forall2 (fun x l => forall p, appendDiffLine p x = DiffLine p l) X L.

Lemma show_lines_spec X L p (m : nat) a :
  holds X L -> 0 <= a -> a + Z.of_nat m <= Zlen L ->
  show_lines m p X a = Ok (DiffLine p <$> take m (drop (Z.to_nat a) L)).
Proof.
  intros HX. revert a. induction m as [|m IH]; intros a Ha Hm; [done|]. cbn [show_lines].
  destruct (lookup_lt_is_Some_2 L (Z.to_nat a)) as [l Hl]; [lia|].
  destruct (Forall2_lookup_r _ _ _ _ _ HX Hl) as (x & Hx & Hp).
  rewrite (rd_ok X a x), bind_Ok, IH, bind_Ok by (done || lia). rewrite (drop_S L l (Z.to_nat a)) by done.
  replace (Z.to_nat (a + 1)) with (S (Z.to_nat a)) by lia. cbn [take]. by rewrite Hp, fmap_cons.
Qed.

(** The same for a part of the file known by what follows position [a]. *)
Lemma show_part X L p a C K n :
  holds X L -> 0 <= a -> drop (Z.to_nat a) L = C ++ K -> n = Zlen C ->
  show_lines (Z.to_nat n) p X a = Ok (DiffLine p <$> C) /\ drop (Z.to_nat (a + n)) L = K.
Proof.
  intros HX Ha Hd ->. assert (Zlen L - a = Zlen (C ++ K) \/ C = [] /\ K = []) as Hl.
  { rewrite <- Hd, length_drop. destruct (decide (a <= Zlen L)); [left; lia|right].
    rewrite drop_ge in Hd by lia. symmetry in Hd. by apply app_nil in Hd. }
  rewrite length_app in Hl. split.
  - destruct Hl as [Hl|[-> ->]]; [|done]. rewrite Nat2Z.id, (show_lines_spec X L) by (done || lia).
    by rewrite Hd, take_app_length.
  - rewrite Z2Nat.inj_add, Nat2Z.id, <- drop_drop, Hd by lia. apply drop_app_length.
Qed.

Lemma rd_flat (P : list triple) c d n (S : list triple) k x :
  [c; d; n] !! Z.to_nat k = Some x -> 0 <= k ->
  rd (flat (P ++ (c, d, n) :: S)) (3 * Zlen P + k) = Ok x.
Proof.
  intros Hk Hk0. apply rd_ok; [lia|]. rewrite flat_app. pose proof (length_flat P) as Hl.
  rewrite lookup_app_r by lia. replace (_ - _)%nat with (Z.to_nat k) by lia.
  change (flat ((c, d, n) :: S)) with ([c; d; n] ++ flat S). by apply lookup_app_l_Some.
Qed.

Section Blocks.
Context (A B : list DLine) (LA LB : list (list Z)) (nContext : Z).
Context (HA : holds A LA) (HB : holds B LB) (Hctx : 0 <= nContext < 2^30).

Definition small (t : triple) : bool := let '(c, _, _) := t in (c >? 0) && (c <? nContext * 2).

Lemma small_cond c d n :
  (if c >? 0 then n ← i32 (nContext * 2); Ok (c <? n) else Ok false) = Ok (small (c, d, n)).
Proof.
  rewrite i32_ok, bind_Ok by (change INT_MIN with (-2147483648); change INT_MAX with 2147483647; lia).
  simpl. by destruct (c >? 0).
Qed.

Lemma block_size_spec fuel (P : list triple) t (U S : list triple) nr :
  nr = 1 + Zlen U -> (length S <= fuel)%nat ->
  exists V c d n W, S ++ [(0, 0, 0)] = V ++ (c, d, n) :: W /\ small (c, d, n) = false /\
    block_size (flat (P ++ t :: U ++ S ++ [(0, 0, 0)])) nContext fuel (3 * Zlen P) nr = Ok (nr + Zlen V).
Proof.
  revert U S nr. induction fuel as [|fuel IH]; intros U S nr -> Hf.
  - destruct S; [|simpl in Hf; lia]. exists [], 0, 0, 0, []. split_and!; [done|done|]. cbn [block_size app].
    replace (P ++ t :: U ++ [(0, 0, 0)]) with ((P ++ t :: U) ++ [(0, 0, 0)]) by (by rewrite <- app_assoc).
    replace (3 * Zlen P + (1 + Zlen U) * 3) with (3 * Zlen (P ++ t :: U) + 0) by (rewrite length_app; simpl; lia).
    rewrite (rd_flat _ 0 0 0 [] 0 0), bind_Ok by done. cbn. f_equal. lia.
  - destruct S as [|[[c d] n] S].
    + exists [], 0, 0, 0, []. split_and!; [done|done|]. cbn [block_size app].
      replace (P ++ t :: U ++ [(0, 0, 0)]) with ((P ++ t :: U) ++ [(0, 0, 0)]) by (by rewrite <- app_assoc).
      replace (3 * Zlen P + (1 + Zlen U) * 3) with (3 * Zlen (P ++ t :: U) + 0) by (rewrite length_app; simpl; lia).
      rewrite (rd_flat _ 0 0 0 [] 0 0), bind_Ok by done. cbn. f_equal. lia.
    + cbn [block_size].
      assert (rd (flat (P ++ t :: U ++ ((c, d, n) :: S) ++ [(0, 0, 0)])) (3 * Zlen P + (1 + Zlen U) * 3) = Ok c) as ->.
      { replace (P ++ t :: U ++ ((c, d, n) :: S) ++ [(0, 0, 0)]) with ((P ++ t :: U) ++ (c, d, n) :: S ++ [(0, 0, 0)])
          by (by rewrite <- app_assoc).
        replace (3 * Zlen P + (1 + Zlen U) * 3) with (3 * Zlen (P ++ t :: U) + 0) by (rewrite length_app; simpl; lia).
        by apply rd_flat. }
      rewrite bind_Ok, (small_cond c d n), bind_Ok. destruct (small (c, d, n)) eqn:Es.
      * destruct (IH (U ++ [(c, d, n)]) S (1 + Zlen U + 1)) as (V & c' & d' & n' & W & HS & Hsm & Hb);
          [rewrite length_app; simpl; lia|simpl in Hf; lia|].
        exists ((c, d, n) :: V), c', d', n', W. split_and!; [by rewrite <- app_comm_cons, HS|done|].
        rewrite <- app_assoc in Hb. simpl in Hb |- *. rewrite Hb. f_equal. lia.
      * exists [], c, d, n, (S ++ [(0, 0, 0)]). split_and!; [done|exact Es|]. f_equal. simpl. lia.
Qed.

(** The sum of one number of each triple. *)
Definition field (k : Z) (t : triple) : Z := let '(c, d, n) := t in cget [c; d; n] k.

Lemma sum_field_spec k (P U S : list triple) i (Q : list triple) :
  0 <= k < 3 -> i = Zlen Q ->
  sum_field (flat (P ++ Q ++ U ++ S)) (length U) k (3 * Zlen P) i = Ok (foldr Z.add 0 (field k <$> U)).
Proof.
  intros Hk. revert i Q. induction U as [|[[c d] n] U IH]; intros i Q ->; [done|]. cbn [sum_field length].
  assert (rd (flat (P ++ Q ++ ((c, d, n) :: U) ++ S)) (3 * Zlen P + Zlen Q * 3 + k) = Ok (cget [c; d; n] k)) as ->.
  { rewrite app_assoc. replace (3 * Zlen P + Zlen Q * 3 + k) with (3 * Zlen (P ++ Q) + k) by (rewrite length_app; lia).
    apply rd_flat; [|lia]. rewrite lookup_cget by (simpl; lia). done. }
  rewrite bind_Ok.
  replace (P ++ Q ++ ((c, d, n) :: U) ++ S) with (P ++ (Q ++ [(c, d, n)]) ++ U ++ S) by (by rewrite <- app_assoc).
  rewrite IH by (rewrite length_app; simpl; lia). done.
Qed.

(** A part of the output between two places. *)
Record part (l : list ditem) (a b a' b' : Z) (A0 B0 A1 B1 : list (list Z)) : Prop := {
  pa_lines : Forall is_line l;
  pa_old : A0 = old_side l ++ A1 /\ a' = a + Zlen (old_side l);
  pa_new : B0 = new_side l ++ B1 /\ b' = b + Zlen (new_side l) }.

Lemma part_nil a b A0 B0 : part [] a b a b A0 B0 A0 B0.
Proof. split; [constructor|split; [done|simpl; lia]..]. Qed.

Lemma part_app l k a b a1 b1 a2 b2 A0 B0 A1 B1 A2 B2 :
  part l a b a1 b1 A0 B0 A1 B1 -> part k a1 b1 a2 b2 A1 B1 A2 B2 -> part (l ++ k) a b a2 b2 A0 B0 A2 B2.
Proof.
  intros [L1 [-> ->] [-> ->]] [L2 [-> ->] [-> ->]]. split.
  - by apply Forall_app_2.
  - rewrite old_app, <- app_assoc, length_app. split; [done|lia].
  - rewrite new_app, <- app_assoc, length_app. split; [done|lia].
Qed.

Lemma part_copy C a b A1 B1 :
  part (DiffLine SP <$> C) a b (a + Zlen C) (b + Zlen C) (C ++ A1) (C ++ B1) A1 B1.
Proof. destruct (sides_SP C) as [H1 H2]. split; [apply lines_are|by rewrite H1|by rewrite H2]. Qed.
Lemma part_del D a b A1 B1 : part (DiffLine MINUS <$> D) a b (a + Zlen D) b (D ++ A1) B1 A1 B1.
Proof. destruct (sides_MINUS D) as [H1 H2]. split; [apply lines_are|by rewrite H1|rewrite H2; split; [done|simpl; lia]]. Qed.
Lemma part_ins I a b A1 B1 : part (DiffLine PLUS <$> I) a b a (b + Zlen I) A1 (I ++ B1) A1 B1.
Proof. destruct (sides_PLUS I) as [H1 H2]. split; [apply lines_are|rewrite H1; split; [done|simpl; lia]|by rewrite H2]. Qed.

Definition total_field (k : Z) (U : list triple) : Z := foldr Z.add 0 (field k <$> U).

Lemma total_field_cons c d n U :
  total_field 0 ((c, d, n) :: U) = c + total_field 0 U /\
  total_field 1 ((c, d, n) :: U) = d + total_field 1 U /\
  total_field 2 ((c, d, n) :: U) = n + total_field 2 U.
Proof. done. Qed.

Lemma show_changes_spec U (P : list triple) c d n S a b A0 B0 :
  exact ((0, d, n) :: U ++ S) A0 B0 -> 0 <= a -> 0 <= b ->
  drop (Z.to_nat a) LA = A0 -> drop (Z.to_nat b) LB = B0 ->
  exists l a' b' A1 B1,
    show_changes A B (flat (P ++ (c, d, n) :: U ++ S)) (Datatypes.S (length U)) (3 * Zlen P) a b = Ok (l, a', b') /\
    part l a b a' b' A0 B0 A1 B1 /\ drop (Z.to_nat a') LA = A1 /\ drop (Z.to_nat b') LB = B1 /\ exact S A1 B1 /\
    Zlen (old_side l) = total_field 1 ((c, d, n) :: U) + total_field 0 U /\
    Zlen (new_side l) = total_field 2 ((c, d, n) :: U) + total_field 0 U.
Proof.
  revert P c d n a b A0 B0.
  induction U as [|[[c1 d1] n1] U IH]; intros P c d n a b A0 B0 He Ha Hb HA0 HB0;
    apply exact_inv in He as (C0 & D & I & A1 & B1 & HC0 & -> & -> & EA & EB & He);
    (destruct C0; [|simpl in HC0; lia]); simpl in EA, EB; rewrite EA in HA0; rewrite EB in HB0; subst A0 B0.
  - destruct (show_part A LA MINUS a D A1 (Zlen D) HA Ha HA0 eq_refl) as [E1 F1].
    destruct (show_part B LB PLUS b I B1 (Zlen I) HB Hb HB0 eq_refl) as [E2 F2].
    cbn [length]. cbn [show_changes app].
    rewrite (rd_flat P c (Zlen D) (Zlen I) S 1 (Zlen D)), bind_Ok, E1, bind_Ok by done.
    rewrite (rd_flat P c (Zlen D) (Zlen I) S 2 (Zlen I)), bind_Ok, E2, !bind_Ok by done.
    rewrite !app_nil_r.
    exists ((DiffLine MINUS <$> D) ++ (DiffLine PLUS <$> I)), (a + Zlen D), (b + Zlen I), A1, B1.
    assert (part ((DiffLine MINUS <$> D) ++ (DiffLine PLUS <$> I)) a b (a + Zlen D) (b + Zlen I) (D ++ A1) (I ++ B1) A1 B1)
      as Hpart by (eapply part_app; [apply part_del|apply part_ins]).
    destruct (sides_MINUS D) as [Eo En], (sides_PLUS I) as [Fo Fn].
    split_and!; try done; rewrite ?old_app, ?new_app, ?Eo, ?En, ?Fo, ?Fn, ?app_nil_r;
      destruct (total_field_cons c (Zlen D) (Zlen I) []) as (_ & T1 & T2); rewrite ?T1, ?T2; cbn; lia.
  - pose proof He as He'. apply exact_inv in He' as (C1 & D1 & I1 & A2 & B2 & -> & -> & -> & EA1 & EB1 & He2).
    destruct (show_part A LA MINUS a D A1 (Zlen D) HA Ha HA0 eq_refl) as [E1 F1].
    destruct (show_part B LB PLUS b I B1 (Zlen I) HB Hb HB0 eq_refl) as [E2 F2].
    rewrite EB1 in F2. rewrite EA1 in F1.
    destruct (show_part B LB SP (b + Zlen I) C1 (I1 ++ B2) (Zlen C1) HB ltac:(lia) F2 eq_refl) as [E3 F3].
    destruct (show_part A LA SP (a + Zlen D) C1 (D1 ++ A2) (Zlen C1) HA ltac:(lia) F1 eq_refl) as [_ F4].
    destruct (IH (P ++ [(c, Zlen D, Zlen I)]) (Zlen C1) (Zlen D1) (Zlen I1) (a + Zlen D + Zlen C1) (b + Zlen I + Zlen C1)
      (D1 ++ A2) (I1 ++ B2)) as (l & a' & b' & A3 & B3 & Hsh & Hpart & Ha' & Hb' & He3 & Hold & Hnew); [|lia|lia|done|done|].
    { by apply (exact_cons [] D1 I1). }
    cbn [length]. cbn [show_changes].
    rewrite (rd_flat P c (Zlen D) (Zlen I) _ 1 (Zlen D)), bind_Ok, E1, bind_Ok by done.
    rewrite (rd_flat P c (Zlen D) (Zlen I) _ 2 (Zlen I)), bind_Ok, E2, !bind_Ok by done.
    assert (rd (flat (P ++ (c, Zlen D, Zlen I) :: ((Zlen C1, Zlen D1, Zlen I1) :: U) ++ S)) (3 * Zlen P + 3) = Ok (Zlen C1)) as ->.
    { replace (P ++ (c, Zlen D, Zlen I) :: ((Zlen C1, Zlen D1, Zlen I1) :: U) ++ S) with
        ((P ++ [(c, Zlen D, Zlen I)]) ++ (Zlen C1, Zlen D1, Zlen I1) :: U ++ S) by (by rewrite <- app_assoc).
      replace (3 * Zlen P + 3) with (3 * Zlen (P ++ [(c, Zlen D, Zlen I)]) + 0) by (rewrite length_app; simpl; lia).
      by apply rd_flat. }
    rewrite bind_Ok, E3, !bind_Ok.
    replace (3 * Zlen P + 3) with (3 * Zlen (P ++ [(c, Zlen D, Zlen I)])) by (rewrite length_app; simpl; lia).
    replace (P ++ (c, Zlen D, Zlen I) :: ((Zlen C1, Zlen D1, Zlen I1) :: U) ++ S) with
      ((P ++ [(c, Zlen D, Zlen I)]) ++ (Zlen C1, Zlen D1, Zlen I1) :: U ++ S) by (by rewrite <- app_assoc).
    cbn [show_changes] in Hsh. rewrite Hsh, bind_Ok.
    destruct (total_field_cons c (Zlen D) (Zlen I) ((Zlen C1, Zlen D1, Zlen I1) :: U)) as (_ & T1 & T2).
    destruct (total_field_cons (Zlen C1) (Zlen D1) (Zlen I1) U) as (T0' & T1' & T2'). rewrite T1, T2, T0'.
    eexists _, a', b', A3, B3. split; [done|]. rewrite EA1, EB1. split_and!; try done.
    + eapply part_app; [apply part_del|]. eapply part_app; [apply part_ins|]. eapply part_app; [apply part_copy|done].
    + rewrite !old_app. destruct (sides_MINUS D) as [-> _], (sides_PLUS I) as [-> _], (sides_SP C1) as [-> _].
      rewrite !length_app. lia.
    + rewrite !new_app. destruct (sides_MINUS D) as [_ ->], (sides_PLUS I) as [_ ->], (sides_SP C1) as [_ ->].
      rewrite !length_app. lia.
Qed.

Definition skipped (c : Z) : Z := if c >? nContext then c - nContext else 0.
Definition trailing (c : Z) : Z := if c >? nContext then nContext else c.

Lemma show_block_spec (P : list triple) c d n V c' d' n' W a b A0 B0 :
  block_size (flat (P ++ (c, d, n) :: V ++ (c', d', n') :: W)) nContext
    (length (flat (P ++ (c, d, n) :: V ++ (c', d', n') :: W))) (3 * Zlen P) 1 = Ok (1 + Zlen V) ->
  exact ((c, d, n) :: V ++ (c', d', n') :: W) A0 B0 -> 0 <= a -> 0 <= b ->
  drop (Z.to_nat a) LA = A0 -> drop (Z.to_nat b) LB = B0 ->
  exists C0 body a' b' A1 B1 E A2 B2,
    show_block A B (flat (P ++ (c, d, n) :: V ++ (c', d', n') :: W)) nContext (3 * Zlen P) a b =
      Ok (Header (a + skipped c + 1) (Zlen (old_side body)) (b + skipped c + 1) (Zlen (new_side body)) :: body,
          1 + Zlen V, a', b') /\
    Zlen C0 = skipped c /\ Forall is_line body /\
    A0 = C0 ++ old_side body ++ A2 /\ B0 = C0 ++ new_side body ++ B2 /\
    exact ((c', d', n') :: W) A1 B1 /\ A1 = E ++ A2 /\ B1 = E ++ B2 /\ Zlen E = trailing c' /\
    a' + trailing c' = a + skipped c + Zlen (old_side body) /\ b' + trailing c' = b + skipped c + Zlen (new_side body) /\
    drop (Z.to_nat a') LA = A1 /\ drop (Z.to_nat b') LB = B1 /\ 0 <= a' /\ 0 <= b'.
Proof.
  intros Hbs He Ha Hb HA0 HB0. unfold show_block. rewrite Hbs, bind_Ok. clear Hbs.
  apply exact_inv in He as (C & D & I & A' & B' & -> & -> & -> & -> & -> & He).
  assert (rd (flat (P ++ (Zlen C, Zlen D, Zlen I) :: V ++ (c', d', n') :: W)) (3 * Zlen P) = Ok (Zlen C)) as ->
    by (rewrite <- (Z.add_0_r (3 * Zlen P)); by apply rd_flat).
  rewrite bind_Ok.
  set (t := (Zlen C, Zlen D, Zlen I)). set (R := flat _).
  assert (forall k, 0 <= k < 3 -> sum_field R (Z.to_nat (1 + Zlen V)) k (3 * Zlen P) 0 = Ok (total_field k (t :: V))) as Hsum.
  { intros k Hk. replace (Z.to_nat (1 + Zlen V)) with (length (t :: V)) by (simpl; lia).
    by apply (sum_field_spec k P (t :: V) ((c', d', n') :: W) 0 []). }
  assert (sum_field R (Z.to_nat (1 + Zlen V - 1)) 0 (3 * Zlen P) 1 = Ok (total_field 0 V)) as Hsum0.
  { replace (Z.to_nat (1 + Zlen V - 1)) with (length V) by lia.
    by apply (sum_field_spec 0 P V ((c', d', n') :: W) 1 [t]). }
  assert (rd R (3 * Zlen P + (1 + Zlen V) * 3) = Ok c') as Hlast.
  { unfold R. replace (P ++ t :: V ++ (c', d', n') :: W) with ((P ++ t :: V) ++ (c', d', n') :: W) by (by rewrite <- app_assoc).
    replace (3 * Zlen P + (1 + Zlen V) * 3) with (3 * Zlen (P ++ t :: V) + 0) by (rewrite length_app; simpl; lia).
    by apply rd_flat. }
  assert ((if Zlen C >? nContext then (nContext, Zlen C - nContext) else (Zlen C, 0)) =
    (Zlen C - skipped (Zlen C), skipped (Zlen C))) as ->.
  { unfold skipped. destruct (_ >? _); f_equal; lia. }
  cbv iota beta. rewrite !Hsum, !bind_Ok, Hlast, bind_Ok, Hsum0, bind_Ok by lia.
  fold (trailing c'). set (sk := skipped (Zlen C)).
  assert (0 <= sk <= Zlen C) as Hsk by (unfold sk, skipped; rewrite Z.gtb_ltb; destruct (Z.ltb_spec nContext (Zlen C)); lia).
  set (C0 := take (Z.to_nat sk) C). set (C1 := drop (Z.to_nat sk) C).
  assert (C = C0 ++ C1) as EC by (symmetry; apply take_drop).
  assert (Zlen C0 = sk) as HC0 by (unfold C0; rewrite length_take; lia).
  assert (Zlen C1 = Zlen C - sk) as HC1 by (unfold C1; rewrite length_drop; lia).
  rewrite EC, <- !app_assoc in HA0, HB0.
  destruct (show_part A LA SP a C0 (C1 ++ D ++ A') sk HA Ha HA0 (eq_sym HC0)) as [_ F1].
  destruct (show_part B LB SP b C0 (C1 ++ I ++ B') sk HB Hb HB0 (eq_sym HC0)) as [_ F2].
  destruct (show_part A LA SP (a + sk) C1 (D ++ A') (Zlen C - sk) HA ltac:(lia) F1 (eq_sym HC1)) as [E3 F3].
  destruct (show_part B LB SP (b + sk) C1 (I ++ B') (Zlen C - sk) HB ltac:(lia) F2 (eq_sym HC1)) as [_ F4].
  rewrite E3, bind_Ok. destruct (show_changes_spec V P (Zlen C) (Zlen D) (Zlen I) ((c', d', n') :: W)
    (a + sk + (Zlen C - sk)) (b + sk + (Zlen C - sk)) (D ++ A') (I ++ B'))
    as (l1 & a' & b' & A1 & B1 & Hch & Hpart & HA1 & HB1 & He1 & Hold & Hnew);
    [by apply (exact_cons [] D I)|lia|lia|done|done|].
  replace (Z.to_nat (1 + Zlen V)) with (Datatypes.S (length V)) by lia. fold t in Hch. fold R in Hch. rewrite Hch, bind_Ok.
  destruct Hpart as [Hl [Eo Ea'] [En Eb']].
  pose proof He1 as He1'. apply exact_inv in He1' as (C' & D' & I' & A3 & B3 & HC' & _ & _ & EA1 & EB1 & _).
  assert (0 <= trailing c' <= c') as Htr by (unfold trailing; rewrite Z.gtb_ltb; destruct (Z.ltb_spec nContext c'); lia).
  set (E := take (Z.to_nat (trailing c')) C'). assert (Zlen E = trailing c') as HE by (unfold E; rewrite length_take; lia).
  assert (C' = E ++ drop (Z.to_nat (trailing c')) C') as EC' by (symmetry; apply take_drop).
  rewrite EC', <- !app_assoc in EA1, EB1. rewrite EB1 in HB1.
  destruct (show_part B LB SP b' E _ (trailing c') HB ltac:(lia) HB1 (eq_sym HE)) as [E5 _].
  rewrite E5, bind_Ok. destruct (sides_SP C1) as [S1 S1'], (sides_SP E) as [S2 S2'].
  set (body := (DiffLine SP <$> C1) ++ l1 ++ (DiffLine SP <$> E)).
  assert (old_side body = C1 ++ old_side l1 ++ E) as Hob by (unfold body; by rewrite !old_app, S1, S2).
  assert (new_side body = C1 ++ new_side l1 ++ E) as Hnb by (unfold body; by rewrite !new_app, S1', S2').
  exists C0, body, a', b', A1, B1, E, (drop (Z.to_nat (trailing c')) C' ++ D' ++ A3), (drop (Z.to_nat (trailing c')) C' ++ I' ++ B3).
  assert (Forall is_line body) as Hbody.
  { apply Forall_app_2; [apply lines_are|]. apply Forall_app_2; [done|apply lines_are]. }
  assert (Zlen C - sk + total_field 1 (t :: V) + trailing c' + total_field 0 V = Zlen (old_side body)) as Hna
    by (rewrite Hob, !length_app; fold t in Hold; lia).
  assert (Zlen C - sk + total_field 2 (t :: V) + trailing c' + total_field 0 V = Zlen (new_side body)) as Hnb'
    by (rewrite Hnb, !length_app; fold t in Hnew; lia).
  split_and!; try done.
  - by rewrite Hna, Hnb'.
  - rewrite Hob, EC. rewrite <- !app_assoc. by rewrite Eo, EA1.
  - rewrite Hnb, EC. rewrite <- !app_assoc. by rewrite En, EB1.
  - rewrite Hob, !length_app. lia.
  - rewrite Hnb, !length_app. lia.
  - by rewrite EB1.
  - lia.
  - lia.
Qed.

(** What of the next copy the hunk before has shown already. *)
Definition shown (m : Z) (t : triple) : Prop :=
  let '(c, _, _) := t in m = 0 \/ m = trailing c /\ small t = false.

Lemma shown_skipped m c d n : 0 <= c -> shown m (c, d, n) -> 0 <= m <= skipped c.
Proof.
  intros Hc [->|[-> Hs]]; unfold trailing, skipped in *; rewrite Z.gtb_ltb in *.
  - destruct (Z.ltb_spec nContext c); lia.
  - cbn in Hs. rewrite Z.gtb_ltb in Hs. apply andb_false_iff in Hs as [Hs%Z.ltb_ge|Hs%Z.ltb_ge];
      destruct (Z.ltb_spec nContext c); lia.
Qed.

Lemma drop_after (L C K : list (list Z)) a m :
  0 <= a -> Zlen C = m -> drop (Z.to_nat a) L = C ++ K -> drop (Z.to_nat (a + m)) L = K.
Proof.
  intros Ha <- Hd. rewrite Z2Nat.inj_add, Nat2Z.id, <- drop_drop, Hd by lia. apply drop_app_length.
Qed.

Lemma suffix_end (X Y : list triple) t U' z : X ++ t :: Y = U' ++ [z] -> exists V', t :: Y = V' ++ [z].
Proof.
  intros H. destruct (exists_last (l := t :: Y)) as (V' & y & E); [done|]. rewrite E, app_assoc in H.
  apply app_inj_tail in H as [_ ->]. by exists V'.
Qed.

Context (TT T1 T2 : list triple) (HTT : TT = T1 ++ T2) (Hpure : Forall pure T2) (HT2 : T2 <> []).

(** The block at a place before the end of what is shown. *)
Lemma next_block (P : list triple) c d n U U' :
  TT = P ++ (c, d, n) :: U -> (c, d, n) :: U = U' ++ [(0, 0, 0)] -> 3 * Zlen P < 3 * Zlen T1 ->
  exists V c' d' n' W, U = V ++ (c', d', n') :: W /\ small (c', d', n') = false /\
    block_size (flat TT) nContext (length (flat TT)) (3 * Zlen P) 1 = Ok (1 + Zlen V).
Proof.
  intros HP Hend Hlt. destruct U' as [|t' U'].
  { exfalso. injection Hend as -> -> -> ->. apply (f_equal length) in HP. rewrite HTT, !length_app in HP.
    destruct T2; [done|]. simpl in HP. lia. }
  injection Hend as <- ->.
  destruct (block_size_spec (length (flat TT)) P (c, d, n) [] U' 1) as (V & c' & d' & n' & W & EV & Hsm & Hb');
    [done| |].
  - rewrite HP. pose proof (length_flat (P ++ (c, d, n) :: U' ++ [(0, 0, 0)])) as Hlf.
    rewrite !length_app in Hlf. simpl in Hlf. rewrite length_app in Hlf. lia.
  - exists V, c', d', n', W. split_and!; [done|done|]. rewrite HP in Hb' |- *. exact Hb'.
Qed.

Lemma context_loop_spec fuel (P : list triple) t U m a b :
  TT = P ++ t :: U -> (exists U', t :: U = U' ++ [(0, 0, 0)]) ->
  exact (t :: U) (drop (Z.to_nat a) LA) (drop (Z.to_nat b) LB) -> 0 <= a -> 0 <= b ->
  shown m t -> (length (t :: U) <= fuel)%nat ->
  exists items, context_loop A B (flat TT) nContext fuel (3 * Zlen T1) (3 * Zlen P) a b = Ok items /\
    patches (a + m) (b + m) items (drop (Z.to_nat (a + m)) LA) (drop (Z.to_nat (b + m)) LB).
Proof.
  revert P t U m a b. induction fuel as [|fuel IH]; intros P [[c d] n] U m a b HP [U' Hend] He Ha Hb Hm Hf; [simpl in Hf; lia|].
  assert (0 <= c) as Hc by (apply exact_inv in He as (C & ? & ? & ? & ? & -> & _); lia).
  pose proof (shown_skipped m c d n Hc Hm) as Hms.
  cbn [context_loop]. destruct (Z.ltb_spec (3 * Zlen P) (3 * Zlen T1)) as [Hlt|Hge].
  - destruct (next_block P c d n U U' HP Hend Hlt) as (V & c' & d' & n' & W & -> & Hsm & Hbs).
    rewrite HP in Hbs.
    destruct (show_block_spec P c d n V c' d' n' W a b _ _ Hbs He Ha Hb eq_refl eq_refl)
      as (C0 & body & a' & b' & A1 & B1 & E & A2 & B2 & Hshow & HC0 & Hbody & EA & EB & He1 & EA1 & EB1 & HE & Hpa & Hpb & HA1 & HB1 & Ha' & Hb').
    rewrite <- HP in Hshow. rewrite Hshow, bind_Ok.
    replace (3 * Zlen P + 3 * (1 + Zlen V)) with (3 * Zlen (P ++ (c, d, n) :: V)) by (rewrite length_app; simpl; lia).
    destruct (IH (P ++ (c, d, n) :: V) (c', d', n') W (trailing c') a' b') as (items & -> & Hpat); [..|rewrite bind_Ok].
    + by rewrite <- app_assoc.
    + rewrite app_comm_cons in Hend. by apply suffix_end in Hend.
    + by rewrite HA1, HB1.
    + done.
    + done.
    + by right.
    + simpl in Hf. rewrite length_app in Hf. simpl in Hf |- *. lia.
    + eexists. split; [done|]. rewrite EA1 in HA1. rewrite EB1 in HB1.
      rewrite (drop_after _ _ _ _ _ Ha' HE HA1), (drop_after _ _ _ _ _ Hb' HE HB1) in Hpat.
      assert (C0 = take (Z.to_nat m) C0 ++ drop (Z.to_nat m) C0) as EC by (by rewrite take_drop).
      assert (Zlen (take (Z.to_nat m) C0) = m) as Hlm by (rewrite length_take; lia).
      rewrite EC, <- app_assoc in EA, EB. set (Cs := drop (Z.to_nat m) C0) in *.
      assert (Zlen Cs = skipped c - m) as Hls by (unfold Cs; rewrite length_drop; lia).
      rewrite (drop_after _ _ _ _ _ Ha Hlm EA), (drop_after _ _ _ _ _ Hb Hlm EB).
      replace (a + skipped c + 1) with (a + m + Zlen Cs + 1) by lia.
      replace (b + skipped c + 1) with (b + m + Zlen Cs + 1) by lia. rewrite <- app_comm_cons.
      apply patches_hunk; [done|].
      replace (a + m + Zlen Cs + Zlen (old_side body)) with (a' + trailing c') by lia.
      by replace (b + m + Zlen Cs + Zlen (new_side body)) with (b' + trailing c') by lia.
  - exists []. split; [done|]. assert (Forall pure ((c, d, n) :: U)) as Hpu.
    { replace ((c, d, n) :: U) with (drop (length P) TT) by (by rewrite HP, drop_app_length).
      rewrite HTT, drop_app_ge by lia. by apply Forall_drop. }
    pose proof (exact_pure _ _ _ He Hpu) as Heq.
    rewrite !Z2Nat.inj_add, <- !drop_drop, Heq by lia. constructor.
Qed.
End Blocks.

Lemma trim_script_spec fuel (T : list triple) (Q : list triple) :
  (length T <= fuel)%nat ->
  exists T1 T2, T = T1 ++ T2 /\ Forall pure T2 /\ (forall T' t, T = T' ++ [t] -> pure t -> T2 <> []) /\
    trim_script (flat (T ++ Q)) fuel (3 * Zlen T) = Ok (3 * Zlen T1).
Proof.
  revert T Q. induction fuel as [|fuel IH]; intros T Q Hf.
  - destruct T; [|simpl in Hf; lia]. exists [], []. split_and!; try done. by intros [].
  - cbn [trim_script]. destruct (decide (T = [])) as [->|Hne].
    { exists [], []. split_and!; try done. by intros []. }
    destruct (exists_last Hne) as (T' & [[c d] n] & ->). rewrite length_app in Hf |- *. cbn [length] in *.
    rewrite Z.gtb_ltb, (proj2 (Z.ltb_lt _ _)) by lia. rewrite <- !app_assoc. cbn [app].
    replace (3 * Z.of_nat (length T' + 1) - 1) with (3 * Zlen T' + 2) by lia.
    replace (3 * Z.of_nat (length T' + 1) - 2) with (3 * Zlen T' + 1) by lia.
    rewrite (rd_flat T' c d n Q 2 n), bind_Ok, (rd_flat T' c d n Q 1 d), bind_Ok by done.
    destruct ((n =? 0) && (d =? 0)) eqn:E.
    + apply andb_true_iff in E as [->%Z.eqb_eq ->%Z.eqb_eq].
      replace (3 * Z.of_nat (length T' + 1) - 3) with (3 * Zlen T') by lia.
      destruct (IH T' ((c, 0, 0) :: Q)) as (T1 & T2 & -> & Hp & _ & Heq); [lia|].
      exists T1, (T2 ++ [(c, 0, 0)]). split_and!; [by rewrite app_assoc| |by destruct T2|done].
      apply Forall_app_2; [done|]. by apply Forall_cons_2.
    + exists (T' ++ [(c, d, n)]), []. split_and!; [by rewrite app_nil_r|constructor| |f_equal; rewrite length_app; simpl; lia].
      intros T0 t H Hp. apply app_inj_tail in H as [<- <-]. destruct Hp as [-> ->]. done.
Qed.

Lemma holds_lines ws (X : list DLine) L :
  Forall2 (holds_line ws) X L -> holds X (trim_line ws <$> L).
Proof.
  induction 1 as [|x l X L (Hh & <- & Hl) _ IH]; simpl; constructor; [|done]. intros p. unfold appendDiffLine.
  rewrite Hh, dline_h_length, trim_ws_spec by (done || (pose proof (line_len_range (dz x)); lia)). done.
Qed.

Lemma text_diff_out_total (realloc_ok : Z -> bool) (slack : list DLine) (zA zB : list Z) (nContext : Z) (ws : bool) :
  (forall n, realloc_ok n = true) -> diff_sized zA zB -> 0 <= nContext < 2^30 ->
  (slack <> [] \/ same_end ws zA zB) ->
  exists r, text_diff_out realloc_ok slack zA zB nContext ws = Ok r /\
    (is_text zA -> is_text zB -> r <> None) /\
    (Exists (fun c => c = 0) zA \/ Exists (fun c => c = 0) zB -> r = None) /\
    (forall items, r = Some items -> patches 0 0 items (cmp_lines ws zA) (cmp_lines ws zB)).
Proof.
  intros Hre Hsz Hctx Hs. unfold text_diff_out.
  destruct (break_total ws zA) as (rA & -> & HA1 & HA2 & HA3). destruct (break_total ws zB) as (rB & -> & HB1 & HB2 & HB3).
  rewrite !bind_Ok.
  destruct rA as [aF|]; [|exists None; split_and!; [done|tauto|done|done]].
  destruct rB as [aT|]; [|exists None; split_and!; [done|tauto|done|done]].
  destruct (HA3 aF eq_refl) as [HtA HFA]. destruct (HB3 aT eq_refl) as [HtB HFB].
  destruct (diff_all_files realloc_ok slack zA zB ws aF aT) as (p & R & Hp & He & Htr); try done.
  rewrite Hp, bind_Ok. apply diff_all_canonical in Hp as (T & HT & _); [|done].
  unfold edits in HT. rewrite He in HT. simpl in HT. apply app_inv_tail in HT as ->.
  assert (edits p = flat (T ++ [(0, 0, 0)])) as Hed by (unfold edits; rewrite He, flat_app; done).
  rewrite Hed.
  apply transforms_exact, exact_zero in Htr. set (TT := T ++ [(0, 0, 0)]) in *.
  unfold contextDiff. destruct (trim_script_spec (length (flat TT)) TT []) as (T1 & T2 & ET & Hpure & HT2 & Htrim).
  { pose proof (length_flat TT). lia. }
  rewrite app_nil_r in Htrim. rewrite (length_flat TT), Htrim, bind_Ok.
  specialize (HT2 T (0, 0, 0) eq_refl (conj eq_refl eq_refl)).
  assert (exists t U, TT = t :: U) as (t & U & EU) by (unfold TT; destruct T; [by eexists _, _|by eexists _, _]).
  destruct (context_loop_spec aF aT _ _ nContext (holds_lines ws _ _ HFA) (holds_lines ws _ _ HFB) Hctx TT T1 T2 ET Hpure HT2
    (length (flat TT)) [] t U 0 0 0) as (items & Hit & Hpat).
  - done.
  - exists T. by rewrite <- EU.
  - by rewrite <- EU.
  - done.
  - done.
  - destruct t as [[? ?] ?]. by left.
  - rewrite <- EU. pose proof (length_flat TT). lia.
  - change (3 * Zlen []) with 0 in Hit. rewrite Hit, bind_Ok. eexists. split; [done|]. split_and!; [done| |].
    + intros [H|H]; [by specialize (HA2 H)|by specialize (HB2 H)].
    + by intros ? [= <-].
Qed.

Lemma text_diff_out_oob realloc_ok slack zA zB nContext ws :
  oob_le (text_diff_out realloc_ok [] zA zB nContext ws) (text_diff_out realloc_ok slack zA zB nContext ws).
Proof.
  unfold text_diff_out. destruct (break_into_lines zA ws) as [[aF|]|]; cbn [mbind result_bind]; [|by right..].
  destruct (break_into_lines zB ws) as [[aT|]|]; cbn [mbind result_bind]; [|by right..].
  simple apply oob_bind; [|by right]. rewrite app_nil_r. apply diff_all_oob.
Qed.

(** C39. The unified diff of two texts is a patch from the first to the second:
    its hunks come in order, every header states the position and the number of
    lines of its hunk in both files, the context and deleted lines are lines of
    the first file at that position, replacing them by the context and inserted
    lines gives the second file, and between the hunks the files agree.  (With
    [ignoreEolWs] the files are compared and shown without white space at the
    end of lines.)  [text_diff] with an output blob writes such a patch for two
    texts without NUL bytes and overlong lines, and for a file with a NUL byte
    the message about binary files, when memory can be allocated, for two files
    of at most 2^28 bytes together whose numbers of lines have a product that is
    an [int], and less than 2^30 lines of context.  The one exception is the
    read after the array of the first file's lines of [text_diff_spec], which
    needs files that end with different lines and is a fault only when no
    memory can be read there ([slack] is empty). *)
Theorem text_diff_out_spec (realloc_ok : Z -> bool) (slack : list DLine) (zA zB : list Z) (nContext : Z) (ws : bool) :
  (forall n, realloc_ok n = true) -> diff_sized zA zB -> 0 <= nContext < 2^30 ->
  (text_diff_out realloc_ok slack zA zB nContext ws = Fault OutOfBounds /\ slack = [] /\ ~ same_end ws zA zB) \/
  exists r, text_diff_out realloc_ok slack zA zB nContext ws = Ok r /\
    (is_text zA -> is_text zB -> r <> None) /\
    (Exists (fun c => c = 0) zA \/ Exists (fun c => c = 0) zB -> r = None) /\
    (forall items, r = Some items -> patches 0 0 items (cmp_lines ws zA) (cmp_lines ws zB)).
Proof.
  intros Hre Hsz Hctx. destruct (decide (same_end ws zA zB)) as [He|He];
    [right; apply text_diff_out_total; auto|].
  destruct slack as [|d slack]; [|right; apply text_diff_out_total; auto].
  destruct (text_diff_out_oob realloc_ok [MkDLine [] 0 0 0] zA zB nContext ws) as [->| ->]; [by left|right].
  apply text_diff_out_total; auto.
Qed.

Lemma text_diff_out_spec_witness :
  patches 0 0 [Header 1 2 1 2; DiffLine SP (cstr "a"%string); DiffLine MINUS (cstr "b"%string); DiffLine PLUS (cstr "c"%string)]
    [cstr "a"%string; cstr "b"%string] [cstr "a"%string; cstr "c"%string].
Proof.
  destruct (text_diff_out_spec (fun _ => true) [] (cstr "a"%string ++ [10] ++ cstr "b"%string ++ [10])
    (cstr "a"%string ++ [10] ++ cstr "c"%string ++ [10]) 3 false) as [[Hr _]|(r & Hr & _ & _ & Hp)].
  - reflexivity.
  - split; vm_compute; discriminate.
  - lia.
  - vm_compute in Hr. discriminate Hr.
  - vm_compute in Hr. injection Hr as <-. exact (Hp _ eq_refl).
Defined.

(** The bound on the context is needed: from 2^30 lines on, the doubled number
    is not an [int]. *)
Lemma context_overflow :
  text_diff_out (fun _ => true) [] (cstr "a"%string ++ [10] ++ cstr "b"%string ++ [10] ++ cstr "c"%string)
    (cstr "x"%string ++ [10] ++ cstr "b"%string ++ [10] ++ cstr "y"%string) (2^30) false = Fault IntOverflow.
Proof. vm_compute. reflexivity. Qed.
