(* ===== verification/Sheet.v ===== *)
(** * Sheets: the tables of the toolbox

    Models the in-memory table classes of [src/src/libcoopy_core]:
    [TypedSheet<T>] ([include/coopy/TypedSheet.h]), the vector of rows every
    concrete sheet stores its cells in, with its row and column operations;
    [CsvSheet] ([include/coopy/CsvSheet.h], [CsvSheet.cpp]), the sheet the CSV
    reader fills record by record; and the loops [DataSheet] builds on them
    ([include/coopy/DataSheet.h]).

    A [RowRef] or [ColumnRef] is its [index], -1 for the invalid reference.  A
    member function that changes the sheet returns the new sheet next to its C++
    result.  Indexing a vector outside its bounds, and [insert] or [erase] at an
    iterator outside it, is [Fault OutOfBounds]. *)

From S2P Require Import Prelude.

(** ** TypedSheet *)

Record TypedSheet (T : Type) := TypedSheet_ {
  arr : list (list T);
  h : Z;
  w : Z;
  zero : T
}.
Arguments TypedSheet_ {T} arr h w zero.
Arguments arr {T} s : rename.
Arguments h {T} s : rename.
Arguments w {T} s : rename.
Arguments zero {T} s : rename.

(** The invalid [RowRef()] and [ColumnRef()]. *)
Definition no_ref : Z := -1.

Module Typed.
Section Ops.
Context {T : Type}.
Implicit Types (s : TypedSheet T).

Definition clear s : TypedSheet T := TypedSheet_ [] 0 0 (zero s).

Definition resize s (nw nh : Z) (z : T) : TypedSheet T :=
  TypedSheet_ (replicate (Z.to_nat nh) (replicate (Z.to_nat nw) z)) nh nw z.

(** [while (v.size() < n) v.push_back(x)], for [n] that is not negative. *)
Definition pad {A} (n : Z) (x : A) (v : list A) : list A :=
  v ++ replicate (Z.to_nat n - length v) x.

(** A negative size is converted to a huge [size_t] and the loop exhausts the
    memory. *)
Definition nonDestructiveResize s (nw nh : Z) (z : T) : result (TypedSheet T) :=
  if (h s =? nh) && (w s =? nw) then Ok (TypedSheet_ (arr s) (h s) (w s) z) else
  _ ← check (0 <=? nh) OutOfFuel;
  _ ← check ((0 <=? nw) || (nh =? 0)) OutOfFuel;
  let a := pad nh [] (arr s) in
  Ok (TypedSheet_ ((pad nw z <$> take (Z.to_nat nh) a) ++ drop (Z.to_nat nh) a) nh nw z).

Definition cell s (x y : Z) : result T := row ← rd (arr s) y; rd row x.

(** The assignment [cell(x,y) = v] through the returned reference. *)
Definition set_cell s (x y : Z) (v : T) : result (TypedSheet T) :=
  row ← rd (arr s) y; row ← wr row x v; a ← wr (arr s) y row;
  Ok (TypedSheet_ a (h s) (w s) (zero s)).

Definition deleteColumn s (column : Z) : result (bool * TypedSheet T) :=
  let offset := column in
  if offset <? 0 then Ok (false, s)
  else if offset >=? w s then Ok (false, s)
  else a ← mapR (fun row => vec_erase row offset) (arr s);
       Ok (true, TypedSheet_ a (h s) (w s - 1) (zero s)).

Definition insertColumn s (base : Z) : result (Z * TypedSheet T) :=
  let offset := base in
  if offset >=? w s then Ok (no_ref, s)
  else a ← mapR (fun row => if offset >=? 0 then vec_insert row offset (zero s)
                            else Ok (row ++ [zero s])) (arr s);
       Ok (if offset >=? 0 then offset else w s, TypedSheet_ a (h s) (w s + 1) (zero s)).

Definition moveColumn s (src base : Z) : result (Z * TypedSheet T) :=
  let offset := base in
  if offset >=? w s then Ok (no_ref, s) else
  let offset_src := src in
  if (offset_src <? 0) || (offset_src >=? w s) then Ok (no_ref, s) else
  let before := (offset <=? offset_src) && negb (offset =? -1) in
  let offset_del := if before then offset_src + 1 else offset_src in
  let final := if before then offset else offset - 1 in
  a ← mapR (fun row => x ← rd row offset_src;
                       row ← (if offset >=? 0 then vec_insert row offset x else Ok (row ++ [x]));
                       vec_erase row offset_del) (arr s);
  Ok (if offset <? 0 then w s - 1 else final, TypedSheet_ a (h s) (w s) (zero s)).

Definition deleteRow s (src : Z) : result (bool * TypedSheet T) :=
  let offset := src in
  if (offset <? 0) || (offset >=? h s) then Ok (false, s)
  else a ← vec_erase (arr s) offset; Ok (true, TypedSheet_ a (h s - 1) (w s) (zero s)).

Definition insertRow s (base : Z) : result (Z * TypedSheet T) :=
  let offset := base in
  if offset >=? h s then Ok (no_ref, s) else
  a ← (if offset <? 0 then Ok (arr s ++ [[]]) else vec_insert (arr s) offset []);
  let offset := if offset <? 0 then h s else offset in
  row ← rd a offset;
  a ← wr a offset (row ++ replicate (Z.to_nat (w s)) (zero s));
  Ok (offset, TypedSheet_ a (h s + 1) (w s) (zero s)).

Definition moveRow s (src base : Z) : result (Z * TypedSheet T) :=
  let offset1 := src in
  if offset1 >=? h s then Ok (no_ref, s) else
  let offset2 := base in
  if offset2 >=? h s then Ok (no_ref, s) else
  row ← rd (arr s) offset1;
  if negb (offset2 =? -1) then
    let orig := offset1 + (if offset2 <? offset1 then 1 else 0) in
    a ← vec_insert (arr s) offset2 row;
    a ← vec_erase a orig;
    Ok (if offset2 >? offset1 then offset2 - 1 else offset2, TypedSheet_ a (h s) (w s) (zero s))
  else
    a ← vec_erase (arr s ++ [row]) offset1;
    Ok (Zlen a - 1, TypedSheet_ a (h s) (w s) (zero s)).

(** [DataSheet::deleteRows] and [DataSheet::deleteData]: loops over
    [deleteRow], [n] iterations at the same index. *)
Fixpoint deleteRows_loop (n : nat) (start : Z) s : result (bool * TypedSheet T) :=
  match n with
  | O => Ok (true, s)
  | S n => '(ok, s) ← deleteRow s start;
           if ok : bool then deleteRows_loop n start s else Ok (false, s)
  end.
Definition deleteRows s (first last : Z) : result (bool * TypedSheet T) :=
  deleteRows_loop (Z.to_nat (last - first + 1)) first s.

Fixpoint deleteData_loop (n : nat) (offset : Z) s : result (TypedSheet T) :=
  match n with
  | O => Ok s
  | S n => '(_, s) ← deleteRow s offset; deleteData_loop n offset s
  end.
Definition deleteData s (offset : Z) : result (bool * TypedSheet T) :=
  s ← deleteData_loop (Z.to_nat (h s - offset)) offset s; Ok (true, s).
End Ops.
End Typed.

(** ** CsvSheet *)

(** A string cell with its "escaped" (null) mark: [pairCellType]. *)
Definition pcell : Type := list Z * bool.

(** The cells ([EscapedTypedSheet::s]), the record being read, the running
    counts of rows and of fields of the record, and whether every record had the
    same width. *)
Record CsvSheet := CsvSheet_ {
  s : TypedSheet pcell;
  rec : list pcell;
  th : Z;
  tw : Z;
  valid : bool
}.

Module CsvS.
Definition create : CsvSheet := CsvSheet_ (TypedSheet_ [] 0 0 ([], false)) [] 0 0 true.

(** [addField(const char *s, bool)]: the text ends at the first NUL. *)
Fixpoint c_str (t : list Z) : list Z :=
  match t with [] => [] | c :: t => if c =? 0 then [] else c :: c_str t end.

Definition addField (c : CsvSheet) (text : list Z) (escaped : bool) : CsvSheet :=
  CsvSheet_ (s c) (rec c ++ [(c_str text, escaped)]) (th c) (tw c + 1) (valid c).

Definition addRecord (c : CsvSheet) : CsvSheet :=
  let t := s c in
  CsvSheet_ (TypedSheet_ (arr t ++ [rec c]) (th c + 1) (if tw c >? w t then tw c else w t) (zero t))
    [] (th c + 1) 0 (if negb (w t =? tw c) && negb (w t =? 0) then false else valid c).

Definition csv_clear (c : CsvSheet) : CsvSheet :=
  CsvSheet_ (TypedSheet_ [] 0 0 (zero (s c))) [] 0 0 true.

(** The loops of [resize]: [nh] records of [nw] fields, each a default
    [SheetCell], whose text is empty and which is escaped. *)
Definition csv_resize (c : CsvSheet) (nw nh : Z) : CsvSheet :=
  let c := Nat.iter (Z.to_nat nh)
             (fun c => addRecord (Nat.iter (Z.to_nat nw) (fun c => addField c [] true) c))
             (csv_clear c) in
  CsvSheet_ (TypedSheet_ (arr (s c)) nh nw (zero (s c))) (rec c) (th c) (tw c) (valid c).

Definition removeRow (c : CsvSheet) (index : Z) : result (bool * CsvSheet) :=
  a ← vec_erase (arr (s c)) index;
  let t := s c in
  if Zlen a <? h t
  then Ok (true, CsvSheet_ (TypedSheet_ a (Zlen a) (w t) (zero t)) (rec c) (Zlen a) (tw c) (valid c))
  else Ok (false, CsvSheet_ (TypedSheet_ a (h t) (w t) (zero t)) (rec c) (th c) (tw c) (valid c)).

(** [addRow(alt,row)]: the cells of a row of another sheet, as a record. *)
Fixpoint addRow_loop (c alt : CsvSheet) (row i : Z) (n : nat) : result CsvSheet :=
  match n with
  | O => Ok c
  | S n => p ← Typed.cell (s alt) i row;
           addRow_loop (addField c p.1 p.2) alt row (i + 1) n
  end.
Definition addRow (c alt : CsvSheet) (row : Z) : result CsvSheet :=
  c ← addRow_loop c alt row 0 (Z.to_nat (w (s alt))); Ok (addRecord c).

(** [cellString(x,y,escaped)]: in a sheet whose records differ in width a cell
    that was never appended is an empty string ([x] is compared as a [size_t]). *)
Definition cellString (c : CsvSheet) (x y : Z) : result pcell :=
  if valid c then Typed.cell (s c) x y
  else row ← rd (arr (s c)) y;
       if (0 <=? x) && (x <? Zlen row) then Typed.cell (s c) x y else Ok ([], false).

Definition set_cellString (c : CsvSheet) (x y : Z) (str : list Z) (escaped : bool) :
    result CsvSheet :=
  t ← Typed.set_cell (s c) x y (str, escaped);
  Ok (CsvSheet_ t (rec c) (th c) (tw c) (valid c)).

(** The members inherited from [EscapedTypedSheet]: they act on [s] alone. *)
Definition lift {A} (f : TypedSheet pcell -> result (A * TypedSheet pcell)) (c : CsvSheet) :
    result (A * CsvSheet) :=
  '(a, t) ← f (s c); Ok (a, CsvSheet_ t (rec c) (th c) (tw c) (valid c)).
Definition csv_deleteRow (c : CsvSheet) (src : Z) := lift (fun t => Typed.deleteRow t src) c.
Definition csv_insertRow (c : CsvSheet) (base : Z) := lift (fun t => Typed.insertRow t base) c.
End CsvS.
