(* ===== verification/SheetSpec.v ===== *)
(** * Sheets: shape, and what moving a row or a column does

    The row and column operations of [TypedSheet] keep a sheet rectangular and
    never step outside its vectors, whatever references they are given; moving a
    row or a column is the relocation of one element, and the returned reference
    is its new place; a [CsvSheet] filled record by record holds those records. *)

From S2P Require Import Prelude Sheet.

(** ** Specification *)

Section Spec.
Context {T : Type}.

(** A rectangular sheet whose [h] and [w] are the size of its vectors. *)
Definition sheet_ok (t : TypedSheet T) : Prop :=
  h t = Zlen (arr t) /\ 0 <= w t /\ Forall (fun row => Zlen row = w t) (arr t).

(** The operations that change the shape of a sheet, with their arguments. *)
Inductive sheet_op : Type :=
| OpClear
| OpResize (nw nh : Z) (z : T)
| OpGrow (dw dh : Z) (z : T)
| OpDeleteColumn (column : Z)
| OpInsertColumn (base : Z)
| OpMoveColumn (src base : Z)
| OpDeleteRow (src : Z)
| OpInsertRow (base : Z)
| OpMoveRow (src base : Z)
| OpDeleteRows (first last : Z)
| OpDeleteData (offset : Z).

Definition drop_ref {A} (r : result (A * TypedSheet T)) : result (TypedSheet T) :=
  '(_, t) ← r; Ok t.

Definition run_op (o : sheet_op) (t : TypedSheet T) : result (TypedSheet T) :=
  match o with
  | OpClear => Ok (Typed.clear t)
  | OpResize nw nh z => Ok (Typed.resize t nw nh z)
  | OpGrow dw dh z => Typed.nonDestructiveResize t (w t + dw) (h t + dh) z
  | OpDeleteColumn c => drop_ref (Typed.deleteColumn t c)
  | OpInsertColumn b => drop_ref (Typed.insertColumn t b)
  | OpMoveColumn src b => drop_ref (Typed.moveColumn t src b)
  | OpDeleteRow src => drop_ref (Typed.deleteRow t src)
  | OpInsertRow b => drop_ref (Typed.insertRow t b)
  | OpMoveRow src b => drop_ref (Typed.moveRow t src b)
  | OpDeleteRows first last => drop_ref (Typed.deleteRows t first last)
  | OpDeleteData offset => drop_ref (Typed.deleteData t offset)
  end.

Fixpoint run_ops (os : list sheet_op) (t : TypedSheet T) : result (TypedSheet T) :=
  match os with [] => Ok t | o :: os => t ← run_op o t; run_ops os t end.

(** What the operations need of their arguments: sizes that are not negative,
    destination references that are valid or the invalid reference -1, and a
    valid row to move ([moveRow] does not check it).  A reference may be larger
    than the sheet. *)
Definition op_legal (o : sheet_op) : Prop :=
  match o with
  | OpResize nw nh _ => 0 <= nw /\ 0 <= nh
  | OpGrow dw dh _ => 0 <= dw /\ 0 <= dh
  | OpMoveColumn _ b => -1 <= b
  | OpMoveRow src b => 0 <= src /\ -1 <= b
  | _ => True
  end.

(** [l] with its element [i] taken out and put back as element [j]. *)
Definition relocate {A} (i j : nat) (l : list A) : list A :=
  match l !! i with
  | Some x => let l1 := take i l ++ drop (S i) l in take j l1 ++ x :: drop j l1
  | None => l
  end.

(** Where an element at [src] comes to stand when it is moved before [base] in
    a sequence of [n], or to the end for the invalid reference. *)
Definition dest_index (n src base : Z) : Z :=
  if base =? -1 then n - 1 else if src <? base then base - 1 else base.
End Spec.

(** ** Relocation *)

Section Relocate.
Context {A : Type}.
Implicit Types (l : list A).

Lemma relocate_split (a b : list A) (x : A) (j : nat) :
  relocate (length a) j (a ++ x :: b) = take j (a ++ b) ++ x :: drop j (a ++ b).
Proof.
  unfold relocate. rewrite list_lookup_middle by done.
  rewrite take_app_length, (drop_app_ge a (x :: b)) by lia.
  by replace (S (length a) - length a)%nat with 1%nat by lia.
Qed.

(** Copy to an earlier place, drop the original, now one further. *)
Lemma insert_erase_before l (o i : nat) (x : A) :
  (o <= i)%nat -> l !! i = Some x ->
  let l1 := take o l ++ x :: drop o l in
  take (S i) l1 ++ drop (S (S i)) l1 = relocate i o l.
Proof.
  intros Ho Hx. cbn. rewrite <- (take_drop_middle l i x Hx) at 1 2 3 4 5.
  pose proof (lookup_lt_Some _ _ _ Hx) as Hlt.
  set (a := take i l). set (b := drop (S i) l).
  assert (length a = i) as Ha by (unfold a; rewrite length_take; lia).
  rewrite <- Ha at 3. rewrite relocate_split.
  rewrite !(take_app_le a) by lia. rewrite !(drop_app_le a) by lia.
  assert (length (take o a) = o) by (rewrite length_take; lia).
  assert (length (drop o a) = i - o)%nat by (rewrite length_drop; lia).
  rewrite (take_app_ge (take o a)) by lia. rewrite (drop_app_ge (take o a)) by lia.
  rewrite H. replace (S i - o)%nat with (S (i - o)) by lia.
  replace (S (S i) - o)%nat with (S (S (i - o))) by lia. cbn.
  rewrite take_app_length' by lia. rewrite (drop_app_ge (drop o a)) by lia.
  replace (S (i - o) - length (drop o a))%nat with 1%nat by lia. cbn.
  by rewrite <- app_assoc.
Qed.

(** Copy to a later place, drop the original. *)
Lemma insert_erase_after l (o i : nat) (x : A) :
  (i < o)%nat -> (o <= length l)%nat -> l !! i = Some x ->
  let l1 := take o l ++ x :: drop o l in
  take i l1 ++ drop (S i) l1 = relocate i (o - 1) l.
Proof.
  intros Ho Hlen Hx. cbn. pose proof (lookup_lt_Some _ _ _ Hx) as Hlt.
  rewrite take_app_le by (rewrite length_take; lia).
  rewrite drop_app_le by (rewrite length_take; lia).
  rewrite take_take, Nat.min_l by lia. rewrite skipn_firstn_comm.
  unfold relocate. rewrite Hx. cbn.
  assert (length (take i l) = i) as Hi by (rewrite length_take; lia).
  rewrite take_app_ge, drop_app_ge, Hi, drop_drop by lia.
  replace (o - 1 - i)%nat with (o - S i)%nat by lia.
  replace (S i + (o - S i))%nat with o by lia. by rewrite app_assoc.
Qed.

Lemma insert_erase_same l (i : nat) (x : A) :
  l !! i = Some x ->
  let l1 := take i l ++ x :: drop i l in take i l1 ++ drop (S i) l1 = relocate i i l.
Proof.
  intros Hx. cbn. pose proof (lookup_lt_Some _ _ _ Hx) as Hlt.
  assert (length (take i l) = i) as Hi by (rewrite length_take; lia).
  rewrite take_app_length' by done. rewrite drop_app_ge by lia.
  replace (S i - length (take i l))%nat with 1%nat by lia. cbn. rewrite drop_0, take_drop.
  unfold relocate. rewrite Hx. rewrite take_app_length', drop_app_length' by done.
  by rewrite take_drop_middle.
Qed.

Lemma append_erase l (i : nat) (x : A) :
  l !! i = Some x ->
  take i (l ++ [x]) ++ drop (S i) (l ++ [x]) = relocate i (length l - 1) l.
Proof.
  intros Hx. pose proof (lookup_lt_Some _ _ _ Hx) as Hlt.
  pose proof (insert_erase_after l (length l) i x Hlt (le_n _) Hx) as H. cbn in H.
  by rewrite firstn_all, drop_all in H.
Qed.

Lemma length_relocate i j l : (j < length l)%nat -> length (relocate i j l) = length l.
Proof.
  intros Hj. unfold relocate. destruct (l !! i) as [x|] eqn:Hx; [|done].
  apply lookup_lt_Some in Hx. cbn. rewrite length_app. cbn.
  rewrite length_take, length_drop, length_app, length_take, length_drop. lia.
Qed.

Lemma Forall_relocate (P : A -> Prop) i j l : Forall P l -> Forall P (relocate i j l).
Proof.
  intros H. unfold relocate. destruct (l !! i) as [x|] eqn:Hx; [|done]. cbn.
  apply Forall_app; split; [|constructor]; [apply Forall_take| |apply Forall_drop].
  1,3: apply Forall_app; split; [by apply Forall_take|by apply Forall_drop].
  by eapply Forall_lookup_1.
Qed.
End Relocate.

(** ** The operations on a rectangular sheet *)

Section Ops.
Context {T : Type}.
Implicit Types (t : TypedSheet T).

Ltac Zbool :=
  repeat match goal with
  | |- context [?a <? ?b] => destruct (Z.ltb_spec a b); try lia
  | |- context [?a <=? ?b] => destruct (Z.leb_spec a b); try lia
  | |- context [?a >=? ?b] => rewrite (Z.geb_leb a b)
  | |- context [?a >? ?b] => rewrite (Z.gtb_ltb a b)
  | |- context [?a =? ?b] => destruct (Z.eqb_spec a b); try lia
  end; simpl.

(** Insertion of a copy and removal of the original, in one row or in the
    vector of rows: the shared core of [moveColumn] and [moveRow]. *)
Lemma insert_erase_ok {A} (l : list A) (src base : Z) (x : A) (orig : Z) :
  0 <= src < Zlen l -> 0 <= base < Zlen l -> l !! Z.to_nat src = Some x ->
  (base < src /\ orig = src + 1 \/ base = src /\ (orig = src \/ orig = src + 1) \/
   src < base /\ orig = src) ->
  (a ← vec_insert l base x; vec_erase a orig) =
  Ok (relocate (Z.to_nat src) (Z.to_nat (dest_index (Zlen l) src base)) l).
Proof.
  intros Hs Hb Hx Ho. rewrite vec_insert_ok, bind_Ok by lia.
  rewrite vec_erase_ok by (rewrite length_app; cbn; rewrite length_take, length_drop; lia).
  f_equal. unfold dest_index. Zbool.
  - destruct Ho as [?|[?|[_ ->]]]; [lia..|].
    rewrite (insert_erase_after l _ _ x) by (done || lia). f_equal. lia.
  - destruct Ho as [[_ ->]|[[-> [->| ->]]|?]]; [| | |lia].
    + replace (Z.to_nat (src + 1)) with (S (Z.to_nat src)) by lia.
      by rewrite (insert_erase_before l _ _ x) by (done || lia).
    + by rewrite insert_erase_same.
    + replace (Z.to_nat (src + 1)) with (S (Z.to_nat src)) by lia.
      by rewrite (insert_erase_before l _ _ x) by (done || lia).
Qed.

Lemma append_erase_ok {A} (l : list A) (src : Z) (x : A) :
  0 <= src < Zlen l -> l !! Z.to_nat src = Some x ->
  vec_erase (l ++ [x]) src =
  Ok (relocate (Z.to_nat src) (Z.to_nat (dest_index (Zlen l) src (-1))) l).
Proof.
  intros Hs Hx. rewrite vec_erase_ok by (rewrite length_app; cbn; lia). f_equal.
  rewrite append_erase by done. f_equal. unfold dest_index. Zbool; lia.
Qed.

Lemma rd_in {A} (l : list A) (i : Z) :
  0 <= i < Zlen l -> exists x, rd l i = Ok x /\ l !! Z.to_nat i = Some x.
Proof.
  intros Hi. destruct (lookup_lt_is_Some_2 l (Z.to_nat i)) as [x Hx]; [lia|].
  exists x. split; [|done]. apply rd_ok; [lia|done].
Qed.

Lemma moveRow_ok t (src base : Z) :
  sheet_ok t -> 0 <= src < h t -> -1 <= base < h t ->
  let j := dest_index (h t) src base in
  Typed.moveRow t src base =
  Ok (j, TypedSheet_ (relocate (Z.to_nat src) (Z.to_nat j) (arr t)) (h t) (w t) (zero t)).
Proof.
  intros (Hh & _ & _) Hs Hb j. unfold Typed.moveRow.
  rewrite !Z.geb_leb, !(proj2 (Z.leb_gt _ _)) by lia.
  destruct (rd_in (arr t) src) as (row & -> & Hrow); [lia|]. rewrite bind_Ok.
  assert (0 <= j < Zlen (arr t)) as Hj by (unfold j, dest_index; Zbool).
  destruct (Z.eqb_spec base (-1)) as [->|Hne]; cbn [negb].
  - rewrite append_erase_ok, bind_Ok by (done || lia). rewrite <- Hh. fold j.
    rewrite length_relocate by lia. do 2 f_equal. subst j. unfold dest_index. Zbool; lia.
  - set (orig := src + _).
    pose proof (insert_erase_ok (arr t) src base row orig) as H. rewrite <- Hh in H. fold j in H.
    destruct (vec_insert (arr t) base row) as [a|e]; simpl in H |- *.
    + rewrite H by (try done; unfold orig; Zbool; lia). simpl. do 2 f_equal.
      unfold j, dest_index. Zbool; lia.
    + discriminate H; try done; unfold orig; Zbool; lia.
Qed.

Lemma moveColumn_ok t (src base : Z) :
  sheet_ok t -> 0 <= src < w t -> -1 <= base < w t ->
  let j := dest_index (w t) src base in
  Typed.moveColumn t src base =
  Ok (j, TypedSheet_ (relocate (Z.to_nat src) (Z.to_nat j) <$> arr t) (h t) (w t) (zero t)).
Proof.
  intros (_ & _ & Hr) Hs Hb j. unfold Typed.moveColumn.
  rewrite (Z.geb_leb base), (proj2 (Z.leb_gt _ _)) by lia.
  rewrite (proj2 (Z.ltb_ge src 0)) by lia.
  rewrite (Z.geb_leb src), (proj2 (Z.leb_gt (w t) src)) by lia. cbn [orb].
  erewrite mapR_ok with (g := relocate (Z.to_nat src) (Z.to_nat j)).
  - rewrite bind_Ok. do 2 f_equal. unfold j, dest_index. Zbool; lia.
  - eapply Forall_impl; [|exact Hr]. intros row Hrow. cbn beta in Hrow |- *.
    destruct (rd_in row src) as (x & -> & Hx); [lia|]. rewrite bind_Ok.
    unfold j. rewrite <- Hrow.
    destruct (Z.eqb_spec base (-1)) as [->|Hne].
    + cbn [Z.geb Z.compare negb andb]. rewrite andb_false_r, bind_Ok.
      by rewrite append_erase_ok by (done || lia).
    + rewrite Z.geb_leb, (proj2 (Z.leb_le 0 base)) by lia. cbn [negb]. rewrite andb_true_r.
      rewrite (insert_erase_ok row src base x) by (try done; try lia; Zbool; lia). done.
Qed.

Lemma deleteRow_ok t (src : Z) :
  sheet_ok t -> 0 <= src < h t ->
  Typed.deleteRow t src =
  Ok (true, TypedSheet_ (take (Z.to_nat src) (arr t) ++ drop (S (Z.to_nat src)) (arr t))
              (h t - 1) (w t) (zero t)).
Proof.
  intros (Hh & _ & _) Hs. unfold Typed.deleteRow. Zbool. by rewrite vec_erase_ok by lia.
Qed.

Lemma insertRow_ok t (base : Z) :
  sheet_ok t -> base < h t ->
  let j := if base <? 0 then h t else base in
  Typed.insertRow t base =
  Ok (j, TypedSheet_ (take (Z.to_nat j) (arr t) ++
                      replicate (Z.to_nat (w t)) (zero t) :: drop (Z.to_nat j) (arr t))
           (h t + 1) (w t) (zero t)).
Proof.
  intros (Hh & _ & _) Hb j. unfold Typed.insertRow.
  rewrite Z.geb_leb, (proj2 (Z.leb_gt _ _)) by lia.
  assert (0 <= j <= Zlen (arr t)) as Hj by (unfold j; Zbool).
  assert ((if base <? 0 then Ok (arr t ++ [[]]) else vec_insert (arr t) base []) =
          Ok (take (Z.to_nat j) (arr t) ++ [] :: drop (Z.to_nat j) (arr t))) as ->.
  { unfold j in *. Zbool; [|by rewrite vec_insert_ok by lia].
    rewrite firstn_all2, skipn_all2 by lia. done. }
  rewrite bind_Ok. fold j.
  assert (length (take (Z.to_nat j) (arr t)) = Z.to_nat j) as Hlen by (rewrite length_take; lia).
  rewrite (rd_ok _ _ []) by (lia || by apply list_lookup_middle).
  rewrite bind_Ok, wr_ok by (rewrite length_app; cbn; lia). rewrite bind_Ok. cbn [app].
  by rewrite insert_app_r_alt, Hlen, Nat.sub_diag by lia.
Qed.

Lemma deleteColumn_ok t (c : Z) :
  sheet_ok t -> 0 <= c < w t ->
  Typed.deleteColumn t c =
  Ok (true, TypedSheet_ ((fun r => take (Z.to_nat c) r ++ drop (S (Z.to_nat c)) r) <$> arr t)
              (h t) (w t - 1) (zero t)).
Proof.
  intros (_ & _ & Hr) Hc. unfold Typed.deleteColumn. Zbool.
  erewrite mapR_ok; [done|]. eapply Forall_impl; [|exact Hr]. intros row Hrow.
  apply vec_erase_ok. cbn beta in Hrow. lia.
Qed.

Lemma insertColumn_ok t (base : Z) :
  sheet_ok t -> base < w t ->
  let j := if base <? 0 then w t else base in
  Typed.insertColumn t base =
  Ok (j, TypedSheet_ ((fun r => take (Z.to_nat j) r ++ zero t :: drop (Z.to_nat j) r) <$> arr t)
           (h t) (w t + 1) (zero t)).
Proof.
  intros (_ & _ & Hr) Hb j. unfold Typed.insertColumn.
  rewrite Z.geb_leb, (proj2 (Z.leb_gt _ _)) by lia.
  erewrite mapR_ok with
    (g := fun r => take (Z.to_nat j) r ++ zero t :: drop (Z.to_nat j) r).
  - rewrite bind_Ok. do 2 f_equal. unfold j. Zbool; lia.
  - eapply Forall_impl; [|exact Hr]. intros row Hrow. cbn beta in Hrow |- *.
    unfold j. Zbool; [|by rewrite vec_insert_ok by lia].
    rewrite firstn_all2, skipn_all2 by lia. done.
Qed.

(** ** Shape *)

Lemma sheet_ok_rows t (a : list (list T)) (n : Z) :
  sheet_ok t -> n = Zlen a -> Forall (fun row => Zlen row = w t) a ->
  sheet_ok (TypedSheet_ a n (w t) (zero t)).
Proof. intros (_ & ? & _) ? ?. by split_and!. Qed.

Lemma sheet_ok_columns t (f : list T -> list T) (nw : Z) :
  sheet_ok t -> 0 <= nw -> (forall r, Zlen r = w t -> Zlen (f r) = nw) ->
  sheet_ok (TypedSheet_ (f <$> arr t) (h t) nw (zero t)).
Proof.
  intros (Hh & _ & Hr) Hn Hf. split_and!; simpl; [by rewrite length_fmap|done|].
  apply Forall_fmap. eapply Forall_impl; [|exact Hr]. intros r Hr'. by apply Hf.
Qed.

Definition preserves {A} (r : result (A * TypedSheet T)) : Prop :=
  exists a t', r = Ok (a, t') /\ sheet_ok t'.

Lemma deleteRow_preserves t src : sheet_ok t -> preserves (Typed.deleteRow t src).
Proof.
  intros Hok. destruct (decide (0 <= src < h t)) as [Hs|Hs].
  - rewrite deleteRow_ok by done. eexists _, _. split; [done|].
    pose proof Hok as (Hh & _ & Hr). apply sheet_ok_rows; [done| |].
    + rewrite length_app, length_take, length_drop. lia.
    + apply Forall_app. split; [by apply Forall_take|by apply Forall_drop].
  - exists false, t. split; [|done]. unfold Typed.deleteRow. Zbool; done.
Qed.

Lemma insertRow_preserves t base : sheet_ok t -> preserves (Typed.insertRow t base).
Proof.
  intros Hok. destruct (decide (base < h t)) as [Hs|Hs].
  - rewrite insertRow_ok by done. eexists _, _. split; [done|].
    pose proof Hok as (Hh & Hw & Hr). apply sheet_ok_rows; [done| |].
    + rewrite length_app. cbn. rewrite length_take, length_drop. Zbool; lia.
    + apply Forall_app. split; [by apply Forall_take|]. constructor; [|by apply Forall_drop].
      rewrite length_replicate. lia.
  - exists no_ref, t. split; [|done]. unfold Typed.insertRow. Zbool; done.
Qed.

Lemma moveRow_preserves t src base :
  sheet_ok t -> 0 <= src -> -1 <= base -> preserves (Typed.moveRow t src base).
Proof.
  intros Hok Hsrc Hbase. destruct (decide (src < h t /\ base < h t)) as [[Hs Hb]|Hs].
  - rewrite moveRow_ok by (done || lia). eexists _, _. split; [done|].
    pose proof Hok as (Hh & _ & Hr). apply sheet_ok_rows; [done| |by apply Forall_relocate].
    rewrite length_relocate; [done|]. unfold dest_index. Zbool; lia.
  - exists no_ref, t. split; [|done]. unfold Typed.moveRow.
    destruct (Z.geb_spec src (h t)); [done|]. destruct (Z.geb_spec base (h t)); [done|lia].
Qed.

Lemma deleteColumn_preserves t c : sheet_ok t -> preserves (Typed.deleteColumn t c).
Proof.
  intros Hok. destruct (decide (0 <= c < w t)) as [Hs|Hs].
  - rewrite deleteColumn_ok by done. eexists _, _. split; [done|].
    apply sheet_ok_columns; [done|lia|]. intros r Hr.
    rewrite length_app, length_take, length_drop. lia.
  - exists false, t. split; [|done]. unfold Typed.deleteColumn. Zbool; done.
Qed.

Lemma insertColumn_preserves t base : sheet_ok t -> preserves (Typed.insertColumn t base).
Proof.
  intros Hok. destruct (decide (base < w t)) as [Hs|Hs].
  - rewrite insertColumn_ok by done. eexists _, _. split; [done|].
    pose proof Hok as (_ & Hw & _).
    apply sheet_ok_columns; [done|lia|]. intros r Hr.
    rewrite length_app. cbn. rewrite length_take, length_drop. Zbool; lia.
  - exists no_ref, t. split; [|done]. unfold Typed.insertColumn. Zbool; done.
Qed.

Lemma moveColumn_preserves t src base :
  sheet_ok t -> -1 <= base -> preserves (Typed.moveColumn t src base).
Proof.
  intros Hok Hbase. destruct (decide (0 <= src < w t /\ base < w t)) as [[Hs Hb]|Hs].
  - rewrite moveColumn_ok by (done || lia). eexists _, _. split; [done|].
    apply sheet_ok_columns; [done|lia|]. intros r Hr.
    rewrite length_relocate; [done|]. unfold dest_index. Zbool; lia.
  - exists no_ref, t. split; [|done]. unfold Typed.moveColumn.
    destruct (Z.geb_spec base (w t)); [done|].
    destruct (Z.ltb_spec src 0), (Z.geb_spec src (w t)); simpl; done || lia.
Qed.

Lemma deleteRows_preserves t n start : sheet_ok t -> preserves (Typed.deleteRows_loop n start t).
Proof.
  revert t. induction n as [|n IH]; intros t Hok; simpl; [by exists true, t|].
  destruct (deleteRow_preserves t start Hok) as (b & t' & -> & Hok'). simpl.
  destruct b; [by apply IH|by exists false, t'].
Qed.

Lemma deleteData_preserves t n offset :
  sheet_ok t -> exists t', Typed.deleteData_loop n offset t = Ok t' /\ sheet_ok t'.
Proof.
  revert t. induction n as [|n IH]; intros t Hok; simpl; [by exists t|].
  destruct (deleteRow_preserves t offset Hok) as (b & t' & -> & Hok'). simpl. by apply IH.
Qed.

Lemma grow_preserves t dw dh z :
  sheet_ok t -> 0 <= dw -> 0 <= dh ->
  exists t', Typed.nonDestructiveResize t (w t + dw) (h t + dh) z = Ok t' /\ sheet_ok t'.
Proof.
  intros (Hh & Hw & Hr) Hdw Hdh. unfold Typed.nonDestructiveResize.
  destruct (_ && _) eqn:E.
  - apply andb_true_iff in E as [?%Z.eqb_eq ?%Z.eqb_eq]. eexists. split; [done|]. by split_and!.
  - rewrite !(proj2 (Z.leb_le _ _)) by lia. simpl. eexists. split; [done|].
    set (a := Typed.pad _ _ _). assert (length a = Z.to_nat (h t + dh)) as Ha.
    { unfold a, Typed.pad. rewrite length_app, length_replicate. lia. }
    rewrite firstn_all2, skipn_all2, app_nil_r by lia.
    split_and!; simpl; [rewrite length_fmap; lia|lia|].
    assert (Forall (fun r => Zlen r <= w t) a) as Hle.
    { unfold a, Typed.pad. apply Forall_app. split.
      - eapply Forall_impl; [|exact Hr]. cbn. lia.
      - apply Forall_replicate. cbn. lia. }
    apply Forall_fmap. eapply Forall_impl; [|exact Hle]. cbn beta. intros r Hr'.
    unfold compose, Typed.pad. rewrite length_app, length_replicate. lia.
Qed.

Lemma preserves_drop {A} (r : result (A * TypedSheet T)) :
  preserves r -> exists t', drop_ref r = Ok t' /\ sheet_ok t'.
Proof. intros (a & t' & -> & Hok). by exists t'. Qed.

Create HintDb sheet.
#[local] Hint Resolve preserves_drop deleteRow_preserves insertRow_preserves moveRow_preserves
  deleteColumn_preserves insertColumn_preserves moveColumn_preserves deleteRows_preserves
  grow_preserves : sheet.

Lemma run_op_preserves (o : sheet_op) t :
  sheet_ok t -> op_legal o -> exists t', run_op o t = Ok t' /\ sheet_ok t'.
Proof.
  intros Hok Ho. destruct o; simpl in *; destruct_and?; unfold Typed.deleteRows;
    try solve [eauto with sheet].
  - eexists. split; [done|]. by split_and!.
  - eexists. split; [done|]. split_and!; simpl; [rewrite length_replicate; lia|done|].
    apply Forall_replicate. rewrite length_replicate. lia.
  - unfold Typed.deleteData.
    destruct (deleteData_preserves t (Z.to_nat (h t - offset)) offset Hok) as (t' & -> & Hok').
    by exists t'.
Qed.
End Ops.

(** ** Records *)

(** What reading [rows] record by record leaves in a sheet. *)
Definition add_fields (c : CsvSheet) (row : list pcell) : CsvSheet :=
  foldl (fun c p => CsvS.addField c p.1 p.2) c row.
Definition add_records (c : CsvSheet) (rows : list (list pcell)) : CsvSheet :=
  foldl (fun c row => CsvS.addRecord (add_fields c row)) c rows.

(** No text of the cells contains a NUL. *)
Definition no_nul (l : list Z) : Prop := Forall (fun c => c <> 0) l.

Lemma c_str_no_nul l : no_nul l -> CsvS.c_str l = l.
Proof.
  induction 1 as [|c l Hc _ IH]; simpl; [done|].
  by rewrite (proj2 (Z.eqb_neq c 0)), IH by done.
Qed.

Lemma add_fields_eq c row :
  Forall (fun p => no_nul p.1) row ->
  add_fields c row = CsvSheet_ (s c) (rec c ++ row) (th c) (tw c + Zlen row) (valid c).
Proof.
  intros H. revert c. induction H as [|[text e] row Hp _ IH]; intros c; simpl.
  - rewrite app_nil_r, Z.add_0_r. by destruct c.
  - unfold add_fields in *. simpl. rewrite IH. unfold CsvS.addField; simpl.
    rewrite c_str_no_nul, <- app_assoc by done. f_equal. simpl. lia.
Qed.

(** A sheet that holds [rows], all [n] wide, between records. *)
Definition holds (rows : list (list pcell)) (n : Z) (c : CsvSheet) : Prop :=
  exists z, c = CsvSheet_ (TypedSheet_ rows (Zlen rows) n z) [] (Zlen rows) 0 true.

Lemma add_record_holds rows n row c :
  holds rows n c -> (rows = [] -> n = 0) -> Zlen row <> 0 -> (rows <> [] -> Zlen row = n) ->
  Forall (fun p => no_nul p.1) row ->
  holds (rows ++ [row]) (Zlen row) (CsvS.addRecord (add_fields c row)).
Proof.
  intros (z & ->) Hn0 Hrow Hn Hnul. rewrite add_fields_eq by done.
  unfold CsvS.addRecord; simpl. exists z.
  assert (rows = [] /\ n = 0 \/ n = Zlen row) as Hcase.
  { destruct rows as [|r rows]; [left; auto|right; symmetry; by apply Hn]. }
  rewrite length_app, Nat2Z.inj_add, !Z.add_0_l. cbn [length]. f_equal.
  - f_equal. rewrite Z.gtb_ltb. destruct (Z.ltb_spec n (Zlen row)); [done|lia].
  - destruct (Z.eqb_spec n (Zlen row)), (Z.eqb_spec n 0); simpl; done || lia.
Qed.

Lemma add_records_holds rows rows' n m c :
  holds rows n c -> (rows = [] -> n = 0) -> (rows <> [] -> n = m) -> m <> 0 ->
  Forall (fun row => Zlen row = m) rows' -> Forall (Forall (fun p => no_nul p.1)) rows' ->
  exists n', holds (rows ++ rows') n' (add_records c rows') /\ (rows ++ rows' <> [] -> n' = m).
Proof.
  intros Hh Hn0 Hnm Hm Hlen Hnul. revert rows n c Hh Hn0 Hnm.
  induction rows' as [|row rows' IH]; intros rows n c Hh Hn0 Hnm.
  { rewrite app_nil_r. eauto. }
  apply Forall_cons_1 in Hlen as [Hl Hlen]. apply Forall_cons_1 in Hnul as [Hu Hnul].
  unfold add_records in *. simpl. change (row :: rows') with ([row] ++ rows').
  rewrite (app_assoc rows). eapply (IH Hlen Hnul (rows ++ [row]) m).
  - rewrite <- Hl. apply (add_record_holds rows n); try done; [lia|].
    intros Hne. by rewrite Hl, Hnm.
  - intros E. by apply app_eq_nil in E as [_ ?].
  - done.
Qed.

(** ** Claims *)

(** C33. Any sequence of row and column operations, with references that may lie
    outside the sheet (moving a row needs a row number that is not negative),
    runs without stepping outside a vector and keeps the sheet rectangular: its
    height is the number of its rows and every row has its width. *)
Theorem sheet_ops_rectangular {T} (os : list (sheet_op (T:=T))) (t : TypedSheet T) :
  sheet_ok t -> Forall op_legal os -> exists t', run_ops os t = Ok t' /\ sheet_ok t'.
Proof.
  intros Hok Hos. revert t Hok. induction Hos as [|o os Ho _ IH]; intros t Hok; simpl; [eauto|].
  destruct (run_op_preserves o t Hok Ho) as (t1 & -> & Hok1). rewrite bind_Ok. by apply IH.
Qed.

Lemma sheet_ops_rectangular_witness :
  exists t', run_ops [OpInsertColumn (-1); OpMoveRow 2 0; OpDeleteRow 7; OpMoveColumn 0 (-1);
                      OpGrow 1 1 9; OpDeleteRows 0 1]
               (TypedSheet_ [[1; 2]; [3; 4]; [5; 6]] 3 2 0) = Ok t' /\ sheet_ok t'.
Proof.
  apply (sheet_ops_rectangular
           [OpInsertColumn (-1); OpMoveRow 2 0; OpDeleteRow 7; OpMoveColumn 0 (-1);
            OpGrow 1 1 9; OpDeleteRows 0 1] (TypedSheet_ [[1; 2]; [3; 4]; [5; 6]] 3 2 0)).
  - split_and!; simpl; [lia|lia|]. repeat constructor.
  - repeat (constructor; simpl; try lia).
Defined.

(** Moving a row (or a column) before another, or behind all the others for
    the invalid reference, relocates exactly that row (in every row, that cell)
    and nothing else, and the returned reference is the place it has afterwards:
    for a rectangular sheet and references inside it. *)
Lemma sheet_move_spec {T} (t : TypedSheet T) (src base : Z) :
  sheet_ok t -> 0 <= src -> -1 <= base ->
  (src < h t -> base < h t ->
   let j := dest_index (h t) src base in
   Typed.moveRow t src base =
   Ok (j, TypedSheet_ (relocate (Z.to_nat src) (Z.to_nat j) (arr t)) (h t) (w t) (zero t))) /\
  (src < w t -> base < w t ->
   let j := dest_index (w t) src base in
   Typed.moveColumn t src base =
   Ok (j, TypedSheet_ (relocate (Z.to_nat src) (Z.to_nat j) <$> arr t) (h t) (w t) (zero t))).
Proof.
  intros Hok Hs Hb. split; intros Hs' Hb'.
  - apply moveRow_ok; done || lia.
  - apply moveColumn_ok; done || lia.
Qed.

(** [moveRow] of the invalid reference reads outside the sheet. *)
Lemma moveRow_invalid {T} (t : TypedSheet T) (base : Z) :
  0 <= h t -> -1 <= base < h t -> Typed.moveRow t no_ref base = Fault OutOfBounds.
Proof.
  intros Hh Hb. unfold Typed.moveRow, no_ref.
  by rewrite !Z.geb_leb, !(proj2 (Z.leb_gt _ _)) by lia.
Qed.

(** The row operations [CsvSheet] inherits change the height of the cells but not
    the count [th] the next record is numbered with: after deleting a row and
    adding a record the height is one more than the number of rows, and reading
    the last row of the sheet steps outside it. *)
Lemma csv_height_after_delete :
  let c := add_records CsvS.create [[([97], false)]; [([98], false)]] in
  exists c', CsvS.csv_deleteRow c 0 = Ok (true, c') /\
    let c2 := CsvS.addRecord (add_fields c' [([99], false)]) in
    h (s c2) = 3 /\ length (arr (s c2)) = 2%nat /\
    CsvS.cellString c2 0 (h (s c2) - 1) = Fault OutOfBounds.
Proof. eexists. split; [reflexivity|]. vm_compute. done. Qed.

(** ** Reading cells *)

(** The cell of a sheet, or the default outside. *)
Definition cell_at (c : CsvSheet) (x y : Z) : pcell :=
  match CsvS.cellString c x y with Ok v => v | Fault _ => zero (s c) end.

Lemma row_cells c y row :
  sheet_ok (s c) -> arr (s c) !! y = Some row ->
  row = (fun x => cell_at c x (Z.of_nat y)) <$> seqZ 0 (w (s c)) /\
  forall x, 0 <= x < w (s c) -> CsvS.cellString c x (Z.of_nat y) = Ok (cell_at c x (Z.of_nat y)).
Proof.
  intros (Hh & Hw & Hf) Hy. pose proof (Forall_lookup_1 _ _ _ _ Hf Hy) as Hl. cbn beta in Hl.
  assert (forall x v, row !! x = Some v -> CsvS.cellString c (Z.of_nat x) (Z.of_nat y) = Ok v) as Hc.
  { intros x v Hx. pose proof (lookup_lt_Some _ _ _ Hx) as Hlt.
    assert (Typed.cell (s c) (Z.of_nat x) (Z.of_nat y) = Ok v) as Hcell.
    { unfold Typed.cell. rewrite (rd_ok _ _ row), bind_Ok by (lia || by rewrite Nat2Z.id).
      apply rd_ok; [lia|by rewrite Nat2Z.id]. }
    unfold CsvS.cellString. rewrite Hcell. destruct (valid c); [done|].
    rewrite (rd_ok _ _ row), bind_Ok by (lia || by rewrite Nat2Z.id).
    by rewrite (proj2 (Z.leb_le _ _)), (proj2 (Z.ltb_lt _ _)) by lia. }
  split.
  - apply list_eq. intros i. rewrite list_lookup_fmap. destruct (row !! i) as [v|] eqn:E.
    + pose proof (lookup_lt_Some _ _ _ E) as Hlt. rewrite lookup_seqZ_lt by lia. cbn.
      unfold cell_at. by rewrite Z.add_0_l, (Hc _ _ E).
    + apply lookup_ge_None in E. by rewrite lookup_seqZ_ge by lia.
  - intros x Hx. destruct (lookup_lt_is_Some_2 row (Z.to_nat x)) as [v Hv]; [lia|].
    apply Hc in Hv. rewrite Z2Nat.id in Hv by lia. unfold cell_at. by rewrite Hv.
Qed.

Lemma cell_read c x y :
  sheet_ok (s c) -> 0 <= x < w (s c) -> 0 <= y < h (s c) -> CsvS.cellString c x y = Ok (cell_at c x y).
Proof.
  intros Hok Hx Hy. pose proof Hok as (Hh & _). destruct (lookup_lt_is_Some_2 (arr (s c)) (Z.to_nat y))
    as [row Hrow]; [lia|]. destruct (row_cells c _ row Hok Hrow) as [_ H].
  rewrite Z2Nat.id in H by lia. by apply H.
Qed.
