(* ===== verification/CsvFile.v ===== *)
(** * Reading and writing sheets as CSV text

    Models the path a sheet takes to text and back:
    [SheetStyle] ([libcoopy_core/include/coopy/SheetStyle.h], [SheetStyle.cpp]),
    [DataSheet::encodeCell] and [DataSheet::encode] ([libcoopy_core/DataSheet.cpp]),
    which write a sheet in a style, and [CsvFile::read] ([libcsv/CsvRead.cpp]),
    which runs the parser of [Csv] over the text with the callbacks
    [csvfile_merge_cb1] and [csvfile_merge_cb2], into one sheet or into the
    sheets of a [CsvTextBook] ([libcoopy_full/CsvTextBook.cpp]).

    - [exit(1)] ends the program: [read] is then [Ok None].
    - The options of a [Property] the code looks at are the fields of [config].
    - The callbacks run inside the parser, so their data is a [result]: a fault
      in a callback is kept and the later ones do nothing.
    - A [std::string] is the list of its characters; [str[str.size()]] is the
      terminator, so [cget] models [operator[]] up to that index. *)

From stdpp Require Import gmap.
From S2P Require Import Prelude Sheet Csv.
#[local] Open Scope Z_scope.
#[local] Arguments cstr s%_string.

(** ** Styles *)

Record SheetStyle := SheetStyle_ {
  delim : list Z;
  eol : list Z;
  nullToken : list Z;
  haveNull : bool;
  quoteCollision : bool;
  trimEnd : bool;
  markHeader : bool;
  eolAtEof : bool
}.

Definition defaultStyle : SheetStyle :=
  SheetStyle_ (cstr ",") [13; 10] (cstr "NULL") true true true false true.

Definition setDelimiter (st : SheetStyle) (d : list Z) : SheetStyle :=
  SheetStyle_ d (eol st) (nullToken st) (haveNull st) (quoteCollision st) (trimEnd st)
    (markHeader st) (eolAtEof st).

Definition tolower (c : Z) : Z := if (65 <=? c) && (c <=? 90) then c + 32 else c.

(** The comparison with [".list"] cannot succeed: [ext] has four characters. *)
Definition setFromFilename (st : SheetStyle) (name : list Z) : bool * SheetStyle :=
  let st := setDelimiter st (cstr ",") in
  if (4 <=? length name)%nat then
    let ext := tolower <$> drop (length name - 4) name in
    if decide (ext = cstr ".tsv") then (true, setDelimiter st [9])
    else if decide (ext = cstr ".ssv") then (true, setDelimiter st (cstr ";"))
    else if decide (ext = cstr ".csv") then (true, setDelimiter st (cstr ","))
    else if decide (ext = cstr ".wsv") then (true, setDelimiter st (cstr " "))
    else if decide (ext = cstr ".list") then (true, setDelimiter st (cstr ","))
    else (false, st)
  else (false, st).

(** The options read from a [Property]: [None] when the key is absent. *)
Record config := Config {
  c_delimiter : option (list Z);
  c_null_token : option (list Z);
  c_have_null : option Z;
  c_avoid_collision : option Z;
  c_mark_header : option Z;
  c_flip_vertical : option Z
}.
Definition no_config : config := Config None None None None None None.

Definition setFromProperty (st : SheetStyle) (c : config) : SheetStyle :=
  let flag (o : option Z) (old : bool) := match o with Some n => negb (n =? 0) | None => old end in
  SheetStyle_ (default (delim st) (c_delimiter c)) (eol st) (default (nullToken st) (c_null_token c))
    (flag (c_have_null c) (haveNull st)) (flag (c_avoid_collision c) (quoteCollision st))
    (trimEnd st) (flag (c_mark_header c) (markHeader st)) (eolAtEof st).

(** *** Guessing the separator *)

Record SeparatorHistory := SeparatorHistory_ {
  ct : Z;
  best_ct : Z;
  best : Z;
  votes : gmap Z Z;
  ch : Z
}.

Definition new_history (c : Z) : SeparatorHistory := SeparatorHistory_ 0 0 (-1) ∅ c.
Definition bump (x : SeparatorHistory) : SeparatorHistory :=
  SeparatorHistory_ (ct x + 1) (best_ct x) (best x) (votes x) (ch x).
Definition add (x : SeparatorHistory) : SeparatorHistory :=
  let v := default 1 (votes x !! ct x) + 1 in
  let votes := <[ct x := v]> (votes x) in
  if v >? best_ct x then SeparatorHistory_ 0 v (ct x) votes (ch x)
  else SeparatorHistory_ 0 (best_ct x) (best x) votes (ch x).

(** The state of the scan: histories, [quoted] and [content]. *)
Definition inspect_step (st : list SeparatorHistory * bool * bool) (c : Z) :
    list SeparatorHistory * bool * bool :=
  let '(history, quoted, content) := st in
  if c =? 34 then (history, negb quoted, content)
  else if negb quoted then
    let content := if negb (c =? 10) && negb (c =? 13) then true else content in
    if c =? 10 then
      if content then (add <$> history, quoted, false) else (history, quoted, content)
    else ((fun x => if c =? ch x then bump x else x) <$> history, quoted, content)
  else (history, quoted, content).

(** The choice between the histories: [best_ct] so far and the separator. *)
Definition inspect_choose (acc : Z * list Z) (x : SeparatorHistory) : Z * list Z :=
  let '(b, d) := acc in
  if negb (best x =? 0) && (best_ct x >? b) then (best_ct x, [ch x]) else acc.

Definition setFromInspection (st : SheetStyle) (buffer : list Z) : SheetStyle :=
  let '(history, _, _) :=
    foldl inspect_step (new_history <$> [44; 9; 59], false, false) (buffer ++ [10]) in
  setDelimiter st (foldl inspect_choose (0, cstr ",") history).2.

(** ** Writing *)

(** [for (score=0; score<str.length(); score++) if (str[score]!='_') break;] *)
Fixpoint underscores (str : list Z) : nat :=
  match str with c :: str => if c =? 95 then S (underscores str) else O | [] => O end.

(** The loop that copies the text: [result] and [line_buf]. *)
Fixpoint encode_loop (trim : bool) (str result line_buf : list Z) : list Z :=
  match str with
  | [] => result
  | c :: str =>
      let result := if c =? 34 then result ++ [34] else result in
      if negb (c =? 13) && negb (c =? 10)
      then encode_loop trim str (result ++ line_buf ++ [c]) []
      else if trim then encode_loop trim str result (line_buf ++ [c])
      else encode_loop trim str (result ++ [c]) line_buf
  end.

Definition needs_quote (d : Z) (c : Z) : bool :=
  (c =? 34) || (c =? 39) || (c =? d) || (c =? 13) || (c =? 10) || (c =? 9) || (c =? 32).

Definition encodeCell (c : pcell) (st : SheetStyle) : list Z :=
  let '(str, escaped) := c in
  let need_quote := existsb (needs_quote (cget (delim st) 0)) str in
  if bool_decide (str = []) && escaped && haveNull st then nullToken st else
  let str := if negb escaped && quoteCollision st &&
                bool_decide (drop (underscores str) str = nullToken st)
             then 95 :: str else str in
  let q := if need_quote then [34] else [] in
  q ++ encode_loop (trimEnd st) str [] [] ++ q.

(** The header mark of [encode] after row [y], for a sheet whose schema has the
    header height [header] ([None] without a schema). *)
Definition header_mark (st : SheetStyle) (header : option Z) (y len : Z) : list Z :=
  match header with
  | Some hh =>
      if markHeader st && (hh >=? 0) && (hh =? y) then
        let len := if len <? 3 then 3 else len in
        let len := if len >? 79 then 79 else len in
        replicate (Z.to_nat len) 45 ++ eol st
      else []
  | None => []
  end.

(** The inner loop of [encode]: cells [x] to [width - 1] of row [y], [n] of them. *)
Fixpoint encode_cells (cell : Z -> Z -> result pcell) (st : SheetStyle) (x y : Z) (n : nat) :
    result (list Z) :=
  match n with
  | O => Ok []
  | S n => c ← cell x y;
           rest ← encode_cells cell st (x + 1) y n;
           Ok ((if x >? 0 then delim st else []) ++ encodeCell c st ++ rest)
  end.

(** The outer loop: rows [y] on, [n] of them. *)
Fixpoint encode_rows (cell : Z -> Z -> result pcell) (width : Z) (header : option Z)
    (st : SheetStyle) (y : Z) (n : nat) : result (list Z) :=
  match n with
  | O => Ok []
  | S n => line ← encode_cells cell st 0 y (Z.to_nat width);
           rest ← encode_rows cell width header st (y + 1) n;
           Ok (line ++ (if eolAtEof st || negb (Nat.eqb n 0) then eol st else []) ++
               header_mark st header y (Zlen line) ++ rest)
  end.

(** [cell] is [cellSummary]. *)
Definition encode (cell : Z -> Z -> result pcell) (width height : Z) (header : option Z)
    (st : SheetStyle) : result (list Z) :=
  encode_rows cell width header st 0 (Z.to_nat height).

(** A [CsvSheet] in a style. *)
Definition encode_csv (c : CsvSheet) (header : option Z) (st : SheetStyle) : result (list Z) :=
  encode (CsvS.cellString c) (w (s c)) (h (s c)) header st.

(** ** Reading *)

(** A sheet being read, with the members of [CsvSheet] the reader uses beside its
    cells: its style, and the header row and column names of its schema. *)
Record rsheet := RSheet {
  r_name : list Z;
  r_sheet : CsvSheet;
  r_style : SheetStyle;
  r_schema : option (Z * list (list Z))
}.

(** The names [CsvTextBook::nextSheet] appends a sheet under, and the state of the
    callbacks.  [reader] tells whether a [CsvSheetReader] is there; [sheets] are
    the sheets reachable from the state (those of the book, or the single
    destination), [sheet] the index of the current one ([NULL] is [None]). *)
Record CsvSheetReaderState := RState {
  reader : bool;
  sheets : list rsheet;
  sheet : option nat;
  expecting : bool;
  ignore : bool;
  name : list Z;
  named : bool;
  broken : bool
}.

(** The state [read] starts from: a single destination, or a book. *)
Definition state_for_sheet (c : CsvSheet) : CsvSheetReaderState :=
  RState false [RSheet [] c defaultStyle None] (Some 0%nat) true false [] false false.
Definition state_for_book : CsvSheetReaderState :=
  RState true [] None true false [] false false.

Definition cur_sheet (st : CsvSheetReaderState) : option rsheet := i ← sheet st; sheets st !! i.

(** Update of the current sheet. *)
Definition with_sheet (st : CsvSheetReaderState) (f : rsheet -> rsheet) : CsvSheetReaderState :=
  match sheet st with
  | Some i => RState (reader st) (alter f i (sheets st)) (sheet st) (expecting st) (ignore st)
                (name st) (named st) (broken st)
  | None => st
  end.
Definition on_cells (f : CsvSheet -> CsvSheet) (x : rsheet) : rsheet :=
  RSheet (r_name x) (f (r_sheet x)) (r_style x) (r_schema x).

Definition setStyle (st : CsvSheetReaderState) (style : SheetStyle) : CsvSheetReaderState :=
  with_sheet st (fun x => RSheet (r_name x) (r_sheet x) style (r_schema x)).
Definition state_clear (st : CsvSheetReaderState) : CsvSheetReaderState :=
  with_sheet st (on_cells CsvS.csv_clear).

(** [addSheet], with [CsvTextBook::nextSheet] for the reader's. *)
Definition addSheet (st : CsvSheetReaderState) (nm : list Z) (nd : bool) : CsvSheetReaderState :=
  let st := if reader st
            then RState (reader st) (sheets st ++ [RSheet nm CsvS.create defaultStyle None])
                   (Some (length (sheets st))) (expecting st) (ignore st) (name st) (named st)
                   (broken st)
            else st in
  RState (reader st) (sheets st) (sheet st) (expecting st) (ignore st) nm nd false.

(** The loop of [markBreak]: the names in the last row, from column [x] on. *)
Fixpoint column_names (c : CsvSheet) (x : Z) (n : nat) : result (list (list Z)) :=
  match n with
  | O => Ok []
  | S n => p ← CsvS.cellString c x (h (s c) - 1);
           rest ← column_names c (x + 1) n; Ok (CsvS.c_str p.1 :: rest)
  end.

Definition markBreak (st : CsvSheetReaderState) : result CsvSheetReaderState :=
  let st := RState (reader st) (sheets st) (sheet st) (expecting st) (ignore st) (name st)
              (named st) true in
  match cur_sheet st with
  | None => Ok st
  | Some x =>
      let c := r_sheet x in
      cols ← column_names c 0 (Z.to_nat (w (s c)));
      Ok (with_sheet st (fun x => RSheet (r_name x) (r_sheet x) (r_style x)
                                    (Some (h (s c) - 1, cols))))
  end.

(** [for (j=i-1; j>=3; j--) if (str[j]==' '&&str[j+1]=='=') break;] *)
Fixpoint find_name_end (str : list Z) (j : Z) (n : nat) : result Z :=
  match n with
  | O => Ok j
  | S n => a ← rd str j;
           if a =? 32 then b ← rd str (j + 1);
             if b =? 61 then Ok j else find_name_end str (j - 1) n
           else find_name_end str (j - 1) n
  end.

(** The C string at [str+3] after [str[j] = 0]: it has to end inside the field. *)
Definition name_at (str : list Z) (j : Z) : result (list Z) :=
  str ← wr str j 0;
  let t := drop 3 str in
  _ ← check (bool_decide (length (CsvS.c_str t) < length t)%nat) OutOfBounds;
  Ok (CsvS.c_str t).

(** [memcmp(a,b,n)==0]: the bytes are compared up to the first difference; a byte
    read outside either object is a fault.  [b] is followed by its NUL. *)
Fixpoint memcmp_eq (a b : list Z) (n : nat) : result bool :=
  match n with
  | O => Ok true
  | S n => match a, b with
           | x :: a, y :: b => if x =? y then memcmp_eq a b n else Ok false
           | _, _ => Fault OutOfBounds
           end
  end.

(** The end of [csvfile_merge_cb1]: the field is added to the current sheet. *)
Definition add_field (st : CsvSheetReaderState) (x : rsheet) (str : list Z) :
    result CsvSheetReaderState :=
  let st := RState (reader st) (sheets st) (sheet st) false (ignore st) (name st) (named st)
              (broken st) in
  let put t e := Ok (with_sheet st (on_cells (fun c => CsvS.addField c t e))) in
  let token := nullToken (r_style x) in
  if haveNull (r_style x) then
    same ← (if (length token =? length str)%nat
            then memcmp_eq str (token ++ [0]) (length str) else Ok false);
    if same : bool then put str true
    else if quoteCollision (r_style x) then
      let score := underscores str in
      if (0 <? score)%nat then
        pre ← memcmp_eq (drop score str) (token ++ [0]) (length str - score);
        if pre : bool then put (drop 1 str) false else put str false
      else put str false
    else put str false
  else put str false.

Definition default_table_name : list Z := cstr "sheet".

Definition merge_cb1 (str : list Z) (q : bool) (st : CsvSheetReaderState) :
    result CsvSheetReaderState :=
  let i := length str in
  let add st :=
    let st := match cur_sheet st with
              | None => addSheet st default_table_name false
              | Some _ => st
              end in
    match cur_sheet st with Some x => add_field st x str | None => Ok st end in
  let skip st := RState (reader st) (sheets st) (sheet st) (expecting st) true (name st)
                   (named st) (broken st) in
  if expecting st && reader st && negb q then
    if (4 <? i)%nat && bool_decide (take 3 str = cstr "== ") then
      j ← find_name_end str (Z.of_nat i - 1) (i - 3);
      nm ← name_at str j;
      Ok (skip (addSheet st nm true))
    else if forallb (fun c => (c =? 45) || (c =? 10) || (c =? 13)) str && (3 <? i)%nat &&
            named st && negb (broken st) then
      st ← markBreak st; Ok (skip st)
    else add st
  else add st.

Definition merge_cb2 (st : CsvSheetReaderState) : CsvSheetReaderState :=
  let st := RState (reader st) (sheets st) (sheet st) true (ignore st) (name st) (named st)
              (broken st) in
  match cur_sheet st with
  | None => st
  | Some _ =>
      if ignore st then RState (reader st) (sheets st) (sheet st) (expecting st) false (name st)
                          (named st) (broken st)
      else with_sheet st (on_cells CsvS.addRecord)
  end.

(** The callbacks as the parser calls them. *)
Definition csvfile_merge_cb1 (str : list Z) (q : bool) (d : result CsvSheetReaderState) :
    result CsvSheetReaderState := st ← d; merge_cb1 str q st.
Definition csvfile_merge_cb2 (c : Z) (d : result CsvSheetReaderState) :
    result CsvSheetReaderState := st ← d; Ok (merge_cb2 st).

(** Where the text comes from: memory, a file read in pieces, or a pipe. *)
Inductive source :=
| FromMemory (data : list Z)
| FromFile (fname : list Z) (chunks : list (list Z))
| FromPipe (fname : list Z) (chunks : list (list Z)).

Section Read.
Context (realloc : option (list Z) -> Z -> option (list Z)).
(** The parser structure on the stack before [csv_init] fills it. *)
Definition uninit_parser : csv_parser :=
  CsvParser (Regs ROW_NOT_BEGUN false 0 0) None 0 0 0 0 0 None None 0 realloc.
Abbreviation parse := (csv_parse (Some csvfile_merge_cb1) (Some csvfile_merge_cb2)).

(** Pieces fed to the parser one after the other; [None] is [exit(1)]. *)
Fixpoint parse_chunks (p : csv_parser) (chunks : list (list Z)) (d : result CsvSheetReaderState) :
    result (option (csv_parser * result CsvSheetReaderState)) :=
  match chunks with
  | [] => Ok (Some (p, d))
  | c :: chunks =>
      '(p, d, n) ← parse p c d;
      if n =? Zlen c then parse_chunks p chunks d else Ok None
  end.

(** One row of the [flip_vertical] loop: cells [x] on of rows [y] and [y2] are
    swapped, [n] of them. *)
Fixpoint flip_row (c : CsvSheet) (y y2 x : Z) (n : nat) : result CsvSheet :=
  match n with
  | O => Ok c
  | S n => tmp ← CsvS.cellString c x y;
           b ← CsvS.cellString c x y2;
           c ← CsvS.set_cellString c x y b.1 b.2;
           c ← CsvS.set_cellString c x y2 tmp.1 tmp.2;
           flip_row c y y2 (x + 1) n
  end.
Fixpoint flip_rows (c : CsvSheet) (y : Z) (n : nat) : result CsvSheet :=
  match n with
  | O => Ok c
  | S n => c ← flip_row c y (h (s c) - 1 - y) 0 (Z.to_nat (w (s c))); flip_rows c (y + 1) n
  end.

Definition flip_vertical (st : CsvSheetReaderState) : result CsvSheetReaderState :=
  match cur_sheet st with
  | None => Fault OutOfBounds
  | Some x => c ← flip_rows (r_sheet x) 0 (Z.to_nat (h (s (r_sheet x)) / 2));
              Ok (with_sheet st (on_cells (fun _ => c)))
  end.

Definition read (src : source) (dest : CsvSheetReaderState) (cfg : config) :
    result (option CsvSheetReaderState) :=
  let dest := state_clear dest in
  match (csv_init realloc (Some uninit_parser) 0).2 with
  | None => Ok None
  | Some p =>
      let style := match src with
                   | FromMemory _ => defaultStyle
                   | FromFile f _ | FromPipe f _ => (setFromFilename defaultStyle f).2
                   end in
      let style := setFromProperty style cfg in
      let dest := setStyle dest style in
      let '(style, dest, chunks) :=
        match src with
        | FromMemory data => (style, dest, [data])
        | FromFile _ chunks => (style, dest, chunks)
        | FromPipe _ chunks =>
            let style := setFromInspection defaultStyle (concat chunks) in
            (style, setStyle dest style, [concat chunks])
        end in
      match csv_set_delim (Some p) (cget (delim style) 0) with
      | None => Ok None
      | Some p =>
          o ← parse_chunks p chunks (Ok dest);
          match o with
          | None => Ok None
          | Some (p, d) =>
              '(_, _, d) ← csv_fini (Some csvfile_merge_cb1) (Some csvfile_merge_cb2) p d;
              st ← d;
              st ← (if negb (default 0 (c_flip_vertical cfg) =? 0) then flip_vertical st
                    else Ok st);
              Ok (Some st)
          end
      end
  end.

(** The overload that reads from a [coopy::format::Reader]: the pieces it
    delivers up to the first empty one.  The sheet keeps the default style: the
    options only choose the delimiter. *)
Definition read_reader (chunks : list (list Z)) (dest : CsvSheet) (cfg : config) :
    result (option CsvSheetReaderState) :=
  let dest := setStyle (state_clear (state_for_sheet dest)) defaultStyle in
  match (csv_init realloc (Some uninit_parser) 0).2 with
  | None => Ok None
  | Some p =>
      match csv_set_delim (Some p) (cget (delim (setFromProperty defaultStyle cfg)) 0) with
      | None => Ok None
      | Some p =>
          o ← parse_chunks p chunks (Ok dest);
          match o with
          | None => Ok None
          | Some (p, d) =>
              '(_, _, d) ← csv_fini (Some csvfile_merge_cb1) (Some csvfile_merge_cb2) p d;
              st ← d; Ok (Some st)
          end
      end
  end.
End Read.
