(* ===== verification/CsvFileSpec.v ===== *)
(** * Sheets and CSV text: the round trip

    A sheet written by [DataSheet::encode] and read back by [CsvFile::read],
    through the callbacks and the parser of libcsv, is the same sheet: the
    composition of [CsvFile], [Csv] and [Sheet].  The cells it does not hold for
    are exhibited. *)

From stdpp Require Import gmap.
From S2P Require Import Prelude Sheet SheetSpec Csv CsvSpec CsvRoundtrip CsvFile.
#[local] Open Scope Z_scope.
#[local] Arguments cstr s%_string.

(** ** Feeding the parser piece by piece *)

Section Status.
Context {D : Type} (cb1 : option (list Z -> bool -> D -> D)) (cb2 : option (Z -> D -> D)).

Lemma SUBMIT_CHAR_status p r c p' r' : SUBMIT_CHAR p r c = Ok (p', r') -> status p' = status p.
Proof. unfold SUBMIT_CHAR. intros H. by res_inv. Qed.

Lemma SUBMIT_FIELD_status p r d p' r' d' :
  SUBMIT_FIELD cb1 p r d = Ok (p', r', d') -> status p' = status p.
Proof.
  unfold SUBMIT_FIELD. intros H. destruct (has_opt p CSV_APPEND_NULL); res_inv; done.
Qed.

Lemma csv_step_status p r d c p' r' d' :
  csv_step cb1 cb2 p r d c = Ok (Next p' r' d') -> status p' = status p.
Proof.
  unfold csv_step, step_not_begun, step_begun, step_might_have_ended, SUBMIT_ROW.
  intros H. destruct (pstate r);
    repeat match type of H with
    | context [if ?b then _ else _] => destruct b
    end;
    res_inv; repeat match goal with
    | x : (_ * _)%type |- _ => destruct x
    end; simpl in *; res_inv; simplify_eq;
    eauto using SUBMIT_CHAR_status, SUBMIT_FIELD_status.
Qed.

Lemma increase_status p rc p' :
  csv_increase_buffer p = Ok (rc, p') -> rc = 0 -> status p' = status p.
Proof.
  unfold csv_increase_buffer. destruct (_ =? 0); [by intros [= <- _]|].
  generalize (if entry_size p >=? SIZE_MAX - blk_size p
              then SIZE_MAX - entry_size p else blk_size p) as n.
  generalize 64%nat as fuel. induction fuel as [|fuel IH]; intros n H Hrc; simpl in H;
    destruct (realloc_func p _ _); simplify_eq; [done| |done|]; destruct (_ =? 0); simplify_eq; eauto.
Qed.

Lemma parse_loop_status str pos p r d p' d' n :
  parse_loop cb1 cb2 str pos p r d = Ok (p', d', n) -> n = pos + Zlen str ->
  status p' = status p.
Proof.
  revert pos p r d. induction str as [|c str IH]; intros pos p r d H Hn; simpl in H.
  { by simplify_eq. }
  apply bind_Ok_inv in H as ([rc p1] & Hrc & H).
  destruct (Z.eqb_spec rc 0) as [->|Hne]; simpl in H; [|simplify_eq; simpl in *; lia].
  assert (status p1 = status p) as <-.
  { destruct (_ =? _); [by eapply increase_status|by simplify_eq]. }
  apply bind_Ok_inv in H as (o & Ho & H). destruct o as [p2 r2 d2|p2 r2 d2];
    [|simplify_eq; simpl in *; lia].
  rewrite <- (csv_step_status _ _ _ _ _ _ _ Ho). eapply IH; [exact H|]. simpl in Hn. lia.
Qed.

Lemma csv_parse_status p str d p' d' :
  csv_parse cb1 cb2 p str d = Ok (p', d', Zlen str) -> status p' = status p.
Proof.
  unfold csv_parse. intros H. destruct (entry_buf p), str as [|c str];
    try by eapply (parse_loop_status _ 0); [exact H|lia].
  apply bind_Ok_inv in H as ([rc p1] & Hrc & H).
  destruct (Z.eqb_spec rc 0) as [->|Hne]; cbn [negb] in H; [|simplify_eq; simpl in *; lia].
  rewrite <- (increase_status _ _ _ Hrc eq_refl).
  eapply (parse_loop_status _ 0); [exact H|lia].
Qed.
End Status.

(** What [csv_parse_complete] needs of a parser and gives back. *)
Definition ready (p : csv_parser) : Prop := csv_wf p /\ mem_ok p /\ status p = 0.

Section Chunks.
Context (realloc : option (list Z) -> Z -> option (list Z)).
Abbreviation cb1 := (Some csvfile_merge_cb1).
Abbreviation cb2 := (Some csvfile_merge_cb2).

(** One piece of input the automaton accepts. *)
Lemma parse_chunk p str d a1 d1 :
  ready p -> Zlen (a_text (abs p)) + Zlen str + 1 < SIZE_MAX ->
  arun cb1 cb2 p (abs p) d str 0 = (a1, d1, Zlen str) ->
  exists p', csv_parse cb1 cb2 p str d = Ok (p', d1, Zlen str) /\ abs p' = a1 /\ ready p' /\
    cfg p' = cfg p.
Proof.
  intros (Hwf & Hm & Hst) Hlen Hrun.
  destruct (csv_parse_complete cb1 cb2 p str d a1 d1) as (p' & Hp & Ha & Hwf'); try done.
  exists p'. assert (cfg p' = cfg p) as Hcfg.
  { destruct str as [|c str]; [rewrite csv_parse_nil in Hp; by simplify_eq|].
    destruct (csv_parse_run cb1 cb2 p (c :: str) d) as (p2 & d2 & n & Hp2 & Hr); [done..|].
    rewrite Hp in Hp2. simplify_eq.
    destruct Hr as [(_ & _ & _ & Hc & _)|(Hn & _)]; [done|simpl in Hn; lia]. }
  split_and!; try done. split_and!; [done| |].
  - unfold mem_ok, cfg in *. injection Hcfg as ? ? ? ? ? -> ->. done.
  - by rewrite (csv_parse_status _ _ _ _ _ _ _ Hp).
Qed.

Lemma arun_text_length p a d str n a1 d1 n1 :
  arun cb1 cb2 p a d str n = (a1, d1, n1) -> Zlen (a_text a1) <= Zlen (a_text a) + Zlen str.
Proof.
  revert a d n. induction str as [|c str IH]; intros a d n H; simpl in H; [simplify_eq; simpl; lia|].
  destruct (astep cb1 cb2 p a d c) as [[a2 d2]|] eqn:E; [|simplify_eq; simpl; lia].
  apply IH in H. apply astep_length in E. simpl. lia.
Qed.

Lemma arun_shift p a d str n k :
  arun cb1 cb2 p a d str (n + k) = let '(a1, d1, m) := arun cb1 cb2 p a d str n in (a1, d1, m + k).
Proof.
  revert a d n. induction str as [|c str IH]; intros a d n; simpl; [done|].
  destruct (astep cb1 cb2 p a d c) as [[a2 d2]|]; [|done].
  by replace (n + k + 1) with (n + 1 + k) by lia.
Qed.

Lemma arun_count p a d str n a1 d1 m :
  arun cb1 cb2 p a d str n = (a1, d1, m) -> m <= n + Zlen str.
Proof.
  revert a d n. induction str as [|c str IH]; intros a d n H; simpl in H; [simplify_eq; simpl; lia|].
  destruct (astep cb1 cb2 p a d c) as [[a2 d2]|]; [apply IH in H|simplify_eq]; simpl; lia.
Qed.

Lemma parse_chunks_complete chunks p d a1 d1 :
  ready p -> Zlen (a_text (abs p)) + Zlen (concat chunks) + 1 < SIZE_MAX ->
  arun cb1 cb2 p (abs p) d (concat chunks) 0 = (a1, d1, Zlen (concat chunks)) ->
  exists p', parse_chunks p chunks d = Ok (Some (p', d1)) /\ abs p' = a1.
Proof.
  revert p d. induction chunks as [|c chunks IH]; intros p d Hp Hlen Hrun;
    cbn [concat parse_chunks] in *.
  { simpl in Hrun. simplify_eq. eauto. }
  rewrite length_app, Nat2Z.inj_add in Hlen, Hrun. rewrite arun_app in Hrun.
  destruct (arun cb1 cb2 p (abs p) d c 0) as [[a2 d2] n2] eqn:E.
  pose proof (arun_count _ _ _ _ _ _ _ _ E) as Hn2.
  destruct (Z.eqb_spec n2 (0 + Zlen c)) as [->|Hne];
    [|injection Hrun as _ _ Hn; lia].
  destruct (parse_chunk p c d a2 d2) as (p' & -> & Ha & Hp' & Hcfg); [done|lia|done|].
  rewrite bind_Ok, Z.eqb_refl. apply IH; [done| |].
  - apply arun_text_length in E. rewrite Ha. lia.
  - rewrite Ha, (arun_cfg _ _ p' p) by done. pose proof (arun_shift p a2 d2 (concat chunks) 0 (Zlen c)) as Hs.
    rewrite Z.add_0_l in Hs. rewrite Z.add_0_l, Hs in Hrun.
    destruct (arun cb1 cb2 p a2 d2 (concat chunks) 0) as [[a3 d3] n3]. simplify_eq.
    f_equal. lia.
Qed.
End Chunks.

(** ** What is written *)

Definition is_nl (c : Z) : bool := (c =? 13) || (c =? 10).

(** Text without a line break at its end or directly before a quote. *)
Fixpoint lines_ok (str : list Z) : bool :=
  match str with
  | [] => true
  | c :: str => (negb (is_nl c) || match str with [] => false | c' :: _ => negb (c' =? 34) end)
                && lines_ok str
  end.

Definition NULL : list Z := cstr "NULL".

(** A cell that survives: a null (with the text the reader gives nulls, or none),
    or a text without NULs, broken into lines as [lines_ok] says, and that is not
    underscores in front of a proper prefix of ["NULL"]. *)
Definition cell_ok (c : pcell) : Prop :=
  let '(str, escaped) := c in
  if escaped : bool then str = [] \/ str = NULL
  else no_nul str /\ lines_ok str = true /\
       (underscores str <> 0%nat ->
        forall n, (n < 4)%nat -> drop (underscores str) str <> take n NULL).

(** The cell as it is read back. *)
Definition norm (c : pcell) : pcell := if c.2 then (NULL, true) else c.

(** The text between the separators, before quoting. *)
Definition wire (c : pcell) : list Z :=
  if c.2 then NULL
  else if decide (drop (underscores c.1) c.1 = NULL) then 95 :: c.1 else c.1.

(** A delimiter no token contains. *)
Definition delim_ok (d : Z) : Prop := d ∉ [34; 13; 10; 95; 78; 85; 76].

Definition style_of (d : Z) : SheetStyle := setDelimiter defaultStyle [d].

(** The text of a row and of a table. *)
Fixpoint join (d : Z) (row : list (list Z)) : list Z :=
  match row with
  | [] => []
  | [x] => x
  | x :: row => x ++ [d] ++ join d row
  end.
Definition row_text (d : Z) (row : list pcell) : list Z :=
  join d ((fun c => encodeCell c (style_of d)) <$> row) ++ [13; 10].

Definition table_text (d : Z) (rows : list (list pcell)) : list Z := concat (row_text d <$> rows).
Definition norm_rows (rows : list (list pcell)) : list (list pcell) :=
  (fun row : list pcell => norm <$> row) <$> rows.

Lemma encode_loop_spec str result buf :
  Forall (fun c => is_nl c = true) buf -> lines_ok str = true ->
  (buf <> [] -> match str with [] => False | c :: _ => c <> 34 end) ->
  encode_loop true str result buf = result ++ buf ++ encode_body 34 str.
Proof.
  revert result buf. induction str as [|c str IH]; intros result buf Hbuf Hl Hb; simpl.
  { destruct buf; [by rewrite app_nil_r|by destruct Hb]. }
  simpl in Hl. apply andb_true_iff in Hl as [Hc Hl].
  destruct (negb (c =? 13) && negb (c =? 10)) eqn:E.
  - rewrite IH by (done || constructor). destruct (Z.eqb_spec c 34) as [->|].
    + destruct buf; [by rewrite <- !app_assoc|]. by destruct Hb.
    + by rewrite <- !app_assoc.
  - assert (is_nl c = true) as Hn.
    { unfold is_nl. destruct (c =? 13), (c =? 10); done. }
    rewrite Hn in Hc. simpl in Hc.
    assert (c <> 34) as Hq by (intros ->; done). rewrite (proj2 (Z.eqb_neq _ _) Hq).
    rewrite IH; [by rewrite <- !app_assoc| |done|].
    + apply Forall_app. by repeat constructor.
    + intros _. destruct str as [|c' str]; [done|]. intros ->. done.
Qed.

(** The two forms an encoded cell can have. *)
Definition bare (d c : Z) : Prop := needs_quote d c = false.
Definition enc_form (d : Z) (t e : list Z) : Prop :=
  e = encode_field 34 t \/ (e = t /\ Forall (bare d) t).

Lemma encode_body_bare d t : Forall (bare d) t -> encode_body 34 t = t.
Proof.
  induction 1 as [|c t Hc _ IH]; simpl; [done|]. rewrite IH.
  unfold bare, needs_quote in Hc. by destruct (c =? 34).
Qed.

Lemma bare_NULL d : delim_ok d -> Forall (bare d) NULL /\ bare d 95.
Proof.
  intros Hd. assert (forall c, c <> d -> needs_quote 0 c = false -> bare d c) as H.
  { intros c Hc. unfold bare, needs_quote. rewrite (proj2 (Z.eqb_neq c d)) by done.
    destruct (c =? 34), (c =? 39), (c =? 13), (c =? 10), (c =? 9), (c =? 32); simpl; try done;
      by rewrite orb_true_r. }
  unfold delim_ok in Hd. rewrite !not_elem_of_cons in Hd.
  destruct Hd as (? & ? & ? & ? & ? & ? & ? & _).
  split; [repeat constructor|]; apply H; done.
Qed.

Lemma encodeCell_form d c :
  delim_ok d -> cell_ok c -> enc_form d (wire c) (encodeCell c (style_of d)).
Proof.
  intros Hd Hc. destruct (bare_NULL d Hd) as [Hnull H95]. destruct c as [str []]; simpl in Hc.
  - unfold wire, encodeCell; simpl. right. destruct Hc as [-> | ->]; [done|].
    assert (existsb (needs_quote (cget [d] 0)) NULL = false) as ->.
    { apply not_true_iff_false. rewrite existsb_exists. intros (c & Hin & Hq).
      rewrite Forall_forall in Hnull. apply Hnull in Hin.
      unfold bare in Hin. unfold cget in Hq. simpl in Hq. congruence. }
    done.
  - destruct Hc as (_ & Hl & _). unfold encodeCell.
    rewrite andb_false_r. cbn [andb negb quoteCollision trimEnd style_of setDelimiter defaultStyle
      nullToken delim].
    set (str' := if bool_decide _ then _ else _).
    assert (str' = wire (str, false)) as ->.
    { unfold str', wire; simpl. case_bool_decide; case_decide; done. }
    assert (lines_ok (wire (str, false)) = true) as Hl'.
    { unfold wire; simpl. case_decide; [|done]. simpl. by rewrite Hl. }
    rewrite encode_loop_spec by done. simpl.
    destruct (existsb (needs_quote (cget [d] 0)) str) eqn:E; [by left|right].
    assert (Forall (bare d) str) as Hb.
    { apply Forall_forall. intros c Hin. unfold bare. apply not_true_iff_false. intros Hq.
      apply not_true_iff_false in E. apply E, existsb_exists. by exists c. }
    assert (Forall (bare d) (wire (str, false))) as Hb'.
    { unfold wire; simpl. case_decide; [by constructor|done]. }
    by rewrite app_nil_r, (encode_body_bare d).
Qed.

(** ** What is read *)

Section Automaton.
Context {D : Type} (cb1 : option (list Z -> bool -> D -> D)) (cb2 : option (Z -> D -> D)).
Context (realloc : option (list Z) -> Z -> option (list Z)) (d : Z) (Hd : delim_ok d).

(** The parser [read] sets up. *)
Definition reading : csv_parser :=
  CsvParser (Regs ROW_NOT_BEGUN false 0 0) None 0 0 0 CSV_QUOTE d None None MEM_BLK_SIZE realloc.
Abbreviation run := (arun cb1 cb2 reading).

Definition fresh (st : pstate_t) : Prop := st = ROW_NOT_BEGUN \/ st = FIELD_NOT_BEGUN.

Lemma delim_facts : d <> 34 /\ d <> 13 /\ d <> 10.
Proof.
  unfold delim_ok in Hd. rewrite !not_elem_of_cons in Hd.
  by destruct Hd as (? & ? & ? & _).
Qed.

Lemma reading_separators : separators_ok reading 13.
Proof.
  destruct delim_facts as (? & ? & ?). split_and!; try done. simpl. unfold term_char, CSV_CR, CSV_LF; simpl.
  by rewrite !(proj2 (Z.eqb_neq _ _)).
Qed.

Lemma bare_facts c :
  bare d c -> (c =? CSV_QUOTE) = false /\ (c =? d) = false /\
  space_char reading c = false /\ term_char reading c = false.
Proof.
  unfold bare, needs_quote, space_char, term_char, CSV_QUOTE, CSV_CR, CSV_LF, CSV_SPACE, CSV_TAB.
  simpl.
  by destruct (c =? 34), (c =? 39), (c =? d), (c =? 13), (c =? 10), (c =? 9), (c =? 32).
Qed.

Lemma arun_push t text dd n :
  Forall (bare d) t ->
  run (AField FIELD_BEGUN false 0 text) dd t n =
  (AField FIELD_BEGUN false 0 (text ++ t), dd, n + Zlen t).
Proof.
  intros H. revert text n. induction H as [|c t Hc _ IH]; intros text n; simpl.
  { by rewrite app_nil_r, Z.add_0_r. }
  destruct (bare_facts c Hc) as (Hq & Hdd & Hs & Ht).
  unfold astep; cbn -[arun space_char term_char]. rewrite Hq, Hdd, Hs, Ht.
  rewrite IH. unfold apush; simpl. rewrite <- app_assoc. f_equal. lia.
Qed.

Lemma arun_bare st c t dd n :
  fresh st -> Forall (bare d) (c :: t) ->
  run (anew st) dd (c :: t) n = (AField FIELD_BEGUN false 0 (c :: t), dd, n + Zlen (c :: t)).
Proof.
  intros Hst H. apply Forall_cons_1 in H as [Hc Ht]. cbn [arun].
  destruct (bare_facts c Hc) as (Hq & Hdd & Hs & Htm).
  assert (astep cb1 cb2 reading (anew st) dd c = Some (AField FIELD_BEGUN false 0 [c], dd)) as ->.
  { unfold astep. destruct Hst as [-> | ->]; cbn -[space_char term_char];
      by rewrite Hs, Htm, Hdd, Hq. }
  rewrite arun_push by done. f_equal. simpl. lia.
Qed.

(** A cell followed by the delimiter. *)
Lemma arun_cell st t e dd n :
  fresh st -> enc_form d t e ->
  exists q, run (anew st) dd (e ++ [d]) n =
            (anew FIELD_NOT_BEGUN, emit_field cb1 q t dd, n + Zlen (e ++ [d])).
Proof.
  intros Hst [->|[-> Hb]].
  - exists true. rewrite (arun_app_full _ _ _ _ _ _ _ _ _ _
      (arun_field cb1 cb2 reading 13 reading_separators st t dd n Hst)). cbn [arun].
    rewrite (astep_close_delim cb1 cb2 reading t dd : astep _ _ _ _ _ d = _).
    f_equal. change (quote_char reading) with 34.
    rewrite length_app, Nat2Z.inj_add. cbn [length]. lia.
  - exists false. destruct t as [|c t].
    + simpl. destruct delim_facts as (Hq & Hc & Hl).
      unfold astep, term_char, CSV_CR, CSV_LF; destruct Hst as [-> | ->]; simpl;
        by rewrite Z.eqb_refl, andb_false_r, !(proj2 (Z.eqb_neq _ _)) by done.
    + rewrite (arun_app_full _ _ _ _ _ _ _ _ _ _ (arun_bare st c t dd n Hst Hb)). cbn [arun].
      destruct delim_facts as (Hq & Hc & Hl).
      unfold astep. cbn -[chop]. unfold CSV_QUOTE. rewrite Z.eqb_refl, (proj2 (Z.eqb_neq _ _)) by done.
      unfold chop. rewrite Z.sub_0_r, Nat2Z.id, firstn_all. f_equal.
      cbn [app length]. rewrite length_app. simpl. lia.
Qed.

Lemma arun_lf dd n : run (anew ROW_NOT_BEGUN) dd [10] n = (anew ROW_NOT_BEGUN, dd, n + 1).
Proof. done. Qed.

(** The last cell of a row, followed by the line end. *)
Lemma arun_last st t e dd n :
  fresh st -> enc_form d t e -> (e <> [] \/ st = FIELD_NOT_BEGUN) ->
  exists q, run (anew st) dd (e ++ [13; 10]) n =
            (anew ROW_NOT_BEGUN, emit_row cb2 13 (emit_field cb1 q t dd), n + Zlen (e ++ [13; 10])).
Proof.
  intros Hst He Hne. assert (exists q, run (anew st) dd (e ++ [13]) n =
      (anew ROW_NOT_BEGUN, emit_row cb2 13 (emit_field cb1 q t dd), n + Zlen (e ++ [13])))
    as (q & Hq).
  { destruct delim_facts as (Hq & Hc & Hl). destruct He as [->|[-> Hb]].
    - exists true. rewrite (arun_app_full _ _ _ _ _ _ _ _ _ _
        (arun_field cb1 cb2 reading 13 reading_separators st t dd n Hst)). cbn [arun].
      pose proof (astep_close_term cb1 cb2 reading 13 reading_separators t dd) as ->.
      f_equal. change (quote_char reading) with 34.
    rewrite length_app, Nat2Z.inj_add. cbn [length]. lia.
    - exists false. destruct t as [|c t].
      + destruct Hne as [?| ->]; [done|]. done.
      + rewrite (arun_app_full _ _ _ _ _ _ _ _ _ _ (arun_bare st c t dd n Hst Hb)). cbn [arun].
        unfold astep. cbn -[chop Z.eqb]. change (13 =? CSV_QUOTE) with false.
        rewrite (proj2 (Z.eqb_neq 13 d)) by done. cbn -[chop]. unfold chop. rewrite Z.sub_0_r, Nat2Z.id, firstn_all. f_equal.
        cbn [app length]. rewrite length_app. simpl. lia. }
  exists q. change [13; 10] with ([13] ++ [10]). rewrite app_assoc.
  rewrite (arun_app_full _ _ _ _ _ _ _ _ _ _ Hq), arun_lf. f_equal. rewrite !length_app. simpl. lia.
Qed.
End Automaton.

(** ** The callbacks *)

(** Reading into a single sheet [c] in a style. *)
Definition st_with (style : SheetStyle) (c : CsvSheet) (ex : bool) : CsvSheetReaderState :=
  RState false [RSheet [] c style None] (Some 0%nat) ex false [] false false.

Lemma memcmp_prefix str token :
  no_nul str -> memcmp_eq str (token ++ [0]) (length str) = Ok (bool_decide (str `prefix_of` token)).
Proof.
  intros H. revert token. induction H as [|c str Hc _ IH]; intros token;
    cbn [length memcmp_eq app].
  { by rewrite bool_decide_true by apply prefix_nil. }
  destruct token as [|y token]; cbn [app].
  - rewrite (proj2 (Z.eqb_neq _ _)) by done.
    rewrite bool_decide_false; [done|]. intros Hp. by apply prefix_nil_not in Hp.
  - destruct (Z.eqb_spec c y) as [->|Hne].
    + rewrite IH. f_equal. apply bool_decide_ext. split; [apply prefix_cons|apply prefix_cons_inv_2].
    + rewrite bool_decide_false; [done|]. intros Hp. by apply prefix_cons_inv_1 in Hp.
Qed.

Lemma prefix_NULL l : l `prefix_of` NULL -> exists n, (n <= 4)%nat /\ l = take n NULL.
Proof.
  intros [k Hk]. exists (length l). split.
  - assert (length NULL = 4)%nat by done. rewrite Hk, length_app in H. lia.
  - by rewrite Hk, take_app_length.
Qed.

Lemma underscores_drop str : no_nul str -> (underscores str <= length str)%nat.
Proof. induction 1; simpl; [lia|]. destruct (_ =? _); lia. Qed.

Lemma merge_cb1_cell d c p q ex :
  cell_ok p ->
  merge_cb1 (wire p) q (st_with (style_of d) c ex) =
  Ok (st_with (style_of d) (CsvS.addField c (norm p).1 (norm p).2) false).
Proof.
  intros Hp. assert (forall str, merge_cb1 str q (st_with (style_of d) c ex) =
    add_field (st_with (style_of d) c ex) (RSheet [] c (style_of d) None) str) as ->.
  { intros str. unfold merge_cb1; simpl. by rewrite andb_false_r. }
  unfold add_field. cbn [r_style style_of setDelimiter haveNull quoteCollision nullToken defaultStyle].
  fold NULL. destruct p as [str []]; [done|].
  destruct Hp as (Hnul & _ & Hu). unfold wire, norm; cbn [fst snd].
  case_decide as Hcol.
  - assert (length str = underscores str + 4)%nat as Hlen.
    { rewrite <- (take_drop (underscores str) str) at 1. rewrite Hcol, length_app, length_take.
      pose proof (underscores_drop str Hnul). change (length NULL) with 4%nat. lia. }
    rewrite (proj2 (Nat.eqb_neq _ _)) by (change (length NULL) with 4%nat; cbn [length]; lia).
    rewrite bind_Ok.
    cbn [underscores]. change (95 =? 95) with true. cbn [Nat.ltb Nat.leb drop].
    replace (length (95%Z :: str) - S (underscores str))%nat with (length NULL)
      by (change (length NULL) with 4%nat; cbn [length]; lia).
    rewrite Hcol. done.
  - assert ((if (length NULL =? length str)%nat then memcmp_eq str (NULL ++ [0]) (length str)
             else Ok false) = Ok false) as ->.
    { destruct (Nat.eqb_spec (length NULL) (length str)) as [Hl|]; [|done].
      rewrite memcmp_prefix by done. rewrite bool_decide_false; [done|].
      intros [k Hk]. apply Hcol. assert (k = []) as ->.
      { apply nil_length_inv. rewrite Hk, length_app in Hl. lia. }
      rewrite app_nil_r in Hk. by rewrite <- Hk. }
    rewrite bind_Ok. destruct (Nat.ltb_spec 0 (underscores str)) as [Hpos|]; [|done].
    rewrite <- length_drop, memcmp_prefix by (by apply Forall_drop).
    rewrite bool_decide_false; [done|]. intros (n & Hn & Heq)%prefix_NULL.
    destruct (decide (n = 4)%nat) as [->|]; [done|].
    apply (Hu ltac:(lia) n); [lia|done].
Qed.

Lemma merge_cb2_row style c ex : merge_cb2 (st_with style c ex) = st_with style (CsvS.addRecord c) true.
Proof. done. Qed.

(** ** Rows and tables *)

(** A row that survives: its cells do, and it is not a single empty cell, whose
    line would be blank and skipped. *)
Definition row_ok (row : list pcell) : Prop :=
  row <> [] /\ Forall cell_ok row /\ row <> [([], false)].

Section Rows.
Context (realloc : option (list Z) -> Z -> option (list Z)) (d : Z) (Hd : delim_ok d).
Abbreviation run := (arun (Some csvfile_merge_cb1) (Some csvfile_merge_cb2) (reading realloc d)).
Abbreviation at_sheet := (st_with (style_of d)).

Lemma encodeCell_nonempty p : cell_ok p -> p <> ([], false) -> encodeCell p (style_of d) <> [].
Proof.
  intros Hp Hne. destruct (encodeCell_form d p Hd Hp) as [-> | [-> _]]; [done|].
  destruct p as [str []]; [done|]. unfold wire; simpl. case_decide; [done|]. by intros ->.
Qed.

Lemma row_text_cons p p2 row :
  row_text d (p :: p2 :: row) = (encodeCell p (style_of d) ++ [d]) ++ row_text d (p2 :: row).
Proof. unfold row_text. cbn [fmap list_fmap join]. by rewrite <- !app_assoc. Qed.

Lemma arun_cells row st c ex n :
  row <> [] -> Forall cell_ok row -> fresh st ->
  (st = FIELD_NOT_BEGUN \/ row <> [([], false)]) ->
  run (anew st) (Ok (at_sheet c ex)) (row_text d row) n =
  (anew ROW_NOT_BEGUN, Ok (at_sheet (CsvS.addRecord (add_fields c (norm <$> row))) true),
   n + Zlen (row_text d row)).
Proof.
  intros Hne Hall. revert st c ex n Hne.
  induction Hall as [|p row Hp Hall IH]; intros st c ex n Hne Hst Hsingle; [done|].
  pose proof (encodeCell_form d p Hd Hp) as Hform. destruct row as [|p2 row].
  - unfold row_text. cbn [fmap list_fmap join].
    destruct (arun_last (Some csvfile_merge_cb1) (Some csvfile_merge_cb2) realloc d Hd st
                (wire p) (encodeCell p (style_of d)) (Ok (at_sheet c ex)) n) as (q & ->); [done..| |].
    { destruct Hsingle as [?|Hs]; [by right|left]. apply encodeCell_nonempty; [done|].
      intros ->. done. }
    unfold emit_field, emit_row, csvfile_merge_cb1, csvfile_merge_cb2.
    rewrite bind_Ok, merge_cb1_cell, bind_Ok, merge_cb2_row by done. done.
  - rewrite row_text_cons.
    destruct (arun_cell (Some csvfile_merge_cb1) (Some csvfile_merge_cb2) realloc d Hd st
                (wire p) (encodeCell p (style_of d)) (Ok (at_sheet c ex)) n) as (q & Hq); [done..|].
    rewrite (arun_app_full _ _ _ _ _ _ _ _ _ _ Hq).
    unfold emit_field, csvfile_merge_cb1 at 2. rewrite bind_Ok, merge_cb1_cell by done.
    rewrite IH; [|done|by right|by left].
    f_equal. rewrite (length_app (_ ++ [d])). lia.
Qed.

Lemma arun_rows rows c ex n :
  Forall row_ok rows -> exists ex',
  run (anew ROW_NOT_BEGUN) (Ok (at_sheet c ex)) (table_text d rows) n =
  (anew ROW_NOT_BEGUN, Ok (at_sheet (add_records c (norm_rows rows)) ex'),
   n + Zlen (table_text d rows)).
Proof.
  intros H. revert c ex n. induction H as [|row rows (Hne & Hc & Hs) _ IH]; intros c ex n.
  { exists ex. unfold table_text; simpl. by rewrite Z.add_0_r. }
  destruct (IH (CsvS.addRecord (add_fields c (norm <$> row))) true (n + Zlen (row_text d row)))
    as (ex' & Hr). exists ex'.
  change (table_text d (row :: rows)) with (row_text d row ++ table_text d rows).
  rewrite (arun_app_full _ _ _ _ _ _ _ _ _ _
    (arun_cells row ROW_NOT_BEGUN c ex n Hne Hc (or_introl eq_refl) (or_intror Hs))), Hr.
  f_equal. rewrite length_app. lia.
Qed.

(** [encode] of a rectangular sheet. *)
Lemma encode_cells_eq row pre cell y :
  (forall x, 0 <= x < Zlen (pre ++ row) -> exists p, (pre ++ row) !! Z.to_nat x = Some p /\
     cell x y = Ok p) ->
  encode_cells cell (style_of d) (Zlen pre) y (length row) =
  Ok ((if bool_decide (pre = []) || bool_decide (row = []) then [] else [d]) ++
      join d ((fun p => encodeCell p (style_of d)) <$> row)).
Proof.
  revert pre. induction row as [|p row IH]; intros pre Hcell; simpl.
  { by rewrite orb_true_r. }
  destruct (Hcell (Zlen pre)) as (p' & Hp & ->); [rewrite length_app; simpl; lia|].
  rewrite Nat2Z.id, list_lookup_middle in Hp by done. simplify_eq. rewrite bind_Ok.
  specialize (IH (pre ++ [p'])). rewrite <- app_assoc in IH. specialize (IH Hcell).
  rewrite length_app, Nat2Z.inj_add in IH. change (Zlen [p']) with 1 in IH.
  rewrite IH, bind_Ok. f_equal.
  rewrite (bool_decide_false (pre ++ [p'] = [])) by (by destruct pre).
  rewrite orb_false_r. simpl. f_equal.
  - destruct pre; done.
  - destruct row; simpl; [by rewrite !app_nil_r|done].
Qed.

Lemma encode_rows_eq (rows pre : list (list pcell)) m cell :
  Forall (fun row => Zlen row = m) rows ->
  (forall (y : nat) row, rows !! y = Some row ->
     forall x, 0 <= x < m -> exists p, row !! Z.to_nat x = Some p /\
       cell x (Zlen pre + Z.of_nat y) = Ok p) ->
  encode_rows cell m None (style_of d) (Zlen pre) (length rows) =
  Ok (table_text d rows).
Proof.
  intros Hm. revert pre. induction Hm as [|row rows Hrow _ IH]; intros pre Hcell; [done|].
  cbn [length encode_rows].
  assert (encode_cells cell (style_of d) 0 (Zlen pre) (Z.to_nat m) =
          Ok (join d ((fun p => encodeCell p (style_of d)) <$> row))) as ->.
  { pose proof (encode_cells_eq row [] cell (Zlen pre)) as H.
    change (Zlen []) with 0 in H. cbn [app bool_decide decide] in H.
    rewrite <- Hrow, Nat2Z.id. rewrite H; [done|]. intros x Hx.
    destruct (Hcell 0%nat row) with (x := x) as (p & Hp & Hc); [done|lia|].
    exists p. by rewrite Z.add_0_r in Hc. }
  rewrite bind_Ok. specialize (IH (pre ++ [row])). rewrite length_app, Nat2Z.inj_add in IH.
  change (Zlen [row]) with 1 in IH. rewrite IH.
  - rewrite bind_Ok. f_equal. unfold table_text, row_text. simpl. by rewrite <- !app_assoc.
  - intros y row' Hy x Hx. destruct (Hcell (S y) row') with (x := x) as (p & Hp & Hc);
      [done|done|]. exists p. split; [done|]. rewrite <- Hc. f_equal. lia.
Qed.

Lemma encode_csv_eq c rows m :
  holds rows m c -> Forall (fun row => Zlen row = m) rows ->
  encode_csv c None (style_of d) = Ok (table_text d rows).
Proof.
  intros (z & ->) Hm. unfold encode_csv, encode. simpl. rewrite Nat2Z.id.
  apply (encode_rows_eq rows [] m); [done|]. intros y row Hy x Hx.
  rewrite Forall_lookup in Hm. pose proof (Hm y row Hy) as Hlen.
  destruct (rd_in row x) as (p & Hp & Hl); [lia|]. exists p. split; [done|].
  unfold CsvS.cellString, Typed.cell. simpl.
  rewrite (rd_ok rows _ row) by (lia || by rewrite ?Z.add_0_l, Nat2Z.id). done.
Qed.
End Rows.

(** ** Claims *)

(** The text a source holds (a pipe's separator is guessed, so it is left out). *)
Definition source_text (src : source) : option (list Z) :=
  match src with
  | FromMemory data => Some data
  | FromFile _ chunks => Some (concat chunks)
  | FromPipe _ _ => None
  end.

(** The options that name the delimiter. *)
Definition delimiter_config (d : Z) : config := Config (Some [d]) None None None None None.

Lemma cell_ok_norm p : cell_ok p -> no_nul (norm p).1.
Proof. destruct p as [str []]; simpl; [intros _; by repeat constructor|by intros [? _]]. Qed.

(** The pieces [read] feeds to the parser, for a source that is not a pipe. *)
Definition pieces (src : source) : list (list Z) :=
  match src with FromMemory data => [data] | FromFile _ chunks | FromPipe _ chunks => chunks end.

Lemma pieces_text src text : source_text src = Some text -> concat (pieces src) = text.
Proof. destruct src; simpl; intros; simplify_eq; [by rewrite app_nil_r|done]. Qed.

(** [read] into one sheet with only a delimiter configured. *)
Lemma read_eq realloc src text d c0 :
  source_text src = Some text ->
  read realloc src (state_for_sheet c0) (delimiter_config d) =
  (o ← parse_chunks (reading realloc d) (pieces src)
         (Ok (st_with (style_of d) (CsvS.csv_clear c0) true));
   match o with
   | None => Ok None
   | Some (p, dd) =>
       '(_, _, dd) ← csv_fini (Some csvfile_merge_cb1) (Some csvfile_merge_cb2) p dd;
       st ← dd; Ok (Some st)
   end).
Proof.
  destruct src as [data|f ch|f ch]; [done| |done]. intros _. unfold read.
  assert (setFromProperty (setFromFilename defaultStyle f).2 (delimiter_config d) = style_of d)
    as Hs by (unfold setFromFilename; by repeat case_match).
  cbn -[parse_chunks setFromFilename setFromProperty]. rewrite Hs. done.
Qed.

Lemma csv_fini_between {D} (cb1 : option (list Z -> bool -> D -> D)) cb2 p dd :
  abs p = anew ROW_NOT_BEGUN -> exists p', csv_fini cb1 cb2 p dd = Ok (0, p', dd).
Proof.
  intros Ha. assert (pstate (p_regs p) = ROW_NOT_BEGUN) as Hst by (by injection Ha as -> _).
  unfold csv_fini. rewrite Hst. eauto.
Qed.

Lemma reading_ready realloc d :
  realloc_ok realloc -> (forall b n, 0 <= n <= SIZE_MAX -> is_Some (realloc b n)) ->
  ready (reading realloc d).
Proof.
  intros Hre Hmem. split_and!; [split; [constructor; simpl; try done|done]| |done].
  split; [done|exact Hmem].
Qed.

(** The text of a table, in any pieces, parsed into a sheet. *)
Definition parsed (realloc : option (list Z) -> Z -> option (list Z)) (d : Z) (c0 : CsvSheet)
    (chunks : list (list Z)) : result (option CsvSheetReaderState) :=
  o ← parse_chunks (reading realloc d) chunks (Ok (st_with (style_of d) (CsvS.csv_clear c0) true));
  match o with
  | None => Ok None
  | Some (p, dd) =>
      '(_, _, dd) ← csv_fini (Some csvfile_merge_cb1) (Some csvfile_merge_cb2) p dd;
      st ← dd; Ok (Some st)
  end.

Lemma table_parsed realloc d c0 rows m chunks :
  realloc_ok realloc -> (forall b n, 0 <= n <= SIZE_MAX -> is_Some (realloc b n)) ->
  delim_ok d -> m <> 0 -> Forall (fun row => Zlen row = m) rows -> Forall row_ok rows ->
  concat chunks = table_text d rows -> Zlen (table_text d rows) + 1 < SIZE_MAX ->
  exists c' ex m', parsed realloc d c0 chunks = Ok (Some (st_with (style_of d) c' ex)) /\
    holds (norm_rows rows) m' c' /\ (rows <> [] -> m' = m).
Proof.
  intros Hre Hmem Hd Hm Hlen Hrows Hc Hsize. set (c1 := CsvS.csv_clear c0).
  destruct (arun_rows realloc d Hd rows c1 true 0 Hrows) as (ex & Hrun).
  destruct (add_records_holds [] (norm_rows rows) 0 m c1) as (m' & Hh' & Hm').
  { by exists (zero (s c0)). }
  { done. }
  { done. }
  { done. }
  { apply Forall_fmap. eapply Forall_impl; [|exact Hlen]. intros row Hr.
    unfold compose. by rewrite length_fmap. }
  { apply Forall_fmap. eapply Forall_impl; [|exact Hrows]. intros row (_ & Hcl & _).
    apply Forall_fmap. eapply Forall_impl; [|exact Hcl]. intros p Hp. by apply cell_ok_norm. }
  exists (add_records c1 (norm_rows rows)), ex, m'. split; [|split; [done|]].
  2: { intros Hne. apply Hm'. intros E. apply Hne. by destruct rows. }
  unfold parsed. fold c1. destruct (parse_chunks_complete chunks (reading realloc d)
              (Ok (st_with (style_of d) c1 true)) (anew ROW_NOT_BEGUN)
              (Ok (st_with (style_of d) (add_records c1 (norm_rows rows)) ex))) as (p' & Hp & Ha).
  { by apply reading_ready. }
  { rewrite Hc. change (Zlen (a_text (abs (reading realloc d)))) with 0. lia. }
  { rewrite Hc. exact Hrun. }
  destruct (csv_fini_between (Some csvfile_merge_cb1) (Some csvfile_merge_cb2) p'
    (Ok (st_with (style_of d) (add_records c1 (norm_rows rows)) ex)) Ha) as (p2 & Hf).
  rewrite Hp, bind_Ok, Hf. done.
Qed.

(** [read] from a [Reader], without options. *)
Lemma read_reader_eq realloc chunks c0 :
  read_reader realloc chunks c0 no_config = parsed realloc 44 c0 chunks.
Proof. reflexivity. Qed.

(** C8. Round trip through CSV text: a rectangular sheet whose rows are [row_ok]
    (texts without NULs, trailing line breaks, a line break before a quote, or
    underscores before a proper prefix of NULL; no row that is a single empty
    cell), encoded in the default style with any delimiter that occurs in no
    token, is read back by [read], from memory or from a file delivered in any
    pieces, as exactly the same rows; a null cell comes back as a null. *)
Theorem csv_file_roundtrip (realloc : option (list Z) -> Z -> option (list Z)) (d : Z)
    (c c0 : CsvSheet) (rows : list (list pcell)) (m : Z) (src : source) (text : list Z) :
  realloc_ok realloc -> (forall b n, 0 <= n <= SIZE_MAX -> is_Some (realloc b n)) ->
  delim_ok d -> holds rows m c -> m <> 0 ->
  Forall (fun row => Zlen row = m) rows -> Forall row_ok rows ->
  encode_csv c None (style_of d) = Ok text -> source_text src = Some text ->
  Zlen text + 1 < SIZE_MAX ->
  exists c' ex m', read realloc src (state_for_sheet c0) (delimiter_config d) =
      Ok (Some (st_with (style_of d) c' ex)) /\
    holds (norm_rows rows) m' c' /\ (rows <> [] -> m' = m).
Proof.
  intros Hre Hmem Hd Hh Hm Hlen Hrows Henc Hsrc Hsize.
  rewrite (encode_csv_eq d c rows m) in Henc by done. injection Henc as <-.
  rewrite (read_eq _ _ _ _ _ Hsrc). by apply table_parsed, Hsize; try apply pieces_text.
Qed.

(** A null, an empty text, a text that looks like a null, and texts that need
    quoting. *)
Definition sample_rows : list (list pcell) :=
  [[(cstr "a,b ", false); ([], true)]; [([], false); (NULL, false)];
   [([97; 10; 98; 34], false); (cstr "__NULL", false)]].
Definition sample_sheet : CsvSheet := add_records CsvS.create sample_rows.

Lemma csv_file_roundtrip_witness :
  exists text, encode_csv sample_sheet None (style_of 44) = Ok text /\
  exists c' ex m', read realloc_zero (FromFile (cstr "a.csv") [take 7 text; drop 7 text])
      (state_for_sheet CsvS.create) (delimiter_config 44) =
      Ok (Some (st_with (style_of 44) c' ex)) /\
    holds (norm_rows sample_rows) m' c' /\ (sample_rows <> [] -> m' = 2).
Proof.
  eexists. split; [vm_compute; reflexivity|].
  eapply (csv_file_roundtrip realloc_zero 44 sample_sheet CsvS.create sample_rows 2).
  - apply realloc_zero_ok.
  - intros b n _. by eexists.
  - unfold delim_ok. rewrite !not_elem_of_cons. split_and!; try done. apply not_elem_of_nil.
  - by exists ([], false).
  - done.
  - repeat constructor.
  - repeat constructor; try done; simpl.
    all: try (intros _ n Hn; do 4 (destruct n as [|n]; [done|]); lia).
    all: try (by left).
    all: try (repeat (constructor; try done)).
  - vm_compute. reflexivity.
  - reflexivity.
  - done.
Defined.

(** What a one-column sheet of one text reads back as. *)
Definition reread (str : list Z) : result (option (list (list pcell))) :=
  text ← encode_csv (add_records CsvS.create [[(str, false)]]) None defaultStyle;
  o ← read realloc_zero (FromMemory text) (state_for_sheet CsvS.create) no_config;
  Ok (match o with
      | Some st => Some (concat ((fun x => arr (s (r_sheet x))) <$> sheets st))
      | None => None
      end).

(** Underscores before a proper prefix of the null token lose one underscore:
    the reader compares only as many characters as the field has left. *)
Lemma reread_underscore :
  reread (cstr "_") = Ok (Some [[([], false)]]) /\
  reread (cstr "__NU") = Ok (Some [[(cstr "_NU", false)]]).
Proof. vm_compute. done. Qed.

(** A line break directly before a quote: the doubled quote is emitted before the
    pending line break, which ends the field and the row. *)
Lemma reread_break_quote :
  reread [97; 10; 34; 98] = Ok (Some [[(cstr "a", false)]; [(cstr "b", false)]]).
Proof. vm_compute. done. Qed.

(** Trailing line breaks are trimmed, and a row that is one empty cell is lost. *)
Lemma reread_trimmed :
  reread [97; 10] = Ok (Some [[(cstr "a", false)]]) /\ reread [] = Ok (Some []).
Proof. vm_compute. done. Qed.

(** A sheet heading without its closing equals sign: the name is taken as a C
    string that runs past the end of the field. *)
Lemma heading_unterminated :
  read realloc_zero (FromMemory (cstr "== foo" ++ [10])) state_for_book no_config =
  Fault OutOfBounds.
Proof. vm_compute. done. Qed.
