(* ===== verification/Viterbi.v ===== *)
(** * Sparse sheets and the Viterbi lattice

    Models [SparseSheet<T>] ([libcoopy_core/include/coopy/SparseSheet.h]), the
    hash-backed table of the comparison passes, and [Viterbi]
    ([libcoopy_core/Viterbi.cpp], [include/coopy/Viterbi.h]), the lattice that
    chooses the cheapest alignment of columns and the layout of a diff.

    - A cell [(x,y)] lives under the key [y*w+x]; the non-const [cell] creates it
      with the value [zero], so every read of the lattice is a state change.
    - The costs of the lattice are [float]s: they are an arbitrary type with the
      three operations of the class [CostOps].  [CostLaws] states what the
      proof of optimality uses of them, which rounded addition of finite floats
      satisfies: a total order in which addition of the same cost is monotone.  That a
      path is found needs none of it.
    - [COOPY_ASSERT] that fails is [Fault AssertFailed]. *)

From stdpp Require Import gmap.
From S2P Require Import Prelude.
#[local] Open Scope Z_scope.

(** ** SparseSheet *)

Record SparseSheet (T : Type) := Sparse {
  sp_data : gmap Z T;
  sp_row : gmap Z (gset Z);
  sp_col : gmap Z (gset Z);
  sp_h : Z;
  sp_w : Z;
  sp_zero : T
}.
Arguments Sparse {T} sp_data sp_row sp_col sp_h sp_w sp_zero.
Arguments sp_data {T} s : rename.
Arguments sp_row {T} s : rename.
Arguments sp_col {T} s : rename.
Arguments sp_h {T} s : rename.
Arguments sp_w {T} s : rename.
Arguments sp_zero {T} s : rename.

Module SparseS.
Section Ops.
Context {T : Type}.
Implicit Types (m : SparseSheet T).

Definition sp_create (z : T) : SparseSheet T := Sparse ∅ ∅ ∅ 0 0 z.
Definition sp_resize m (nw nh : Z) (z : T) : SparseSheet T := Sparse ∅ ∅ ∅ nh nw z.
Definition sp_nonDestructiveResize m (nw nh : Z) (z : T) : SparseSheet T :=
  Sparse (sp_data m) (sp_row m) (sp_col m) nh nw z.
Definition reheight m (nh : Z) : SparseSheet T :=
  if nh >=? sp_h m then Sparse (sp_data m) (sp_row m) (sp_col m) nh (sp_w m) (sp_zero m) else m.
Definition sp_clear m : SparseSheet T := Sparse ∅ ∅ ∅ (sp_h m) (sp_w m) (sp_zero m).

Definition sp_key m (x y : Z) : Z := y * sp_w m + x.

(** The const [cell] (and [cell_const]), and [pcell_const]. *)
Definition cell_const m (x y : Z) : T := default (sp_zero m) (sp_data m !! sp_key m x y).
Definition pcell_const m (x y : Z) : option T := sp_data m !! sp_key m x y.

(** The non-const [cell]: the value, and the sheet with the cell created. *)
Definition sp_cell m (x y : Z) : T * SparseSheet T :=
  match sp_data m !! sp_key m x y with
  | Some v => (v, m)
  | None => (sp_zero m,
             Sparse (<[sp_key m x y := sp_zero m]> (sp_data m))
               (<[y := {[x]} ∪ default ∅ (sp_row m !! y)]> (sp_row m))
               (<[x := {[y]} ∪ default ∅ (sp_col m !! x)]> (sp_col m))
               (sp_h m) (sp_w m) (sp_zero m))
  end.
(** An assignment through the reference it returns. *)
Definition sp_set m (x y : Z) (v : T) : SparseSheet T :=
  let m := (sp_cell m x y).2 in
  Sparse (<[sp_key m x y := v]> (sp_data m)) (sp_row m) (sp_col m) (sp_h m) (sp_w m) (sp_zero m).

Definition remove m (x y : Z) : bool * SparseSheet T :=
  match sp_data m !! sp_key m x y with
  | Some _ => (true, Sparse (delete (sp_key m x y) (sp_data m)) (sp_row m) (sp_col m) (sp_h m)
                       (sp_w m) (sp_zero m))
  | None => (false, m)
  end.

Definition getCellsInRow m (y : Z) : gset Z := default ∅ (sp_row m !! y).
Definition getCellsInCol m (x : Z) : gset Z := default ∅ (sp_col m !! x).
End Ops.
End SparseS.

(** ** Costs *)

Class CostOps (C : Type) := {
  czero : C;
  cone : C;
  cadd : C -> C -> C;
  cltb : C -> C -> bool
}.

Definition cle {C} `{CostOps C} (a b : C) : Prop := cltb b a = false.

Class CostLaws (C : Type) `{CostOps C} : Prop := {
  cle_refl : forall a : C, cle a a;
  cle_trans : forall a b c : C, cle a b -> cle b c -> cle a c;
  clt_cle : forall a b : C, cltb a b = true -> cle a b;
  cadd_mono : forall a b c : C, cle a b -> cle (cadd c a) (cadd c b)
}.

(** Integer costs: those of [OrderMerge] are 0 and 1. *)
#[export] Instance Z_CostOps : CostOps Z :=
  {| czero := 0; cone := 1; cadd := Z.add; cltb := Z.ltb |}.
#[export] Instance Z_CostLaws : CostLaws Z.
Proof. constructor; unfold cle; simpl; intros *; rewrite ?Z.ltb_ge, ?Z.ltb_lt; lia. Qed.

(** ** Viterbi *)

Module Vit.
Section Lattice.
Context {C : Type} `{CostOps C}.

Record Viterbi := Viterbi_ {
  K : Z;
  T : Z;
  index : Z;
  mode : Z;
  path_valid : bool;
  best_cost : C;
  cost : SparseSheet C;
  src : SparseSheet Z;
  path : SparseSheet Z
}.

(** The fields [reset] sets; the sheets keep their cells. *)
Definition reset (v : Viterbi) : Viterbi :=
  Viterbi_ (K v) (T v) 0 0 false czero (cost v) (src v) (path v).

(** The constructor: the sheets are empty (their [zero] is set when they are
    first sized). *)
Definition new_viterbi : Viterbi :=
  reset (Viterbi_ 0 0 0 0 false czero (SparseS.sp_create czero) (SparseS.sp_create (-1))
           (SparseS.sp_create (-1))).

Definition setSize (v : Viterbi) (states sequence_length : Z) : Viterbi :=
  reset (Viterbi_ states sequence_length (index v) (mode v) (path_valid v) (best_cost v)
           (SparseS.sp_resize (cost v) states sequence_length czero)
           (SparseS.sp_resize (src v) states sequence_length (-1))
           (SparseS.sp_resize (path v) 1 sequence_length (-1))).

Definition assertMode (v : Viterbi) (n_mode : Z) : Viterbi :=
  let i := if (n_mode =? 0) && (mode v =? 1) then index v + 1 else index v in
  Viterbi_ (K v) (T v) i n_mode (path_valid v) (best_cost v) (cost v) (src v) (path v).

Definition invalidate (v : Viterbi) : Viterbi :=
  Viterbi_ (K v) (T v) (index v) (mode v) false (best_cost v) (cost v) (src v) (path v).
Definition beginTransitions (v : Viterbi) : Viterbi := assertMode (invalidate v) 1.
Definition endTransitions (v : Viterbi) : Viterbi := assertMode (invalidate v) 0.

(** [nonDestructiveResize] of the three sheets to the current [K] and [T]. *)
Definition regrow (v : Viterbi) : Viterbi :=
  Viterbi_ (K v) (T v) (index v) (mode v) (path_valid v) (best_cost v)
    (SparseS.sp_nonDestructiveResize (cost v) (K v) (T v) czero)
    (SparseS.sp_nonDestructiveResize (src v) (K v) (T v) (-1))
    (SparseS.sp_nonDestructiveResize (path v) 1 (T v) (-1)).

(** The end of [addTransition]: the transition from [s0] at cost [c] is kept if
    it is the first or the cheapest way to [s1]. *)
Definition relax (v : Viterbi) (s0 s1 : Z) (c : C) : Viterbi :=
  let '(old, cost1) := SparseS.sp_cell (cost v) s1 (index v) in
  let '(take, src1) :=
    if cltb c old then (true, src v)
    else let '(x, src1) := SparseS.sp_cell (src v) s1 (index v) in (x =? -1, src1) in
  if take : bool
  then Viterbi_ (K v) (T v) (index v) (mode v) (path_valid v) (best_cost v)
         (SparseS.sp_set cost1 s1 (index v) c) (SparseS.sp_set src1 s1 (index v) s0) (path v)
  else Viterbi_ (K v) (T v) (index v) (mode v) (path_valid v) (best_cost v) cost1 src1 (path v).

Definition addTransition (v : Viterbi) (s0 s1 : Z) (c : C) : Viterbi :=
  let K1 := if s0 >=? K v then s0 + 1 else K v in
  let K2 := if s1 >=? K1 then s1 + 1 else K1 in
  let resize := (s0 >=? K v) || (s1 >=? K1) in
  let v := Viterbi_ K2 (T v) (index v) (mode v) (path_valid v) (best_cost v) (cost v) (src v)
             (path v) in
  let v := if resize then regrow v else v in
  let v := assertMode (invalidate v) 1 in
  let v := if index v >=? T v
           then regrow (Viterbi_ (K v) (index v + 1) (index v) (mode v) (path_valid v) (best_cost v)
                          (cost v) (src v) (path v))
           else v in
  if index v >? 0 then
    let '(prev, cost1) := SparseS.sp_cell (cost v) s0 (index v - 1) in
    let '(from, src1) := SparseS.sp_cell (src v) s0 (index v - 1) in
    let v := Viterbi_ (K v) (T v) (index v) (mode v) (path_valid v) (best_cost v) cost1 src1
               (path v) in
    if negb (from =? -1) then relax v s0 s1 (cadd c prev) else v
  else relax v s0 s1 c.

(** The loop that looks for the cheapest final state: [best] and [bestj]. *)
Fixpoint find_best (n : nat) (j : Z) (v : Viterbi) (best : C) (bestj : Z) : C * Z * Viterbi :=
  match n with
  | O => (best, bestj, v)
  | S n =>
      let '(c, cost1) := SparseS.sp_cell (cost v) j (index v - 1) in
      let v := Viterbi_ (K v) (T v) (index v) (mode v) (path_valid v) (best_cost v) cost1 (src v)
                 (path v) in
      if cltb c best || (bestj =? -1) then
        let '(x, src1) := SparseS.sp_cell (src v) j (index v - 1) in
        let v := Viterbi_ (K v) (T v) (index v) (mode v) (path_valid v) (best_cost v) (cost v) src1
                   (path v) in
        if negb (x =? -1)
        then let '(c, cost1) := SparseS.sp_cell (cost v) j (index v - 1) in
             find_best n (j + 1)
               (Viterbi_ (K v) (T v) (index v) (mode v) (path_valid v) (best_cost v) cost1 (src v)
                  (path v)) c j
        else find_best n (j + 1) v best bestj
      else find_best n (j + 1) v best bestj
  end.

(** The loop that walks back from [bestj]: steps [n - 1] to 0. *)
Fixpoint trace (n : nat) (v : Viterbi) (bestj : Z) : result Viterbi :=
  match n with
  | O => Ok v
  | S n =>
      let i := Z.of_nat n in
      let path1 := SparseS.sp_set (path v) 0 i bestj in
      _ ← check (negb (bestj =? -1)) AssertFailed;
      _ ← check ((bestj >=? 0) && (bestj <? K v)) AssertFailed;
      let '(prev, src1) := SparseS.sp_cell (src v) bestj i in
      trace n (Viterbi_ (K v) (T v) (index v) (mode v) (path_valid v) (best_cost v) (cost v) src1
                 path1) prev
  end.

Definition set_valid (v : Viterbi) : Viterbi :=
  Viterbi_ (K v) (T v) (index v) (mode v) true (best_cost v) (cost v) (src v) (path v).

Definition calculatePath (v : Viterbi) : result Viterbi :=
  if path_valid v then Ok v else
  let v := endTransitions v in
  if index v <=? 0 then Ok (set_valid v) else
  let '(best, bestj, v) := find_best (Z.to_nat (K v)) 0 v czero (-1) in
  let v := Viterbi_ (K v) (T v) (index v) (mode v) (path_valid v) best (cost v) (src v) (path v) in
  v ← trace (Z.to_nat (index v)) v bestj;
  Ok (set_valid v).

Definition vit_length (v : Viterbi) : result (Z * Viterbi) :=
  v ← (if index v >? 0 then calculatePath v else Ok v); Ok (index v, v).

Definition getPath (v : Viterbi) (i : Z) : result (Z * Viterbi) :=
  v ← calculatePath v;
  _ ← check (i <? index v) AssertFailed;
  let '(x, path1) := SparseS.sp_cell (path v) 0 i in
  Ok (x, Viterbi_ (K v) (T v) (index v) (mode v) (path_valid v) (best_cost v) (cost v) (src v) path1).

Definition getCost (v : Viterbi) : result (C * Viterbi) :=
  v ← calculatePath v; Ok (best_cost v, v).
End Lattice.
Arguments Viterbi C : clear implicits.
End Vit.
