(* ===== verification/ViterbiSpec.v ===== *)
(** * The Viterbi lattice finds a cheapest path

    Sheets that differ only in cells holding the default value are the same to
    every reader ([same]); up to that, [addTransition] keeps the table of the
    cheapest way to every state, and [calculatePath] returns a path of minimal
    cost, or fails its assertion when there is none. *)

From stdpp Require Import gmap.
From S2P Require Import Prelude Viterbi.
#[local] Open Scope Z_scope.

(** ** Sheets up to default cells *)

Section Same.
Context {T : Type}.
Implicit Types (m : SparseSheet T).

Definition same m m' : Prop :=
  sp_w m = sp_w m' /\ sp_zero m = sp_zero m' /\
  forall k, default (sp_zero m) (sp_data m !! k) = default (sp_zero m') (sp_data m' !! k).

#[export] Instance same_equivalence : Equivalence same.
Proof.
  split.
  - intros m. by split_and!.
  - intros m m' (? & ? & ?). by split_and!.
  - intros m1 m2 m3 (? & ? & H1) (? & ? & H2). split_and!; [congruence..|].
    intros k. by rewrite H1.
Qed.

#[export] Instance cell_const_proper : Proper (same ==> eq ==> eq ==> eq) SparseS.cell_const.
Proof.
  intros m m' (Hw & Hz & Hd) x _ <- y _ <-. unfold SparseS.cell_const, SparseS.sp_key.
  by rewrite Hw, Hd.
Qed.

Lemma same_cell m m' x y : same m m' -> SparseS.cell_const m x y = SparseS.cell_const m' x y.
Proof. intros Hm. by rewrite Hm. Qed.

(** Reading a cell creates it, which no reader notices. *)
Lemma sp_cell_spec m x y :
  exists m', SparseS.sp_cell m x y = (SparseS.cell_const m x y, m') /\ same m' m.
Proof.
  unfold SparseS.sp_cell, SparseS.cell_const.
  destruct (sp_data m !! SparseS.sp_key m x y) as [v|] eqn:E; [by exists m|].
  eexists. split; [done|]. split_and!; [done..|]. intros k; simpl.
  destruct (decide (k = SparseS.sp_key m x y)) as [->|Hne].
  - by rewrite lookup_insert_eq, E.
  - by rewrite lookup_insert_ne.
Qed.

Lemma sp_set_spec m x y v :
  sp_w (SparseS.sp_set m x y v) = sp_w m /\ sp_zero (SparseS.sp_set m x y v) = sp_zero m /\
  forall x' y', SparseS.cell_const (SparseS.sp_set m x y v) x' y' =
    if decide (SparseS.sp_key m x y = SparseS.sp_key m x' y') then v else SparseS.cell_const m x' y'.
Proof.
  destruct (sp_cell_spec m x y) as (m' & Hm & Hs). unfold SparseS.sp_set. rewrite Hm. simpl.
  pose proof Hs as (Hw & Hz & Hd). split_and!; [done..|]. intros x' y'.
  unfold SparseS.cell_const, SparseS.sp_key; simpl. rewrite Hw. case_decide as E.
  - by rewrite E, lookup_insert_eq.
  - by rewrite lookup_insert_ne, Hd by done.
Qed.

Lemma key_inj m x y x' y' :
  0 <= x < sp_w m -> 0 <= x' < sp_w m -> SparseS.sp_key m x y = SparseS.sp_key m x' y' ->
  x = x' /\ y = y'.
Proof.
  unfold SparseS.sp_key. intros Hx Hx' H. assert (y = y') as ->; [|lia].
  destruct (Z.lt_trichotomy y y') as [?|[?|?]]; [exfalso; nia|done|exfalso; nia].
Qed.
End Same.
#[export] Existing Instance same_equivalence.
#[export] Existing Instance cell_const_proper.

(** ** Paths *)

Import Vit.

(** What an order of the costs has to satisfy for the lattice to be minimal in it.
    The order of [CostLaws] is one; so is the relation that holds of all costs, with
    which the same proofs show, without any law, that the lattice finds a path. *)
Class CostRel {C : Type} `{CostOps C} (R : C -> C -> Prop) : Prop := {
  cr_refl : forall a, R a a;
  cr_trans : forall a b c, R a b -> R b c -> R a c;
  cr_lt : forall a b, cltb a b = true -> R a b;
  cr_ge : forall a b, cltb a b = false -> R b a;
  cr_mono : forall a b c, R a b -> R (cadd c a) (cadd c b)
}.

#[export] Instance cle_CostRel {C} `{CostLaws C} : CostRel (cle (C:=C)).
Proof. constructor; [apply cle_refl|apply cle_trans|apply clt_cle|done|apply cadd_mono]. Qed.

Definition any_cost {C} : C -> C -> Prop := fun _ _ => True.
#[export] Instance any_CostRel {C} `{CostOps C} : CostRel (any_cost (C:=C)).
Proof. by constructor. Qed.

Section Spec.
Context {C : Type} `{CostOps C} (R : C -> C -> Prop).

(** A transition: its two states and its cost. *)
Definition trans : Type := Z * Z * C.

(** [vpath layers i s k p]: taking one transition of each of the layers 0 to [i],
    each from the state the previous one led to, leads through the states [p]
    to [s], at cost [k]. *)
Inductive vpath (layers : list (list trans)) : nat -> Z -> C -> list Z -> Prop :=
| vp_first s0 s1 c l :
    layers !! 0%nat = Some l -> (s0, s1, c) ∈ l -> vpath layers 0 s1 c [s1]
| vp_next i s0 s1 c l k p :
    vpath layers i s0 k p -> layers !! S i = Some l -> (s0, s1, c) ∈ l ->
    vpath layers (S i) s1 (cadd c k) (p ++ [s1]).

(** A layer, and a sequence of layers, as the clients of the class add them. *)
Definition add_layer (v : Viterbi C) (l : list trans) : Viterbi C :=
  endTransitions
    (foldl (fun v t => addTransition v t.1.1 t.1.2 t.2) (beginTransitions v) l).
Definition add_layers (v : Viterbi C) (layers : list (list trans)) : Viterbi C :=
  foldl add_layer v layers.

(** The transitions connect states of the lattice. *)
Definition layer_ok (k : Z) (l : list trans) : Prop :=
  Forall (fun t : trans => 0 <= t.1.1 < k /\ 0 <= t.1.2 < k) l.

(** *** The table *)

Definition gc (v : Viterbi C) (s : Z) (i : nat) : C := SparseS.cell_const (cost v) s (Z.of_nat i).
Definition gs (v : Viterbi C) (s : Z) (i : nat) : Z := SparseS.cell_const (src v) s (Z.of_nat i).

(** The cost [t] at which a transition of cost [c] from [a] enters layer [i]. *)
Definition enters (v : Viterbi C) (i : nat) (a : Z) (c t : C) : Prop :=
  match i with
  | O => t = c
  | S i => gs v a i <> -1 /\ t = cadd c (gc v a i)
  end.

(** The entry of state [s] at layer [i] is the cheapest of the layer. *)
Definition entry_ok (v : Viterbi C) (i : nat) (l : list trans) (s : Z) : Prop :=
  (gs v s i <> -1 -> exists c, (gs v s i, s, c) ∈ l /\ enters v i (gs v s i) c (gc v s i)) /\
  (forall a c t, (a, s, c) ∈ l -> enters v i a c t -> gs v s i <> -1 /\ R (gc v s i) t).

Record lattice (k : Z) (v : Viterbi C) : Prop := {
  lt_K : K v = k;
  lt_wc : sp_w (cost v) = k;
  lt_ws : sp_w (src v) = k;
  lt_wp : sp_w (path v) = 1;
  lt_zc : sp_zero (cost v) = czero;
  lt_zs : sp_zero (src v) = -1;
  lt_zp : sp_zero (path v) = -1
}.

(** The lattice during layer [length ls], with the transitions [cur] added. *)
Record inv (k : Z) (ls : list (list trans)) (cur : list trans) (v : Viterbi C) : Prop := {
  inv_lattice : lattice k v;
  inv_index : index v = Zlen ls;
  inv_layers : Forall (layer_ok k) (ls ++ [cur]);
  inv_entries : forall i l s, (ls ++ [cur]) !! i = Some l -> 0 <= s < k -> entry_ok v i l s;
  inv_later : forall i s, (length ls < i)%nat -> 0 <= s < k -> gs v s i = -1
}.

(** ** Readers see no difference *)

(** States whose sheets are the [same] and that agree on [K] and [index]. *)
Definition vsim (v v' : Viterbi C) : Prop :=
  K v = K v' /\ index v = index v' /\ best_cost v = best_cost v' /\
  same (cost v) (cost v') /\ same (src v) (src v') /\ same (path v) (path v').

#[local] Instance vsim_equivalence : Equivalence vsim.
Proof.
  split.
  - intros v. by split_and!.
  - intros v v' (? & ? & ? & ? & ? & ?). by split_and!.
  - intros v1 v2 v3 (? & ? & ? & ? & ? & ?) (? & ? & ? & ? & ? & ?).
    split_and!; try congruence; by etrans.
Qed.

Lemma vsim_g v v' s i : vsim v v' -> gc v s i = gc v' s i /\ gs v s i = gs v' s i.
Proof.
  intros (_ & _ & _ & Hc & Hs & _). unfold gc, gs. by rewrite Hc, Hs.
Qed.

Lemma vsim_lattice k v v' : vsim v v' -> lattice k v -> lattice k v'.
Proof.
  intros (HK & _ & _ & (? & ? & _) & (? & ? & _) & (? & ? & _)) []. constructor; congruence.
Qed.

Lemma layer_ok_in k (l : list trans) a s c :
  layer_ok k l -> (a, s, c) ∈ l -> 0 <= a < k /\ 0 <= s < k.
Proof. intros Hl Hin. unfold layer_ok in Hl. rewrite Forall_forall in Hl.
  by apply list_elem_of_In, Hl in Hin. Qed.

(** Entries only depend on the table read through [gc] and [gs]. *)
Definition agree (k : Z) (v v' : Viterbi C) (i : nat) : Prop :=
  forall a, 0 <= a < k -> gs v a i = gs v' a i /\ gc v a i = gc v' a i.

Lemma enters_ext k v v' i a c t :
  (forall j, i = S j -> agree k v v' j) -> 0 <= a < k -> enters v i a c t -> enters v' i a c t.
Proof.
  intros Hj Ha. destruct i as [|j]; [done|]. simpl. by destruct (Hj j eq_refl a Ha) as [-> ->].
Qed.

Lemma entry_ext k v v' i l s :
  gs v s i = gs v' s i -> gc v s i = gc v' s i -> (forall j, i = S j -> agree k v v' j) ->
  layer_ok k l -> entry_ok v i l s -> entry_ok v' i l s.
Proof.
  intros Hgs Hgc Hj Hl [H1 H2].
  assert (forall j, i = S j -> agree k v' v j) as Hj'.
  { intros j Hij a Ha. destruct (Hj j Hij a Ha). done. }
  unfold entry_ok. rewrite <- Hgs, <- Hgc. split.
  - intros Hne. destruct (H1 Hne) as (c & Hin & Hen). exists c. split; [done|].
    eapply (enters_ext k); [exact Hj| |done]. exact (proj1 (layer_ok_in _ _ _ _ _ Hl Hin)).
  - intros a c t' Hin Hen. apply (H2 a c t' Hin).
    eapply (enters_ext k); [exact Hj'| |done]. exact (proj1 (layer_ok_in _ _ _ _ _ Hl Hin)).
Qed.

Lemma vsim_agree k v v' i : vsim v v' -> agree k v v' i.
Proof. intros Hv a _. by destruct (vsim_g v v' a i Hv). Qed.

Lemma inv_sim k ls cur v v' : vsim v v' -> inv k ls cur v -> inv k ls cur v'.
Proof.
  intros Hv [Hl Hi Hok He Hlater]. constructor.
  - by eapply vsim_lattice.
  - by destruct Hv as (_ & <- & _).
  - done.
  - intros i l s Hls Hs. destruct (vsim_agree k v v' i Hv s Hs) as [Hg1 Hg2].
    eapply (entry_ext k); eauto using vsim_agree. by eapply Forall_lookup_1.
  - intros i s Hlt Hs. destruct (vsim_g v v' s i Hv) as [_ <-]. by apply Hlater.
Qed.

(** ** Adding a transition *)

Definition taken (v : Viterbi C) (s1 : Z) (n : nat) (c : C) : bool :=
  cltb c (gc v s1 n) || (gs v s1 n =? -1).

Lemma set_cell_g {A} (m : SparseSheet A) k x (n : nat) (y : A) s (i : nat) :
  sp_w m = k -> 0 <= x < k -> 0 <= s < k ->
  SparseS.cell_const (SparseS.sp_set m x (Z.of_nat n) y) s (Z.of_nat i) =
  if decide (s = x /\ i = n) then y else SparseS.cell_const m s (Z.of_nat i).
Proof.
  intros Hw Hx Hs. destruct (sp_set_spec m x (Z.of_nat n) y) as (_ & _ & ->).
  case_decide as E; case_decide as E2; try done.
  - exfalso. apply E2. apply key_inj in E; lia.
  - exfalso. apply E. destruct E2 as [-> ->]. done.
Qed.

Lemma same_set_w {A} (m m' : SparseSheet A) x y z :
  same m' m -> sp_w (SparseS.sp_set m' x y z) = sp_w m /\ sp_zero (SparseS.sp_set m' x y z) = sp_zero m.
Proof.
  intros (Hw & Hz & _). destruct (sp_set_spec m' x y z) as (-> & -> & _). done.
Qed.

Lemma relax_spec k v s0 s1 c (n : nat) :
  lattice k v -> index v = Z.of_nat n -> 0 <= s1 < k ->
  let v' := relax v s0 s1 c in
  lattice k v' /\ index v' = index v /\ mode v' = mode v /\
  forall s i, 0 <= s < k ->
    gs v' s i = (if decide (s = s1 /\ i = n /\ taken v s1 n c = true) then s0 else gs v s i) /\
    gc v' s i = (if decide (s = s1 /\ i = n /\ taken v s1 n c = true) then c else gc v s i).
Proof.
  intros Hl Hn Hs1. unfold relax. rewrite Hn.
  destruct (sp_cell_spec (cost v) s1 (Z.of_nat n)) as (cost1 & -> & Hc1).
  destruct (sp_cell_spec (src v) s1 (Z.of_nat n)) as (src1 & Hsrc & Hs1').
  assert (exists src2, (if cltb c (gc v s1 n) then (true, src v)
     else let '(x, src1) := SparseS.sp_cell (src v) s1 (Z.of_nat n) in (x =? -1, src1)) =
     (taken v s1 n c, src2) /\ same src2 (src v)) as (src2 & Heq & Hsame).
  { unfold taken. destruct (cltb c (gc v s1 n)); [by exists (src v)|].
    exists src1. rewrite Hsrc. done. }
  unfold gc in Heq. rewrite Heq. destruct Hl as [HK Hwc Hws Hwp Hzc Hzs Hzp].
  destruct (taken v s1 n c).
  - destruct (same_set_w (cost v) cost1 s1 (Z.of_nat n) c Hc1) as [Hw1 Hz1].
    destruct (same_set_w (src v) src2 s1 (Z.of_nat n) s0 Hsame) as [Hw2 Hz2].
    split_and!; try done; [constructor; cbn [K cost src path]; congruence|]. intros s i Hs.
    unfold gs, gc; cbn [cost src]. pose proof Hc1 as (Hw & _). pose proof Hsame as (Hw' & _).
    rewrite !(set_cell_g _ k), (same_cell _ _ s _ Hc1), (same_cell _ _ s _ Hsame) by congruence.
    split; repeat case_decide; try done; exfalso; tauto.
  - pose proof Hc1 as (Hw & Hz & _). pose proof Hsame as (Hw' & Hz' & _).
    split_and!; try done; [constructor; cbn [K cost src path]; congruence|]. intros s i Hs.
    unfold gs, gc; cbn [cost src]. rewrite (same_cell _ _ s _ Hc1), (same_cell _ _ s _ Hsame).
    by rewrite !decide_False by (intros (_ & _ & [=])).
Qed.

(** Growing the number of steps and reading leave the table alone. *)
Lemma regrow_sim k v n : lattice k v ->
  vsim v (regrow (Viterbi_ (K v) n (index v) (mode v) (path_valid v) (best_cost v) (cost v) (src v)
                    (path v))).
Proof.
  intros [HK Hwc Hws Hwp Hzc Hzs Hzp]. unfold regrow, SparseS.sp_nonDestructiveResize.
  split_and!; try done; (split_and!; cbn; [congruence..|]). all: try by rewrite ?Hzc, ?Hzs, ?Hzp.
Qed.

(** What a transition does to the table, given where it comes from. *)
Lemma addTransition_spec k v s0 s1 c (n : nat) :
  lattice k v -> index v = Z.of_nat n -> 0 <= s0 < k -> 0 <= s1 < k ->
  exists v1, vsim v v1 /\ mode v1 = 1 /\
  addTransition v s0 s1 c =
  match n with
  | O => relax v1 s0 s1 c
  | S m => if gs v s0 m =? -1 then v1 else relax v1 s0 s1 (cadd c (gc v s0 m))
  end.
Proof.
  intros Hl Hn Hs0 Hs1. unfold addTransition. pose proof (lt_K k v Hl) as HK.
  rewrite !Z.geb_leb, (proj2 (Z.leb_gt (K v) s0)) by lia.
  rewrite (proj2 (Z.leb_gt (K v) s1)) by lia. cbn [orb].
  set (v0 := assertMode (invalidate _) 1).
  assert (vsim v v0 /\ mode v0 = 1 /\ T v0 = T v) as (H0 & Hm0 & HT0) by done.
  set (v2 := if T v0 <=? index v0 then _ else v0).
  assert (vsim v v2 /\ mode v2 = 1) as (H2 & Hm2).
  { unfold v2. destruct (T v0 <=? index v0); [|done]. split; [|done]. etrans; [exact H0|].
    apply (regrow_sim k). by eapply vsim_lattice. }
  clearbody v2. clear v0 H0 Hm0 HT0. pose proof H2 as (_ & Hi & _ & Hc & Hs & Hp). rewrite <- Hi, Hn.
  destruct n as [|m]; [by exists v2|]. rewrite Z.gtb_ltb, (proj2 (Z.ltb_lt _ _)) by lia.
  replace (Z.of_nat (S m) - 1) with (Z.of_nat m) by lia.
  destruct (sp_cell_spec (cost v2) s0 (Z.of_nat m)) as (cost1 & -> & Hc1).
  destruct (sp_cell_spec (src v2) s0 (Z.of_nat m)) as (src1 & -> & Hs1').
  rewrite <- (same_cell _ _ s0 _ Hc), <- (same_cell _ _ s0 _ Hs). fold (gc v s0 m) (gs v s0 m).
  eexists. split; [|split; [|destruct (gs v s0 m =? -1); cbn [negb]; reflexivity]]; [|done].
  destruct H2 as (HK2 & _ & Hb & _). split_and!; cbn; try done.
  - by rewrite Hc1.
  - by rewrite Hs1'.
Qed.

Lemma enters_fun v i a c t t' : enters v i a c t -> enters v i a c t' -> t = t'.
Proof. destruct i; simpl; [congruence|]. by intros [_ ->] [_ ->]. Qed.

Lemma in_snoc (l : list trans) a s c a' s' c' :
  (a, s, c) ∈ l ++ [(a', s', c')] -> (a, s, c) ∈ l \/ (a = a' /\ s = s' /\ c = c').
Proof.
  rewrite elem_of_app, list_elem_of_singleton. intros [?|[= -> -> ->]]; auto.
Qed.

Lemma in_snoc_l (l : list trans) x y : x ∈ l -> x ∈ l ++ [y].
Proof. rewrite elem_of_app. auto. Qed.
Lemma in_snoc_r (l : list trans) x : x ∈ l ++ [x].
Proof. rewrite elem_of_app, list_elem_of_singleton. auto. Qed.

(** A transition to another state does not matter for the entry of [s]. *)
Lemma entry_snoc v i l s x :
  s <> x.1.2 -> entry_ok v i l s -> entry_ok v i (l ++ [x]) s.
Proof.
  destruct x as [[a1 s1] c1]. simpl. intros Hne [H1 H2]. split.
  - intros Hg. destruct (H1 Hg) as (c & Hin & He). exists c. split; [by apply in_snoc_l|done].
  - intros a c t Hin. apply in_snoc in Hin as [Hin|(_ & ? & _)]; [by apply H2|done].
Qed.

Context `{!CostRel R}.

(** The entry of the state a transition leads to. *)
Lemma entry_relax k v v' (n : nat) cur s0 s1 c t :
  entry_ok v n cur s1 -> layer_ok k (cur ++ [(s0, s1, c)]) -> 0 <= s1 < k ->
  enters v n s0 c t -> (forall j, n = S j -> agree k v v' j) ->
  gs v' s1 n = (if taken v s1 n t then s0 else gs v s1 n) ->
  gc v' s1 n = (if taken v s1 n t then t else gc v s1 n) ->
  entry_ok v' n (cur ++ [(s0, s1, c)]) s1.
Proof.
  intros [H1 H2] Hl Hs1 Hen Hj Hgs Hgc.
  assert (0 <= s0 < k) as Hs0.
  { apply (layer_ok_in k (cur ++ [(s0, s1, c)]) s0 s1 c Hl), in_snoc_r. }
  assert (forall a c' t', (a, s1, c') ∈ cur ++ [(s0, s1, c)] -> enters v' n a c' t' ->
            enters v n a c' t') as Hback.
  { intros a c' t' Hin. pose proof (proj1 (layer_ok_in _ _ _ _ _ Hl Hin)) as Ha.
    apply (enters_ext k); [|done].
    intros j Hij x Hx. destruct (Hj j Hij x Hx). done. }
  unfold entry_ok. rewrite Hgs, Hgc. unfold taken.
  destruct (cltb t (gc v s1 n)) eqn:Elt, (Z.eqb_spec (gs v s1 n) (-1)) as [Eg|Eg]; cbn [orb].
  4: { split.
    - intros Hne. destruct (H1 Hne) as (c' & Hin & He). exists c'.
      apply (in_snoc_l _ _ (s0, s1, c)) in Hin. split; [done|].
      pose proof (proj1 (layer_ok_in k _ _ _ _ Hl Hin)). by apply (enters_ext k v v').
    - intros a c' t' Hin He. split; [done|]. apply Hback in He; [|done].
      apply in_snoc in Hin as [Hin|(-> & _ & ->)]; [by eapply H2|].
      rewrite (enters_fun v n s0 c t' t) by done. by apply cr_ge. }
  all: split;
    [intros _; exists c; split; [apply in_snoc_r|by apply (enters_ext k v v')]|];
    intros a c' t' Hin He; split; [lia|]; apply Hback in He; [|done];
    apply in_snoc in Hin as [Hin|(-> & _ & ->)];
    [|rewrite (enters_fun v n s0 c t' t) by done; apply cr_refl];
    destruct (H2 a c' t' Hin He) as [Hne Hle]; try done.
  eapply cr_trans; [by apply cr_lt|done].
Qed.

Lemma relax_inv k ls cur v s0 s1 c t :
  inv k ls cur v -> 0 <= s0 < k -> 0 <= s1 < k -> enters v (length ls) s0 c t ->
  inv k ls (cur ++ [(s0, s1, c)]) (relax v s0 s1 t).
Proof.
  intros [Hl Hi Hok He Hlater] Hs0 Hs1 Hen.
  destruct (relax_spec k v s0 s1 t (length ls) Hl Hi Hs1) as (Hl' & Hi' & _ & Hg).
  set (v' := relax v s0 s1 t) in *.
  assert (forall i, i <> length ls -> agree k v v' i) as Hag.
  { intros i Hne a Ha. destruct (Hg a i Ha) as [-> ->]. by rewrite !decide_False by tauto. }
  assert (layer_ok k (cur ++ [(s0, s1, c)])) as Hcur.
  { apply Forall_app in Hok as [_ Hok]. apply Forall_cons_1 in Hok as [Hc _].
    apply Forall_app. split; [done|]. by constructor. }
  constructor; [done|by rewrite Hi'| | |].
  - apply Forall_app in Hok as [? _]. apply Forall_app. split; [done|]. by constructor.
  - intros i l s Hls Hs. destruct (decide (i = length ls)) as [->|Hne].
    + rewrite list_lookup_middle in Hls by done. simplify_eq.
      pose proof (He (length ls) cur s) as Hold. rewrite list_lookup_middle in Hold by done.
      specialize (Hold eq_refl Hs). destruct (Hg s (length ls) Hs) as [Hgs Hgc].
      destruct (decide (s = s1)) as [->|Hns].
      * eapply (entry_relax k v); try done; [intros j Hj; apply Hag; lia|..];
          [rewrite Hgs|rewrite Hgc]; destruct (taken v s1 (length ls) t);
          (rewrite decide_True by done) || (rewrite decide_False by (intros (_ & _ & [=]))); done.
      * apply (entry_ext k v v'); [by rewrite Hgs, decide_False by tauto
          |by rewrite Hgc, decide_False by tauto|intros j Hj; apply Hag; lia|done
          |by apply entry_snoc].
    + assert (ls !! i = Some l) as Hli.
      { rewrite lookup_app_l in Hls; [done|]. apply lookup_lt_Some in Hls.
        rewrite length_app in Hls. simpl in Hls. lia. }
      destruct (Hag i Hne s Hs) as [Hg1 Hg2].
      apply (entry_ext k v v'); [done|done| | |].
      * intros j ->. apply Hag. apply lookup_lt_Some in Hli. lia.
      * apply Forall_app in Hok as [Hok _]. by eapply Forall_lookup_1.
      * apply He; [by apply lookup_app_l_Some|done].
  - intros i s Hlt Hs. destruct (Hag i ltac:(lia) s Hs) as [<- _]. by apply Hlater.
Qed.

Lemma inv_skip k ls cur v (m : nat) s0 s1 c :
  inv k ls cur v -> 0 <= s0 < k -> 0 <= s1 < k -> length ls = S m -> gs v s0 m = -1 ->
  inv k ls (cur ++ [(s0, s1, c)]) v.
Proof.
  intros [Hl Hi Hok He Hlater] Hs0 Hs1 Hm Hno.
  assert (layer_ok k (cur ++ [(s0, s1, c)])) as Hcur.
  { apply Forall_app in Hok as [_ Hok]. apply Forall_cons_1 in Hok as [Hc _].
    apply Forall_app. split; [done|]. by constructor. }
  constructor; [done|done| | |done].
  - apply Forall_app in Hok as [? _]. apply Forall_app. split; [done|]. by constructor.
  - intros i l s Hls Hs. destruct (decide (i = length ls)) as [->|Hne].
    + rewrite list_lookup_middle in Hls by done. simplify_eq.
      pose proof (He (length ls) cur s) as Hold. rewrite list_lookup_middle in Hold by done.
      destruct (Hold eq_refl Hs) as [H1 H2]. split.
      * intros Hg. destruct (H1 Hg) as (c' & Hin & Hen). exists c'. split; [by apply in_snoc_l|done].
      * intros a c' t Hin Hen. apply in_snoc in Hin as [Hin|(-> & _ & _)]; [by eapply H2|].
        rewrite Hm in Hen. by destruct Hen.
    + apply He; [|done]. rewrite lookup_app_l in Hls.
      * by apply lookup_app_l_Some.
      * apply lookup_lt_Some in Hls. rewrite length_app in Hls. simpl in Hls. lia.
Qed.

Lemma inv_add k ls cur v s0 s1 c :
  inv k ls cur v -> 0 <= s0 < k -> 0 <= s1 < k ->
  inv k ls (cur ++ [(s0, s1, c)]) (addTransition v s0 s1 c) /\ mode (addTransition v s0 s1 c) = 1.
Proof.
  intros Hinv Hs0 Hs1. pose proof (inv_index k ls cur v Hinv) as Hi.
  destruct (addTransition_spec k v s0 s1 c (length ls) (inv_lattice k ls cur v Hinv) Hi Hs0 Hs1)
    as (v1 & Hv & Hm & ->). pose proof (inv_sim k ls cur v v1 Hv Hinv) as Hinv1.
  assert (forall t, mode (relax v1 s0 s1 t) = 1) as Hmode.
  { intros t. rewrite <- Hm.
    apply (relax_spec k v1 s0 s1 t (length ls)); [by destruct Hinv1..|done]. }
  destruct (length ls) as [|m] eqn:El.
  - split; [|done]. apply relax_inv; try done. by rewrite El.
  - destruct (Z.eqb_spec (gs v s0 m) (-1)) as [Hno|Hyes].
    + split; [|done]. apply (inv_skip k ls cur v1 m); try done.
      by destruct (vsim_g v v1 s0 m Hv) as [_ <-].
    + split; [|done]. apply relax_inv; try done. rewrite El. simpl.
      destruct (vsim_g v v1 s0 m Hv) as [-> Hg]. by rewrite <- Hg.
Qed.

Lemma inv_same k ls cur v v' :
  K v = K v' -> index v = index v' -> cost v = cost v' -> src v = src v' -> path v = path v' ->
  inv k ls cur v -> inv k ls cur v'.
Proof.
  destruct v, v'; simpl. intros -> -> -> -> -> [[] Hi Hok He Hlater].
  constructor; [by constructor|done..].
Qed.

(** Between layers: all layers are complete. *)
Definition between (k : Z) (ls : list (list trans)) (v : Viterbi C) : Prop :=
  inv k ls [] v /\ mode v = 0 /\ path_valid v = false.

Lemma add_layer_between k ls l v :
  between k ls v -> layer_ok k l -> between k (ls ++ [l]) (add_layer v l).
Proof.
  intros (Hinv & Hm & Hp) Hl. unfold add_layer.
  assert (inv k ls [] (beginTransitions v) /\ mode (beginTransitions v) = 1) as Hb.
  { split; [|done]. by eapply inv_same; [..|exact Hinv]. }
  revert Hb. generalize (beginTransitions v) as v1. clear v Hinv Hm Hp. intros v Hv.
  assert (exists v', foldl (fun v t => addTransition v t.1.1 t.1.2 t.2) v l = v' /\
            inv k ls l v' /\ mode v' = 1) as (v' & -> & Hinv & Hm).
  { change l with ([] ++ l) at 2. revert Hv. generalize (@nil trans) as cur. revert v.
    induction Hl as [|[[s0 s1] c] l [Hs0 Hs1] _ IH]; intros v cur [Hinv Hm].
    - rewrite app_nil_r. eauto.
    - simpl. rewrite cons_middle, app_assoc. apply IH. by apply inv_add. }
  split_and!; [|done|done].
  destruct Hinv as [[] Hi Hok He Hlater].
  assert (index (endTransitions v') = index v' + 1) as Hidx
    by (unfold endTransitions, assertMode; simpl; by rewrite Hm).
  constructor.
  - by constructor.
  - rewrite Hidx, Hi, length_app. simpl. lia.
  - apply Forall_app. split; [done|]. by repeat constructor.
  - intros i l' s Hls Hs. rewrite lookup_app in Hls.
    destruct ((ls ++ [l]) !! i) as [l2|] eqn:E; simplify_eq; [by apply (He i l' s)|].
    apply lookup_ge_None in E. rewrite length_app in E. simpl in E.
    destruct (i - length (ls ++ [l]))%nat as [|x]; [|by destruct x]. simpl in Hls. simplify_eq.
    split; [|by intros ? ? ? ?%elem_of_nil].
    intros Hg. exfalso. apply Hg. apply Hlater; [lia|done].
  - intros i s Hlt Hs. rewrite length_app in Hlt. apply Hlater; [simpl in Hlt; lia|done].
Qed.

Lemma setSize_between k n v : between k [] (setSize v k n).
Proof.
  split_and!; [|done|done]. constructor; [by constructor|done|by repeat constructor| |].
  - intros [|i] l s Hls Hs; [|by destruct i]. simpl in Hls. simplify_eq.
    split; [done|by intros ? ? ? ?%elem_of_nil].
  - done.
Qed.

Lemma add_layers_between k ls ls' v :
  between k ls v -> Forall (layer_ok k) ls' -> between k (ls ++ ls') (add_layers v ls').
Proof.
  intros Hb Hl. revert ls v Hb. induction Hl as [|l ls' Hl _ IH]; intros ls v Hb; simpl.
  - by rewrite app_nil_r.
  - rewrite cons_middle, app_assoc. apply IH. by apply add_layer_between.
Qed.

(** ** Reading the path off the table *)

Lemma inv_entry k ls v i l s :
  inv k ls [] v -> ls !! i = Some l -> 0 <= s < k -> entry_ok v i l s /\ layer_ok k l.
Proof.
  intros [_ _ Hok He _] Hl Hs. split; [apply He; [by apply lookup_app_l_Some|done]|].
  apply Forall_app in Hok as [Hok _]. by eapply Forall_lookup_1.
Qed.

(** No path is cheaper than the entry of the state it ends in. *)
Lemma entry_minimal k ls v i s c p :
  inv k ls [] v -> vpath ls i s c p -> 0 <= s < k /\ gs v s i <> -1 /\ R (gc v s i) c.
Proof.
  intros Hinv. induction 1 as [s0 s1 c l Hl Hin|i s0 s1 c l c0 p Hp IH Hl Hin].
  - assert (layer_ok k l) as Hok.
    { destruct Hinv as [_ _ Hok _ _]. apply Forall_app in Hok as [Hok _]. by eapply Forall_lookup_1. }
    destruct (layer_ok_in k l s0 s1 c Hok Hin) as [Hs0 Hs1]. split; [done|].
    destruct (inv_entry k ls v 0 l s1 Hinv Hl Hs1) as [[_ H2] _]. by apply (H2 s0 c c Hin).
  - destruct IH as (Hs0 & Hg & Hle).
    assert (layer_ok k l) as Hok.
    { destruct Hinv as [_ _ Hok _ _]. apply Forall_app in Hok as [Hok _]. by eapply Forall_lookup_1. }
    destruct (layer_ok_in k l s0 s1 c Hok Hin) as [_ Hs1]. split; [done|].
    destruct (inv_entry k ls v (S i) l s1 Hinv Hl Hs1) as [[_ H2] _].
    destruct (H2 s0 c (cadd c (gc v s0 i)) Hin) as [Hne Hle2]; [by split|]. split; [done|].
    eapply cr_trans; [exact Hle2|by apply cr_mono].
Qed.

(** The state [find_best] has reached at [j]. *)
Definition best_upto (v : Viterbi C) (n : nat) (j : Z) (best : C) (bestj : Z) : Prop :=
  (bestj = -1 /\ forall s, 0 <= s < j -> gs v s n = -1) \/
  (0 <= bestj < j /\ gs v bestj n <> -1 /\ best = gc v bestj n /\
   forall s, 0 <= s < j -> gs v s n <> -1 -> R best (gc v s n)).

Lemma find_best_spec (m n : nat) v0 v j best bestj :
  vsim v0 v -> index v0 = Z.of_nat (S n) -> 0 <= j -> best_upto v0 n j best bestj ->
  exists best' bestj' v', find_best m j v best bestj = (best', bestj', v') /\ vsim v0 v' /\
    best_upto v0 n (j + Z.of_nat m) best' bestj'.
Proof.
  intros Hv Hn. revert v j best bestj Hv. induction m as [|m IH]; intros v j best bestj Hv Hj Hb.
  { exists best, bestj, v. rewrite Z.add_0_r. done. }
  cbn [find_best]. pose proof Hv as (_ & Hi & _ & Hc & Hs & _).
  rewrite <- Hi, Hn. replace (Z.of_nat (S n) - 1) with (Z.of_nat n) by lia.
  destruct (sp_cell_spec (cost v) j (Z.of_nat n)) as (cost1 & Hcost & Hc1). rewrite Hcost.
  destruct (sp_cell_spec (src v) j (Z.of_nat n)) as (src1 & Hsrc & Hs1).
  rewrite <- (same_cell _ _ j _ Hc). fold (gc v0 j n).
  replace (j + Z.of_nat (S m)) with (j + 1 + Z.of_nat m) by lia.
  assert (forall c1 s1, same c1 (cost v) -> same s1 (src v) ->
    vsim v0 (Viterbi_ (K v) (T v) (Z.of_nat (S n)) (mode v) (path_valid v) (best_cost v) c1 s1
               (path v))) as Hup.
  { intros c1 s1 H1 H2. destruct Hv as (HK & _ & Hbc & _ & _ & Hp). split_and!; cbn; try done.
    - by rewrite H1.
    - by rewrite H2. }
  destruct (cltb (gc v0 j n) best || (bestj =? -1)) eqn:Ecmp.
  - cbn [src cost index K T mode path_valid best_cost path].
    replace (Z.of_nat (S n) - 1) with (Z.of_nat n) by lia. rewrite Hsrc.
    rewrite <- (same_cell _ _ j _ Hs). fold (gs v0 j n).
    destruct (Z.eqb_spec (gs v0 j n) (-1)) as [Eg|Eg]; cbn [negb].
    + apply IH; [by apply Hup|lia|]. destruct Hb as [[-> Hb]|(Hr & Hg & -> & Hb)].
      * left. split; [done|]. intros s Hs'. destruct (decide (s = j)) as [->|]; [done|apply Hb; lia].
      * right. split_and!; try done; try lia. intros s Hs' Hgs.
        destruct (decide (s = j)) as [->|]; [done|apply Hb; [lia|done]].
    + cbn [src cost index K T mode path_valid best_cost path].
      destruct (sp_cell_spec cost1 j (Z.of_nat n)) as (cost2 & Hc2' & Hc2). rewrite Hc2'.
      rewrite (same_cell _ _ j _ Hc1), <- (same_cell _ _ j _ Hc). fold (gc v0 j n).
      apply IH; [apply Hup; [by rewrite Hc2|done]|lia|]. right. split_and!; try done; try lia.
      intros s Hs' Hgs. destruct (decide (s = j)) as [->|Hne]; [apply cr_refl|].
      destruct Hb as [[-> Hb]|(Hr & Hg & -> & Hb)].
      * destruct Hgs. apply Hb. lia.
      * apply orb_true_iff in Ecmp as [Ecmp|Ecmp]; [|apply Z.eqb_eq in Ecmp; lia].
        eapply cr_trans; [by apply cr_lt|]. apply Hb; [lia|done].
  - apply IH; [by apply Hup|lia|]. apply orb_false_iff in Ecmp as [Ecmp Ebj].
    apply Z.eqb_neq in Ebj. destruct Hb as [[? _]|(Hr & Hg & -> & Hb)]; [done|].
    right. split_and!; try done; try lia. intros s Hs' Hgs.
    destruct (decide (s = j)) as [->|]; [by apply cr_ge|apply Hb; [lia|done]].
Qed.

(** Two states that agree on everything but the path sheet. *)
Definition tsim (v v' : Viterbi C) : Prop :=
  K v = K v' /\ index v = index v' /\ best_cost v = best_cost v' /\
  same (cost v) (cost v') /\ same (src v) (src v') /\
  sp_w (path v) = sp_w (path v') /\ sp_zero (path v) = sp_zero (path v').

Lemma path_set (v : Viterbi C) i (j : nat) x :
  sp_w (path v) = 1 ->
  SparseS.cell_const (SparseS.sp_set (path v) 0 i x) 0 (Z.of_nat j) =
  if decide (i = Z.of_nat j) then x else SparseS.cell_const (path v) 0 (Z.of_nat j).
Proof.
  intros Hw. destruct (sp_set_spec (path v) 0 i x) as (_ & _ & ->). unfold SparseS.sp_key. rewrite Hw.
  repeat case_decide; done || lia.
Qed.

(** Walking back from a reached state writes a path of the cost of its entry. *)
Lemma trace_spec k ls v0 (n : nat) v s :
  inv k ls [] v0 -> tsim v0 v -> (n < length ls)%nat -> 0 <= s < k -> gs v0 s n <> -1 ->
  exists p v', trace (S n) v s = Ok v' /\ tsim v0 v' /\ vpath ls n s (gc v0 s n) p /\
    length p = S n /\
    (forall j x, p !! j = Some x -> SparseS.cell_const (path v') 0 (Z.of_nat j) = x) /\
    (forall j : nat, (n < j)%nat ->
       SparseS.cell_const (path v') 0 (Z.of_nat j) = SparseS.cell_const (path v) 0 (Z.of_nat j)).
Proof.
  intros Hinv. revert v s. induction n as [|n IH]; intros v s Hv Hn Hs Hg;
    destruct (lookup_lt_is_Some_2 ls _ Hn) as [l Hl];
    destruct (inv_entry k ls v0 _ l s Hinv Hl Hs) as [[H1 _] Hok];
    destruct (H1 Hg) as (c & Hin & Hen); destruct (layer_ok_in _ _ _ _ _ Hok Hin) as [Hs0 _];
    pose proof Hv as (HK & Hi & Hb & Hc & Hsr & Hw & Hz);
    pose proof (inv_lattice k ls [] v0 Hinv) as [HK0 _ _ Hw0 _ _ _];
    cbn [trace]; (rewrite (check_true (negb (s =? -1))) by (apply negb_true_iff, Z.eqb_neq; lia));
    rewrite bind_Ok;
    (rewrite check_true by (apply andb_true_iff; rewrite Z.geb_leb, Z.leb_le, Z.ltb_lt; lia));
    rewrite bind_Ok;
    match goal with |- context [SparseS.sp_cell (src v) s ?i] =>
      destruct (sp_cell_spec (src v) s i) as (src1 & -> & Hsrc) end;
    destruct (sp_set_spec (path v) 0 (Z.of_nat 0) s) as (Hpw & Hpz & _).
  - exists [s]. eexists. split; [done|].
    split; [split_and!; cbn [K index best_cost cost src path]; try done; try congruence;
            by rewrite Hsrc|]. split_and!; try done; cbn [path].
    + rewrite Hen. by eapply vp_first.
    + intros [|j] x Hx; [|by destruct j]. simpl in Hx. simplify_eq.
      rewrite (path_set v 0 0) by congruence. by rewrite decide_True.
    + intros j Hj. rewrite (path_set v 0 j) by congruence. by rewrite decide_False by lia.
  - destruct Hen as [Hg' Hgc]. rewrite <- (same_cell _ _ s _ Hsr). fold (gs v0 s (S n)).
    destruct (sp_set_spec (path v) 0 (Z.of_nat (S n)) s) as (Hpw' & Hpz' & _).
    edestruct (IH (Viterbi_ (K v) (T v) (index v) (mode v) (path_valid v) (best_cost v) (cost v) src1
                    (SparseS.sp_set (path v) 0 (Z.of_nat (S n)) s)) (gs v0 s (S n)))
      as (p & v' & Ht & Hv' & Hp & Hlen & Hin' & Hout); [|lia|done|done|].
    { split_and!; cbn [K index best_cost cost src path]; try done; try congruence.
      by rewrite Hsrc. }
    exists (p ++ [s]), v'. split; [exact Ht|]. split_and!; try done.
    + rewrite Hgc. by eapply vp_next.
    + rewrite length_app. simpl. lia.
    + intros j x Hx. destruct (decide (j < length p)%nat).
      * rewrite lookup_app_l in Hx by done. by apply Hin'.
      * rewrite lookup_app_r in Hx by lia. destruct (j - length p)%nat as [|y] eqn:E;
          [|by destruct y]. simpl in Hx. simplify_eq.
        assert (j = S n) as -> by lia. rewrite Hout by lia. cbn [path].
        rewrite path_set by congruence. by rewrite decide_True.
    + intros j Hj. rewrite Hout by lia. cbn [path]. rewrite path_set by congruence.
      by rewrite decide_False by lia.
Qed.

Lemma vsim_tsim v v' : vsim v v' -> tsim v v'.
Proof. intros (? & ? & ? & ? & ? & (? & ? & _)). by split_and!. Qed.

(** [calculatePath] after a complete sequence of layers. *)
Lemma calculatePath_spec k ls (n : nat) v :
  between k ls v -> length ls = S n -> 0 <= k ->
  (exists s p v', calculatePath v = Ok v' /\ path_valid v' = true /\ index v' = Z.of_nat (S n) /\
     vpath ls n s (best_cost v') p /\ length p = S n /\
     (forall s' c' p', vpath ls n s' c' p' -> R (best_cost v') c') /\
     (forall j x, p !! j = Some x -> SparseS.cell_const (path v') 0 (Z.of_nat j) = x)) \/
  (calculatePath v = Fault AssertFailed /\ forall s c p, ~ vpath ls n s c p).
Proof.
  intros (Hinv & Hm & Hp) Hn Hk. unfold calculatePath. rewrite Hp.
  set (v1 := endTransitions v).
  assert (vsim v v1) as Hv1.
  { unfold v1, endTransitions, assertMode; simpl. rewrite Hm. by split_and!. }
  pose proof (inv_sim k ls [] v v1 Hv1 Hinv) as Hinv1. clearbody v1. clear v Hinv Hm Hp Hv1.
  pose proof (inv_index _ _ _ _ Hinv1) as Hi. rewrite Hn in Hi.
  pose proof (lt_K _ _ (inv_lattice _ _ _ _ Hinv1)) as HK.
  rewrite (proj2 (Z.leb_gt (index v1) 0)) by lia.
  destruct (find_best_spec (Z.to_nat (K v1)) n v1 v1 0 czero (-1)) as
    (best & bestj & v2 & -> & Hv2 & Hb); [done|done|lia| |].
  { left. split; [done|lia]. }
  rewrite HK, Z2Nat.id, Z.add_0_l in Hb by done. pose proof Hv2 as (HK2 & Hi2 & _ & Hc2 & Hs2 & Hp2).
  cbn [index]. rewrite <- Hi2, Hi, Nat2Z.id. destruct Hb as [[-> Hno]|(Hr & Hg & -> & Hmin)].
  - right. split; [done|]. intros s c p Hpath.
    destruct (entry_minimal k ls v1 n s c p Hinv1 Hpath) as (Hs & Hg & _). apply Hg. by apply Hno.
  - left. set (v3 := Viterbi_ _ _ _ _ _ _ _ _ _).
    assert (vsim v3 (Viterbi_ (K v1) (T v1) (index v1) (mode v1) (path_valid v1) (gc v1 bestj n)
              (cost v1) (src v1) (path v1))) as Hv3.
    { split_and!; cbn; done || congruence. }
    pose proof (inv_same k ls [] v1 (Viterbi_ (K v1) (T v1) (index v1) (mode v1) (path_valid v1)
      (gc v1 bestj n) (cost v1) (src v1) (path v1)) eq_refl eq_refl eq_refl eq_refl eq_refl Hinv1)
      as Hinv2.
    pose proof (inv_sim _ _ _ _ _ (symmetry Hv3) Hinv2) as Hinv3.
    destruct (vsim_g _ _ bestj n Hv3) as [Hgc3 Hgs3].
    destruct (trace_spec k ls v3 n v3 bestj Hinv3 (vsim_tsim _ _ (reflexivity v3))) as
      (p & v4 & -> & (_ & Hi4 & Hb4 & _) & Hpath & Hlen & Hin & _); [lia|lia|by rewrite Hgs3|].
    rewrite bind_Ok. exists bestj, p, (set_valid v4). cbn [set_valid path_valid index best_cost path].
    rewrite <- Hi4, <- Hb4. cbn. split_and!; try done; try lia.
    + by rewrite Hgc3 in Hpath.
    + intros s' c' p' Hp'. destruct (entry_minimal k ls v1 n s' c' p' Hinv1 Hp') as (Hs & Hg' & Hle).
      eapply cr_trans; [by apply Hmin|done].
Qed.
End Spec.

(** ** Lattices with a state that can be repeated *)

Section Steady.
Context {C : Type} `{CostOps C}.

(** The states are below [k], and state [s] can be kept. *)
Definition steady (k s : Z) (ts : list (trans (C:=C))) : Prop :=
  layer_ok k ts /\ exists c, (s, s, c) ∈ ts.

Lemma steady_path k s ls (i : nat) :
  Forall (steady k s) ls -> (i < length ls)%nat -> exists c p, vpath ls i s c p.
Proof.
  intros Hls. induction i as [|i IH]; intros Hi;
    destruct (lookup_lt_is_Some_2 ls _ Hi) as [ts Hts];
    destruct (Forall_lookup_1 _ _ _ _ Hls Hts) as [_ [c Hc]].
  - eexists _, _. by eapply vp_first.
  - destruct IH as (d & p & Hp); [lia|]. eexists _, _. by eapply vp_next.
Qed.

(** Every state of a path is entered by a transition of its layer. *)
Lemma vpath_entered ls (i : nat) s (c : C) p :
  vpath ls i s c p ->
  forall (j : nat) x, p !! j = Some x -> exists ts a d, ls !! j = Some ts /\ (a, x, d) ∈ ts.
Proof.
  intros Hp. assert (length p = S i /\ forall (j : nat) x, p !! j = Some x -> exists ts a d, ls !! j = Some ts /\ (a, x, d) ∈ ts) as [_ ?];
    [|done].
  induction Hp as [s0 s1 c ts Hts Hin|i s0 s1 c ts k p _ [Hlen IH] Hts Hin].
  - split; [done|]. intros [|j] x Hx; simpl in Hx; [|by destruct j]. simplify_eq. eauto.
  - split; [rewrite length_app; simpl; lia|]. intros j x Hx.
    apply lookup_app_Some in Hx as [Hx|[Hj Hx]]; [by apply IH|].
    apply list_lookup_singleton_Some in Hx as [Hj' ->]. assert (j = S i) as -> by lia. eauto.
Qed.

(** The path [p] has been calculated. *)
Definition traced (p : list Z) (v : Viterbi C) : Prop :=
  path_valid v = true /\ index v = Zlen p /\
  forall (j : nat) x, p !! j = Some x -> SparseS.cell_const (path v) 0 (Z.of_nat j) = x.

Lemma getPath_traced p v i x :
  traced p v -> 0 <= i -> p !! Z.to_nat i = Some x ->
  exists v', getPath v i = Ok (x, v') /\ traced p v'.
Proof.
  intros (Hv & Hi & Hp) H0i Hx. unfold getPath, calculatePath. rewrite Hv, bind_Ok.
  pose proof (lookup_lt_Some _ _ _ Hx). rewrite check_true, bind_Ok by (apply Z.ltb_lt; lia).
  destruct (sp_cell_spec (path v) 0 i) as (path1 & -> & Hs). pose proof (Hp _ _ Hx) as E.
  rewrite Z2Nat.id in E by done. rewrite E. eexists. split; [done|].
  split_and!; [done|done|]. intros j y Hy. cbn [path].
  rewrite (same_cell _ _ 0 (Z.of_nat j) Hs). by apply Hp.
Qed.

(** Whatever the costs are, such a lattice has a path, and its states are entered. *)
Lemma steady_traced k s n v0 ls :
  0 <= k -> ls <> [] -> Forall (steady k s) ls ->
  exists p v', calculatePath (add_layers (setSize v0 k n) ls) = Ok v' /\ traced p v' /\
    length p = length ls /\
    forall (j : nat) x, p !! j = Some x -> exists ts a d, ls !! j = Some ts /\ (a, x, d) ∈ ts.
Proof.
  intros Hk Hne Hls. set (v := add_layers _ ls).
  assert (between any_cost k ls v) as Hb.
  { apply (add_layers_between _ k []); [apply setSize_between|].
    eapply Forall_impl; [|exact Hls]. by intros ts [? _]. }
  destruct ls as [|ts ls]; [done|].
  destruct (calculatePath_spec any_cost k (ts :: ls) (length ls) v Hb) as
    [(s' & p & v' & Hc & Hv & Hi & Hp & Hlp & _ & Hpath)|[_ Hno]]; [done|done| |].
  - exists p, v'. split; [done|]. split; [split_and!; [done|by rewrite Hi, Hlp|done]|].
    split; [done|]. by eapply vpath_entered.
  - destruct (steady_path k s (ts :: ls) (length ls) Hls) as (c & p & Hp); [simpl; lia|].
    by destruct (Hno _ _ _ Hp).
Qed.

(** The states of the path are those of the lattice. *)
Lemma entered_range k s ls p :
  Forall (steady k s) ls ->
  (forall (j : nat) x, p !! j = Some x -> exists ts a d, ls !! j = Some ts /\ (a, x, d) ∈ ts) ->
  Forall (fun x => 0 <= x < k) p.
Proof.
  intros Hls He. apply Forall_lookup_2. intros j x Hx. destruct (He j x Hx) as (ts & a & d & Hts & Hin).
  destruct (Forall_lookup_1 _ _ _ _ Hls Hts) as [Hok _].
  by destruct (layer_ok_in _ _ _ _ _ Hok Hin) as [_ Hr].
Qed.
End Steady.

(** ** Claims *)

(** C14. Optimality: after [setSize] and the transitions of one or more layers,
    all between states of the lattice, [getCost] is the cost of a path through
    all layers that no other path undercuts and [getPath] returns its states one
    by one; when no path leads through all layers the assertion of
    [calculatePath] fails.  Costs are any type with a total order in which adding
    the same cost is monotone. *)
Theorem viterbi_optimal {C} `{CostLaws C} (k n : Z) (v0 : Viterbi C)
    (layers : list (list (trans (C:=C)))) :
  0 <= k -> layers <> [] -> Forall (layer_ok k) layers ->
  let v := add_layers (setSize v0 k n) layers in
  let final := pred (length layers) in
  ((exists s c p, vpath layers final s c p) ->
   exists s best p, vpath layers final s best p /\ length p = length layers /\
     (forall s' c' p', vpath layers final s' c' p' -> cle best c') /\
     (exists v', getCost v = Ok (best, v')) /\
     (forall (i : nat) x, p !! i = Some x -> exists v', getPath v (Z.of_nat i) = Ok (x, v'))) /\
  ((forall s c p, ~ vpath layers final s c p) -> getCost v = Fault AssertFailed).
Proof.
  intros Hk Hne Hok v final.
  assert (length layers = S final) as Hlen by (unfold final; by destruct layers).
  pose proof (add_layers_between cle k [] layers _ (setSize_between cle k n v0) Hok) as Hb.
  destruct (calculatePath_spec cle k layers final v Hb Hlen Hk)
    as [(s & p & v' & Hc & _ & Hi & Hp & Hl & Hmin & Hpath)|[Hc Hno]].
  - split; [|intros H2; by destruct (H2 _ _ _ Hp)]. intros _.
    exists s, (best_cost v'), p. split_and!; [done|lia|done| |].
    + exists v'. unfold getCost. by rewrite Hc.
    + intros i x Hx. unfold getPath. rewrite Hc, bind_Ok.
      rewrite check_true by (apply Z.ltb_lt; apply lookup_lt_Some in Hx; lia). rewrite bind_Ok.
      destruct (sp_cell_spec (path v') 0 (Z.of_nat i)) as (path1 & -> & _).
      rewrite (Hpath i x Hx). eauto.
  - split; [intros (s & c & p & Hp); by destruct (Hno s c p)|]. intros _.
    unfold getCost. by rewrite Hc.
Qed.

Lemma viterbi_optimal_witness :
  let layers := [[(0, 0, 1); (0, 1, 0)]; [(0, 1, 5); (1, 1, 7); (1, 0, 2)]; [(0, 2, 0); (1, 2, 0)]] in
  exists s best p, vpath layers 2 s best p /\ length p = 3%nat /\
     (forall s' c' p', vpath layers 2 s' c' p' -> cle best c') /\
     (exists v', getCost (add_layers (setSize (new_viterbi (C:=Z)) 3 1) layers) = Ok (best, v')) /\
     (forall (i : nat) x, p !! i = Some x ->
        exists v', getPath (add_layers (setSize new_viterbi 3 1) layers) (Z.of_nat i) = Ok (x, v')).
Proof.
  apply (viterbi_optimal 3 1 new_viterbi
    [[(0, 0, 1); (0, 1, 0)]; [(0, 1, 5); (1, 1, 7); (1, 0, 2)]; [(0, 2, 0); (1, 2, 0)]]).
  - lia.
  - done.
  - repeat constructor; simpl; lia.
  - cbn [length pred]. exists 2, (cadd 0 (cadd 2 0)), (([1] ++ [0]) ++ [2]).
    eapply (vp_next _ 1 0 2 0); [eapply (vp_next _ 0 1 0 2); [eapply (vp_first _ 0 1 0)|..]|..];
      try reflexivity; rewrite !elem_of_cons; tauto.
Defined.

(** [reset] keeps the cells of the sheets: a lattice used a second time still
    compares with the costs of the first, so it answers 1 where 5 is right. *)
Lemma viterbi_reset_stale :
  let layers c := [[(0, 0, c); (0, 1, c)]] in
  let v := add_layers (setSize (new_viterbi (C:=Z)) 2 1) (layers 1) in
  (exists v', getCost v = Ok (1, v') /\
   exists v2, getCost (add_layers (reset v') (layers 5)) = Ok (1, v2)) /\
  (exists v3, getCost (add_layers (setSize new_viterbi 2 1) (layers 5)) = Ok (5, v3)).
Proof.
  split; eexists; [split; [vm_compute; reflexivity|eexists]|]; vm_compute; reflexivity.
Qed.

(** A state beyond the size of the lattice changes the width the cells are keyed
    by: entries of earlier layers are then looked up under other keys and lost. *)
Lemma viterbi_grow_loses :
  let layers := [[(0, 0, 1)]; [(0, 0, 1)]; [(0, 2, 1)]] in
  getCost (add_layers (setSize (new_viterbi (C:=Z)) 1 3) layers) = Fault AssertFailed /\
  exists v', getCost (add_layers (setSize new_viterbi 3 3) layers) = Ok (3, v').
Proof. split; [|eexists]; vm_compute; reflexivity. Qed.
