(* ===== verification/Sniffer.v ===== *)
(** * Guessing the names and the key of the columns

    Models [NameSniffer] ([libcoopy_core/NameSniffer.cpp]), which finds the row of
    a sheet that names its columns, [IndexSniffer] ([libcoopy_core/IndexSniffer.cpp]),
    which finds columns that tell the rows apart, and the names of columns without
    a header ([libcoopy_core/Stringer.cpp]).

    The sheets are [CsvSheet]s without a schema.  The row that the statistics of
    [DataStat] single out, computed with floating point numbers, is the argument
    [odd]; the search for the row that holds the given identifiers is modelled.  The
    types of the columns ([ct]) are left out, and so is [canUseTop], which is
    written and never read. *)

From stdpp Require Import gmap.
From S2P Require Import Prelude Sheet CsvFile.
#[local] Open Scope Z_scope.
#[local] Arguments cstr s%_string.

(** ** Names of spreadsheet columns *)

(** The loop of [getSpreadsheetColumnName].  A non-negative [int] has at most seven
    digits in base 26. *)
Fixpoint column_digits (n : nat) (rem : Z) (current : list Z) : result (list Z) :=
  match n with
  | O => Fault OutOfFuel
  | S n =>
      let offset := Z.rem rem 26 in
      let rem := Z.quot rem 26 in
      let current := 65 + offset :: current in
      if negb (rem =? 0) then column_digits n rem current else Ok current
  end.
Definition getSpreadsheetColumnName (x : Z) : result (list Z) := column_digits 7 x [].

(** [nextSpreadsheetColumnName], with the characters from the last one on. *)
Fixpoint next_digits (rev_name : list Z) : list Z * bool :=
  match rev_name with
  | [] => ([], true)
  | c :: l => if negb (c =? 90) then (c + 1 :: l, false)
              else let '(l, carry) := next_digits l in (65 :: l, carry)
  end.
Definition nextSpreadsheetColumnName (current : list Z) : list Z :=
  let '(l, carry) := next_digits (rev current) in
  if carry && bool_decide (current <> []) then rev l ++ [65] else rev l.

(** ** The name sniffer *)

Record NameSniffer := NameSniffer_ {
  ns_names : list (list Z);
  subset_index : list Z;
  embed : bool;
  fake : bool;
  sniffed : bool;
  div : Z
}.
(** A sniffer that has not looked at its sheet yet. *)
Definition new_sniffer : NameSniffer := NameSniffer_ [] [] false true false (-1).

Definition text_at (sh : CsvSheet) (x y : Z) : result (list Z) := c ← CsvS.cellString sh x y; Ok c.1.

(** The number of cells of row [y] from column [x] on that are one of [ids]. *)
Fixpoint count_ids (sh : CsvSheet) (ids : list (list Z)) (y x : Z) (n : nat) : result Z :=
  match n with
  | O => Ok 0
  | S n => t ← text_at sh x y; k ← count_ids sh ids y (x + 1) n;
           Ok (if bool_decide (t ∈ ids) then 1 + k else k)
  end.
(** The first row from [y] on with as many identifiers as there are. *)
Fixpoint ids_row (sh : CsvSheet) (ids : list (list Z)) (y : Z) (n : nat) : result Z :=
  match n with
  | O => Ok (-1)
  | S n => found ← count_ids sh ids y 0 (Z.to_nat (w (s sh)));
           if found =? Zlen ids then Ok y else ids_row sh ids (y + 1) n
  end.
(** [DataStat::evaluate2] and [getRowDivider]. *)
Definition rowDivider (sh : CsvSheet) (ids : list (list Z)) (odd : Z) : result Z :=
  let hh := if h (s sh) <? 50 then h (s sh) else 50 in
  if (w (s sh) =? 0) || (hh =? 0) then Ok (-1)
  else if bool_decide (ids <> []) then ids_row sh ids 0 (Z.to_nat hh) else Ok odd.

(** How many characters of a row lie between [lo] and [hi], from column [x] on. *)
Fixpoint count_between (sh : CsvSheet) (lo hi : Z) (y x : Z) (n : nat) : result Z :=
  match n with
  | O => Ok 0
  | S n => t ← text_at sh x y; k ← count_between sh lo hi y (x + 1) n;
           Ok (Zlen (filter (fun ch => lo <= ch <= hi) t) + k)
  end.
Definition low_in (sh : CsvSheet) (y : Z) : result Z := count_between sh 97 122 y 0 (Z.to_nat (w (s sh))).
Definition high_in (sh : CsvSheet) (y : Z) : result Z := count_between sh 65 90 y 0 (Z.to_nat (w (s sh))).

(** A sheet of two rows of which the first is in capitals and the second not. *)
Definition two_liner (sh : CsvSheet) : result bool :=
  low ← low_in sh 0; high ← high_in sh 0;
  if (low =? 0) && (high >? 0) then low ← low_in sh 1; Ok (low >? 0) else Ok false.

(** The names in row [adiv] from column [i] on; [None] when one is repeated, or is
    blank above a cell that is not. *)
Fixpoint header_names (sh : CsvSheet) (adiv i : Z) (n : nat) (lastName : list Z) (acc : list (list Z)) :
    result (option (list (list Z))) :=
  match n with
  | O => Ok (Some acc)
  | S n =>
      name ← text_at sh i adiv;
      if bool_decide (name = []) then
        below ← (if h (s sh) >? adiv + 1 then text_at sh i (adiv + 1) else Ok []);
        if bool_decide (below <> []) then Ok None else
        let name := lastName ++ cstr "_" in
        if bool_decide (name ∈ acc) then Ok None
        else header_names sh adiv (i + 1) n name (acc ++ [name])
      else
        if bool_decide (name ∈ acc) then Ok None
        else header_names sh adiv (i + 1) n name (acc ++ [name])
  end.

Definition sniff (sh : CsvSheet) (ids : list (list Z)) (odd : Z) (ns : NameSniffer) (suggest : Z) :
    result NameSniffer :=
  if sniffed ns then Ok ns else
  d ← (if suggest <? 0 then rowDivider sh ids odd else Ok suggest);
  d ← (if (d <? 0) && (h (s sh) =? 2) then two ← two_liner sh; Ok (if two : bool then 0 else d) else Ok d);
  if d <? 0 then Ok (NameSniffer_ [] (subset_index ns) false true true d) else
  l ← header_names sh d 0 (Z.to_nat (w (s sh))) [] [];
  Ok match l with
     | Some l => NameSniffer_ l (subset_index ns) true false true d
     | None => NameSniffer_ [] (subset_index ns) false true true d
     end.

Definition suggestColumnName (ns : NameSniffer) (col : Z) : result (list Z) :=
  if bool_decide (ns_names ns <> []) then rd (ns_names ns) col else getSpreadsheetColumnName col.

Definition getHeaderHeight (ns : NameSniffer) : Z := if div ns <? 0 then 0 else div ns + 1.
Definition dataHeight (ns : NameSniffer) (sh : CsvSheet) : Z :=
  if div ns <? 0 then h (s sh) else h (s sh) - (div ns + 1).

(** [subset]: the loop over [ext], which a name of one capital letter ends. *)
Fixpoint subset_loop (l ext : list (list Z)) (acc : list Z) : list Z :=
  match ext with
  | [] => acc
  | e :: ext =>
      let acc := match list_find (fun n => e = n) l with
                 | Some (j, _) => acc ++ [Z.of_nat j]
                 | None => acc
                 end in
      let j := schar (cget e 0) - 65 in
      if (Zlen e =? 1) && (0 <=? j) && (j <=? 26) then acc ++ [j] else subset_loop l ext acc
  end.
Definition subset (ns : NameSniffer) (ext : list (list Z)) : bool * NameSniffer :=
  let idx := subset_loop (ns_names ns) ext [] in
  (Zlen idx =? Zlen ext, NameSniffer_ (ns_names ns) idx (embed ns) (fake ns) (sniffed ns) (div ns)).

(** [resniff]: the first row of column [i], from row [j] on, that holds a name. *)
Fixpoint find_in_column (sh : CsvSheet) (name : list Z) (i j : Z) (n : nat) : result (option Z) :=
  match n with
  | O => Ok None
  | S n => t ← text_at sh i j; if bool_decide (t = name) then Ok (Some j)
                               else find_in_column sh name i (j + 1) n
  end.
Fixpoint find_name_row (sh : CsvSheet) (name : list Z) (i : Z) (n : nat) (at_ : Z) : result Z :=
  match n with
  | O => Ok at_
  | S n =>
      if at_ =? -2 then Ok at_ else
      j ← find_in_column sh name i 0 (Z.to_nat (h (s sh)));
      match j with
      | Some j => Ok (if at_ >=? -1 then j else if negb (at_ =? j) then -2 else at_)
      | None => find_name_row sh name (i + 1) n at_
      end
  end.
Fixpoint names_row (sh : CsvSheet) (onames : list (list Z)) (at_ : Z) : result Z :=
  match onames with
  | [] => Ok at_
  | n :: onames => at_ ← find_name_row sh n 0 (Z.to_nat (w (s sh))) at_; names_row sh onames at_
  end.
Definition resniff (sh : CsvSheet) (ids : list (list Z)) (odd : Z) (ns alt : NameSniffer) :
    result (bool * NameSniffer) :=
  if (h (s sh) >? 5) || (h (s sh) =? 0) || negb (fake ns) || fake alt then Ok (false, ns) else
  at_ ← names_row sh (ns_names alt) (-1);
  if at_ >=? 0 then
    ns ← sniff sh ids odd (NameSniffer_ (ns_names ns) (subset_index ns) (embed ns) (fake ns) false (div ns)) at_;
    Ok (true, ns)
  else Ok (false, ns).

(** ** The index sniffer *)

(** One column: the cells are appended to the keys of the rows from [j] on; the
    count of the keys that occurred before. *)
Fixpoint extend_keys (sh : CsvSheet) (i j : Z) (sofar : list (list Z)) (ct : gmap (list Z) Z)
    (collide : Z) : result (list (list Z) * Z) :=
  match sofar with
  | [] => Ok ([], collide)
  | k :: sofar =>
      '(v, escaped) ← CsvS.cellString sh i j;
      let k := k ++ v ++ (if escaped : bool then cstr "*" else cstr " ") in
      '(rest, collide) ← match ct !! k with
                         | None => extend_keys sh i (j + 1) sofar (<[k := 1]> ct) collide
                         | Some _ => extend_keys sh i (j + 1) sofar ct (collide + 1)
                         end;
      Ok (k :: rest, collide)
  end.
(** How many columns it takes, from column [i] on, until no key occurs twice. *)
Fixpoint key_length (sh : CsvSheet) (i : Z) (n : nat) (sofar : list (list Z)) : result Z :=
  match n with
  | O => Ok (w (s sh))
  | S n =>
      '(sofar, collide) ← extend_keys sh i 0 sofar ∅ 0;
      if collide =? 0 then Ok (i + 1) else key_length sh (i + 1) n sofar
  end.
Fixpoint mark_keys (flags keys : list Z) : result (list Z) :=
  match keys with [] => Ok flags | k :: keys => flags ← wr flags k 1; mark_keys flags keys end.

(** [IndexSniffer::sniff]: the flags of the columns, and whether they are guessed. *)
Definition index_sniff (sh : CsvSheet) (bias_ids : bool) (ns : NameSniffer) : result (list Z * bool) :=
  let width := Z.to_nat (w (s sh)) in
  if negb bias_ids && bool_decide (subset_index ns <> []) then
    flags ← mark_keys (replicate width 0) (subset_index ns); Ok (flags, false)
  else
    len ← key_length sh 0 width (replicate (Z.to_nat (h (s sh))) []);
    let len := if len =? 0 then w (s sh) else len in
    Ok ((fun i => if i <? len then 1 else 0) <$> seqZ 0 (w (s sh)), true).
