(* ===== verification/SnifferSpec.v ===== *)
(** * Guessing names and keys: the names are distinct, the key tells rows apart

    Whatever row the statistics propose, the name sniffer gives every column a name
    and no name twice, which the comparison and the patcher rely on
    ([NamesColumns]); the columns that the index sniffer marks distinguish the rows
    unless it marks all of them. *)

From stdpp Require Import gmap.
From S2P Require Import Prelude Sheet SheetSpec CsvFile Sniffer.
#[local] Open Scope Z_scope.
#[local] Arguments cstr s%_string.

(** ** Names of spreadsheet columns *)

(** The number that a name stands for, in base 26 with the digits A to Z. *)
Definition column_number (name : list Z) : Z := foldl (fun v c => 26 * v + (c - 65)) 0 name.

Lemma column_digits_spec n rem cur :
  0 <= rem < 26 ^ Z.of_nat (S n) ->
  exists ds, column_digits (S n) rem cur = Ok (ds ++ cur) /\ column_number ds = rem /\ ds <> [].
Proof.
  revert rem cur. induction n as [|n IH]; intros rem cur Hr; cbn [column_digits];
    rewrite (Z.rem_mod_nonneg rem 26), (Z.quot_div_nonneg rem 26) by lia;
    pose proof (Z.div_mod rem 26 ltac:(lia)) as Hdm; pose proof (Z.mod_pos_bound rem 26 ltac:(lia)) as Hm.
  - rewrite (Z.div_small rem 26) by lia. exists [65 + rem mod 26].
    split; [done|]. split; [|done]. unfold column_number. simpl. rewrite Z.mod_small; lia.
  - destruct (Z.eqb_spec (rem / 26) 0) as [H0|H0]; cbn [negb].
    + exists [65 + rem mod 26]. split; [done|]. split; [|done]. unfold column_number. cbn [foldl]. lia.
    + destruct (IH (rem / 26) (65 + rem mod 26 :: cur)) as (ds & E & Hd & Hne).
      { rewrite !Nat2Z.inj_succ, !Z.pow_succ_r in * by lia. split; [apply Z.div_pos; lia|].
        apply Z.div_lt_upper_bound; lia. }
      exists (ds ++ [65 + rem mod 26]). rewrite <- app_assoc. split; [exact E|].
      split; [|by destruct ds]. unfold column_number in *. rewrite foldl_app, Hd. cbn [foldl]. lia.
Qed.

Lemma column_name_number x :
  0 <= x <= INT_MAX -> exists n, getSpreadsheetColumnName x = Ok n /\ column_number n = x /\ n <> [].
Proof.
  intros Hx. destruct (column_digits_spec 6 x []) as (ds & E & Hd & Hn).
  { assert (26 ^ Z.of_nat 7 = 8031810176) as -> by reflexivity. unfold INT_MAX in Hx. lia. }
  rewrite app_nil_r in E. by exists ds.
Qed.

(** ** What the sniffers read *)

(** What a naming of columns promises to those who look columns up by name. *)
Class NamesColumns (name : Z -> list Z) (width : Z) : Prop :=
  names_distinct : NoDup (name <$> seqZ 0 width).
#[export] Instance names_columns_dec name width : Decision (NamesColumns name width).
Proof. unfold NamesColumns. apply _. Defined.

Section Sheet.
Context (sh : CsvSheet) (Hok : sheet_ok (s sh)).

Definition cell_string (x y : Z) : list Z := (cell_at sh x y).1.

Lemma text_at_ok x y : 0 <= x < w (s sh) -> 0 <= y < h (s sh) -> text_at sh x y = Ok (cell_string x y).
Proof. intros Hx Hy. unfold text_at. by rewrite cell_read. Qed.

Lemma count_ids_ok ids y n x :
  0 <= y < h (s sh) -> 0 <= x -> x + Z.of_nat n <= w (s sh) -> exists k, count_ids sh ids y x n = Ok k.
Proof.
  intros Hy. revert x. induction n as [|n IH]; intros x Hx Hn; cbn [count_ids]; [by eexists|].
  rewrite text_at_ok, bind_Ok by lia. destruct (IH (x + 1)) as [k ->]; [lia..|]. rewrite bind_Ok. by eexists.
Qed.

Lemma count_between_ok lo hi y n x :
  0 <= y < h (s sh) -> 0 <= x -> x + Z.of_nat n <= w (s sh) -> exists k, count_between sh lo hi y x n = Ok k.
Proof.
  intros Hy. revert x. induction n as [|n IH]; intros x Hx Hn; cbn [count_between]; [by eexists|].
  rewrite text_at_ok, bind_Ok by lia. destruct (IH (x + 1)) as [k ->]; [lia..|]. rewrite bind_Ok. by eexists.
Qed.

Lemma width_nonneg : 0 <= w (s sh).
Proof. by destruct Hok as (_ & ? & _). Qed.

Lemma ids_row_ok ids n y :
  0 <= y -> y + Z.of_nat n <= h (s sh) -> exists d, ids_row sh ids y n = Ok d /\ -1 <= d < Z.max 0 (h (s sh)).
Proof.
  pose proof width_nonneg. revert y. induction n as [|n IH]; intros y Hy Hn; cbn [ids_row]; [exists (-1); split; [done|lia]|].
  destruct (count_ids_ok ids y (Z.to_nat (w (s sh))) 0) as [k ->]; [lia..|]. rewrite bind_Ok.
  destruct (k =? Zlen ids); [exists y; split; [done|lia]|]. apply IH; lia.
Qed.

Lemma rowDivider_ok ids odd :
  -1 <= odd < Z.max 0 (h (s sh)) ->
  exists d, rowDivider sh ids odd = Ok d /\ -1 <= d < Z.max 0 (h (s sh)).
Proof.
  intros Ho. pose proof Hok as (Hh & _). unfold rowDivider.
  destruct (_ || _); [exists (-1); split; [done|lia]|]. destruct (bool_decide (ids <> [])); [|by exists odd].
  apply ids_row_ok; [lia|]. destruct (Z.ltb_spec (h (s sh)) 50); lia.
Qed.

Lemma two_liner_ok : h (s sh) = 2 -> exists b, two_liner sh = Ok b.
Proof.
  intros Hh. pose proof width_nonneg. unfold two_liner, low_in, high_in.
  destruct (count_between_ok 97 122 0 (Z.to_nat (w (s sh))) 0) as [k ->]; [lia..|].
  destruct (count_between_ok 65 90 0 (Z.to_nat (w (s sh))) 0) as [k' ->]; [lia..|]. rewrite !bind_Ok.
  destruct (count_between_ok 97 122 1 (Z.to_nat (w (s sh))) 0) as [k2 ->]; [lia..|]. rewrite bind_Ok.
  destruct (_ && _); by eexists.
Qed.

(** ** The header *)

(** A list of names that may be used for the columns under row [d], from [i] on. *)
Definition header_for (d i : Z) (l : list (list Z)) : Prop :=
  NoDup l /\ Zlen l = w (s sh) /\
  forall x, i <= x < w (s sh) -> cell_string x d <> [] -> l !! Z.to_nat x = Some (cell_string x d).

Lemma header_names_ok d n i lastName acc :
  0 <= d < h (s sh) -> NoDup acc -> Zlen acc = i -> i + Z.of_nat n = w (s sh) ->
  exists r, header_names sh d i n lastName acc = Ok r /\
    forall l, r = Some l -> header_for d i l /\ acc `prefix_of` l.
Proof.
  intros Hd. revert i lastName acc. induction n as [|n IH]; intros i lastName acc Hnd Hi Hn; cbn [header_names].
  { eexists. split; [done|]. intros l [= <-]. split; [|done]. split_and!; [done|lia|]. intros; lia. }
  rewrite (text_at_ok i d), bind_Ok by lia.
  assert (forall name, name ∉ acc -> (cell_string i d <> [] -> name = cell_string i d) ->
    exists r, header_names sh d (i + 1) n name (acc ++ [name]) = Ok r /\
      forall l, r = Some l -> header_for d i l /\ acc `prefix_of` l) as Hstep.
  { intros name Hname Htxt. destruct (IH (i + 1) name (acc ++ [name])) as (r & E & Hr).
    - apply list.NoDup_app. split_and!; [done| |apply NoDup_singleton].
      intros x Hx ->%list_elem_of_singleton. done.
    - rewrite length_app. simpl. lia.
    - lia.
    - exists r. split; [done|]. intros l Hl. destruct (Hr l Hl) as [(H1 & H2 & H3) [m ->]].
      split; [|exists ([name] ++ m); by rewrite (assoc (++))].
      split_and!; [done..|]. intros x Hx Hne. destruct (decide (x = i)) as [->|]; [|apply H3; [lia|done]].
      rewrite <- Htxt by done. rewrite <- app_assoc, lookup_app_r by lia.
      by replace (Z.to_nat i - length acc)%nat with 0%nat by lia. }
  case_bool_decide as Hblank.
  - assert (exists below, (if h (s sh) >? d + 1 then text_at sh i (d + 1) else Ok []) = Ok below) as [below ->].
    { rewrite Z.gtb_ltb. destruct (Z.ltb_spec (d + 1) (h (s sh))); [|by eexists].
      rewrite text_at_ok by lia. by eexists. }
    rewrite bind_Ok. case_bool_decide; [by eexists|]. case_bool_decide; [by eexists|]. by apply Hstep.
  - case_bool_decide; [by eexists|]. by apply Hstep.
Qed.

Lemma seqZ_names (l : list (list Z)) (name : Z -> list Z) n :
  Zlen l = n -> (forall x, 0 <= x < n -> l !! Z.to_nat x = Some (name x)) -> name <$> seqZ 0 n = l.
Proof.
  intros Hl H. apply list_eq. intros i. rewrite list_lookup_fmap.
  destruct (decide (Z.of_nat i < n)).
  - rewrite lookup_seqZ_lt by lia. cbn [fmap option_fmap option_map]. rewrite Z.add_0_l.
    rewrite <- H by lia. by rewrite Nat2Z.id.
  - rewrite lookup_seqZ_ge by lia. symmetry. apply lookup_ge_None. lia.
Qed.

(** The name that a sniffer suggests, as a total function. *)
Definition name_of (ns : NameSniffer) (x : Z) : list Z :=
  match suggestColumnName ns x with Ok n => n | Fault _ => [] end.

Definition named_by (ns : NameSniffer) : Prop :=
  (forall x, 0 <= x < w (s sh) -> suggestColumnName ns x = Ok (name_of ns x)) /\
  NamesColumns (name_of ns) (w (s sh)).

Lemma named_by_header d ns :
  header_for d 0 (ns_names ns) -> w (s sh) <> 0 -> named_by ns.
Proof.
  intros (Hnd & Hl & _) Hw. pose proof width_nonneg as Hw0.
  assert (forall x, 0 <= x < w (s sh) -> exists n, ns_names ns !! Z.to_nat x = Some n /\
            suggestColumnName ns x = Ok n) as H.
  { intros x Hx. destruct (lookup_lt_is_Some_2 (ns_names ns) (Z.to_nat x)) as [n Hn]; [lia|].
    exists n. split; [done|]. unfold suggestColumnName. rewrite bool_decide_eq_true_2 by (intros E; by rewrite E in Hn).
    apply rd_ok; [lia|done]. }
  assert (forall x, 0 <= x < w (s sh) -> ns_names ns !! Z.to_nat x = Some (name_of ns x) /\
            suggestColumnName ns x = Ok (name_of ns x)) as H'.
  { intros x Hx. destruct (H x Hx) as (n & ? & E). unfold name_of. by rewrite E. }
  split; [intros x Hx; by apply H'|]. unfold NamesColumns.
  rewrite (seqZ_names (ns_names ns)); [done|done|]. intros x Hx. by apply H'.
Qed.

Lemma named_by_letters ns : ns_names ns = [] -> w (s sh) <= INT_MAX -> named_by ns.
Proof.
  intros Hns Hw. pose proof width_nonneg as Hw0.
  assert (forall x, 0 <= x < w (s sh) ->
            suggestColumnName ns x = Ok (name_of ns x) /\ column_number (name_of ns x) = x) as H.
  { intros x Hx. assert (suggestColumnName ns x = getSpreadsheetColumnName x) as E.
    { unfold suggestColumnName. by rewrite Hns. }
    unfold name_of. rewrite E. destruct (column_name_number x) as (n & -> & ? & _); [lia|done]. }
  split; [intros x Hx; by apply H|]. unfold NamesColumns.
  apply NoDup_fmap_2_strong; [|apply NoDup_seqZ]. intros x y Hx%elem_of_seqZ Hy%elem_of_seqZ E.
  destruct (H x) as [_ <-]; [lia|]. destruct (H y) as [_ <-]; [lia|]. by rewrite E.
Qed.

Lemma top_row d :
  -1 <= d < Z.max 0 (h (s sh)) ->
  exists d', (if (d <? 0) && (h (s sh) =? 2)
              then two ← two_liner sh; Ok (if two : bool then 0 else d) else Ok d) = Ok d' /\
    -1 <= d' < Z.max 0 (h (s sh)).
Proof.
  intros Hd. destruct (Z.eqb_spec (h (s sh)) 2) as [H2|H2]; [|rewrite andb_false_r; by exists d].
  rewrite andb_true_r. destruct (d <? 0); [|by exists d].
  destruct two_liner_ok as [b ->]; [done|]. rewrite bind_Ok.
  destruct b; [exists 0|exists d]; (split; [done|lia]).
Qed.

(** C28. The name sniffer, on a rectangular sheet without a schema and whatever row
    the statistics propose as header: it ends, suggests a name for every column,
    and suggests no name twice.  When it accepts a header, that is a row of the
    sheet, and every column with a text there has that text as its name. *)
Theorem sniff_spec (ids : list (list Z)) (odd : Z) :
  w (s sh) <= INT_MAX -> -1 <= odd < Z.max 0 (h (s sh)) ->
  exists ns, sniff sh ids odd new_sniffer (-1) = Ok ns /\ named_by ns /\
    (fake ns = false -> 0 <= div ns < h (s sh) /\
      forall x, 0 <= x < w (s sh) -> cell_string x (div ns) <> [] -> name_of ns x = cell_string x (div ns)).
Proof.
  intros Hw Ho. unfold sniff. cbn [sniffed new_sniffer Z.ltb Z.compare].
  destruct (rowDivider_ok ids odd Ho) as (d0 & -> & Hd0). rewrite bind_Ok.
  destruct (top_row d0 Hd0) as (d & -> & Hd). rewrite bind_Ok.
  destruct (Z.ltb_spec d 0) as [Hneg|Hpos].
  { eexists. split; [done|]. split; [by apply named_by_letters|done]. }
  pose proof width_nonneg as Hw0.
  destruct (header_names_ok d (Z.to_nat (w (s sh))) 0 [] []) as (r & -> & Hr);
    [lia|constructor|done|lia|]. rewrite bind_Ok. eexists. split; [done|].
  destruct r as [l|]; [|split; [by apply named_by_letters|done]].
  destruct (Hr l eq_refl) as [Hl _]. set (ns := NameSniffer_ l _ _ _ _ _). pose proof Hl as (_ & Hlen & Htxt).
  assert (named_by ns) as Hnamed.
  { destruct (decide (w (s sh) = 0)) as [H0|H0]; [|by apply (named_by_header d)].
    apply named_by_letters; [|done]. subst ns. by destruct l; [|simpl in Hlen; lia]. }
  split; [done|]. intros _. split; [simpl; lia|]. intros x Hx Hne.
  destruct Hnamed as [Hn _]. specialize (Hn x Hx). unfold suggestColumnName in Hn.
  rewrite bool_decide_eq_true_2 in Hn by (intros E; simpl in E; subst l; simpl in Hlen; lia).
  apply rd_Ok_inv in Hn as [_ Hn]. simpl in Hn, Hne |- *. rewrite Htxt in Hn by done. by injection Hn.
Qed.

(** ** The key *)

Definition key_part (x y : Z) : list Z :=
  (cell_at sh x y).1 ++ (if (cell_at sh x y).2 then cstr "*" else cstr " ").
(** The text that the first [k] cells of row [y] add up to. *)
Definition row_key (k y : Z) : list Z := concat ((fun x => key_part x y) <$> seqZ 0 k).
Definition row_keys (k : Z) : list (list Z) := row_key k <$> seqZ 0 (h (s sh)).

Lemma row_key_S k y : 0 <= k -> row_key (k + 1) y = row_key k y ++ key_part k y.
Proof.
  intros Hk. unfold row_key. rewrite seqZ_app, fmap_app, concat_app by lia. f_equal.
  rewrite (seqZ_cons (0 + k) 1) by lia. simpl. by rewrite app_nil_r.
Qed.

Lemma row_key_ext k y y' :
  (forall x, 0 <= x < k -> cell_at sh x y = cell_at sh x y') -> row_key k y = row_key k y'.
Proof.
  intros H. unfold row_key. f_equal. apply list_fmap_ext. intros i x Hx.
  apply lookup_seqZ in Hx as [-> Hi]. unfold key_part. by rewrite !H by lia.
Qed.

Lemma extend_keys_ok i n j ct collide :
  0 <= i < w (s sh) -> 0 <= j -> j + Z.of_nat n <= h (s sh) ->
  exists collide', extend_keys sh i j (row_key i <$> seqZ j (Z.of_nat n)) ct collide =
      Ok (row_key (i + 1) <$> seqZ j (Z.of_nat n), collide') /\ collide <= collide' /\
    (collide' = collide <-> NoDup (row_key (i + 1) <$> seqZ j (Z.of_nat n)) /\
                            forall k, k ∈ row_key (i + 1) <$> seqZ j (Z.of_nat n) -> ct !! k = None).
Proof.
  intros Hi. revert j ct collide. induction n as [|n IH]; intros j ct collide Hj Hn.
  { exists collide. split_and!; [done|lia|]. split; [|done]. intros _. split; [constructor|].
    intros k Hk. by apply not_elem_of_nil in Hk. }
  rewrite seqZ_cons by lia. replace (Z.pred (Z.of_nat (S n))) with (Z.of_nat n) by lia.
  cbn [fmap list_fmap extend_keys]. rewrite cell_read, bind_Ok by (done || lia).
  assert (forall A (f : list Z -> bool -> result A),
    (let '(v, e) := cell_at sh i j in f v e) = f (cell_at sh i j).1 (cell_at sh i j).2) as Hp
    by (intros; by destruct (cell_at sh i j)).
  rewrite Hp. fold (key_part i j). rewrite <- row_key_S by lia.
  change (Z.succ j) with (j + 1). set (k := row_key (i + 1) j).
  destruct (ct !! k) as [one|] eqn:Ek.
  - destruct (IH (j + 1) ct (collide + 1)) as (c' & -> & Hle & _); [lia..|]. exists c'.
    split_and!; [done|lia|]. split; [lia|]. intros [_ H]. rewrite (H k) in Ek by left. done.
  - destruct (IH (j + 1) (<[k := 1]> ct) collide) as (c' & -> & Hle & Hiff); [lia..|]. exists c'.
    split_and!; [done|lia|]. rewrite Hiff, list.NoDup_cons. split.
    + intros [Hnd H]. split_and!; [|done|].
      * intros Hin. specialize (H k Hin). by rewrite lookup_insert_eq in H.
      * intros k' [->|Hin]%elem_of_cons; [done|]. specialize (H k' Hin).
        by apply lookup_insert_None in H as [? _].
    + intros [[Hnin Hnd] H]. split; [done|]. intros k' Hin. apply lookup_insert_None.
      split; [apply H; by right|]. by intros ->.
Qed.

Lemma key_length_ok n i :
  0 <= i -> i + Z.of_nat n = w (s sh) ->
  exists len, key_length sh i n (row_keys i) = Ok len /\ (i < len <= w (s sh) \/ len = i /\ i = w (s sh)) /\
    (forall k, i < k < len -> ~ NoDup (row_keys k)) /\ (len < w (s sh) -> NoDup (row_keys len)).
Proof.
  intros Hi Hn. pose proof Hok as (Hh & _). revert i Hi Hn.
  induction n as [|n IH]; intros i Hi Hn; cbn [key_length].
  { exists (w (s sh)). split_and!; [done|lia|lia|lia]. }
  destruct (extend_keys_ok i (Z.to_nat (h (s sh))) 0 ∅ 0) as (c & E & _ & Hc); [lia..|].
  rewrite Z2Nat.id in E, Hc by lia. fold (row_keys i) (row_keys (i + 1)) in E, Hc.
  rewrite E, bind_Ok. destruct (Z.eqb_spec c 0) as [H0|H0].
  - exists (i + 1). split_and!; [done|lia|lia|]. intros _. by apply Hc.
  - destruct (IH (i + 1)) as (len & -> & Hl & Hk & Hd); [lia..|]. exists len.
    split_and!; [done|lia| |done]. intros k Hki. destruct (decide (k = i + 1)) as [->|]; [|apply Hk; lia].
    intros Hnd. apply H0, Hc. split; [done|]. intros k' _. apply lookup_empty.
Qed.

Lemma collision {A} `{EqDecision A} (f : Z -> A) n :
  ~ NoDup (f <$> seqZ 0 n) -> exists y y', 0 <= y < y' /\ y' < n /\ f y = f y'.
Proof.
  intros H. destruct (decide (Exists (fun y => Exists (fun y' => f y = f y') (seqZ (y + 1) (n - y - 1)))
                                (seqZ 0 n))) as [He|Hne].
  - apply Exists_exists in He as (y & Hy%list_elem_of_In%elem_of_seqZ & He).
    apply Exists_exists in He as (y' & Hy'%list_elem_of_In%elem_of_seqZ & He). exists y, y'. split_and!; (lia || done).
  - exfalso. apply H, NoDup_fmap_2_strong; [|apply NoDup_seqZ].
    assert (forall y y', 0 <= y < y' -> y' < n -> f y = f y' -> False) as Hlt.
    { intros y y' Hy Hy' E. apply Hne, Exists_exists. exists y. split; [apply list_elem_of_In, elem_of_seqZ; lia|].
      apply Exists_exists. exists y'. split; [apply list_elem_of_In, elem_of_seqZ; lia|done]. }
    intros y y' Hy%elem_of_seqZ Hy'%elem_of_seqZ E. destruct (Z.lt_total y y') as [?|[?|?]]; [|done|].
    + destruct (Hlt y y'); (lia || done).
    + destruct (Hlt y' y); (lia || done).
Qed.

(** The guess of the index sniffer, on a rectangular sheet when no identifiers were
    given: the first columns are marked, at least one if there is one.  If a column
    is not marked, any two rows differ in a marked column; and with fewer columns
    the texts of two rows would run together to the same. *)
Lemma index_guess (bias_ids : bool) (ns : NameSniffer) :
  subset_index ns = [] ->
  exists len, index_sniff sh bias_ids ns =
      Ok ((fun i => if i <? len then 1 else 0) <$> seqZ 0 (w (s sh)), true) /\
    (0 < w (s sh) -> 0 < len <= w (s sh)) /\
    (len < w (s sh) -> forall y y', 0 <= y < y' -> y' < h (s sh) ->
       exists x, 0 <= x < len /\ cell_at sh x y <> cell_at sh x y') /\
    (forall k, 0 < k < len -> exists y y', 0 <= y < y' /\ y' < h (s sh) /\ row_key k y = row_key k y').
Proof.
  intros Hs. pose proof width_nonneg as Hw. pose proof Hok as (Hh & _). unfold index_sniff.
  rewrite Hs, andb_false_r.
  assert (replicate (Z.to_nat (h (s sh))) [] = row_keys 0) as ->.
  { unfold row_keys. rewrite (const_fmap (row_key 0) _ []), length_seqZ by done. done. }
  destruct (key_length_ok (Z.to_nat (w (s sh))) 0) as (len & -> & Hl & Hk & Hd); [lia..|].
  rewrite bind_Ok. exists len. split_and!.
  - destruct (Z.eqb_spec len 0); [|done]. by replace (w (s sh)) with len by lia.
  - lia.
  - intros Hlt y y' Hy Hy'. apply Hd in Hlt.
    destruct (decide (Forall (fun x => cell_at sh x y = cell_at sh x y') (seqZ 0 len))) as [H|H].
    + exfalso. rewrite Forall_seqZ in H.
      assert (row_key len y = row_key len y') as E by (apply row_key_ext; intros x Hx; apply H; lia).
      unfold row_keys in Hlt. pose proof (NoDup_lookup _ (Z.to_nat y) (Z.to_nat y') (row_key len y) Hlt) as Hyy.
      rewrite !list_lookup_fmap, !lookup_seqZ_lt in Hyy by lia. simpl in Hyy.
      rewrite !Z.add_0_l, !Z2Nat.id in Hyy by lia. rewrite <- E in Hyy. specialize (Hyy eq_refl eq_refl). lia.
    + apply not_Forall_Exists, Exists_exists in H as (x & Hx%list_elem_of_In%elem_of_seqZ & Hne); [|apply _].
      exists x. split; [lia|done].
  - intros k Hki. apply collision. by apply Hk.
Qed.
End Sheet.

(** A sheet with a header, a blank name and two rows of data. *)
Definition header_sheet : CsvSheet :=
  CsvSheet_ (TypedSheet_ [[(cstr "ID", false); ([], false); (cstr "TOWN", false)];
                          [(cstr "1", false); ([], false); (cstr "x", false)]] 2 3 ([], false)) [] 2 0 true.

Lemma sniff_spec_witness :
  exists ns, sniff header_sheet [] (-1) new_sniffer (-1) = Ok ns /\ fake ns = false /\
    NoDup (name_of ns <$> seqZ 0 3) /\ name_of ns 0 = cstr "ID" /\ name_of ns 1 = cstr "ID_".
Proof.
  destruct (sniff_spec header_sheet ltac:(split_and!; [done|done|by repeat constructor]) [] (-1))
    as (ns & E & [_ Hnd] & H); [done|done|].
  exists ns. split; [exact E|]. assert (ns = NameSniffer_ [cstr "ID"; cstr "ID_"; cstr "TOWN"] [] true false true 0)
    as -> by (vm_compute in E; by injection E).
  split; [done|]. split; [exact Hnd|]. split; [|done]. apply H; [done|simpl; lia|done].
Defined.

(** ** Where the sniffers go wrong *)

(** An identifier of one capital letter is looked up as a name and as a column: a
    column that is called [A] counts twice, and [subset] answers that not all
    identifiers were found. *)
Lemma subset_counts_twice :
  (subset (NameSniffer_ [cstr "A"; cstr "B"] [] true false true 0) [cstr "A"]).1 = false.
Proof. by vm_compute. Qed.

(** The break after such an identifier leaves the loop over the identifiers. *)
Lemma subset_stops_early :
  (subset (NameSniffer_ [cstr "id"; cstr "town"] [] true false true 0) [cstr "A"; cstr "town"]).1 = false.
Proof. by vm_compute. Qed.

(** The letter is not compared with the width: a column outside the sheet becomes
    part of the key, and the index sniffer writes outside of its vector. *)
Lemma subset_outside :
  exists ns, subset (NameSniffer_ [cstr "ID"; cstr "ID_"; cstr "TOWN"] [] true false true 0) [cstr "["] =
      (true, ns) /\
    subset_index ns = [26] /\ index_sniff header_sheet false ns = Fault OutOfBounds.
Proof. eexists. split; [reflexivity|]. by vm_compute. Qed.

(** The test that the names lie in one row can not fail, as [at] is never less than
    -1: names from different rows are taken for a header in the last of them. *)
Lemma resniff_mixes_rows :
  let sh := CsvSheet_ (TypedSheet_ [[(cstr "a", false); (cstr "x", false)];
                                    [(cstr "y", false); (cstr "b", false)]] 2 2 ([], false)) [] 2 0 true in
  exists ns, resniff sh [] (-1) (NameSniffer_ [] [] false true true (-1))
      (NameSniffer_ [cstr "a"; cstr "b"] [] true false true 0) = Ok (true, ns) /\
    ns_names ns = [cstr "y"; cstr "b"].
Proof. eexists. split; [vm_compute; reflexivity|]. by vm_compute. Qed.

(** The name after [Z] is [AA], but column 26 is called [BA]. *)
Lemma column_names_disagree :
  getSpreadsheetColumnName 25 = Ok (cstr "Z") /\ nextSpreadsheetColumnName (cstr "Z") = cstr "AA" /\
  getSpreadsheetColumnName 26 = Ok (cstr "BA").
Proof. by vm_compute. Qed.

(** The texts of the cells run together in a key: the first two columns tell these
    three rows apart, but the third is marked as well. *)
Lemma keys_run_together :
  let sh := CsvSheet_ (TypedSheet_ [[(cstr "a b", false); (cstr "c", false); (cstr "1", false); ([], false)];
                                    [(cstr "a", false); (cstr "b c", false); (cstr "2", false); ([], false)];
                                    [(cstr "a", false); (cstr "z", false); (cstr "3", false); ([], false)]]
                         3 4 ([], false)) [] 3 0 true in
  index_sniff sh false new_sniffer = Ok ([1; 1; 1; 0], true).
Proof. by vm_compute. Qed.
