(* ===== verification/Mover.v ===== *)
(** * Mover: planning the moves of a reordering

    Models [Mover::move] ([libcoopy_core/Mover.cpp], [include/coopy/Mover.h]), the
    search for a short sequence of single moves that turns one order of columns
    or rows into another: used when a merge or a patch reorders a sheet.

    The recursion adds an element to [forbidden] at every level, so it is not
    deeper than the number of elements; [move_rec] takes that bound as fuel.  The
    members of the class are the record [mover], threaded through the search. *)

From S2P Require Import Prelude.

Record mover := Mover_ {
  solutions : Z;
  global_solved : bool;
  global_best_order : list Z
}.

(** [std::find] as an index, the length of the vector for [end()]. *)
Fixpoint find_index (x : Z) (l : list Z) : nat :=
  match l with [] => O | y :: l => if y =? x then O else S (find_index x l) end.

(** Where the [i]th element of [dest], found at [pos] in [src], has to go:
    [None] when it stays, [Some None] to the start, [Some (Some x2)] after [x2]. *)
Definition move_target (src dest : list Z) (i pos : nat) : result (option (option Z)) :=
  if (pos =? 0)%nat then
    if negb (i =? 0)%nat then x2 ← rd dest (Z.of_nat i - 1); Ok (Some (Some x2)) else Ok None
  else if (i =? 0)%nat then Ok (Some None)
  else y ← rd src (Z.of_nat pos - 1); x2 ← rd dest (Z.of_nat i - 1);
       if negb (y =? x2) then Ok (Some (Some x2)) else Ok None.

(** [nsrc]: [x], at [pos] in [src], moved to its target. *)
Definition moved_src (src : list Z) (pos : nat) (x : Z) (target : option Z) : result (list Z) :=
  nsrc ← vec_erase src (Z.of_nat pos);
  match target with
  | None => vec_insert nsrc 0 x
  | Some x2 => vec_insert nsrc (Z.of_nat (find_index x2 nsrc) + 1) x
  end.

Section Search.
Context (dest : list Z).

(** The [for] loop, over the indices [is_], around the recursive call. *)
Fixpoint move_loop
    (rec : list Z -> list Z -> list Z -> mover -> result (bool * list Z * mover))
    (src order forbidden : list Z) (is_ : list nat) (best_order : list Z) (solved : bool)
    (m : mover) : result (bool * mover) :=
  match is_ with
  | [] => Ok (solved, m)
  | i :: is_ =>
      x ← rd dest (Z.of_nat i);
      if existsb (Z.eqb x) forbidden
      then move_loop rec src order forbidden is_ best_order solved m else
      let pos := find_index x src in
      t ← move_target src dest i pos;
      match t with
      | None => move_loop rec src order forbidden is_ best_order solved m
      | Some target =>
          nsrc ← moved_src src pos x target;
          '(ok, norder, m) ← rec nsrc (order ++ [x]) (forbidden ++ [x]) m;
          if negb ok then move_loop rec src order forbidden is_ best_order solved m
          else if (length norder <? length best_order)%nat || negb solved then
            let m := Mover_ (solutions m + 1) (global_solved m) (global_best_order m) in
            let m := if (length norder <? length (global_best_order m))%nat ||
                        negb (global_solved m)
                     then Mover_ (solutions m) true norder else m in
            move_loop rec src order forbidden is_ norder true m
          else move_loop rec src order forbidden is_ best_order solved m
      end
  end.

(** Returns the C++ result, the value [order] is left with, and the members. *)
Fixpoint move_rec (fuel : nat) (src order forbidden : list Z) (depth : Z) (m : mover) :
    result (bool * list Z * mover) :=
  match fuel with
  | O => Fault OutOfFuel
  | S fuel =>
      let m := if depth =? 0 then Mover_ 0 false (global_best_order m) else m in
      if global_solved m && (depth >? Zlen (global_best_order m)) then Ok (false, order, m)
      else if solutions m >? 100 then Ok (false, order, m)
      else if bool_decide (src = dest) then Ok (true, order, m)
      else
        '(solved, m) ← move_loop (fun s o f => move_rec fuel s o f (depth + 1)) src order forbidden
                         (seq 0 (length dest)) [] false m;
        if negb solved then Ok (false, order, m)
        else Ok (true, global_best_order m, m)
  end.
End Search.

(** The public overload: nothing is forbidden, depth 0. *)
Definition move (src dest order : list Z) (m : mover) : result (bool * list Z * mover) :=
  move_rec dest (S (length dest)) src order [] 0 m.
