(* ===== verification/MoverSpec.v ===== *)
(** * Mover: the plan it finds is right, and it finds one

    Replaying the moves that [move] returns turns the old order into the new one,
    no element is moved twice, and for two orders of the same distinct elements
    [move] always returns a plan. *)

From S2P Require Import Prelude Mover.

(** ** What a plan means *)

Definition without (x : Z) (l : list Z) : list Z := filter (fun y => y <> x) l.

Fixpoint insert_after (y x : Z) (l : list Z) : list Z :=
  match l with
  | [] => [x]
  | z :: l => if z =? y then z :: x :: l else z :: insert_after y x l
  end.

(** Moving [x]: behind the element it follows in [dest], or to the start. *)
Definition do_move (dest l : list Z) (x : Z) : list Z :=
  match find_index x dest with
  | O => x :: without x l
  | S k => insert_after (nth k dest 0) x (without x l)
  end.

Definition replay (dest l order : list Z) : list Z := foldl (do_move dest) l order.

(** ** Lists *)

Lemma find_index_lookup x l i : NoDup l -> l !! i = Some x -> find_index x l = i.
Proof.
  intros Hnd. revert i. induction Hnd as [|y l Hy _ IH]; intros i Hi; simpl; [done|].
  destruct i as [|i]; simpl in Hi; [simplify_eq; by rewrite Z.eqb_refl|].
  rewrite (proj2 (Z.eqb_neq y x)); [by f_equal; apply IH|].
  intros ->. by apply Hy, list_elem_of_lookup_2 with i.
Qed.

Lemma find_index_in x l :
  x ∈ l -> (find_index x l < length l)%nat /\ l !! find_index x l = Some x.
Proof.
  induction 1 as [|x y l Hin [IH1 IH2]]; simpl.
  - rewrite Z.eqb_refl. split; [lia|done].
  - destruct (Z.eqb_spec y x) as [->|]; [split; [lia|done]|]. split; [lia|done].
Qed.

Lemma without_notin x l : x ∉ l -> without x l = l.
Proof.
  induction l as [|y l IH]; intros Hx; [done|]. apply not_elem_of_cons in Hx as [Hne Hx].
  unfold without in *. rewrite filter_cons_True by done. f_equal. by apply IH.
Qed.

Lemma erase_without x l i :
  NoDup l -> l !! i = Some x -> take i l ++ drop (S i) l = without x l.
Proof.
  intros Hnd. revert i. induction Hnd as [|y l Hy Hnd IH]; intros i Hi; [done|].
  destruct i as [|i]; simpl in Hi.
  - simplify_eq. simpl. unfold without. rewrite filter_cons_False by naive_solver.
    symmetry. rewrite drop_0. by apply without_notin.
  - simpl. unfold without. rewrite filter_cons_True; [f_equal; by apply IH|].
    intros ->. by apply Hy, list_elem_of_lookup_2 with i.
Qed.

Lemma insert_at_after y x l :
  y ∈ l ->
  take (S (find_index y l)) l ++ x :: drop (S (find_index y l)) l = insert_after y x l.
Proof.
  induction l as [|z l IH]; intros Hy; [by apply elem_of_nil in Hy|]. simpl.
  destruct (Z.eqb_spec z y) as [->|Hne]; [done|]. apply elem_of_cons in Hy as [->|Hy]; [done|].
  rewrite <- (IH Hy). done.
Qed.

Lemma without_perm x l : NoDup l -> x ∈ l -> x :: without x l ≡ₚ l.
Proof.
  intros Hnd Hx. apply list_elem_of_lookup in Hx as [i Hi].
  rewrite <- (erase_without x l i) by done. rewrite <- (take_drop_middle l i x Hi) at 3.
  by rewrite Permutation_middle.
Qed.

Lemma insert_after_perm y x l : insert_after y x l ≡ₚ x :: l.
Proof.
  induction l as [|z l IH]; simpl; [done|]. destruct (z =? y); [apply Permutation_swap|].
  rewrite IH. apply Permutation_swap.
Qed.

Lemma elem_of_without x y l : y ∈ without x l <-> y <> x /\ y ∈ l.
Proof. unfold without. by rewrite list_elem_of_filter. Qed.

Section Dest.
Context (dest : list Z) (Hdest : NoDup dest).

Lemma do_move_perm l x : l ≡ₚ dest -> x ∈ dest -> do_move dest l x ≡ₚ dest.
Proof.
  intros Hl Hx. assert (x :: without x l ≡ₚ l) as Hw.
  { apply without_perm; [by rewrite Hl|by rewrite Hl]. }
  unfold do_move. destruct (find_index x dest); [by rewrite Hw|].
  by rewrite insert_after_perm, Hw.
Qed.

(** The move the loop makes for index [i] is [do_move]. *)
Lemma moved_src_ok src i x target :
  src ≡ₚ dest -> dest !! i = Some x ->
  (i = 0%nat /\ target = None \/ exists k x2, i = S k /\ dest !! k = Some x2 /\ target = Some x2) ->
  moved_src src (find_index x src) x target = Ok (do_move dest src x).
Proof.
  intros Hp Hi Ht. assert (NoDup src) as Hnd by (by rewrite Hp).
  assert (x ∈ src) as Hx by (rewrite Hp; by apply list_elem_of_lookup_2 with i).
  destruct (find_index_in x src Hx) as [Hlt Hl]. unfold moved_src.
  rewrite vec_erase_ok, bind_Ok, Nat2Z.id by lia. rewrite (erase_without x) by done.
  unfold do_move. rewrite (find_index_lookup x dest i) by done.
  destruct Ht as [[-> ->]|(k & x2 & -> & Hk & ->)].
  - rewrite vec_insert_ok by lia. done.
  - assert (x2 ∈ without x src) as H2.
    { apply elem_of_without. split; [|rewrite Hp; by apply list_elem_of_lookup_2 with k].
      intros ->. pose proof (NoDup_lookup dest k (S k) x Hdest Hk Hi). lia. }
    destruct (find_index_in x2 _ H2) as [Hlt2 _]. rewrite vec_insert_ok by lia.
    replace (Z.to_nat (Z.of_nat (find_index x2 (without x src)) + 1))
      with (S (find_index x2 (without x src))) by lia.
    rewrite insert_at_after by done. by rewrite (nth_lookup_Some dest k 0 x2).
Qed.

(** What [move_target] answers; in the part of the order that is right, it moves
    exactly the first element that is out of place. *)
Lemma move_target_ok src i x :
  src ≡ₚ dest -> dest !! i = Some x ->
  exists t, move_target src dest i (find_index x src) = Ok t /\
  (forall target, t = Some target ->
     i = 0%nat /\ target = None \/ exists k x2, i = S k /\ dest !! k = Some x2 /\ target = Some x2) /\
  (take i src = take i dest -> (t = None <-> src !! i = Some x)).
Proof.
  intros Hp Hi. assert (x ∈ src) as Hx by (rewrite Hp; by apply list_elem_of_lookup_2 with i).
  assert (NoDup src) as Hnd by (by rewrite Hp).
  destruct (find_index_in x src Hx) as [Hlt Hl]. unfold move_target.
  assert (forall k, src !! k = Some x -> find_index x src = k) as Hpos
    by (intros k; by apply find_index_lookup).
  destruct (find_index x src) as [|n] eqn:En; cbn [Nat.eqb].
  - destruct i as [|k]; cbn [Nat.eqb negb]; [by exists None|].
    destruct (lookup_lt_is_Some_2 dest k) as [x2 Hk]; [apply lookup_lt_Some in Hi; lia|].
    rewrite (rd_ok dest _ x2); [|lia|by replace (Z.to_nat (Z.of_nat (S k) - 1)) with k by lia].
    exists (Some (Some x2)). split_and!; [done|intros ? [= <-]; right; eauto|].
    intros _. split; [done|]. by intros ?%Hpos.
  - destruct i as [|k]; cbn [Nat.eqb].
    + exists (Some None). split_and!; [done|intros ? [= <-]; by left|].
      intros _. split; [done|]. by intros ?%Hpos.
    + destruct (lookup_lt_is_Some_2 dest k) as [x2 Hk]; [apply lookup_lt_Some in Hi; lia|].
      destruct (lookup_lt_is_Some_2 src n) as [y Hy]; [lia|].
      rewrite (rd_ok src _ y); [|lia|by replace (Z.to_nat (Z.of_nat (S n) - 1)) with n by lia].
      rewrite (rd_ok dest _ x2); [|lia|by replace (Z.to_nat (Z.of_nat (S k) - 1)) with k by lia].
      rewrite !bind_Ok.
      assert (take (S k) src = take (S k) dest -> src !! k = Some x2) as Hk2.
      { intros Htake. rewrite <- Hk, <- (lookup_take_lt src (S k)), <- (lookup_take_lt dest (S k)) by lia.
        by rewrite Htake. }
      destruct (Z.eqb_spec y x2) as [->|Hne]; cbn [negb].
      * exists None. split_and!; [done|done|]. intros Htake. split; [intros _|done].
        by rewrite <- (NoDup_lookup src n k x2 Hnd Hy (Hk2 Htake)).
      * exists (Some (Some x2)). split_and!; [done|intros ? [= <-]; right; eauto|].
        intros Htake. split; [done|]. intros [= ->]%Hpos. specialize (Hk2 Htake). congruence.
Qed.

(** Moving the first element that is out of place extends the common prefix. *)
Lemma do_move_prefix src i x :
  src ≡ₚ dest -> dest !! i = Some x -> take i src = take i dest ->
  take (S i) (do_move dest src x) = take (S i) dest.
Proof.
  intros Hp Hi Ht. assert (NoDup src) as Hnd by (by rewrite Hp).
  pose proof (lookup_lt_Some _ _ _ Hi) as Hlt.
  assert (x ∉ take i dest) as Hnot.
  { intros Hin. apply elem_of_take in Hin as (n & Hn & Hlt').
    pose proof (NoDup_lookup dest n i x Hdest Hn Hi). lia. }
  assert (without x src = take i dest ++ without x (drop i src)) as Hw.
  { rewrite <- (take_drop i src) at 1. unfold without. rewrite list.filter_app. f_equal.
    rewrite Ht. by apply without_notin. }
  unfold do_move. rewrite (find_index_lookup x dest i) by done. rewrite Hw.
  rewrite (take_S_r dest i x) by done. destruct i as [|k].
  - simpl. done.
  - destruct (lookup_lt_is_Some_2 dest k) as [y Hy]; [lia|].
    rewrite (nth_lookup_Some dest k 0 y) by done. rewrite (take_S_r dest k y) by done.
    assert (forall a r, y ∉ a -> insert_after y x ((a ++ [y]) ++ r) = (a ++ [y]) ++ x :: r) as Hins.
    { intros a r. induction a as [|z a IH]; intros Ha; simpl; [by rewrite Z.eqb_refl|].
      apply not_elem_of_cons in Ha as [Hz Ha]. rewrite (proj2 (Z.eqb_neq z y)) by done.
      f_equal. by apply IH. }
    rewrite Hins.
    + assert (length (take k dest ++ [y]) = S k) as Hl
        by (rewrite length_app, length_take; simpl; lia).
      rewrite take_app_ge, Hl by lia. by replace (S (S k) - S k)%nat with 1%nat by lia.
    + intros Hin. apply elem_of_take in Hin as (n & Hn & Hlt').
      pose proof (NoDup_lookup dest n k y Hdest Hn Hy). lia.
Qed.

(** ** The search *)

Context (src0 : list Z).

(** A plan: it leads from [src0] to [dest] and moves no element twice. *)
Definition solves (order : list Z) : Prop := replay dest src0 order = dest /\ NoDup order /\ order ⊆ dest.
Definition good (m : mover) : Prop := global_solved m = true -> solves (global_best_order m).

(** A node of the search: the moves so far, which are the forbidden elements. *)
Definition node (src order : list Z) : Prop :=
  src ≡ₚ dest /\ replay dest src0 order = src /\ NoDup order /\ order ⊆ dest.

(** Nothing cuts the search at this node, and the elements moved so far are in
    the part of the order that is already right. *)
Definition live (src forbidden : list Z) (m : mover) : Prop :=
  global_solved m = false /\ solutions m <= 100 /\
  exists j, take j src = take j dest /\ forbidden ⊆ take j dest.

Definition outcome (src forbidden : list Z) (m : mover) (r : result (bool * list Z * mover)) : Prop :=
  exists b o m', r = Ok (b, o, m') /\ good m' /\ (b = true -> solves o) /\
    (global_solved m = true -> global_solved m' = true) /\ (live src forbidden m -> b = true).

Lemma node_child src order i x :
  node src order -> dest !! i = Some x -> x ∉ order ->
  node (do_move dest src x) (order ++ [x]).
Proof.
  intros (Hp & Hr & Hnd & Hsub) Hi Hx.
  assert (x ∈ dest) as Hd by (by apply list_elem_of_lookup_2 with i). split_and!.
  - by apply do_move_perm.
  - unfold replay in *. rewrite foldl_app, Hr. done.
  - apply list.NoDup_app. split_and!; [done| |apply NoDup_singleton].
    intros y Hy ->%list_elem_of_singleton. done.
  - intros y [Hy|Hy]%elem_of_app; [by apply Hsub|]. apply list_elem_of_singleton in Hy. by subst.
Qed.

Section Loop.
Context (rec : list Z -> list Z -> list Z -> mover -> result (bool * list Z * mover)).
Context (src order : list Z) (Hnode : node src order).
(** The recursive calls behave. *)
Context (Hrec : forall i x m, dest !! i = Some x -> x ∉ order -> good m ->
  outcome (do_move dest src x) (order ++ [x]) m (rec (do_move dest src x) (order ++ [x]) (order ++ [x]) m)).

(** Loop states: once a plan was found one is recorded. *)
Definition loop_inv (solved : bool) (m : mover) : Prop :=
  good m /\ (solved = true -> global_solved m = true).

(** What the loop does with the result of a recursive call. *)
Definition continue_ (is_ : list nat) (best : list Z) (solved : bool)
    (r : result (bool * list Z * mover)) : result (bool * mover) :=
  '(ok, norder, m) ← r;
  if negb ok then move_loop dest rec src order order is_ best solved m
  else if (length norder <? length best)%nat || negb solved then
    let m := Mover_ (solutions m + 1) (global_solved m) (global_best_order m) in
    let m := if (length norder <? length (global_best_order m))%nat || negb (global_solved m)
             then Mover_ (solutions m) true norder else m in
    move_loop dest rec src order order is_ norder true m
  else move_loop dest rec src order order is_ best solved m.

Lemma move_loop_cons i is_ best solved m :
  (i < length dest)%nat -> exists x, dest !! i = Some x /\
  (move_loop dest rec src order order (i :: is_) best solved m =
   move_loop dest rec src order order is_ best solved m /\
   (x ∈ order \/ (take i src = take i dest -> src !! i = Some x)) \/
   (x ∉ order) /\ (take i src = take i dest -> src !! i <> Some x) /\
   move_loop dest rec src order order (i :: is_) best solved m =
   continue_ is_ best solved (rec (do_move dest src x) (order ++ [x]) (order ++ [x]) m)).
Proof.
  intros Hlt. destruct (lookup_lt_is_Some_2 dest i Hlt) as [x Hi]. exists x. split; [done|].
  cbn [move_loop]. rewrite (rd_ok dest _ x) by (lia || by rewrite Nat2Z.id). rewrite bind_Ok.
  destruct (existsb (Z.eqb x) order) eqn:Ef.
  { left. split; [done|]. left.
    apply existsb_exists in Ef as (y & Hy & ->%Z.eqb_eq). by apply list_elem_of_In in Hy. }
  assert (x ∉ order) as Hx.
  { intros Hin. apply not_true_iff_false in Ef. apply Ef, existsb_exists. exists x.
    split; [by apply list_elem_of_In|apply Z.eqb_refl]. }
  pose proof Hnode as (Hp & _ & _ & Hsub).
  destruct (move_target_ok src i x Hp Hi) as (t & -> & Ht & Hlive). rewrite bind_Ok.
  destruct t as [target|].
  - right. split_and!; [done|intros Htake Hs; by apply (Hlive Htake) in Hs|].
    by rewrite (moved_src_ok src i x target Hp Hi (Ht target eq_refl)), bind_Ok.
  - left. split; [done|]. right. intros Htake. by apply (Hlive Htake).
Qed.

(** Recording a plan keeps the invariant. *)
Lemma record_inv norder m :
  good m -> solves norder ->
  loop_inv true
    (if (length norder <? length (global_best_order m))%nat || negb (global_solved m)
     then Mover_ (solutions m + 1) true norder
     else Mover_ (solutions m + 1) (global_solved m) (global_best_order m)).
Proof.
  intros Hg Hs. destruct (_ || _) eqn:E; [split; [by intros _|done]|]. split; [exact Hg|]. intros _. simpl.
  apply orb_false_iff in E as [_ E]. by destruct (global_solved m).
Qed.

Lemma move_loop_sound is_ best solved m :
  Forall (fun i => i < length dest)%nat is_ -> loop_inv solved m ->
  exists solved' m', move_loop dest rec src order order is_ best solved m = Ok (solved', m') /\
    loop_inv solved' m' /\ (solved = true -> solved' = true) /\
    (global_solved m = true -> global_solved m' = true).
Proof.
  intros His. revert best solved m.
  induction His as [|i is_ Hi _ IH]; intros best solved m Hinv; [by exists solved, m|].
  destruct (move_loop_cons i is_ best solved m Hi) as (x & Hx & [[-> _]|(Hno & _ & ->)]).
  { by apply IH. }
  destruct (Hrec i x m Hx Hno (proj1 Hinv)) as (b & o & m' & -> & Hg & Hb & Hgs & _).
  unfold continue_. rewrite bind_Ok.
  assert (loop_inv solved m') as Hinv' by (split; [done|]; intros Hs; by apply Hgs, Hinv).
  destruct b; cbn [negb].
  2: { destruct (IH best solved m' Hinv') as (s' & m2 & -> & ? & ? & ?).
       exists s', m2. split_and!; auto. }
  destruct (_ || negb solved).
  - destruct (IH o true _ (record_inv o m' Hg (Hb eq_refl))) as (s' & m2 & Hl & Hi2 & Hs2 & Hg2).
    exists s', m2. split_and!; [|done|auto|].
    + rewrite <- Hl. cbn [solutions global_solved global_best_order].
      by destruct (_ || negb (global_solved m')).
    + intros _. apply Hi2. auto.
  - destruct (IH best solved m' Hinv') as (s' & m2 & -> & ? & ? & ?).
    exists s', m2. split_and!; auto.
Qed.

(** While nothing was found yet and the order is right up to [i] (and up to [j],
    where the moved elements are), the loop finds a plan. *)
Lemma move_loop_live n i j best m :
  (i + n = length dest)%nat -> take (max i j) src = take (max i j) dest -> order ⊆ take j dest ->
  src <> dest -> good m -> global_solved m = false -> solutions m <= 100 ->
  exists m', move_loop dest rec src order order (seq i n) best false m = Ok (true, m') /\
    loop_inv true m'.
Proof.
  intros Hin Htake Hsub Hne Hg Hgs Hso. revert i Hin Htake.
  induction n as [|n IH]; intros i Hin Htake.
  { destruct Hne. pose proof Hnode as (Hp & _). pose proof (Permutation_length Hp) as Hlen.
    by rewrite !take_ge in Htake by lia. }
  assert (forall k, (k <= max i j)%nat -> take k src = take k dest) as Hk.
  { intros k Hk. rewrite <- (Nat.min_l k (max i j)), <- !take_take by done. by rewrite Htake. }
  assert (Forall (fun i => i < length dest)%nat (seq (S i) n)) as His.
  { apply Forall_forall. intros y Hy. apply in_seq in Hy. lia. }
  cbn [seq].
  destruct (move_loop_cons i (seq (S i) n) best false m) as (x & Hx & [[-> Hcase]|(Hno & Hd & ->)]);
    [lia| |].
  - apply IH; [lia|]. destruct (decide (i < j)%nat) as [Hij|Hij].
    + replace (max (S i) j) with (max i j) by lia. done.
    + replace (max (S i) j) with (S i) by lia.
      destruct Hcase as [Hord|Hs].
      * apply Hsub, elem_of_take in Hord as (n' & Hn' & Hlt).
        pose proof (NoDup_lookup dest n' i x Hdest Hn' Hx). lia.
      * specialize (Hs (Hk i ltac:(lia))).
        rewrite (take_S_r src i x), (take_S_r dest i x) by done. by rewrite Hk by lia.
  - assert (j <= i)%nat as Hji.
    { destruct (decide (j <= i)%nat); [done|]. exfalso. apply (Hd (Hk i ltac:(lia))).
      rewrite <- Hx, <- (lookup_take_lt src (S i)), <- (lookup_take_lt dest (S i)) by lia.
      by rewrite Hk by lia. }
    destruct (Hrec i x m Hx Hno Hg) as (b & o & m' & -> & Hg' & Hb & _ & Hl).
    assert (b = true) as ->.
    { apply Hl. split_and!; [done|done|]. exists (S i). pose proof Hnode as (Hp & _).
      split; [apply do_move_prefix; [done|done|by apply Hk; lia]|].
      rewrite (take_S_r dest i x) by done. intros y [Hy|Hy]%elem_of_app; apply elem_of_app; [left|by right].
      apply Hsub, elem_of_take in Hy as (n' & Hn' & Hlt). apply elem_of_take. eauto with lia. }
    unfold continue_. rewrite bind_Ok. cbn [negb]. rewrite orb_true_r.
    destruct (move_loop_sound (seq (S i) n) o true _ His (record_inv o m' Hg' (Hb eq_refl)))
      as (s' & m2 & Hl2 & Hi2 & Hs2 & _). rewrite Hs2 in * by done. exists m2. split; [|done].
    rewrite <- Hl2. cbn [solutions global_solved global_best_order].
    by destruct (_ || negb (global_solved m')).
Qed.
End Loop.

(** The members a call at [depth] starts with. *)
Definition entering (depth : Z) (m : mover) : mover :=
  if depth =? 0 then Mover_ 0 false (global_best_order m) else m.

Lemma order_length (order : list Z) : NoDup order -> order ⊆ dest -> (length order <= length dest)%nat.
Proof. intros Hnd Hsub. apply submseteq_length, NoDup_submseteq; done. Qed.

Lemma move_rec_outcome fuel src order depth m :
  node src order -> 0 <= depth -> good (entering depth m) ->
  (length dest < fuel + length order)%nat ->
  outcome src order (entering depth m) (move_rec dest fuel src order order depth m).
Proof.
  revert src order depth m. induction fuel as [|fuel IH]; intros src order depth m Hn Hd Hg Hf.
  { destruct Hn as (_ & _ & Hnd & Hsub). pose proof (order_length order Hnd Hsub). simpl in Hf. lia. }
  cbn [move_rec]. fold (entering depth m). set (m1 := entering depth m) in *. clearbody m1.
  destruct (global_solved m1 && (depth >? Zlen (global_best_order m1))) eqn:E1.
  { exists false, order, m1. split_and!; try done. intros (Hgs & _). by rewrite Hgs in E1. }
  destruct (Z.gtb_spec (solutions m1) 100) as [E2|E2].
  { exists false, order, m1. split_and!; try done. intros (_ & Hs & _). lia. }
  case_bool_decide as E3.
  { exists true, order, m1. split_and!; try done. intros _. destruct Hn as (_ & Hr & Hnd & Hsub).
    split_and!; [by rewrite Hr|done|done]. }
  set (rec := fun s o f => move_rec dest fuel s o f (depth + 1)).
  assert (forall i x m, dest !! i = Some x -> x ∉ order -> good m ->
    outcome (do_move dest src x) (order ++ [x]) m
      (rec (do_move dest src x) (order ++ [x]) (order ++ [x]) m)) as Hrec.
  { intros i x m2 Hi Hx Hg2. assert (entering (depth + 1) m2 = m2) as He
      by (unfold entering; by rewrite (proj2 (Z.eqb_neq _ _)) by lia).
    rewrite <- He at 1. apply IH; [by eapply node_child|lia|by rewrite He|].
    rewrite length_app. simpl. lia. }
  assert (Forall (fun i => i < length dest)%nat (seq 0 (length dest))) as His.
  { apply Forall_forall. intros y Hy. apply in_seq in Hy. lia. }
  destruct (move_loop_sound rec src order Hn Hrec (seq 0 (length dest)) [] false m1 His)
    as (solved & m2 & Hl & [Hg2 Hs2] & _ & Hgs2); [by split|].
  assert (live src order m1 -> solved = true) as Hlive.
  { intros (Hgs & Hso & j & Htake & Hsub).
    destruct (move_loop_live rec src order Hn Hrec (length dest) 0 j [] m1) as (m3 & Hl3 & _);
      try done. by rewrite Hl in Hl3; simplify_eq. }
  rewrite Hl, bind_Ok. destruct solved; cbn [negb].
  - exists true, (global_best_order m2), m2. split_and!; auto.
  - exists false, order, m2. split_and!; auto. done.
Qed.
End Dest.

(** The search from the start. *)
Lemma move_found (src dest : list Z) (m : mover) :
  NoDup dest -> src ≡ₚ dest ->
  exists order m', move src dest [] m = Ok (true, order, m') /\ solves dest src order.
Proof.
  intros Hnd Hp. unfold move.
  assert (node dest src src []) as Hn by (split_and!; [done|done|constructor|apply list_subseteq_nil]).
  assert (good dest src (entering 0 m)) as Hg by done.
  destruct (move_rec_outcome dest Hnd src (S (length dest)) src [] 0 m Hn) as
    (b & order & m' & -> & _ & Hb & _ & Hl); [lia|done|simpl; lia|].
  assert (b = true) as ->.
  { apply Hl. split_and!; [done|done|]. exists 0%nat. split; [done|apply list_subseteq_nil]. }
  exists order, m'. split; [done|]. by apply Hb.
Qed.

(** ** Claims *)

(** C31. Planning a reordering: given two orders of the same distinct elements,
    [move] returns true whatever the state left by earlier searches, and the plan
    it stores, replayed on the old order (each element in turn put behind the one
    it follows in the new order, or first), gives exactly the new order; the plan
    moves only elements of the order and none of them twice. *)
Theorem move_plan (src dest : list Z) (m : mover) :
  NoDup dest -> src ≡ₚ dest ->
  exists order m', move src dest [] m = Ok (true, order, m') /\
    replay dest src order = dest /\ NoDup order /\ order ⊆ dest.
Proof. apply move_found. Qed.

Lemma move_plan_witness :
  exists order m', move [1; 2; 3; 4; 5] [5; 2; 1; 3; 4] [] (Mover_ 7 true [9]) =
      Ok (true, order, m') /\
    replay [5; 2; 1; 3; 4] [1; 2; 3; 4; 5] order = [5; 2; 1; 3; 4] /\ NoDup order /\
    order ⊆ [5; 2; 1; 3; 4].
Proof.
  apply (move_plan [1; 2; 3; 4; 5] [5; 2; 1; 3; 4] (Mover_ 7 true [9])).
  - apply (bool_decide_unpack _). vm_compute. done.
  - apply (bool_decide_unpack _). vm_compute. done.
Defined.
