(* ===== verification/SheetHash.v ===== *)
(** * Sheet fingerprints

    Models [DataSheet::getHash] ([libcoopy_core/DataSheet.cpp]) and the
    [Sha1Generator] it uses ([libcoopy_core/Sha1Generator.cpp],
    [include/coopy/Sha1Generator.h]).  [SheetCompare::compare] takes three sheets
    with equal fingerprints for identical and reports no difference.

    The static functions of [Sha1Generator.cpp] are those of fossil's [sha1.c]
    ("Duplicated from fossil"): they are modelled in [Sha1] and used here.  Its
    entry points differ: they keep a count of the bytes and return the text. *)

From S2P Require Import Prelude Sheet SheetSpec Blocks Md5 Sha1 Sha1Spec.
#[local] Arguments cstr s%_string.

(** ** Sha1Generator *)

(** The static [incrCtx], [incrInit] and [hashLen]. *)
Record generator := Generator { gen_incr : incr1; hashLen : Z }.

Definition gen_step_text (g : generator) (zText : list Z) (nBytes : Z) : result generator :=
  let s := gen_incr g in
  let s := if incrInit1 s then s else Incr1 true (SHA1Reset (Message_Block (incrCtx1 s))) in
  if nBytes =? 0 then Ok (Generator s (hashLen g))
  else
    let nBytes := if nBytes <? 0 then to_int (Zlen (c_string zText)) else nBytes in
    n ← i32 (hashLen g + nBytes);
    c ← input (incrCtx1 s) zText nBytes;
    Ok (Generator (Incr1 true c) n).

(** [Sha1Generator::add(const std::string&)]. *)
Definition gen_add (g : generator) (str : list Z) : result generator := 
  gen_step_text g str (to_int (Zlen str)).

Section Hash.
(** The digest array of [sha1sum_finish] before it is written. *)
Context (uninit : list Z).

(** [Sha1Generator::finish]. *)
Definition gen_finish (g : generator) : result (generator * list Z) :=
  g ← gen_step_text g [] 0;
  '(z, c) ← sha1_finish uninit (incrCtx1 (gen_incr g));
  Ok (Generator (Incr1 false c) 0, z).

(** ** DataSheet::getHash *)

(** The inner loop: the text of cells [x] on of row [y], [n] of them. *)
Fixpoint row_key (cell : Z -> Z -> result pcell) (x y : Z) (n : nat) : result (list Z) :=
  match n with
  | O => Ok []
  | S n => '(text, null) ← cell x y;
           rest ← row_key cell (x + 1) y n;
           Ok ((if (null : bool) then cstr "N" else cstr "X" ++ text) ++ rest)
  end.

(** The outer loop: rows [y] on, [n] of them. *)
Fixpoint add_rows (cell : Z -> Z -> result pcell) (width : Z) (g : generator) (y : Z) (n : nat) :
    result generator :=
  match n with
  | O => Ok g
  | S n => txt ← row_key cell 0 y (Z.to_nat width);
           g ← gen_add g txt;
           add_rows cell width g (y + 1) n
  end.

(** For a sheet without a [getRawHash] of its own.  [hash_cache] is the member
    of that name; the result is the fingerprint, the member and the generator. *)
Definition getHash (cell : Z -> Z -> result pcell) (width height : Z) (cache : bool)
    (hash_cache : list Z) (g : generator) : result (list Z * list Z * generator) :=
  let hash_cache := if negb cache then [] else hash_cache in
  if bool_decide (hash_cache <> []) then Ok (hash_cache, hash_cache, g)
  else
    g ← add_rows cell width g 0 (Z.to_nat height);
    '(g, key) ← gen_finish g;
    Ok (key, if cache then key else [], g).
End Hash.

(** ** Specification *)

(** The message that is hashed: the cells of all rows, one after the other. *)
Definition cell_key (c : pcell) : list Z := if snd c then cstr "N" else cstr "X" ++ fst c.
Definition sheet_key (rows : list (list pcell)) : list Z := concat (cell_key <$> concat rows).

(** The generator holds the message [m]. *)
Definition gen_state (g : generator) (m : list Z) : Prop :=
  incr1_state (gen_incr g) m /\ hashLen g = Zlen m.

Lemma gen_add_spec g m str :
  gen_state g m -> bytes str -> Zlen (m ++ str) <= INT_MAX ->
  exists g', gen_add g str = Ok g' /\ gen_state g' (m ++ str).
Proof.
  intros [Hs Hlen] Hb Hl. destruct (started1 _ m Hs) as (m1 & r & Hst).
  unfold gen_add, gen_step_text.
  rewrite length_app, Nat2Z.inj_add in Hl. change INT_MAX with (2^31 - 1) in Hl.
  rewrite to_int_small by lia. set (s1 := if incrInit1 (gen_incr g) then gen_incr g else _) in *.
  assert (incrInit1 s1 = true) as E1 by (unfold s1; by destruct (incrInit1 (gen_incr g)) eqn:E).
  destruct (Z.eqb_spec (Zlen str) 0) as [E|E].
  - destruct str; [|simpl in E; lia]. eexists. split; [done|]. rewrite app_nil_r. split; [|done].
    split; [apply Hst|]. simpl. rewrite E1. by exists m1, r.
  - rewrite !(proj2 (Z.ltb_ge (Zlen str) 0)) by lia.
    rewrite i32_ok by (unfold INT_MIN, INT_MAX; lia). rewrite bind_Ok.
    destruct (input_spec _ _ _ _ str Hst Hb) as (c & m1' & r' & -> & Hst'); [|lia|].
    { rewrite length_app, Nat2Z.inj_add. lia. }
    rewrite bind_Ok. eexists. split; [done|]. split; [split; [apply Hst'|by exists m1', r']|].
    simpl. rewrite length_app. lia.
Qed.

Section Rows.
Context (cell : Z -> Z -> result pcell).

Lemma row_key_spec (row pre : list pcell) y :
  (forall x, 0 <= x < Zlen (pre ++ row) ->
     exists p, (pre ++ row) !! Z.to_nat x = Some p /\ cell x y = Ok p) ->
  row_key cell (Zlen pre) y (length row) = Ok (concat (cell_key <$> row)).
Proof.
  revert pre. induction row as [|p row IH]; intros pre Hcell; [done|]. cbn [length row_key].
  destruct (Hcell (Zlen pre)) as (p' & Hp & ->); [rewrite length_app; simpl; lia|].
  rewrite Nat2Z.id, list_lookup_middle in Hp by done. simplify_eq. rewrite bind_Ok.
  specialize (IH (pre ++ [p'])). rewrite <- app_assoc in IH.
  assert (Zlen (pre ++ [p']) = Zlen pre + 1) as E by (rewrite length_app; simpl; lia).
  rewrite E in IH. destruct p' as [text null]. by rewrite (IH Hcell), bind_Ok.
Qed.

Lemma add_rows_spec (rows : list (list pcell)) w g m (y : Z) :
  Forall (fun row => Zlen row = w) rows -> Forall (Forall (fun p : pcell => bytes p.1)) rows ->
  gen_state g m -> Zlen (m ++ sheet_key rows) <= INT_MAX ->
  (forall (i : nat) row, rows !! i = Some row -> forall x, 0 <= x < w ->
     exists p, row !! Z.to_nat x = Some p /\ cell x (y + Z.of_nat i) = Ok p) ->
  exists g', add_rows cell w g y (length rows) = Ok g' /\ gen_state g' (m ++ sheet_key rows).
Proof.
  intros Hw Hb. revert g m y Hb. induction Hw as [|row rows Hrow _ IH]; intros g m y Hb Hg Hl Hcell.
  { exists g. by rewrite app_nil_r. }
  apply Forall_cons_1 in Hb as [Hb1 Hb].
  assert (sheet_key (row :: rows) = concat (cell_key <$> row) ++ sheet_key rows) as Hk.
  { unfold sheet_key. simpl. by rewrite fmap_app, concat_app. }
  rewrite Hk, app_assoc in Hl |- *. cbn [length add_rows].
  assert (row_key cell 0 y (Z.to_nat w) = Ok (concat (cell_key <$> row))) as ->.
  { rewrite <- Hrow, Nat2Z.id. apply (row_key_spec row [] y). intros x Hx.
    destruct (Hcell 0%nat row eq_refl x) as (p & Hp & Hc); [by rewrite <- Hrow|].
    exists p. rewrite Z.add_0_r in Hc. done. }
  rewrite bind_Ok. destruct (gen_add_spec g m (concat (cell_key <$> row)) Hg) as (g1 & -> & Hg1).
  { apply Forall_concat, Forall_fmap. eapply Forall_impl; [|exact Hb1]. intros [t []] Ht;
      (constructor; [unfold byte; simpl; lia|]); [constructor|exact Ht]. }
  { rewrite length_app, Nat2Z.inj_add in Hl. lia. }
  rewrite bind_Ok. apply IH; try done. intros i row' Hi x Hx.
  destruct (Hcell (S i) row' Hi x Hx) as (p & Hp & Hc). exists p. split; [done|].
  rewrite <- Hc. f_equal. lia.
Qed.
End Rows.

(** ** Claims *)

(** C40. The fingerprint of a sheet: for a rectangular sheet of at most 2^31-1
    serialized bytes, and a generator that finished any earlier computation,
    [getHash] returns the hexadecimal SHA-1 of the concatenated cells (N for a
    null, X and the text for another), leaves the generator ready for the next
    computation, and stores the fingerprint in the cache exactly when asked to. *)
Theorem getHash_spec (uninit : list Z) (c : CsvSheet) (rows : list (list pcell)) (m : Z)
    (cache : bool) (g : generator) :
  holds rows m c -> Forall (fun row => Zlen row = m) rows ->
  Forall (Forall (fun p : pcell => bytes p.1)) rows -> Zlen (sheet_key rows) <= INT_MAX ->
  gen_state g [] ->
  exists g', let key := DigestToBase16 (sha1 (sheet_key rows)) in
    getHash uninit (CsvS.cellString c) (w (s c)) (h (s c)) cache [] g =
      Ok (key, if cache then key else [], g') /\
    incrInit1 (gen_incr g') = false /\ hashLen g' = 0.
Proof.
  intros (z & ->) Hm Hb Hl Hg. unfold getHash.
  assert ((if negb cache then [] else []) = @nil Z) as -> by (by destruct cache).
  rewrite bool_decide_false by naive_solver. cbn [w h s]. rewrite Nat2Z.id.
  destruct (add_rows_spec (CsvS.cellString
      (CsvSheet_ (TypedSheet_ rows (Zlen rows) m z) [] (Zlen rows) 0 true)) rows m g [] 0 Hm Hb Hg Hl)
    as (g1 & -> & [Hs1 Hl1]).
  { intros y row Hy x Hx. rewrite Forall_lookup in Hm. pose proof (Hm y row Hy) as Hlen.
    destruct (rd_in row x) as (p & Hp & Hlk); [lia|]. exists p. split; [done|].
    unfold CsvS.cellString, Typed.cell. cbn [valid arr s].
    by rewrite (rd_ok rows _ row) by (lia || by rewrite ?Z.add_0_l, Nat2Z.id). }
  rewrite bind_Ok. destruct (started1 _ _ Hs1) as (m1 & r & Hst).
  unfold gen_finish, gen_step_text. cbn [Z.eqb]. rewrite bind_Ok. cbn [gen_incr].
  destruct (sha1_finish_spec uninit _ _ _ _ Hst) as (c' & ->). rewrite !bind_Ok. by eexists.
Qed.

Definition idle_generator : generator := Generator (Incr1 false (SHA1Reset junk64)) 0.

Lemma getHash_spec_witness :
  exists g', getHash [] (CsvS.cellString (add_records CsvS.create [[(cstr "a", false); ([], true)]]))
    2 1 true [] idle_generator =
    Ok (DigestToBase16 (sha1 (cstr "XaN")), DigestToBase16 (sha1 (cstr "XaN")), g').
Proof.
  destruct (getHash_spec [] (add_records CsvS.create [[(cstr "a", false); ([], true)]])
    [[(cstr "a", false); ([], true)]] 2 true idle_generator) as (g' & H & _).
  - by exists ([], false).
  - repeat constructor.
  - repeat (constructor; try (unfold byte; simpl; lia)).
  - done.
  - split; [split; done|done].
  - exists g'. exact H.
Defined.

(** The serialization is not injective: neither the end of a cell nor the end of
    a row is marked.  Two rows [a] and [b], one row [a | b], and one cell [aXb]
    have the same fingerprint, so a comparison takes them for identical sheets. *)
Lemma getHash_collision :
  let f rows := getHash [] (CsvS.cellString (add_records CsvS.create rows))
                  (w (s (add_records CsvS.create rows))) (h (s (add_records CsvS.create rows)))
                  false [] idle_generator in
  let rows1 := [[(cstr "a", false)]; [(cstr "b", false)]] in
  let rows2 := [[(cstr "a", false); (cstr "b", false)]] in
  let rows3 := [[(cstr "aXb", false)]] in
  exists key g1 g2 g3, f rows1 = Ok (key, [], g1) /\ f rows2 = Ok (key, [], g2) /\
    f rows3 = Ok (key, [], g3).
Proof. do 4 eexists. split_and!; vm_compute; reflexivity. Qed.
