(* ===== verification/OrderMerge.v ===== *)
(** * Merging the orders of rows and columns

    Models [OrderResult] ([libcoopy_core/include/coopy/OrderResult.h]), the
    correspondence between the rows (or columns) of two sheets, [MatchUnit]
    ([include/coopy/MatchUnit.h]) and [OrderMerge]
    ([libcoopy_core/OrderMerge.cpp], [include/coopy/OrderMerge.h]), which makes of
    two such correspondences, pivot to local and pivot to remote, the list of
    matched units a merge works through, and looks for an order of it with the
    lattice of [Viterbi].

    - The [IntSheet]s of one column are [TypedSheet Z].
    - An [efficient_map] is a [gmap]; a [std::set<int>] the ascending list of its
      elements, in which the code iterates over it.
    - [mu] maps the number of a unit to a pointer into a list that is not changed
      while the pointers are in use: the model maps it to the unit.
    - Costs are those of [Viterbi]: any instance of [CostOps]. *)

From stdpp Require Import gmap.
From S2P Require Import Prelude Sheet Viterbi.
#[local] Open Scope Z_scope.

(** ** OrderResult *)

Record OrderResult := OrderResult_ { a2b_sheet : TypedSheet Z; b2a_sheet : TypedSheet Z }.

(** [a2b] and [b2a] differ in the sheet they look at. *)
Definition order_get (t : TypedSheet Z) (x : Z) : result Z :=
  if x =? -2 then Ok (-2)
  else if (x <? 0) || (x >=? h t) then Ok (-1)
  else Typed.cell t 0 x.
Definition a2b (o : OrderResult) (x : Z) : result Z := order_get (a2b_sheet o) x.
Definition b2a (o : OrderResult) (x : Z) : result Z := order_get (b2a_sheet o) x.
Definition alen (o : OrderResult) : Z := h (a2b_sheet o).
Definition blen (o : OrderResult) : Z := h (b2a_sheet o).

(** A loop of [trimHead] ([d] is 1) or [trimTail] ([d] is -1): from cell [i] on,
    over at most [n] cells. *)
Fixpoint trim_ends (t : TypedSheet Z) (pre post d i : Z) (n : nat) : result (TypedSheet Z) :=
  match n with
  | O => Ok t
  | S n => x ← Typed.cell t 0 i;
           if x =? pre then t ← Typed.set_cell t 0 i post; trim_ends t pre post d (i + d) n
           else Ok t
  end.
Definition trimHead (o : OrderResult) (pre post : Z) : result OrderResult :=
  a ← trim_ends (a2b_sheet o) pre post 1 0 (Z.to_nat (alen o));
  b ← trim_ends (b2a_sheet o) pre post 1 0 (Z.to_nat (blen o));
  Ok (OrderResult_ a b).
Definition trimTail (o : OrderResult) (pre post : Z) : result OrderResult :=
  a ← trim_ends (a2b_sheet o) pre post (-1) (alen o - 1) (Z.to_nat (alen o));
  b ← trim_ends (b2a_sheet o) pre post (-1) (blen o - 1) (Z.to_nat (blen o));
  Ok (OrderResult_ a b).

(** ** Match units *)

Inductive unit_status := MATCH_UNIT_NONE | MATCH_UNIT_INSERT | MATCH_UNIT_DELETE | MATCH_UNIT_PRESERVE.

Record MatchUnit := MatchUnit_ {
  pivotUnit : Z;
  localUnit : Z;
  remoteUnit : Z;
  deleted : bool;
  status : unit_status
}.

#[export] Instance unit_status_eq_dec : EqDecision unit_status.
Proof. solve_decision. Defined.
#[export] Instance MatchUnit_eq_dec : EqDecision MatchUnit.
Proof. solve_decision. Defined.

(** ** process *)

(** The members [process] changes and its two reference arguments, which in a
    recursive call are those of the caller. *)
Record walk := Walk {
  xlocal : TypedSheet Z;
  xremote : TypedSheet Z;
  accum : list MatchUnit;
  base_local : Z;
  base_remote : Z
}.

Definition push_unit (m : walk) (u : MatchUnit) : walk :=
  Walk (xlocal m) (xremote m) (accum m ++ [u]) (base_local m) (base_remote m).
Definition mark_local (m : walk) (i : Z) : result walk :=
  if i >=? 0 then t ← Typed.set_cell (xlocal m) 0 i 1;
    Ok (Walk t (xremote m) (accum m) (base_local m) (base_remote m))
  else Ok m.
Definition mark_remote (m : walk) (i : Z) : result walk :=
  if i >=? 0 then t ← Typed.set_cell (xremote m) 0 i 1;
    Ok (Walk (xlocal m) t (accum m) (base_local m) (base_remote m))
  else Ok m.

Section Process.
Context (order_local order_remote : OrderResult).

(** A local unit: [rec ilocal iremote stop_local stop_remote] is the recursive
    call. *)
Definition local_step (rec : Z -> Z -> Z -> Z -> walk -> result walk) (ilocal : Z) (m : walk) :
    result walk :=
  if ilocal <? h (xlocal m) then
    x ← Typed.cell (xlocal m) 0 ilocal;
    if x =? 0 then
      lp ← b2a order_local ilocal;
      if negb (lp =? -1) then
        lpr ← a2b order_remote lp;
        if negb (lpr =? -1) then
          m ← rec (base_local m) (base_remote m) ilocal lpr m;
          let m := push_unit m (MatchUnit_ lp ilocal lpr false MATCH_UNIT_PRESERVE) in
          m ← mark_remote m lpr;
          mark_local m ilocal
        else
          let m := push_unit m (MatchUnit_ lp ilocal (-1) true MATCH_UNIT_DELETE) in
          mark_local m ilocal
      else
        let m := push_unit m (MatchUnit_ (-1) ilocal (-1) false MATCH_UNIT_PRESERVE) in
        mark_local m ilocal
    else Ok m
  else Ok m.

(** A remote unit: it is added if it is not in the pivot. *)
Definition remote_step (iremote : Z) (m : walk) : result walk :=
  if iremote <? h (xremote m) then
    x ← Typed.cell (xremote m) 0 iremote;
    if x =? 0 then
      rp ← b2a order_remote iremote;
      if negb (rp =? -1) then Ok m
      else
        let m := push_unit m (MatchUnit_ (-1) (-1) iremote false MATCH_UNIT_INSERT) in
        mark_remote m iremote
    else Ok m
  else Ok m.

(** The loop: each pass moves one of the two indices, so [n] is the sum of the
    distances to the two ends. *)
Fixpoint process_loop (rec : Z -> Z -> Z -> Z -> walk -> result walk) (n : nat)
    (ilocal iremote stop_local stop_remote : Z) (m : walk) : result walk :=
  if (ilocal >=? stop_local) && (iremote >=? stop_remote) then Ok m else
  match n with
  | O => Fault OutOfFuel
  | S n =>
      if ilocal <? stop_local then
        m ← local_step rec ilocal m;
        process_loop rec n (ilocal + 1) iremote stop_local stop_remote
          (Walk (xlocal m) (xremote m) (accum m) (base_local m + 1) (base_remote m))
      else
        m ← remote_step iremote m;
        process_loop rec n ilocal (iremote + 1) stop_local stop_remote
          (Walk (xlocal m) (xremote m) (accum m) (base_local m) (base_remote m + 1))
  end.

(** [depth] bounds the recursion. *)
Fixpoint process (depth : nat) (ilocal iremote stop_local stop_remote : Z) (m : walk) :
    result walk :=
  match depth with
  | O => Fault OutOfFuel
  | S depth =>
      process_loop (process depth)
        (Z.to_nat (stop_local - ilocal) + Z.to_nat (stop_remote - iremote))
        ilocal iremote stop_local stop_remote m
  end.
End Process.

(** ** Ordering the units *)

(** [set<int>::insert]. *)
Fixpoint set_insert (x : Z) (s : list Z) : list Z :=
  match s with
  | [] => [x]
  | y :: s' => if x <? y then x :: s else if x =? y then s else y :: set_insert x s'
  end.

Definition safe_next (m : gmap Z Z) (val def : Z) : Z := default def (m !! val).

Fixpoint next_avail (s : list Z) (val : Z) : Z :=
  match s with
  | [] => -2
  | y :: s => if y =? val then match s with [] => -2 | z :: _ => z end else next_avail s val
  end.

(** What the first pass of the loop collects: the numbers of the units that are
    not deleted, by position in the list and by pivot, local and remote index;
    the units by number; the indices in use; the lowest ones. *)
Record tables := Tables {
  ct : Z;
  gct : Z;
  it2k : gmap Z Z;
  l2k : gmap Z Z;
  r2k : gmap Z Z;
  p2k : gmap Z Z;
  mu : gmap Z MatchUnit;
  availableP : list Z;
  availableL : list Z;
  availableR : list Z;
  lowestL : Z;
  lowestR : Z
}.
Definition no_tables : tables := Tables 0 0 ∅ ∅ ∅ ∅ ∅ [] [] [] (-2) (-2).

Definition collect (t : tables) (u : MatchUnit) : tables :=
  let pCol := pivotUnit u in
  let lCol := localUnit u in
  let rCol := remoteUnit u in
  if deleted u then
    Tables (ct t) (gct t + 1) (it2k t) (l2k t) (r2k t) (p2k t) (mu t) (availableP t) (availableL t)
      (availableR t) (lowestL t) (lowestR t)
  else
    let lower c low := ((c <? low) && (c >=? 0)) || (low =? -2) in
    let put (c : Z) m := if c >=? 0 then <[c := ct t]> m else m in
    let avail c s := if negb (c =? -1) then set_insert c s else s in
    Tables (ct t + 1) (gct t + 1) (<[gct t := ct t]> (it2k t)) (put lCol (l2k t)) (put rCol (r2k t))
      (put pCol (p2k t)) (<[ct t := u]> (mu t)) (avail pCol (availableP t))
      (avail lCol (availableL t)) (avail rCol (availableR t))
      (if lower lCol (lowestL t) then lCol else lowestL t)
      (if lower rCol (lowestR t) then rCol else lowestR t).

Section Order.
Context {C : Type} `{CostOps C}.
Abbreviation Vit := (Vit.Viterbi C).

(** The transitions out of unit [k] in one draw: the units that may follow it. *)
Definition successors (t : tables) (dud k : Z) : result (list Z) :=
  u ← match mu t !! k with Some u => Ok u | None => Fault OutOfBounds end;
  let pCol := pivotUnit u in
  let lCol := localUnit u in
  let rCol := remoteUnit u in
  if (lCol =? -1) && (rCol =? -1) then Ok [safe_next (p2k t) (next_avail (availableP t) pCol) dud]
  else if rCol =? -1 then Ok [safe_next (l2k t) (next_avail (availableL t) lCol) dud]
  else if lCol =? -1 then Ok [safe_next (r2k t) (next_avail (availableR t) rCol) dud]
  else
    let lnext := safe_next (l2k t) (next_avail (availableL t) lCol) dud in
    let rnext := safe_next (r2k t) (next_avail (availableR t) rCol) dud in
    let pnext := safe_next (p2k t) (next_avail (availableP t) pCol) dud in
    Ok ((if negb (lnext =? pnext) then [lnext] else []) ++
        (if negb (rnext =? pnext) then [rnext] else []) ++
        (if (rnext =? pnext) && (lnext =? pnext) then [pnext] else [])).

(** The loop over [idx], in ascending order: the lattice and [idx2]. *)
Fixpoint draw_units (t : tables) (dud : Z) (idx : list Z) (v : Vit) (idx2 : list Z) :
    result (Vit * list Z) :=
  match idx with
  | [] => Ok (v, idx2)
  | k :: idx =>
      if k =? dud then draw_units t dud idx v idx2 else
      next ← successors t dud k;
      draw_units t dud idx (foldl (fun v j => Vit.addTransition v k j czero) v next)
        (foldl (fun s j => set_insert j s) idx2 next)
  end.

(** [units - 1] draws. *)
Fixpoint draws (t : tables) (dud : Z) (n : nat) (idx : list Z) (v : Vit) : result Vit :=
  match n with
  | O => Ok v
  | S n =>
      '(v, idx2) ← draw_units t dud idx (Vit.beginTransitions v) [];
      draws t dud n idx2 (Vit.endTransitions (Vit.addTransition v dud dud cone))
  end.

Definition first_draw (t : tables) (dud : Z) (v : Vit) : Vit * list Z :=
  let v := Vit.beginTransitions v in
  let start (low : Z) (m : gmap Z Z) (x : Vit * list Z) :=
    if low >=? 0 then let k := default 0 (m !! low) in
                      (Vit.addTransition x.1 k k czero, set_insert k x.2)
    else x in
  let '(v, idx) := start (lowestR t) (r2k t) (start (lowestL t) (l2k t) (v, [])) in
  (Vit.endTransitions (Vit.addTransition v dud dud cone), idx).

(** [for (draw=0; draw<=units; draw++) v.addTransition(draw,draw,(draw==units));] *)
Definition last_draw (units : Z) (v : Vit) : Vit :=
  let v := Vit.beginTransitions v in
  Vit.endTransitions
    (foldl (fun v d => Vit.addTransition v d d (if d =? units then cone else czero)) v
       (seqZ 0 (units + 1))).

(** The lattice of one round. *)
Definition lattice_of (t : tables) : result Vit :=
  let units := ct t in
  let dud := units in
  let v := Vit.setSize Vit.new_viterbi (units + 1) (units + 2) in
  let '(v, idx) := first_draw t dud v in
  v ← draws t dud (Z.to_nat (units - 1)) idx v;
  Ok (last_draw units v).

(** The loop that takes units off the path, from step [i] on, [n] of them, until
    one is the dud or was taken before: [dups], [accepted], [canon], [good]. *)
Fixpoint accept (t : tables) (q : Z) (i : Z) (n : nat) (v : Vit) (dups : gmap Z Z)
    (accepted : gmap Z Z) (canon : list MatchUnit) :
    result (gmap Z Z * list MatchUnit * bool) :=
  match n with
  | O => Ok (accepted, canon, true)
  | S n =>
      '(k, v) ← Vit.getPath v i;
      '(k2, v) ← (if i <? q - 1 then Vit.getPath v (i + 1) else Ok (k, v));
      match dups !! k, dups !! k2 with
      | None, None =>
          u ← match mu t !! k with Some u => Ok u | None => Fault OutOfBounds end;
          accept t q (i + 1) n v (<[k := 1]> dups) (<[k := 1]> accepted) (canon ++ [u])
      | _, _ => Ok (accepted, canon, false)
      end
  end.

(** The units that are left for the next round: [canon_src] and [omit]. *)
Fixpoint leftover (it2k accepted : gmap Z Z) (gct2 : Z) (l : list MatchUnit) :
    list MatchUnit * Z :=
  match l with
  | [] => ([], 0)
  | u :: l =>
      let '(rest, omit) := leftover it2k accepted (gct2 + 1) l in
      match it2k !! gct2 with
      | Some k => match accepted !! k with
                  | Some _ => (rest, omit + 1)
                  | None => (u :: rest, omit)
                  end
      | None => (rest, omit)
      end
  end.

(** One round of the [while (more)] loop. *)
Definition order_round (canon canon_src : list MatchUnit) :
    result (list MatchUnit * list MatchUnit * bool) :=
  let t := foldl collect no_tables canon_src in
  v ← lattice_of t;
  '(len, v) ← Vit.vit_length v;
  let q := len - 1 in
  '(accepted, canon, good) ← accept t q 0 (Z.to_nat q) v {[ct t := 1]} ∅ canon;
  let '(rest, omit) := leftover (it2k t) accepted 0 canon_src in
  Ok (canon, rest, negb good && negb (omit =? 0)).

(** The loop; a round that goes on has taken a unit, so [fuel] is the number of
    units. *)
Fixpoint order_rounds (fuel : nat) (canon canon_src : list MatchUnit) :
    result (list MatchUnit * list MatchUnit) :=
  '(canon, rest, more) ← order_round canon canon_src;
  if more : bool then
    match fuel with O => Fault OutOfFuel | S fuel => order_rounds fuel canon rest end
  else Ok (canon, rest).

Definition order_units (accum : list MatchUnit) : result (list MatchUnit) :=
  '(canon, rest) ← order_rounds (length accum) [] accum;
  Ok (canon ++ filter (fun u => deleted u = false) rest ++ filter (fun u => deleted u = true) accum).

(** ** merge *)

(** The members of [CompareFlags] the function looks at. *)
Record order_flags := OrderFlags { head_trimmed : bool; tail_trimmed : bool; use_order : bool }.

(** [overlap]: the units that are in both sheets. *)
Definition both_sides (u : MatchUnit) : Prop := localUnit u <> -1 /\ remoteUnit u <> -1.

(** The members [accum] and [overlap] after [merge]; [accum0] is the member
    before, to which [process] appends. *)
Definition merge (accum0 : list MatchUnit) (nlocal nremote : OrderResult) (flags : order_flags)
    (columnar : bool) : result (list MatchUnit * Z) :=
  lo ← (if head_trimmed flags then trimHead nlocal (-1) (-2) else Ok nlocal);
  re ← (if head_trimmed flags then trimHead nremote (-1) (-2) else Ok nremote);
  lo ← (if tail_trimmed flags then trimTail lo (-1) (-2) else Ok lo);
  re ← (if tail_trimmed flags then trimTail re (-1) (-2) else Ok re);
  let empty := TypedSheet_ [] 0 0 0 in
  m ← process lo re 2 0 0 (blen lo) (blen re)
        (Walk (Typed.resize empty 1 (blen lo) 0) (Typed.resize empty 1 (blen re) 0) accum0 0 0);
  units ← (if use_order flags || columnar then order_units (accum m) else Ok (accum m));
  Ok (units, Zlen (filter both_sides units)).
End Order.
