(* ===== verification/OrderMergeSpec.v ===== *)
(** * Merging orders: where every row ends up

    [process] makes one unit of every local row (or column), and one of every
    remote row that the pivot does not have; ordering the units with the lattice
    permutes them and always ends.  So the units of [merge] are determined by
    the two correspondences up to their order: [merged_units]. *)

From stdpp Require Import gmap.
From S2P Require Import Prelude Sheet Viterbi ViterbiSpec OrderMerge.
#[local] Open Scope Z_scope.

(** ** Sheets of one column *)

Definition of_column (l : list Z) (z : Z) : TypedSheet Z :=
  TypedSheet_ ((fun x => [x]) <$> l) (Zlen l) 1 z.

Lemma cell_column l z i : Typed.cell (of_column l z) 0 i = rd l i.
Proof.
  unfold Typed.cell, rd. simpl. destruct (i <? 0); [done|].
  rewrite list_lookup_fmap. by destruct (l !! Z.to_nat i).
Qed.

Lemma set_column l z i v :
  0 <= i < Zlen l ->
  Typed.set_cell (of_column l z) 0 i v = Ok (of_column (<[Z.to_nat i := v]> l) z).
Proof.
  intros Hi. unfold Typed.set_cell. simpl.
  destruct (lookup_lt_is_Some_2 l (Z.to_nat i)) as [x Hx]; [lia|].
  rewrite (rd_ok _ i [x]) by (lia || by rewrite list_lookup_fmap, Hx).
  rewrite bind_Ok, wr_ok, bind_Ok by (simpl; lia). simpl.
  rewrite wr_ok, bind_Ok by (rewrite length_fmap; lia).
  unfold of_column. rewrite length_insert, list_fmap_insert. done.
Qed.

Lemma resize_column t n z : 0 <= n -> Typed.resize t 1 n z = of_column (replicate (Z.to_nat n) z) z.
Proof.
  intros Hn. unfold Typed.resize, of_column. rewrite fmap_replicate, length_replicate. simpl.
  by rewrite Z2Nat.id.
Qed.

(** ** Correspondences *)

Definition look (l : list Z) (x : Z) : Z :=
  if x =? -2 then -2 else if (x <? 0) || (x >=? Zlen l) then -1 else cget l x.

Lemma order_get_column l z x : order_get (of_column l z) x = Ok (look l x).
Proof.
  unfold order_get, look. simpl. destruct (x =? -2); [done|].
  destruct ((x <? 0) || (x >=? Zlen l)) eqn:E; [done|].
  apply orb_false_iff in E as [E1%Z.ltb_ge E2]. rewrite Z.geb_leb in E2. apply Z.leb_gt in E2.
  rewrite cell_column. by apply rd_cget.
Qed.

Lemma look_in l x : 0 <= x < Zlen l -> look l x = cget l x.
Proof.
  intros Hx. unfold look. rewrite (proj2 (Z.eqb_neq x (-2))), (proj2 (Z.ltb_ge x 0)) by lia.
  by rewrite Z.geb_leb, (proj2 (Z.leb_gt _ _)) by lia.
Qed.

(** [a] sends [x] to [y] exactly when [b] sends [y] to [x]. *)
Definition pairing (a b : list Z) : Prop :=
  forall x y, 0 <= x -> 0 <= y -> look a x = y <-> look b y = x.

Lemma look_nonneg l x : 0 <= look l x -> 0 <= x < Zlen l.
Proof.
  unfold look. destruct (Z.eqb_spec x (-2)); [lia|]. rewrite Z.geb_leb.
  destruct (Z.ltb_spec x 0), (Z.leb_spec (Zlen l) x); simpl; lia.
Qed.

Lemma pairing_range a b x y : pairing a b -> 0 <= x -> 0 <= y -> look a x = y -> y < Zlen b.
Proof. intros H Hx Hy E. apply H in E; try done. pose proof (look_nonneg b y). lia. Qed.

(** *** Trimming *)

Definition trimmed : list Z -> list Z -> Prop := Forall2 (fun x y => y = x \/ (x = -1 /\ y = -2)).

#[local] Instance trimmed_refl : Reflexive trimmed.
Proof. intros l. apply Forall_Forall2_diag, Forall_true. auto. Qed.
#[local] Instance trimmed_trans : Transitive trimmed.
Proof.
  intros a b c H1 H2. revert c H2. induction H1 as [|x y a b Hxy _ IH]; intros c H2.
  { by inversion H2. }
  apply Forall2_cons_inv_l in H2 as (z & c' & Hyz & H2 & ->). constructor; [|by apply IH].
  destruct Hxy as [->|[-> ->]], Hyz as [->|[-> ->]]; auto.
Qed.

Lemma trimmed_insert l (i : nat) : l !! i = Some (-1) -> trimmed l (<[i := -2]> l).
Proof.
  intros Hi. apply Forall2_same_length_lookup. split; [by rewrite length_insert|].
  intros j x y Hx Hy. destruct (decide (i = j)) as [->|Hne].
  - rewrite list_lookup_insert_eq in Hy by (by apply lookup_lt_Some in Hi). simplify_eq. auto.
  - rewrite list_lookup_insert_ne in Hy by done. simplify_eq. auto.
Qed.

Lemma trim_ends_spec l z d i (n : nat) :
  (d = 1 /\ 0 <= i /\ i + Z.of_nat n <= Zlen l \/ d = -1 /\ i < Zlen l /\ Z.of_nat n <= i + 1) ->
  exists l', trim_ends (of_column l z) (-1) (-2) d i n = Ok (of_column l' z) /\ trimmed l l'.
Proof.
  revert l i. induction n as [|n IH]; intros l i Hr; [by exists l|]. cbn [trim_ends].
  assert (0 <= i < Zlen l) as Hi by lia. rewrite cell_column, rd_cget, bind_Ok by done.
  destruct (Z.eqb_spec (cget l i) (-1)) as [E|]; [|by exists l].
  rewrite set_column, bind_Ok by done.
  destruct (IH (<[Z.to_nat i := -2]> l) (i + d)) as (l' & -> & Hl'); [rewrite length_insert; lia|].
  exists l'. split; [done|]. etrans; [|exact Hl']. apply trimmed_insert.
  by rewrite lookup_cget, E.
Qed.

Lemma trimmed_look l l' x : trimmed l l' -> 0 <= look l x \/ 0 <= look l' x -> look l' x = look l x.
Proof.
  intros H Hx. pose proof (Forall2_length H) as Hlen.
  assert (0 <= x < Zlen l) as Hr by (destruct Hx as [?%look_nonneg|?%look_nonneg]; lia).
  rewrite !look_in in * by lia. destruct (Forall2_lookup_l _ _ _ _ _ H (lookup_cget l x Hr))
    as (y & Hy & Hxy). rewrite (cget_Some l' x y) in * by (done || lia). lia.
Qed.

(** A correspondence between sheets of [Zlen a] and [Zlen b] rows. *)
Record corresponds (o : OrderResult) (a b : list Z) : Prop := {
  co_order : exists z z', o = OrderResult_ (of_column a z) (of_column b z');
  co_pairing : pairing a b
}.

Lemma corresponds_trimmed o a b a' b' z z' :
  corresponds o a b -> trimmed a a' -> trimmed b b' ->
  corresponds (OrderResult_ (of_column a' z) (of_column b' z')) a' b'.
Proof.
  intros [_ Hp] Ha Hb. split; [eauto|]. intros x y Hx Hy. split; intros E.
  - rewrite (trimmed_look a a' x Ha) in E by lia. apply Hp in E; [|done..].
    by rewrite (trimmed_look b b' y Hb) by lia.
  - rewrite (trimmed_look b b' y Hb) in E by lia. apply Hp in E; [|done..].
    by rewrite (trimmed_look a a' x Ha) by lia.
Qed.

Lemma trimHead_spec o a b :
  corresponds o a b -> exists o' a' b', trimHead o (-1) (-2) = Ok o' /\ corresponds o' a' b' /\
    trimmed a a' /\ trimmed b b'.
Proof.
  intros H. destruct (co_order _ _ _ H) as (z & z' & ->). unfold trimHead, alen, blen. simpl.
  rewrite !Nat2Z.id.
  destruct (trim_ends_spec a z 1 0 (length a)) as (a' & -> & Ha); [lia|]. rewrite bind_Ok.
  destruct (trim_ends_spec b z' 1 0 (length b)) as (b' & -> & Hb); [lia|]. rewrite bind_Ok.
  eexists _, a', b'. split; [done|]. split; [|done]. by eapply corresponds_trimmed.
Qed.

Lemma trimTail_spec o a b :
  corresponds o a b -> exists o' a' b', trimTail o (-1) (-2) = Ok o' /\ corresponds o' a' b' /\
    trimmed a a' /\ trimmed b b'.
Proof.
  intros H. destruct (co_order _ _ _ H) as (z & z' & ->). unfold trimTail, alen, blen. simpl.
  rewrite !Nat2Z.id.
  destruct (trim_ends_spec a z (-1) (Zlen a - 1) (length a)) as (a' & -> & Ha); [lia|].
  rewrite bind_Ok.
  destruct (trim_ends_spec b z' (-1) (Zlen b - 1) (length b)) as (b' & -> & Hb); [lia|].
  rewrite bind_Ok.
  eexists _, a', b'. split; [done|]. split; [|done]. by eapply corresponds_trimmed.
Qed.

(** ** The walk *)

(** The unit of local row [l], and that of a remote row the pivot does not have. *)
Definition unit_of (lb ra : list Z) (l : Z) : MatchUnit :=
  let p := look lb l in
  if p =? -1 then MatchUnit_ (-1) l (-1) false MATCH_UNIT_PRESERVE
  else let r := look ra p in
       if r =? -1 then MatchUnit_ p l (-1) true MATCH_UNIT_DELETE
       else MatchUnit_ p l r false MATCH_UNIT_PRESERVE.
Definition insert_of (r : Z) : MatchUnit := MatchUnit_ (-1) (-1) r false MATCH_UNIT_INSERT.

(** The units of a merge of local rows [lb] and remote rows [rb]. *)
Definition merged_units (lb ra rb : list Z) : list MatchUnit :=
  (unit_of lb ra <$> seqZ 0 (Zlen lb)) ++
  (insert_of <$> filter (fun r => look rb r = -1) (seqZ 0 (Zlen rb))).

Section Walk.
Context (lo re : OrderResult) (la lb ra rb : list Z).
Context (Hlo : corresponds lo la lb) (Hre : corresponds re ra rb).

Lemma b2a_local x : b2a lo x = Ok (look lb x).
Proof using Hlo. destruct (co_order _ _ _ Hlo) as (z & z' & ->). apply order_get_column. Qed.
Lemma a2b_remote x : a2b re x = Ok (look ra x).
Proof using Hre. destruct (co_order _ _ _ Hre) as (z & z' & ->). apply order_get_column. Qed.
Lemma b2a_remote x : b2a re x = Ok (look rb x).
Proof using Hre. destruct (co_order _ _ _ Hre) as (z & z' & ->). apply order_get_column. Qed.

Lemma process_S d il ir sl sr m :
  process lo re (S d) il ir sl sr m =
  process_loop lo re (process lo re d) (Z.to_nat (sl - il) + Z.to_nat (sr - ir)) il ir sl sr m.
Proof. done. Qed.

(** The remote rows [R] have been added: exactly those of the new ones that are
    marked. *)
Record remote_inv (xr : list Z) (R : list Z) : Prop := {
  ri_len : length xr = length rb;
  ri_nodup : NoDup R;
  ri_new : Forall (fun r => 0 <= r < Zlen rb /\ look rb r = -1) R;
  ri_mark : forall r, 0 <= r < Zlen rb -> look rb r = -1 -> cget xr r = 0 <-> r ∉ R
}.

Lemma remote_step_spec xr zr R xl acc bl br r :
  remote_inv xr R -> 0 <= r ->
  exists xr' R2, remote_step re r (Walk xl (of_column xr zr) acc bl br) =
      Ok (Walk xl (of_column xr' zr) (acc ++ (insert_of <$> R2)) bl br) /\
    remote_inv xr' (R ++ R2) /\ (r < Zlen rb -> look rb r = -1 -> r ∈ R ++ R2).
Proof using Hre.
  intros H Hr. pose proof (ri_len _ _ H) as Hlen. unfold remote_step. cbn [xremote h of_column].
  assert (forall xl' : TypedSheet Z, exists xr' R2,
    Ok (Walk xl' (of_column xr zr) acc bl br) =
      Ok (Walk xl' (of_column xr' zr) (acc ++ (insert_of <$> R2)) bl br) /\
    remote_inv xr' (R ++ R2) /\ R2 = []) as Hnone.
  { intros xl'. exists xr, []. rewrite !app_nil_r. done. }
  destruct (Z.ltb_spec r (Zlen xr)) as [Hr'|Hr'].
  2: { destruct (Hnone xl) as (xr' & R2 & Heq & Hi & ->). exists xr', []. split_and!; try done. lia. }
  fold (of_column xr zr). rewrite cell_column, rd_cget, bind_Ok by lia.
  destruct (Z.eqb_spec (cget xr r) 0) as [E|E].
  2: { destruct (Hnone xl) as (xr' & R2 & Heq & Hi & ->). exists xr', []. split_and!; try done.
       intros _ Hnew. rewrite app_nil_r. destruct (decide (r ∈ R)); [done|].
       destruct E. apply (ri_mark _ _ H); done || lia. }
  rewrite b2a_remote, bind_Ok. destruct (Z.eqb_spec (look rb r) (-1)) as [E2|E2]; simpl.
  2: { destruct (Hnone xl) as (xr' & R2 & Heq & Hi & ->). exists xr', []. by split_and!. }
  unfold mark_remote, push_unit. simpl. rewrite Z.geb_leb, (proj2 (Z.leb_le 0 r)) by done.
  fold (of_column xr zr). rewrite set_column, bind_Ok by lia.
  exists (<[Z.to_nat r := 1]> xr), [r]. split; [done|].
  assert (r ∉ R) as Hni by (apply (ri_mark _ _ H); done || lia).
  split; [|intros _ _; apply elem_of_app; right; by apply list_elem_of_singleton].
  split.
  - by rewrite length_insert.
  - apply list.NoDup_app. split_and!; [apply H| |apply NoDup_singleton].
    intros x Hx ->%list_elem_of_singleton. done.
  - apply Forall_app. split; [apply H|]. repeat constructor; done || lia.
  - intros x Hx Hxn. rewrite cget_insert by lia. case_decide as D.
    + subst x. split; [done|]. intros Hn. destruct Hn. apply elem_of_app. right.
      by apply list_elem_of_singleton.
    + rewrite (ri_mark _ _ H x Hx Hxn), not_elem_of_app, list_elem_of_singleton.
      split; [intros ?; split; congruence|by intros [? ?]].
Qed.

(** The remote part of the loop, up to row [stop]. *)
Lemma remote_loop_spec rec (n : nat) il sl r stop xl xr zr acc bl br R :
  remote_inv xr R -> 0 <= r -> sl <= il -> stop - r <= Z.of_nat n ->
  exists xr' R2 br', process_loop lo re rec n il r sl stop (Walk xl (of_column xr zr) acc bl br) =
      Ok (Walk xl (of_column xr' zr) (acc ++ (insert_of <$> R2)) bl br') /\ br <= br' /\
    remote_inv xr' (R ++ R2) /\
    (forall x, r <= x < stop -> x < Zlen rb -> look rb x = -1 -> x ∈ R ++ R2).
Proof using Hre.
  revert r xr acc br R. induction n as [|n IH]; intros r xr acc br R H Hr Hil Hn; cbn [process_loop];
    rewrite !Z.geb_leb, (proj2 (Z.leb_le sl il)) by done; simpl;
    (destruct (Z.leb_spec stop r) as [Hs|Hs];
     [exists xr, [], br; rewrite !app_nil_r; split_and!; done || lia|]); [lia|].
  rewrite (proj2 (Z.ltb_ge il sl)) by done.
  destruct (remote_step_spec xr zr R xl acc bl br r H Hr) as (xr1 & R1 & -> & H1 & Hin).
  rewrite bind_Ok. cbn [xlocal xremote accum base_local base_remote].
  destruct (IH (r + 1) xr1 (acc ++ (insert_of <$> R1)) (br + 1) (R ++ R1)) as
    (xr2 & R2 & br' & -> & Hbr & H2 & Hall); [done|lia|done|lia|].
  exists xr2, (R1 ++ R2), br'. rewrite fmap_app, !app_assoc. split_and!; try done; try lia.
  intros x Hx Hxr Hxn. destruct (decide (x = r)) as [->|]; [|apply Hall; done || lia].
  apply elem_of_app. left. by apply Hin.
Qed.

(** Marking a remote row that the pivot has changes nothing for the new ones. *)
Lemma remote_inv_mark xr R r :
  remote_inv xr R -> 0 <= r < Zlen rb -> look rb r <> -1 -> remote_inv (<[Z.to_nat r := 1]> xr) R.
Proof.
  intros H Hr Hn. pose proof (ri_len _ _ H). split; [by rewrite length_insert|apply H|apply H|].
  intros x Hx Hxn. rewrite cget_insert by lia. rewrite decide_False by (intros ->; done).
  by apply H.
Qed.

Lemma mark_local_column xl zl xr acc bl br i :
  0 <= i < Zlen xl ->
  mark_local (Walk (of_column xl zl) xr acc bl br) i =
  Ok (Walk (of_column (<[Z.to_nat i := 1]> xl) zl) xr acc bl br).
Proof.
  intros Hi. unfold mark_local. rewrite Z.geb_leb, (proj2 (Z.leb_le 0 i)) by lia. cbn [xlocal].
  by rewrite set_column.
Qed.

(** The row a matched unit refers to can be marked. *)
Lemma mark_remote_matched p xl xr zr acc bl br R :
  remote_inv xr R -> look ra p <> -1 ->
  exists xr', mark_remote (Walk xl (of_column xr zr) acc bl br) (look ra p) =
    Ok (Walk xl (of_column xr' zr) acc bl br) /\ remote_inv xr' R.
Proof using Hre.
  intros H Hp. unfold mark_remote. rewrite Z.geb_leb.
  destruct (Z.leb_spec 0 (look ra p)) as [Hr|]; [|by exists xr].
  pose proof (look_nonneg _ _ Hr) as Hp'. pose proof (ri_len _ _ H).
  pose proof (pairing_range _ _ p _ (co_pairing _ _ _ Hre) ltac:(lia) Hr eq_refl) as Hlt.
  cbn [xremote]. rewrite set_column, bind_Ok by lia. eexists. split; [done|].
  apply remote_inv_mark; [done|lia|].
  assert (look rb (look ra p) = p) as -> by (apply (co_pairing _ _ _ Hre); done || lia). lia.
Qed.

(** A local row: the new remote rows before its partner, then its unit. *)
Lemma local_step_spec xl zl xr zr acc br R i :
  0 <= i < Zlen xl -> cget xl i = 0 -> 0 <= br -> remote_inv xr R ->
  exists xr' R2 br', local_step lo re (process lo re 1) i
      (Walk (of_column xl zl) (of_column xr zr) acc i br) =
      Ok (Walk (of_column (<[Z.to_nat i := 1]> xl) zl) (of_column xr' zr)
            ((acc ++ (insert_of <$> R2)) ++ [unit_of lb ra i]) i br') /\ br <= br' /\
    remote_inv xr' (R ++ R2).
Proof using Hlo Hre.
  intros Hi Hx Hbr H. unfold local_step. cbn [xlocal h of_column].
  rewrite (proj2 (Z.ltb_lt i _)) by lia. fold (of_column xl zl).
  rewrite cell_column, rd_cget, bind_Ok, Hx by done. cbn [Z.eqb].
  rewrite b2a_local, bind_Ok. unfold unit_of.
  destruct (Z.eqb_spec (look lb i) (-1)) as [E|E]; cbn [negb].
  { exists xr, [], br. rewrite !app_nil_r. unfold push_unit. simpl.
    by rewrite mark_local_column. }
  rewrite a2b_remote, bind_Ok.
  destruct (Z.eqb_spec (look ra (look lb i)) (-1)) as [E2|E2]; cbn [negb].
  { exists xr, [], br. rewrite !app_nil_r. unfold push_unit. simpl.
    by rewrite mark_local_column. }
  cbn [base_local base_remote]. rewrite process_S.
  destruct (remote_loop_spec (process lo re 0)
      (Z.to_nat (i - i) + Z.to_nat (look ra (look lb i) - br)) i i br (look ra (look lb i))
      (of_column xl zl) xr zr acc i br R) as (xr1 & R2 & br' & -> & Hbr' & H1 & _); try done || lia.
  rewrite bind_Ok. unfold push_unit. cbn [xlocal xremote accum base_local base_remote].
  destruct (mark_remote_matched (look lb i) (of_column xl zl) xr1 zr
      ((acc ++ (insert_of <$> R2)) ++ [MatchUnit_ (look lb i) i (look ra (look lb i)) false
        MATCH_UNIT_PRESERVE]) i br' _ H1 E2) as (xr2 & -> & H2).
  rewrite bind_Ok, mark_local_column by done. by exists xr2, R2, br'.
Qed.

(** The whole walk. *)
Lemma local_loop_spec (n : nat) (m : nat) i xl zl xr zr acc acc0 br R :
  Zlen lb - i = Z.of_nat m -> (m + length rb <= n)%nat -> 0 <= i -> 0 <= br ->
  length xl = length lb -> (forall j, i <= j < Zlen lb -> cget xl j = 0) -> remote_inv xr R ->
  acc ≡ₚ acc0 ++ (unit_of lb ra <$> seqZ 0 i) ++ (insert_of <$> R) ->
  exists w R', process_loop lo re (process lo re 1) n i 0 (Zlen lb) (Zlen rb)
      (Walk (of_column xl zl) (of_column xr zr) acc i br) = Ok w /\
    accum w ≡ₚ acc0 ++ (unit_of lb ra <$> seqZ 0 (Zlen lb)) ++ (insert_of <$> R') /\
    NoDup R' /\ forall x, x ∈ R' <-> 0 <= x < Zlen rb /\ look rb x = -1.
Proof using Hlo Hre.
  revert n i xl xr acc br R. induction m as [|m IH]; intros n i xl xr acc br R Hm Hn Hi Hbr Hl Hx H Hacc.
  - destruct (remote_loop_spec (process lo re 1) n i (Zlen lb) 0 (Zlen rb) (of_column xl zl) xr zr acc
      i br R) as (xr' & R2 & br' & -> & _ & H' & Hall); [done|lia|lia|lia|].
    eexists _, (R ++ R2). split; [done|]. simpl. split_and!; [|apply H'|].
    + rewrite Hacc. replace i with (Zlen lb) by lia. by rewrite fmap_app, <- !app_assoc.
    + intros x. split.
      * intros Hin. pose proof (ri_new _ _ H') as Hf. rewrite Forall_forall in Hf.
        by apply Hf, list_elem_of_In.
      * intros [? ?]. apply Hall; done || lia.
  - destruct n as [|n]; [lia|]. cbn [process_loop].
    rewrite Z.geb_leb, (proj2 (Z.leb_gt _ i)), (proj2 (Z.ltb_lt i _)) by lia. cbn [andb].
    destruct (local_step_spec xl zl xr zr acc br R i) as (xr' & R2 & br' & -> & Hbr' & H');
      [lia|apply Hx; lia|done|done|].
    rewrite bind_Ok. cbn [xlocal xremote accum base_local base_remote].
    apply (IH n (i + 1) _ xr' _ br' (R ++ R2)); try lia; try done.
    + by rewrite length_insert.
    + intros j Hj. rewrite cget_insert, decide_False by lia. apply Hx. lia.
    + rewrite Hacc. rewrite seqZ_app, !fmap_app by lia. simpl.
      rewrite Z.add_0_l. solve_Permutation.
Qed.

(** [process] from a fresh start, with recursion depth two. *)
Lemma process_spec t acc0 :
  exists w, process lo re 2 0 0 (Zlen lb) (Zlen rb)
      (Walk (Typed.resize t 1 (Zlen lb) 0) (Typed.resize t 1 (Zlen rb) 0) acc0 0 0) = Ok w /\
    accum w ≡ₚ acc0 ++ merged_units lb ra rb.
Proof using Hlo Hre.
  rewrite !resize_column, !Nat2Z.id by lia.
  destruct (local_loop_spec (Z.to_nat (Zlen lb - 0) + Z.to_nat (Zlen rb - 0)) (length lb) 0
    (replicate (length lb) 0) 0 (replicate (length rb) 0) 0 acc0 acc0 0 [])
    as (w & R & Hw & Hacc & Hnd & HR); try lia.
  - by rewrite length_replicate.
  - intros j Hj. rewrite cget_lookup, lookup_replicate_2 by lia. done.
  - split; [by rewrite length_replicate|constructor|constructor|].
    intros r Hr _. rewrite cget_lookup, lookup_replicate_2 by lia. split; [|done].
    intros _. apply not_elem_of_nil.
  - simpl. by rewrite app_nil_r.
  - exists w. split; [exact Hw|]. rewrite Hacc. unfold merged_units. do 2 f_equiv. apply fmap_Permutation.
    apply NoDup_Permutation; [done|apply list.NoDup_filter, NoDup_seqZ|].
    intros x. rewrite HR, list_elem_of_filter, elem_of_seqZ. lia.
Qed.
End Walk.

(** ** Ordering *)

Abbreviation kept := (filter (fun u => deleted u = false)).

Record tables_ok (l : list MatchUnit) (t : tables) : Prop := {
  tb_ct : ct t = Zlen (kept l);
  tb_gct : gct t = Zlen l;
  tb_mu : forall k : nat, mu t !! Z.of_nat k = kept l !! k;
  tb_it : forall i u, l !! i = Some u ->
    it2k t !! Z.of_nat i = if deleted u then None else Some (Zlen (kept (take i l)));
  tb_it_end : forall i, Zlen l <= i -> it2k t !! i = None;
  tb_l2k : map_Forall (fun _ k => 0 <= k < ct t) (l2k t);
  tb_r2k : map_Forall (fun _ k => 0 <= k < ct t) (r2k t);
  tb_p2k : map_Forall (fun _ k => 0 <= k < ct t) (p2k t)
}.

Lemma map_Forall_grow (m : gmap Z Z) (x c : Z) (b : bool) :
  0 <= c -> map_Forall (fun _ k => 0 <= k < c) m ->
  map_Forall (fun _ k => 0 <= k < c + 1) (if b then <[x := c]> m else m).
Proof.
  intros Hc H. destruct b.
  - apply map_Forall_insert_2; [lia|]. eapply map_Forall_impl; [exact H|]. simpl. lia.
  - eapply map_Forall_impl; [exact H|]. simpl. lia.
Qed.

Lemma collect_ok l t u : tables_ok l t -> tables_ok (l ++ [u]) (collect t u).
Proof.
  intros H. pose proof (tb_ct _ _ H) as Hct. pose proof (tb_gct _ _ H) as Hgct.
  assert (forall i v, (l ++ [u]) !! i = Some v -> i = length l /\ v = u \/
    (i < length l)%nat /\ l !! i = Some v) as Hlook.
  { intros i v Hi. apply lookup_app_Some in Hi as [Hi|[Hi1 Hi2]].
    - right. split; [by apply lookup_lt_Some in Hi|done].
    - left. destruct (i - length l)%nat as [|n] eqn:E; [|by destruct n]. simplify_eq/=.
      split; [lia|done]. }
  unfold collect. destruct (deleted u) eqn:Ed.
  - assert (kept (l ++ [u]) = kept l) as Hk.
    { rewrite list.filter_app, filter_cons_False, app_nil_r by congruence. done. }
    split; simpl; rewrite ?Hk; try apply H.
    + rewrite length_app. simpl. lia.
    + intros i v Hi. destruct (Hlook i v Hi) as [[-> ->]|[Hlt Hi']].
      * rewrite Ed. apply (tb_it_end _ _ H). lia.
      * rewrite take_app_le by lia. by apply H.
    + intros i Hi. rewrite length_app in Hi. apply (tb_it_end _ _ H). lia.
  - assert (kept (l ++ [u]) = kept l ++ [u]) as Hk.
    { by rewrite list.filter_app, filter_cons_True. }
    split; simpl; rewrite ?Hk.
    + rewrite length_app. simpl. lia.
    + rewrite length_app. simpl. lia.
    + intros k. destruct (decide (ct t = Z.of_nat k)) as [E|E].
      * rewrite E, lookup_insert_eq. rewrite list_lookup_middle by lia. done.
      * rewrite lookup_insert_ne, (tb_mu _ _ H) by done.
        destruct (decide (k < length (kept l))%nat).
        -- by rewrite lookup_app_l.
        -- rewrite !lookup_ge_None_2; [done| |lia]. rewrite length_app. simpl. lia.
    + intros i v Hi. destruct (Hlook i v Hi) as [[-> ->]|[Hlt Hi']].
      * rewrite Hgct, lookup_insert_eq, Ed, take_app_length. by rewrite Hct.
      * rewrite lookup_insert_ne by lia. rewrite take_app_le by lia. by apply H.
    + intros i Hi. rewrite length_app in Hi. simpl in Hi. rewrite lookup_insert_ne by lia.
      apply (tb_it_end _ _ H). lia.
    + apply map_Forall_grow; [lia|apply H].
    + apply map_Forall_grow; [lia|apply H].
    + apply map_Forall_grow; [lia|apply H].
Qed.

Lemma tables_of_ok l : tables_ok l (foldl collect no_tables l).
Proof.
  induction l as [|u l IH] using rev_ind; [|rewrite foldl_snoc; by apply collect_ok].
  split; simpl; try done; try (intros; apply lookup_empty); try apply map_Forall_empty.
Qed.

Section Lattice.
Context {C : Type} `{CostOps C}.
Abbreviation Vit := (Vit.Viterbi C).
Abbreviation take_transitions :=
  (foldl (fun (v : Vit) (t : trans) => Vit.addTransition v t.1.1 t.1.2 t.2)).

(** A layer of a lattice for [U] units: its states are the units and the dud
    [U], and the dud can be repeated. *)
Abbreviation draw_ok U := (steady (C:=C) (U + 1) U).

Lemma take_map (f : Z -> trans) (js : list Z) (v : Vit) :
  take_transitions v (f <$> js) =
  foldl (fun v j => Vit.addTransition v (f j).1.1 (f j).1.2 (f j).2) v js.
Proof. revert v. induction js as [|j js IH]; intros v; simpl; [done|]. apply IH. Qed.

Lemma set_insert_Forall (P : Z -> Prop) x s : P x -> Forall P s -> Forall P (set_insert x s).
Proof.
  intros Hx. induction 1 as [|y s Hy Hs IH]; simpl; [by repeat constructor|].
  destruct (x <? y), (x =? y); by repeat constructor.
Qed.

Lemma safe_next_range (m : gmap Z Z) U x :
  0 <= U -> map_Forall (fun _ k => 0 <= k < U) m -> 0 <= safe_next m x U <= U.
Proof.
  intros HU Hm. unfold safe_next. destruct (m !! x) as [k|] eqn:E; simpl; [|lia].
  specialize (Hm x k E). simpl in Hm. lia.
Qed.

Section Tables.
Context (l : list MatchUnit) (t : tables) (Ht : tables_ok l t).
Abbreviation U := (Zlen (kept l)).

Lemma mu_in k : 0 <= k < U -> exists u, mu t !! k = Some u /\ kept l !! Z.to_nat k = Some u.
Proof using Ht.
  intros Hk. destruct (lookup_lt_is_Some_2 (kept l) (Z.to_nat k)) as [u Hu]; [lia|].
  exists u. split; [|done]. rewrite <- (Z2Nat.id k) by lia. by rewrite (tb_mu _ _ Ht).
Qed.

Lemma successors_ok k :
  0 <= k < U -> exists next, successors t U k = Ok next /\ Forall (fun j => 0 <= j <= U) next.
Proof using Ht.
  intros Hk. destruct (mu_in k Hk) as (u & Hu & _). unfold successors. rewrite Hu, bind_Ok.
  pose proof (tb_ct _ _ Ht) as Hct.
  assert (forall x, 0 <= safe_next (l2k t) x U <= U) as Hl
    by (intros; apply safe_next_range; [lia|rewrite <- Hct; apply Ht]).
  assert (forall x, 0 <= safe_next (r2k t) x U <= U) as Hr
    by (intros; apply safe_next_range; [lia|rewrite <- Hct; apply Ht]).
  assert (forall x, 0 <= safe_next (p2k t) x U <= U) as Hp
    by (intros; apply safe_next_range; [lia|rewrite <- Hct; apply Ht]).
  repeat case_match; eexists; (split; [reflexivity|]); repeat constructor; (apply Hl || apply Hr || apply Hp).
Qed.

Lemma draw_units_ok idx v idx2 :
  Forall (fun j => 0 <= j <= U) idx -> Forall (fun j => 0 <= j <= U) idx2 ->
  exists ts idx', draw_units t U idx v idx2 = Ok (take_transitions v ts, idx') /\
    layer_ok (U + 1) ts /\ Forall (fun j => 0 <= j <= U) idx'.
Proof using Ht.
  intros Hidx. revert v idx2. induction Hidx as [|k idx Hk _ IH]; intros v idx2 H2; simpl.
  { exists [], idx2. split_and!; [done|constructor|done]. }
  destruct (Z.eqb_spec k U) as [|Hne]; [by apply IH|].
  destruct (successors_ok k) as (next & -> & Hnext); [lia|]. rewrite bind_Ok.
  destruct (IH (foldl (fun v j => Vit.addTransition v k j czero) v next)
              (foldl (fun s j => set_insert j s) idx2 next)) as (ts & idx' & -> & Hts & Hidx').
  { clear IH. revert idx2 H2. induction Hnext as [|j next Hj _ IHn]; intros idx2 H2; simpl; [done|].
    apply IHn. by apply set_insert_Forall. }
  exists (((fun j => (k, j, czero)) <$> next) ++ ts), idx'. split_and!; [|apply Forall_app; split|done].
  - by rewrite foldl_app, take_map.
  - apply Forall_fmap. eapply Forall_impl; [|exact Hnext]. intros j Hj. unfold compose. simpl in *. lia.
  - done.
Qed.

Lemma draws_ok (n : nat) idx v :
  Forall (fun j => 0 <= j <= U) idx ->
  exists ls, draws t U n idx v = Ok (add_layers v ls) /\ length ls = n /\ Forall (draw_ok U) ls.
Proof using Ht.
  revert idx v. induction n as [|n IH]; intros idx v Hidx; cbn [draws].
  { exists []. split_and!; [done|done|constructor]. }
  destruct (draw_units_ok idx (Vit.beginTransitions v) [] Hidx) as (ts & idx2 & -> & Hts & Hidx2);
    [constructor|]. rewrite bind_Ok.
  destruct (IH idx2 (Vit.endTransitions (Vit.addTransition
      (take_transitions (Vit.beginTransitions v) ts) U U cone)) Hidx2) as (ls & -> & Hlen & Hls).
  exists ((ts ++ [(U, U, cone)]) :: ls). split_and!.
  - unfold add_layers. simpl. unfold add_layer at 3. by rewrite foldl_snoc.
  - simpl. lia.
  - constructor; [|done]. split; [|exists cone; apply elem_of_app; right; by apply list_elem_of_singleton].
    apply Forall_app. split; [done|]. repeat constructor; simpl; lia.
Qed.

Lemma first_draw_ok v :
  exists ts idx, first_draw t U v = (add_layer v ts, idx) /\ draw_ok U ts /\
    Forall (fun j => 0 <= j <= U) idx.
Proof using Ht.
  pose proof (tb_ct _ _ Ht) as Hct. unfold first_draw.
  assert (forall (m : gmap Z Z) (low : Z),
    map_Forall (fun _ k => 0 <= k < U) m -> 0 <= default 0 (m !! low) <= U) as Hrange.
  { intros m low Hm. destruct (m !! low) as [k|] eqn:E; simpl; [|lia].
    specialize (Hm low k E). simpl in Hm. lia. }
  assert (0 <= default 0 (l2k t !! lowestL t) <= U) as Hl by (apply Hrange; rewrite <- Hct; apply Ht).
  assert (0 <= default 0 (r2k t !! lowestR t) <= U) as Hr by (apply Hrange; rewrite <- Hct; apply Ht).
  set (kl := default 0 (l2k t !! lowestL t)) in *. set (kr := default 0 (r2k t !! lowestR t)) in *.
  exists ((if lowestL t >=? 0 then [(kl, kl, czero)] else []) ++
          (if lowestR t >=? 0 then [(kr, kr, czero)] else []) ++ [(U, U, cone)]).
  exists (let idx := if lowestL t >=? 0 then [kl] else [] in
          if lowestR t >=? 0 then set_insert kr idx else idx).
  split; [|split; [split|]].
  - unfold add_layer. by destruct (lowestL t >=? 0), (lowestR t >=? 0).
  - destruct (lowestL t >=? 0), (lowestR t >=? 0); repeat constructor; simpl; lia.
  - exists cone. rewrite !elem_of_app, list_elem_of_singleton. auto.
  - assert (Forall (fun j => 0 <= j <= U) (if lowestL t >=? 0 then [kl] else [])) as H1
      by (destruct (lowestL t >=? 0); [by apply Forall_singleton|by apply Forall_nil]).
    destruct (lowestR t >=? 0); [by apply set_insert_Forall|done].
Qed.

Lemma last_draw_ok v : exists ts, last_draw U v = add_layer v ts /\ draw_ok U ts.
Proof.
  exists ((fun d => (d, d, if d =? U then cone else czero)) <$> seqZ 0 (U + 1)). split.
  - unfold last_draw, add_layer. by rewrite take_map.
  - split.
    + apply Forall_fmap, Forall_forall. intros d Hd%list_elem_of_In%elem_of_seqZ. simpl. lia.
    + exists cone. apply list_elem_of_fmap. exists U. rewrite Z.eqb_refl. split; [done|].
      apply elem_of_seqZ. lia.
Qed.

Lemma lattice_of_ok :
  exists ls, lattice_of t = Ok (add_layers (Vit.setSize Vit.new_viterbi (U + 1) (U + 2)) ls) /\
    (2 <= length ls)%nat /\ Forall (draw_ok U) ls.
Proof using Ht.
  unfold lattice_of. rewrite (tb_ct _ _ Ht).
  destruct (first_draw_ok (Vit.setSize Vit.new_viterbi (U + 1) (U + 2))) as (ts & idx & -> & Hts & Hidx).
  destruct (draws_ok (Z.to_nat (U - 1)) idx (add_layer
     (Vit.setSize Vit.new_viterbi (U + 1) (U + 2)) ts) Hidx) as (ls & -> & _ & Hls).
  rewrite bind_Ok. edestruct last_draw_ok as (ts' & -> & Hts').
  exists (ts :: ls ++ [ts']). split_and!.
  - unfold add_layers. simpl. by rewrite foldl_snoc.
  - simpl. rewrite length_app. simpl. lia.
  - constructor; [done|]. apply Forall_app. split; [done|]. by constructor.
Qed.
End Tables.

(** *** The path of a round *)

Lemma round_path l t :
  tables_ok l t ->
  exists v0 v p, lattice_of t = Ok v0 /\ Vit.vit_length v0 = Ok (Zlen p, v) /\ traced p v /\
    Forall (fun x => 0 <= x <= Zlen (kept l)) p /\ p <> [].
Proof.
  intros Ht. set (U := Zlen (kept l)). destruct (lattice_of_ok l t Ht) as (ls & -> & Hlen & Hls).
  fold U in Hls |- *. set (v0 := add_layers _ ls).
  assert (ls <> []) as Hne by (destruct ls; [simpl in Hlen; lia|done]).
  destruct (steady_traced (U + 1) U (U + 2) Vit.new_viterbi ls) as (p & v & Hc & Hv & Hlp & He);
    [lia|done|done|].
  exists v0, v, p. split; [done|]. unfold Vit.vit_length.
  assert (Vit.index v0 = Zlen ls) as ->.
  { apply (inv_index any_cost (U + 1) ls [] v0), (add_layers_between any_cost (U + 1) []);
      [apply setSize_between|]. eapply Forall_impl; [|exact Hls]. by intros ts [? _]. }
  rewrite Z.gtb_ltb, (proj2 (Z.ltb_lt _ _)) by lia. unfold v0. rewrite Hc, bind_Ok.
  split_and!; [by rewrite (proj1 (proj2 Hv))|done| |by intros ->; destruct ls].
  eapply Forall_impl; [|by eapply entered_range]. intros x Hx. simpl in Hx. lia.
Qed.

(** *** Taking units off the path *)

(** The units numbered [ks], in this order. *)
Definition numbered (l : list MatchUnit) (ks : list Z) : list MatchUnit :=
  omap (fun k => kept l !! Z.to_nat k) ks.

Record taken_inv (l : list MatchUnit) (dups accepted : gmap Z Z) (ks : list Z) : Prop := {
  tk_nodup : NoDup ks;
  tk_range : Forall (fun k => 0 <= k < Zlen (kept l)) ks;
  tk_dups : forall k, dups !! k = None <-> k <> Zlen (kept l) /\ k ∉ ks;
  tk_accepted : forall k, accepted !! k = None <-> k ∉ ks
}.

Lemma taken_snoc l dups accepted ks k :
  taken_inv l dups accepted ks -> 0 <= k < Zlen (kept l) -> k ∉ ks ->
  taken_inv l (<[k := 1]> dups) (<[k := 1]> accepted) (ks ++ [k]).
Proof.
  intros Htk Hk Hni. split.
  - apply list.NoDup_app. split_and!; [apply Htk| |apply NoDup_singleton].
    by intros x Hx ->%list_elem_of_singleton.
  - apply Forall_app. split; [apply Htk|]. by apply Forall_singleton.
  - intros x. rewrite not_elem_of_app, list_elem_of_singleton.
    destruct (decide (x = k)) as [->|]; [rewrite lookup_insert_eq; split; [done|tauto]|].
    rewrite lookup_insert_ne by done. rewrite (tk_dups _ _ _ _ Htk). tauto.
  - intros x. rewrite not_elem_of_app, list_elem_of_singleton.
    destruct (decide (x = k)) as [->|]; [rewrite lookup_insert_eq; split; [done|tauto]|].
    rewrite lookup_insert_ne by done. rewrite (tk_accepted _ _ _ _ Htk). tauto.
Qed.

Lemma accept_ok l t p (n : nat) i v dups accepted canon ks :
  tables_ok l t -> traced p v -> Forall (fun x => 0 <= x <= Zlen (kept l)) p ->
  0 <= i -> i + Z.of_nat n <= Zlen p - 1 -> taken_inv l dups accepted ks ->
  exists dups' accepted' ks' good,
    accept t (Zlen p - 1) i n v dups accepted (canon ++ numbered l ks) =
      Ok (accepted', canon ++ numbered l ks', good) /\ taken_inv l dups' accepted' ks'.
Proof.
  intros Ht Hv Hp. revert i v dups accepted ks Hv.
  induction n as [|n IH]; intros i v dups accepted ks Hv Hi Hn Htk; cbn [accept];
    [by exists dups, accepted, ks, true|].
  destruct (lookup_lt_is_Some_2 p (Z.to_nat i)) as [k Hk]; [lia|].
  destruct (getPath_traced p v i k Hv Hi Hk) as (v1 & -> & Hv1). rewrite bind_Ok.
  assert (exists k2 v2, (if i <? Zlen p - 1 - 1 then Vit.getPath v1 (i + 1) else Ok (k, v1)) =
    Ok (k2, v2) /\ traced p v2) as (k2 & v2 & -> & Hv2).
  { destruct (Z.ltb_spec i (Zlen p - 1 - 1)); [|by eexists _, _].
    destruct (lookup_lt_is_Some_2 p (Z.to_nat (i + 1))) as [k2 Hk2]; [lia|].
    destruct (getPath_traced p v1 (i + 1) k2 Hv1 ltac:(lia) Hk2) as (v2 & -> & ?). by eexists _, _. }
  rewrite bind_Ok. destruct (dups !! k) as [|] eqn:E1; [by exists dups, accepted, ks, false|].
  destruct (dups !! k2) as [|] eqn:E2; [by exists dups, accepted, ks, false|].
  apply (tk_dups _ _ _ _ Htk) in E1 as [HkU Hni].
  pose proof (Forall_lookup_1 _ _ _ _ Hp Hk) as Hr. simpl in Hr.
  destruct (mu_in l t Ht k) as (u & -> & Hu); [lia|]. rewrite bind_Ok.
  assert ((canon ++ numbered l ks) ++ [u] = canon ++ numbered l (ks ++ [k])) as ->.
  { unfold numbered. rewrite omap_app. simpl. by rewrite Hu, app_assoc. }
  apply (IH (i + 1) v2 (<[k := 1]> dups)); try done; try lia. apply taken_snoc; done || lia.
Qed.

(** *** What is left for the next round *)

Lemma omap_lookup_seq {A} (pre l : list A) :
  omap (fun k => (pre ++ l) !! k) (seq (length pre) (length l)) = l.
Proof.
  revert pre. induction l as [|x l IH]; intros pre; [done|]. simpl.
  rewrite list_lookup_middle by done. f_equal. specialize (IH (pre ++ [x])).
  rewrite length_app, Nat.add_1_r, <- app_assoc in IH. exact IH.
Qed.

Lemma length_omap_le {A B} (f : A -> option B) (l : list A) : (length (omap f l) <= length l)%nat.
Proof.
  induction l as [|x l IH]; [done|].
  change (omap f (x :: l)) with (match f x with Some y => y :: omap f l | None => omap f l end).
  destruct (f x); cbn [length]; lia.
Qed.

Lemma filter_split {A} (P : A -> bool) (l : list A) :
  l ≡ₚ filter (fun x => P x = true) l ++ filter (fun x => P x = false) l.
Proof.
  induction l as [|x l IH]; [done|]. destruct (P x) eqn:E.
  - rewrite filter_cons_True, filter_cons_False by congruence. simpl. by f_equiv.
  - rewrite filter_cons_False, filter_cons_True by congruence. rewrite <- Permutation_middle. by f_equiv.
Qed.

(** The numbers that are not accepted. *)
Definition is_left (accepted : gmap Z Z) (k : nat) : bool :=
  bool_decide (accepted !! Z.of_nat k = None).

Lemma leftover_ok l t accepted pre suf :
  tables_ok l t -> l = pre ++ suf ->
  exists omit, leftover (it2k t) accepted (Zlen pre) suf =
    (omap (fun k => kept l !! k) (filter (fun k => is_left accepted k = true)
       (seq (length (kept pre)) (length (kept suf)))), omit) /\
    omit = Zlen (filter (fun k => is_left accepted k = false)
       (seq (length (kept pre)) (length (kept suf)))).
Proof.
  intros Ht. revert pre. induction suf as [|u suf IH]; intros pre Hl; [by eexists|]. cbn [leftover].
  destruct (IH (pre ++ [u])) as (omit & Heq & Homit); [by rewrite <- app_assoc|].
  assert (Zlen (pre ++ [u]) = Zlen pre + 1) as E by (rewrite length_app; simpl; lia).
  rewrite E in Heq. rewrite Heq. clear Heq E.
  pose proof (tb_it _ _ Ht (length pre) u) as Hit. rewrite Hit by (by rewrite Hl, list_lookup_middle).
  assert (kept (take (length pre) l) = kept pre) as -> by (by rewrite Hl, take_app_length).
  rewrite list.filter_app in *. destruct (deleted u) eqn:Ed.
  { rewrite (filter_cons_False _ u suf), (filter_cons_False _ u []), app_nil_r in * by congruence.
    by eexists. }
  rewrite (filter_cons_True _ u suf), (filter_cons_True _ u []) in * by done.
  rewrite length_app, Nat.add_1_r in *. cbn [length seq].
  assert (kept l !! length (kept pre) = Some u) as Hu.
  { by rewrite Hl, list.filter_app, (filter_cons_True _ u suf), list_lookup_middle. }
  destruct (accepted !! Zlen (kept pre)) as [|] eqn:Ea.
  - assert (is_left accepted (length (kept pre)) = false) as Hf
      by (unfold is_left; apply bool_decide_false; congruence).
    eexists. rewrite (filter_cons_False (fun k => is_left accepted k = true)) by congruence.
    rewrite (filter_cons_True (fun k => is_left accepted k = false)) by done.
    split; [reflexivity|]. rewrite Homit. simpl. lia.
  - assert (is_left accepted (length (kept pre)) = true) as Hf
      by (unfold is_left; by apply bool_decide_true).
    eexists. rewrite (filter_cons_True (fun k => is_left accepted k = true)) by done.
    rewrite (filter_cons_False (fun k => is_left accepted k = false)) by congruence.
    cbn [omap list_omap]. rewrite Hu. split; [reflexivity|]. done.
Qed.

(** The accepted units and those that are left are all the units. *)
Lemma round_split l dups accepted ks :
  taken_inv l dups accepted ks ->
  (Z.to_nat <$> ks) ≡ₚ filter (fun k => is_left accepted k = false) (seq 0 (length (kept l))).
Proof.
  intros Htk. pose proof (tk_range _ _ _ _ Htk) as Hr. rewrite Forall_forall in Hr.
  apply NoDup_Permutation.
  - apply NoDup_fmap_2_strong; [|apply Htk]. intros x y Hx%list_elem_of_In Hy%list_elem_of_In E.
    apply Hr in Hx, Hy. simpl in *. lia.
  - apply list.NoDup_filter. apply NoDup_seq.
  - intros x. rewrite list_elem_of_fmap, list_elem_of_filter, elem_of_seq. unfold is_left.
    rewrite bool_decide_eq_false, (tk_accepted _ _ _ _ Htk). split.
    + intros (k & -> & Hk). pose proof (Hr k (proj1 (list_elem_of_In _ _) Hk)) as Hk'. simpl in Hk'.
      rewrite Z2Nat.id by lia. split; [tauto|lia].
    + intros [Hx Hlt]. exists (Z.of_nat x). split; [lia|]. by apply dec_stable.
Qed.

Lemma order_round_ok canon src :
  exists us rest more, order_round canon src = Ok (canon ++ us, rest, more) /\
    us ++ rest ≡ₚ kept src /\ (more = true -> (length rest < length (kept src))%nat).
Proof.
  pose proof (tables_of_ok src) as Ht. unfold order_round. set (t := foldl collect no_tables src) in *.
  destruct (round_path src t Ht) as (v0 & v & p & -> & Hlen & Hv & Hp & Hne).
  rewrite bind_Ok, Hlen, bind_Ok.
  destruct (accept_ok src t p (Z.to_nat (Zlen p - 1)) 0 v {[ct t := 1]} ∅ canon []) as
    (dups & accepted & ks & good & Hacc & Htk); try done.
  { destruct p; [done|]. simpl. lia. }
  { split; [constructor|constructor| |].
    - intros k. rewrite (tb_ct _ _ Ht), lookup_singleton_None.
      split; [intros; split; [done|apply not_elem_of_nil]|intros [? _]; done].
    - intros k. rewrite lookup_empty. split; [intros; apply not_elem_of_nil|done]. }
  unfold numbered in Hacc at 1. simpl in Hacc. rewrite app_nil_r in Hacc. rewrite Hacc, bind_Ok.
  destruct (leftover_ok src t accepted [] src Ht eq_refl) as (omit & Hleft & Homit).
  change (length (kept [])) with 0%nat in *. change (Zlen []) with 0 in Hleft. rewrite Hleft.
  set (left := filter (fun k => is_left accepted k = true) (seq 0 (length (kept src)))) in *.
  set (gone := filter (fun k => is_left accepted k = false) (seq 0 (length (kept src)))) in *.
  assert (seq 0 (length (kept src)) ≡ₚ left ++ gone) as Hsplit by apply filter_split.
  eexists _, _, _. split; [done|].
  assert (numbered src ks ++ omap (fun k => kept src !! k) left ≡ₚ kept src) as Hperm.
  { assert (numbered src ks = omap (fun k => kept src !! k) (Z.to_nat <$> ks)) as ->.
    { unfold numbered. clear. induction ks as [|k ks IH]; [done|]. simpl. destruct (kept src !! Z.to_nat k); [f_equal|]; exact IH. }
    rewrite (round_split _ _ _ _ Htk). fold gone. rewrite <- omap_app, (Permutation_app_comm gone).
    rewrite <- Hsplit. apply reflexive_eq. exact (omap_lookup_seq [] (kept src)). }
  split; [done|]. intros [_ Hm%negb_true_iff%Z.eqb_neq]%andb_true_iff.
  apply Permutation_length in Hperm. apply Permutation_length in Hsplit.
  rewrite length_seq, length_app in Hsplit.
  assert (length (omap (fun k => kept src !! k) left) <= length left)%nat as Hle by apply length_omap_le.
  lia.
Qed.

Lemma kept_kept us rest src : us ++ rest ≡ₚ kept src -> kept rest = rest.
Proof.
  intros Hp. assert (Forall (fun u => deleted u = false) rest) as Hf.
  { apply Forall_forall. intros u Hu%list_elem_of_In.
    assert (u ∈ kept src) as [? _]%list_elem_of_filter; [|done].
    rewrite <- Hp. apply elem_of_app. by right. }
  by apply filter_all.
Qed.

Lemma order_rounds_ok (fuel : nat) canon src :
  (length (kept src) <= fuel)%nat ->
  exists us rest, order_rounds fuel canon src = Ok (canon ++ us, rest) /\ us ++ rest ≡ₚ kept src.
Proof.
  revert canon src. induction fuel as [|fuel IH]; intros canon src Hf; cbn [order_rounds];
    destruct (order_round_ok canon src) as (us & rest & more & -> & Hp & Hm); rewrite bind_Ok;
    (destruct more; [|by exists us, rest]); specialize (Hm eq_refl); [lia|].
  pose proof (kept_kept _ _ _ Hp) as Hk.
  destruct (IH (canon ++ us) rest) as (us2 & rest2 & -> & Hp2); [rewrite Hk; lia|].
  exists (us ++ us2), rest2. rewrite app_assoc. split; [done|].
  by rewrite <- app_assoc, Hp2, Hk.
Qed.

(** Ordering permutes the units, and always ends. *)
Lemma order_units_ok units : exists us, order_units units = Ok us /\ us ≡ₚ units.
Proof.
  unfold order_units. destruct (order_rounds_ok (length units) [] units) as (us & rest & -> & Hp).
  { apply length_filter. }
  rewrite bind_Ok. eexists. split; [done|]. rewrite (kept_kept _ _ _ Hp). simpl.
  rewrite app_assoc, Hp, (Permutation_app_comm (kept units)). symmetry. apply filter_split.
Qed.
End Lattice.

(** ** The two sides of the units *)

Definition locals (units : list MatchUnit) : list Z := filter (fun x => 0 <= x) (localUnit <$> units).
Definition remotes (units : list MatchUnit) : list Z := filter (fun x => 0 <= x) (remoteUnit <$> units).

#[local] Instance locals_proper : Proper ((≡ₚ) ==> (≡ₚ)) locals.
Proof. intros u u' Hu. unfold locals. by rewrite Hu. Qed.
#[local] Instance remotes_proper : Proper ((≡ₚ) ==> (≡ₚ)) remotes.
Proof. intros u u' Hu. unfold remotes. by rewrite Hu. Qed.

Section Sides.
Context (la lb ra rb : list Z) (Hl : pairing la lb) (Hr : pairing ra rb).

Lemma localUnit_unit_of l : localUnit (unit_of lb ra l) = l.
Proof. unfold unit_of. by repeat case_match. Qed.

Lemma remoteUnit_unit_of l r :
  0 <= l -> 0 <= r ->
  remoteUnit (unit_of lb ra l) = r <-> 0 <= look rb r /\ look la (look rb r) = l.
Proof using Hl Hr.
  intros H0l H0r. unfold unit_of.
  assert (0 <= look lb l -> look ra (look lb l) = r -> 0 <= look rb r /\ look la (look rb r) = l) as Hto.
  { intros Hp E. apply Hr in E; [|done..]. rewrite E. split; [done|]. by apply Hl. }
  assert (0 <= look rb r /\ look la (look rb r) = l -> look lb l = look rb r /\ look ra (look lb l) = r)
    as Hfrom.
  { intros [Hp E]. apply Hl in E; [|done..]. split; [done|]. rewrite E. by apply Hr. }
  destruct (Z.eqb_spec (look lb l) (-1)) as [E|E]; simpl.
  { split; [lia|]. intros H. destruct (Hfrom H). lia. }
  destruct (Z.eqb_spec (look ra (look lb l)) (-1)) as [E2|E2]; simpl.
  { split; [lia|]. intros H. destruct (Hfrom H). lia. }
  split; [|intros H; by apply Hfrom]. intros E3. apply Hto; [|done].
  assert (0 <= look lb l < Zlen ra); [apply look_nonneg; lia|lia].
Qed.

Lemma locals_merged : locals (merged_units lb ra rb) = seqZ 0 (Zlen lb).
Proof.
  unfold locals, merged_units. rewrite fmap_app, list.filter_app, <- !list_fmap_compose.
  assert (filter (fun x => 0 <= x) ((localUnit ∘ insert_of) <$>
    filter (fun r => look rb r = -1) (seqZ 0 (Zlen rb))) = []) as ->.
  { generalize (filter (fun r => look rb r = -1) (seqZ 0 (Zlen rb))) as rs.
    intros rs. induction rs as [|r rs IH]; [done|]. rewrite fmap_cons, filter_cons_False; [done|].
    by intros []. }
  rewrite app_nil_r, (list_fmap_ext _ id), list_fmap_id by (intros; apply localUnit_unit_of).
  apply filter_all, Forall_forall. intros x Hx%list_elem_of_In%elem_of_seqZ. lia.
Qed.

Lemma elem_remotes_merged r :
  r ∈ remotes (merged_units lb ra rb) <->
  0 <= r < Zlen rb /\ (look rb r = -1 \/ 0 <= look rb r /\ 0 <= look la (look rb r)).
Proof using Hl Hr.
  unfold remotes, merged_units. rewrite list_elem_of_filter, list_elem_of_fmap. split.
  - intros [H0 (u & -> & [(l & -> & Hin%elem_of_seqZ)%list_elem_of_fmap|
      (r' & -> & [E Hin%elem_of_seqZ]%list_elem_of_filter)%list_elem_of_fmap]%elem_of_app)].
    + set (r1 := remoteUnit (unit_of lb ra l)) in *.
      destruct (proj1 (remoteUnit_unit_of l r1 ltac:(lia) H0) eq_refl) as [Hp Hq].
      pose proof (look_nonneg rb r1 Hp). split; [lia|]. right. lia.
    + simpl in *. split; [lia|by left].
  - intros [H0 [E|[Hp Hq]]]; (split; [lia|]).
    + exists (insert_of r). split; [done|]. apply elem_of_app. right. apply list_elem_of_fmap.
      exists r. split; [done|]. apply list_elem_of_filter. split; [done|]. apply elem_of_seqZ. lia.
    + set (l := look la (look rb r)). exists (unit_of lb ra l). split.
      * symmetry. apply remoteUnit_unit_of; done || lia.
      * apply elem_of_app. left. apply list_elem_of_fmap. exists l. split; [done|].
        pose proof (pairing_range la lb (look rb r) l Hl Hp Hq eq_refl). apply elem_of_seqZ. lia.
Qed.

Lemma NoDup_remotes_merged : NoDup (remotes (merged_units lb ra rb)).
Proof using Hl Hr.
  unfold remotes, merged_units. rewrite fmap_app, list.filter_app. apply list.NoDup_app. split_and!.
  - assert (NoDup (seqZ 0 (Zlen lb))) as Hnd by apply NoDup_seqZ.
    assert (Forall (fun x => 0 <= x) (seqZ 0 (Zlen lb))) as Hf
      by (apply Forall_forall; intros x Hx%list_elem_of_In%elem_of_seqZ; lia).
    induction Hf as [|l ls Hl0 Hf IH]; [apply NoDup_nil_2|]. apply list.NoDup_cons in Hnd as [Hni Hnd].
    rewrite !fmap_cons, filter_cons. case_decide as H0; [|by apply IH].
    apply list.NoDup_cons. split; [|by apply IH].
    intros [_ (u & Hu & (l' & -> & Hl')%list_elem_of_fmap)%list_elem_of_fmap]%list_elem_of_filter.
    apply Hni. rewrite Forall_forall in Hf. pose proof (Hf l' (proj1 (list_elem_of_In _ _) Hl')) as H0'.
    simpl in H0'. set (r := remoteUnit (unit_of lb ra l)) in *.
    destruct (proj1 (remoteUnit_unit_of l r Hl0 H0) eq_refl) as [_ E1].
    destruct (proj1 (remoteUnit_unit_of l' r H0' H0) (eq_sym Hu)) as [_ E2]. congruence.
  - intros r [H0 (u & -> & (l & -> & Hin%elem_of_seqZ)%list_elem_of_fmap)%list_elem_of_fmap]%list_elem_of_filter.
    set (r1 := remoteUnit (unit_of lb ra l)) in *.
    destruct (proj1 (remoteUnit_unit_of l r1 ltac:(lia) H0) eq_refl) as [Hp _].
    intros [_ (u & Hu & (r' & -> & [E _]%list_elem_of_filter)%list_elem_of_fmap)%list_elem_of_fmap]%list_elem_of_filter.
    simpl in Hu. rewrite Hu in Hp. lia.
  - apply list.NoDup_filter. rewrite <- list_fmap_compose. apply NoDup_fmap_2_strong; [done|].
    apply list.NoDup_filter, NoDup_seqZ.
Qed.
End Sides.

(** A trimming step that depends on a flag. *)
Lemma trim_if (f : OrderResult -> result OrderResult) (flag : bool) o a b :
  (forall o a b, corresponds o a b -> exists o' a' b', f o = Ok o' /\ corresponds o' a' b' /\
     trimmed a a' /\ trimmed b b') ->
  corresponds o a b ->
  exists o' a' b', (if flag then f o else Ok o) = Ok o' /\ corresponds o' a' b' /\
    (trimmed a a' /\ trimmed b b') /\ (flag = false -> a' = a /\ b' = b).
Proof.
  intros Hf Ho. destruct flag; [|by exists o, a, b].
  destruct (Hf o a b Ho) as (o' & a' & b' & H1 & H2 & H3 & H4). by exists o', a', b'.
Qed.

Lemma corresponds_blen o a b : corresponds o a b -> blen o = Zlen b.
Proof. intros [(z & z' & ->) _]. done. Qed.

(** A correspondence of fewer than five rows, decided by trying all pairs. *)
Lemma look_small (l : list Z) u v :
  Forall (fun x => x < 5) l -> Zlen l <= 5 -> 0 <= u -> 0 <= v -> look l u = v -> u < 5 /\ v < 5.
Proof.
  intros Hl Hll Hu Hv E. assert (0 <= u < Zlen l) as Hr by (apply look_nonneg; lia).
  rewrite look_in in E by done. split; [lia|].
  pose proof (Forall_lookup_1 _ _ _ _ Hl (lookup_cget l u Hr)) as H5. simpl in H5. lia.
Qed.

Lemma pairing_check a b :
  forallb (fun x => forallb (fun y => Bool.eqb (look a x =? y) (look b y =? x)) (seqZ 0 5)) (seqZ 0 5)
    = true ->
  Forall (fun x => x < 5) a -> Forall (fun x => x < 5) b -> Zlen a <= 5 -> Zlen b <= 5 -> pairing a b.
Proof.
  intros Hall Ha Hb Hla Hlb x y Hx Hy. destruct (decide (x < 5 /\ y < 5)) as [[Hx5 Hy5]|Hbig].
  - pose proof (range_forallb 5 _ Hall x (conj Hx Hx5)) as H1.
    pose proof (range_forallb 5 _ H1 y (conj Hy Hy5)) as H2. apply Bool.eqb_prop in H2.
    rewrite <- !Z.eqb_eq. by rewrite H2.
  - split; intros E; [destruct (look_small a x y)|destruct (look_small b y x)]; done || lia.
Qed.

(** ** Claims *)

(** C19. Merging two orders: given correspondences of the pivot's rows with the
    local and with the remote ones, [merge] returns for every combination of
    flags, and its units are those of [merged_units] up to their order.  Every
    local row is in exactly one unit and no remote row is in two; a remote row is
    in a unit exactly when it is new or its pivot row is still in the local sheet,
    so one whose pivot row the local sheet has deleted is in none.  Without
    trimming flags [la'] to [rb'] are the correspondences given; trimming only
    turns unmatched rows at the ends into ignored ones. *)
Theorem merge_accounts {C} `{CostOps C} (nlocal nremote : OrderResult) (la lb ra rb : list Z)
    (flags : order_flags) (columnar : bool) :
  corresponds nlocal la lb -> corresponds nremote ra rb ->
  exists units la' lb' ra' rb',
    merge (C:=C) [] nlocal nremote flags columnar = Ok (units, Zlen (filter both_sides units)) /\
    trimmed la la' /\ trimmed lb lb' /\ trimmed ra ra' /\ trimmed rb rb' /\
    (head_trimmed flags = false -> tail_trimmed flags = false ->
     la' = la /\ lb' = lb /\ ra' = ra /\ rb' = rb) /\
    units ≡ₚ merged_units lb' ra' rb' /\ locals units ≡ₚ seqZ 0 (Zlen lb) /\
    NoDup (remotes units) /\
    forall r, r ∈ remotes units <->
      0 <= r < Zlen rb /\ (look rb' r = -1 \/ 0 <= look rb' r /\ 0 <= look la' (look rb' r)).
Proof.
  intros Hl Hr. unfold merge.
  destruct (trim_if (fun o => trimHead o (-1) (-2)) (head_trimmed flags) _ _ _ trimHead_spec Hl)
    as (lo1 & la1 & lb1 & -> & Hl1 & [Tla1 Tlb1] & El1). rewrite bind_Ok.
  destruct (trim_if (fun o => trimHead o (-1) (-2)) (head_trimmed flags) _ _ _ trimHead_spec Hr)
    as (re1 & ra1 & rb1 & -> & Hr1 & [Tra1 Trb1] & Er1). rewrite bind_Ok.
  destruct (trim_if (fun o => trimTail o (-1) (-2)) (tail_trimmed flags) _ _ _ trimTail_spec Hl1)
    as (lo2 & la2 & lb2 & -> & Hl2 & [Tla2 Tlb2] & El2). rewrite bind_Ok.
  destruct (trim_if (fun o => trimTail o (-1) (-2)) (tail_trimmed flags) _ _ _ trimTail_spec Hr1)
    as (re2 & ra2 & rb2 & -> & Hr2 & [Tra2 Trb2] & Er2). rewrite bind_Ok.
  rewrite (corresponds_blen _ _ _ Hl2), (corresponds_blen _ _ _ Hr2).
  destruct (process_spec lo2 re2 la2 lb2 ra2 rb2 Hl2 Hr2 (TypedSheet_ [] 0 0 0) []) as (w & -> & Hw).
  rewrite bind_Ok.
  assert (exists us, (if use_order flags || columnar then order_units (C:=C) (accum w)
                      else Ok (accum w)) = Ok us /\ us ≡ₚ merged_units lb2 ra2 rb2)
    as (us & -> & Hus).
  { destruct (use_order flags || columnar); [|by eexists].
    destruct (order_units_ok (C:=C) (accum w)) as (us & -> & Hus). exists us. split; [done|]. by rewrite Hus. }
  rewrite bind_Ok. exists us, la2, lb2, ra2, rb2.
  pose proof (co_pairing _ _ _ Hl2) as Pl. pose proof (co_pairing _ _ _ Hr2) as Pr.
  assert (Zlen lb2 = Zlen lb) as Elb by (by rewrite <- (Forall2_length Tlb2), <- (Forall2_length Tlb1)).
  assert (Zlen rb2 = Zlen rb) as Erb by (by rewrite <- (Forall2_length Trb2), <- (Forall2_length Trb1)).
  split_and!; try done; try (by etrans).
  - intros H1 H2. destruct (El1 H1), (Er1 H1), (El2 H2), (Er2 H2). by subst.
  - by rewrite Hus, locals_merged, Elb.
  - rewrite Hus. by apply (NoDup_remotes_merged la2).
  - intros r. rewrite Hus, (elem_remotes_merged la2), Erb by done. done.
Qed.

(** Pivot rows 0 to 2; locally row 2 is gone and one is new, remotely the order is
    reversed and one is new. *)
Lemma merge_accounts_witness :
  let local := OrderResult_ (of_column [0; 2; -1] 0) (of_column [0; -1; 1] 0) in
  let remote := OrderResult_ (of_column [2; 1; 0] 0) (of_column [2; 1; 0; -1] 0) in
  exists units, merge (C:=Z) [] local remote (OrderFlags false false true) false = Ok (units, 2) /\
    locals units ≡ₚ [0; 1; 2] /\ NoDup (remotes units) /\ 3 ∈ remotes units.
Proof.
  destruct (merge_accounts (C:=Z) (OrderResult_ (of_column [0; 2; -1] 0) (of_column [0; -1; 1] 0))
      (OrderResult_ (of_column [2; 1; 0] 0) (of_column [2; 1; 0; -1] 0)) [0; 2; -1] [0; -1; 1] [2; 1; 0]
      [2; 1; 0; -1] (OrderFlags false false true) false)
    as (units & la & lb & ra & rb & Hm & _ & _ & _ & _ & He & _ & Hloc & Hnd & Hrem).
  - split; [by eexists _, _|]. apply pairing_check; repeat constructor; simpl; done || lia.
  - split; [by eexists _, _|]. apply pairing_check; repeat constructor; simpl; done || lia.
  - destruct He as (-> & -> & -> & ->); [done|done|]. exists units. split_and!; [|exact Hloc|exact Hnd|].
    + rewrite Hm. f_equal. f_equal. revert Hm. vm_compute. congruence.
    + apply Hrem. split; [simpl; lia|by left].
Defined.
