(* ===== verification/Measure.v ===== *)
(** * Measures of likeness

    Models the data the comparison of two sheets works on: single and double
    precision numbers, the views of the sheets ([include/coopy/SheetView.h]), the
    passes ([include/coopy/MeasurePass.h]) and the interface of what fills them
    ([include/coopy/Measure.h]).

    - A [float] is a binary32 number and a [double] a binary64 one of the Standard
      Library's [SpecFloat], which rounds as IEEE 754 does.  An operator applied to a
      [float] and a [double] converts the [float] first; an assignment to a [float]
      rounds.
    - A [DataSheet] is what the comparison reads of one: its size and its cells.
    - The sniffer of a view is asked for its names once it has sniffed, and for the
      columns of its identifiers. *)

From Stdlib Require Import SpecFloat.
From stdpp Require Import gmap sorting.
From S2P Require Import Prelude Sheet Viterbi OrderMerge.
#[local] Open Scope Z_scope.

(** ** Loops *)

(** A [for] loop that can fail. *)
Fixpoint foldR {A S} (f : S -> A -> result S) (l : list A) (s : S) : result S :=
  match l with
  | [] => Ok s
  | x :: l => s ← f s x; foldR f l s
  end.

(** The elements of a [std::set<int>], in the order of its iterators. *)
Definition set_elements (s : gset Z) : list Z := merge_sort Z.le (elements s).

(** ** Numbers *)

Abbreviation float := spec_float.

(** The nearest number of another format. *)
Definition convert (prec emax : Z) (x : float) : float :=
  match x with
  | S754_finite sgn m e => binary_normalize prec emax (cond_Zopp sgn (Zpos m)) e sgn
  | _ => x
  end.
Definition to_f32 : float -> float := convert 24 128.
Definition to_f64 : float -> float := convert 53 1024.
Definition f32_of_Z (z : Z) : float := binary_normalize 24 128 z 0 false.
Definition f64_of_Z (z : Z) : float := binary_normalize 53 1024 z 0 false.
Definition f32_add : float -> float -> float := SFadd 24 128.
Definition f32_mul : float -> float -> float := SFmul 24 128.
Definition f64_add : float -> float -> float := SFadd 53 1024.
Definition f64_mul : float -> float -> float := SFmul 53 1024.
Definition f64_div : float -> float -> float := SFdiv 53 1024.
Definition f64_sqrt : float -> float := SFsqrt 53 1024.
(** A decimal constant [a / b]: the nearest double. *)
Definition f64_const (a b : Z) : float := f64_div (f64_of_Z a) (f64_of_Z b).

(** The costs of the lattice are [float]s. *)
#[export] Instance float_CostOps : CostOps float :=
  {| czero := f32_of_Z 0; cone := f32_of_Z 1; cadd := f32_add; cltb := SFltb |}.

Abbreviation SparseFloatSheet := (SparseSheet float).

(** [rescale] and [offset] of a [SparseFloatSheet]. *)
Definition map_cells (f : float -> float) (m : SparseFloatSheet) : SparseFloatSheet :=
  Sparse (f <$> sp_data m) (sp_row m) (sp_col m) (sp_h m) (sp_w m) (sp_zero m).
Definition rescale (m : SparseFloatSheet) (factor : float) : SparseFloatSheet :=
  map_cells (fun x => to_f32 (f64_mul (to_f64 x) factor)) m.
Definition offset (m : SparseFloatSheet) (d : float) : SparseFloatSheet :=
  map_cells (fun x => to_f32 (f64_add (to_f64 x) d)) m.

(** [match.cell(x,y) += d]. *)
Definition bump_cell (m : SparseFloatSheet) (x y : Z) (d : float) : SparseFloatSheet :=
  let '(v, m) := SparseS.sp_cell m x y in SparseS.sp_set m x y (f32_add v d).

Record Stat := Stat_ { mean : float; stddev : float; stat_valid : bool }.

(** ** Sheets and views *)

Record DataSheet := DataSheet_ {
  width : Z;
  height : Z;
  ds_text : Z -> Z -> result (list Z);
  ds_summary : Z -> Z -> result pcell
}.

(** The sheet of a view, the names and the identifying columns its sniffer found,
    and the hash of the sheet, empty if it has none. *)
Record SheetView := SheetView_ {
  sheet : DataSheet;
  suggestNames : list (list Z);
  getSubset : list Z;
  sha1 : list Z
}.

(** A [CsvSheet] as a [DataSheet]. *)
Definition csv_view (sh : CsvSheet) : DataSheet :=
  DataSheet_ (w (s sh)) (h (s sh)) (fun x y => c ← CsvS.cellString sh x y; Ok c.1) (CsvS.cellString sh).

(** ** Passes *)

Record MeasurePass := MeasurePass_ {
  va : SheetView;
  vb : SheetView;
  asel : TypedSheet Z;
  bsel : TypedSheet Z;
  pmatch : SparseFloatSheet;
  bound : Z
}.

Definition new_pass (va vb : SheetView) : MeasurePass :=
  MeasurePass_ va vb (TypedSheet_ [] 0 0 0) (TypedSheet_ [] 0 0 0) (SparseS.sp_create (f32_of_Z 0)) (-1).
Definition set_match (p : MeasurePass) (m : SparseFloatSheet) : MeasurePass :=
  MeasurePass_ (va p) (vb p) (asel p) (bsel p) m (bound p).
Definition set_sel (p : MeasurePass) (a b : TypedSheet Z) : MeasurePass :=
  MeasurePass_ (va p) (vb p) a b (pmatch p) (bound p).
Definition pass_setSize (p : MeasurePass) (alen blen : Z) : MeasurePass :=
  MeasurePass_ (va p) (vb p) (Typed.resize (asel p) 1 alen (-1)) (Typed.resize (bsel p) 1 blen (-1))
    (SparseS.sp_resize (pmatch p) alen blen (f32_of_Z 0)) (bound p).
Definition clearMatch (p : MeasurePass) : MeasurePass :=
  set_match p (SparseS.sp_resize (pmatch p) (sp_w (pmatch p)) (sp_h (pmatch p)) (f32_of_Z 0)).
Definition getOrder (p : MeasurePass) : OrderResult := OrderResult_ (asel p) (bsel p).

(** A unit of [flatten]: the likeness of unit [y] with itself is exchanged with the
    first cell of its row, and the units that are not matched yet are summed up:
    [mean], [var] and [ct]. *)
Definition flatten_unit (sel : TypedSheet Z) (st : SparseFloatSheet * float * float * Z) (y : Z) :
    result (SparseFloatSheet * float * float * Z) :=
  let '(m, mean, var, ct) := st in
  if y <? sp_w m then
    let tmp := SparseS.cell_const m y y in
    let tmp2 := SparseS.cell_const m 0 y in
    if SFleb (f64_const (-1) 10000) (to_f64 tmp2) then
      let m := SparseS.sp_set m y y tmp2 in
      let m := SparseS.sp_set m 0 y tmp in
      x ← Typed.cell sel 0 y;
      if x =? -1
      then Ok (m, f64_add mean (to_f64 tmp), f64_add var (to_f64 (f32_mul tmp tmp)), ct + 1)
      else Ok (m, mean, var, ct)
    else Ok st
  else Ok st.
Definition flatten (p : MeasurePass) : result (Stat * MeasurePass) :=
  '(m, mean, var, ct) ← foldR (flatten_unit (asel p)) (seqZ 0 (sp_h (pmatch p)))
                          (pmatch p, f64_of_Z 0, f64_of_Z 0, 0);
  let '(mean, var) :=
    if ct >? 0 then (f64_div mean (f64_of_Z ct), f64_div var (f64_of_Z ct)) else (mean, var) in
  Ok (Stat_ mean (f64_sqrt var) (ct >=? 10), set_match p m).

(** ** Measures *)

(** What [MeasureMan] calls of a measure, an object with state [S]. *)
Class Measure (S : Type) := {
  setup : S -> MeasurePass -> result (S * MeasurePass);
  measure : S -> MeasurePass -> Z -> result (S * MeasurePass);
  getCtrlMax : S -> Z
}.

(** The correspondence a measure is given: an [OrderResult] or an
    [IdentityOrderResult]. *)
Inductive comparison_order := Ordered (o : OrderResult) | IdentityOrder.
Definition comp_a2b (o : comparison_order) (x : Z) : result Z :=
  match o with Ordered o => a2b o x | IdentityOrder => Ok x end.
Definition comp_b2a (o : comparison_order) (x : Z) : result Z :=
  match o with Ordered o => b2a o x | IdentityOrder => Ok x end.
Definition isBlank (o : comparison_order) : bool :=
  match o with Ordered o => (alen o =? 0) && (blen o =? 0) | IdentityOrder => false end.
