(* ===== verification/RowMan.v ===== *)
(** * Likeness of rows and of columns

    Models the features of texts and where they occur ([include/coopy/FVal.h],
    [include/coopy/FMap.h]), the measure of the rows of two sheets
    ([include/coopy/RowMan.h]) and that of their columns ([ColMan.cpp],
    [include/coopy/ColMan.h]).

    - [efficient_map<Feature,FVal>] is a [gmap]; the [FVal] classes are instances of
      the class [FVal].  The counter [ct] and [summarize] write only to the log.
    - The sheet a [FPolyMap] refers to, [rowMatch], is part of its state here; that of
      a [RowManOf] is its member [match], that of the maps of [ColMan] the pass's.
    - [setBound] and [setVigor] are called nowhere; their effects are modelled. *)

From Stdlib Require Import SpecFloat.
From stdpp Require Import gmap.
From S2P Require Import Prelude Sheet CsvFile Viterbi OrderMerge Measure.
#[local] Open Scope Z_scope.
#[local] Arguments cstr s%_string.

(** ** FVal *)

Class FVal (V : Type) := {
  fv_new : V;
  fv_setIndex : V -> Z -> bool -> V;
  fv_apply : V -> SparseFloatSheet -> Z -> SparseFloatSheet
}.

(** One place of a feature on either side; -2 if there is more than one. *)
Record FSingleVal := FSingleVal_ { fs_index : Z; fs_index2 : Z }.
Definition single_setIndex (v : FSingleVal) (idx : Z) (alt : bool) : FSingleVal :=
  if alt then
    if fs_index2 v =? -1 then FSingleVal_ (fs_index v) idx
    else if negb (fs_index2 v =? idx) then FSingleVal_ (-2) (-2) else v
  else
    if fs_index v =? -1 then FSingleVal_ idx (fs_index2 v)
    else if negb (fs_index v =? idx) then FSingleVal_ (-2) (-2) else v.
Definition single_apply (v : FSingleVal) (m : SparseFloatSheet) (row : Z) : SparseFloatSheet :=
  if fs_index v >=? 0 then bump_cell m (fs_index v) row (f32_of_Z 1) else m.
#[export] Instance FSingleVal_FVal : FVal FSingleVal :=
  {| fv_new := FSingleVal_ (-1) (-1); fv_setIndex := single_setIndex; fv_apply := single_apply |}.

(** Up to fifty places on either side. *)
Record FMultiVal := FMultiVal_ { fm_indices : gset Z; fm_indices2 : gset Z }.
Definition multi_setIndex (v : FMultiVal) (idx : Z) (alt : bool) : FMultiVal :=
  if alt then
    if (size (fm_indices2 v) <? 50)%nat then FMultiVal_ (fm_indices v) ({[idx]} ∪ fm_indices2 v) else v
  else
    if (size (fm_indices v) <? 50)%nat then FMultiVal_ ({[idx]} ∪ fm_indices v) (fm_indices2 v) else v.
Definition multi_apply (v : FMultiVal) (m : SparseFloatSheet) (row : Z) : SparseFloatSheet :=
  let len := Z.of_nat (size (fm_indices v)) in
  let len2 := Z.of_nat (size (fm_indices2 v)) in
  let len := if len2 >? len then len2 else len in
  if len <=? 0 then m else if len >=? 50 then m else
  let delta := to_f32 (f64_div (f64_of_Z 1) (f64_of_Z len)) in
  foldl (fun m x => bump_cell m x row delta) m (set_elements (fm_indices v)).
#[export] Instance FMultiVal_FVal : FVal FMultiVal :=
  {| fv_new := FMultiVal_ ∅ ∅; fv_setIndex := multi_setIndex; fv_apply := multi_apply |}.

(** ** FPolyMap *)

Section FPolyMap.
Context {V : Type} `{FVal V}.

Record FPolyMap := FPolyMap_ { fp_f : gmap (list Z) V; rowMatch : SparseFloatSheet }.

(** [xcurr] is never read; [y] is [ycurr]. *)
Definition queryBit (m : FPolyMap) (y : Z) (txt : list Z) : FPolyMap :=
  match fp_f m !! txt with
  | Some v => FPolyMap_ (fp_f m) (fv_apply v (rowMatch m) y)
  | None => m
  end.
Definition addBit (m : FPolyMap) (y : Z) (txt : list Z) (alt : bool) : FPolyMap :=
  match fp_f m !! txt with
  | Some v => FPolyMap_ (<[txt := fv_setIndex v y alt]> (fp_f m)) (rowMatch m)
  | None => if alt then m
            else FPolyMap_ (<[txt := fv_setIndex fv_new y alt]> (fp_f m)) (rowMatch m)
  end.
Definition applyBit (m : FPolyMap) (y : Z) (bit : list Z) (query alt : bool) : FPolyMap :=
  if query then queryBit m y bit else addBit m y bit alt.

(** [substr(i,n)]: a start beyond the end is an exception. *)
Definition substr (t : list Z) (i n : Z) : result (list Z) :=
  _ ← check ((0 <=? i) && (i <=? Zlen t)) OutOfBounds; Ok (slice t i n).

(** The loop over [i] for one length [k]. *)
Definition add_parts (txt txt_low : list Z) (y : Z) (query alt : bool) (m : FPolyMap) (k : Z) :
    result FPolyMap :=
  foldR (fun m i =>
      part ← substr txt i (k + 1);
      let m := applyBit m y part query alt in
      if bool_decide (txt_low <> txt) then
        low ← substr txt_low i (k + 1);
        Ok (if bool_decide (low <> part) then applyBit m y low query alt else m)
      else Ok m)
    (seqZ 0 (Zlen txt - k)) m.
Definition feature_add (m : FPolyMap) (y : Z) (txt : list Z) (query alt : bool) (ctrl : Z) : result FPolyMap :=
  let m := applyBit m y txt query alt in
  if negb (ctrl =? 0) then
    let txt := cstr "^" ++ txt ++ cstr "$" in
    let base := 8 - ctrl * 2 in
    foldR (add_parts txt (tolower <$> txt) y query alt)
      ((fun n => base + 2 * n) <$> seqZ 0 (ctrl + 1)) m
  else Ok m.
Definition fmap_ctrlMax : Z := 4.
Definition resetCache (m : FPolyMap) : FPolyMap := FPolyMap_ ∅ (rowMatch m).
End FPolyMap.
Arguments FPolyMap V : clear implicits.

(** ** RowManOf *)

(** The members of [CompareFlags] the measures look at. *)
Record id_flags := IdFlags { trust_ids : bool; bias_ids : bool }.

Section RowMan.
Context {V : Type} `{FVal V}.

Record RowManOf := RowManOf_ {
  rm_flags : id_flags;
  vigor : Z;
  rm_bound : Z;
  rm_map : FPolyMap V;
  ref_subset : list Z;
  query_subset : list Z;
  rm_comp : comparison_order
}.

Definition new_rowman (flags : id_flags) (comp : comparison_order) : RowManOf :=
  RowManOf_ flags 0 (-1) (FPolyMap_ ∅ (SparseS.sp_create (f32_of_Z 0))) [] [] comp.
Definition with_map (r : RowManOf) (m : FPolyMap V) : RowManOf :=
  RowManOf_ (rm_flags r) (vigor r) (rm_bound r) m (ref_subset r) (query_subset r) (rm_comp r).

Definition rowman_setup (r : RowManOf) (p : MeasurePass) : RowManOf * MeasurePass :=
  let r := if trust_ids (rm_flags r) || bias_ids (rm_flags r)
           then RowManOf_ (rm_flags r) (vigor r) (rm_bound r) (rm_map r) (getSubset (va p))
                  (getSubset (vb p)) (rm_comp r)
           else r in
  (r, pass_setSize p (height (sheet (va p))) (height (sheet (vb p)))).

(** The cells of row [y] in the columns [xs], one feature each. *)
Definition add_cells (a : DataSheet) (y : Z) (query alt : bool) (ctrl : Z) (xs : list Z)
    (m : FPolyMap V) : result (FPolyMap V) :=
  foldR (fun m x => txt ← ds_text a x y; feature_add m y txt query alt ctrl) xs m.
(** The key of a row: the texts of the columns [xs], each followed by [__]. *)
Definition ids_key (a : DataSheet) (y : Z) (xs : list Z) : result (list Z) :=
  foldR (fun txt x => t ← ds_text a x y; Ok (txt ++ t ++ cstr "__")) xs [].

(** A row of the first loop of [apply]: the map and [at]. *)
Definition apply_row (r : RowManOf) (a : DataSheet) (sel : TypedSheet Z) (target : Z)
    (query alt : bool) (ctrl top : Z) (st : FPolyMap V * Z) (y : Z) : result (FPolyMap V * Z) :=
  let '(m, at_) := st in
  let subset := if query then query_subset r else ref_subset r in
  x ← Typed.cell sel 0 y;
  if x =? -1 then
    if at_ <? top then
      m ← (if negb (trust_ids (rm_flags r)) then
             if negb (bias_ids (rm_flags r))
             then add_cells a y query alt ctrl
                    (if target =? -1 then seqZ 0 (width a) else [target]) m
             else add_cells a y query alt ctrl subset m
           else txt ← ids_key a y subset; feature_add m y txt query alt 0);
      Ok (m, at_ + 1)
    else Ok (FPolyMap_ (fp_f m) (SparseS.sp_set (rowMatch m) 0 y (f32_of_Z (-2))), at_)
  else Ok (m, at_).
(** A row of the second loop: the pairs of adjacent cells. *)
Definition apply_pairs (a : DataSheet) (sel : TypedSheet Z) (query alt : bool) (ctrl : Z)
    (m : FPolyMap V) (y : Z) : result (FPolyMap V) :=
  c ← Typed.cell sel 0 y;
  if c >=? -1 then
    foldR (fun m x => t ← ds_text a x y; u ← ds_text a (x + 1) y; feature_add m y (t ++ u) query alt ctrl)
      (seqZ 0 (width a - 1)) m
  else Ok m.
Definition apply_sheet (r : RowManOf) (a : DataSheet) (sel : TypedSheet Z) (target : Z)
    (query alt : bool) (ctrl : Z) : result RowManOf :=
  let top := if rm_bound r <? 0 then height a else rm_bound r in
  '(m, _) ← foldR (apply_row r a sel target query alt ctrl top) (seqZ 0 (height a)) (rm_map r, 0);
  m ← (if vigor r =? 1 then foldR (apply_pairs a sel query alt ctrl) (seqZ 0 (height a)) m else Ok m);
  Ok (with_map r m).

(** A column of the mapping, in the other [apply]. *)
Definition apply_column (a b : DataSheet) (asel bsel : TypedSheet Z) (ctrl : Z) (r : RowManOf) (i : Z) :
    result RowManOf :=
  j ← comp_a2b (rm_comp r) i;
  if negb (j =? -1) then
    let r := with_map r (resetCache (rm_map r)) in
    r ← apply_sheet r a asel i false false ctrl;
    r ← apply_sheet r b bsel j false true ctrl;
    apply_sheet r b bsel j true false ctrl
  else Ok r.
Definition apply_sheets (r : RowManOf) (a b : DataSheet) (asel bsel : TypedSheet Z) (ctrl : Z) :
    result RowManOf :=
  let r := with_map r (FPolyMap_ (fp_f (rm_map r))
             (SparseS.sp_resize (rowMatch (rm_map r)) (height a) (height b) (f32_of_Z 0))) in
  if trust_ids (rm_flags r) || bias_ids (rm_flags r) || isBlank (rm_comp r) then
    r ← apply_sheet r a asel (-1) false false ctrl;
    apply_sheet r b bsel (-1) true false ctrl
  else foldR (apply_column a b asel bsel ctrl) (seqZ 0 (width a)) r.

Definition rowman_measure (r : RowManOf) (p : MeasurePass) (ctrl : Z) : result (RowManOf * MeasurePass) :=
  let r := RowManOf_ (rm_flags r) (vigor r) (bound p) (rm_map r) (ref_subset r) (query_subset r)
             (rm_comp r) in
  r ← apply_sheets r (sheet (va p)) (sheet (vb p)) (asel p) (bsel p) ctrl;
  Ok (r, set_match p (rowMatch (rm_map r))).
End RowMan.
Arguments RowManOf V : clear implicits.

(** ** CombinedRowMan *)

Record CombinedRowMan := CombinedRowMan_ { man1 : RowManOf FSingleVal; man2 : RowManOf FMultiVal }.
Definition new_combined (flags : id_flags) (comp : comparison_order) : CombinedRowMan :=
  CombinedRowMan_ (new_rowman flags comp) (new_rowman flags comp).
Definition theta : Z := Z.quot fmap_ctrlMax 2.

Definition combined_setup (r : CombinedRowMan) (p : MeasurePass) : result (CombinedRowMan * MeasurePass) :=
  let '(m1, p) := rowman_setup (man1 r) p in Ok (CombinedRowMan_ m1 (man2 r), p).
Definition combined_measure (r : CombinedRowMan) (p : MeasurePass) (ctrl : Z) :
    result (CombinedRowMan * MeasurePass) :=
  if ctrl >=? theta
  then '(m2, p) ← rowman_measure (man2 r) p (ctrl - theta); Ok (CombinedRowMan_ (man1 r) m2, p)
  else '(m1, p) ← rowman_measure (man1 r) p ctrl; Ok (CombinedRowMan_ m1 (man2 r), p).
#[export] Instance CombinedRowMan_Measure : Measure CombinedRowMan :=
  {| setup := combined_setup; measure := combined_measure; getCtrlMax _ := fmap_ctrlMax |}.

(** ** ColMan *)

Record ColMan := ColMan_ { cm_comp : comparison_order }.

Definition colman_setup (c : ColMan) (p : MeasurePass) : result (ColMan * MeasurePass) :=
  Ok (c, pass_setSize p (width (sheet (va p))) (width (sheet (vb p)))).

(** The units 0, 1, ... with the texts [ts] of each. *)
Definition add_units (query alt : bool) (text : Z -> result (list Z)) (n : Z) (m : FPolyMap FMultiVal) :
    result (FPolyMap FMultiVal) :=
  foldR (fun m i => t ← text i; feature_add m i t query alt fmap_ctrlMax) (seqZ 0 n) m.

(** The names of the columns are compared if the sniffers found all of them. *)
Definition name_features (p : MeasurePass) : result MeasurePass :=
  let wa := width (sheet (va p)) in
  let wb := width (sheet (vb p)) in
  let anames := suggestNames (va p) in
  let bnames := suggestNames (vb p) in
  if (Zlen anames =? wa) && (Zlen bnames =? wb) then
    m ← add_units false false (rd anames) wa (FPolyMap_ ∅ (pmatch p));
    m ← add_units false true (rd bnames) wb m;
    m ← add_units true false (rd bnames) wb m;
    Ok (set_match p (rowMatch m))
  else Ok p.
(** The rows that correspond: [aa] and [bb]. *)
Definition row_pairs (comp : comparison_order) (hb : Z) : result (list (Z * Z)) :=
  foldR (fun acc rb => ra ← comp_b2a comp rb;
                       Ok (if negb (ra =? -1) then acc ++ [(ra, rb)] else acc))
    (seqZ 0 hb) [].
(** The features of two rows that correspond. *)
Definition row_features (p : MeasurePass) (ra rb : Z) : result MeasurePass :=
  let a := sheet (va p) in
  let b := sheet (vb p) in
  m ← add_units false false (fun i => ds_text a i ra) (width a) (FPolyMap_ ∅ (pmatch p));
  m ← add_units false true (fun j => ds_text b j rb) (width b) m;
  m ← add_units true false (fun j => ds_text b j rb) (width b) m;
  Ok (set_match p (rowMatch m)).
(** The names of either side against the cells of the other. *)
Definition header_features (p : MeasurePass) : result MeasurePass :=
  let a := sheet (va p) in
  let b := sheet (vb p) in
  let anames := suggestNames (va p) in
  let bnames := suggestNames (vb p) in
  let m := FPolyMap_ ∅ (pmatch p) in
  m ← (if width a =? Zlen anames then
         m ← add_units false false (rd anames) (width a) m;
         m ← foldR (fun m rb => add_units false true (fun j => ds_text b j rb) (width b) m)
               (seqZ 0 (height b)) m;
         foldR (fun m rb => add_units true false (fun j => ds_text b j rb) (width b) m)
           (seqZ 0 (height b)) m
       else Ok m);
  m ← (if width b =? Zlen bnames then
         m ← foldR (fun m ra => add_units false false (fun i => ds_text a i ra) (width a) m)
               (seqZ 0 (height a)) m;
         m ← add_units false true (rd bnames) (width b) m;
         add_units true false (rd bnames) (width b) m
       else Ok m);
  Ok (set_match p (rowMatch m)).

(** [for (rr=0; rr<hh; rr+=step)]. *)
Definition strides (hh step : Z) : list Z := (fun n => n * step) <$> seqZ 0 ((hh + step - 1) / step).

Definition colman_measure (c : ColMan) (p : MeasurePass) (ctrl : Z) : result (ColMan * MeasurePass) :=
  let ha := height (sheet (va p)) in
  let hb := height (sheet (vb p)) in
  let p := clearMatch p in
  p ← (if (ha <? 10) || (hb <? 10) then name_features p else Ok p);
  pairs ← row_pairs (cm_comp c) hb;
  let hh := if Zlen pairs >? 100 then 100 else Zlen pairs in
  let step := Z.quot hh (2 ^ (ctrl + 4)) in
  let step := if step <? 1 then 1 else step in
  p ← foldR (fun p rr => '(ra, rb) ← rd pairs rr; row_features p ra rb) (strides hh step) p;
  p ← (if (step =? 1) && ((ha <? 10) || (hb <? 10)) && ((hh <? Z.quot ha 2) || (hh <? Z.quot hb 2))
       then header_features p else Ok p);
  Ok (c, p).
#[export] Instance ColMan_Measure : Measure ColMan :=
  {| setup := colman_setup; measure := colman_measure; getCtrlMax _ := 5 |}.
