(* ===== verification/MeasureMan.v ===== *)
(** * Matching the units of two sheets

    Models [MeasureMan] ([libcoopy_core/MeasureMan.cpp], [include/coopy/MeasureMan.h]),
    which turns a measure of the likeness of rows, or of columns, into a
    correspondence between them.

    - The measure is any instance of [Measure]; the three that a [MeasureMan] refers to
      are of one class.
    - [log] of the C library is a parameter.
    - The member [match] of a pass is a hash table, and reading a cell creates it: the
      reads of [compare1] after the lattice are state changes.  Those that build the
      lattice are of cells that its indices list, which exist.
    - What is printed when the program is verbose is left out. *)

From Stdlib Require Import SpecFloat.
From stdpp Require Import gmap.
From S2P Require Import Prelude Sheet Viterbi OrderMerge Measure.
#[local] Open Scope Z_scope.
#[local] Arguments cstr s%_string.

Definition costify (x : float) : float := SFopp x.

(** ** Cells *)

Definition cellLength (rowLike : bool) (a : DataSheet) : Z := if rowLike then width a else height a.
Definition cellExists (rowLike : bool) (a : DataSheet) (x y : Z) : bool :=
  if (x <? 0) || (y <? 0) then false
  else if rowLike then (x <? width a) && (y <? height a)
  else (y <? width a) && (x <? height a).
Definition unit_cell (rowLike : bool) (a : DataSheet) (x y : Z) : result (list Z) :=
  if negb (cellExists rowLike a x y) then Ok (cstr "(no-cell)")
  else if rowLike then ds_text a x y else ds_text a y x.

(** The detailed check of a match: no cell differs. *)
Definition perfect (rowLike : bool) (a b : DataSheet) (bestIndex y : Z) : result bool :=
  if cellLength rowLike a =? cellLength rowLike b then
    misses ← foldR (fun misses kk => s ← unit_cell rowLike a kk bestIndex; t ← unit_cell rowLike b kk y;
                                     Ok (if bool_decide (s <> t) then misses + 1 else misses))
               (seqZ 0 (cellLength rowLike a)) 0;
    Ok (misses =? 0)
  else Ok false.

(** ** The lattice *)

Section Lattice.
Context (log : float -> float).
Abbreviation Vit := (Vit.Viterbi float).

(** The sheet [match] as [flip] has it looked at: the cells of line [i], and the
    value of unit [x] for line [i]. *)
Definition match_line (flip : bool) (m : SparseFloatSheet) (i : Z) : list Z :=
  set_elements (if flip then SparseS.getCellsInCol m i else SparseS.getCellsInRow m i).
Definition likeness (flip : bool) (m : SparseFloatSheet) (x i : Z) : float :=
  if flip then SparseS.cell_const m i x else SparseS.cell_const m x i.

(** [0.1*log(1+fabs((double)(i-i1)))/log(2)]. *)
Definition displacement (i i1 : Z) : float :=
  f64_div (f64_mul (f64_const 1 10) (log (f64_add (f64_of_Z 1) (SFabs (f64_of_Z (i - i1))))))
    (log (f64_of_Z 2)).

(** The transitions to unit [i1] in line [i]. *)
Definition arrive (flip : bool) (m : SparseFloatSheet) (i : Z) (idx0 : list Z) (ksrc kdest i1 : Z)
    (v : Vit) : Vit :=
  let c := costify (likeness flip m i1 i) in
  let v := foldl (fun v i0 =>
                    if negb (i0 =? i1)
                    then Vit.addTransition v (ksrc + i0 + 1) (kdest + i1 + 1)
                           (to_f32 (f64_add (to_f64 c) (displacement i i1)))
                    else v) v idx0 in
  Vit.addTransition v ksrc (kdest + i1 + 1) c.

(** The transitions of line [i] out of the states with history [k]. *)
Definition from_history (flip : bool) (m : SparseFloatSheet) (column_stride : Z) (history_offset : list Z)
    (i : Z) (v : Vit) (k : Z) : result Vit :=
  let idx0 := match_line flip m (i - 1) in
  let idx1 := match_line flip m i in
  let ksrc := k * column_stride in
  v ← foldR (fun v i1 =>
               off ← rd history_offset i1;
               if negb (Z.land off k =? 0) then Ok v
               else Ok (arrive flip m i idx0 ksrc ((k + off) * column_stride) i1 v)) idx1 v;
  let v := foldl (fun v i0 => Vit.addTransition v (ksrc + i0 + 1) ksrc (f32_of_Z 0)) v idx0 in
  Ok (Vit.addTransition v ksrc ksrc (f32_of_Z 0)).

Definition lattice_line (flip : bool) (m : SparseFloatSheet) (column_stride history_stride : Z)
    (history_offset : list Z) (v : Vit) (i : Z) : result Vit :=
  v ← foldR (from_history flip m column_stride history_offset i) (seqZ 0 history_stride)
        (Vit.beginTransitions v);
  Ok (Vit.endTransitions v).

Definition match_lattice (flip : bool) (m : SparseFloatSheet) (match_width match_height : Z)
    (stateNode : gmap Z Z) (stateNodePower : Z) : result Vit :=
  let column_stride := match_width + 1 in
  let history_offset := (fun i => default 0 (stateNode !! i)) <$> seqZ 0 match_width in
  foldR (lattice_line flip m column_stride stateNodePower history_offset) (seqZ 0 match_height)
    (Vit.setSize Vit.new_viterbi (column_stride * stateNodePower) match_height).

(** ** compare1 *)

(** The local variables of the loop, the sheets it reads of the passes and the
    lattice. *)
Record selection := Selection {
  sl_asel : TypedSheet Z;
  sl_bsel : TypedSheet Z;
  sl_match : SparseFloatSheet;
  sl_anorm : SparseFloatSheet;
  sl_bnorm : SparseFloatSheet;
  stateNode : gmap Z Z;
  stateNodeCount : Z;
  stateNodePower : Z;
  repeatNeeded : bool;
  lattice_v : Vit
}.

(** The path's suggestion for line [y], [bestIndex], and whether it is [ok]. *)
Definition suggestion (rowLike flip : bool) (a b : DataSheet) (column_stride y : Z) (st : selection) :
    result (Z * bool * selection) :=
  '(p, v) ← Vit.getPath (lattice_v st) y;
  let bestIndex := Z.rem p column_stride - 1 in
  let '(bestValue, m) :=
    if bestIndex >=? 0
    then if flip then SparseS.sp_cell (sl_match st) y bestIndex
         else SparseS.sp_cell (sl_match st) bestIndex y
    else (f32_of_Z 0, sl_match st) in
  let '(ref, bn) := SparseS.sp_cell (sl_bnorm st) 0 (if flip then bestIndex else y) in
  let '(ref2, an) := SparseS.sp_cell (sl_anorm st) 0 (if flip then y else bestIndex) in
  let ref := to_f64 (if SFltb (to_f64 ref2) (to_f64 ref) then ref2 else ref) in
  let good := SFltb (f64_div ref (f64_of_Z 4)) (to_f64 bestValue) && (bestIndex >=? 0)
              && SFltb (f64_const 1 100) ref in
  ok ← (if negb good && (bestIndex >=? 0) && (y >=? 0) then perfect rowLike a b bestIndex y
        else Ok good);
  Ok (bestIndex, ok,
      Selection (sl_asel st) (sl_bsel st) m an bn (stateNode st) (stateNodeCount st)
        (stateNodePower st) (repeatNeeded st) v).

(** Two lines want unit [bestIndex]: it gets a bit of the history. *)
Definition collide (st : selection) (bestIndex : Z) : selection :=
  match stateNode st !! bestIndex with
  | None =>
      let count := stateNodeCount st + 1 in
      Selection (sl_asel st) (sl_bsel st) (sl_match st) (sl_anorm st) (sl_bnorm st)
        (<[bestIndex := stateNodePower st]> (stateNode st)) count (stateNodePower st * 2)
        (count <? 4) (lattice_v st)
  | Some _ => st
  end.

Definition take_match (st : selection) (bestIndex y : Z) : result selection :=
  c ← Typed.cell (sl_asel st) 0 bestIndex;
  if negb (c =? -1) && negb (c =? y) then Ok (collide st bestIndex)
  else
    b ← Typed.set_cell (sl_bsel st) 0 y bestIndex;
    a ← Typed.set_cell (sl_asel st) 0 bestIndex y;
    Ok (Selection a b (sl_match st) (sl_anorm st) (sl_bnorm st) (stateNode st) (stateNodeCount st)
          (stateNodePower st) (repeatNeeded st) (lattice_v st)).

Definition select_line (rowLike flip : bool) (a b : DataSheet) (column_stride : Z) (st : selection) (y : Z) :
    result selection :=
  x ← Typed.cell (sl_bsel st) 0 y;
  if x =? -1 then
    '(bestIndex, ok, st) ← suggestion rowLike flip a b column_stride y st;
    if ok : bool then take_match st bestIndex y else Ok st
  else Ok st.

(** The body of the loop, for the selections [asel] and [bsel] it starts from. *)
Definition select_round (rowLike flip : bool) (a b : DataSheet) (match_width match_height : Z)
    (asel bsel : TypedSheet Z) (st : selection) : result selection :=
  v ← match_lattice flip (sl_match st) match_width match_height (stateNode st) (stateNodePower st);
  foldR (select_line rowLike flip a b (match_width + 1)) (seqZ 0 match_height)
    (Selection asel bsel (sl_match st) (sl_anorm st) (sl_bnorm st) (stateNode st) (stateNodeCount st)
       (stateNodePower st) false v).

(** The loop.  A repetition has given a bit to a unit, and the fourth unit ends it:
    three repetitions are the most there can be. *)
Fixpoint select_rounds (rowLike flip : bool) (a b : DataSheet) (match_width match_height : Z)
    (asel bsel : TypedSheet Z) (fuel : nat) (st : selection) : result selection :=
  st ← select_round rowLike flip a b match_width match_height asel bsel st;
  if repeatNeeded st then
    match fuel with
    | O => Fault OutOfFuel
    | S fuel => select_rounds rowLike flip a b match_width match_height asel bsel fuel st
    end
  else Ok st.
End Lattice.

Section Man.
Context {S : Type} `{Measure S} (log : float -> float).

Record MeasureMan := MeasureMan_ {
  main : S;
  anorm : S;
  bnorm : S;
  main_pass : MeasurePass;
  anorm_pass : MeasurePass;
  bnorm_pass : MeasurePass;
  rowLike : bool;
  mm_trust_ids : bool;
  sampled : bool
}.

Definition with_passes (m : MeasureMan) (s1 s2 s3 : S) (p1 p2 p3 : MeasurePass) : MeasureMan :=
  MeasureMan_ s1 s2 s3 p1 p2 p3 (rowLike m) (mm_trust_ids m) (sampled m).

Definition man_setup (m : MeasureMan) : result MeasureMan :=
  '(s1, p1) ← setup (main m) (main_pass m);
  '(s2, p2) ← setup (anorm m) (anorm_pass m);
  '(s3, p3) ← setup (bnorm m) (bnorm_pass m);
  Ok (with_passes m s1 s2 s3 p1 p2 p3).

(** The three measurements; that of [bnorm] is made to look like that of [anorm]. *)
Definition measurements (m : MeasureMan) (ctrl : Z) : result MeasureMan :=
  '(s1, p1) ← measure (main m) (main_pass m) ctrl;
  '(s2, p2) ← measure (anorm m) (set_sel (anorm_pass m) (asel p1) (asel p1)) ctrl;
  '(astat, p2) ← flatten p2;
  '(s3, p3) ← measure (bnorm m) (set_sel (bnorm_pass m) (bsel p1) (bsel p1)) ctrl;
  '(bstat, p3) ← flatten p3;
  let p3 :=
    if stat_valid bstat && stat_valid astat then
      if SFltb (f64_const 1 1000) (stddev bstat)
      then let t := offset (pmatch p3) (SFopp (mean bstat)) in
           let t := rescale t (f64_div (stddev astat) (stddev bstat)) in
           set_match p3 (offset t (mean astat))
      else p3
    else p3 in
  Ok (with_passes m s1 s2 s3 p1 p2 p3).

Definition compare1 (m : MeasureMan) (ctrl : Z) : result MeasureMan :=
  m ← measurements m ctrl;
  let mp := main_pass m in
  let t := pmatch mp in
  let flip := sp_w t <? sp_h t in
  let a := if flip then sheet (vb mp) else sheet (va mp) in
  let b := if flip then sheet (va mp) else sheet (vb mp) in
  let match_width := if flip then sp_h t else sp_w t in
  let match_height := if flip then sp_w t else sp_h t in
  let asel0 := if flip then bsel mp else asel mp in
  let bsel0 := if flip then asel mp else bsel mp in
  st ← select_rounds log (rowLike m) flip a b match_width match_height asel0 bsel0 3
         (Selection asel0 bsel0 t (pmatch (anorm_pass m)) (pmatch (bnorm_pass m)) ∅ 0 1 false
            Vit.new_viterbi);
  Ok (with_passes m (main m) (anorm m) (bnorm m)
        (set_sel mp (if flip then sl_bsel st else sl_asel st) (if flip then sl_asel st else sl_bsel st))
        (set_match (anorm_pass m) (sl_anorm st)) (set_match (bnorm_pass m) (sl_bnorm st))).

(** The units of the second sheet without a match. *)
Definition unmatched (t : TypedSheet Z) : result Z :=
  foldR (fun n j => x ← Typed.cell t 0 j; Ok (if x =? -1 then n + 1 else n)) (seqZ 0 (h t)) 0.

(** The passes of [compareCore], at most [n]. *)
Fixpoint passes (n : nat) (rem ctrl : Z) (m : MeasureMan) : result MeasureMan :=
  match n with
  | O => Ok m
  | Datatypes.S n =>
      m ← compare1 m ctrl;
      let mp := main_pass m in
      remaining ← unmatched (bsel mp);
      let processed := h (bsel mp) - remaining in
      if remaining =? 0 then Ok m
      else if remaining <=? h (bsel mp) - h (asel mp) then Ok m
      else if (processed >? remaining) && sampled m then Ok m
      else if rem =? remaining then
        if ctrl <? getCtrlMax (main m) then
          if mm_trust_ids m && rowLike m then Ok m
          else passes n remaining (ctrl + 1) m
        else Ok m
      else passes n remaining ctrl m
  end.

Definition compareCore (m : MeasureMan) : result MeasureMan :=
  remaining ← unmatched (bsel (main_pass m));
  if remaining =? 0 then Ok m else passes 20 (-1) 0 m.
End Man.
Arguments MeasureMan S : clear implicits.
