(* ===== verification/SheetCompare.v ===== *)
(** * Corresponding rows and columns of three sheets

    Models the part of [SheetCompare] ([libcoopy_core/SheetCompare.cpp]) that finds the
    correspondences between a pivot sheet and a local and a remote one: [FastMatch],
    [encodeKey], [doRowMapping], [doColMapping] and the sequence in which
    [SheetCompare::compare] calls them.

    - [std::map] is a [gmap].  A view's names are those its sniffer found; they are a
      vector, and an index beyond its end is [OutOfBounds].
    - The offloading of the comparison to a database and a comparison method of the
      caller's ([default_compare]) are outside of the model; so is the wrapping of the
      sheets before and [Merger] after it. *)

From stdpp Require Import gmap.
From S2P Require Import Prelude Sheet Viterbi OrderMerge Measure RowMan MeasureMan.
#[local] Open Scope Z_scope.
#[local] Arguments cstr s%_string.

(** The members of [CompareFlags] that are looked at. *)
Record compare_flags := CompareFlags2 {
  cf_ids : id_flags;
  trust_column_names : bool;
  mapping : option DataSheet;
  pivot_sides_with_local : bool
}.

(** ** FastMatch *)

(** Whether the sheets differ in a cell of row [r]. *)
Definition row_differs (a b : DataSheet) (fail : bool) (r : Z) : result bool :=
  foldR (fun fail c =>
      if fail : bool then Ok true
      else x ← ds_summary a c r; y ← ds_summary b c r; Ok (bool_decide (x <> y)))
    (if fail then [] else seqZ 0 (width a)) fail.
Definition sheets_differ (va vb : SheetView) : result bool :=
  if bool_decide (sha1 va = [])
  then foldR (row_differs (sheet va) (sheet vb)) (seqZ 0 (height (sheet va))) false
  else Ok (bool_decide (sha1 va <> sha1 vb)).

(** The identity, for sheets that are the same. *)
Definition match_identical (p : MeasurePass) : result MeasurePass :=
  foldR (fun p i => a ← Typed.set_cell (asel p) 0 i i; b ← Typed.set_cell (bsel p) 0 i i;
                    Ok (set_sel p a b))
    (seqZ 0 (h (asel p))) p.

(** [lni] or [rni]: where a name is, the last place if it is repeated. *)
Definition name_index (names : list (list Z)) : gmap (list Z) Z :=
  foldl (fun m iname => <[iname.2 := iname.1]> m) ∅ (zip (seqZ 0 (Zlen names)) names).
(** The units of one side are sent to those of the other with their name. *)
Definition match_names (names : list (list Z)) (index : gmap (list Z) Z) (t : TypedSheet Z) :
    result (TypedSheet Z) :=
  foldR (fun t i => name ← rd names i;
                    match index !! name with
                    | Some j => Typed.set_cell t 0 i j
                    | None => Ok t
                    end) (seqZ 0 (h t)) t.

Definition fast_match (p : MeasurePass) (rowLike : bool) (flags : compare_flags) : result MeasurePass :=
  let a := sheet (va p) in
  let b := sheet (vb p) in
  same ← (if (width a =? width b) && (height a =? height b)
          then fail ← sheets_differ (va p) (vb p); Ok (negb fail)
          else Ok false);
  if same : bool then match_identical p
  else if negb rowLike && trust_column_names flags then
    let ln := suggestNames (va p) in
    let rn := suggestNames (vb p) in
    a ← match_names ln (name_index rn) (asel p);
    b ← match_names rn (name_index ln) (bsel p);
    Ok (set_sel p a b)
  else Ok p.

(** ** Row mapping *)

Section Mapping.
Context (log : float -> float).

(** [p2l_p] and its like: the columns that have a match, sent to themselves. *)
Definition self_order (t : TypedSheet Z) : result (TypedSheet Z) :=
  foldR (fun t i => x ← Typed.cell t 0 i; if x >=? 0 then Typed.set_cell t 0 i i else Ok t)
    (seqZ 0 (h t)) t.

(** The rows of the pivot and of one other sheet. *)
Definition pair_rows (col_order : OrderResult) (eflags : compare_flags) (vpivot vother : SheetView)
    (approx : bool) : result OrderResult :=
  pp ← self_order (a2b_sheet col_order);
  oo ← self_order (b2a_sheet col_order);
  _ ← (if (h pp >? 0) || (h oo >? 0)
       then _ ← check (h pp =? width (sheet vpivot)) AssertFailed;
            check (h oo =? width (sheet vother)) AssertFailed
       else Ok tt);
  m ← man_setup (MeasureMan_ (new_combined (cf_ids eflags) (Ordered col_order))
                   (new_combined (cf_ids eflags) (Ordered (OrderResult_ pp pp)))
                   (new_combined (cf_ids eflags) (Ordered (OrderResult_ oo oo)))
                   (new_pass vpivot vother) (new_pass vpivot vpivot) (new_pass vother vother)
                   true (trust_ids (cf_ids eflags)) approx);
  mp ← fast_match (main_pass m) true eflags;
  m ← compareCore log (with_passes m (main m) (anorm m) (bnorm m) mp (anorm_pass m) (bnorm_pass m));
  Ok (getOrder (main_pass m)).

(** [SheetCell::toString] of a cell without meta data: a null is put in braces. *)
Definition cell_toString (c : pcell) : list Z :=
  if c.2 then cstr "{" ++ c.1 ++ cstr "}" else c.1.
Definition encodeKey (a : DataSheet) (x y len : Z) : result (list Z) :=
  foldR (fun t i => c ← ds_summary a i y; Ok ((if i >? x then t ++ cstr "__" else t) ++ cell_toString c))
    (seqZ x len) [].
Definition key_index (a : DataSheet) (n : Z) : result (gmap (list Z) Z) :=
  foldR (fun m i => k ← encodeKey a 0 i n; Ok (<[k := i]> m)) (seqZ 0 (height a)) ∅.

(** The four sheets of links. *)
Record links := Links { l2p : TypedSheet Z; r2p : TypedSheet Z; p2l : TypedSheet Z; p2r : TypedSheet Z }.

(** A row of the mapping. *)
Definition link_row (mp : DataSheet) (n : Z) (local_pivot : bool)
    (local_index remote_index pivot_index : gmap (list Z) Z) (k : links) (i : Z) : result links :=
  klocal ← encodeKey mp 0 i n;
  kremote ← encodeKey mp n i n;
  match pivot_index !! (if local_pivot then klocal else kremote) with
  | Some p =>
      k ← match local_index !! klocal with
          | Some l => x ← Typed.set_cell (l2p k) 0 l p; y ← Typed.set_cell (p2l k) 0 p l;
                      Ok (Links x (r2p k) y (p2r k))
          | None => Ok k
          end;
      match remote_index !! kremote with
      | Some r => x ← Typed.set_cell (r2p k) 0 r p; y ← Typed.set_cell (p2r k) 0 p r;
                  Ok (Links (l2p k) x (p2l k) y)
      | None => Ok k
      end
  | None => Ok k
  end.

Definition map_rows (mp : DataSheet) (local_pivot : bool) (pivot local remote : DataSheet) :
    result (OrderResult * OrderResult) :=
  let n := Z.quot (width mp) 2 in
  let none := TypedSheet_ [] 0 0 0 in
  li ← key_index local n;
  ri ← key_index remote n;
  pi ← key_index pivot n;
  k ← foldR (link_row mp n local_pivot li ri pi) (seqZ 0 (height mp))
        (Links (Typed.resize none 1 (height local) (-1)) (Typed.resize none 1 (height remote) (-1))
           (Typed.resize none 1 (height pivot) (-1)) (Typed.resize none 1 (height pivot) (-1)));
  Ok (OrderResult_ (p2l k) (l2p k), OrderResult_ (p2r k) (r2p k)).

Definition doRowMapping (p2l_col_order p2r_col_order : OrderResult) (flags eflags : compare_flags)
    (vpivot vlocal vremote : SheetView) (approx : bool) : result (OrderResult * OrderResult) :=
  match mapping flags with
  | None =>
      l ← pair_rows p2l_col_order eflags vpivot vlocal approx;
      r ← pair_rows p2r_col_order eflags vpivot vremote approx;
      Ok (l, r)
  | Some mp => map_rows mp (pivot_sides_with_local flags) (sheet vpivot) (sheet vlocal) (sheet vremote)
  end.

(** ** Column mapping *)

Definition pair_cols (row_order : OrderResult) (eflags : compare_flags) (vpivot vother : SheetView) :
    result OrderResult :=
  m ← man_setup (MeasureMan_ (ColMan_ (Ordered row_order)) (ColMan_ IdentityOrder) (ColMan_ IdentityOrder)
                   (new_pass vpivot vother) (new_pass vpivot vpivot) (new_pass vother vother)
                   false (trust_ids (cf_ids eflags)) false);
  mp ← fast_match (main_pass m) false eflags;
  m ← compareCore log (with_passes m (main m) (anorm m) (bnorm m) mp (anorm_pass m) (bnorm_pass m));
  Ok (getOrder (main_pass m)).

Definition doColMapping (p2l_row_order p2r_row_order : OrderResult) (eflags : compare_flags)
    (vpivot vlocal vremote : SheetView) : result (OrderResult * OrderResult) :=
  l ← pair_cols p2l_row_order eflags vpivot vlocal;
  r ← pair_cols p2r_row_order eflags vpivot vremote;
  Ok (l, r).

(** ** The orders of a comparison *)

Record orders := Orders {
  p2l_row_order : OrderResult;
  p2r_row_order : OrderResult;
  p2l_col_order : OrderResult;
  p2r_col_order : OrderResult
}.
Definition no_order : OrderResult := OrderResult_ (TypedSheet_ [] 0 0 0) (TypedSheet_ [] 0 0 0).

(** The part of [compare] between the sniffing of names and the merge; [id_based]
    says that identifiers were given. *)
Definition compare_orders (flags eflags : compare_flags) (vpivot vlocal vremote : SheetView) :
    result orders :=
  let id_based := trust_ids (cf_ids flags) || bias_ids (cf_ids flags) in
  '(pl, pr) ← doRowMapping no_order no_order flags eflags vpivot vlocal vremote (negb id_based);
  '(cl, cr) ← doColMapping pl pr eflags vpivot vlocal vremote;
  '(pl, pr) ← (if negb id_based then doRowMapping cl cr flags eflags vpivot vlocal vremote false
               else Ok (pl, pr));
  Ok (Orders pl pr cl cr).
End Mapping.
