(* ===== verification/MeasureSpec.v ===== *)
(** * Sheets of likeness and selections

    What the measures and [MeasureMan] rely on: loops with an invariant, sparse sheets
    whose indices lie in their grid, selections of one column that send the units of
    two sheets to each other, and the interface [MeasureLaws] that a measure promises
    to [MeasureMan]. *)

From Stdlib Require Import SpecFloat.
From stdpp Require Import gmap sorting.
From S2P Require Import Prelude Sheet Viterbi ViterbiSpec OrderMerge OrderMergeSpec Measure.
#[local] Open Scope Z_scope.

(** ** Loops *)

(** A loop whose body succeeds and keeps [P] succeeds and keeps [P]. *)
Lemma foldR_inv {A S} (P : S -> Prop) (f : S -> A -> result S) (l : list A) (s : S) :
  P s -> (forall s x, x ∈ l -> P s -> exists s', f s x = Ok s' /\ P s') ->
  exists s', foldR f l s = Ok s' /\ P s'.
Proof.
  intros Hs Hf. revert s Hs. induction l as [|x l IH]; intros s Hs; simpl; [by exists s|].
  destruct (Hf s x) as (s' & -> & Hs'); [set_solver|done|]. rewrite bind_Ok. apply IH; [|done].
  intros t y Hy. apply Hf. set_solver.
Qed.

(** The same, with an invariant of the number of rounds. *)
Lemma foldR_seqZ {S} (P : Z -> S -> Prop) (f : S -> Z -> result S) (n : Z) (s : S) :
  0 <= n -> P 0 s -> (forall i s, 0 <= i < n -> P i s -> exists s', f s i = Ok s' /\ P (i + 1) s') ->
  exists s', foldR f (seqZ 0 n) s = Ok s' /\ P n s'.
Proof.
  intros Hn Hs Hf. assert (forall (k : nat) i s, Z.of_nat k = n - i -> 0 <= i -> P i s ->
    exists s', foldR f (seqZ i (Z.of_nat k)) s = Ok s' /\ P n s') as Hgo.
  { clear s Hs. induction k as [|k IH]; intros i s Hk Hi Hs.
    - exists s. split; [done|]. by replace n with i by lia.
    - rewrite seqZ_cons by lia. cbn [foldR]. destruct (Hf i s) as (s' & -> & Hs'); [lia|done|].
      rewrite bind_Ok. replace (Z.pred (Z.of_nat (Datatypes.S k))) with (Z.of_nat k) by lia.
      apply IH; [lia|lia|done]. }
  destruct (Hgo (Z.to_nat n) 0 s) as (s' & E & Hs'); [lia|lia|done|].
  rewrite Z2Nat.id in E by done. by exists s'.
Qed.

Lemma foldl_inv {A S} (P : S -> Prop) (f : S -> A -> S) (l : list A) (s : S) :
  P s -> (forall s x, x ∈ l -> P s -> P (f s x)) -> P (foldl f s l).
Proof.
  intros Hs Hf. revert s Hs. induction l as [|x l IH]; intros s Hs; simpl; [done|].
  apply IH; [intros t y Hy; apply Hf; set_solver|apply Hf; [set_solver|done]].
Qed.

Lemma elem_of_set_elements x (s : gset Z) : x ∈ set_elements s <-> x ∈ s.
Proof. unfold set_elements. rewrite merge_sort_Permutation. apply elem_of_elements. Qed.

(** ** Grids *)

(** The indices of a sheet list cells of its grid, which exist. *)
Definition in_grid {T} (m : SparseSheet T) (x y : Z) : Prop := 0 <= x < sp_w m /\ 0 <= y < sp_h m.
Record grid {T} (m : SparseSheet T) : Prop := {
  gr_row : forall x y, x ∈ SparseS.getCellsInRow m y ->
    in_grid m x y /\ is_Some (sp_data m !! SparseS.sp_key m x y);
  gr_col : forall x y, y ∈ SparseS.getCellsInCol m x ->
    in_grid m x y /\ is_Some (sp_data m !! SparseS.sp_key m x y)
}.

(** [m'] has the size of [m], and its grid. *)
Definition refit {T} (m m' : SparseSheet T) : Prop :=
  sp_w m' = sp_w m /\ sp_h m' = sp_h m /\ (grid m -> grid m').

#[export] Instance refit_refl {T} : Reflexive (refit (T:=T)).
Proof. by intros m. Qed.
#[export] Instance refit_trans {T} : Transitive (refit (T:=T)).
Proof. intros a b c (? & ? & ?) (? & ? & ?). split_and!; [congruence..|auto]. Qed.

Section Grid.
Context {T : Type}.
Implicit Types (m : SparseSheet T).

Lemma grid_resize m wd ht z : grid (SparseS.sp_resize m wd ht z).
Proof.
  split; intros x y; unfold SparseS.getCellsInRow, SparseS.getCellsInCol; simpl;
    rewrite lookup_empty; set_solver.
Qed.

(** The cells the indices list are read without a change. *)
Lemma grid_read m x y : grid m -> x ∈ SparseS.getCellsInRow m y ->
  SparseS.sp_cell m x y = (SparseS.cell_const m x y, m).
Proof.
  intros Hg Hx. destruct (gr_row m Hg x y Hx) as [_ [v Hv]].
  unfold SparseS.sp_cell, SparseS.cell_const. by rewrite Hv.
Qed.

Lemma sp_cell_size m x y :
  sp_w (SparseS.sp_cell m x y).2 = sp_w m /\ sp_h (SparseS.sp_cell m x y).2 = sp_h m.
Proof. unfold SparseS.sp_cell. by destruct (sp_data m !! _). Qed.

Lemma sp_cell_refit m x y : in_grid m x y -> refit m (SparseS.sp_cell m x y).2.
Proof.
  intros Hxy. destruct (sp_cell_size m x y) as [Hw Hh]. split_and!; [done..|]. intros [Hr Hc].
  unfold SparseS.sp_cell. destruct (sp_data m !! _) as [v|] eqn:E; [done|].
  assert (forall k, is_Some (sp_data m !! k) \/ k = SparseS.sp_key m x y ->
    is_Some (<[SparseS.sp_key m x y := sp_zero m]> (sp_data m) !! k)) as Hk.
  { intros k. destruct (decide (k = SparseS.sp_key m x y)) as [->|Hne];
      [rewrite lookup_insert_eq|rewrite lookup_insert_ne by done; intros [?|?]]; eauto; done. }
  split; intros x' y'; unfold SparseS.getCellsInRow, SparseS.getCellsInCol; cbn [sp_row sp_col sp_data snd].
  - destruct (decide (y' = y)) as [->|Hne];
      [rewrite lookup_insert_eq|rewrite lookup_insert_ne by done]; cbn [default from_option id].
    + intros [->%elem_of_singleton|Hx]%elem_of_union; [split; [done|apply Hk; by right]|].
      destruct (Hr x' y Hx). split; [done|apply Hk; by left].
    + intros Hx. destruct (Hr x' y' Hx). split; [done|apply Hk; by left].
  - destruct (decide (x' = x)) as [->|Hne];
      [rewrite lookup_insert_eq|rewrite lookup_insert_ne by done]; cbn [default from_option id].
    + intros [->%elem_of_singleton|Hx]%elem_of_union; [split; [done|apply Hk; by right]|].
      destruct (Hc x y' Hx). split; [done|apply Hk; by left].
    + intros Hx. destruct (Hc x' y' Hx). split; [done|apply Hk; by left].
Qed.

Lemma sp_set_size m x y v :
  sp_w (SparseS.sp_set m x y v) = sp_w m /\ sp_h (SparseS.sp_set m x y v) = sp_h m.
Proof. apply (sp_cell_size m x y). Qed.

Lemma sp_set_refit m x y v : in_grid m x y -> refit m (SparseS.sp_set m x y v).
Proof.
  intros Hxy. destruct (sp_set_size m x y v) as [Hw Hh]. split_and!; [done..|]. intros Hg.
  destruct (sp_cell_refit m x y Hxy) as (_ & _ & Hgr). apply Hgr in Hg as [Hr Hc].
  assert (forall k, is_Some (sp_data (SparseS.sp_cell m x y).2 !! k) ->
    is_Some (sp_data (SparseS.sp_set m x y v) !! k)) as Hk.
  { intros k Hs. unfold SparseS.sp_set. cbn [sp_data]. by rewrite lookup_insert_is_Some'; right. }
  split; intros x' y' Hx; [destruct (Hr x' y' Hx)|destruct (Hc x' y' Hx)]; split; auto.
Qed.
End Grid.

Lemma bump_cell_refit m x y d : in_grid m x y -> refit m (bump_cell m x y d).
Proof.
  intros Hxy. unfold bump_cell. pose proof (sp_cell_refit m x y Hxy) as Hr.
  destruct (SparseS.sp_cell m x y) as [v m'] eqn:E. simpl in Hr. etrans; [exact Hr|].
  apply sp_set_refit. destruct Hr as (Hw & Hh & _). unfold in_grid. by rewrite Hw, Hh.
Qed.

Lemma map_cells_size f m : sp_w (map_cells f m) = sp_w m /\ sp_h (map_cells f m) = sp_h m.
Proof. done. Qed.

(** ** Selections *)

(** The units matched in [a] stay matched to the same ones in [b]; the others stay
    unmatched or get a match. *)
Definition extends (a b : list Z) : Prop :=
  length b = length a /\
  forall x, 0 <= x -> look b x = look a x \/ (look a x = -1 /\ 0 <= look b x).

#[export] Instance extends_refl : Reflexive extends.
Proof. intros a. split; auto. Qed.
#[export] Instance extends_trans : Transitive extends.
Proof.
  intros a b c [H1 H2] [H3 H4]. split; [congruence|]. intros x Hx.
  destruct (H2 x Hx) as [E|[E ?]], (H4 x Hx) as [E'|[E' ?]]; auto with lia.
Qed.

(** A unit is matched or not: no cell holds another negative number. *)
Definition settled (a : list Z) : Prop := forall x, 0 <= x -> -1 <= look a x.

Lemma extends_settled a b : extends a b -> settled a -> settled b.
Proof. intros [_ H] Ha x Hx. specialize (Ha x Hx). destruct (H x Hx) as [?|[??]]; lia. Qed.

Lemma look_insert l i v x :
  0 <= i < Zlen l -> 0 <= x -> look (<[Z.to_nat i := v]> l) x = if decide (x = i) then v else look l x.
Proof.
  intros Hi Hx. unfold look. rewrite length_insert.
  destruct (Z.eqb_spec x (-2)); [lia|]. destruct (decide (x = i)) as [->|Hne].
  - rewrite (proj2 (Z.ltb_ge i 0)), Z.geb_leb, (proj2 (Z.leb_gt (Zlen l) i)) by lia. simpl.
    apply cget_Some; [lia|]. apply list_lookup_insert_eq. lia.
  - destruct ((x <? 0) || (x >=? Zlen l)); [done|].
    rewrite !cget_lookup by lia. by rewrite list_lookup_insert_ne by lia.
Qed.

(** Two unmatched units are matched. *)
Lemma pairing_match a b x y :
  pairing a b -> 0 <= x < Zlen a -> 0 <= y < Zlen b -> look a x = -1 -> look b y = -1 ->
  pairing (<[Z.to_nat x := y]> a) (<[Z.to_nat y := x]> b).
Proof.
  intros Hp Hx Hy Ha Hb u v Hu Hv. rewrite !look_insert by lia.
  destruct (decide (u = x)) as [->|Hux], (decide (v = y)) as [->|Hvy]; try done.
  - split; [lia|]. intros E. apply Hp in E; [lia|lia|lia].
  - split; [|lia]. intros E. apply Hp in E; [lia|lia|lia].
  - by apply Hp.
Qed.

Lemma extends_match a x y :
  0 <= x < Zlen a -> 0 <= y -> look a x = -1 -> extends a (<[Z.to_nat x := y]> a).
Proof.
  intros Hx Hy Ha. split; [by rewrite length_insert|]. intros u Hu.
  rewrite look_insert by lia. destruct (decide (u = x)) as [->|]; auto.
Qed.

Lemma pairing_sym a b : pairing a b -> pairing b a.
Proof. intros H x y Hx Hy. symmetry. by apply H. Qed.

(** The selection of a side: the column [l]. *)
Definition column (t : TypedSheet Z) (l : list Z) : Prop := exists z, t = of_column l z.

Lemma column_cell t l i : column t l -> 0 <= i < Zlen l -> Typed.cell t 0 i = Ok (look l i).
Proof. intros [z ->] Hi. by rewrite cell_column, rd_cget, look_in. Qed.
Lemma column_set t l i v :
  column t l -> 0 <= i < Zlen l ->
  exists t', Typed.set_cell t 0 i v = Ok t' /\ column t' (<[Z.to_nat i := v]> l).
Proof. intros [z ->] Hi. rewrite set_column by done. eexists. split; [done|by eexists]. Qed.
Lemma column_h t l : column t l -> h t = Zlen l.
Proof. by intros [z ->]. Qed.
Lemma column_resize t n z : 0 <= n -> column (Typed.resize t 1 n z) (replicate (Z.to_nat n) z).
Proof. intros Hn. eexists. by apply resize_column. Qed.

Lemma look_out (l : list Z) x : Zlen l <= x -> look l x = -1.
Proof.
  intros Hx. unfold look. rewrite (proj2 (Z.eqb_neq x (-2))), Z.geb_leb, (proj2 (Z.leb_le _ _)) by lia.
  by rewrite orb_true_r.
Qed.

(** Before any match. *)
Definition unmatched_list (n : Z) : list Z := replicate (Z.to_nat n) (-1).
Lemma look_unmatched n x : 0 <= x -> look (unmatched_list n) x = -1.
Proof.
  intros Hx. destruct (decide (x < Zlen (unmatched_list n))); [|apply look_out; lia].
  rewrite look_in by lia. apply cget_Some; [done|]. apply lookup_replicate_2.
  unfold unmatched_list in *. rewrite length_replicate in *. lia.
Qed.
Lemma pairing_unmatched n m : pairing (unmatched_list n) (unmatched_list m).
Proof. intros x y Hx Hy. rewrite !look_unmatched by done. lia. Qed.
Lemma settled_unmatched n : settled (unmatched_list n).
Proof. intros x Hx. by rewrite look_unmatched. Qed.

Lemma getOrder_corresponds p a b :
  column (asel p) a -> column (bsel p) b -> pairing a b -> corresponds (getOrder p) a b.
Proof. intros [z Ha] [z' Hb] Hp. split; [|done]. exists z, z'. unfold getOrder. congruence. Qed.

(** ** Sheets and passes *)

(** The cells of a sheet can be read. *)
Record readable (d : DataSheet) : Prop := {
  so_width : 0 <= width d;
  so_height : 0 <= height d;
  so_cells : forall x y, 0 <= x < width d -> 0 <= y < height d ->
    exists t c, ds_text d x y = Ok t /\ ds_summary d x y = Ok c
}.

(** The identifying columns are columns of the sheet. *)
Record view_ok (v : SheetView) : Prop := {
  vo_sheet : readable (sheet v);
  vo_subset : Forall (fun x => 0 <= x < width (sheet v)) (getSubset v)
}.

(** [la] and [lb] units, with selections and a sheet of likeness of these sizes. *)
Record pass_ok (la lb : Z) (p : MeasurePass) (a b : list Z) : Prop := {
  po_asel : column (asel p) a;
  po_bsel : column (bsel p) b;
  po_a : Zlen a = la;
  po_b : Zlen b = lb;
  po_w : sp_w (pmatch p) = la;
  po_h : sp_h (pmatch p) = lb;
  po_bound : bound p = -1
}.

(** [flatten] of a pass that compares a sheet with itself. *)
Lemma flatten_ok n p a b :
  pass_ok n n p a b ->
  exists st m, flatten p = Ok (st, set_match p m) /\ sp_w m = n /\ sp_h m = n.
Proof.
  intros Hp. unfold flatten. pose proof (po_h _ _ _ _ _ Hp) as Hh. rewrite Hh.
  destruct (foldR_inv (fun st : SparseFloatSheet * float * float * Z =>
      sp_w st.1.1.1 = n /\ sp_h st.1.1.1 = n) (flatten_unit (asel p)) (seqZ 0 n)
      (pmatch p, f64_of_Z 0, f64_of_Z 0, 0)) as ([[[m mean] var] ct] & -> & Hm).
  - split; apply Hp.
  - intros [[[m mean] var] ct] y Hy%elem_of_seqZ [Hw Hm]. simpl in *. unfold flatten_unit. rewrite Hw.
    rewrite (proj2 (Z.ltb_lt y n)) by lia.
    destruct (SFleb _ _); [|by eexists].
    rewrite (column_cell _ a), bind_Ok by (apply Hp || (rewrite (po_a _ _ _ _ _ Hp); lia)).
    set (m' := SparseS.sp_set _ 0 y _). exists (if look a y =? -1
      then (m', f64_add mean (to_f64 (SparseS.cell_const m y y)),
            f64_add var (to_f64 (f32_mul (SparseS.cell_const m y y) (SparseS.cell_const m y y))), ct + 1)
      else (m', mean, var, ct)).
    split; [by destruct (look a y =? -1)|].
    assert (sp_w m' = n /\ sp_h m' = n) as Hm'.
    { unfold m'. rewrite !(proj1 (sp_set_size _ _ _ _)), !(proj2 (sp_set_size _ _ _ _)). done. }
    by destruct (look a y =? -1).
  - rewrite bind_Ok. destruct (ct >? 0); eexists _, m; (split; [done|exact Hm]).
Qed.

(** ** The promise of a measure *)

(** [ml_len] is the number of units of a sheet, [ml_new] says that the object can be set
    up for two views and [ml_ready] that it can measure them.  A measurement succeeds,
    leaves the pass alone but for its sheet of likeness, and that lies in its grid. *)
Class MeasureLaws (S : Type) `{Measure S} := {
  ml_len : DataSheet -> Z;
  ml_new : S -> SheetView -> SheetView -> Prop;
  ml_ready : S -> SheetView -> SheetView -> Prop;
  ml_ctrl : forall s : S, 0 <= getCtrlMax s;
  ml_setup : forall (s : S) p, ml_new s (va p) (vb p) ->
    exists s', setup s p = Ok (s', pass_setSize p (ml_len (sheet (va p))) (ml_len (sheet (vb p)))) /\
      ml_ready s' (va p) (vb p);
  ml_measure : forall (s : S) p a b ctrl, ml_ready s (va p) (vb p) ->
    pass_ok (ml_len (sheet (va p))) (ml_len (sheet (vb p))) p a b -> 0 <= ctrl <= getCtrlMax s ->
    exists s' m, measure s p ctrl = Ok (s', set_match p m) /\ ml_ready s' (va p) (vb p) /\
      getCtrlMax s' = getCtrlMax s /\ grid m /\
      sp_w m = ml_len (sheet (va p)) /\ sp_h m = ml_len (sheet (vb p))
}.
