(* ===== verification/MeasureManSpec.v ===== *)
(** * Correctness of the matching of units

    [MeasureMan] returns, whatever the measure and the rounding of its numbers:
    [compare1] leaves its loop after at most four rounds, no assertion of the lattice
    fails, no index is out of range, and the two selections send matched units to each
    other.  Proved against the interface [MeasureLaws]. *)

From Stdlib Require Import SpecFloat.
From stdpp Require Import gmap.
From S2P Require Import Prelude Sheet Viterbi ViterbiSpec OrderMerge OrderMergeSpec.
From S2P Require Import Measure MeasureMan MeasureSpec.
#[local] Open Scope Z_scope.

(** ** Histories *)

(** The units in [sn] have bits of their own among the first [n]. *)
Record history (sn : gmap Z Z) (n power : Z) : Prop := {
  hi_count : 0 <= n;
  hi_power : power = 2 ^ n;
  hi_bits : forall i off, sn !! i = Some off -> exists j, 0 <= j < n /\ off = 2 ^ j
}.

Lemma history_new : history ∅ 0 1.
Proof. split; [done|done|]. intros i off. by rewrite lookup_empty. Qed.

Lemma history_add sn n power i :
  history sn n power -> history (<[i := power]> sn) (n + 1) (power * 2).
Proof.
  intros [Hn -> Hb]. split; [lia|by rewrite Z.pow_add_r by lia|]. intros j off.
  destruct (decide (j = i)) as [->|Hne];
    [rewrite lookup_insert_eq|rewrite lookup_insert_ne by done].
  - intros [= <-]. exists n. lia.
  - intros Hj. destruct (Hb j off Hj) as (q & Hq & ->). exists q. lia.
Qed.

(** A bit that a history does not have can be added to it. *)
Lemma history_step n k off :
  0 <= k < 2 ^ n -> (off = 0 \/ exists j, 0 <= j < n /\ off = 2 ^ j) -> Z.land off k = 0 ->
  0 <= k + off < 2 ^ n.
Proof.
  intros Hk Hoff Hl. destruct Hoff as [->|(j & Hj & ->)]; [lia|].
  assert (0 < 2 ^ j) by lia. split; [lia|].
  assert (k + 2 ^ j = Z.lor (2 ^ j) k) as ->.
  { rewrite Z.add_comm, <- Z.lxor_lor by done. by apply Z.add_nocarry_lxor. }
  assert (Z.lor (2 ^ j) k <> 0) as Hne. { intros [??]%Z.lor_eq_0_iff. lia. }
  assert (0 <= Z.lor (2 ^ j) k) as Hnn by (apply Z.lor_nonneg; lia).
  apply Z.log2_lt_pow2; [lia|]. rewrite Z.log2_lor, Z.log2_pow2 by lia.
  apply Z.max_lub_lt; [lia|]. destruct (decide (k = 0)) as [->|]; [simpl; lia|].
  apply Z.log2_lt_pow2; lia.
Qed.

(** ** The lattice *)

Abbreviation Vit := (Vit.Viterbi float).
Abbreviation take_transitions :=
  (foldl (fun (v : Vit) (t : trans) => Vit.addTransition v t.1.1 t.1.2 t.2)).

(** [v'] is [v] after some transitions between the [K] states. *)
Definition adds (K : Z) (v v' : Vit) : Prop :=
  exists ts, layer_ok K ts /\ v' = take_transitions v ts.

#[local] Instance adds_refl K : Reflexive (adds K).
Proof. intros v. exists []. split; [constructor|done]. Qed.
#[local] Instance adds_trans K : Transitive (adds K).
Proof.
  intros u v v' (ts & Hts & ->) (ts' & Hts' & ->). exists (ts ++ ts').
  split; [by apply Forall_app|by rewrite foldl_app].
Qed.
Lemma adds_one K v s0 s1 c : 0 <= s0 < K -> 0 <= s1 < K -> adds K v (Vit.addTransition v s0 s1 c).
Proof. intros H0 H1. exists [(s0, s1, c)]. split; [by apply Forall_singleton|done]. Qed.

Section Lines.
Context (log : float -> float) (flip : bool) (m : SparseFloatSheet) (Hm : grid m).
Abbreviation W := (if flip then sp_h m else sp_w m).
Context (HW : 0 <= W) (sn : gmap Z Z) (n power : Z) (Hh : history sn n power).
Abbreviation offsets := ((fun i => default 0 (sn !! i)) <$> seqZ 0 W).
Abbreviation K := ((W + 1) * power).

Lemma line_range i x : x ∈ match_line flip m i -> 0 <= x < W.
Proof using Hm HW.
  unfold match_line. rewrite elem_of_set_elements. intros Hx.
  destruct flip; [apply (gr_col m Hm) in Hx|apply (gr_row m Hm) in Hx]; by destruct Hx as [[??] _].
Qed.

Lemma state_range k x : 0 <= k < power -> -1 <= x < W -> 0 <= k * (W + 1) + x + 1 < K.
Proof using HW. intros. nia. Qed.

Lemma offset_at x :
  0 <= x < W -> exists off, rd offsets x = Ok off /\ (off = 0 \/ exists j, 0 <= j < n /\ off = 2 ^ j).
Proof using Hh.
  intros Hx. exists (default 0 (sn !! x)). split.
  - apply rd_ok; [lia|]. rewrite list_lookup_fmap, lookup_seqZ_lt by lia. simpl.
    by rewrite Z2Nat.id by lia.
  - destruct (sn !! x) as [off|] eqn:E; simpl; [|by left]. right. by eapply Hh.
Qed.

Lemma arrive_adds i ksrc kdest i1 v k k' :
  0 <= k < power -> 0 <= k' < power -> 0 <= i1 < W -> ksrc = k * (W + 1) -> kdest = k' * (W + 1) ->
  adds K v (arrive log flip m i (match_line flip m (i - 1)) ksrc kdest i1 v).
Proof using Hm HW.
  intros Hk Hk' Hi1 -> ->. unfold arrive. etrans.
  2: { apply adds_one; [pose proof (state_range k (-1) Hk)|pose proof (state_range k' i1 Hk')]; lia. }
  apply (foldl_inv (adds K v)); [done|]. intros u i0 Hi0%line_range Hu. etrans; [exact Hu|].
  destruct (negb (i0 =? i1)); [|done].
  apply adds_one; apply state_range; lia.
Qed.

Lemma from_history_ok i v k :
  0 <= k < power ->
  exists v', from_history log flip m (W + 1) offsets i v k = Ok v' /\
    exists ts, layer_ok K ts /\ v' = take_transitions v ts /\
      (k * (W + 1), k * (W + 1), f32_of_Z 0) ∈ ts.
Proof using Hm Hh HW.
  intros Hk. unfold from_history.
  destruct (foldR_inv (adds K v) (fun v i1 =>
      off ← rd offsets i1;
      if negb (Z.land off k =? 0) then Ok v
      else Ok (arrive log flip m i (match_line flip m (i - 1)) (k * (W + 1)) ((k + off) * (W + 1)) i1 v))
      (match_line flip m i) v) as (v1 & -> & Hv1); [done| |].
  { intros u i1 Hi1%line_range Hu. destruct (offset_at i1 Hi1) as (off & -> & Hoff). rewrite bind_Ok.
    destruct (Z.eqb_spec (Z.land off k) 0) as [E|]; cbn [negb]; [|by exists u].
    eexists. split; [done|]. etrans; [exact Hu|].
    rewrite (hi_power _ _ _ Hh) in Hk. pose proof (history_step n k off Hk Hoff E).
    eapply arrive_adds; [rewrite (hi_power _ _ _ Hh); exact Hk| |done|done|done].
    by rewrite (hi_power _ _ _ Hh). }
  rewrite bind_Ok. eexists. split; [done|].
  assert (adds K v (foldl (fun v i0 => Vit.addTransition v (k * (W + 1) + i0 + 1) (k * (W + 1)) (f32_of_Z 0))
    v1 (match_line flip m (i - 1)))) as (ts & Hts & ->).
  { etrans; [exact Hv1|]. apply (foldl_inv (adds K v1)); [done|]. intros u i0 Hi0%line_range Hu.
    etrans; [exact Hu|]. pose proof (state_range k (-1) Hk). apply adds_one; [apply state_range|]; lia. }
  exists (ts ++ [(k * (W + 1), k * (W + 1), f32_of_Z 0)]).
  split_and!; [|by rewrite foldl_snoc|apply elem_of_app; right; by apply list_elem_of_singleton].
  apply Forall_app. split; [done|]. pose proof (state_range k (-1) Hk). apply Forall_singleton. simpl. lia.
Qed.

Lemma lattice_line_ok v i :
  exists ts, lattice_line log flip m (W + 1) power offsets v i = Ok (add_layer v ts) /\ steady K 0 ts.
Proof using Hm Hh HW.
  unfold lattice_line. assert (1 <= power) as Hp.
  { rewrite (hi_power _ _ _ Hh). pose proof (hi_count _ _ _ Hh). lia. }
  rewrite (seqZ_cons 0 power) by lia. cbn [foldR].
  destruct (from_history_ok i (Vit.beginTransitions v) 0) as (v1 & -> & ts & Hts & -> & Hin); [lia|].
  rewrite bind_Ok.
  destruct (foldR_inv (adds K (take_transitions (Vit.beginTransitions v) ts))
      (from_history log flip m (W + 1) offsets i) (seqZ (Z.succ 0) (Z.pred power))
      (take_transitions (Vit.beginTransitions v) ts)) as (v2 & -> & ts' & Hts' & ->); [done| |].
  { intros u k Hk%elem_of_seqZ Hu. destruct (from_history_ok i u k) as (u' & -> & ts' & Hts' & -> & _);
      [lia|]. eexists. split; [done|]. etrans; [exact Hu|]. by exists ts'. }
  rewrite bind_Ok. exists (ts ++ ts'). split.
  - unfold add_layer. by rewrite foldl_app.
  - split; [by apply Forall_app|]. exists (f32_of_Z 0). apply elem_of_app. by left.
Qed.

Lemma lattice_lines_ok l v :
  exists ls, foldR (lattice_line log flip m (W + 1) power offsets) l v = Ok (add_layers v ls) /\
    length ls = length l /\ Forall (steady K 0) ls.
Proof using Hm Hh HW.
  revert v. induction l as [|i l IH]; intros v; cbn [foldR]; [by exists []|].
  destruct (lattice_line_ok v i) as (ts & -> & Hts). rewrite bind_Ok.
  destruct (IH (add_layer v ts)) as (ls & -> & Hlen & Hls). exists (ts :: ls).
  split_and!; [done|simpl; congruence|by constructor].
Qed.
End Lines.

(** The lattice has, or will have, the path [p]. *)
Definition on_path (p : list Z) (v : Vit) : Prop :=
  exists v', Vit.calculatePath v = Ok v' /\ traced p v'.

Lemma getPath_on_path p v i x :
  on_path p v -> 0 <= i -> p !! Z.to_nat i = Some x ->
  exists v', Vit.getPath v i = Ok (x, v') /\ on_path p v'.
Proof.
  intros (v1 & Hc & Hv1) Hi Hx. destruct (getPath_traced p v1 i x Hv1 Hi Hx) as (v2 & Hg & Hv2).
  exists v2. split; [|exists v2; split; [|done]].
  - rewrite <- Hg. unfold Vit.getPath. rewrite Hc. unfold Vit.calculatePath.
    by rewrite (proj1 Hv1).
  - unfold Vit.calculatePath. by rewrite (proj1 Hv2).
Qed.

(** The lattice of a round is built, and its path stays in the columns of the sheet. *)
Lemma match_lattice_ok log (flip : bool) (m : SparseFloatSheet) sn n power :
  grid m -> history sn n power -> 0 <= sp_w m -> 0 <= sp_h m ->
  let W := if flip then sp_h m else sp_w m in
  let H := if flip then sp_w m else sp_h m in
  exists v p, match_lattice log flip m W H sn power = Ok v /\ Zlen p = H /\
    (p <> [] -> on_path p v) /\ Forall (fun x => -1 <= Z.rem x (W + 1) - 1 < W) p.
Proof.
  intros Hm Hh Hw0 Hh0 W H. assert (0 <= W /\ 0 <= H) as [HW HH] by (unfold W, H; by destruct flip).
  unfold match_lattice. destruct (lattice_lines_ok log flip m Hm HW sn n power Hh (seqZ 0 H)
    (Vit.setSize Vit.new_viterbi ((W + 1) * power) H)) as (ls & E & Hlen & Hls).
  fold W in E, Hls. rewrite E. rewrite length_seqZ in Hlen. destruct (decide (ls = [])) as [->|Hne].
  - exists (add_layers (Vit.setSize Vit.new_viterbi ((W + 1) * power) H) []), [].
    split_and!; [done|simpl in *; lia|done|constructor].
  - assert (0 <= (W + 1) * power) as HK.
    { rewrite (hi_power _ _ _ Hh). pose proof (hi_count _ _ _ Hh). nia. }
    destruct (steady_traced _ 0 H Vit.new_viterbi ls HK Hne Hls) as (p & v' & Hc & Hv & Hlp & He).
    eexists _, p. split_and!; [done|lia|intros _; by exists v'|].
    eapply Forall_impl; [|eapply entered_range; [exact Hls|exact He]]. intros x Hx. simpl in Hx.
    pose proof (Z.rem_bound_pos x (W + 1)). lia.
Qed.

(** ** Selections *)

Lemma unit_cell_ok rowLike a x y : readable a -> exists t, unit_cell rowLike a x y = Ok t.
Proof.
  intros Ha. unfold unit_cell, cellExists.
  destruct (Z.ltb_spec x 0), (Z.ltb_spec y 0); cbn [orb negb]; eauto.
  destruct rowLike.
  - destruct (Z.ltb_spec x (width a)), (Z.ltb_spec y (height a)); cbn [andb negb]; eauto.
    destruct (so_cells a Ha x y) as (t & _ & -> & _); [lia|lia|eauto].
  - destruct (Z.ltb_spec y (width a)), (Z.ltb_spec x (height a)); cbn [andb negb]; eauto.
    destruct (so_cells a Ha y x) as (t & _ & -> & _); [lia|lia|eauto].
Qed.

Lemma perfect_ok rowLike a b x y :
  readable a -> readable b -> exists r, perfect rowLike a b x y = Ok r.
Proof.
  intros Ha Hb. unfold perfect. destruct (_ =? _); [|eauto].
  destruct (foldR_inv (fun _ : Z => True)
    (fun misses kk => s ← unit_cell rowLike a kk x; t ← unit_cell rowLike b kk y;
                      Ok (if bool_decide (s <> t) then misses + 1 else misses))
    (seqZ 0 (cellLength rowLike a)) 0) as (k & -> & _); [done| |rewrite bind_Ok; eauto].
  intros k kk _ _. destruct (unit_cell_ok rowLike a kk x Ha) as (s & ->).
  destruct (unit_cell_ok rowLike b kk y Hb) as (t & ->). rewrite !bind_Ok. eauto.
Qed.

Definition sized {T} (m m' : SparseSheet T) : Prop := sp_w m' = sp_w m /\ sp_h m' = sp_h m.

Lemma sized_read {T} (m m' : SparseSheet T) x y : sized m m' -> sized m (SparseS.sp_cell m' x y).2.
Proof. intros [??]. destruct (sp_cell_size m' x y). unfold sized. split; congruence. Qed.

(** The state of a round that started with the matches [a0] and [b0], the sheets of [st0]
    and [n0] units with a bit, and has the matches [a] and [b]. *)
Record sel_ok (st0 : selection) (p a0 b0 : list Z) (st : selection) (a b : list Z) : Prop := {
  sk_asel : column (sl_asel st) a;
  sk_bsel : column (sl_bsel st) b;
  sk_pairing : pairing a b;
  sk_a : extends a0 a;
  sk_b : extends b0 b;
  sk_match : refit (sl_match st0) (sl_match st);
  sk_anorm : sized (sl_anorm st0) (sl_anorm st);
  sk_bnorm : sized (sl_bnorm st0) (sl_bnorm st);
  sk_history : history (stateNode st) (stateNodeCount st) (stateNodePower st);
  sk_count : stateNodeCount st0 <= stateNodeCount st;
  sk_repeat : repeatNeeded st = true -> stateNodeCount st0 < stateNodeCount st < 4;
  sk_path : p <> [] -> on_path p (lattice_v st)
}.

Section Round.
Context (rowLike flip : bool) (da db : DataSheet) (Ha : readable da) (Hb : readable db).
Context (st0 : selection) (p a0 b0 : list Z) (W H : Z).
Context (HW : W = if flip then sp_h (sl_match st0) else sp_w (sl_match st0)).
Context (HH : H = if flip then sp_w (sl_match st0) else sp_h (sl_match st0)).
Context (Ha0 : Zlen a0 = W) (Hb0 : Zlen b0 = H) (Hp : Zlen p = H).
Context (Hrange : Forall (fun x => -1 <= Z.rem x (W + 1) - 1 < W) p).

(** A suggestion is a unit of the other side, or none, which is not [ok]. *)
Lemma suggestion_ok st a b y :
  sel_ok st0 p a0 b0 st a b -> 0 <= y < H ->
  exists x ok st', suggestion rowLike flip da db (W + 1) y st = Ok (x, ok, st') /\
    sel_ok st0 p a0 b0 st' a b /\ x < W /\ (ok = true -> 0 <= x).
Proof using Ha Hb HW HH Hp Hrange.
  intros Hst Hy. unfold suggestion.
  destruct (lookup_lt_is_Some_2 p (Z.to_nat y)) as [q Hq]; [lia|].
  destruct (getPath_on_path p (lattice_v st) y q) as (v & -> & Hv);
    [apply Hst; by intros ->|lia|done|].
  rewrite bind_Ok. pose proof (Forall_lookup_1 _ _ _ _ Hrange Hq) as Hx. simpl in Hx.
  set (x := Z.rem q (W + 1) - 1) in *.
  set (bm := if x >=? 0 then _ else _).
  assert (refit (sl_match st0) bm.2) as Hbm.
  { etrans; [apply (sk_match _ _ _ _ _ _ _ Hst)|].
    destruct (sk_match _ _ _ _ _ _ _ Hst) as (Ew & Eh & _).
    unfold bm. rewrite Z.geb_leb. destruct (Z.leb_spec 0 x); [|done].
    destruct flip; apply sp_cell_refit; unfold in_grid; rewrite Ew, Eh; lia. }
  destruct bm as [bv m'] eqn:Ebm. simpl in Hbm.
  destruct (SparseS.sp_cell (sl_bnorm st) 0 (if flip then x else y)) as [r1 bn] eqn:E1.
  destruct (SparseS.sp_cell (sl_anorm st) 0 (if flip then y else x)) as [r2 an] eqn:E2.
  set (good := SFltb _ _ && _ && _).
  assert (exists ok, (if negb good && (x >=? 0) && (y >=? 0) then perfect rowLike da db x y else Ok good) =
    Ok ok /\ (ok = true -> 0 <= x)) as (ok & -> & Hok).
  { rewrite !Z.geb_leb. destruct good eqn:Eg; cbn [negb andb].
    - exists true. split; [done|]. intros _. subst good. rewrite Z.geb_leb in Eg.
      apply andb_true_iff in Eg as [[_ ?%Z.leb_le]%andb_true_iff _]. done.
    - destruct (Z.leb_spec 0 x); cbn [andb]; [|by exists false].
      destruct (0 <=? y); [|by exists false]. destruct (perfect_ok rowLike da db x y Ha Hb) as (r & ->).
      by exists r. }
  rewrite bind_Ok. eexists _, _, _. split; [done|]. split_and!; [|lia|done].
  destruct Hst. constructor; cbn; try done.
  - replace an with (SparseS.sp_cell (sl_anorm st) 0 (if flip then y else x)).2 by (by rewrite E2).
    by apply sized_read.
  - replace bn with (SparseS.sp_cell (sl_bnorm st) 0 (if flip then x else y)).2 by (by rewrite E1).
    by apply sized_read.
Qed.

(** A collision gives a unit a bit, once. *)
Lemma collide_ok st a b x :
  sel_ok st0 p a0 b0 st a b -> sel_ok st0 p a0 b0 (collide st x) a b.
Proof.
  intros []. unfold collide. destruct (stateNode st !! x); [by constructor|].
  constructor; cbn; try done.
  - by apply history_add.
  - lia.
  - intros E%Z.ltb_lt. lia.
Qed.

Lemma take_match_ok st a b x y :
  sel_ok st0 p a0 b0 st a b -> 0 <= x < W -> 0 <= y < H -> look b y = -1 ->
  exists st' a' b', take_match st x y = Ok st' /\ sel_ok st0 p a0 b0 st' a' b'.
Proof using Ha0 Hb0.
  intros Hst Hx Hy Hby. unfold take_match.
  pose proof (proj1 (sk_a _ _ _ _ _ _ _ Hst)) as Hla. pose proof (proj1 (sk_b _ _ _ _ _ _ _ Hst)) as Hlb.
  rewrite (column_cell _ a), bind_Ok by (apply Hst || lia).
  destruct (Z.eqb_spec (look a x) (-1)) as [Eax|Nax]; cbn [negb andb].
  2: { destruct (Z.eqb_spec (look a x) y) as [Exy|]; cbn [negb].
    - apply (sk_pairing _ _ _ _ _ _ _ Hst) in Exy; lia.
    - eexists _, a, b. split; [done|]. by apply collide_ok. }
  destruct (column_set (sl_bsel st) b y x) as (tb & -> & Htb); [apply Hst|lia|].
  destruct (column_set (sl_asel st) a x y) as (ta & -> & Hta); [apply Hst|lia|].
  rewrite !bind_Ok. eexists _, _, _. split; [done|]. destruct Hst. constructor; cbn; try done.
  - apply pairing_match; done || lia.
  - etrans; [done|]. apply extends_match; done || lia.
  - etrans; [done|]. apply extends_match; done || lia.
Qed.

Lemma select_line_ok st a b y :
  sel_ok st0 p a0 b0 st a b -> 0 <= y < H ->
  exists st' a' b', select_line rowLike flip da db (W + 1) st y = Ok st' /\ sel_ok st0 p a0 b0 st' a' b'.
Proof using Ha Hb HW HH Ha0 Hb0 Hp Hrange.
  intros Hst Hy. unfold select_line. pose proof (proj1 (sk_b _ _ _ _ _ _ _ Hst)) as Hlb.
  rewrite (column_cell _ b), bind_Ok by (apply Hst || lia).
  destruct (Z.eqb_spec (look b y) (-1)) as [E|]; [|by eexists _, a, b].
  destruct (suggestion_ok st a b y Hst Hy) as (x & ok & st' & -> & Hst' & Hx & Hok). rewrite bind_Ok.
  destruct ok; [|by eexists _, a, b]. apply (take_match_ok st' a b); try done. by split; [apply Hok|].
Qed.
End Round.

(** A round returns. *)
Lemma select_round_ok log rowLike (flip : bool) da db ta tb st a0 b0 :
  readable da -> readable db -> grid (sl_match st) -> 0 <= sp_w (sl_match st) -> 0 <= sp_h (sl_match st) ->
  history (stateNode st) (stateNodeCount st) (stateNodePower st) ->
  column ta a0 -> column tb b0 -> pairing a0 b0 ->
  let W := if flip then sp_h (sl_match st) else sp_w (sl_match st) in
  let H := if flip then sp_w (sl_match st) else sp_h (sl_match st) in
  Zlen a0 = W -> Zlen b0 = H ->
  exists st' p a b, select_round log rowLike flip da db W H ta tb st = Ok st' /\ sel_ok st p a0 b0 st' a b.
Proof.
  intros Ha Hb Hg Hw Hh Hhist Hta Htb Hpair W H Ha0 Hb0. unfold select_round.
  destruct (match_lattice_ok log flip (sl_match st) _ _ _ Hg Hhist Hw Hh) as (v & p & Hv & Hp & Hon & Hr).
  fold W H in Hv. rewrite Hv, bind_Ok.
  destruct (foldR_inv (fun st' => exists a b, sel_ok st p a0 b0 st' a b)
      (select_line rowLike flip da db (W + 1)) (seqZ 0 H)
      (Selection ta tb (sl_match st) (sl_anorm st) (sl_bnorm st) (stateNode st) (stateNodeCount st)
         (stateNodePower st) false v)) as (st' & Hst' & a & b & Hab).
  - exists a0, b0. by constructor.
  - intros st1 y Hy%elem_of_seqZ (a & b & Hab).
    destruct (select_line_ok rowLike flip da db Ha Hb st p a0 b0 W H eq_refl eq_refl Ha0 Hb0 Hp Hr
      st1 a b y Hab) as (st2 & a' & b' & Hst2 & Hab'); [lia|]. exists st2. eauto.
  - by exists st', p, a, b.
Qed.

(** The loop ends: with [n] units that have a bit, [3 - n] repetitions are enough. *)
Lemma select_rounds_ok log rowLike (flip : bool) da db ta tb a0 b0 (fuel : nat) st :
  readable da -> readable db -> grid (sl_match st) -> 0 <= sp_w (sl_match st) -> 0 <= sp_h (sl_match st) ->
  history (stateNode st) (stateNodeCount st) (stateNodePower st) ->
  column ta a0 -> column tb b0 -> pairing a0 b0 ->
  let W := if flip then sp_h (sl_match st) else sp_w (sl_match st) in
  let H := if flip then sp_w (sl_match st) else sp_h (sl_match st) in
  Zlen a0 = W -> Zlen b0 = H -> 3 <= stateNodeCount st + Z.of_nat fuel ->
  exists st' a b, select_rounds log rowLike flip da db W H ta tb fuel st = Ok st' /\
    column (sl_asel st') a /\ column (sl_bsel st') b /\ pairing a b /\ extends a0 a /\ extends b0 b /\
    sized (sl_anorm st) (sl_anorm st') /\ sized (sl_bnorm st) (sl_bnorm st').
Proof.
  intros Ha Hb Hg Hw Hh Hhist Hta Htb Hpair. revert st Hg Hw Hh Hhist.
  induction fuel as [|fuel IH]; intros st Hg Hw Hh Hhist W H Ha0 Hb0 Hfuel; cbn [select_rounds];
    destruct (select_round_ok log rowLike flip da db ta tb st a0 b0) as (st' & p & a & b & Hst' & Hab);
    try done; fold W H in Hst'; rewrite Hst', bind_Ok; pose proof Hab as [];
    (destruct (repeatNeeded st') eqn:E; [|exists st', a, b; by split_and!]).
  - specialize (sk_repeat0 eq_refl). lia.
  - specialize (sk_repeat0 eq_refl). pose proof sk_match0 as (Ew & Eh & Hg').
    destruct (IH st') as (st2 & a2 & b2 & Hst2 & ? & ? & ? & ? & ? & [??] & [??]);
      try done; try lia; try (by auto); try (rewrite ?Ew, ?Eh; done).
    exists st2, a2, b2. rewrite Ew, Eh in Hst2. split; [exact Hst2|].
    destruct sk_anorm0, sk_bnorm0. split_and!; try done; unfold sized; split; congruence.
Qed.

(** ** MeasureMan *)

Section Man.
Context {S : Type} `{MeasureLaws S} (log : float -> float).
Context (v1 v2 : SheetView) (Hv1 : readable (sheet v1)) (Hv2 : readable (sheet v2)).
Abbreviation la := (ml_len (S:=S) (sheet v1)).
Abbreviation lb := (ml_len (S:=S) (sheet v2)).

(** A pass that compares the sheet of [v], of [n] units, with itself. *)
Record norm_ok (v : SheetView) (n : Z) (p : MeasurePass) : Prop := {
  no_va : va p = v;
  no_vb : vb p = v;
  no_w : sp_w (pmatch p) = n;
  no_h : sp_h (pmatch p) = n;
  no_bound : bound p = -1
}.

(** The matching of [v1] and [v2], with the matches [a] and [b]. *)
Record man_ok (m : MeasureMan S) (a b : list Z) : Prop := {
  mo_va : va (main_pass m) = v1;
  mo_vb : vb (main_pass m) = v2;
  mo_main : pass_ok la lb (main_pass m) a b;
  mo_anorm : norm_ok v1 la (anorm_pass m);
  mo_bnorm : norm_ok v2 lb (bnorm_pass m);
  mo_ready : ml_ready (main m) v1 v2;
  mo_aready : ml_ready (anorm m) v1 v1;
  mo_bready : ml_ready (bnorm m) v2 v2;
  mo_ctrl : getCtrlMax (anorm m) = getCtrlMax (main m) /\ getCtrlMax (bnorm m) = getCtrlMax (main m);
  mo_pairing : pairing a b
}.

(** A pass of a sheet with itself measures and is summed up. *)
Lemma norm_measure (s : S) v n p t (l : list Z) ctrl :
  norm_ok v n p -> n = ml_len (S:=S) (sheet v) -> ml_ready s v v -> column t l -> Zlen l = n ->
  0 <= ctrl <= getCtrlMax s ->
  exists s' p' st p'', measure s (set_sel p t t) ctrl = Ok (s', p') /\ ml_ready s' v v /\
    getCtrlMax s' = getCtrlMax s /\ flatten p' = Ok (st, p'') /\ norm_ok v n p''.
Proof.
  intros [Ea Eb Hw Hh Hbd] -> Hr Ht Hl Hc.
  destruct (ml_measure s (set_sel p t t) l l ctrl) as (s' & m & E & Hr' & Hc' & _ & Hw' & Hh');
    cbn [set_sel va vb]; rewrite ?Ea, ?Eb; try done.
  cbn [set_sel va vb] in Hr', Hw', Hh'. rewrite Ea, Eb in *.
  destruct (flatten_ok (ml_len (S:=S) (sheet v)) (set_match (set_sel p t t) m) l l) as (st & m2 & Ef & ? & ?).
  { by constructor. }
  exists s', (set_match (set_sel p t t) m), st, (set_match (set_match (set_sel p t t) m) m2).
  split_and!; try done.
Qed.

Lemma measurements_ok m a b ctrl :
  man_ok m a b -> 0 <= ctrl <= getCtrlMax (main m) ->
  exists m', measurements m ctrl = Ok m' /\ man_ok m' a b /\ grid (pmatch (main_pass m')) /\
    getCtrlMax (main m') = getCtrlMax (main m).
Proof.
  intros Hm Hc. unfold measurements. destruct (mo_ctrl _ _ _ Hm) as [Ec1 Ec2].
  pose proof (mo_va _ _ _ Hm) as Eva. pose proof (mo_vb _ _ _ Hm) as Evb.
  pose proof (mo_main _ _ _ Hm) as Hpass.
  destruct (ml_measure (main m) (main_pass m) a b ctrl) as (s1 & t & -> & Hr1 & Hc1 & Hg & Hw & Hh);
    rewrite ?Eva, ?Evb; try done; [apply Hm|]. rewrite Eva, Evb in *. rewrite bind_Ok.
  cbn [set_match asel bsel].
  destruct (norm_measure (anorm m) v1 la (anorm_pass m) (asel (main_pass m)) a ctrl)
    as (s2 & p2 & ast & p2' & -> & Hr2 & Hc2 & Hf2 & Hn2); try done; try apply Hm; try (by destruct Hpass).
  { by rewrite Ec1. }
  rewrite bind_Ok, Hf2, bind_Ok.
  destruct (norm_measure (bnorm m) v2 lb (bnorm_pass m) (bsel (main_pass m)) b ctrl)
    as (s3 & p3 & bst & p3' & -> & Hr3 & Hc3 & Hf3 & Hn3); try done; try apply Hm; try (by destruct Hpass).
  { by rewrite Ec2. }
  rewrite bind_Ok, Hf3, bind_Ok. set (q := if _ && _ then _ else _).
  eexists. split; [done|]. split_and!; [|done|done].
  assert (norm_ok v2 lb q) as Hq.
  { unfold q. destruct (_ && _); [|done]. destruct (SFltb _ _); [|done]. by destruct Hn3. }
  destruct Hpass. constructor; cbn; try done; [by rewrite Hc1, Hc2, Hc3|apply Hm].
Qed.

(** A pass of the comparison returns, and keeps the matches there were. *)
Lemma compare1_ok m a b ctrl :
  man_ok m a b -> 0 <= ctrl <= getCtrlMax (main m) ->
  exists m' a' b', compare1 log m ctrl = Ok m' /\ man_ok m' a' b' /\ extends a a' /\ extends b b' /\
    getCtrlMax (main m') = getCtrlMax (main m).
Proof using Hv1 Hv2.
  intros Hm Hc. unfold compare1.
  destruct (measurements_ok m a b ctrl Hm Hc) as (m1 & -> & Hm1 & Hg & Hcm). rewrite bind_Ok.
  pose proof (mo_main _ _ _ Hm1) as Hp. pose proof Hp as [Pa Pb La Lb Pw Ph Pbd].
  set (t := pmatch (main_pass m1)) in *. set (flip := sp_w t <? sp_h t).
  rewrite (mo_va _ _ _ Hm1), (mo_vb _ _ _ Hm1).
  pose proof (mo_pairing _ _ _ Hm1) as Hpair.
  edestruct (select_rounds_ok log (rowLike m1) flip (if flip then sheet v2 else sheet v1)
     (if flip then sheet v1 else sheet v2) (if flip then bsel (main_pass m1) else asel (main_pass m1))
     (if flip then asel (main_pass m1) else bsel (main_pass m1)) (if flip then b else a)
     (if flip then a else b) 3 (Selection (if flip then bsel (main_pass m1) else asel (main_pass m1))
        (if flip then asel (main_pass m1) else bsel (main_pass m1)) t (pmatch (anorm_pass m1))
        (pmatch (bnorm_pass m1)) ∅ 0 1 false Vit.new_viterbi))
    as (st & a' & b' & Est & Hsa & Hsb & Hpair' & Ea & Eb & [Aw Ah] & [Bw Bh]);
    cbn [sl_match stateNode stateNodeCount stateNodePower] in *;
    try (by destruct flip); try done; try lia; try apply history_new;
    try (destruct flip; lia); try (destruct flip; [by apply pairing_sym|done]).
  cbn [sl_anorm sl_bnorm] in *. rewrite Est, bind_Ok.
  eexists _, (if flip then b' else a'), (if flip then a' else b'). split; [done|].
  split_and!; try (by destruct flip); try done.
  destruct Hm1 as [? ? ? [] [] ? ? ? [] ?]. constructor; cbn; try done; try (constructor; cbn; congruence).
  - destruct flip; (constructor; cbn; [done|done|destruct Ea, Eb; lia|destruct Ea, Eb; lia|done|done|done]).
  - destruct flip; [by apply pairing_sym|done].
Qed.

Lemma unmatched_ok t l : column t l -> exists n, unmatched t = Ok n.
Proof.
  intros Ht. unfold unmatched. rewrite (column_h t l Ht).
  destruct (foldR_inv (fun _ : Z => True) (fun n j => x ← Typed.cell t 0 j; Ok (if x =? -1 then n + 1 else n))
    (seqZ 0 (Zlen l)) 0) as (n & -> & _); [done| |by exists n].
  intros n j Hj%elem_of_seqZ _. rewrite (column_cell t l), bind_Ok by (done || lia). eauto.
Qed.

Lemma passes_ok (n : nat) rem ctrl m a b :
  man_ok m a b -> 0 <= ctrl <= getCtrlMax (main m) ->
  exists m' a' b', passes log n rem ctrl m = Ok m' /\ man_ok m' a' b' /\ extends a a' /\ extends b b'.
Proof using Hv1 Hv2.
  revert rem ctrl m a b. induction n as [|n IH]; intros rem ctrl m a b Hm Hc; cbn [passes];
    [by exists m, a, b|].
  destruct (compare1_ok m a b ctrl Hm Hc) as (m1 & a1 & b1 & -> & Hm1 & Ea & Eb & Hcm). rewrite bind_Ok.
  destruct (unmatched_ok (bsel (main_pass m1)) b1) as (r & ->); [apply Hm1|]. rewrite bind_Ok.
  assert (forall rem' ctrl', 0 <= ctrl' <= getCtrlMax (main m1) -> exists m' a' b',
    passes log n rem' ctrl' m1 = Ok m' /\ man_ok m' a' b' /\ extends a a' /\ extends b b') as Hgo.
  { intros rem' ctrl' Hc'. destruct (IH rem' ctrl' m1 a1 b1 Hm1 Hc') as (m' & a' & b' & -> & ? & ? & ?).
    exists m', a', b'. split_and!; try done; by etrans. }
  repeat match goal with |- context [if ?c then _ else _] => destruct c eqn:? end;
    try (by exists m1, a1, b1); apply Hgo; lia.
Qed.

Lemma compareCore_ok m a b :
  man_ok m a b ->
  exists m' a' b', compareCore log m = Ok m' /\ man_ok m' a' b' /\ extends a a' /\ extends b b'.
Proof using Hv1 Hv2.
  intros Hm. unfold compareCore. destruct (unmatched_ok (bsel (main_pass m)) b) as (r & ->); [apply Hm|].
  rewrite bind_Ok. destruct (r =? 0); [by exists m, a, b|]. apply passes_ok; [done|].
  pose proof (ml_ctrl (main m)). lia.
Qed.
End Man.
