(* ===== verification/RowManSpec.v ===== *)
(** * The measures of rows and columns keep their promise

    The features of a sheet point to units of it, so that what [RowManOf] and [ColMan]
    add to the sheet of likeness lies in its grid; with that [CombinedRowMan] and
    [ColMan] are instances of [MeasureLaws]. *)

From Stdlib Require Import SpecFloat.
From stdpp Require Import gmap.
From S2P Require Import Prelude Sheet CsvFile Viterbi OrderMerge OrderMergeSpec Measure RowMan MeasureSpec.
#[local] Open Scope Z_scope.
#[local] Arguments cstr s%_string.

(** Side conditions on the units of a loop. *)
Ltac units := try done; try (by intros ? ?; hnf; intros).

(** ** Features *)

(** [fv_in n v]: the places of [v] that count are below [n]. *)
Class FValLaws (V : Type) `{FVal V} := {
  fv_in : Z -> V -> Prop;
  fv_in_new : forall n, fv_in n fv_new;
  fv_in_set : forall n v y (alt : bool), (alt = false -> 0 <= y < n) -> fv_in n v ->
    fv_in n (fv_setIndex v y alt);
  fv_apply_refit : forall m v row, fv_in (sp_w m) v -> 0 <= row < sp_h m -> refit m (fv_apply v m row)
}.

#[export, program] Instance FSingleVal_FValLaws : FValLaws FSingleVal :=
  {| fv_in n v := 0 <= fs_index v -> fs_index v < n |}.
Next Obligation. intros n H. cbn in *. lia. Qed.
Next Obligation.
  intros n v y alt Hy Hv. cbn. unfold single_setIndex. destruct alt; [|specialize (Hy eq_refl)];
    repeat case_match; cbn; try done; lia.
Qed.
Next Obligation.
  intros m v row Hv Hr. cbn. unfold single_apply. rewrite Z.geb_leb.
  destruct (Z.leb_spec 0 (fs_index v)); [|done]. apply bump_cell_refit. split; [split; [done|by apply Hv]|done].
Qed.

#[export, program] Instance FMultiVal_FValLaws : FValLaws FMultiVal :=
  {| fv_in n v := forall x, x ∈ fm_indices v -> 0 <= x < n |}.
Next Obligation. intros n x. cbn. set_solver. Qed.
Next Obligation.
  intros n v y alt Hy Hv. cbn. unfold multi_setIndex. destruct alt; [by case_match|].
  case_match; [|done]. cbn. intros x [->%elem_of_singleton|Hx]%elem_of_union; auto.
Qed.
Next Obligation.
  intros m v row Hv Hr. cbn. unfold multi_apply. repeat case_match; try done; clear - Hv Hr;
    apply (foldl_inv (refit m)); try done; intros t x Hx%elem_of_set_elements Ht;
    (etrans; [exact Ht|]); apply bump_cell_refit; destruct Ht as (Ew & Eh & _);
    unfold in_grid; rewrite Ew, Eh; auto.
Qed.

(** ** Maps of features *)

Section Features.
Context {V : Type} `{FValLaws V}.

Definition features (n : Z) (f : gmap (list Z) V) : Prop := map_Forall (fun _ v => fv_in n v) f.

(** A map over a sheet of likeness of [wd] and [ht] units. *)
Record map_ok (wd ht : Z) (m : FPolyMap V) : Prop := {
  mk_features : features wd (fp_f m);
  mk_grid : grid (rowMatch m);
  mk_w : sp_w (rowMatch m) = wd;
  mk_h : sp_h (rowMatch m) = ht
}.

(** The unit [y] whose features are added or looked for. *)
Definition unit_ok (wd ht y : Z) (query alt : bool) : Prop :=
  if query then 0 <= y < ht else alt = false -> 0 <= y < wd.

Lemma applyBit_ok wd ht m y bit query alt :
  map_ok wd ht m -> unit_ok wd ht y query alt -> map_ok wd ht (applyBit m y bit query alt).
Proof.
  intros [Hf Hg Hw Hh] Hy. unfold applyBit, queryBit, addBit. destruct query; simpl in Hy.
  - destruct (fp_f m !! bit) as [v|] eqn:E; [|done].
    destruct (fv_apply_refit (rowMatch m) v y) as (Ew & Eh & Hg').
    { rewrite Hw. by apply (Hf bit). } { by rewrite Hh. }
    constructor; cbn; [done|by apply Hg'|congruence|congruence].
  - destruct (fp_f m !! bit) as [v|] eqn:E; [|destruct alt; [done|]]; (constructor; cbn; [|done..]);
      apply map_Forall_insert_2; try done; apply fv_in_set; try done.
    + by apply (Hf bit).
    + apply fv_in_new.
Qed.

Lemma substr_ok t i n : 0 <= i <= Zlen t -> exists u, substr t i n = Ok u.
Proof.
  intros Hi. unfold substr. rewrite check_true; [by eexists|].
  apply andb_true_iff. split; [apply Z.leb_le|apply Z.leb_le]; lia.
Qed.

Lemma add_parts_ok wd ht txt y query alt m k :
  map_ok wd ht m -> unit_ok wd ht y query alt -> 0 <= k ->
  exists m', add_parts txt (tolower <$> txt) y query alt m k = Ok m' /\ map_ok wd ht m'.
Proof.
  intros Hm Hy Hk. unfold add_parts. apply foldR_inv; [done|]. intros u i Hi%elem_of_seqZ Hu.
  destruct (substr_ok txt i (k + 1)) as (part & ->); [lia|]. rewrite bind_Ok. case_bool_decide.
  - destruct (substr_ok (tolower <$> txt) i (k + 1)) as (low & ->); [rewrite length_fmap; lia|].
    rewrite bind_Ok. eexists. split; [done|]. case_bool_decide; repeat apply applyBit_ok; done.
  - eexists. split; [done|]. by apply applyBit_ok.
Qed.

Lemma add_ok wd ht m y txt query alt ctrl :
  map_ok wd ht m -> unit_ok wd ht y query alt -> 0 <= ctrl <= fmap_ctrlMax ->
  exists m', feature_add m y txt query alt ctrl = Ok m' /\ map_ok wd ht m'.
Proof.
  unfold fmap_ctrlMax. intros Hm Hy Hc. unfold feature_add. apply (applyBit_ok _ _ m y txt query alt) in Hm; [|done].
  destruct (ctrl =? 0); [by eexists|]. apply foldR_inv; [done|].
  intros u k Hk Hu. apply list_elem_of_fmap in Hk as (i & -> & Hi%elem_of_seqZ).
  apply add_parts_ok; [done|done|lia].
Qed.
End Features.

(** A cell of a sheet that can be read. *)
Lemma cell_text a x y : readable a -> 0 <= x < width a -> 0 <= y < height a -> exists t, ds_text a x y = Ok t.
Proof. intros Ha Hx Hy. destruct (so_cells a Ha x y Hx Hy) as (t & _ & -> & _). eauto. Qed.

(** ** RowManOf *)

Section Rows.
Context {V : Type} `{FValLaws V}.

(** The mapping of the columns stays in the sheets. *)
Definition cols_ok (comp : comparison_order) (v1 v2 : SheetView) : Prop :=
  isBlank comp = true \/
  forall i, 0 <= i < width (sheet v1) ->
    exists j, comp_a2b comp i = Ok j /\ (j = -1 \/ 0 <= j < width (sheet v2)).

Record rowman_ready (r : RowManOf V) (v1 v2 : SheetView) : Prop := {
  rr_vigor : vigor r = 0;
  rr_features : features (height (sheet v1)) (fp_f (rm_map r));
  rr_ref : Forall (fun x => 0 <= x < width (sheet v1)) (ref_subset r);
  rr_query : Forall (fun x => 0 <= x < width (sheet v2)) (query_subset r);
  rr_comp : cols_ok (rm_comp r) v1 v2;
  rr_v1 : readable (sheet v1);
  rr_v2 : readable (sheet v2)
}.

Lemma add_cells_ok wd ht a y query alt ctrl xs m :
  map_ok wd ht m -> unit_ok wd ht y query alt -> 0 <= ctrl <= fmap_ctrlMax -> readable a ->
  0 <= y < height a -> Forall (fun x => 0 <= x < width a) xs ->
  exists m', add_cells (V:=V) a y query alt ctrl xs m = Ok m' /\ map_ok wd ht m'.
Proof.
  intros Hm Hy Hc Ha Hya Hxs. unfold add_cells. apply foldR_inv; [done|]. intros u x Hx Hu.
  rewrite list.Forall_forall in Hxs. destruct (cell_text a x y Ha (Hxs x Hx) Hya) as (t & ->).
  rewrite bind_Ok. by apply add_ok.
Qed.

Lemma ids_key_ok a y xs :
  readable a -> 0 <= y < height a -> Forall (fun x => 0 <= x < width a) xs ->
  exists t, ids_key a y xs = Ok t.
Proof.
  intros Ha Hy Hxs. unfold ids_key. rewrite list.Forall_forall in Hxs.
  destruct (foldR_inv (fun _ : list Z => True)
    (fun txt x => t ← ds_text a x y; Ok (txt ++ t ++ cstr "__")) xs []) as (t & -> & _); [done| |eauto].
  intros u x Hx _. destruct (cell_text a x y Ha (Hxs x Hx) Hy) as (t & ->). rewrite bind_Ok. eauto.
Qed.

(** The columns that [apply] looks at. *)
Definition target_ok (r : RowManOf V) (a : DataSheet) (target : Z) (query : bool) : Prop :=
  if trust_ids (rm_flags r) || bias_ids (rm_flags r)
  then Forall (fun x => 0 <= x < width a) (if query then query_subset r else ref_subset r)
  else target = -1 \/ 0 <= target < width a.

Lemma apply_row_ok wd ht r a sel l target query alt ctrl m at_ y :
  map_ok wd ht m -> unit_ok wd ht y query alt -> 0 <= ctrl <= fmap_ctrlMax -> readable a ->
  0 <= y < height a -> column sel l -> Zlen l = height a -> target_ok r a target query -> at_ <= y ->
  exists m' at', apply_row r a sel target query alt ctrl (height a) (m, at_) y = Ok (m', at') /\
    map_ok wd ht m' /\ at' <= y + 1.
Proof.
  intros Hm Hu Hc Ha Hy Hl Hlen Ht Hat. unfold apply_row. rewrite (column_cell sel l), bind_Ok by (done || lia).
  destruct (look l y =? -1); [|exists m, at_; split_and!; done || lia].
  rewrite (proj2 (Z.ltb_lt at_ (height a))) by lia. unfold target_ok in Ht.
  assert (exists m', (if negb (trust_ids (rm_flags r)) then
     if negb (bias_ids (rm_flags r)) then add_cells a y query alt ctrl
       (if target =? -1 then seqZ 0 (width a) else [target]) m
     else add_cells a y query alt ctrl (if query then query_subset r else ref_subset r) m
     else txt ← ids_key a y (if query then query_subset r else ref_subset r); feature_add m y txt query alt 0) = Ok m' /\
     map_ok wd ht m') as (m' & -> & Hm').
  { destruct (trust_ids (rm_flags r)); cbn [negb orb] in *.
    - destruct (ids_key_ok a y _ Ha Hy Ht) as (txt & ->). rewrite bind_Ok.
      apply add_ok; [done|done|unfold fmap_ctrlMax; lia].
    - destruct (bias_ids (rm_flags r)); cbn [negb] in *; apply add_cells_ok; try done.
      destruct (Z.eqb_spec target (-1)).
      + apply list.Forall_forall. intros x Hx%elem_of_seqZ. lia.
      + apply Forall_singleton. destruct Ht; [done|]. lia. }
  rewrite bind_Ok. eexists _, _. split_and!; [done|done|lia].
Qed.

Lemma apply_sheet_ok wd ht r a sel l target query alt ctrl :
  vigor r = 0 -> rm_bound r = -1 -> map_ok wd ht (rm_map r) ->
  (forall y, 0 <= y < height a -> unit_ok wd ht y query alt) -> 0 <= ctrl <= fmap_ctrlMax -> readable a ->
  column sel l -> Zlen l = height a -> target_ok r a target query ->
  exists m, apply_sheet r a sel target query alt ctrl = Ok (with_map r m) /\ map_ok wd ht m.
Proof.
  intros Hv Hb Hm Hu Hc Ha Hl Hlen Ht. unfold apply_sheet. rewrite Hb, Hv. cbn [Z.ltb Z.compare Z.eqb].
  destruct (foldR_seqZ (fun i st => map_ok wd ht st.1 /\ st.2 <= i)
      (apply_row r a sel target query alt ctrl (height a)) (height a) (rm_map r, 0))
    as ([m at_] & -> & Hm' & _).
  - apply Ha.
  - done.
  - intros y [m at_] Hy [Hm' Hat]. cbn [fst snd] in *.
    destruct (apply_row_ok wd ht r a sel l target query alt ctrl m at_ y) as (m' & at' & -> & ? & ?);
      try done; [by apply Hu|]. eexists. split; [done|]. done.
  - rewrite !bind_Ok. exists m. done.
Qed.

(** A column that is mapped. *)
Lemma apply_column_ok r v1 v2 ta tb a b ctrl i :
  rowman_ready r v1 v2 -> trust_ids (rm_flags r) || bias_ids (rm_flags r) = false ->
  isBlank (rm_comp r) = false -> rm_bound r = -1 ->
  map_ok (height (sheet v1)) (height (sheet v2)) (rm_map r) ->
  column ta a -> Zlen a = height (sheet v1) -> column tb b -> Zlen b = height (sheet v2) ->
  0 <= ctrl <= fmap_ctrlMax -> 0 <= i < width (sheet v1) ->
  exists m, apply_column (sheet v1) (sheet v2) ta tb ctrl r i = Ok (with_map r m) /\
    map_ok (height (sheet v1)) (height (sheet v2)) m.
Proof.
  intros [Hv Hf _ _ Hcomp Hs1 Hs2] Hfl Hbl Hb Hm Ha Hla Hbc Hlb Hc Hi. unfold apply_column.
  destruct Hcomp as [Hcomp|Hcomp]; [congruence|]. destruct (Hcomp i Hi) as (j & -> & Hj).
  rewrite bind_Ok. destruct (Z.eqb_spec j (-1)) as [|Hne]; cbn [negb].
  { exists (rm_map r). split; [by destruct r|done]. }
  assert (map_ok (height (sheet v1)) (height (sheet v2)) (resetCache (rm_map r))) as Hm0.
  { destruct Hm. constructor; [apply map_Forall_empty|done..]. }
  destruct (apply_sheet_ok (height (sheet v1)) (height (sheet v2)) (with_map r (resetCache (rm_map r)))
    (sheet v1) ta a i false false ctrl) as (m1 & -> & Hm1); units.
  { unfold target_ok. cbn [with_map rm_flags]. rewrite Hfl. by right. }
  rewrite bind_Ok.
  destruct (apply_sheet_ok (height (sheet v1)) (height (sheet v2)) (with_map r m1)
    (sheet v2) tb b j false true ctrl) as (m2 & E2 & Hm2); units.
  { unfold target_ok. cbn [with_map rm_flags]. rewrite Hfl. by destruct Hj; [left|right]. }
  change (with_map (with_map r (resetCache (rm_map r))) m1) with (with_map r m1). rewrite E2, bind_Ok.
  destruct (apply_sheet_ok (height (sheet v1)) (height (sheet v2)) (with_map r m2)
    (sheet v2) tb b j true false ctrl) as (m3 & E3 & Hm3); units.
  { unfold target_ok. cbn [with_map rm_flags]. rewrite Hfl. by destruct Hj; [left|right]. }
  change (with_map (with_map r m1) m2) with (with_map r m2). rewrite E3. by exists m3.
Qed.

Lemma apply_sheets_ok r v1 v2 ta tb a b ctrl :
  rowman_ready r v1 v2 -> rm_bound r = -1 ->
  column ta a -> Zlen a = height (sheet v1) -> column tb b -> Zlen b = height (sheet v2) ->
  0 <= ctrl <= fmap_ctrlMax ->
  exists m, apply_sheets r (sheet v1) (sheet v2) ta tb ctrl = Ok (with_map r m) /\
    map_ok (height (sheet v1)) (height (sheet v2)) m.
Proof.
  intros Hr Hb Ha Hla Hbc Hlb Hc. unfold apply_sheets. pose proof Hr as [Hv Hf Href Hq Hcomp Hs1 Hs2].
  set (m0 := FPolyMap_ _ _).
  assert (map_ok (height (sheet v1)) (height (sheet v2)) m0) as Hm0.
  { constructor; [done|apply grid_resize|done|done]. }
  cbn [with_map rm_flags rm_comp].
  destruct (trust_ids (rm_flags r) || bias_ids (rm_flags r)) eqn:Efl; cbn [orb];
    [|destruct (isBlank (rm_comp r)) eqn:Ebl].
  1,2: destruct (apply_sheet_ok (height (sheet v1)) (height (sheet v2)) (with_map r m0)
      (sheet v1) ta a (-1) false false ctrl) as (m1 & -> & Hm1); units;
    [unfold target_ok; cbn [with_map rm_flags ref_subset]; rewrite Efl; by auto|];
    rewrite bind_Ok;
    destruct (apply_sheet_ok (height (sheet v1)) (height (sheet v2)) (with_map r m1)
      (sheet v2) tb b (-1) true false ctrl) as (m2 & E2 & Hm2); units;
    [unfold target_ok; cbn [with_map rm_flags query_subset]; rewrite Efl; by auto|];
    change (with_map (with_map r m0) m1) with (with_map r m1); rewrite E2; by exists m2.
  destruct (foldR_inv (fun r' => exists m, r' = with_map r m /\
      map_ok (height (sheet v1)) (height (sheet v2)) m)
    (apply_column (sheet v1) (sheet v2) ta tb ctrl) (seqZ 0 (width (sheet v1))) (with_map r m0))
    as (r' & -> & m & -> & Hm); [by exists m0| |by exists m].
  intros r' i Hi%elem_of_seqZ (m & -> & Hm).
  destruct (apply_column_ok (with_map r m) v1 v2 ta tb a b ctrl i) as (m' & -> & Hm'); try done.
  { constructor; try done. by destruct Hm. }
  exists (with_map r m'). split; [done|]. by exists m'.
Qed.

Lemma rowman_measure_ok r p a b ctrl :
  rowman_ready r (va p) (vb p) ->
  pass_ok (height (sheet (va p))) (height (sheet (vb p))) p a b -> 0 <= ctrl <= fmap_ctrlMax ->
  exists r' m, rowman_measure r p ctrl = Ok (r', set_match p m) /\ rowman_ready r' (va p) (vb p) /\
    grid m /\ sp_w m = height (sheet (va p)) /\ sp_h m = height (sheet (vb p)).
Proof.
  intros Hr [Pa Pb La Lb _ _ Pbd] Hc. unfold rowman_measure. set (r0 := RowManOf_ _ _ _ _ _ _ _).
  assert (rowman_ready r0 (va p) (vb p)) as Hr0 by (destruct Hr; by constructor).
  destruct (apply_sheets_ok r0 (va p) (vb p) (asel p) (bsel p) a b ctrl) as (m & -> & [Hf Hg Hw Hh]);
    try done. rewrite bind_Ok. eexists _, _. split; [done|]. split_and!; try done.
  destruct Hr0. by constructor.
Qed.
End Rows.

(** ** CombinedRowMan *)

(** A new object, for views whose columns [comp] maps. *)
Definition combined_new (r : CombinedRowMan) (v1 v2 : SheetView) : Prop :=
  exists flags comp, r = new_combined flags comp /\ cols_ok comp v1 v2 /\ view_ok v1 /\ view_ok v2.

Lemma new_rowman_ready {V} `{FValLaws V} flags comp v1 v2 :
  cols_ok comp v1 v2 -> readable (sheet v1) -> readable (sheet v2) ->
  rowman_ready (new_rowman (V:=V) flags comp) v1 v2.
Proof. intros Hc H1 H2. constructor; try done. Qed.

#[export, program] Instance CombinedRowMan_Laws : MeasureLaws CombinedRowMan := {|
  ml_len := height;
  ml_new := combined_new;
  ml_ready r v1 v2 := rowman_ready (man1 r) v1 v2 /\ rowman_ready (man2 r) v1 v2
|}.
Next Obligation. intros r. done. Qed.
Next Obligation.
  intros r p (flags & comp & -> & Hc & H1 & H2). cbn. unfold combined_setup, rowman_setup. cbn.
  eexists. split; [done|]. split; [|apply new_rowman_ready; [done|apply H1|apply H2]].
  destruct (new_rowman_ready (V:=FSingleVal) flags comp (va p) (vb p) Hc (vo_sheet _ H1) (vo_sheet _ H2)).
  destruct (trust_ids flags || bias_ids flags); constructor; try done; cbn; [apply H1|apply H2].
Qed.
Next Obligation.
  intros r p a b ctrl [H1 H2] Hp Hc. cbn in *. unfold combined_measure, theta, fmap_ctrlMax in *.
  change (Z.quot 4 2) with 2. rewrite Z.geb_leb. destruct (Z.leb_spec 2 ctrl).
  - destruct (rowman_measure_ok (man2 r) p a b (ctrl - 2)) as (r' & m & -> & Hr' & Hg & Hw & Hh);
      [done|done|unfold fmap_ctrlMax; lia|]. rewrite bind_Ok. eexists _, m. by split_and!.
  - destruct (rowman_measure_ok (man1 r) p a b ctrl) as (r' & m & -> & Hr' & Hg & Hw & Hh);
      [done|done|unfold fmap_ctrlMax; lia|]. rewrite bind_Ok. eexists _, m. by split_and!.
Qed.

(** ** ColMan *)

(** The mapping of the rows stays in the sheets. *)
Definition rows_ok (comp : comparison_order) (v1 v2 : SheetView) : Prop :=
  forall j, 0 <= j < height (sheet v2) ->
    exists i, comp_b2a comp j = Ok i /\ (i = -1 \/ 0 <= i < height (sheet v1)).

Abbreviation col_map_ok := (map_ok (V:=FMultiVal)).

Lemma add_units_ok wd ht query alt text n m :
  col_map_ok wd ht m -> (forall i, 0 <= i < n -> exists t, text i = Ok t) ->
  (forall i, 0 <= i < n -> unit_ok wd ht i query alt) ->
  exists m', add_units query alt text n m = Ok m' /\ col_map_ok wd ht m'.
Proof.
  intros Hm Ht Hu. unfold add_units. apply foldR_inv; [done|]. intros u i Hi%elem_of_seqZ Hu'.
  destruct (Ht i) as (t & ->); [lia|]. rewrite bind_Ok.
  apply add_ok; [done|apply Hu; lia|unfold fmap_ctrlMax; lia].
Qed.

Lemma rd_text (l : list (list Z)) n : Zlen l = n -> forall i, 0 <= i < n -> exists t, rd l i = Ok t.
Proof.
  intros Hl i Hi. destruct (lookup_lt_is_Some_2 l (Z.to_nat i)) as [t Ht]; [lia|].
  exists t. apply rd_ok; [lia|done].
Qed.

(** Rows of a sheet, one after the other. *)
Lemma add_rows_ok wd ht query alt d m :
  col_map_ok wd ht m -> readable d -> (forall i, 0 <= i < width d -> unit_ok wd ht i query alt) ->
  exists m', foldR (fun m r => add_units query alt (fun j => ds_text d j r) (width d) m)
               (seqZ 0 (height d)) m = Ok m' /\ col_map_ok wd ht m'.
Proof.
  intros Hm Hd Hu. apply foldR_inv; [done|]. intros u r Hr%elem_of_seqZ Hu'.
  apply add_units_ok; [done| |done]. intros i Hi. apply cell_text; [done|done|lia].
Qed.

Section Columns.
Context (v1 v2 : SheetView) (H1 : readable (sheet v1)) (H2 : readable (sheet v2)).

(** A pass whose sheet of likeness has grown. *)
Definition grown (p p' : MeasurePass) : Prop :=
  exists m, p' = set_match p m /\ grid m /\ sp_w m = width (sheet v1) /\ sp_h m = width (sheet v2).

Context (p0 : MeasurePass) (E1 : va p0 = v1) (E2 : vb p0 = v2).

Lemma grown_map p :
  grown p0 p -> col_map_ok (width (sheet v1)) (width (sheet v2)) (FPolyMap_ ∅ (pmatch p)) /\
    va p = v1 /\ vb p = v2.
Proof using E1 E2.
  intros (m & -> & Hg & Hw & Hh). split_and!; [|done..]. constructor; try done.
Qed.

Lemma grown_set p m :
  grown p0 p -> col_map_ok (width (sheet v1)) (width (sheet v2)) m ->
  grown p0 (set_match p (rowMatch m)).
Proof. intros (t & -> & _) [_ Hg Hw Hh]. by exists (rowMatch m). Qed.

(** The three steps of a comparison of units by their texts. *)
Lemma three_steps text1 text2 m :
  col_map_ok (width (sheet v1)) (width (sheet v2)) m ->
  (forall i, 0 <= i < width (sheet v1) -> exists t, text1 i = Ok t) ->
  (forall j, 0 <= j < width (sheet v2) -> exists t, text2 j = Ok t) ->
  exists m', (m ← add_units false false text1 (width (sheet v1)) m;
              m ← add_units false true text2 (width (sheet v2)) m;
              add_units true false text2 (width (sheet v2)) m) = Ok m' /\
    col_map_ok (width (sheet v1)) (width (sheet v2)) m'.
Proof.
  intros Hm Ht1 Ht2.
  destruct (add_units_ok (width (sheet v1)) (width (sheet v2)) false false text1 (width (sheet v1)) m)
    as (m1 & -> & Hm1); units. rewrite bind_Ok.
  destruct (add_units_ok (width (sheet v1)) (width (sheet v2)) false true text2 (width (sheet v2)) m1)
    as (m2 & -> & Hm2); units. rewrite bind_Ok. apply add_units_ok; units.
Qed.

Lemma name_features_ok p : grown p0 p -> exists p', name_features p = Ok p' /\ grown p0 p'.
Proof using E1 E2.
  intros Hp. destruct (grown_map p Hp) as (Hm & Ea & Eb). unfold name_features. rewrite Ea, Eb.
  destruct (Z.eqb_spec (Zlen (suggestNames v1)) (width (sheet v1))) as [L1|]; [|by exists p].
  destruct (Z.eqb_spec (Zlen (suggestNames v2)) (width (sheet v2))) as [L2|]; [|by exists p]. cbn [andb].
  destruct (three_steps (rd (suggestNames v1)) (rd (suggestNames v2)) _ Hm (rd_text _ _ L1) (rd_text _ _ L2))
    as (m' & E & Hm').
  exists (set_match p (rowMatch m')). split; [|by apply grown_set].
  res_inv. by rewrite Hx, bind_Ok, Hx0, bind_Ok, E, bind_Ok.
Qed.

Lemma row_features_ok p ra rb :
  grown p0 p -> 0 <= ra < height (sheet v1) -> 0 <= rb < height (sheet v2) ->
  exists p', row_features p ra rb = Ok p' /\ grown p0 p'.
Proof using H1 H2 E1 E2.
  intros Hp Hra Hrb. destruct (grown_map p Hp) as (Hm & Ea & Eb). unfold row_features. rewrite Ea, Eb.
  destruct (three_steps (fun i => ds_text (sheet v1) i ra) (fun j => ds_text (sheet v2) j rb) _ Hm)
    as (m' & E & Hm').
  { intros i Hi. by apply cell_text. } { intros j Hj. by apply cell_text. }
  exists (set_match p (rowMatch m')). split; [|by apply grown_set].
  res_inv. by rewrite Hx, bind_Ok, Hx0, bind_Ok, E, bind_Ok.
Qed.

Lemma header_features_ok p : grown p0 p -> exists p', header_features p = Ok p' /\ grown p0 p'.
Proof using H1 H2 E1 E2.
  intros Hp. destruct (grown_map p Hp) as (Hm & Ea & Eb). unfold header_features. rewrite Ea, Eb.
  set (m0 := FPolyMap_ _ _) in *.
  assert (exists m, (if width (sheet v1) =? Zlen (suggestNames v1) then
      m ← add_units false false (rd (suggestNames v1)) (width (sheet v1)) m0;
      m ← foldR (fun m rb => add_units false true (fun j => ds_text (sheet v2) j rb) (width (sheet v2)) m)
            (seqZ 0 (height (sheet v2))) m;
      foldR (fun m rb => add_units true false (fun j => ds_text (sheet v2) j rb) (width (sheet v2)) m)
        (seqZ 0 (height (sheet v2))) m
    else Ok m0) = Ok m /\ col_map_ok (width (sheet v1)) (width (sheet v2)) m) as (m1 & -> & Hm1).
  { destruct (Z.eqb_spec (width (sheet v1)) (Zlen (suggestNames v1))) as [L|]; [|by exists m0].
    destruct (add_units_ok (width (sheet v1)) (width (sheet v2)) false false (rd (suggestNames v1))
      (width (sheet v1)) m0) as (m1 & -> & Hm1); units; [by apply rd_text|]. rewrite bind_Ok.
    destruct (add_rows_ok (width (sheet v1)) (width (sheet v2)) false true (sheet v2) m1)
      as (m2 & -> & Hm2); units. rewrite bind_Ok. apply add_rows_ok; units. }
  rewrite bind_Ok.
  assert (exists m, (if width (sheet v2) =? Zlen (suggestNames v2) then
      m ← foldR (fun m ra => add_units false false (fun i => ds_text (sheet v1) i ra) (width (sheet v1)) m)
            (seqZ 0 (height (sheet v1))) m1;
      m ← add_units false true (rd (suggestNames v2)) (width (sheet v2)) m;
      add_units true false (rd (suggestNames v2)) (width (sheet v2)) m
    else Ok m1) = Ok m /\ col_map_ok (width (sheet v1)) (width (sheet v2)) m) as (m2 & -> & Hm2).
  { destruct (Z.eqb_spec (width (sheet v2)) (Zlen (suggestNames v2))) as [L|]; [|by exists m1].
    destruct (add_rows_ok (width (sheet v1)) (width (sheet v2)) false false (sheet v1) m1)
      as (m2 & -> & Hm2); units. rewrite bind_Ok.
    destruct (add_units_ok (width (sheet v1)) (width (sheet v2)) false true (rd (suggestNames v2))
      (width (sheet v2)) m2) as (m3 & -> & Hm3); units; [by apply rd_text|]. rewrite bind_Ok.
    apply add_units_ok; units. by apply rd_text. }
  rewrite bind_Ok. eexists. split; [done|]. by apply grown_set.
Qed.

(** The pairs of rows are in the sheets. *)
Lemma row_pairs_ok comp :
  rows_ok comp v1 v2 ->
  exists l, row_pairs comp (height (sheet v2)) = Ok l /\
    Forall (fun q => 0 <= q.1 < height (sheet v1) /\ 0 <= q.2 < height (sheet v2)) l.
Proof.
  intros Hc. unfold row_pairs. apply foldR_inv; [constructor|]. intros l j Hj%elem_of_seqZ Hl.
  destruct (Hc j) as (i & -> & Hi); [lia|]. rewrite bind_Ok. eexists. split; [done|].
  destruct (Z.eqb_spec i (-1)); cbn [negb]; [done|]. apply Forall_app. split; [done|].
  apply Forall_singleton. cbn. destruct Hi; [done|]. split; [done|lia].
Qed.
End Columns.

Lemma strides_range hh step r : 0 <= hh -> 1 <= step -> r ∈ strides hh step -> 0 <= r < hh.
Proof.
  intros Hh Hs Hr. unfold strides in Hr. apply list_elem_of_fmap in Hr as (n & -> & Hn%elem_of_seqZ).
  assert (step * ((hh + step - 1) / step) <= hh + step - 1) by (apply Z.mul_div_le; lia). nia.
Qed.

Definition colman_ready (c : ColMan) (v1 v2 : SheetView) : Prop :=
  rows_ok (cm_comp c) v1 v2 /\ readable (sheet v1) /\ readable (sheet v2).

Lemma colman_measure_ok c p a b ctrl :
  colman_ready c (va p) (vb p) ->
  pass_ok (width (sheet (va p))) (width (sheet (vb p))) p a b -> 0 <= ctrl ->
  exists m, colman_measure c p ctrl = Ok (c, set_match p m) /\ grid m /\
    sp_w m = width (sheet (va p)) /\ sp_h m = width (sheet (vb p)).
Proof.
  intros (Hc & H1 & H2) [_ _ _ _ Hw Hh _] Hctrl. unfold colman_measure.
  set (v1 := va p) in *. set (v2 := vb p) in *.
  assert (grown v1 v2 p (clearMatch p)) as Hp0.
  { unfold clearMatch. eexists. split; [done|]. split; [apply grid_resize|]. cbn. done. }
  assert (exists p1, (if (height (sheet v1) <? 10) || (height (sheet v2) <? 10)
     then name_features (clearMatch p) else Ok (clearMatch p)) = Ok p1 /\ grown v1 v2 p p1)
    as (p1 & -> & Hp1).
  { destruct (_ || _); [by eapply name_features_ok|by eexists]. }
  rewrite bind_Ok. destruct (row_pairs_ok v1 v2 (cm_comp c) Hc) as (pairs & -> & Hpairs). rewrite bind_Ok.
  set (hh := if Zlen pairs >? 100 then 100 else Zlen pairs).
  assert (0 <= hh <= Zlen pairs) as Hhh.
  { unfold hh. rewrite Z.gtb_ltb. destruct (Z.ltb_spec 100 (Zlen pairs)); lia. }
  set (step := if Z.quot hh (2 ^ (ctrl + 4)) <? 1 then 1 else Z.quot hh (2 ^ (ctrl + 4))).
  assert (1 <= step) as Hstep by (unfold step; destruct (Z.ltb_spec (Z.quot hh (2 ^ (ctrl + 4))) 1); lia).
  destruct (foldR_inv (grown v1 v2 p) (fun p rr => '(ra, rb) ← rd pairs rr; row_features p ra rb)
    (strides hh step) p1) as (p2 & -> & Hp2); [done| |].
  { intros q r Hr%strides_range Hq; [|lia|lia].
    destruct (lookup_lt_is_Some_2 pairs (Z.to_nat r)) as [[ra rb] Hq']; [lia|].
    rewrite (rd_ok _ r (ra, rb)), bind_Ok by (done || lia).
    destruct (Forall_lookup_1 _ _ _ _ Hpairs Hq'). by eapply row_features_ok. }
  rewrite bind_Ok.
  assert (exists p3, (if (step =? 1) && ((height (sheet v1) <? 10) || (height (sheet v2) <? 10)) &&
      ((hh <? Z.quot (height (sheet v1)) 2) || (hh <? Z.quot (height (sheet v2)) 2))
    then header_features p2 else Ok p2) = Ok p3 /\ grown v1 v2 p p3) as (p3 & -> & Hp3).
  { destruct (_ && _); [by eapply header_features_ok|by eexists]. }
  rewrite bind_Ok. destruct Hp3 as (m & -> & Hg & Hw3 & Hh3). by exists m.
Qed.

#[export, program] Instance ColMan_Laws : MeasureLaws ColMan := {|
  ml_len := width;
  ml_new := colman_ready;
  ml_ready := colman_ready
|}.
Next Obligation. intros c. cbn. lia. Qed.
Next Obligation. intros c p Hc. exists c. by split. Qed.
Next Obligation.
  intros c p a b ctrl Hc Hp Hctrl. cbn in *.
  destruct (colman_measure_ok c p a b ctrl) as (m & -> & Hg & Hw & Hh); [done|done|lia|].
  exists c, m. by split_and!.
Qed.
