(* ===== verification/SheetCompareSpec.v ===== *)
(** * The orders of a comparison are correspondences

    [compare_orders] returns for any three sheets whose cells can be read, and each of
    its four orders sends matched rows, or columns, to each other: the hypothesis under
    which [OrderMerge] accounts for all of them. *)

From Stdlib Require Import SpecFloat.
From stdpp Require Import gmap.
From S2P Require Import Prelude Sheet SheetSpec Sniffer SnifferSpec Viterbi OrderMerge OrderMergeSpec.
From S2P Require Import Measure RowMan MeasureMan SheetCompare MeasureSpec MeasureManSpec RowManSpec.
#[local] Open Scope Z_scope.
#[local] Arguments cstr s%_string.

(** ** Filling a column *)

(** The loop that looks at the cells of a column one by one, and gives cell [i] the value
    [g i]. *)
Lemma column_loop (f : TypedSheet Z -> Z -> result (TypedSheet Z)) (g : Z -> Z) t l :
  column t l ->
  (forall t l' i, column t l' -> Zlen l' = Zlen l -> 0 <= i < Zlen l -> look l' i = look l i ->
    exists t' l'', f t i = Ok t' /\ column t' l'' /\ Zlen l'' = Zlen l /\
      forall x, 0 <= x -> look l'' x = if decide (x = i) then g i else look l' x) ->
  exists t' l', foldR f (seqZ 0 (h t)) t = Ok t' /\ column t' l' /\ Zlen l' = Zlen l /\
    forall x, 0 <= x < Zlen l -> look l' x = g x.
Proof.
  intros Ht Hf. rewrite (column_h t l Ht).
  destruct (foldR_seqZ (fun i t' => exists l', column t' l' /\ Zlen l' = Zlen l /\
      forall x, 0 <= x < Zlen l -> look l' x = if decide (x < i) then g x else look l x) f (Zlen l) t)
    as (t' & -> & l' & Hc & Hl & Hx).
  - lia.
  - exists l. split_and!; try done. intros x Hx. by rewrite decide_False by lia.
  - intros i t' Hi (l' & Hc & Hl & Hx).
    destruct (Hf t' l' i Hc Hl Hi) as (t'' & l'' & -> & Hc' & Hl' & Hx').
    { rewrite Hx by done. by rewrite decide_False by lia. }
    exists t''. split; [done|]. exists l''. split_and!; try done. intros x Hxl.
    rewrite Hx' by lia. destruct (decide (x = i)) as [->|]; [by rewrite decide_True by lia|].
    rewrite Hx by done. by destruct (decide (x < i)), (decide (x < i + 1)); try lia.
  - exists t', l'. split_and!; try done. intros x Hxl. rewrite Hx by done. by rewrite decide_True by lia.
Qed.

(** ** FastMatch *)

Lemma name_index_snoc names nm :
  name_index (names ++ [nm]) = <[nm := Zlen names]> (name_index names).
Proof.
  unfold name_index. rewrite length_app. simpl. rewrite Nat2Z.inj_add, seqZ_app by lia. simpl.
  rewrite zip_with_app by (rewrite length_seqZ; lia). rewrite foldl_app. done.
Qed.

(** Where a name is, if no name is repeated. *)
Lemma name_index_lookup names nm j :
  NoDup names -> name_index names !! nm = Some j <-> 0 <= j /\ names !! Z.to_nat j = Some nm.
Proof.
  induction names as [|x names IH] using rev_ind; intros Hnd.
  { unfold name_index. simpl. rewrite lookup_empty. split; [done|]. by intros [_ ?]. }
  rewrite name_index_snoc. apply list.NoDup_app in Hnd as (Hnd & Hx & _).
  destruct (decide (nm = x)) as [->|Hne].
  - rewrite lookup_insert_eq. split.
    + intros [= <-]. split; [lia|]. rewrite Nat2Z.id. by apply list_lookup_middle.
    + intros [Hj Hl]. apply lookup_app_Some in Hl as [Hl|[Hlen Hl]].
      * exfalso. apply (Hx x); [by eapply list_elem_of_lookup_2|by apply list_elem_of_singleton].
      * apply list_lookup_singleton_Some in Hl as [? _]. f_equal. lia.
  - rewrite lookup_insert_ne, IH by done. split; intros [Hj Hl]; (split; [done|]).
    + by apply lookup_app_l_Some.
    + apply lookup_app_Some in Hl as [Hl|[Hlen Hl]]; [done|].
      by apply list_lookup_singleton_Some in Hl as [_ ?].
Qed.

(** The place in [index] of name [x] of [names], or -1. *)
Definition place (names : list (list Z)) (index : gmap (list Z) Z) (x : Z) : Z :=
  default (-1) (nm ← names !! Z.to_nat x; index !! nm).

Lemma match_names_ok names index n t :
  column t (unmatched_list n) -> Zlen names = n ->
  exists t' l, match_names names index t = Ok t' /\ column t' l /\ Zlen l = n /\
    forall x, 0 <= x < n -> look l x = place names index x.
Proof.
  intros Ht Hn. assert (Zlen (unmatched_list n) = n) as Hlen
    by (unfold unmatched_list; rewrite length_replicate; lia).
  destruct (column_loop (fun t i => name ← rd names i;
      match index !! name with Some j => Typed.set_cell t 0 i j | None => Ok t end)
      (place names index) t (unmatched_list n) Ht) as (t' & l & E & Hc & Hl & Hx).
  - rewrite Hlen. intros u l i Hc Hl Hi Hli. rewrite look_unmatched in Hli by lia.
    destruct (lookup_lt_is_Some_2 names (Z.to_nat i)) as [nm Hnm]; [lia|].
    rewrite (rd_ok _ i nm), bind_Ok by (done || lia). unfold place. rewrite Hnm.
    change (mbind (fun nm => index !! nm) (Some nm)) with (index !! nm).
    destruct (index !! nm) as [j|]; simpl.
    + destruct (column_set u l i j Hc) as (u' & -> & Hc'); [lia|]. eexists _, _. split; [done|].
      split_and!; [exact Hc'|by rewrite length_insert|]. intros x Hx. apply look_insert; lia.
    + exists u, l. split_and!; try done. intros x Hx. by destruct (decide (x = i)) as [->|].
  - exists t', l. rewrite Hlen in *. by split_and!.
Qed.

(** Units with the same name are sent to each other. *)
Lemma pairing_names ln rn a b :
  NoDup ln -> NoDup rn -> Zlen a = Zlen ln -> Zlen b = Zlen rn ->
  (forall x, 0 <= x < Zlen ln -> look a x = place ln (name_index rn) x) ->
  (forall y, 0 <= y < Zlen rn -> look b y = place rn (name_index ln) y) ->
  pairing a b /\ settled a /\ settled b.
Proof.
  assert (forall (names other : list (list Z)) x y, NoDup other -> 0 <= y ->
    place names (name_index other) x = y <->
    exists nm, names !! Z.to_nat x = Some nm /\ other !! Z.to_nat y = Some nm) as Hplace.
  { intros names other x y Hnd Hy. unfold place. split.
    - destruct (names !! Z.to_nat x) as [nm|] eqn:E; simpl; [|lia].
      destruct (name_index other !! nm) as [j|] eqn:Ej; simpl; [|lia]. intros ->.
      apply name_index_lookup in Ej as [_ Ej]; [|done]. by exists nm.
    - intros (nm & -> & Ho). simpl. by rewrite (proj2 (name_index_lookup other nm y Hnd)). }
  assert (forall (names other : list (list Z)) x, NoDup other -> -1 <= place names (name_index other) x) as Hlow.
  { intros names other x Hnd. unfold place. destruct (names !! Z.to_nat x) as [nm|]; simpl; [|lia].
    destruct (name_index other !! nm) as [j|] eqn:Ej; simpl; [|lia].
    apply name_index_lookup in Ej; [lia|done]. }
  intros Hl Hr La Lb Ha Hb. split_and!.
  - intros x y Hx Hy. destruct (decide (x < Zlen a)), (decide (y < Zlen b));
      rewrite ?(look_out a x), ?(look_out b y) by lia.
    + rewrite Ha, Hb, !Hplace by (done || lia). split; intros (nm & ? & ?); by exists nm.
    + rewrite Ha, Hplace by (done || lia). split; [|lia]. intros (nm & _ & Hy'%lookup_lt_Some). lia.
    + rewrite Hb, Hplace by (done || lia). split; [lia|]. intros (nm & _ & Hy'%lookup_lt_Some). lia.
    + lia.
  - intros x Hx. destruct (decide (x < Zlen a)); [rewrite Ha by lia; by apply Hlow|].
    rewrite look_out by lia. lia.
  - intros x Hx. destruct (decide (x < Zlen b)); [rewrite Hb by lia; by apply Hlow|].
    rewrite look_out by lia. lia.
Qed.

(** Sheets of one size can be compared. *)
Lemma sheets_differ_ok v1 v2 :
  readable (sheet v1) -> readable (sheet v2) -> width (sheet v1) = width (sheet v2) ->
  height (sheet v1) = height (sheet v2) -> exists r, sheets_differ v1 v2 = Ok r.
Proof.
  intros H1 H2 Ew Eh. unfold sheets_differ. case_bool_decide; [|eauto].
  destruct (foldR_inv (fun _ : bool => True) (row_differs (sheet v1) (sheet v2))
    (seqZ 0 (height (sheet v1))) false) as (r & -> & _); [done| |eauto].
  intros fail r Hr%elem_of_seqZ _. unfold row_differs.
  destruct (foldR_inv (fun _ : bool => True) (fun fail c => if fail : bool then Ok true
      else x ← ds_summary (sheet v1) c r; y ← ds_summary (sheet v2) c r; Ok (bool_decide (x <> y)))
    (if fail then [] else seqZ 0 (width (sheet v1))) fail) as (r' & -> & _); [done| |eauto].
  intros [] c Hc _; [eauto|]. destruct fail; [by apply elem_of_nil in Hc|]. apply elem_of_seqZ in Hc.
  destruct (so_cells _ H1 c r) as (_ & x & _ & ->); [lia|lia|].
  destruct (so_cells _ H2 c r) as (_ & y & _ & ->); [lia|lia|]. rewrite !bind_Ok. eauto.
Qed.

Lemma set_sel_twice p a b c d : set_sel (set_sel p a b) c d = set_sel p c d.
Proof. done. Qed.

(** The identity. *)
Lemma match_identical_ok p n :
  0 <= n -> column (asel p) (unmatched_list n) -> column (bsel p) (unmatched_list n) ->
  exists ta tb a b, match_identical p = Ok (set_sel p ta tb) /\ column ta a /\ column tb b /\
    Zlen a = n /\ Zlen b = n /\ pairing a b /\ settled a /\ settled b /\
    forall x, 0 <= x < n -> look a x = x /\ look b x = x.
Proof.
  intros Hn Ha Hb. assert (Zlen (unmatched_list n) = n) as Hlen
    by (unfold unmatched_list; rewrite length_replicate; lia).
  unfold match_identical. rewrite (column_h _ _ Ha), Hlen.
  destruct (foldR_seqZ (fun i p' => exists ta tb a b, p' = set_sel p ta tb /\ column ta a /\ column tb b /\
      Zlen a = n /\ Zlen b = n /\
      forall x, 0 <= x < n -> look a x = (if decide (x < i) then x else -1) /\
                              look b x = (if decide (x < i) then x else -1))
    (fun p i => a ← Typed.set_cell (asel p) 0 i i; b ← Typed.set_cell (bsel p) 0 i i; Ok (set_sel p a b)) n p)
    as (p' & -> & ta & tb & a & b & -> & Hta & Htb & La & Lb & Hx); [done| | |].
  - exists (asel p), (bsel p), (unmatched_list n), (unmatched_list n). split_and!; try done; [by destruct p|].
    intros x Hx. rewrite !look_unmatched by lia. by rewrite decide_False by lia.
  - intros i p' Hi (ta & tb & a & b & -> & Hta & Htb & La & Lb & Hx). cbn [set_sel asel bsel].
    destruct (column_set ta a i i Hta) as (ta' & -> & Hta'); [lia|].
    destruct (column_set tb b i i Htb) as (tb' & -> & Htb'); [lia|]. rewrite !bind_Ok.
    eexists. split; [done|]. exists ta', tb', (<[Z.to_nat i := i]> a), (<[Z.to_nat i := i]> b).
    split_and!; [done|done|done|by rewrite length_insert|by rewrite length_insert|].
    intros x Hxn. rewrite !look_insert by lia. destruct (Hx x Hxn) as [-> ->].
    destruct (decide (x = i)), (decide (x < i)), (decide (x < i + 1)); lia.
  - exists ta, tb, a, b.
    assert (forall x, 0 <= x -> (x < n /\ look a x = x /\ look b x = x) \/ (look a x = -1 /\ look b x = -1))
      as Hall.
    { intros x Hx0. destruct (decide (x < n)); [left|right; by rewrite !look_out by lia].
      destruct (Hx x) as [-> ->]; [lia|]. by rewrite decide_True by lia. }
    split_and!; try done.
    + intros x y Hx0 Hy0. destruct (decide (x = y)) as [<-|]; [destruct (Hall x Hx0); lia|].
      destruct (Hall x Hx0), (Hall y Hy0); lia.
    + intros x Hx0. destruct (Hall x Hx0); lia.
    + intros x Hx0. destruct (Hall x Hx0); lia.
    + intros x Hx0. destruct (Hx x Hx0) as [-> ->]. by rewrite decide_True by lia.
Qed.

(** Nothing tells the sheets of two views apart. *)
Definition same_sheet (v1 v2 : SheetView) : Prop :=
  width (sheet v1) = width (sheet v2) /\ height (sheet v1) = height (sheet v2) /\
  sheets_differ v1 v2 = Ok false.

(** The names of the columns, when they are trusted: one for each, none twice. *)
Definition names_ok (v : SheetView) : Prop :=
  Zlen (suggestNames v) = width (sheet v) /\ NoDup (suggestNames v).

(** What [FastMatch] leaves of a pass that has no matches yet: its units are the
    rows, or the columns. *)
Lemma fast_match_ok p (rowLike : bool) flags la lb :
  let units d := if rowLike then height d else width d in
  la = units (sheet (va p)) -> lb = units (sheet (vb p)) ->
  readable (sheet (va p)) -> readable (sheet (vb p)) ->
  (rowLike = false -> trust_column_names flags = true -> names_ok (va p) /\ names_ok (vb p)) ->
  column (asel p) (unmatched_list la) -> column (bsel p) (unmatched_list lb) ->
  exists ta tb a b, fast_match p rowLike flags = Ok (set_sel p ta tb) /\ column ta a /\ column tb b /\
    Zlen a = la /\ Zlen b = lb /\ pairing a b /\ settled a /\ settled b /\
    (same_sheet (va p) (vb p) -> forall x, 0 <= x < la -> look a x = x /\ look b x = x).
Proof.
  intros units Ela Elb H1 H2 Hnames Ha Hb. unfold fast_match.
  assert (0 <= la /\ 0 <= lb) as [Hla Hlb].
  { subst la lb. unfold units. destruct H1, H2. by destruct rowLike. }
  assert (exists same, (if (width (sheet (va p)) =? width (sheet (vb p))) &&
       (height (sheet (va p)) =? height (sheet (vb p)))
     then fail ← sheets_differ (va p) (vb p); Ok (negb fail) else Ok false) = Ok same /\
     (same = true -> la = lb) /\ (same_sheet (va p) (vb p) -> same = true)) as (same & -> & Hsame & Hdiff).
  { destruct (Z.eqb_spec (width (sheet (va p))) (width (sheet (vb p)))) as [Ew|];
      [|exists false; split_and!; [done..|]; by intros (? & _)].
    destruct (Z.eqb_spec (height (sheet (va p))) (height (sheet (vb p)))) as [Eh|];
      [|exists false; split_and!; [done..|]; by intros (_ & ? & _)].
    cbn [andb]. destruct (sheets_differ_ok (va p) (vb p) H1 H2 Ew Eh) as (r & Er). rewrite Er, bind_Ok.
    eexists. split_and!; [done| |intros (_ & _ & E); rewrite E in Er; by injection Er as <-].
    intros _. rewrite Ela, Elb. unfold units. by destruct rowLike. }
  rewrite bind_Ok. destruct same.
  { rewrite <- (Hsame eq_refl) in *.
    destruct (match_identical_ok p la Hla Ha Hb) as (ta & tb & a & b & -> & ? & ? & ? & ? & ? & ? & ? & ?).
    exists ta, tb, a, b. by split_and!. }
  assert (exists ta tb a b, Ok p = Ok (set_sel p ta tb) /\ column ta a /\ column tb b /\
    Zlen a = la /\ Zlen b = lb /\ pairing a b /\ settled a /\ settled b /\
    (same_sheet (va p) (vb p) -> forall x, 0 <= x < la -> look a x = x /\ look b x = x)) as Hkeep.
  { exists (asel p), (bsel p), (unmatched_list la), (unmatched_list lb).
    split_and!; [by destruct p|done|done| | |apply pairing_unmatched|apply settled_unmatched..|by intros ?%Hdiff];
      unfold unmatched_list; rewrite length_replicate; lia. }
  destruct rowLike; [done|]. cbn [negb andb]. destruct (trust_column_names flags); [|done].
  destruct Hnames as [[L1 N1] [L2 N2]]; [done|done|]. unfold units in Ela, Elb. rewrite <- Ela in L1.
  rewrite <- Elb in L2.
  destruct (match_names_ok (suggestNames (va p)) (name_index (suggestNames (vb p))) la (asel p) Ha L1)
    as (ta & a & -> & Hta & La & Hxa). rewrite bind_Ok.
  destruct (match_names_ok (suggestNames (vb p)) (name_index (suggestNames (va p))) lb (bsel p) Hb L2)
    as (tb & b & -> & Htb & Lb & Hxb). rewrite bind_Ok.
  destruct (pairing_names (suggestNames (va p)) (suggestNames (vb p)) a b N1 N2) as (? & ? & ?);
    [lia|lia|by rewrite L1|by rewrite L2|].
  exists ta, tb, a, b. split_and!; try done. by intros ?%Hdiff.
Qed.

(** ** The match of two sheets *)

(** [o] is a correspondence between [n] and [m] units. *)
Definition order_ok (o : OrderResult) (n m : Z) : Prop :=
  exists a b, corresponds o a b /\ Zlen a = n /\ Zlen b = m /\ settled a /\ settled b.

Lemma order_a2b o n m x :
  order_ok o n m -> 0 <= x < n -> exists y, a2b o x = Ok y /\ (y = -1 \/ 0 <= y < m).
Proof.
  intros (a & b & [(z & z' & ->) Hp] & La & Lb & Pa & _) Hx. exists (look a x).
  split; [apply order_get_column|]. specialize (Pa x). destruct (decide (look a x = -1)); [by left|right].
  split; [lia|]. rewrite <- Lb. apply (pairing_range a b x); done || lia.
Qed.
Lemma order_b2a o n m y :
  order_ok o n m -> 0 <= y < m -> exists x, b2a o y = Ok x /\ (x = -1 \/ 0 <= x < n).
Proof.
  intros (a & b & [(z & z' & ->) Hp] & La & Lb & _ & Pb) Hy. exists (look b y).
  split; [apply order_get_column|]. specialize (Pb y). destruct (decide (look b y = -1)); [by left|right].
  split; [lia|]. rewrite <- La. apply (pairing_range b a y); [by apply pairing_sym|lia..|done].
Qed.

(** Every unit is sent to itself. *)
Definition identity_order (o : OrderResult) (n : Z) : Prop :=
  forall x, 0 <= x < n -> a2b o x = Ok x /\ b2a o x = Ok x.

Section Match.
Context {S : Type} `{MeasureLaws S} (log : float -> float).
Context (v1 v2 : SheetView) (H1 : readable (sheet v1)) (H2 : readable (sheet v2)).
Context (rowLike : bool) (flags : compare_flags) (tid samp : bool).
Abbreviation units d := (if rowLike then height d else width d).
Context (Hlen : forall d, ml_len (S:=S) d = units d) (Hctrl : forall s s' : S, getCtrlMax s = getCtrlMax s').
Context (Hnames : rowLike = false -> trust_column_names flags = true -> names_ok v1 /\ names_ok v2).
Context (s1 s2 s3 : S) (N1 : ml_new s1 v1 v2) (N2 : ml_new s2 v1 v1) (N3 : ml_new s3 v2 v2).

Lemma units_nonneg d : readable d -> 0 <= units d.
Proof. intros []. by destruct rowLike. Qed.

Lemma match_units_ok :
  exists o, (m ← man_setup (MeasureMan_ s1 s2 s3 (new_pass v1 v2) (new_pass v1 v1) (new_pass v2 v2)
                              rowLike tid samp);
             mp ← fast_match (main_pass m) rowLike flags;
             m ← compareCore log (with_passes m (main m) (anorm m) (bnorm m) mp (anorm_pass m) (bnorm_pass m));
             Ok (getOrder (main_pass m))) = Ok o /\
    order_ok o (units (sheet v1)) (units (sheet v2)) /\
    (same_sheet v1 v2 -> identity_order o (units (sheet v1))).
Proof using H1 H2 Hlen Hctrl Hnames N1 N2 N3.
  pose proof (units_nonneg _ H1) as L1. pose proof (units_nonneg _ H2) as L2.
  unfold man_setup. cbn [main anorm bnorm main_pass anorm_pass bnorm_pass].
  destruct (ml_setup s1 (new_pass v1 v2) N1) as (s1' & -> & R1).
  destruct (ml_setup s2 (new_pass v1 v1) N2) as (s2' & -> & R2).
  destruct (ml_setup s3 (new_pass v2 v2) N3) as (s3' & -> & R3). rewrite !bind_Ok.
  cbn [with_passes main anorm bnorm main_pass anorm_pass bnorm_pass].
  set (p := pass_setSize (new_pass v1 v2) _ _).
  destruct (fast_match_ok p rowLike flags (units (sheet v1)) (units (sheet v2)))
    as (ta & tb & a & b & -> & Hta & Htb & La & Lb & Hpair & Pa & Pb & Hid); try done.
  { unfold p. rewrite !Hlen. cbn. by apply column_resize. }
  { unfold p. rewrite !Hlen. cbn. by apply column_resize. }
  rewrite bind_Ok.
  destruct (compareCore_ok log v1 v2 H1 H2 (MeasureMan_ s1' s2' s3' (set_sel p ta tb)
     (pass_setSize (new_pass v1 v1) (ml_len (S:=S) (sheet v1)) (ml_len (S:=S) (sheet v1)))
     (pass_setSize (new_pass v2 v2) (ml_len (S:=S) (sheet v2)) (ml_len (S:=S) (sheet v2))) rowLike tid samp) a b)
    as (m & a' & b' & E & Hm & Ea & Eb).
  { constructor; cbn; try done; constructor; cbn; rewrite ?Hlen; done. }
  unfold with_passes in *. cbn in *. rewrite E, bind_Ok. eexists. split; [done|].
  destruct (mo_main _ _ _ _ _ Hm) as [[z Ez] [z' Ez'] ? ? _ _ _]. split.
  2: { intros Hsame x Hx. destruct (Hid Hsame x Hx) as [E1 E2].
    destruct (proj2 Ea x) as [E1'|[? _]]; [lia| |lia]. destruct (proj2 Eb x) as [E2'|[? _]]; [lia| |lia].
    unfold a2b, b2a, getOrder. cbn [a2b_sheet b2a_sheet]. rewrite Ez, Ez', !order_get_column.
    split; f_equal; congruence. }
  exists a', b'. rewrite !Hlen in *.
  split_and!; [apply getOrder_corresponds; [by eexists|by eexists|apply Hm]|done|done|by eapply extends_settled..].
Qed.
End Match.

(** ** Rows and columns *)

Lemma self_order_ok t l :
  column t l -> settled l ->
  exists t' l', self_order t = Ok t' /\ column t' l' /\ Zlen l' = Zlen l /\
    forall x, 0 <= x < Zlen l -> look l' x = -1 \/ look l' x = x.
Proof.
  intros Ht Hl. unfold self_order.
  destruct (column_loop (fun t i => x ← Typed.cell t 0 i; if x >=? 0 then Typed.set_cell t 0 i i else Ok t)
    (fun i => if look l i >=? 0 then i else look l i) t l Ht) as (t' & l' & E & Hc & Hl' & Hx).
  - intros u l' i Hc Hlen Hi Hli. rewrite (column_cell u l'), bind_Ok, Hli by (done || lia).
    destruct (look l i >=? 0).
    + destruct (column_set u l' i i Hc) as (u' & -> & Hc'); [lia|]. eexists _, _. split; [done|].
      split_and!; [exact Hc'|by rewrite length_insert|]. intros x Hx. apply look_insert; lia.
    + exists u, l'. split_and!; try done. intros x Hx. destruct (decide (x = i)) as [->|]; [lia|done].
  - exists t', l'. split_and!; try done. intros x Hx'. rewrite Hx by done. specialize (Hl x).
    destruct (Z.geb_spec (look l x) 0); lia.
Qed.

Lemma combined_len d : ml_len (S:=CombinedRowMan) d = height d.
Proof. done. Qed.
Lemma colman_len d : ml_len (S:=ColMan) d = width d.
Proof. done. Qed.

(** The rows of two sheets, before their columns are matched or after. *)
Lemma pair_rows_ok log col_order eflags v1 v2 approx :
  view_ok v1 -> view_ok v2 ->
  (col_order = no_order \/ order_ok col_order (width (sheet v1)) (width (sheet v2))) ->
  exists o, pair_rows log col_order eflags v1 v2 approx = Ok o /\
    order_ok o (height (sheet v1)) (height (sheet v2)) /\
    (same_sheet v1 v2 -> identity_order o (height (sheet v1))).
Proof.
  intros V1 V2 Ho. unfold pair_rows.
  assert (exists pp oo, self_order (a2b_sheet col_order) = Ok pp /\ self_order (b2a_sheet col_order) = Ok oo /\
    ((h pp >? 0) || (h oo >? 0) = true -> h pp = width (sheet v1) /\ h oo = width (sheet v2)) /\
    cols_ok (Ordered col_order) v1 v2 /\ cols_ok (Ordered (OrderResult_ pp pp)) v1 v1 /\
    cols_ok (Ordered (OrderResult_ oo oo)) v2 v2) as (pp & oo & -> & -> & Hsize & C1 & C2 & C3).
  { destruct Ho as [->|Ho].
    - exists (TypedSheet_ [] 0 0 0), (TypedSheet_ [] 0 0 0). cbn. split_and!; try done; by left.
    - pose proof Ho as (a & b & [(z & z' & ->) _] & La & Lb & Pa & Pb). cbn [a2b_sheet b2a_sheet].
      destruct (self_order_ok (of_column a z) a) as (pp & lp & -> & Hpp & Lp & Hp); [by eexists|done|].
      destruct (self_order_ok (of_column b z') b) as (oo & lo & -> & Hoo & Lo & Hq); [by eexists|done|].
      exists pp, oo. rewrite (column_h pp lp), (column_h oo lo) by done.
      split_and!; try done; [lia| | |]; right.
      + intros i Hi. by eapply order_a2b.
      + intros i Hi. exists (look lp i). destruct Hpp as [zp ->]. split; [apply order_get_column|].
        destruct (Hp i); lia.
      + intros i Hi. exists (look lo i). destruct Hoo as [zo ->]. split; [apply order_get_column|].
        destruct (Hq i); lia. }
  rewrite !bind_Ok.
  assert ((if (h pp >? 0) || (h oo >? 0)
       then _ ← check (h pp =? width (sheet v1)) AssertFailed;
            check (h oo =? width (sheet v2)) AssertFailed
       else Ok tt) = Ok tt) as ->.
  { destruct ((h pp >? 0) || (h oo >? 0)); [|done]. destruct Hsize as [-> ->]; [done|].
    by rewrite !Z.eqb_refl. }
  rewrite bind_Ok.
  destruct (match_units_ok (S:=CombinedRowMan) log v1 v2 (vo_sheet _ V1) (vo_sheet _ V2) true eflags (trust_ids (cf_ids eflags))
    approx combined_len (fun _ _ => eq_refl) ltac:(done)
    (new_combined (cf_ids eflags) (Ordered col_order))
    (new_combined (cf_ids eflags) (Ordered (OrderResult_ pp pp)))
    (new_combined (cf_ids eflags) (Ordered (OrderResult_ oo oo)))) as (o & E & Ho').
  1-3: eexists _, _; by split_and!.
  rewrite E. by exists o.
Qed.

(** The columns of two sheets whose rows are matched. *)
Lemma pair_cols_ok log row_order eflags v1 v2 :
  view_ok v1 -> view_ok v2 -> order_ok row_order (height (sheet v1)) (height (sheet v2)) ->
  (trust_column_names eflags = true -> names_ok v1 /\ names_ok v2) ->
  exists o, pair_cols log row_order eflags v1 v2 = Ok o /\
    order_ok o (width (sheet v1)) (width (sheet v2)) /\
    (same_sheet v1 v2 -> identity_order o (width (sheet v1))).
Proof.
  intros V1 V2 Ho Hn. unfold pair_cols.
  destruct (match_units_ok (S:=ColMan) log v1 v2 (vo_sheet _ V1) (vo_sheet _ V2) false eflags (trust_ids (cf_ids eflags))
    false colman_len (fun _ _ => eq_refl) (fun _ => Hn) (ColMan_ (Ordered row_order))
    (ColMan_ IdentityOrder) (ColMan_ IdentityOrder)) as (o & E & Ho').
  - split_and!; [|apply V1|apply V2]. intros j Hj. by eapply order_b2a.
  - split_and!; [|apply V1|apply V1]. intros j Hj. exists j. auto.
  - split_and!; [|apply V2|apply V2]. intros j Hj. exists j. auto.
  - rewrite E. by exists o.
Qed.

(** ** Rows linked by a mapping *)

Lemma encodeKey_ok a x y len :
  readable a -> 0 <= x -> x + len <= width a -> 0 <= y < height a -> exists k, encodeKey a x y len = Ok k.
Proof.
  intros Ha Hx Hlen Hy. unfold encodeKey.
  destruct (foldR_inv (fun _ : list Z => True)
    (fun t i => c ← ds_summary a i y; Ok ((if i >? x then t ++ cstr "__" else t) ++ cell_toString c)) (seqZ x len) [])
    as (k & -> & _); [done| |eauto].
  intros t i Hi%elem_of_seqZ _. destruct (so_cells a Ha i y) as (_ & c & _ & ->); [lia|done|].
  rewrite bind_Ok. eauto.
Qed.

Lemma key_index_ok a n :
  readable a -> 0 <= n <= width a ->
  exists idx, key_index a n = Ok idx /\
    forall k i, idx !! k = Some i -> 0 <= i < height a /\ encodeKey a 0 i n = Ok k.
Proof.
  intros Ha Hn. unfold key_index. apply foldR_inv; [by intros k i; rewrite lookup_empty|].
  intros m i Hi%elem_of_seqZ Hm. destruct (encodeKey_ok a 0 i n Ha) as (k & Ek); [lia|lia|lia|].
  rewrite Ek, bind_Ok. eexists. split; [done|]. intros k' i'.
  destruct (decide (k' = k)) as [->|Hne]; [rewrite lookup_insert_eq|rewrite lookup_insert_ne by done; apply Hm].
  intros [= <-]. split; [lia|done].
Qed.

(** The keys of the rows of a mapping, [key], and the rows of a sheet they stand for. *)
Definition tells_apart (n : Z) (key : Z -> result (list Z)) (idx : gmap (list Z) Z) : Prop :=
  forall i j k k' x, 0 <= i < n -> 0 <= j < n -> key i = Ok k -> key j = Ok k' ->
    idx !! k = Some x -> idx !! k' = Some x -> i = j.

Lemma distinct_tells_apart a n N key idx :
  (forall k i, idx !! k = Some i -> 0 <= i < height a /\ encodeKey a 0 i n = Ok k) ->
  (forall i j, 0 <= i < N -> 0 <= j < N -> key i = key j -> i = j) -> tells_apart N key idx.
Proof.
  intros Hidx Hkey i j k k' x Hi Hj Ei Ej Hx Hx'. apply Hkey; [done|done|].
  apply Hidx in Hx as [_ Hx], Hx' as [_ Hx']. congruence.
Qed.

Section Side.
Context (N hp hl : Z) (kp kl : Z -> result (list Z)) (ip il : gmap (list Z) Z).
Context (Tp : tells_apart N kp ip) (Tl : tells_apart N kl il).
Context (Rp : forall k p, ip !! k = Some p -> 0 <= p < hp) (Rl : forall k l, il !! k = Some l -> 0 <= l < hl).

(** The links of the pivot and one other sheet after [i] rows of the mapping. *)
Definition side (i : Z) (tp tl : TypedSheet Z) : Prop :=
  exists a b, column tp a /\ column tl b /\ Zlen a = hp /\ Zlen b = hl /\ pairing a b /\ settled a /\ settled b /\
    (forall p, 0 <= p -> 0 <= look a p -> exists j k, 0 <= j < i /\ kp j = Ok k /\ ip !! k = Some p) /\
    (forall l, 0 <= l -> 0 <= look b l -> exists j k, 0 <= j < i /\ kl j = Ok k /\ il !! k = Some l).

Lemma links_next i tp tl : side i tp tl -> side (i + 1) tp tl.
Proof.
  intros (a & b & ? & ? & ? & ? & ? & ? & ? & Ha & Hb). exists a, b. split_and!; try done.
  - intros p Hp Hl. destruct (Ha p Hp Hl) as (j & k & ? & ? & ?). exists j, k. split_and!; done || lia.
  - intros l Hl Hl'. destruct (Hb l Hl Hl') as (j & k & ? & ? & ?). exists j, k. split_and!; done || lia.
Qed.

Lemma side_link i tp tl k k' p l :
  side i tp tl -> 0 <= i < N -> kp i = Ok k -> ip !! k = Some p -> kl i = Ok k' -> il !! k' = Some l ->
  exists tl' tp', Typed.set_cell tl 0 l p = Ok tl' /\ Typed.set_cell tp 0 p l = Ok tp' /\ side (i + 1) tp' tl'.
Proof using Tp Tl Rp Rl.
  intros (a & b & Ca & Cb & La & Lb & Hpair & Pa & Pb & Ha & Hb) Hi Ek Hp Ek' Hl.
  pose proof (Rp k p Hp) as Bp. pose proof (Rl k' l Hl) as Bl.
  assert (look a p = -1) as Fp.
  { destruct (decide (0 <= look a p)) as [Hx|]; [|specialize (Pa p); lia].
    destruct (Ha p) as (j & kj & Hj & Ej & Hpj); [lia|done|].
    assert (i = j) by (apply (Tp i j k kj p); done || lia). lia. }
  assert (look b l = -1) as Fl.
  { destruct (decide (0 <= look b l)) as [Hx|]; [|specialize (Pb l); lia].
    destruct (Hb l) as (j & kj & Hj & Ej & Hlj); [lia|done|].
    assert (i = j) by (apply (Tl i j k' kj l); done || lia). lia. }
  destruct (column_set tl b l p Cb) as (tl' & -> & Cb'); [lia|].
  destruct (column_set tp a p l Ca) as (tp' & -> & Ca'); [lia|].
  exists tl', tp'. split_and!; [done|done|]. exists (<[Z.to_nat p := l]> a), (<[Z.to_nat l := p]> b).
  split_and!; [done|done|by rewrite length_insert|by rewrite length_insert| | | | |].
  - apply pairing_match; done || lia.
  - eapply extends_settled; [apply extends_match|]; done || lia.
  - eapply extends_settled; [apply extends_match|]; done || lia.
  - intros q Hq. rewrite look_insert by lia. destruct (decide (q = p)) as [->|].
    + intros _. exists i, k. split_and!; done || lia.
    + intros Hx. destruct (Ha q Hq Hx) as (j & kj & ? & ? & ?). exists j, kj. split_and!; done || lia.
  - intros q Hq. rewrite look_insert by lia. destruct (decide (q = l)) as [->|].
    + intros _. exists i, k'. split_and!; done || lia.
    + intros Hx. destruct (Hb q Hq Hx) as (j & kj & ? & ? & ?). exists j, kj. split_and!; done || lia.
Qed.
End Side.

(** A mapping that has the cells of the keys on either side, and no key twice. *)
Record mapping_ok (mp : DataSheet) (pivot local remote : DataSheet) : Prop := {
  mg_sheet : readable mp;
  mg_width : Z.quot (width mp) 2 <= width pivot /\ Z.quot (width mp) 2 <= width local /\
             Z.quot (width mp) 2 <= width remote;
  mg_local : forall i j, 0 <= i < height mp -> 0 <= j < height mp ->
    encodeKey mp 0 i (Z.quot (width mp) 2) = encodeKey mp 0 j (Z.quot (width mp) 2) -> i = j;
  mg_remote : forall i j, 0 <= i < height mp -> 0 <= j < height mp ->
    encodeKey mp (Z.quot (width mp) 2) i (Z.quot (width mp) 2) =
    encodeKey mp (Z.quot (width mp) 2) j (Z.quot (width mp) 2) -> i = j
}.

Lemma side_order hp hl kp kl ip il i tp tl :
  side hp hl kp kl ip il i tp tl -> order_ok (OrderResult_ tp tl) hp hl.
Proof.
  intros (a & b & [z ->] & [z' ->] & ? & ? & ? & ? & ? & _). exists a, b. split_and!; try done.
  split; [by exists z, z'|done].
Qed.

(** Nothing is linked yet. *)
Lemma side_start hp hl kp kl ip il :
  0 <= hp -> 0 <= hl ->
  side hp hl kp kl ip il 0 (Typed.resize (TypedSheet_ [] 0 0 0) 1 hp (-1))
    (Typed.resize (TypedSheet_ [] 0 0 0) 1 hl (-1)).
Proof.
  intros Hx Hy. exists (unmatched_list hp), (unmatched_list hl).
  split_and!; try (by apply column_resize); try (unfold unmatched_list; rewrite length_replicate; lia);
    [apply pairing_unmatched|apply settled_unmatched..| |]; intros u Hu; rewrite look_unmatched by done; lia.
Qed.

Section Links.
Context (mp pivot local remote : DataSheet) (lp : bool) (n : Z).
Context (il ir ip : gmap (list Z) Z).
Abbreviation kp := (fun i => if lp then encodeKey mp 0 i n else encodeKey mp n i n).
Abbreviation kl := (fun i => encodeKey mp 0 i n).
Abbreviation kr := (fun i => encodeKey mp n i n).
Context (Hm : readable mp) (Hn : 0 <= n) (Hn2 : n + n <= width mp).
Context (Tp : tells_apart (height mp) kp ip) (Tl : tells_apart (height mp) kl il).
Context (Tr : tells_apart (height mp) kr ir).
Context (Rp : forall k p, ip !! k = Some p -> 0 <= p < height pivot).
Context (Rl : forall k l, il !! k = Some l -> 0 <= l < height local).
Context (Rr : forall k r, ir !! k = Some r -> 0 <= r < height remote).

(** Both sides, after [i] rows. *)
Definition linked (i : Z) (k : links) : Prop :=
  side (height pivot) (height local) kp kl ip il i (p2l k) (l2p k) /\
  side (height pivot) (height remote) kp kr ip ir i (p2r k) (r2p k).

Lemma link_row_ok i k :
  0 <= i < height mp -> linked i k ->
  exists k', link_row mp n lp il ir ip k i = Ok k' /\ linked (i + 1) k'.
Proof using Hm Hn Hn2 Tp Tl Tr Rp Rl Rr.
  intros Hi [S1 S2]. unfold link_row.
  destruct (encodeKey_ok mp 0 i n Hm) as (ka & Ea); [lia|lia|lia|].
  destruct (encodeKey_ok mp n i n Hm) as (kb & Eb); [lia|lia|lia|]. rewrite Ea, Eb, !bind_Ok.
  assert (kp i = Ok (if lp then ka else kb)) as Ek by (by destruct lp).
  destruct (ip !! (if lp then ka else kb)) as [p|] eqn:Epp.
  2: { eexists. split; [done|]. split; by apply links_next. }
  assert (exists k', match il !! ka with
      | Some l => x ← Typed.set_cell (l2p k) 0 l p; y ← Typed.set_cell (p2l k) 0 p l;
                  Ok (Links x (r2p k) y (p2r k))
      | None => Ok k end = Ok k' /\ r2p k' = r2p k /\ p2r k' = p2r k /\
      side (height pivot) (height local) kp kl ip il (i + 1) (p2l k') (l2p k')) as (k1 & -> & E1 & E2 & S1').
  { destruct (il !! ka) as [l|] eqn:El; [|exists k; split_and!; try done; by apply links_next].
    destruct (side_link _ _ _ kp kl ip il Tp Tl Rp Rl i (p2l k) (l2p k) _ _ p l S1 Hi Ek Epp Ea El)
      as (t1 & t2 & -> & -> & S1'). rewrite !bind_Ok. eexists. by split_and!. }
  rewrite bind_Ok, E1, E2. destruct (ir !! kb) as [r|] eqn:Er.
  - destruct (side_link _ _ _ kp kr ip ir Tp Tr Rp Rr i (p2r k) (r2p k) _ _ p r S2 Hi Ek Epp Eb Er)
      as (t1 & t2 & -> & -> & S2'). rewrite !bind_Ok. eexists. split; [done|]. by split.
  - exists k1. split; [done|]. split; [done|]. rewrite E1, E2. by apply links_next.
Qed.
End Links.

Lemma map_rows_ok mp lp pivot local remote :
  mapping_ok mp pivot local remote -> readable pivot -> readable local -> readable remote ->
  exists ol or, map_rows mp lp pivot local remote = Ok (ol, or) /\
    order_ok ol (height pivot) (height local) /\ order_ok or (height pivot) (height remote).
Proof.
  intros [Hm (Wp & Wl & Wr) Dl Dr] Hp Hl Hr. unfold map_rows. set (n := Z.quot (width mp) 2) in *.
  assert (0 <= n /\ n + n <= width mp) as [Hn Hn2].
  { pose proof (so_width _ Hm). unfold n. rewrite Z.quot_div_nonneg by lia. dlia. }
  destruct (key_index_ok local n Hl) as (il & -> & Il); [lia|].
  destruct (key_index_ok remote n Hr) as (ir & -> & Ir); [lia|].
  destruct (key_index_ok pivot n Hp) as (ip & -> & Ip); [lia|]. rewrite !bind_Ok.
  destruct (foldR_seqZ (linked mp pivot local remote lp n il ir ip) (link_row mp n lp il ir ip) (height mp)
    (Links (Typed.resize (TypedSheet_ [] 0 0 0) 1 (height local) (-1))
       (Typed.resize (TypedSheet_ [] 0 0 0) 1 (height remote) (-1))
       (Typed.resize (TypedSheet_ [] 0 0 0) 1 (height pivot) (-1))
       (Typed.resize (TypedSheet_ [] 0 0 0) 1 (height pivot) (-1)))) as (k & -> & S1 & S2).
  - apply Hm.
  - split; apply side_start; by destruct Hp, Hl, Hr.
  - intros i k Hi Hk. apply (link_row_ok mp pivot local remote); try done;
      try (by intros k0 x0 [? _]%Ip); try (by intros k0 x0 [? _]%Il); try (by intros k0 x0 [? _]%Ir).
    + apply (distinct_tells_apart pivot n); [done|]. intros u v. destruct lp; [apply Dl|apply Dr].
    + by apply (distinct_tells_apart local n).
    + by apply (distinct_tells_apart remote n).
  - rewrite bind_Ok. eexists _, _. split; [done|]. split; by eapply side_order.
Qed.

Lemma doRowMapping_ok log flags eflags vp vl vr :
  view_ok vp -> view_ok vl -> view_ok vr ->
  (forall mp, mapping flags = Some mp -> mapping_ok mp (sheet vp) (sheet vl) (sheet vr)) ->
  forall cl cr approx,
    (cl = no_order \/ order_ok cl (width (sheet vp)) (width (sheet vl))) ->
    (cr = no_order \/ order_ok cr (width (sheet vp)) (width (sheet vr))) ->
    exists pl pr, doRowMapping log cl cr flags eflags vp vl vr approx = Ok (pl, pr) /\
      order_ok pl (height (sheet vp)) (height (sheet vl)) /\
      order_ok pr (height (sheet vp)) (height (sheet vr)) /\
      (mapping flags = None -> same_sheet vp vl -> identity_order pl (height (sheet vp))) /\
      (mapping flags = None -> same_sheet vp vr -> identity_order pr (height (sheet vp))).
Proof.
  intros Vp Vl Vr Hmap cl cr approx Hl Hr. unfold doRowMapping. destruct (mapping flags) as [mp|] eqn:E.
  - destruct (map_rows_ok mp (pivot_sides_with_local flags) (sheet vp) (sheet vl) (sheet vr))
      as (ol & or & -> & Ol & Or); [by apply Hmap|apply Vp|apply Vl|apply Vr|].
    exists ol, or. by split_and!.
  - destruct (pair_rows_ok log cl eflags vp vl approx Vp Vl Hl) as (pl & -> & Ol & Il). rewrite bind_Ok.
    destruct (pair_rows_ok log cr eflags vp vr approx Vp Vr Hr) as (pr & -> & Or & Ir). rewrite bind_Ok.
    exists pl, pr. by split_and!.
Qed.

(** ** Views of sheets in memory *)

(** The view of a [CsvSheet] and its sniffer. *)
Definition view_of (sh : CsvSheet) (ns : NameSniffer) (hash : list Z) : SheetView :=
  SheetView_ (csv_view sh) (ns_names ns) (subset_index ns) hash.

Lemma view_of_ok sh ns hash :
  sheet_ok (s sh) -> Forall (fun x => 0 <= x < w (s sh)) (subset_index ns) -> view_ok (view_of sh ns hash).
Proof.
  intros Hs Hsub. split; [|done]. pose proof Hs as (Hh & Hw & _). split; cbn; [done|lia|].
  intros x y Hx Hy. rewrite cell_read by done. rewrite bind_Ok. eauto.
Qed.

(** The names a sniffer found in a header are distinct, one for each column. *)
Lemma sniffed_names_ok sh ids odd ns hash :
  sheet_ok (s sh) -> -1 <= odd < Z.max 0 (h (s sh)) -> sniff sh ids odd new_sniffer (-1) = Ok ns ->
  fake ns = false -> names_ok (view_of sh ns hash).
Proof.
  intros Hs Ho. unfold sniff. cbn [sniffed new_sniffer Z.ltb Z.compare].
  destruct (rowDivider_ok sh Hs ids odd Ho) as (d0 & -> & Hd0). rewrite bind_Ok.
  destruct (top_row sh Hs d0 Hd0) as (d & -> & Hd). rewrite bind_Ok.
  destruct (Z.ltb_spec d 0) as [Hneg|Hpos]; [intros; by simplify_eq|].
  pose proof (width_nonneg sh Hs) as Hw0.
  destruct (header_names_ok sh Hs d (Z.to_nat (w (s sh))) 0 [] []) as (r & -> & Hr);
    [lia|constructor|done|lia|]. rewrite bind_Ok. intros [= <-].
  destruct r as [l|]; [|done]. intros _. destruct (Hr l eq_refl) as [(Hnd & Hlen & _) _]. by split.
Qed.

(** ** Claims *)

(** C18. The matching of units, for any measure that keeps the promise of [MeasureLaws]
    and any [log]: from selections that send matched units to each other [compareCore]
    returns (no assertion of the lattice fails, no index leaves a sheet, and the
    repetitions of [compare1] end); the selections it leaves send matched units to each
    other, and every unit that was matched before still has the same match. *)
Theorem matching_spec {S} `{MeasureLaws S} (log : float -> float) (v1 v2 : SheetView) (m : MeasureMan S)
    (a b : list Z) :
  readable (sheet v1) -> readable (sheet v2) -> man_ok v1 v2 m a b ->
  exists m' a' b', compareCore log m = Ok m' /\ man_ok v1 v2 m' a' b' /\
    corresponds (getOrder (main_pass m')) a' b' /\ extends a a' /\ extends b b'.
Proof.
  intros H1 H2 Hm. destruct (compareCore_ok log v1 v2 H1 H2 m a b Hm) as (m' & a' & b' & E & Hm' & Ea & Eb).
  exists m', a', b'. split_and!; try done.
  apply getOrder_corresponds; [apply (mo_main _ _ _ _ _ Hm')..|apply Hm'].
Qed.

(** C20. The orders of a comparison: for a pivot, a local and a remote sheet whose cells
    can be read, compared by value or linked by a mapping that has no key twice, and with
    distinct names for all columns if names are trusted, [compare_orders] returns, and
    each of its orders is a correspondence between the rows, or columns, of the pivot and
    of the other sheet.  Compared by value, a sheet that does not differ from the pivot
    corresponds to it row by row and column by column. *)
Theorem compare_orders_spec (log : float -> float) (flags eflags : compare_flags)
    (vp vl vr : SheetView) :
  view_ok vp -> view_ok vl -> view_ok vr ->
  (forall mp, mapping flags = Some mp -> mapping_ok mp (sheet vp) (sheet vl) (sheet vr)) ->
  (trust_column_names eflags = true -> names_ok vp /\ names_ok vl /\ names_ok vr) ->
  exists o, compare_orders log flags eflags vp vl vr = Ok o /\
    order_ok (p2l_row_order o) (height (sheet vp)) (height (sheet vl)) /\
    order_ok (p2r_row_order o) (height (sheet vp)) (height (sheet vr)) /\
    order_ok (p2l_col_order o) (width (sheet vp)) (width (sheet vl)) /\
    order_ok (p2r_col_order o) (width (sheet vp)) (width (sheet vr)) /\
    (mapping flags = None -> same_sheet vp vl ->
      identity_order (p2l_row_order o) (height (sheet vp)) /\
      identity_order (p2l_col_order o) (width (sheet vp))) /\
    (mapping flags = None -> same_sheet vp vr ->
      identity_order (p2r_row_order o) (height (sheet vp)) /\
      identity_order (p2r_col_order o) (width (sheet vp))).
Proof.
  intros Vp Vl Vr Hmap Hnames. unfold compare_orders.
  pose proof (doRowMapping_ok log flags eflags vp vl vr Vp Vl Vr Hmap) as Hrows.
  set (id_based := trust_ids _ || bias_ids _).
  destruct (Hrows no_order no_order (negb id_based)) as (pl & pr & -> & Ol & Or & Il & Ir); [by left..|].
  rewrite bind_Ok. unfold doColMapping.
  destruct (pair_cols_ok log pl eflags vp vl Vp Vl Ol) as (cl & -> & Cl & Jl); [intros E; by destruct (Hnames E) as (? & ? & ?)|]. rewrite bind_Ok.
  destruct (pair_cols_ok log pr eflags vp vr Vp Vr Or) as (cr & -> & Cr & Jr); [intros E; by destruct (Hnames E) as (? & ? & ?)|]. rewrite !bind_Ok.
  destruct (negb id_based).
  - destruct (Hrows cl cr false) as (pl' & pr' & -> & Ol' & Or' & Il' & Ir'); [by right..|].
    rewrite bind_Ok. eexists. split; [done|]. split_and!; auto.
  - rewrite bind_Ok. eexists. split; [done|]. split_and!; auto.
Qed.

(** ** Witnesses *)

(** A sheet of texts, its view without a hash, and a logarithm. *)
Definition cell_of (t : list Z) : pcell := (t, false).
Definition table (wd : Z) (rows : list (list (list Z))) : CsvSheet :=
  CsvSheet_ (TypedSheet_ (map (map cell_of) rows) (Zlen rows) wd ([], false)) [] (Zlen rows) 0 true.
Definition named_view (wd : Z) (names : list (list Z)) (rows : list (list (list Z))) : SheetView :=
  view_of (table wd rows) (NameSniffer_ names [] true false true 0) [].
Definition unit_log (x : float) : float := f64_of_Z 1.

Definition pivot_view : SheetView :=
  named_view 2 [cstr "id"; cstr "name"] [[cstr "1"; cstr "ann"]; [cstr "2"; cstr "bob"]; [cstr "3"; cstr "eve"]].
Definition local_view : SheetView :=
  named_view 2 [cstr "id"; cstr "name"] [[cstr "2"; cstr "bob"]; [cstr "1"; cstr "ann"]; [cstr "3"; cstr "eve"]].
Definition remote_view : SheetView :=
  named_view 2 [cstr "name"; cstr "id"]
    [[cstr "ann"; cstr "1"]; [cstr "bob"; cstr "2"]; [cstr "eve"; cstr "3"]; [cstr "joe"; cstr "4"]].
(** Identifiers on the left, names on the right. *)
Definition sample_mapping : DataSheet :=
  csv_view (table 2 [[cstr "1"; cstr "ann"]; [cstr "2"; cstr "bob"]; [cstr "3"; cstr "eve"]]).

Lemma named_view_ok wd names rows :
  0 <= wd -> Forall (fun row => Zlen row = wd) rows -> view_ok (named_view wd names rows).
Proof.
  intros Hw Hr. apply view_of_ok; [|constructor]. split_and!; cbn; [by rewrite length_map|done|].
  change (map (map cell_of) rows) with (map cell_of <$> rows). apply Forall_fmap.
  eapply Forall_impl; [|exact Hr]. intros row Hrow. unfold compose. cbn in *. by rewrite length_map.
Qed.

Lemma sample_mapping_ok :
  mapping_ok sample_mapping (sheet pivot_view) (sheet local_view) (sheet remote_view).
Proof.
  split.
  - apply (vo_sheet (named_view 2 [] _)), named_view_ok; [lia|]. by repeat constructor.
  - split_and!; vm_compute; discriminate.
  - intros i j Hi Hj. cbn in Hi, Hj.
    assert (i = 0 \/ i = 1 \/ i = 2) as [-> | [-> | ->] ] by lia;
      assert (j = 0 \/ j = 1 \/ j = 2) as [-> | [-> | ->] ] by lia; vm_compute; done || discriminate.
  - intros i j Hi Hj. cbn in Hi, Hj.
    assert (i = 0 \/ i = 1 \/ i = 2) as [-> | [-> | ->] ] by lia;
      assert (j = 0 \/ j = 1 \/ j = 2) as [-> | [-> | ->] ] by lia; vm_compute; done || discriminate.
Qed.

(** By a mapping with trusted names: the rows of local and remote sheet are linked, and
    the columns of the remote sheet are exchanged. *)
Lemma compare_orders_spec_witness :
  exists o, compare_orders unit_log (CompareFlags2 (IdFlags true false) true (Some sample_mapping) true)
              (CompareFlags2 (IdFlags true false) true (Some sample_mapping) true)
              pivot_view local_view remote_view = Ok o /\
    order_ok (p2l_row_order o) 3 3 /\ order_ok (p2r_row_order o) 3 4 /\
    order_ok (p2l_col_order o) 2 2 /\ order_ok (p2r_col_order o) 2 2 /\
    arr (a2b_sheet (p2l_row_order o)) = [[1]; [0]; [2]] /\ arr (a2b_sheet (p2r_col_order o)) = [[1]; [0]].
Proof.
  destruct (compare_orders_spec unit_log (CompareFlags2 (IdFlags true false) true (Some sample_mapping) true)
      (CompareFlags2 (IdFlags true false) true (Some sample_mapping) true) pivot_view local_view remote_view)
    as (o & E & H1 & H2 & H3 & H4 & _).
  - apply named_view_ok; [lia|by repeat constructor].
  - apply named_view_ok; [lia|by repeat constructor].
  - apply named_view_ok; [lia|by repeat constructor].
  - intros mp [= <-]. apply sample_mapping_ok.
  - intros _. split_and!; (split; [done|by apply (bool_decide_unpack _); vm_compute]).
  - exists o. split_and!; [exact E|exact H1|exact H2|exact H3|exact H4| |];
      vm_compute in E; injection E as <-; reflexivity.
Defined.

(** The columns of the pivot and the remote sheet, whose rows agree. *)
Definition sample_man : MeasureMan ColMan :=
  MeasureMan_ (ColMan_ IdentityOrder) (ColMan_ IdentityOrder) (ColMan_ IdentityOrder)
    (pass_setSize (new_pass pivot_view local_view) 2 2) (pass_setSize (new_pass pivot_view pivot_view) 2 2)
    (pass_setSize (new_pass local_view local_view) 2 2) false false false.

Lemma matching_spec_witness :
  exists m' a' b', compareCore unit_log sample_man = Ok m' /\
    corresponds (getOrder (main_pass m')) a' b' /\ extends [-1; -1] a' /\ extends [-1; -1] b' /\
    arr (asel (main_pass m')) = [[0]; [1]].
Proof.
  assert (view_ok pivot_view) as [V1 _] by (apply named_view_ok; [lia|by repeat constructor]).
  assert (view_ok local_view) as [V2 _] by (apply named_view_ok; [lia|by repeat constructor]).
  assert (forall v1 v2, readable (sheet v1) -> readable (sheet v2) -> height (sheet v1) = height (sheet v2) ->
    colman_ready (ColMan_ IdentityOrder) v1 v2) as Hready.
  { intros v1 v2 H1 H2 Hh. split_and!; [|done|done]. intros j Hj. exists j. split; [done|]. right.
    by rewrite Hh. }
  destruct (matching_spec (S:=ColMan) unit_log pivot_view local_view sample_man [-1; -1] [-1; -1] V1 V2)
    as (m' & a' & b' & E & _ & Hc & Ea & Eb).
  - constructor; cbn; try done; try (by apply Hready); try (by constructor).
    + constructor; try done; by eexists.
    + apply (pairing_unmatched 2 2).
  - exists m', a', b'. split_and!; [exact E|exact Hc|exact Ea|exact Eb|].
    vm_compute in E. injection E as <-. reflexivity.
Defined.

(** ** Where it goes wrong *)

(** The names of the columns are trusted, but no header was found: the vector of names is
    empty, and [FastMatch] reads beyond its end. *)
Lemma unnamed_columns_fault :
  fast_match (pass_setSize (new_pass (named_view 1 [] [[cstr "1"]]) (named_view 1 [] [[cstr "2"]])) 1 1)
    false (CompareFlags2 (IdFlags false false) true None false) = Fault OutOfBounds.
Proof. vm_compute. reflexivity. Qed.

(** A mapping with one local key on two rows: both remote rows are sent to the pivot row,
    which is sent to the second only. *)
Lemma repeated_key_not_inverse :
  let sh ids := csv_view (table 1 ids) in
  exists ol or, map_rows (csv_view (table 2 [[cstr "1"; cstr "a"]; [cstr "1"; cstr "b"]])) true
      (sh [[cstr "1"]]) (sh [[cstr "1"]]) (sh [[cstr "a"]; [cstr "b"]]) = Ok (ol, or) /\
    b2a or 0 = Ok 0 /\ b2a or 1 = Ok 0 /\ a2b or 0 = Ok 1.
Proof. eexists _, _. split; [vm_compute; reflexivity|]. by split_and!. Qed.

(** [CombinedRowMan::setup] sets up its first measure only.  With identifiers to prefer
    ([bias_ids]) the second one, used from the third level on, knows no columns and finds no
    likeness where the first one does. *)
Lemma second_measure_blind :
  let v := SheetView_ (csv_view (table 1 [[cstr "7"]])) [cstr "id"] [0] [] in
  let man := new_combined (IdFlags false true) IdentityOrder in
  exists r p r1 p1 r2 p2, setup man (new_pass v v) = Ok (r, p) /\
    measure r p 1 = Ok (r1, p1) /\ size (sp_data (pmatch p1)) = 1%nat /\
    measure r p 2 = Ok (r2, p2) /\ sp_data (pmatch p2) = ∅.
Proof.
  eexists _, _, _, _, _, _. split; [vm_compute; reflexivity|]. split; [vm_compute; reflexivity|].
  split; [vm_compute; reflexivity|]. split; vm_compute; reflexivity.
Qed.
