(* ===== verification/Merger.v ===== *)
(** * Merging sheets

    Models [Merger] ([libcoopy_core/Merger.cpp], [include/coopy/Merger.h]): the
    three-way comparison of cells ([compare_string]), the treatment of one matched
    row ([mergeRow]) and [merge], which turns the units of [OrderMerge] into the
    changes that are sent to the output, for outputs that want no links.

    - A [SheetCell] is its text and its "escaped" (null) mark; a sheet is seen
      through its [cellSummary] and its height.
    - What the name and index sniffers say about the sheets ([suggestColumnName],
      [suggestIndexes]) are arguments.
    - The calls made on the output are the list of [out_event]s; [setConflicted],
      called for each cell in conflict, is not one of them, since the [conflicted]
      mark of the row says the same.
    - [exit(1)] is [Fault Exited].
    - The members [lastAddress], [lastAction], [current_row], [last_row] and
      [addition], and the vectors [expandMerge] to [expandPivot] after the loop
      over the cells, are written and never read: they are left out, as is
      tracing. *)

From stdpp Require Import gmap.
From S2P Require Import Prelude Sheet CsvFile Viterbi OrderMerge Mover.
#[local] Open Scope Z_scope.
#[local] Arguments cstr s%_string.

(** ** Cells *)

Definition blank : list Z := cstr "__NOT_SET__CSVCOMPARE_SSFOSSIL".
Definition blankCell : pcell := (blank, true).

(** The members of [CompareFlags] that [Merger] looks at. *)
Record CompareFlags := CompareFlags_ {
  order : order_flags;
  fixed_columns : bool;
  assume_header : bool;
  ignore_case : bool;
  resolve : list Z;
  acts : list (list Z);
  include_columns : list (list Z);
  exclude_columns : list (list Z)
}.

Definition can (flags : CompareFlags) (act : list Z) : bool :=
  bool_decide (acts flags = []) || bool_decide (act ∈ acts flags).
Definition canInsert (flags : CompareFlags) : bool := can flags (cstr "insert").
Definition canDelete (flags : CompareFlags) : bool := can flags (cstr "delete").
Definition canUpdate (flags : CompareFlags) : bool := can flags (cstr "update").

Definition normalize_string (low : list Z) (flags : CompareFlags) : list Z :=
  if ignore_case flags then tolower <$> low else low.

(** A null has to carry one of two texts, or the program ends. *)
Definition null_text (t : list Z) : bool := bool_decide (t = cstr "NULL") || bool_decide (t = blank).

Definition compare_string (a b : pcell) (flags : CompareFlags) : result bool :=
  _ ← check (negb (a.2 && b.2) || (null_text a.1 && null_text b.1)) Exited;
  if negb (ignore_case flags) then Ok (bool_decide (a = b))
  else if negb (Bool.eqb a.2 b.2) then Ok false
  else Ok (bool_decide (normalize_string a.1 flags = normalize_string b.1 flags)).

(** The comparison of the three versions of a cell: the merged value, whether it
    is news to the local sheet ([novel]), whether it is a conflict
    ([conflicted1]). *)
Definition merge_cell (flags : CompareFlags) (l r p : pcell) : result (pcell * bool * bool) :=
  same ← compare_string l r flags;
  if same : bool then Ok (l, false, false)
  else if bool_decide (l = blankCell) then
    if negb r.2 then Ok (r, true, false) else Ok (l, false, false)
  else if negb (bool_decide (r = blankCell)) then
    pl ← compare_string p l flags;
    pr ← (if pl : bool then Ok true else compare_string p r flags);
    if pr : bool then
      if pl : bool then Ok (r, true, false) else Ok (l, false, false)
    else if bool_decide (resolve flags = []) then Ok (l, true, true)
    else if bool_decide (resolve flags = cstr "ours") then Ok (l, false, false)
    else if bool_decide (resolve flags = cstr "theirs") then Ok (r, true, false)
    else if bool_decide (resolve flags = cstr "neither") then Ok (p, true, false)
    else Ok (l, false, false)
  else Ok (l, false, false).

(** ** Row changes *)

Inductive row_mode :=
| ROW_CHANGE_NONE | ROW_CHANGE_DELETE | ROW_CHANGE_INSERT | ROW_CHANGE_UPDATE
| ROW_CHANGE_CONTEXT | ROW_CHANGE_MOVE.

Abbreviation txt2cell := (gmap (list Z) pcell).

Record RowChange := RowChange_ {
  mode : row_mode;
  cond : txt2cell;
  val : txt2cell;
  conflictingVal : txt2cell;
  conflictingParentVal : txt2cell;
  rc_names : list (list Z);
  conflicted : bool;
  pRow : Z;
  lRow : Z;
  rRow : Z
}.
Definition no_change : RowChange :=
  RowChange_ ROW_CHANGE_NONE ∅ ∅ ∅ ∅ [] false (-2) (-2) (-2).
Definition set_mode (c : RowChange) (md : row_mode) : RowChange :=
  RowChange_ md (cond c) (val c) (conflictingVal c) (conflictingParentVal c) (rc_names c)
    (conflicted c) (pRow c) (lRow c) (rRow c).

(** The members of the merger that [mergeRow] reads or changes. *)
Record merger := Merger_ {
  conflicts : Z;
  names : list (list Z);
  filtered_names : list (list Z);
  include_column : list (list Z);
  exclude_column : list (list Z);
  last_local_row : Z;
  last_local_row_marked : Z;
  bottom_local_row : Z;
  lastRowChange : RowChange;
  had_row : bool;
  had_foreign_row : bool;
  allGone : bool
}.

(** ** mergeRow *)

(** One column of the three rows: [expandDel], [existsLocally], [expandLocal],
    [expandRemote] and [expandPivot] at one index. *)
Record xcell := XCell {
  x_deleted : bool;
  x_exists : bool;
  x_local : pcell;
  x_remote : pcell;
  x_pivot : pcell
}.

Section MergeRow.
Context (flags : CompareFlags) (diff : bool).
Context (pivot local remote : Z -> Z -> result pcell) (pivot_height : Z).

(** The cell of a sheet, or the blank where there is none. *)
Definition cell_or_blank (sheet : Z -> Z -> result pcell) (col row : Z) : result pcell :=
  if (row >=? 0) && (col >=? 0) then sheet col row else Ok blankCell.

(** The first loop, over the columns: the cells and [cond]. *)
Fixpoint expand (m : merger) (pR lR rR : Z) (cols : list MatchUnit) (at_ : nat) (cd : txt2cell) :
    result (list xcell * txt2cell) :=
  match cols with
  | [] => Ok ([], cd)
  | u :: cols =>
      xs ← (if diff || negb (deleted u) then
              l ← cell_or_blank local (localUnit u) lR;
              r ← cell_or_blank remote (remoteUnit u) rR;
              p ← cell_or_blank pivot (pivotUnit u) pR;
              Ok [XCell (deleted u) (negb (localUnit u =? -1)) l r p]
            else Ok []);
      cd ← (if (lR >=? 0) && (localUnit u >=? 0) && negb (deleted u) then
              let n := default [] (names m !! at_) in
              if (diff || bool_decide (n ∈ include_column m)) &&
                 negb (bool_decide (n ∈ exclude_column m))
              then c ← local (localUnit u) lR; Ok (<[n := c]> cd)
              else Ok cd
            else Ok cd);
      let at_ := if negb (deleted u) then S at_ else at_ in
      '(rest, cd) ← expand m pR lR rR cols at_ cd;
      Ok (xs ++ rest, cd)
  end.

(** What the second loop, over the cells, collects. *)
Record news := News {
  value : txt2cell;
  conflicted_value : txt2cell;
  conflicted_parent_value : txt2cell;
  conflict : bool
}.

Definition merge_xcell (m : merger) (x : xcell) (at_ : nat) (a : news) : result (nat * news) :=
  if fixed_columns flags && negb (x_exists x) then Ok (at_, a) else
  ignored ← (if negb (x_deleted x) && negb (bool_decide (filtered_names m = []))
             then n ← rd (names m) (Z.of_nat at_); Ok (negb (bool_decide (n ∈ filtered_names m)))
             else Ok false);
  '(l, novel, conflicted1) ← (if ignored : bool then Ok (x_local x, false, false)
                              else merge_cell flags (x_local x) (x_remote x) (x_pivot x));
  let a := News (value a) (conflicted_value a) (conflicted_parent_value a)
             (conflict a || conflicted1) in
  if diff && negb (x_deleted x) then
    let n := default [] (names m !! at_) in
    let a :=
      if (novel : bool) && negb (bool_decide (n ∈ exclude_column m)) then
        News (<[n := l]> (value a))
          (if conflicted1 : bool then <[n := x_remote x]> (conflicted_value a)
           else conflicted_value a)
          (if conflicted1 : bool then <[n := x_pivot x]> (conflicted_parent_value a)
           else conflicted_parent_value a) (conflict a)
      else a in
    Ok (S at_, a)
  else Ok (at_, a).

Fixpoint merge_xcells (m : merger) (xs : list xcell) (at_ : nat) (a : news) : result news :=
  match xs with
  | [] => Ok a
  | x :: xs => '(at_, a) ← merge_xcell m x at_ a; merge_xcells m xs at_ a
  end.

(** A context row is sent if rows are ordered and there is a pivot. *)
Definition send_context (alt : RowChange) (rc : list RowChange) : list RowChange :=
  if use_order (order flags) && (pivot_height >? 0)
  then rc ++ [set_mode alt ROW_CHANGE_CONTEXT] else rc.

(** The part that looks for a move: [rc], [haveMove] and the mark. *)
Definition move_part (m : merger) (rowChange : RowChange) (prev_had_row : bool) (delRow : bool)
    (rc : list RowChange) : list RowChange * bool * Z :=
  let lR := lRow rowChange in
  if negb delRow && negb (lR =? -1) && (had_row m || had_foreign_row m) &&
     ((lR <? bottom_local_row m) || had_foreign_row m) then
    let rc := if (last_local_row m >=? 0) && negb (last_local_row_marked m =? last_local_row m)
              then send_context (lastRowChange m) rc else rc in
    (rc, (prev_had_row || negb (lR =? 0)) && use_order (order flags), lR)
  else (rc, false, last_local_row_marked m).

Definition set_marks (m : merger) (marked : Z) (had_row_ had_foreign : bool) : merger :=
  Merger_ (conflicts m) (names m) (filtered_names m) (include_column m) (exclude_column m)
    (last_local_row m) marked (bottom_local_row m) (lastRowChange m) had_row_ had_foreign (allGone m).

(** The insertion, deletion or update of the row; [haveMove] tells whether a move
    is pending.  Returns the changes, [rowChange] with its mode, the merger and
    whether the move is still pending. *)
Definition change_part (m : merger) (rowChange : RowChange) (prev_had_row haveMove : bool)
    (rc : list RowChange) : list RowChange * RowChange * merger * bool :=
  let lR := lRow rowChange in
  let moved := set_mode rowChange ROW_CHANGE_MOVE in
  let flush rc := if haveMove then rc ++ [moved] else rc in
  if lR =? -1 then
    if canInsert flags then
      let rc := flush rc in
      let rowChange := set_mode rowChange ROW_CHANGE_INSERT in
      let rc :=
        if last_local_row m >=? 0 then
          if negb (last_local_row_marked m =? last_local_row m)
          then send_context (lastRowChange m) rc else rc
        else if negb (prev_had_row || had_foreign_row m || allGone m)
             then send_context no_change rc else rc in
      (rc ++ [rowChange], rowChange,
       set_marks m lR (had_row m) (if last_local_row m <? 0 then true else had_foreign_row m), false)
    else (rc, rowChange, m, haveMove)
  else if rRow rowChange =? -1 then
    if canDelete flags && negb (pRow rowChange =? -1) then
      let rowChange := set_mode rowChange ROW_CHANGE_DELETE in
      (flush rc ++ [rowChange], rowChange, set_marks m lR (had_row m) (had_foreign_row m), false)
    else (rc, rowChange, m, haveMove)
  else
    if canUpdate flags && negb (bool_decide (val rowChange = ∅)) then
      let rowChange :=
        set_mode rowChange (if haveMove then ROW_CHANGE_MOVE else ROW_CHANGE_UPDATE) in
      (rc ++ [rowChange], rowChange, set_marks m lR (had_row m) (had_foreign_row m), false)
    else (rc, rowChange, m, haveMove).

(** The end of [mergeRow] for outputs that want a diff. *)
Definition emit_changes (m : merger) (u : MatchUnit) (cd : txt2cell) (a : news) (rc : list RowChange) :
    list RowChange * merger :=
  let rowChange := RowChange_ ROW_CHANGE_NONE cd (value a) (conflicted_value a)
                     (conflicted_parent_value a) (names m) (conflict a) (pivotUnit u) (localUnit u)
                     (remoteUnit u) in
  let prev_had_row := had_row m in
  let m := if negb (last_local_row m =? -1)
           then set_marks m (last_local_row_marked m) true false else m in
  let '(rc, haveMove, marked) := move_part m rowChange prev_had_row (deleted u) rc in
  let m := set_marks m marked (had_row m) (had_foreign_row m) in
  let moved := set_mode rowChange ROW_CHANGE_MOVE in
  let '(rc, rowChange, m, haveMove) := change_part m rowChange prev_had_row haveMove rc in
  let rc := if haveMove then rc ++ [moved] else rc in
  (rc, Merger_ (conflicts m) (names m) (filtered_names m) (include_column m) (exclude_column m)
         (localUnit u) (last_local_row_marked m)
         (if localUnit u >=? bottom_local_row m then localUnit u else bottom_local_row m)
         rowChange (had_row m) (had_foreign_row m) (allGone m)).

Definition mergeRow (m : merger) (cols : list MatchUnit) (u : MatchUnit) (rc : list RowChange) :
    result (list RowChange * merger) :=
  '(xs, cd) ← expand m (pivotUnit u) (localUnit u) (remoteUnit u) cols 0 ∅;
  a ← merge_xcells m xs 0 (News ∅ ∅ ∅ false);
  if negb diff then
    Ok (rc, if conflict a
            then Merger_ (conflicts m + 1) (names m) (filtered_names m) (include_column m)
                   (exclude_column m) (last_local_row m) (last_local_row_marked m)
                   (bottom_local_row m) (lastRowChange m) (had_row m) (had_foreign_row m) (allGone m)
            else m)
  else Ok (emit_changes m u cd a rc).
End MergeRow.

(** ** Column changes *)

Inductive order_mode :=
| ORDER_CHANGE_NONE | ORDER_CHANGE_DELETE | ORDER_CHANGE_INSERT | ORDER_CHANGE_MOVE
| ORDER_CHANGE_RENAME.

Record OrderChange := OrderChange_ {
  indicesBefore : list Z;
  namesBefore : list (list Z);
  indicesAfter : list Z;
  namesAfter : list (list Z);
  subject : Z;
  object : Z;
  oc_mode : order_mode
}.

(** The columns ([local_cols]), their names ([local_col_names]) and the changes so
    far ([cc]). *)
Record columns := Columns { cols : list Z; col_names : list (list Z); cc : list OrderChange }.

(** The change from [c] to the columns [cs] with names [ns]. *)
Definition changed (c : columns) (cs : list Z) (ns : list (list Z)) (subj obj : Z) (md : order_mode) :
    columns :=
  Columns cs ns (cc c ++ [OrderChange_ (cols c) (col_names c) cs ns subj obj md]).

(** Pass 1, deletions: also [constantIndex] and [allGone].  ([lCol] is the pivot's
    column.) *)
Definition delete_column (indexes : gmap (list Z) bool) (u : MatchUnit) (st : columns * bool * bool) :
    result (columns * bool * bool) :=
  let '(c, constantIndex, gone) := st in
  let lCol := pivotUnit u in
  if negb (lCol =? -1) && deleted u then
    let idx := find_index lCol (cols c) in
    _ ← check (negb (idx =? length (cols c))%nat) Exited;
    n ← rd (col_names c) (Z.of_nat idx);
    let constantIndex := if default false (indexes !! n) then false else constantIndex in
    cs ← vec_erase (cols c) (Z.of_nat idx);
    ns ← vec_erase (col_names c) (Z.of_nat idx);
    Ok (changed c cs ns lCol (-1) ORDER_CHANGE_DELETE, constantIndex,
        gone || bool_decide (cs = []))
  else Ok (c, constantIndex, gone).

Fixpoint delete_columns (indexes : gmap (list Z) bool) (us : list MatchUnit)
    (st : columns * bool * bool) : result (columns * bool * bool) :=
  match us with
  | [] => Ok st
  | u :: us => st ← delete_column indexes u st; delete_columns indexes us st
  end.

(** Pass 2: the order the kept local columns should have, and the moves. *)
Definition shuffled_cols (us : list MatchUnit) : list Z :=
  omap (fun u => if negb (localUnit u =? -1) && negb (deleted u) then Some (localUnit u) else None) us.

Definition move_column (shuffled : list Z) (a : Z) (c : columns) : result columns :=
  let idx := find_index a (cols c) in
  _ ← check (negb (idx =? length (cols c))%nat) Exited;
  let idx2 := find_index a shuffled in
  _ ← check (negb (idx2 =? length shuffled)%nat) Exited;
  cs ← vec_erase (cols c) (Z.of_nat idx);
  n ← rd (col_names c) (Z.of_nat idx);
  ns ← vec_erase (col_names c) (Z.of_nat idx);
  cs ← vec_insert cs (Z.of_nat idx2) a;
  ns ← vec_insert ns (Z.of_nat idx2) n;
  if bool_decide (col_names c <> ns) then Ok (changed c cs ns a a ORDER_CHANGE_MOVE)
  else Ok (Columns cs ns (cc c)).

Fixpoint move_columns (shuffled move_order : list Z) (c : columns) : result columns :=
  match move_order with
  | [] => Ok c
  | a :: move_order => c ← move_column shuffled a c; move_columns shuffled move_order c
  end.

Definition shuffle_columns (us : list MatchUnit) (c : columns) : result columns :=
  let shuffled := shuffled_cols us in
  _ ← check (length (cols c) =? length shuffled)%nat Exited;
  '(_, move_order, _) ← move (cols c) shuffled [] (Mover_ 0 false []);
  move_columns shuffled move_order c.

(** Pass 3, insertions.  The name is made different from the others: it can
    collide once with each, so [fuel] is their number. *)
Fixpoint avoid_collision (fuel : nat) (others : list (list Z)) (n : list Z) : result (list Z) :=
  if bool_decide (n ∈ others) then
    match fuel with
    | O => Fault OutOfFuel
    | S fuel => avoid_collision fuel others (n ++ cstr "_")
    end
  else Ok n.

Definition bracketed (n : list Z) : list Z :=
  if (48 <=? cget n 0) && (cget n 0 <=? 57) then cstr "{" ++ n ++ cstr "}" else n.

Definition insert_column (remote_name : Z -> list Z) (u : MatchUnit) (st : columns * Z) :
    result (columns * Z) :=
  let '(c, at_) := st in
  let rCol := remoteUnit u in
  '(c, at_) ← (if (pivotUnit u =? -1) && negb (rCol =? -1) && negb (deleted u) then
                 cs ← vec_insert (cols c) at_ (- rCol - 1);
                 n ← avoid_collision (length (col_names c)) (col_names c)
                       (bracketed (remote_name rCol));
                 ns ← vec_insert (col_names c) at_ n;
                 subj ← rd cs at_;
                 Ok (changed c cs ns subj (-1) ORDER_CHANGE_INSERT, at_ + 1)
               else Ok (c, at_));
  Ok (c, if negb (localUnit u =? -1) && negb (deleted u) then at_ + 1 else at_).

Fixpoint insert_columns (remote_name : Z -> list Z) (us : list MatchUnit) (st : columns * Z) :
    result (columns * Z) :=
  match us with
  | [] => Ok st
  | u :: us => st ← insert_column remote_name u st; insert_columns remote_name us st
  end.

(** Pass 4, renames. *)
Fixpoint find_name (n : list Z) (l : list (list Z)) : nat :=
  match l with [] => O | y :: l => if bool_decide (y = n) then O else S (find_name n l) end.

Definition rename_column (local_name remote_name : Z -> list Z) (u : MatchUnit) (c : columns) :
    result columns :=
  let lCol := pivotUnit u in
  let rCol := remoteUnit u in
  if negb (lCol =? -1) && negb (rCol =? -1) && negb (deleted u) then
    let lName := local_name lCol in
    let rName := remote_name rCol in
    if bool_decide (lName <> rName) then
      let idx := find_name lName (col_names c) in
      if (idx =? length (col_names c))%nat then Ok c
      else
        ns ← wr (col_names c) (Z.of_nat idx) rName;
        subj ← rd (cols c) (Z.of_nat idx);
        Ok (changed c (cols c) ns subj (-1) ORDER_CHANGE_RENAME)
    else Ok c
  else Ok c.

Fixpoint rename_columns (local_name remote_name : Z -> list Z) (us : list MatchUnit) (c : columns) :
    result columns :=
  match us with
  | [] => Ok c
  | u :: us => c ← rename_column local_name remote_name u c;
               rename_columns local_name remote_name us c
  end.

(** The four passes: the columns, [constantIndex] and [allGone]. *)
Definition column_changes (flags : CompareFlags) (local_name remote_name : Z -> list Z)
    (indexes : gmap (list Z) bool) (us : list MatchUnit) (c : columns) :
    result (columns * bool * bool) :=
  '(c, constantIndex, gone) ← delete_columns indexes us (c, true, false);
  c ← shuffle_columns us c;
  '(c, _) ← insert_columns remote_name us (c, 0);
  c ← (if assume_header flags then rename_columns local_name remote_name us c else Ok c);
  Ok (c, constantIndex, gone).

(** ** merge *)

(** The calls on the output; [ChangeRow] has the members that are set before the
    call. *)
Inductive out_event :=
| ChangeName (final constant : bool) (ns : list (list Z))
| ChangeColumn (c : OrderChange)
| AddPools
| ChangeRow (c : RowChange) (indexes : gmap (list Z) bool) (allNames : list (list Z))
| AddHeader (header : list (list Z))
| MergeDone
| StripMarkup.

(** The [indexes] of the row changes: the columns that identify a row. *)
Definition index_map (m : merger) (original : list (list Z)) (index_flags : list Z) :
    result (gmap (list Z) bool) :=
  l ← mapR (fun i => n ← rd original i; f ← rd index_flags i;
                     let b := f >? 0 in
                     let b := if bool_decide (n ∈ include_column m) then true else b in
                     let b := if bool_decide (n ∈ exclude_column m) then false else b in
                     Ok (n, b)) (seqZ 0 (Zlen original));
  Ok (if existsb snd l then foldl (fun ix p => <[p.1 := p.2]> ix) ∅ l else ∅).

Section Merge.
Context {C : Type} `{CostOps C}.
Context (flags : CompareFlags) (diff : bool).
Context (pivot local remote : Z -> Z -> result pcell).
Context (local_width pivot_height remote_height : Z).
Context (row_local row_remote col_local col_remote : OrderResult).
Context (local_name remote_name : Z -> list Z) (index_flags : list Z).

(** The loop over the rows, for a diff. *)
Fixpoint diff_rows (m : merger) (cols rows : list MatchUnit) (rc : list RowChange) :
    result (list RowChange * merger) :=
  match rows with
  | [] => Ok (rc, m)
  | u :: rows =>
      let u := if allGone m then MatchUnit_ (-1) (-1) (remoteUnit u) (deleted u) (status u) else u in
      '(rc, m) ← (if negb (remoteUnit u =? -1) || negb (allGone m)
                  then mergeRow flags diff pivot local remote pivot_height m cols u rc
                  else Ok (rc, m));
      diff_rows m cols rows rc
  end.

(** The loop over the rows otherwise. *)
Fixpoint merge_rows (m : merger) (cols rows : list MatchUnit) (evs : list out_event) :
    result (list out_event * merger) :=
  match rows with
  | [] => Ok (evs, m)
  | u :: rows =>
      if negb (deleted u) then
        '(rc, m) ← mergeRow flags diff pivot local remote pivot_height m cols u [];
        merge_rows m cols rows (evs ++ ((fun c => ChangeRow c ∅ []) <$> rc))
      else merge_rows m cols rows evs
  end.

Definition header_of (u : MatchUnit) : option (list Z) :=
  if negb (deleted u) then
    Some (if negb (pivotUnit u =? -1) && negb (remoteUnit u =? -1) then []
          else if negb (pivotUnit u =? -1) then []
          else if negb (remoteUnit u =? -1) then cstr "[add]" else cstr "[float]")
  else None.

(** The fields [merge] sets at its start. *)
Definition start : merger :=
  Merger_ 0 [] [] (include_columns flags) (exclude_columns flags) (-1) (-1) (-1) no_change false false
    false.
Definition with_columns (m : merger) (ns filtered : list (list Z)) (gone : bool) : merger :=
  Merger_ (conflicts m) ns filtered (include_column m) (exclude_column m) (last_local_row m)
    (last_local_row_marked m) (bottom_local_row m) (lastRowChange m) (had_row m) (had_foreign_row m)
    gone.

(** The units of the rows: all the rows of the remote sheet if the columns have
    nothing in common. *)
Definition row_units (overlap : Z) : result (list MatchUnit) :=
  if (overlap =? 0) && diff then
    Ok ((fun i => MatchUnit_ (-1) (-1) i false MATCH_UNIT_NONE) <$> seqZ 0 remote_height)
  else '(us, _) ← merge (C:=C) [] row_local row_remote (order flags) false; Ok us.

Definition diff_merge (cus rus : list MatchUnit) : result (list out_event) :=
  let m := start in
  let original := local_name <$> seqZ 0 local_width in
  indexes ← index_map m original index_flags;
  '(c, constantIndex, gone) ← column_changes flags local_name remote_name indexes cus
                                (Columns (seqZ 0 local_width) original []);
  let constantColumns := bool_decide (cc c = []) in
  let m := with_columns m (col_names c) (if fixed_columns flags then original else []) gone in
  let allNames := if fixed_columns flags then original else col_names c in
  '(rc, m) ← diff_rows m cus rus [];
  let indexes := if negb constantIndex
                 then foldl (fun ix n => <[n := true]> ix) indexes original else indexes in
  Ok ((if negb (fixed_columns flags)
       then ChangeName false constantColumns original :: (ChangeColumn <$> cc c) else []) ++
      [ChangeName true constantColumns allNames] ++
      (if bool_decide (rc = []) then [] else [AddPools]) ++
      ((fun r => ChangeRow r indexes allNames) <$> rc) ++ [MergeDone]).

Definition plain_merge (cus rus : list MatchUnit) : result (list out_event) :=
  '(evs, m) ← merge_rows start cus rus [AddHeader (omap header_of cus)];
  Ok (evs ++ [MergeDone] ++ (if conflicts m =? 0 then [StripMarkup] else [])).

Definition merge_sheets (allIdentical : bool) : result (list out_event) :=
  if allIdentical then Ok [] else
  let cflags := OrderFlags false false (use_order (order flags)) in
  '(cus, overlap) ← merge (C:=C) [] col_local col_remote cflags true;
  rus ← row_units overlap;
  if diff then diff_merge cus rus else plain_merge cus rus.
End Merge.
