(* ===== verification/MergerSpec.v ===== *)
(** * Merging sheets: the changes describe the merged columns and rows

    The column changes [Merger] sends form a chain from the local columns to the
    merged ones, in which every column keeps its name and no name occurs twice;
    the change it sends for a matched row turns the local row into the remote
    one.  Where the order of the columns, or the names the cells are given, come
    out wrong, this is shown by examples. *)

From stdpp Require Import gmap.
From S2P Require Import Prelude Sheet CsvFile Viterbi OrderMerge OrderMergeSpec Mover MoverSpec Merger.
#[local] Open Scope Z_scope.
#[local] Arguments cstr s%_string.

(** ** Columns with their names *)

Abbreviation named := (list (Z * list Z)).

(** What one change does to the columns with their names. *)
Inductive edit : order_mode -> Z -> named -> named -> Prop :=
| edit_delete A B x n : edit ORDER_CHANGE_DELETE x (A ++ (x, n) :: B) (A ++ B)
| edit_insert A B x n :
    x < 0 -> x ∉ (A ++ B).*1 -> n ∉ (A ++ B).*2 ->
    edit ORDER_CHANGE_INSERT x (A ++ B) (A ++ (x, n) :: B)
| edit_move A B A' B' x n :
    A ++ B = A' ++ B' -> edit ORDER_CHANGE_MOVE x (A ++ (x, n) :: B) (A' ++ (x, n) :: B')
| edit_rename A B x n n' : edit ORDER_CHANGE_RENAME x (A ++ (x, n) :: B) (A ++ (x, n') :: B).

(** [col_chain l P P']: the changes [l], one after the other, lead from [P] to [P']. *)
Inductive col_chain : list OrderChange -> named -> named -> Prop :=
| chain_nil P : col_chain [] P P
| chain_snoc l P P1 P2 x obj md :
    col_chain l P P1 -> edit md x P1 P2 ->
    col_chain (l ++ [OrderChange_ P1.*1 P1.*2 P2.*1 P2.*2 x obj md]) P P2.

(** The columns [c] are [P], reached from [P0]. *)
Definition at_columns (P0 P : named) (c : columns) : Prop :=
  cols c = P.*1 /\ col_names c = P.*2 /\ col_chain (cc c) P0 P.

Lemma at_changed P0 P c P' x obj md :
  at_columns P0 P c -> edit md x P P' -> at_columns P0 P' (changed c P'.*1 P'.*2 x obj md).
Proof.
  intros (Hc & Hn & Hch) He. split_and!; [done|done|]. unfold changed. simpl. rewrite Hc, Hn.
  by apply chain_snoc.
Qed.

(** The place of a column. *)
Lemma named_split (P : named) x :
  NoDup P.*1 -> x ∈ P.*1 ->
  exists A n B, P = A ++ (x, n) :: B /\ find_index x P.*1 = length A.
Proof.
  intros Hnd Hx. destruct (find_index_in x _ Hx) as [Hlt Hl].
  rewrite list_lookup_fmap in Hl. destruct (P !! find_index x P.*1) as [[y n]|] eqn:E; [|done].
  simplify_eq/=. exists (take (find_index x P.*1) P), n, (drop (S (find_index x P.*1)) P).
  split; [by rewrite take_drop_middle|]. rewrite length_take. rewrite length_fmap in Hlt. lia.
Qed.

Section Parallel.
Context {X Y : Type} (f : X -> Y).

Lemma vec_erase_fmap A x B : vec_erase (f <$> A ++ x :: B) (Zlen A) = Ok (f <$> A ++ B).
Proof.
  rewrite !fmap_app, fmap_cons. rewrite <- (length_fmap f A).
  rewrite vec_erase_ok by (rewrite length_app; simpl; lia). rewrite Nat2Z.id.
  by rewrite take_app_length, drop_app_ge, Nat.sub_succ_l, Nat.sub_diag by lia.
Qed.

Lemma vec_insert_fmap A x B : vec_insert (f <$> A ++ B) (Zlen A) (f x) = Ok (f <$> A ++ x :: B).
Proof.
  rewrite !fmap_app, fmap_cons. rewrite <- (length_fmap f A).
  rewrite vec_insert_ok by (rewrite length_app; simpl; lia). rewrite Nat2Z.id.
  by rewrite take_app_length, drop_app_length.
Qed.

Lemma rd_fmap A x B : rd (f <$> A ++ x :: B) (Zlen A) = Ok (f x).
Proof. apply rd_ok; [lia|]. by rewrite Nat2Z.id, list_lookup_fmap, list_lookup_middle. Qed.
End Parallel.

(** The place is inside. *)
Lemma place_check (P A B : named) y e :
  P = A ++ y :: B -> check (negb (length A =? length P.*1)%nat) e = Ok tt.
Proof.
  intros ->. apply check_true, negb_true_iff, Nat.eqb_neq.
  rewrite length_fmap, length_app. simpl. lia.
Qed.

(** *** Deletions *)

Lemma delete_column_spec indexes u P0 P c ci gone :
  at_columns P0 P c -> NoDup P.*1 -> deleted u = true -> pivotUnit u <> -1 -> pivotUnit u ∈ P.*1 ->
  exists c' ci' gone', delete_column indexes u (c, ci, gone) = Ok (c', ci', gone') /\
    at_columns P0 (filter (fun p => p.1 <> pivotUnit u) P) c'.
Proof.
  intros Hc Hnd Hd Hne Hin. destruct (named_split P _ Hnd Hin) as (A & n & B & HP & Hi).
  pose proof Hc as (Hcols & Hnames & _). unfold delete_column.
  rewrite Hd, (proj2 (Z.eqb_neq _ _)), Hcols, Hnames, Hi by done. cbn [negb andb].
  set (x := pivotUnit u) in *.
  assert (filter (fun p => p.1 <> x) P = A ++ B) as Hf.
  { rewrite HP, fmap_app in Hnd. apply list.NoDup_app in Hnd as (_ & Hx & [HB _]%list.NoDup_cons).
    rewrite HP, list.filter_app, filter_cons_False by (simpl; tauto).
    f_equal; apply filter_all, Forall_forall; intros [y z] Hy%list_elem_of_In; simpl; intros ->.
    - apply (Hx x); [by apply (list_elem_of_fmap_2 fst _ (x, z))|apply list_elem_of_here].
    - by apply HB, (list_elem_of_fmap_2 fst _ (x, z)). }
  rewrite (place_check P A B _ _ HP), bind_Ok, Hf. rewrite HP in Hc |- *.
  rewrite (rd_fmap snd), bind_Ok, (vec_erase_fmap fst), bind_Ok, (vec_erase_fmap snd), bind_Ok.
  do 3 eexists. split; [done|]. apply (at_changed P0 _ c (A ++ B) x (-1)) with (1 := Hc). constructor.
Qed.

Definition deleted_cols (us : list MatchUnit) : list Z :=
  omap (fun u => if negb (pivotUnit u =? -1) && deleted u then Some (pivotUnit u) else None) us.

Lemma delete_columns_spec indexes us P0 P c ci gone :
  at_columns P0 P c -> NoDup P.*1 -> NoDup (deleted_cols us) -> deleted_cols us ⊆ P.*1 ->
  exists c' ci' gone', delete_columns indexes us (c, ci, gone) = Ok (c', ci', gone') /\
    at_columns P0 (filter (fun p => p.1 ∉ deleted_cols us) P) c'.
Proof.
  revert P c ci gone. induction us as [|u us IH]; intros P c ci gone Hc HP Hd Hsub; cbn [delete_columns].
  { exists c, ci, gone. split; [done|]. rewrite filter_all; [done|]. apply Forall_true.
    intros p. apply not_elem_of_nil. }
  change (deleted_cols (u :: us)) with (match
    (if negb (pivotUnit u =? -1) && deleted u then Some (pivotUnit u) else None)
    with Some x => x :: deleted_cols us | None => deleted_cols us end) in *.
  destruct (negb (pivotUnit u =? -1) && deleted u) eqn:E.
  - apply andb_true_iff in E as [E1%negb_true_iff%Z.eqb_neq E2].
    apply list.NoDup_cons in Hd as [Hni Hd].
    destruct (delete_column_spec indexes u P0 P c ci gone) as (c1 & ci1 & gone1 & -> & Hc1); try done.
    { apply Hsub, list_elem_of_here. }
    rewrite bind_Ok.
    destruct (IH (filter (fun p => p.1 <> pivotUnit u) P) c1 ci1 gone1) as (c2 & ci2 & g2 & -> & Hc2);
      try done.
    + eapply sublist_NoDup; [exact HP|]. apply fmap_sublist, sublist_filter.
    + intros x Hx. assert (x ∈ P.*1) as [p [-> Hp]]%list_elem_of_fmap by (by apply Hsub, list_elem_of_further).
      apply list_elem_of_fmap. exists p. split; [done|]. apply list_elem_of_filter. split; [|done].
      intros Heq. rewrite Heq in Hx. done.
    + do 3 eexists. split; [done|].
      rewrite list_filter_filter in Hc2. erewrite list_filter_iff; [exact Hc2|].
      intros p. rewrite not_elem_of_cons. tauto.
  - assert (delete_column indexes u (c, ci, gone) = Ok (c, ci, gone)) as ->.
    { unfold delete_column. by rewrite E. }
    rewrite bind_Ok. by apply IH.
Qed.

(** *** Moves *)

Lemma same_names (P P' : named) : P' ≡ₚ P -> NoDup P.*2 -> P'.*2 = P.*2 -> P' = P.
Proof.
  intros Hp Hnd E. apply list_eq. intros i.
  assert (P'.*2 !! i = P.*2 !! i) as Ei by (by rewrite E). rewrite !list_lookup_fmap in Ei.
  destruct (P' !! i) as [[x n]|] eqn:E1, (P !! i) as [[y n']|] eqn:E2; simplify_eq/=; try done.
  do 2 f_equal. assert ((x, n') ∈ P) as [j Hj]%list_elem_of_lookup
    by (rewrite <- Hp; by apply list_elem_of_lookup_2 with i).
  assert (i = j) as ->; [|by simplify_eq].
  apply (NoDup_lookup _ i j n' Hnd); by rewrite list_lookup_fmap, ?E2, ?Hj.
Qed.

(** [a] is put at its place in [shuffled]. *)
Definition placed (shuffled : list Z) (a : Z) (P P' : named) : Prop :=
  exists A B A' B' n, P = A ++ (a, n) :: B /\ A ++ B = A' ++ B' /\ P' = A' ++ (a, n) :: B' /\
    length A' = find_index a shuffled.

Lemma placed_perm sh a P P' : placed sh a P P' -> P' ≡ₚ P.
Proof.
  intros (A & B & A' & B' & n & -> & E & -> & _). rewrite <- !Permutation_middle. by rewrite E.
Qed.

Lemma move_column_spec sh a P0 P c :
  at_columns P0 P c -> NoDup P.*1 -> NoDup P.*2 -> a ∈ P.*1 -> a ∈ sh -> length P = length sh ->
  exists c' P', move_column sh a c = Ok c' /\ at_columns P0 P' c' /\ placed sh a P P'.
Proof.
  intros Hc H1 H2 Ha Hsh Hlen. destruct (named_split P a H1 Ha) as (A & n & B & HP & Hi).
  destruct (find_index_in a sh Hsh) as [Hlt _]. pose proof Hc as (Hcols & Hnames & Hch).
  unfold move_column. rewrite Hcols, Hnames, Hi, (place_check P A B _ _ HP), bind_Ok.
  rewrite check_true, bind_Ok by (apply negb_true_iff, Nat.eqb_neq; lia).
  rewrite HP, (vec_erase_fmap fst), bind_Ok, (rd_fmap snd), bind_Ok, (vec_erase_fmap snd), bind_Ok.
  set (k := find_index a sh) in *.
  assert (length (A ++ B) = pred (length P)) as Hl.
  { rewrite HP, !length_app. simpl. lia. }
  set (A' := take k (A ++ B)). set (B' := drop k (A ++ B)).
  assert (A ++ B = A' ++ B') as E by (symmetry; apply take_drop).
  assert (length A' = k) as Hk by (unfold A'; rewrite length_take; lia).
  assert (placed sh a P (A' ++ (a, n) :: B')) as Hpl by (by exists A, B, A', B', n).
  rewrite E. rewrite <- Hk. rewrite (vec_insert_fmap fst A' (a, n)), bind_Ok.
  rewrite (vec_insert_fmap snd A' (a, n)), bind_Ok. rewrite <- HP. case_bool_decide as D.
  - eexists _, (A' ++ (a, n) :: B'). split; [done|]. split; [|done].
    eapply at_changed; [exact Hc|]. rewrite HP. by constructor.
  - eexists _, (A' ++ (a, n) :: B'). split; [done|]. split; [|done].
    assert (A' ++ (a, n) :: B' = P) as ->.
    { apply same_names; [by apply placed_perm in Hpl|done|]. done. }
    by split_and!.
Qed.

Lemma move_columns_spec sh order P0 P c :
  at_columns P0 P c -> NoDup P.*1 -> NoDup P.*2 -> P.*1 ≡ₚ sh -> order ⊆ sh ->
  exists c' P', move_columns sh order c = Ok c' /\ at_columns P0 P' c' /\ P' ≡ₚ P /\
    (order = [] -> P' = P) /\ (forall a, order = [a] -> placed sh a P P').
Proof.
  revert P c. induction order as [|a order IH]; intros P c Hc H1 H2 Hp Hsub; cbn [move_columns].
  { exists c, P. by split_and!. }
  destruct (move_column_spec sh a P0 P c) as (c1 & P1 & -> & Hc1 & Hpl); try done.
  { rewrite Hp. apply Hsub, list_elem_of_here. }
  { apply Hsub, list_elem_of_here. }
  { apply Permutation_length in Hp. by rewrite length_fmap in Hp. }
  rewrite bind_Ok. pose proof (placed_perm _ _ _ _ Hpl) as Hpp.
  destruct (IH P1 c1 Hc1) as (c2 & P2 & -> & Hc2 & Hp2 & Hnil & _);
    [by rewrite Hpp|by rewrite Hpp|by rewrite Hpp|intros x Hx; by apply Hsub, list_elem_of_further|].
  exists c2, P2. split_and!; [done|done|by rewrite Hp2|done|].
  intros b [= -> ->]. by rewrite Hnil.
Qed.

Lemma without_insert_after y x l : without x (insert_after y x l) = without x l.
Proof.
  induction l as [|z l IH]; simpl.
  { unfold without. by rewrite filter_cons_False by tauto. }
  destruct (z =? y); unfold without in *.
  - rewrite !(filter_cons _ z), (filter_cons_False _ x) by tauto. done.
  - rewrite !(filter_cons _ z), IH. done.
Qed.

Lemma without_do_move dest l x : without x (do_move dest l x) = without x l.
Proof.
  assert (without x (without x l) = without x l) as Hi by (by apply list_filter_filter_l).
  unfold do_move. destruct (find_index x dest).
  - unfold without at 1. by rewrite filter_cons_False by tauto.
  - by rewrite without_insert_after.
Qed.

(** A single move that the plan allows is carried out right. *)
Lemma placed_solves sh a (P P' : named) :
  NoDup sh -> P.*1 ≡ₚ sh -> placed sh a P P' -> replay sh P.*1 [a] = sh -> P'.*1 = sh.
Proof.
  intros Hnd Hp (A & B & A' & B' & n & HP & E & -> & Hk) Hr. cbn in Hr.
  assert (a ∈ sh) as Ha.
  { rewrite <- Hp, HP, fmap_app. apply elem_of_app. right. apply list_elem_of_here. }
  destruct (find_index_in a sh Ha) as [Hlt Hl].
  assert (without a P.*1 = (A ++ B).*1) as HwP.
  { rewrite <- Hp, HP in Hnd. rewrite HP, !fmap_app in *. simpl in *.
    rewrite <- (erase_without a _ (length A)) by
      (done || by rewrite list_lookup_middle by (by rewrite length_fmap)).
    rewrite <- (length_fmap fst A), take_app_length.
    by rewrite drop_app_ge, Nat.sub_succ_l, Nat.sub_diag by lia. }
  pose proof (without_do_move sh P.*1 a) as Hw. rewrite Hr, HwP, E, fmap_app in Hw.
  rewrite <- (erase_without a sh (find_index a sh)) in Hw by done.
  apply app_inj_1 in Hw as [H1 H2]; [|rewrite length_take, length_fmap; lia].
  rewrite fmap_app, fmap_cons. simpl. rewrite <- H1, <- H2. by apply take_drop_middle.
Qed.

Lemma shuffle_columns_spec us P0 P c :
  at_columns P0 P c -> NoDup P.*1 -> NoDup P.*2 -> P.*1 ≡ₚ shuffled_cols us ->
  exists c' P' plan m', shuffle_columns us c = Ok c' /\ at_columns P0 P' c' /\ P' ≡ₚ P /\
    move P.*1 (shuffled_cols us) [] (Mover_ 0 false []) = Ok (true, plan, m') /\
    ((length plan <= 1)%nat -> P'.*1 = shuffled_cols us).
Proof.
  intros Hc H1 H2 Hp. pose proof Hc as (Hcols & _). unfold shuffle_columns.
  assert (NoDup (shuffled_cols us)) as Hnd by (by rewrite <- Hp).
  rewrite Hcols, check_true, bind_Ok by (apply Nat.eqb_eq; by rewrite Hp).
  destruct (move_found P.*1 (shuffled_cols us) (Mover_ 0 false []) Hnd Hp)
    as (plan & m' & Hm & Hr & _ & Hsub). rewrite Hm, bind_Ok.
  destruct (move_columns_spec (shuffled_cols us) plan P0 P c) as (c' & P' & -> & Hc' & Hp' & Hnil & Hone);
    try done.
  exists c', P', plan, m'. split_and!; try done. intros Hlen.
  destruct plan as [|a [|b plan]]; [|by eapply placed_solves; eauto|simpl in Hlen; lia].
  rewrite Hnil by done. exact Hr.
Qed.

(** *** Insertions *)

(** How many names are at least [k] long. *)
Definition at_least (k : nat) (l : list (list Z)) : nat :=
  length (filter (fun x => (k <= length x)%nat) l).

Lemma at_least_S k l : (at_least (S k) l <= at_least k l)%nat.
Proof.
  unfold at_least. induction l as [|y l IH]; [done|]. rewrite !filter_cons.
  repeat case_decide; simpl; lia.
Qed.

Lemma at_least_lt n l : n ∈ l -> (at_least (S (length n)) l < at_least (length n) l)%nat.
Proof.
  induction 1 as [n l|n y l _ IH]; pose proof (at_least_S (length n) l);
    unfold at_least in *; rewrite !filter_cons; repeat case_decide; simpl; lia.
Qed.

Lemma avoid_collision_spec fuel others n :
  (at_least (length n) others <= fuel)%nat ->
  exists n', avoid_collision fuel others n = Ok n' /\ n' ∉ others.
Proof.
  revert n. induction fuel as [|fuel IH]; intros n Hf; cbn [avoid_collision];
    (case_bool_decide as Hin; [|by exists n]); pose proof (at_least_lt n others Hin); [lia|].
  apply IH. rewrite length_app, Nat.add_1_r. lia.
Qed.

(** A unit of two sheets, the pivot being the local one. *)
Definition two_way (u : MatchUnit) : Prop :=
  pivotUnit u = localUnit u /\ -1 <= localUnit u /\
  (localUnit u = -1 -> deleted u = false /\ 0 <= remoteUnit u).

(** The number of a merged column: that of the local column, or one below zero
    for a new one. *)
Definition column_of (u : MatchUnit) : Z :=
  if localUnit u =? -1 then (- remoteUnit u) - 1 else localUnit u.
Definition merged_cols (us : list MatchUnit) : list Z := column_of <$> kept us.

Lemma shuffled_cons u us :
  shuffled_cols (u :: us) =
  if negb (localUnit u =? -1) && negb (deleted u) then localUnit u :: shuffled_cols us
  else shuffled_cols us.
Proof. unfold shuffled_cols. simpl. by destruct (negb _ && negb _). Qed.

Lemma merged_cons u us :
  merged_cols (u :: us) = if deleted u then merged_cols us else column_of u :: merged_cols us.
Proof.
  unfold merged_cols. destruct (deleted u) eqn:E.
  - by rewrite filter_cons_False by congruence.
  - by rewrite filter_cons_True.
Qed.

(** A new column goes in at [length pre]. *)
Lemma insert_new remote_name u P0 P c pre rest :
  at_columns P0 P c -> NoDup P.*2 -> two_way u -> localUnit u = -1 -> P.*1 ≡ₚ pre ++ rest ->
  column_of u ∉ P.*1 ->
  exists c' A B n, insert_column remote_name u (c, Zlen pre) = Ok (c', Zlen pre + 1) /\
    P = A ++ B /\ length A = length pre /\ (n ∉ P.*2) /\
    at_columns P0 (A ++ (column_of u, n) :: B) c'.
Proof.
  intros Hc H2 (Hpiv & _ & Hnew) Hl Hp Hfresh. destruct (Hnew Hl) as [Hd Hr].
  pose proof Hc as (Hcols & Hnames & _). unfold insert_column.
  rewrite Hpiv, Hl, Hd, (proj2 (Z.eqb_neq (remoteUnit u) (-1))) by lia. cbn [Z.eqb Pos.eqb negb andb].
  set (A := take (length pre) P). set (B := drop (length pre) P).
  assert (length pre <= length P)%nat as Hle.
  { apply Permutation_length in Hp. rewrite length_fmap, length_app in Hp. lia. }
  assert (P = A ++ B) as E by (symmetry; apply take_drop).
  assert (length A = length pre) as HA by (unfold A; rewrite length_take; lia).
  clearbody A B. subst P. rewrite Hcols, Hnames.
  destruct (avoid_collision_spec (length (A ++ B).*2) (A ++ B).*2
    (bracketed (remote_name (remoteUnit u)))) as (n & Hav & Hni); [apply length_filter|].
  assert ((- remoteUnit u) - 1 = column_of u) as Hcol by (unfold column_of; by rewrite Hl).
  rewrite Hcol, <- HA, (vec_insert_fmap fst A (column_of u, n)), bind_Ok, Hav, bind_Ok.
  rewrite (vec_insert_fmap snd A (column_of u, n)), bind_Ok, (rd_fmap fst), !bind_Ok.
  exists (changed c (A ++ (column_of u, n) :: B).*1
    (A ++ (column_of u, n) :: B).*2 (column_of u) (-1) ORDER_CHANGE_INSERT), A, B, n.
  split_and!; try done. eapply at_changed; [exact Hc|]. constructor; [lia|done|done].
Qed.

Lemma shuffled_nonneg us : Forall two_way us -> Forall (fun x => 0 <= x) (shuffled_cols us).
Proof.
  induction 1 as [|u us (_ & Hl & _) _ IH]; [constructor|]. rewrite shuffled_cons.
  destruct (Z.eqb_spec (localUnit u) (-1)); [done|]. destruct (deleted u); [done|].
  constructor; [lia|done].
Qed.

Lemma insert_columns_spec remote_name us P0 P c pre :
  at_columns P0 P c -> NoDup P.*2 -> Forall two_way us -> P.*1 ≡ₚ pre ++ shuffled_cols us ->
  NoDup (pre ++ merged_cols us) ->
  exists c' P' k, insert_columns remote_name us (c, Zlen pre) = Ok (c', k) /\ at_columns P0 P' c' /\
    NoDup P'.*2 /\ P'.*1 ≡ₚ pre ++ merged_cols us /\
    (P.*1 = pre ++ shuffled_cols us -> P'.*1 = pre ++ merged_cols us) /\
    (forall p, p ∈ P' -> p ∈ P \/ p.1 < 0).
Proof.
  intros Hc H2 Hus. revert P c pre Hc H2. induction Hus as [|u us Hu Hus IH]; intros P c pre Hc H2 Hp Hnd;
    cbn [insert_columns]; [exists c, P, (Zlen pre); split_and!; auto|].
  rewrite shuffled_cons in *. rewrite merged_cons in *.
  destruct (Z.eqb_spec (localUnit u) (-1)) as [Hl|Hl]; cbn [negb andb] in *.
  - pose proof Hu as (_ & _ & Hnew). destruct (Hnew Hl) as [Hd Hr]. rewrite Hd in *.
    assert (column_of u ∉ P.*1) as Hfresh.
    { rewrite Hp. intros [Hin|Hin]%elem_of_app.
      - apply list.NoDup_app in Hnd as (_ & Hx & _). apply (Hx _ Hin), list_elem_of_here.
      - pose proof (shuffled_nonneg us Hus) as Hge. rewrite Forall_forall in Hge.
        apply list_elem_of_In, Hge in Hin. unfold column_of in Hin. rewrite Hl in Hin. simpl in Hin. lia. }
    destruct (insert_new remote_name u P0 P c pre _ Hc H2 Hu Hl Hp Hfresh) as
      (c1 & A & B & n & -> & -> & HA & Hni & Hc1). rewrite bind_Ok.
    assert (Zlen pre + 1 = Zlen (pre ++ [column_of u])) as -> by (rewrite length_app; simpl; lia).
    destruct (IH (A ++ (column_of u, n) :: B) c1 (pre ++ [column_of u]) Hc1) as
      (c2 & P2 & k & -> & Hc2 & H22 & Hp2 & Hex & Hin).
    + rewrite fmap_app in *. simpl. rewrite <- Permutation_middle. by apply list.NoDup_cons.
    + rewrite fmap_app in *. simpl. rewrite <- Permutation_middle, Hp, <- app_assoc. simpl.
      by rewrite Permutation_middle.
    + by rewrite <- app_assoc.
    + exists c2, P2, k. rewrite <- app_assoc in Hp2. split_and!; try done.
      * intros E. rewrite Hex; [by rewrite <- app_assoc|]. rewrite fmap_app, fmap_cons in *.
        rewrite <- app_assoc. apply app_inj_1 in E as [-> ->]; [done|by rewrite length_fmap].
      * intros p Hpin. destruct (Hin p Hpin) as [[|[->|]%elem_of_cons]%elem_of_app|]; auto.
        -- left. apply elem_of_app. auto.
        -- right. unfold column_of. rewrite (proj2 (Z.eqb_eq _ _) Hl). simpl. lia.
        -- left. apply elem_of_app. auto.
  - pose proof Hu as (Hpiv & _ & _).
    assert (insert_column remote_name u (c, Zlen pre) =
      Ok (c, if negb (deleted u) then Zlen pre + 1 else Zlen pre)) as ->.
    { unfold insert_column. rewrite Hpiv, (proj2 (Z.eqb_neq _ _) Hl). done. }
    rewrite bind_Ok. destruct (deleted u) eqn:Hd; cbn [negb] in *; [by apply IH|].
    assert (column_of u = localUnit u) as Ecol
      by (unfold column_of; by rewrite (proj2 (Z.eqb_neq _ _) Hl)). rewrite Ecol in *.
    assert (Zlen pre + 1 = Zlen (pre ++ [localUnit u])) as -> by (rewrite length_app; simpl; lia).
    destruct (IH P c (pre ++ [localUnit u]) Hc H2) as (c2 & P2 & k & -> & Hc2 & H22 & Hp2 & Hex & Hin);
      [by rewrite <- app_assoc|by rewrite <- app_assoc|].
    exists c2, P2, k. rewrite <- app_assoc in Hp2. split_and!; try done.
    intros E. rewrite Hex; by rewrite <- app_assoc.
Qed.

(** *** Renames *)

Lemma find_name_in n (l : list (list Z)) :
  (find_name n l < length l)%nat \/ find_name n l = length l.
Proof. induction l as [|y l IH]; simpl; [auto|]. case_bool_decide; [left; lia|]. lia. Qed.

Lemma rename_columns_spec local_name remote_name us P0 P c :
  at_columns P0 P c ->
  exists c' P', rename_columns local_name remote_name us c = Ok c' /\ at_columns P0 P' c' /\
    P'.*1 = P.*1.
Proof.
  revert P c. induction us as [|u us IH]; intros P c Hc; cbn [rename_columns]; [by exists c, P|].
  assert (exists c1 P1, rename_column local_name remote_name u c = Ok c1 /\ at_columns P0 P1 c1 /\
    P1.*1 = P.*1) as (c1 & P1 & -> & Hc1 & E1).
  { unfold rename_column. destruct (_ && _); [|by exists c, P]. case_bool_decide; [|by exists c, P].
    pose proof Hc as (Hcols & Hnames & _). rewrite Hcols, Hnames.
    set (k := find_name (local_name (pivotUnit u)) P.*2).
    destruct (find_name_in (local_name (pivotUnit u)) P.*2) as [Hlt|Heq].
    2: { exists c, P. unfold k. by rewrite (proj2 (Nat.eqb_eq _ _) Heq). }
    fold k in Hlt. rewrite (proj2 (Nat.eqb_neq _ _)) by lia. pose proof Hlt as Hlt'.
    rewrite length_fmap in Hlt'. destruct (lookup_lt_is_Some_2 P k Hlt') as [[x n] Hx].
    assert (P = take k P ++ (x, n) :: drop (S k) P) as E by (symmetry; by apply take_drop_middle).
    assert (length (take k P) = k) as Hk by (rewrite length_take; lia).
    set (A := take k P) in *. set (B := drop (S k) P) in *. clearbody A B.
    set (r := remote_name (remoteUnit u)).
    assert (<[k := r]> P.*2 = (A ++ (x, r) :: B).*2) as Hins.
    { rewrite E, !fmap_app, !fmap_cons, <- Hk, <- (length_fmap snd A). by rewrite insert_app_r_alt, Nat.sub_diag by done. }
    rewrite wr_ok, bind_Ok, Nat2Z.id, Hins by lia.
    rewrite (rd_ok _ _ x), bind_Ok by (lia || by rewrite Nat2Z.id, list_lookup_fmap, Hx).
    assert (P.*1 = (A ++ (x, r) :: B).*1) as Hfst by (by rewrite E, !fmap_app, !fmap_cons).
    eexists _, (A ++ (x, r) :: B). split; [done|]. split; [|done]. rewrite Hfst.
    apply (at_changed P0 P); [done|]. rewrite E. constructor. }
  rewrite bind_Ok. destruct (IH P1 c1 Hc1) as (c2 & P2 & -> & Hc2 & E2). exists c2, P2.
  split_and!; [done|done|congruence].
Qed.

(** *** All passes *)

(** The local columns that are not deleted, in the local order. *)
Definition kept_cols (us : list MatchUnit) (w : Z) : list Z :=
  filter (fun x => x ∉ deleted_cols us) (seqZ 0 w).

Lemma deleted_shuffled us : Forall two_way us -> deleted_cols us ++ shuffled_cols us ≡ₚ locals us.
Proof.
  induction 1 as [|u us (Hp & Hl & Hn) _ IH]; [done|]. rewrite shuffled_cons.
  change (deleted_cols (u :: us)) with (match
    (if negb (pivotUnit u =? -1) && deleted u then Some (pivotUnit u) else None)
    with Some x => x :: deleted_cols us | None => deleted_cols us end).
  assert (locals (u :: us) = if localUnit u =? -1 then locals us else localUnit u :: locals us) as ->.
  { unfold locals. rewrite fmap_cons. destruct (Z.eqb_spec (localUnit u) (-1)) as [E|E].
    - by rewrite filter_cons_False by lia.
    - by rewrite filter_cons_True by lia. }
  rewrite Hp. destruct (localUnit u =? -1), (deleted u); simpl; try done.
  - by rewrite IH.
  - rewrite <- Permutation_middle. by rewrite IH.
Qed.

Lemma fst_filter (P : named) (l : list Z) :
  (filter (fun p => p.1 ∉ l) P).*1 = filter (fun x => x ∉ l) P.*1.
Proof.
  induction P as [|[x n] P IH]; [done|]. rewrite fmap_cons, !filter_cons. simpl.
  case_decide; [|done]. simpl. by f_equal.
Qed.

Lemma kept_shuffled us w :
  Forall two_way us -> locals us ≡ₚ seqZ 0 w -> kept_cols us w ≡ₚ shuffled_cols us.
Proof.
  intros Hus Hl. pose proof (deleted_shuffled us Hus) as Hp. rewrite Hl in Hp.
  assert (NoDup (deleted_cols us ++ shuffled_cols us)) as (_ & Hd & Hs)%list.NoDup_app
    by (rewrite Hp; apply NoDup_seqZ).
  apply NoDup_Permutation; [apply list.NoDup_filter, NoDup_seqZ|done|]. intros x. unfold kept_cols.
  rewrite list_elem_of_filter, <- Hp, elem_of_app. split; [tauto|]. intros Hx. split; [|auto].
  intros Hdel. by apply (Hd x).
Qed.

(** The passes that delete, move and insert, before any renaming. *)
Lemma column_passes flags local_name remote_name indexes us w :
  Forall two_way us -> locals us ≡ₚ seqZ 0 w -> NoDup (local_name <$> seqZ 0 w) ->
  NoDup (merged_cols us) ->
  exists c ci gone P plan m',
    column_changes flags local_name remote_name indexes us
      (Columns (seqZ 0 w) (local_name <$> seqZ 0 w) []) =
      (c ← (if assume_header flags then rename_columns local_name remote_name us c else Ok c);
       Ok (c, ci, gone)) /\
    at_columns ((fun i => (i, local_name i)) <$> seqZ 0 w) P c /\ NoDup P.*2 /\
    P.*1 ≡ₚ merged_cols us /\
    move (kept_cols us w) (shuffled_cols us) [] (Mover_ 0 false []) = Ok (true, plan, m') /\
    ((length plan <= 1)%nat -> P.*1 = merged_cols us) /\
    (forall x n, (x, n) ∈ P -> 0 <= x -> n = local_name x).
Proof.
  intros Hus Hl Hnd Hndm. set (P0 := (fun i => (i, local_name i)) <$> seqZ 0 w).
  assert (P0.*1 = seqZ 0 w) as E1 by (unfold P0; rewrite <- list_fmap_compose; apply list_fmap_id).
  assert (P0.*2 = local_name <$> seqZ 0 w) as E2 by (unfold P0; by rewrite <- list_fmap_compose).
  assert (at_columns P0 P0 (Columns (seqZ 0 w) (local_name <$> seqZ 0 w) [])) as H0.
  { split_and!; [done|done|constructor]. }
  pose proof (deleted_shuffled us Hus) as Hp. rewrite Hl in Hp.
  assert (NoDup (deleted_cols us)) as Hdn.
  { assert (NoDup (deleted_cols us ++ shuffled_cols us)) as [? _]%list.NoDup_app; [|done].
    rewrite Hp. apply NoDup_seqZ. }
  unfold column_changes. destruct (delete_columns_spec indexes us P0 P0 _ true false H0)
    as (c1 & ci & gone & -> & H1); [rewrite E1; apply NoDup_seqZ|done| |].
  { intros x Hx. rewrite E1, <- Hp. apply elem_of_app. by left. }
  rewrite bind_Ok. set (P1 := filter (fun p => p.1 ∉ deleted_cols us) P0) in *.
  assert (P1.*1 = kept_cols us w) as K1
    by (unfold P1, kept_cols; rewrite <- E1; apply fst_filter).
  assert (NoDup P1.*2) as Hn1.
  { rewrite <- E2 in Hnd. eapply sublist_NoDup; [exact Hnd|]. apply fmap_sublist, sublist_filter. }
  destruct (shuffle_columns_spec us P0 P1 c1 H1) as (c2 & P2 & plan & m' & -> & H2 & Hp2 & Hm & Hex);
    [rewrite K1; apply list.NoDup_filter, NoDup_seqZ|done|rewrite K1; by apply kept_shuffled|].
  rewrite bind_Ok. rewrite K1 in Hm.
  destruct (insert_columns_spec remote_name us P0 P2 c2 []) as
    (c3 & P3 & k & Hi3 & H3 & Hn3 & Hp3 & Hex3 & Hin); [done|by rewrite Hp2|done| |done|].
  { rewrite Hp2, K1. by apply kept_shuffled. }
  change (Zlen []) with 0 in Hi3. rewrite Hi3, bind_Ok. exists c3, ci, gone, P3, plan, m'. split_and!; try done.
  - intros Hlen. by apply Hex3, Hex.
  - intros x n Hx H0x. destruct (Hin _ Hx) as [Hx2|Hx2]; [|simpl in Hx2; lia].
    rewrite Hp2 in Hx2. apply list_elem_of_filter in Hx2 as [_ (y & [= -> ->] & _)%list_elem_of_fmap].
    done.
Qed.

(** ** Rows *)

(** The map from names to cells that one of the loops builds. *)
Definition add_cell (f : MatchUnit -> option pcell) (a : txt2cell) (un : MatchUnit * list Z) :
    txt2cell :=
  match f un.1 with Some v => <[un.2 := v]> a | None => a end.

Lemma add_cells_other f cs ns a n : n ∉ ns -> foldl (add_cell f) a (zip cs ns) !! n = a !! n.
Proof.
  revert cs a. induction ns as [|x ns IH]; intros [|u cs] a Hn; try done. cbn [zip zip_with foldl].
  apply not_elem_of_cons in Hn as [Hx Hn]. rewrite IH by done. unfold add_cell. cbn [fst snd].
  destruct (f u); [by rewrite lookup_insert_ne|done].
Qed.

Lemma add_cells_at f cs ns a i u n :
  NoDup ns -> cs !! i = Some u -> ns !! i = Some n -> a !! n = None ->
  foldl (add_cell f) a (zip cs ns) !! n = f u.
Proof.
  intros Hnd. revert cs a i. induction Hnd as [|x ns Hx Hnd IH]; intros [|y cs] a [|i] Hu Hn Ha;
    try done; cbn [zip zip_with foldl].
  - simplify_eq/=. rewrite add_cells_other by done. unfold add_cell. cbn [fst snd].
    destruct (f u); [by rewrite lookup_insert_eq|done].
  - apply (IH _ _ i); [done|done|]. unfold add_cell. cbn [fst snd].
    destruct (f y); [|done]. rewrite lookup_insert_ne; [done|]. intros ->.
    by apply Hx, (list_elem_of_lookup_2 _ i).
Qed.

(** The end of [mergeRow] for a row that both sheets have: context rows, and then
    the change if it has a value, or at most a move. *)
Lemma emit_kept flags h m u cd a rc :
  0 <= localUnit u -> 0 <= remoteUnit u -> deleted u = false -> canUpdate flags = true ->
  exists md ctx tail m', emit_changes flags h m u cd a rc = (rc ++ ctx ++ tail, m') /\
    lastRowChange m' = RowChange_ md cd (value a) (conflicted_value a) (conflicted_parent_value a)
      (names m) (conflict a) (pivotUnit u) (localUnit u) (remoteUnit u) /\
    Forall (fun c => mode c = ROW_CHANGE_CONTEXT) ctx /\
    if bool_decide (value a = ∅)
    then tail = [] \/ tail = [set_mode (lastRowChange m') ROW_CHANGE_MOVE]
    else tail = [lastRowChange m'] /\ (md = ROW_CHANGE_UPDATE \/ md = ROW_CHANGE_MOVE).
Proof.
  intros Hl Hr Hd Hc. unfold emit_changes. cbn beta zeta.
  set (m1 := if negb (last_local_row m =? -1) then _ else m).
  assert (names m1 = names m) as Hn by (unfold m1; by destruct (negb _)).
  set (ch := RowChange_ _ _ _ _ _ _ _ _ _ _).
  assert (exists ctx, Forall (fun c => mode c = ROW_CHANGE_CONTEXT) ctx /\
    exists b k, move_part flags h m1 ch (had_row m) (deleted u) rc = (rc ++ ctx, b, k)) as
    (ctx & Hctx & b & k & ->).
  { unfold move_part. destruct (_ && _); [|exists []; rewrite app_nil_r; eauto].
    destruct (_ && negb _); [|exists []; rewrite app_nil_r; eauto].
    unfold send_context. destruct (_ && (h >? 0)); [|exists []; rewrite app_nil_r; eauto].
    exists [set_mode (lastRowChange m1) ROW_CHANGE_CONTEXT]. split; [by repeat constructor|eauto]. }
  unfold change_part. cbn [lRow rRow val ch]. rewrite Hc.
  rewrite !(proj2 (Z.eqb_neq _ (-1))) by lia.
  destruct (bool_decide_reflect (value a = ∅)) as [E|E]; cbn [negb andb].
  - exists ROW_CHANGE_NONE, ctx, (if b then [set_mode ch ROW_CHANGE_MOVE] else []).
    destruct b; rewrite ?app_nil_r, <- ?app_assoc; eexists; (split; [reflexivity|]); auto.
  - rewrite <- app_assoc. eexists (if b then ROW_CHANGE_MOVE else ROW_CHANGE_UPDATE), ctx, _, _.
    split; [reflexivity|]. split; [reflexivity|]. split; [done|]. split; [reflexivity|].
    destruct b; auto.
Qed.

Section Row.
Context (flags : CompareFlags) (lc rcell : Z -> Z -> pcell) (local remote : Z -> Z -> result pcell).
Context (us : list MatchUnit) (l r : Z).

(** A null carries the text that marks it. *)
Definition cell_wf (c : pcell) : Prop := c.2 = true -> c.1 = cstr "NULL".

Context (Hcase : ignore_case flags = false) (Hfixed : fixed_columns flags = false).
Context (Hl : 0 <= l) (Hr : 0 <= r).
Context (Hlwf : forall x, cell_wf (lc x l)) (Hrwf : forall x, cell_wf (rcell x r)).

Lemma wf_not_blank c : cell_wf c -> c <> blankCell.
Proof. intros H ->. specialize (H eq_refl). vm_compute in H. done. Qed.

Lemma compare_ok a b :
  cell_wf a \/ a = blankCell -> cell_wf b \/ b = blankCell ->
  compare_string a b flags = Ok (bool_decide (a = b)).
Proof using Hcase.
  assert (forall c : pcell, cell_wf c \/ c = blankCell -> c.2 = true -> null_text c.1 = true) as Hn.
  { intros c [H| ->] E; [|done]. by rewrite (H E). }
  intros Ha Hb. unfold compare_string. rewrite check_true, bind_Ok, Hcase; [done|].
  destruct a as [ta [|]], b as [tb [|]]; try done.
  apply Hn in Ha, Hb; [|done|done]. simpl in *. by rewrite Ha, Hb.
Qed.

(** The value a kept column gets, if it is news. *)
Definition news_of (u : MatchUnit) : option pcell :=
  let new := rcell (remoteUnit u) r in
  if localUnit u =? -1 then (if new.2 then None else Some new)
  else if bool_decide (lc (localUnit u) l = new) then None else Some new.

Definition xcell_of (u : MatchUnit) : xcell :=
  XCell (deleted u) (negb (localUnit u =? -1))
    (if localUnit u >=? 0 then lc (localUnit u) l else blankCell)
    (if remoteUnit u >=? 0 then rcell (remoteUnit u) r else blankCell)
    (if localUnit u >=? 0 then lc (localUnit u) l else blankCell).

(** In a comparison of two sheets a column that is kept is in the remote sheet. *)
Definition col_ok (u : MatchUnit) : Prop := two_way u /\ (deleted u = false -> 0 <= remoteUnit u).

Lemma merge_xcell_of u :
  col_ok u -> exists v b, merge_cell flags (x_local (xcell_of u)) (x_remote (xcell_of u))
      (x_pivot (xcell_of u)) = Ok (v, b, false) /\
    (deleted u = false -> news_of u = if b : bool then Some v else None).
Proof using Hcase Hlwf Hrwf.
  intros [(_ & Hlow & Hnew) Hrem]. unfold merge_cell, news_of. cbn [x_local x_remote x_pivot xcell_of].
  rewrite !Z.geb_leb. set (rem := if 0 <=? remoteUnit u then rcell (remoteUnit u) r else blankCell).
  assert (cell_wf rem \/ rem = blankCell) as Hremwf
    by (unfold rem; destruct (0 <=? remoteUnit u); auto).
  assert (deleted u = false -> rem = rcell (remoteUnit u) r /\ cell_wf rem) as Hkept.
  { intros E. unfold rem. rewrite (proj2 (Z.leb_le _ _)) by (by apply Hrem). auto. }
  destruct (Z.eqb_spec (localUnit u) (-1)) as [E|E].
  - rewrite (proj2 (Z.leb_gt 0 _)) by lia. destruct (Hnew E) as [Hd _].
    destruct (Hkept Hd) as [<- Hwf]. rewrite compare_ok, bind_Ok by auto.
    rewrite bool_decide_false by (intros Heq; by apply (wf_not_blank rem)).
    rewrite bool_decide_true by done. destruct rem as [tr [|]]; simpl; eauto.
  - rewrite (proj2 (Z.leb_le 0 _)) by lia. set (lo := lc (localUnit u) l).
    assert (cell_wf lo) as Hlo by apply Hlwf. rewrite !compare_ok, bind_Ok by auto.
    destruct (bool_decide (lo = rem)) eqn:Eq.
    { exists lo, false. split; [done|]. intros Hd. destruct (Hkept Hd) as [<- _].
      apply bool_decide_eq_true in Eq. by rewrite bool_decide_true. }
    rewrite (bool_decide_false (lo = blankCell)) by (by apply wf_not_blank).
    destruct (bool_decide (rem = blankCell)) eqn:Er; cbn [negb].
    { exists lo, false. split; [done|]. intros Hd. destruct (Hkept Hd) as [_ Hwf].
      apply bool_decide_eq_true in Er. by apply wf_not_blank in Hwf. }
    rewrite (bool_decide_true (lo = lo)), !bind_Ok by done. exists rem, true. split; [done|].
    intros Hd. destruct (Hkept Hd) as [<- _]. by rewrite Eq.
Qed.

(** The cells of the column that are looked at are there. *)
Definition readable (u : MatchUnit) : Prop :=
  (0 <= localUnit u -> local (localUnit u) l = Ok (lc (localUnit u) l)) /\
  (0 <= remoteUnit u -> remote (remoteUnit u) r = Ok (rcell (remoteUnit u) r)).

(** The maps the two loops build, for kept columns with names. *)
Definition cond_of (u : MatchUnit) : option pcell :=
  if localUnit u >=? 0 then Some (lc (localUnit u) l) else None.
Definition add_news : txt2cell -> MatchUnit * list Z -> txt2cell := add_cell news_of.
Definition add_cond : txt2cell -> MatchUnit * list Z -> txt2cell := add_cell cond_of.

Lemma news_of_patch u :
  col_ok u ->
  cond_of u = (if localUnit u =? -1 then None else Some (lc (localUnit u) l)) /\
  default (default (cstr "NULL", true) (cond_of u)) (news_of u) = rcell (remoteUnit u) r /\
  (news_of u <> None -> news_of u <> cond_of u).
Proof using Hrwf.
  intros [(_ & Hlow & _) _]. unfold cond_of, news_of. rewrite Z.geb_leb.
  destruct (Z.eqb_spec (localUnit u) (-1)) as [E|E].
  - rewrite (proj2 (Z.leb_gt 0 _)) by lia. pose proof (Hrwf (remoteUnit u)) as Hwf.
    destruct (rcell (remoteUnit u) r) as [t [|]]; [|done]. by rewrite (Hwf eq_refl : t = _).
  - rewrite (proj2 (Z.leb_le 0 _)) by lia. case_bool_decide as Eq; [done|].
    split; [done|]. split; [done|]. intros _ [= Heq]. by apply Eq.
Qed.

Section Names.
Context (m : merger) (Hfilter : filtered_names m = []) (Hexcl : exclude_column m = []).

Lemma expand_spec cs pre ns cd :
  Forall col_ok cs -> Forall readable cs -> names m = pre ++ ns -> length ns = length (kept cs) ->
  expand true local local remote m l l r cs (length pre) cd =
  Ok (xcell_of <$> cs, foldl add_cond cd (zip (kept cs) ns)).
Proof using Hl Hr Hexcl.
  intros Hcs. revert pre ns cd. induction Hcs as [|u cs [(Hp & Hlow & _) _] _ IH];
    intros pre ns cd Hrd Hn Hlen; [done|]. cbn [expand].
  apply Forall_cons_iff in Hrd as [[Hrl Hrr] Hrd].
  assert (cell_or_blank local (localUnit u) l =
    Ok (if localUnit u >=? 0 then lc (localUnit u) l else blankCell)) as Hcl.
  { unfold cell_or_blank. rewrite (Z.geb_leb l), (proj2 (Z.leb_le 0 l)), Z.geb_leb by done.
    simpl. destruct (Z.leb_spec 0 (localUnit u)); auto. }
  assert (cell_or_blank remote (remoteUnit u) r =
    Ok (if remoteUnit u >=? 0 then rcell (remoteUnit u) r else blankCell)) as Hcr.
  { unfold cell_or_blank. rewrite (Z.geb_leb r), (proj2 (Z.leb_le 0 r)), Z.geb_leb by done.
    simpl. destruct (Z.leb_spec 0 (remoteUnit u)); auto. }
  cbn [orb]. rewrite Hp, !Hcl, Hcr, !bind_Ok. fold (xcell_of u).
  rewrite (Z.geb_leb l), (proj2 (Z.leb_le 0 l)) by done. cbn [andb].
  destruct (deleted u) eqn:Ed.
  - rewrite andb_false_r, bind_Ok. rewrite filter_cons_False in * by congruence.
    rewrite (IH pre ns) by done. by rewrite bind_Ok, fmap_cons.
  - rewrite filter_cons_True in * by done. destruct ns as [|n ns]; [done|].
    rewrite Hn, list_lookup_middle, Hexcl by done. cbn [default negb].
    rewrite bool_decide_false by apply not_elem_of_nil. cbn [negb andb id].
    assert ((if (localUnit u >=? 0) && true then c ← local (localUnit u) l; Ok (<[n := c]> cd)
             else Ok cd) = Ok (add_cond cd (u, n))) as ->.
    { unfold add_cond, add_cell, cond_of. rewrite andb_true_r. cbn [fst snd]. rewrite Z.geb_leb.
      destruct (Z.leb_spec 0 (localUnit u)); [by rewrite Hrl by done|done]. }
    rewrite bind_Ok. specialize (IH (pre ++ [n]) ns (add_cond cd (u, n))).
    rewrite length_app, Nat.add_1_r, <- app_assoc in IH. rewrite IH, bind_Ok by (done || by simplify_eq/=).
    done.
Qed.

Lemma merge_xcells_spec cs pre ns a :
  Forall col_ok cs -> names m = pre ++ ns -> length ns = length (kept cs) ->
  exists a', merge_xcells flags true m (xcell_of <$> cs) (length pre) a = Ok a' /\
    value a' = foldl add_news (value a) (zip (kept cs) ns) /\ conflict a' = conflict a.
Proof using Hcase Hfixed Hlwf Hrwf Hexcl Hfilter.
  intros Hcs. revert pre ns a. induction Hcs as [|u cs Hu _ IH]; intros pre ns a Hn Hlen;
    [by exists a|]. rewrite fmap_cons. cbn [merge_xcells].
  destruct (merge_xcell_of u Hu) as (v & b & Hm & Hnews).
  unfold merge_xcell. rewrite Hfixed, Hfilter, (bool_decide_true ([] = [])), andb_false_r by done.
  cbn [andb negb]. rewrite bind_Ok, Hm, bind_Ok, orb_false_r.
  change (x_deleted (xcell_of u)) with (deleted u). destruct (deleted u) eqn:Ed.
  - rewrite filter_cons_False in * by congruence. cbn [andb negb]. rewrite bind_Ok.
    destruct (IH pre ns (News (value a) (conflicted_value a) (conflicted_parent_value a) (conflict a))
      Hn Hlen) as (a' & -> & Hv & Hc). by exists a'.
  - rewrite filter_cons_True in * by done. destruct ns as [|n ns]; [done|]. cbn [andb negb].
    rewrite Hn, list_lookup_middle, Hexcl, (bool_decide_false (_ ∈ [])) by (done || apply not_elem_of_nil).
    cbn [default negb]. rewrite andb_true_r, bind_Ok.
    specialize (IH (pre ++ [n]) ns). rewrite length_app, Nat.add_1_r, <- app_assoc in IH.
    edestruct IH as (a' & -> & Hv & Hc); [done|by simplify_eq/=|]. exists a'. split; [done|].
    rewrite Hv, Hc. change (zip (u :: kept cs) (n :: ns)) with ((u, n) :: zip (kept cs) ns).
    cbn [foldl].
    assert (add_news (value a) (u, n) = if b : bool then <[n := v]> (value a) else value a) as ->
      by (unfold add_news, add_cell; cbn [fst snd]; rewrite (Hnews eq_refl); by destruct b).
    by destruct b.
Qed.
End Names.
End Row.

(** ** Claims *)

(** C16. The column changes of a comparison of two sheets: for units in which
    every local column occurs once and no remote one twice, with distinct names, the passes end
    without an error, and the changes they send form a chain of single edits
    (deletion, move, insertion, renaming of one column with its name) from the
    local columns to the final ones.  The final columns are those of the kept
    units; they are in the order of the units if the plan of moves has at most one
    move; and as long as nothing is renamed the names stay distinct and every
    local column keeps its own. *)
Theorem column_changes_spec (flags : CompareFlags) (local_name remote_name : Z -> list Z)
    (indexes : gmap (list Z) bool) (us : list MatchUnit) (w : Z) :
  Forall two_way us -> locals us ≡ₚ seqZ 0 w -> NoDup (local_name <$> seqZ 0 w) ->
  NoDup (merged_cols us) ->
  exists c ci gone P plan m',
    column_changes flags local_name remote_name indexes us
      (Columns (seqZ 0 w) (local_name <$> seqZ 0 w) []) = Ok (c, ci, gone) /\
    cols c = P.*1 /\ col_names c = P.*2 /\
    col_chain (cc c) ((fun i => (i, local_name i)) <$> seqZ 0 w) P /\ cols c ≡ₚ merged_cols us /\
    move (kept_cols us w) (shuffled_cols us) [] (Mover_ 0 false []) = Ok (true, plan, m') /\
    ((length plan <= 1)%nat -> cols c = merged_cols us) /\
    (assume_header flags = false ->
     NoDup (col_names c) /\ forall x n, (x, n) ∈ P -> 0 <= x -> n = local_name x).
Proof.
  intros Hus Hl Hnd Hndm.
  destruct (column_passes flags local_name remote_name indexes us w Hus Hl Hnd Hndm)
    as (c & ci & gone & P & plan & m' & -> & Hc & Hn & Hp & Hm & Hex & Hown).
  destruct (assume_header flags) eqn:Eh.
  - destruct (rename_columns_spec local_name remote_name us _ _ _ Hc) as (c' & P' & -> & Hc' & E).
    rewrite bind_Ok. destruct Hc' as (Hcols & Hnames & Hch). exists c', ci, gone, P', plan, m'.
    rewrite Hcols, E. by split_and!.
  - rewrite bind_Ok. destruct Hc as (Hcols & Hnames & Hch). exists c, ci, gone, P, plan, m'.
    rewrite Hcols, Hnames. by split_and!.
Qed.

Definition sample_flags : CompareFlags :=
  CompareFlags_ (OrderFlags false false true) false false false [] [] [] [].
(** Three local columns: the first is deleted, the third comes before the second,
    and a remote column is new. *)
Definition sample_units : list MatchUnit :=
  [MatchUnit_ 2 2 0 false MATCH_UNIT_PRESERVE; MatchUnit_ (-1) (-1) 1 false MATCH_UNIT_INSERT;
   MatchUnit_ 1 1 2 false MATCH_UNIT_PRESERVE; MatchUnit_ 0 0 (-1) true MATCH_UNIT_DELETE].
Definition letter (i : Z) : list Z := [97 + i].

Lemma column_changes_spec_witness :
  exists c ci gone, column_changes sample_flags letter letter ∅ sample_units
      (Columns [0; 1; 2] [[97]; [98]; [99]] []) = Ok (c, ci, gone) /\
    cols c = [2; -2; 1] /\ NoDup (col_names c).
Proof.
  destruct (column_changes_spec sample_flags letter letter ∅ sample_units 3)
    as (c & ci & gone & P & plan & m' & Hc & _ & _ & _ & _ & Hm & Hex & Hn).
  - repeat (constructor; [split_and!; simpl; [done|lia|intros; split; done || lia]|]). constructor.
  - apply (bool_decide_unpack _). vm_compute. done.
  - apply (bool_decide_unpack _). vm_compute. done.
  - apply (bool_decide_unpack _). vm_compute. done.
  - exists c, ci, gone. split; [exact Hc|]. split; [|by apply Hn].
    apply Hex. revert Hm. vm_compute. intros [= <- _]. simpl. lia.
Defined.


(** Row 1 of the local sheet is row 0 of the remote one, for the columns above. *)
Definition sample_cell (x y : Z) : pcell := ([65 + x], false).
Definition sample_merger : merger :=
  Merger_ 0 [cstr "c"; cstr "new"; cstr "b"] [] [] [] (-1) (-1) (-1) no_change false false false.
Definition sample_row : MatchUnit := MatchUnit_ 1 1 0 false MATCH_UNIT_PRESERVE.


(** *** Examples *)

(** The remote sheet has the columns [1 3 2 0].  The plan is to move 3 and then 0;
    the merger puts 3 at its final place first, where the second move shifts it:
    the columns end up as [3 1 2 0], each with the name of another one in the row
    changes. *)
Definition reordered_units : list MatchUnit :=
  [MatchUnit_ 1 1 0 false MATCH_UNIT_PRESERVE; MatchUnit_ 3 3 1 false MATCH_UNIT_PRESERVE;
   MatchUnit_ 2 2 2 false MATCH_UNIT_PRESERVE; MatchUnit_ 0 0 3 false MATCH_UNIT_PRESERVE].

Lemma moves_misplace_columns :
  merge (C:=Z) [] (OrderResult_ (of_column [0; 1; 2; 3] 0) (of_column [0; 1; 2; 3] 0))
    (OrderResult_ (of_column [3; 0; 2; 1] 0) (of_column [1; 3; 2; 0] 0))
    (OrderFlags false false true) true = Ok (reordered_units, 4) /\
  merged_cols reordered_units = [1; 3; 2; 0] /\
  exists c ci gone, column_changes sample_flags letter letter ∅ reordered_units
      (Columns [0; 1; 2; 3] (letter <$> [0; 1; 2; 3]) []) = Ok (c, ci, gone) /\
    cols c = [3; 1; 2; 0].
Proof.
  split; [vm_compute; reflexivity|]. split; [vm_compute; reflexivity|].
  do 3 eexists. split; [vm_compute; reflexivity|reflexivity].
Qed.

(** A pivot with two columns that the local sheet has swapped; the remote one drops
    the first.  The deletion is looked up under the pivot's number, so the wrong
    column goes, and the mover is given orders of different columns. *)
Lemma pivot_column_deleted :
  merge (C:=Z) [] (OrderResult_ (of_column [1; 0] 0) (of_column [1; 0] 0))
    (OrderResult_ (of_column [-1; 0] 0) (of_column [1] 0)) (OrderFlags false false true) true =
    Ok ([MatchUnit_ 1 0 0 false MATCH_UNIT_PRESERVE; MatchUnit_ 0 1 (-1) true MATCH_UNIT_DELETE], 1) /\
  column_changes sample_flags letter letter ∅
    [MatchUnit_ 1 0 0 false MATCH_UNIT_PRESERVE; MatchUnit_ 0 1 (-1) true MATCH_UNIT_DELETE]
    (Columns [0; 1] (letter <$> [0; 1]) []) = Fault OutOfBounds.
Proof. split; vm_compute; reflexivity. Qed.

(** A null whose text is not one of the two expected ones (the reader keeps the
    null token of the style as the text) ends the program. *)
Lemma other_null_exits flags :
  compare_string (cstr "NA", true) (cstr "NA", true) flags = Fault Exited.
Proof. reflexivity. Qed.

(** With the columns fixed, a new remote column before the first local one: it is
    skipped without stepping over its name, so that the local column is looked up
    under the name of the new one, is taken for a filtered one, and its update is
    lost. *)
Lemma fixed_columns_lose_updates :
  let flags b := CompareFlags_ (OrderFlags false false true) b false false [] [] [] [] in
  let cus := [MatchUnit_ (-1) (-1) 0 false MATCH_UNIT_INSERT; MatchUnit_ 0 0 1 false MATCH_UNIT_PRESERVE] in
  let local _ _ := Ok (cstr "old", false) in
  let remote _ _ := Ok (cstr "new", false) in
  let m filtered := Merger_ 0 [cstr "b"; cstr "a"] filtered [] [] (-1) (-1) (-1) no_change false false false in
  let changes flags m := '(_, m) ← mergeRow flags true local local remote 1 m cus
                           (MatchUnit_ 0 0 0 false MATCH_UNIT_PRESERVE) [];
                         Ok (val (lastRowChange m)) in
  changes (flags false) (m []) =
    Ok (<[cstr "a" := (cstr "new", false)]> (<[cstr "b" := (cstr "new", false)]> ∅)) /\
  changes (flags true) (m [cstr "a"]) = Ok ∅.
Proof. split; vm_compute; reflexivity. Qed.
