(* ===== verification/SheetPatcher.v ===== *)
(** * Patching sheets

    Models [SheetPatcher] ([libcoopy_core/SheetPatcher.cpp],
    [include/coopy/SheetPatcher.h]), the output that applies the changes of a
    comparison to a sheet, and the members of [OrderChange] it uses
    ([libcoopy_core/Patcher.cpp]).

    - The patcher is the one [createForApply] makes: not descriptive, not for
      review and not merging, with no further output in its chain.
    - The sheet is a [CsvSheet] in a [PolySheet] without a row offset.  It has no
      schema, and as [assume_header] is off none is guessed: the branches on
      [getSchema()] and [checkHeader] do nothing.  There are no pools, so no row is
      deferred.
    - The names that the name sniffer gives to the columns are an argument.
    - [col2name], [original_index], [columns] and [column_names] are only used for
      descriptions, pools and conflicts, and are left out. *)

From stdpp Require Import gmap sorting.
From S2P Require Import Prelude Sheet CsvFile Viterbi OrderMerge Mover Merger.
#[local] Open Scope Z_scope.
#[local] Arguments cstr s%_string.

(** ** Changes *)

Definition identityToIndex (c : OrderChange) (id : Z) : Z :=
  let i := find_index id (indicesBefore c) in
  if (i =? length (indicesBefore c))%nat then -1 else Z.of_nat i.

Definition identityToIndexAfter (c : OrderChange) (id : Z) : Z :=
  let i := find_index id (indicesAfter c) in
  if (i =? length (indicesAfter c))%nat then -1 else Z.of_nat i.

(** ** The patcher *)

Record patcher := Patcher_ {
  sheet : CsvSheet;
  activeRow : CsvSheet;
  activeCol : CsvSheet;
  statusCol : CsvSheet;
  name2col : gmap (list Z) Z;
  syn2name : gmap (list Z) (list Z);
  name2syn : gmap (list Z) (list Z);
  rowCursor : Z;
  changeCount : Z;
  declaredNames : bool
}.

(** [cellString(x,y,str)] of a [CsvSheet] leaves the null mark as it is. *)
Definition set_text (c : CsvSheet) (x y : Z) (str : list Z) : result CsvSheet :=
  p ← Typed.cell (s c) x y; CsvS.set_cellString c x y str p.2.
Definition cell_text (c : CsvSheet) (x y : Z) : result (list Z) :=
  p ← CsvS.cellString c x y; Ok p.1.

Definition with_sheet_at (p : patcher) (sh : CsvSheet) (cursor : Z) : patcher :=
  Patcher_ sh (activeRow p) (activeCol p) (statusCol p) (name2col p) (syn2name p) (name2syn p)
    cursor (changeCount p) (declaredNames p).
Definition with_row (p : patcher) (sh act : CsvSheet) (cursor : Z) : patcher :=
  Patcher_ sh act (activeCol p) (statusCol p) (name2col p) (syn2name p) (name2syn p) cursor
    (changeCount p) (declaredNames p).
Definition with_cols (p : patcher) (sh act st : CsvSheet) : patcher :=
  Patcher_ sh (activeRow p) act st (name2col p) (syn2name p) (name2syn p) (rowCursor p)
    (changeCount p) (declaredNames p).
Definition with_names (p : patcher) (n2c : gmap (list Z) Z) : patcher :=
  Patcher_ (sheet p) (activeRow p) (activeCol p) (statusCol p) n2c (syn2name p) (name2syn p)
    (rowCursor p) (changeCount p) (declaredNames p).
Definition counted (p : patcher) : patcher :=
  Patcher_ (sheet p) (activeRow p) (activeCol p) (statusCol p) (name2col p) (syn2name p) (name2syn p)
    (rowCursor p) (changeCount p + 1) (declaredNames p).
Definition width_of (c : CsvSheet) : Z := w (s c).
Definition height_of (c : CsvSheet) : Z := h (s c).

(** ** Columns *)

(** The loop of [matchCol]: the first column from [i] on that has the name. *)
Fixpoint find_col (p : patcher) (imover : list Z) (i : Z) (n : nat) : result Z :=
  match n with
  | O => Fault Exited
  | S n =>
      name ← cell_text (activeCol p) i 0;
      if bool_decide (name = imover) then
        status ← cell_text (statusCol p) i 0;
        if bool_decide (status <> cstr "---") then Ok i else find_col p imover (i + 1) n
      else find_col p imover (i + 1) n
  end.
Definition matchCol (p : patcher) (mover : list Z) : result Z :=
  find_col p (default mover (syn2name p !! mover)) 0 (Z.to_nat (width_of (activeCol p))).

Fixpoint index_names (p : patcher) (i : Z) (n : nat) (n2c : gmap (list Z) Z) :
    result (gmap (list Z) Z) :=
  match n with
  | O => Ok n2c
  | S n =>
      name ← cell_text (activeCol p) i 0;
      index_names p (i + 1) n
        (if bool_decide (name <> cstr "---") then
           let n2c := <[name := i]> n2c in
           match name2syn p !! name with Some syn => <[syn := i]> n2c | None => n2c end
         else n2c)
  end.
Definition updateCols (p : patcher) : result patcher :=
  _ ← check (width_of (activeCol p) =? width_of (sheet p)) Exited;
  n2c ← index_names p 0 (Z.to_nat (width_of (activeCol p))) ∅;
  Ok (with_names p n2c).

Definition renameColumn (p : patcher) (idx : Z) (name oldName : list Z) : result (bool * patcher) :=
  act ← set_text (activeCol p) idx 0 name;
  status ← cell_text (statusCol p) idx 0;
  st ← set_text (statusCol p) idx 0 (status ++ cstr "(" ++ oldName ++ cstr ")");
  p ← updateCols (with_cols p (sheet p) act st);
  Ok (true, p).

Definition patch_moveColumn (p : patcher) (idx idx2 : Z) : result (bool * patcher) :=
  '(at_, sh) ← CsvS.lift (fun t => Typed.moveColumn t idx idx2) (sheet p);
  '(_, act) ← CsvS.lift (fun t => Typed.moveColumn t idx idx2) (activeCol p);
  '(_, st) ← CsvS.lift (fun t => Typed.moveColumn t idx idx2) (statusCol p);
  p ← updateCols (with_cols p sh act st);
  Ok (at_ >=? 0, p).

Definition delete_col (p : patcher) (idx : Z) : result (bool * patcher) :=
  '(ok, sh) ← CsvS.lift (fun t => Typed.deleteColumn t idx) (sheet p);
  '(_, act) ← CsvS.lift (fun t => Typed.deleteColumn t idx) (activeCol p);
  '(_, st) ← CsvS.lift (fun t => Typed.deleteColumn t idx) (statusCol p);
  let p := with_cols p sh act st in
  p ← (if width_of (sheet p) =? 0
       then '(_, sh) ← CsvS.lift (fun t => Typed.deleteData t 0) (sheet p);
            Ok (with_sheet_at p sh (-1))
       else Ok p);
  p ← updateCols p;
  Ok (ok, p).

Definition insert_col (p : patcher) (idx : Z) (mover : list Z) : result (bool * patcher) :=
  '(at_, sh) ← CsvS.lift (fun t => Typed.insertColumn t idx) (sheet p);
  '(at', act) ← CsvS.lift (fun t => Typed.insertColumn t idx) (activeCol p);
  '(_, st) ← CsvS.lift (fun t => Typed.insertColumn t idx) (statusCol p);
  act ← set_text act at' 0 mover;
  st ← set_text st at' 0 (cstr "+++");
  p ← updateCols (with_cols p sh act st);
  Ok (at_ >=? 0, p).

(** The column before which the subject of a change ends up, or -1. *)
Definition col_after (p : patcher) (c : OrderChange) (toSheet : Z) : result Z :=
  if negb (toSheet =? Zlen (indicesAfter c) - 1)
  then before ← rd (namesAfter c) (toSheet + 1); matchCol p before
  else Ok (-1).

Definition changeColumn (p : patcher) (c : OrderChange) : result (bool * patcher) :=
  let p := counted p in
  match oc_mode c with
  | ORDER_CHANGE_DELETE =>
      mover ← rd (namesBefore c) (identityToIndex c (subject c));
      idx ← matchCol p mover;
      delete_col p idx
  | ORDER_CHANGE_INSERT =>
      let toSheet := identityToIndexAfter c (subject c) in
      mover ← rd (namesAfter c) toSheet;
      idx ← col_after p c toSheet;
      insert_col p idx mover
  | ORDER_CHANGE_MOVE =>
      let toSheet := identityToIndexAfter c (subject c) in
      mover ← rd (namesAfter c) toSheet;
      idx ← matchCol p mover;
      idx2 ← col_after p c toSheet;
      patch_moveColumn p idx idx2
  | ORDER_CHANGE_RENAME =>
      target ← rd (namesBefore c) (identityToIndex c (subject c));
      newName ← rd (namesAfter c) (identityToIndexAfter c (subject c));
      idx ← matchCol p target;
      renameColumn p idx newName target
  | ORDER_CHANGE_NONE => Ok (false, p)
  end.

(** ** Rows *)

(** The entries of a [std::map<std::string,...>], in the order of their names. *)
Fixpoint str_le (a b : list Z) : bool :=
  match a, b with
  | [], _ => true
  | _ :: _, [] => false
  | x :: a, y :: b => if x <? y then true else if x =? y then str_le a b else false
  end.
Definition entry_le (a b : list Z * pcell) : Prop := str_le a.1 b.1 = true.
#[export] Instance entry_le_dec : RelDecision entry_le.
Proof. intros a b. unfold entry_le. apply _. Defined.
Definition entries (m : txt2cell) : list (list Z * pcell) := merge_sort entry_le (map_to_list m).

(** The loops that fill [active_cond] and [cond], or [active_val] and [val], from
    the entries; the count is [active_conds]. *)
Fixpoint fill (p : patcher) (l : list (list Z * pcell)) (v : list (option pcell)) (ct : Z) :
    result (list (option pcell) * Z) :=
  match l with
  | [] => Ok (v, ct)
  | (n, c) :: l =>
      match name2col p !! n with
      | Some idx => v ← wr v idx (Some c); fill p l v (ct + 1)
      | None => fill p l v ct
      end
  end.

(** Whether a row fulfils the conditions from column [c] on. *)
Fixpoint row_matches (sh : CsvSheet) (r : Z) (c : Z) (conds : list (option pcell)) : result bool :=
  match conds with
  | [] => Ok true
  | None :: conds => row_matches sh r (c + 1) conds
  | Some v :: conds =>
      x ← CsvS.cellString sh c r;
      if bool_decide (x = v) then row_matches sh r (c + 1) conds else Ok false
  end.

Fixpoint match_rows (p : patcher) (conds : list (option pcell)) (r : Z) (n : nat) : result Z :=
  match n with
  | O => Ok (-1)
  | S n =>
      act ← cell_text (activeRow p) 0 r;
      m ← (if bool_decide (act <> cstr "---") then row_matches (sheet p) r 0 conds else Ok false);
      if m : bool then Ok r else match_rows p conds (r + 1) n
  end.
Definition matchRow (p : patcher) (conds : list (option pcell)) : result Z :=
  match_rows p conds 0 (Z.to_nat (height_of (sheet p))).

(** [setCell] for every value from column [c] on. *)
Fixpoint set_values (sh : CsvSheet) (r c : Z) (vals : list (option pcell)) : result CsvSheet :=
  match vals with
  | [] => Ok sh
  | None :: vals => set_values sh r (c + 1) vals
  | Some v :: vals => sh ← CsvS.set_cellString sh c r v.1 v.2; set_values sh r (c + 1) vals
  end.

(** The loop of [markChanges] for a change without conflicts: the marks are empty,
    so that [activeRow] is read and stays as it is. *)
Fixpoint mark_values (p : patcher) (sh : CsvSheet) (r c : Z) (vals : list (option pcell)) :
    result CsvSheet :=
  match vals with
  | [] => Ok sh
  | None :: vals => mark_values p sh r (c + 1) vals
  | Some v :: vals =>
      _ ← cell_text (statusCol p) c 0;
      _ ← cell_text (activeRow p) 0 r;
      sh ← CsvS.set_cellString sh c r v.1 v.2;
      mark_values p sh r (c + 1) vals
  end.
Definition markChanges (p : patcher) (r : Z) (vals : list (option pcell)) : result CsvSheet :=
  _ ← cell_text (sheet p) 0 r;
  mark_values p (sheet p) r 0 vals.

Definition next_row (sh : CsvSheet) (r : Z) : Z := if r + 1 >=? height_of sh then -1 else r + 1.

Definition insert_row (p : patcher) (vals : list (option pcell)) : result (bool * patcher) :=
  let tail := rowCursor p in
  '(y, sh) ← CsvS.csv_insertRow (sheet p) tail;
  sh ← set_values sh y 0 vals;
  '(_, act) ← CsvS.csv_insertRow (activeRow p) tail;
  act ← set_text act 0 y (cstr "+++");
  Ok (false, with_row p sh act (next_row sh y)).

Definition delete_row (p : patcher) (conds : list (option pcell)) : result (bool * patcher) :=
  r ← matchRow p conds;
  if r <? 0 then Ok (false, p) else
  '(_, sh) ← CsvS.csv_deleteRow (sheet p) r;
  '(_, act) ← CsvS.csv_deleteRow (activeRow p) r;
  Ok (true, with_row p sh act (if r >=? height_of sh then -1 else r)).

Definition context_row (p : patcher) (conds : list (option pcell)) (active_conds : Z) :
    result (bool * patcher) :=
  if active_conds >? 0 then
    r ← matchRow p conds;
    if r <? 0 then Ok (false, p) else
    Ok (true, with_sheet_at p (sheet p) (next_row (sheet p) r))
  else Ok (true, with_sheet_at p (sheet p) 0).

(** The result of [moveRow] is called [result] and hides the variable that
    [changeRow] returns, which stays [false]. *)
Definition move_row (p : patcher) (conds vals : list (option pcell)) : result (bool * patcher) :=
  r ← matchRow p conds;
  if r <? 0 then Ok (false, p) else
  let to := rowCursor p in
  '(at_, sh) ← CsvS.lift (fun t => Typed.moveRow t r to) (sheet p);
  act ← (if at_ =? -1 then Ok (activeRow p)
         else '(_, act) ← CsvS.lift (fun t => Typed.moveRow t r to) (activeRow p); Ok act);
  let p := with_row p sh act (rowCursor p) in
  sh ← markChanges p at_ vals;
  Ok (false, with_sheet_at p sh (next_row sh at_)).

Definition update_row (p : patcher) (conds vals : list (option pcell)) : result (bool * patcher) :=
  r ← matchRow p conds;
  if r <? 0 then Ok (false, with_sheet_at p (sheet p) (-1)) else
  sh ← markChanges p r vals;
  Ok (true, with_sheet_at p sh (next_row sh r)).

(** ** Names *)

Fixpoint move_to_names (p : patcher) (i : Z) (names : list (list Z)) : result patcher :=
  match names with
  | [] => Ok p
  | n :: names =>
      act ← cell_text (activeCol p) i 0;
      p ← (if bool_decide (n <> act) && negb (cget n 0 =? 91) then
             idx ← matchCol p n;
             idx1 ← matchCol p act;
             '(_, p) ← patch_moveColumn p idx idx1;
             Ok p
           else Ok p);
      move_to_names p (i + 1) names
  end.

Fixpoint add_synonyms (p : patcher) (i : Z) (names : list (list Z)) : result patcher :=
  match names with
  | [] => Ok p
  | n :: names =>
      act ← cell_text (activeCol p) i 0;
      add_synonyms
        (if bool_decide (n <> act)
         then Patcher_ (sheet p) (activeRow p) (activeCol p) (statusCol p) (name2col p)
                (<[n := act]> (syn2name p)) (<[act := n]> (name2syn p)) (rowCursor p)
                (changeCount p) (declaredNames p)
         else p) (i + 1) names
  end.

Definition declareNames (p : patcher) (names : list (list Z)) : result (bool * patcher) :=
  let first := negb (declaredNames p) in
  let p := Patcher_ (sheet p) (activeRow p) (activeCol p) (statusCol p) (name2col p) (syn2name p)
             (name2syn p) (rowCursor p) (changeCount p) true in
  if negb (Zlen names =? width_of (sheet p)) then Ok (false, p) else
  p ← (if first then add_synonyms p 0 names else move_to_names p 0 names);
  p ← updateCols p;
  Ok (true, p).

Definition changeRow (p : patcher) (sequential : bool) (allNames : list (list Z)) (c : RowChange) :
    result (bool * patcher) :=
  p ← (if negb (declaredNames p) then '(_, p) ← declareNames p allNames; Ok p else Ok p);
  if conflicted c then Ok (false, p) else
  let p := if negb (height_of (activeRow p) =? height_of (sheet p)) ||
              negb (width_of (activeRow p) =? 1)
           then with_row p (sheet p) (CsvS.csv_resize (activeRow p) 1 (height_of (sheet p)))
                  (rowCursor p)
           else p in
  let p := if negb sequential then with_sheet_at p (sheet p) (-1) else p in
  let none := replicate (Z.to_nat (width_of (sheet p))) None in
  '(conds, active_conds) ← fill p (entries (cond c)) none 0;
  '(vals, _) ← fill p (entries (val c)) none 0;
  '(ok, p) ← match mode c with
             | ROW_CHANGE_INSERT => insert_row p vals
             | ROW_CHANGE_DELETE => delete_row p conds
             | ROW_CHANGE_CONTEXT => context_row p conds active_conds
             | ROW_CHANGE_MOVE => move_row p conds vals
             | ROW_CHANGE_UPDATE => update_row p conds vals
             | ROW_CHANGE_NONE => Ok (false, p)
             end;
  Ok (ok, if ok : bool then counted p else p).

(** ** A whole patch *)

Fixpoint name_cols (act : CsvSheet) (suggest : Z -> list Z) (i : Z) (n : nat) : result CsvSheet :=
  match n with
  | O => Ok act
  | S n => act ← set_text act i 0 (suggest i); name_cols act suggest (i + 1) n
  end.

(** [mergeStart] of a new patcher that has been given a sheet, with [setNames]. *)
Definition mergeStart (sh : CsvSheet) (suggest : Z -> list Z) : result patcher :=
  act ← name_cols (CsvS.csv_resize CsvS.create (width_of sh) 1) suggest 0 (Z.to_nat (width_of sh));
  updateCols (Patcher_ sh (CsvS.csv_resize CsvS.create 1 0) act
                (CsvS.csv_resize CsvS.create (width_of sh) 1) ∅ ∅ ∅ (-1) 0 false).

(** One call of [Merger] on the output.  [addHeader] and [stripMarkup] are those of
    the base class, which do nothing. *)
Definition apply_event (p : patcher) (e : out_event) : result patcher :=
  match e with
  | ChangeName _ _ ns => '(_, p) ← declareNames p ns; Ok p
  | ChangeColumn c => '(_, p) ← changeColumn p c; Ok p
  | ChangeRow c _ allNames => '(_, p) ← changeRow p true allNames c; Ok p
  | AddPools | AddHeader _ | MergeDone | StripMarkup => Ok p
  end.
Fixpoint apply_events (p : patcher) (es : list out_event) : result patcher :=
  match es with [] => Ok p | e :: es => p ← apply_event p e; apply_events p es end.
