(* ===== verification/SheetPatcherSpec.v ===== *)
(** * Patching sheets: the changes of a comparison restore the remote sheet

    The patcher keeps its own columns of names and statuses in step with the
    sheet.  Applying the column changes of [Merger] brings the sheet to the merged
    columns; applying a row change replaces exactly the row it describes; together,
    what a comparison sends for rows that are updated in place makes the local
    sheet the remote one. *)

From stdpp Require Import gmap sorting.
From S2P Require Import Prelude Sheet SheetSpec CsvFile Viterbi OrderMerge OrderMergeSpec Mover.
From S2P Require Import MoverSpec Merger MergerSpec SheetPatcher.
#[local] Open Scope Z_scope.
#[local] Arguments cstr s%_string.

(** ** Tables *)

(** The rows of a sheet are given by a function of the items that its columns
    stand for. *)
Section Table.
Context {Q : Type} (f : nat -> Q -> pcell).

Record table (P : list Q) (c : CsvSheet) : Prop := Table {
  tab_ok : sheet_ok (s c);
  tab_width : w (s c) = Zlen P;
  tab_rows : forall y row, arr (s c) !! y = Some row -> row = f y <$> P
}.

Definition same_height (c c' : CsvSheet) : Prop :=
  h (s c') = h (s c) /\ zero (s c') = zero (s c).

Lemma table_row P c y :
  table P c -> 0 <= y < h (s c) -> rd (arr (s c)) y = Ok (f (Z.to_nat y) <$> P).
Proof.
  intros [(Hh & _) _ Hr] Hy. destruct (rd_in (arr (s c)) y) as (row & -> & Hrow); [lia|].
  by rewrite (Hr _ _ Hrow).
Qed.

Lemma table_cell P c i q y :
  table P c -> P !! i = Some q -> 0 <= y < h (s c) ->
  CsvS.cellString c (Z.of_nat i) y = Ok (f (Z.to_nat y) q).
Proof.
  intros Ht Hq Hy. pose proof (lookup_lt_Some _ _ _ Hq) as Hi.
  assert (Typed.cell (s c) (Z.of_nat i) y = Ok (f (Z.to_nat y) q)) as Hc.
  { unfold Typed.cell. rewrite (table_row P), bind_Ok by done.
    apply rd_ok; [lia|]. by rewrite Nat2Z.id, list_lookup_fmap, Hq. }
  unfold CsvS.cellString. destruct (valid c); [done|].
  rewrite (table_row P), bind_Ok by done.
  rewrite (proj2 (Z.leb_le _ _)), (proj2 (Z.ltb_lt _ _)) by (rewrite ?length_fmap; lia). done.
Qed.

(** The columns of all rows are changed by [g], which commutes with maps. *)
Lemma table_map P P' (g : list pcell -> list pcell) c a' :
  table P c -> (forall y, g (f y <$> P) = f y <$> P') ->
  table P' (CsvSheet_ (TypedSheet_ (g <$> arr (s c)) (h (s c)) (Zlen P') (zero (s c))) (rec c) (th c)
              (tw c) a').
Proof.
  intros [(Hh & _ & Hf) Hw Hr] Hg.
  assert (forall y row, (g <$> arr (s c)) !! y = Some row -> row = f y <$> P') as Hrow.
  { intros y row. rewrite list_lookup_fmap. destruct (arr (s c) !! y) as [r|] eqn:E; [|done].
    intros [= <-]. by rewrite (Hr _ _ E), Hg. }
  split; simpl; [|done|done]. split_and!; simpl; [by rewrite length_fmap|lia|].
  apply Forall_lookup. intros y row H. by rewrite (Hrow _ _ H), length_fmap.
Qed.

Lemma table_delete A q B c :
  table (A ++ q :: B) c -> exists c',
    CsvS.lift (fun t => Typed.deleteColumn t (Zlen A)) c = Ok (true, c') /\ table (A ++ B) c' /\
    same_height c c'.
Proof.
  intros Ht. pose proof Ht as [Hok Hw _]. rewrite length_app in Hw. simpl in Hw. unfold CsvS.lift.
  rewrite deleteColumn_ok, bind_Ok by (done || lia). eexists. split; [reflexivity|]. split; [|done].
  assert (w (s c) - 1 = Zlen (A ++ B)) as -> by (rewrite length_app; lia).
  apply (table_map (A ++ q :: B)); [done|]. intros y. rewrite Nat2Z.id, !fmap_app, fmap_cons.
  by rewrite take_app_length', drop_app_ge, length_fmap, Nat.sub_succ_l, Nat.sub_diag
    by (rewrite ?length_fmap; lia).
Qed.

Lemma table_insert A q B c :
  table (A ++ B) c -> (forall y, f y q = zero (s c)) -> exists c',
    CsvS.lift (fun t => Typed.insertColumn t (if bool_decide (B = []) then -1 else Zlen A)) c =
      Ok (Zlen A, c') /\ table (A ++ q :: B) c' /\ same_height c c'.
Proof.
  intros Ht Hz. pose proof Ht as [Hok Hw _]. rewrite length_app in Hw. unfold CsvS.lift.
  assert ((if bool_decide (B = []) then -1 else Zlen A) < w (s c)) as Hlt
    by (case_bool_decide; [lia|destruct B; [done|simpl in Hw; lia]]).
  rewrite insertColumn_ok by done.
  assert ((if (if bool_decide (B = []) then -1 else Zlen A) <? 0 then w (s c)
           else if bool_decide (B = []) then -1 else Zlen A) = Zlen A) as Hj.
  { case_bool_decide as E; [rewrite E in Hw; simpl in *; lia|].
    by rewrite (proj2 (Z.ltb_ge _ _)) by lia. }
  rewrite Hj, bind_Ok. eexists. split; [reflexivity|]. split; [|done].
  assert (w (s c) + 1 = Zlen (A ++ q :: B)) as -> by (rewrite length_app; simpl; lia).
  apply (table_map (A ++ B)); [done|]. intros y. rewrite Nat2Z.id, !fmap_app, fmap_cons, Hz.
  by rewrite take_app_length', drop_app_length' by (by rewrite length_fmap).
Qed.

(** The place before which an item between [A] and [B] has to go to come to stand
    between [A'] and [B']. *)
Definition move_base {X} (A A' B' : list X) : Z :=
  if bool_decide (length B' = 0%nat) then -1
  else if bool_decide (length A' < length A)%nat then Zlen A' else Zlen A' + 1.

Lemma table_move A q B A' B' c :
  table (A ++ q :: B) c -> A ++ B = A' ++ B' -> exists c',
    CsvS.lift (fun t => Typed.moveColumn t (Zlen A) (move_base A A' B')) c = Ok (Zlen A', c') /\
    table (A' ++ q :: B') c' /\ same_height c c'.
Proof.
  intros Ht E. pose proof Ht as [Hok Hw _]. rewrite length_app in Hw. simpl in Hw. unfold CsvS.lift.
  pose proof (f_equal length E) as El. rewrite !length_app in El.
  assert (-1 <= move_base A A' B' < w (s c)) as Hb
    by (unfold move_base; repeat case_bool_decide; lia).
  assert (dest_index (w (s c)) (Zlen A) (move_base A A' B') = Zlen A') as Hd.
  { unfold move_base, dest_index. repeat case_bool_decide; simpl.
    - lia.
    - rewrite (proj2 (Z.eqb_neq _ _)), (proj2 (Z.ltb_ge _ _)) by lia. done.
    - rewrite (proj2 (Z.eqb_neq _ _)), (proj2 (Z.ltb_lt _ _)) by lia. lia. }
  rewrite moveColumn_ok, Hd, bind_Ok by (done || lia). eexists. split; [reflexivity|]. split; [|done].
  assert (w (s c) = Zlen (A' ++ q :: B')) as -> by (rewrite length_app; simpl; lia).
  apply (table_map (A ++ q :: B)); [done|]. intros y. rewrite !Nat2Z.id, !fmap_app, !fmap_cons.
  rewrite <- (length_fmap (f y) A) at 1. rewrite relocate_split, <- !fmap_app, E, fmap_app.
  by rewrite take_app_length', drop_app_length' by (by rewrite length_fmap).
Qed.
End Table.

(** ** The columns of names and statuses *)

(** A sheet of one row. *)
Definition one_row (c : CsvSheet) (row : list pcell) : Prop :=
  table (fun _ x => x) row c /\ h (s c) = 1.

Lemma one_row_arr c row : one_row c row -> arr (s c) = [row].
Proof.
  intros [[(Hh & _) _ Hr] H1]. destruct (arr (s c)) as [|r [|r' l]] eqn:E; simpl in Hh; try lia.
  f_equal. rewrite (Hr 0%nat r) by done. apply list_fmap_id.
Qed.

Lemma one_row_text c row i x : one_row c row -> row !! i = Some x -> cell_text c (Z.of_nat i) 0 = Ok x.1.
Proof.
  intros [Ht H1] Hx. unfold cell_text. by rewrite (table_cell _ row c i x) by (done || lia).
Qed.

Lemma set_text_row c row i x str :
  one_row c row -> row !! i = Some x -> exists c',
    set_text c (Z.of_nat i) 0 str = Ok c' /\ one_row c' (<[i := (str, x.2)]> row) /\ same_height c c'.
Proof.
  intros Hl Hx. pose proof (one_row_arr _ _ Hl) as Ha. pose proof Hl as [[(Hh & Hw0 & Hf) Hw Hr] H1].
  pose proof (lookup_lt_Some _ _ _ Hx) as Hi.
  unfold set_text, Typed.cell. rewrite Ha, (rd_ok _ 0 row), bind_Ok, (rd_ok row _ x), bind_Ok
    by (done || lia || by rewrite Nat2Z.id).
  unfold CsvS.set_cellString, Typed.set_cell. rewrite Ha, (rd_ok _ 0 row), bind_Ok by (done || lia).
  rewrite (wr_ok row), bind_Ok, Nat2Z.id by (unfold pcell in *; lia). rewrite wr_ok, bind_Ok by (cbn [length]; lia).
  eexists. split; [reflexivity|]. split; [|done]. simpl. split; [|done]. split; simpl.
  - split_and!; simpl; [done|done|]. constructor; [by rewrite length_insert|constructor].
  - by rewrite length_insert.
  - intros [|y] r; [|done]. intros [= <-]. by rewrite list_fmap_id.
Qed.

Lemma fst_lookup (row : list pcell) i n :
  row.*1 !! i = Some n -> exists x : pcell, row !! i = Some x /\ x.1 = n.
Proof. intros (x & -> & Hx)%list_lookup_fmap_Some. eauto. Qed.

Lemma fst_length (row : list pcell) : length row.*1 = length row.
Proof. apply length_fmap. Qed.

(** The index of the names: it leaves out the mark of a deletion. *)
Definition indexed (names : list (list Z)) (n2c : gmap (list Z) Z) : Prop :=
  forall n i, n2c !! n = Some i <-> 0 <= i /\ names !! Z.to_nat i = Some n /\ n <> cstr "---".

Lemma indexed_snoc names n2c x :
  indexed names n2c -> x ∉ names ->
  indexed (names ++ [x]) (if bool_decide (x <> cstr "---") then <[x := Zlen names]> n2c else n2c).
Proof.
  intros H Hx n i.
  assert ((names ++ [x]) !! Z.to_nat i = Some n <->
    names !! Z.to_nat i = Some n \/ Z.to_nat i = length names /\ n = x) as ->.
  { rewrite lookup_app_Some, list_lookup_singleton_Some. split.
    - intros [?|(? & ? & ?)]; [auto|right; split; [lia|done]].
    - intros [?|[? ?]]; [auto|right; split_and!; [lia|lia|done]]. }
  case_bool_decide as Hd; [destruct (decide (n = x)) as [->|Hn]|].
  - rewrite lookup_insert_eq. split; [intros [= <-]; split_and!; [lia|right; split; [lia|done]|done]|].
    intros (Hi & [Hl|[Hl _]] & _); [by apply list_elem_of_lookup_2 in Hl|]. f_equal. lia.
  - rewrite lookup_insert_ne by done. rewrite (H n i).
    split; [intros (? & ? & ?); auto|intros (? & [?|[_ ->]] & ?); [auto|done]].
  - rewrite (H n i). split; [intros (? & ? & ?); auto|intros (? & [?|[_ ->]] & ?); [auto|tauto]].
Qed.

(** What holds of the patcher between changes. *)
Record cols_ok (names : list (list Z)) (p : patcher) : Prop := ColsOk {
  c_width : w (s (sheet p)) = Zlen names;
  c_act : exists row, one_row (activeCol p) row /\ row.*1 = names;
  c_status : exists row, one_row (statusCol p) row /\ length row = length names /\
               Forall (fun c => c.1 <> cstr "---") row;
  c_syn : syn2name p = ∅ /\ name2syn p = ∅
}.
Definition in_step (names : list (list Z)) (p : patcher) : Prop :=
  cols_ok names p /\ indexed names (name2col p).

Lemma index_names_spec p row pre rest n2c :
  one_row (activeCol p) row -> row.*1 = pre ++ rest -> name2syn p = ∅ -> NoDup (pre ++ rest) ->
  indexed pre n2c -> exists n2c', index_names p (Zlen pre) (length rest) n2c = Ok n2c' /\
    indexed (pre ++ rest) n2c'.
Proof.
  intros Hl Hr Hs. revert pre n2c Hr. induction rest as [|n rest IH]; intros pre n2c Hr Hok Hi;
    cbn [index_names length]; [exists n2c; by rewrite app_nil_r|].
  assert (row.*1 !! length pre = Some n) as Hn by (rewrite Hr; by apply list_lookup_middle).
  apply fst_lookup in Hn as (x & Hx & Hn). rewrite (one_row_text _ row _ x Hl Hx), bind_Ok, Hn.
  rewrite Hs, lookup_empty. specialize (IH (pre ++ [n])).
  rewrite <- app_assoc, length_app, Nat2Z.inj_add in IH. simpl in IH. apply IH; [done|done|].
  apply indexed_snoc; [done|]. apply list.NoDup_app in Hok as (_ & Hd & _).
  intros Hin. apply (Hd _ Hin), list_elem_of_here.
Qed.

Lemma updateCols_spec names p :
  cols_ok names p -> NoDup names ->
  exists n2c, updateCols p = Ok (with_names p n2c) /\ in_step names (with_names p n2c).
Proof.
  intros Hok Hn. pose proof Hok as [Hw (row & Hl & Hr) Hst [Hs1 Hs2]]. unfold updateCols, width_of.
  pose proof Hl as [[_ Hlw _] _]. rewrite <- Hr, fst_length in Hw.
  rewrite check_true, bind_Ok by (apply Z.eqb_eq; lia).
  destruct (index_names_spec p row [] names ∅) as (n2c & Hi & Hind); try done.
  { intros n i. rewrite lookup_empty. split; [done|]. intros (_ & H & _). by rewrite lookup_nil in H. }
  change (Zlen []) with 0 in Hi. rewrite Hlw, Nat2Z.id. assert (length row = length names) as ->
    by (by rewrite <- Hr, fst_length).
  rewrite Hi, bind_Ok. exists n2c. split; [done|]. split; [|done]. rewrite <- fst_length, Hr in Hw.
  split; simpl; eauto.
Qed.

Lemma find_col_spec p names mover i k n :
  cols_ok names p -> NoDup names -> names !! k = Some mover -> (i + n = length names)%nat ->
  (i <= k)%nat -> find_col p mover (Z.of_nat i) n = Ok (Z.of_nat k).
Proof.
  intros [_ (row & Hl & Hr) (st & Hsl & Hsn & Hst) _] Hnd Hk. revert i.
  induction n as [|n IH]; intros i Hin Hle; [apply lookup_lt_Some in Hk; lia|]. cbn [find_col].
  assert (i < length row)%nat as Hi by (rewrite <- fst_length, Hr; lia).
  destruct (lookup_lt_is_Some_2 row i Hi) as [x Hx].
  rewrite (one_row_text (activeCol p) row _ x), bind_Ok by done.
  assert (names !! i = Some x.1) as Hnx
    by (rewrite <- Hr; apply list_lookup_fmap_Some; eauto).
  case_bool_decide as E.
  - assert (i = k) as -> by (apply (NoDup_lookup names i k mover); congruence).
    destruct (lookup_lt_is_Some_2 st k) as [y Hy]; [lia|].
    rewrite (one_row_text _ st _ y), bind_Ok by done. rewrite bool_decide_true; [done|].
    by apply (Forall_lookup_1 _ _ _ _ Hst Hy).
  - assert (i <> k) by (intros ->; congruence).
    replace (Z.of_nat i + 1) with (Z.of_nat (S i)) by lia. apply IH; lia.
Qed.

Lemma matchCol_spec p names mover k :
  cols_ok names p -> NoDup names -> names !! k = Some mover -> matchCol p mover = Ok (Z.of_nat k).
Proof.
  intros Hok Hnd Hk. pose proof Hok as [_ (row & [[_ Hlw _] _] & Hr) _ [Hs _]].
  unfold matchCol, width_of. rewrite Hs, lookup_empty, Hlw. cbn [default].
  apply (find_col_spec p names mover 0 k); try done; [|lia].
  by rewrite <- Hr, fst_length, Nat2Z.id.
Qed.

(** A sheet of one row whose cells are related to the names. *)
Definition strip (T : list Z -> pcell -> Prop) (names : list (list Z)) (c : CsvSheet) : Prop :=
  exists row, one_row c row /\ Forall2 T names row.
Definition is_name (n : list Z) (x : pcell) : Prop := x.1 = n.
Definition not_dashes (_ : list Z) (x : pcell) : Prop := x.1 <> cstr "---".

Lemma act_strip names c : strip is_name names c <-> exists row, one_row c row /\ row.*1 = names.
Proof.
  split; intros (row & Hl & H); exists row; (split; [done|]).
  - clear Hl. induction H as [|n x names row Hx _ IH]; [done|]. rewrite fmap_cons, IH. by rewrite Hx.
  - clear Hl. subst names. induction row as [|x row IH]; [constructor|]. rewrite fmap_cons.
    by constructor.
Qed.

Lemma status_strip names c :
  strip not_dashes names c <->
  exists row, one_row c row /\ length row = length names /\ Forall (fun c => c.1 <> cstr "---") row.
Proof.
  split.
  - intros (row & Hl & H). exists row. split; [done|]. split; [by apply Forall2_length in H|].
    clear Hl. induction H; by constructor.
  - intros (row & Hl & Hn & H). exists row. split; [done|]. clear Hl. revert names Hn.
    induction H as [|x row Hx _ IH]; intros [|n names] Hn; simplify_eq/=; constructor; auto.
Qed.

Lemma strip_delete T na n nb c :
  strip T (na ++ n :: nb) c -> exists c',
    CsvS.lift (fun t => Typed.deleteColumn t (Zlen na)) c = Ok (true, c') /\ strip T (na ++ nb) c'.
Proof.
  intros (row & [Ht H1] & HT). apply Forall2_app_inv_l in HT as (ra & r & Ha & HT & ->).
  apply Forall2_cons_inv_l in HT as (x & rb & Hx & Hb & ->).
  destruct (table_delete _ ra x rb c Ht) as (c' & Hd & Ht' & Hh & _).
  rewrite (Forall2_length Ha). exists c'. split; [done|]. exists (ra ++ rb).
  split; [split; [done|lia]|by apply Forall2_app].
Qed.

Lemma strip_insert T na n nb c str :
  strip T (na ++ nb) c -> (forall b, T n (str, b)) -> exists c1 c2,
    CsvS.lift (fun t => Typed.insertColumn t (if bool_decide (nb = []) then -1 else Zlen na)) c =
      Ok (Zlen na, c1) /\
    set_text c1 (Zlen na) 0 str = Ok c2 /\ strip T (na ++ n :: nb) c2.
Proof.
  intros (row & [Ht H1] & HT) Hstr. apply Forall2_app_inv_l in HT as (ra & rb & Ha & Hb & ->).
  destruct (table_insert _ ra (zero (s c)) rb c Ht (fun _ => eq_refl)) as (c1 & Hi & Ht' & Hh & _).
  pose proof (Forall2_length Ha) as El. rewrite El.
  assert (bool_decide (rb = []) = bool_decide (nb = [])) as Eb.
  { apply bool_decide_ext. split; intros ->; by inversion Hb. }
  rewrite <- Eb. exists c1.
  destruct (set_text_row c1 (ra ++ zero (s c) :: rb) (length ra) (zero (s c)) str) as (c2 & Hs & Hl & _);
    [split; [done|lia]|by apply list_lookup_middle|].
  exists c2. split_and!; [done|done|]. exists (ra ++ (str, (zero (s c)).2) :: rb). split.
  - by rewrite insert_app_r_alt, Nat.sub_diag in Hl by apply Nat.le_refl.
  - apply Forall2_app; [done|]. by constructor.
Qed.

Lemma strip_move T na n nb na' nb' c :
  strip T (na ++ n :: nb) c -> na ++ nb = na' ++ nb' -> exists c',
    CsvS.lift (fun t => Typed.moveColumn t (Zlen na) (move_base na na' nb')) c = Ok (Zlen na', c') /\
    strip T (na' ++ n :: nb') c'.
Proof.
  intros (row & [Ht H1] & HT) E. apply Forall2_app_inv_l in HT as (ra & r & Ha & HT & ->).
  apply Forall2_cons_inv_l in HT as (x & rb & Hx & Hb & ->).
  assert (Forall2 T (na' ++ nb') (ra ++ rb)) as HT' by (rewrite <- E; by apply Forall2_app).
  apply Forall2_app_inv_l in HT' as (ra' & rb' & Ha' & Hb' & E').
  destruct (table_move _ ra x rb ra' rb' c Ht E') as (c' & Hm & Ht' & Hh & _).
  assert (move_base ra ra' rb' = move_base na na' nb') as Eb.
  { unfold move_base. by rewrite (Forall2_length Ha), (Forall2_length Ha'),
      (Forall2_length Hb'). }
  rewrite <- Eb, (Forall2_length Ha), (Forall2_length Ha'). exists c'. split; [done|].
  exists (ra' ++ x :: rb'). split; [split; [done|lia]|]. apply Forall2_app; [done|]. by constructor.
Qed.

Lemma strip_rename T na n n' nb c i str :
  strip T (na ++ n :: nb) c -> i = Zlen na -> (forall x, T n x -> T n' (str x.1, x.2)) ->
  exists old c', cell_text c i 0 = Ok old /\ set_text c i 0 (str old) = Ok c' /\
    strip T (na ++ n' :: nb) c'.
Proof.
  intros (row & Hl & HT) -> Hstr. apply Forall2_app_inv_l in HT as (ra & r & Ha & HT & ->).
  apply Forall2_cons_inv_l in HT as (x & rb & Hx & Hb & ->).
  rewrite (Forall2_length Ha).
  assert ((ra ++ x :: rb) !! length ra = Some x) as Hr by (by apply list_lookup_middle).
  destruct (set_text_row c _ (length ra) x (str x.1) Hl Hr) as (c' & Hs & Hl' & _).
  exists x.1, c'. split_and!; [by apply (one_row_text c (ra ++ x :: rb) _ x)|done|].
  exists (ra ++ (str x.1, x.2) :: rb). split.
  - by rewrite insert_app_r_alt, Nat.sub_diag in Hl' by apply Nat.le_refl.
  - apply Forall2_app; [done|]. constructor; auto.
Qed.

(** ** Column changes *)

(** The patcher has the columns [P], and [f] gives the rows of the sheet. *)
Record shows (f : nat -> Z * list Z -> pcell) (P : named) (p : patcher) : Prop := Shows {
  sh_step : in_step P.*2 p;
  sh_table : table f P (sheet p)
}.

Lemma find_middle (A B : named) x n :
  NoDup (A ++ (x, n) :: B).*1 ->
  find_index x (A ++ (x, n) :: B).*1 = length A /\
  (length A =? length (A ++ (x, n) :: B).*1)%nat = false.
Proof.
  intros Hnd. split.
  - apply find_index_lookup; [done|]. by rewrite list_lookup_fmap, list_lookup_middle.
  - apply Nat.eqb_neq. rewrite length_fmap, length_app. simpl. lia.
Qed.

Lemma index_before c (A B : named) x n :
  indicesBefore c = (A ++ (x, n) :: B).*1 -> NoDup (A ++ (x, n) :: B).*1 ->
  identityToIndex c x = Zlen A.
Proof.
  intros E Hnd. unfold identityToIndex. rewrite E.
  destruct (find_middle A B x n Hnd) as [-> H]. by rewrite H.
Qed.

Lemma index_after c (A B : named) x n :
  indicesAfter c = (A ++ (x, n) :: B).*1 -> NoDup (A ++ (x, n) :: B).*1 ->
  identityToIndexAfter c x = Zlen A.
Proof.
  intros E Hnd. unfold identityToIndexAfter. rewrite E.
  destruct (find_middle A B x n Hnd) as [-> H]. by rewrite H.
Qed.

Lemma names_middle (A B : named) q :
  rd (A ++ q :: B).*2 (Zlen A) = Ok q.2 /\ (A ++ q :: B).*2 !! length A = Some q.2.
Proof.
  split; [apply rd_fmap|]. by rewrite list_lookup_fmap, list_lookup_middle.
Qed.

Lemma counted_ok names p : cols_ok names p -> cols_ok names (counted p).
Proof. intros []. by split. Qed.

Lemma deleteData_all {T} (n : nat) (t : TypedSheet T) :
  sheet_ok t -> n = length (arr t) ->
  Typed.deleteData_loop n 0 t = Ok (TypedSheet_ [] 0 (w t) (zero t)).
Proof.
  revert t. induction n as [|n IH]; intros t Hok Hn; pose proof Hok as (Hh & Hw & Hf).
  - destruct t as [a h0 w0 z]; simpl in *. destruct a; [|done]. simpl in Hh. by rewrite Hh.
  - cbn [Typed.deleteData_loop]. rewrite deleteRow_ok, bind_Ok by (done || lia).
    destruct (arr t) as [|r a] eqn:E; [done|]. simpl. inversion Hf; subst.
    change (Z.to_nat 0) with 0%nat. rewrite drop_0. cbn [length] in Hn, Hh.
    rewrite IH; [done| |cbn [arr]; lia]. split_and!; cbn [arr h w]; [lia|done|done].
Qed.

Lemma change_delete f A x n B p obj :
  shows f (A ++ (x, n) :: B) p -> NoDup (A ++ (x, n) :: B).*1 -> NoDup (A ++ (x, n) :: B).*2 ->
  exists p', changeColumn p (OrderChange_ (A ++ (x, n) :: B).*1 (A ++ (x, n) :: B).*2 (A ++ B).*1
      (A ++ B).*2 x obj ORDER_CHANGE_DELETE) = Ok (true, p') /\ shows f (A ++ B) p' /\
    zero (s (sheet p')) = zero (s (sheet p)) /\
    (A ++ B <> [] -> h (s (sheet p')) = h (s (sheet p))).
Proof.
  intros [[Hc Hi] Ht] Hnd Hok. unfold changeColumn. cbn [oc_mode namesBefore subject].
  rewrite (index_before _ A B x n) by done.
  destruct (names_middle A B (x, n)) as [-> Hm]. rewrite bind_Ok. cbn [snd].
  rewrite (matchCol_spec _ _ n (length A) (counted_ok _ _ Hc)), bind_Ok by (done || apply Hok).
  unfold delete_col. cbn [sheet activeCol statusCol counted].
  destruct (table_delete f A (x, n) B (sheet p) Ht) as (sh & -> & Ht' & Hh & Hz). rewrite bind_Ok.
  pose proof Hc as [Hw Hact%act_strip Hst%status_strip Hsyn]. rewrite fmap_app, fmap_cons in Hact, Hst.
  destruct (strip_delete _ _ _ _ _ Hact) as (act & Ha & Hact'). rewrite length_fmap in Ha.
  destruct (strip_delete _ _ _ _ _ Hst) as (st & Hs & Hst'). rewrite length_fmap in Hs.
  rewrite Ha, bind_Ok, Hs, bind_Ok. rewrite <- fmap_app in Hact', Hst'.
  assert (NoDup (A ++ B).*2) as Hok'.
  { rewrite fmap_app in *. rewrite fmap_cons, <- Permutation_middle in Hok.
    by apply list.NoDup_cons in Hok as [_ ?]. }
  unfold width_of. cbn [sheet with_cols]. destruct Ht' as [Hok1 Hw1 Hr1].
  assert (exists p1, (if w (s sh) =? 0
      then '(_, sh0) ← CsvS.lift (fun t => Typed.deleteData t 0) sh;
           Ok (with_sheet_at (with_cols (counted p) sh act st) sh0 (-1))
      else Ok (with_cols (counted p) sh act st)) = Ok p1 /\ cols_ok (A ++ B).*2 p1 /\
    table f (A ++ B) (sheet p1) /\ zero (s (sheet p1)) = zero (s sh) /\
    (A ++ B <> [] -> h (s (sheet p1)) = h (s sh))) as (p1 & -> & Hc1 & Ht1 & Hz1 & Hh1).
  { destruct (Z.eqb_spec (w (s sh)) 0) as [E|E].
    - unfold CsvS.lift, Typed.deleteData. rewrite deleteData_all, bind_Ok
        by (done || (destruct Hok1 as (-> & _); lia)). eexists. split; [reflexivity|].
      assert (A ++ B = []) as Enil by (destruct (A ++ B); [done|simpl in Hw1; lia]).
      split_and!; [| |done|done].
      + split; simpl; [by rewrite Enil, E|by apply act_strip|by apply status_strip|done].
      + split; simpl; [|by rewrite Enil, E|done]. split_and!; simpl; [done|lia|constructor].
    - eexists. split; [reflexivity|]. split_and!; [|by split|done|done].
      split; simpl; [by rewrite length_fmap|by apply act_strip|by apply status_strip|done]. }
  rewrite bind_Ok. destruct (updateCols_spec _ p1 Hc1 Hok') as (n2c & -> & Hg). rewrite bind_Ok.
  eexists. split; [reflexivity|]. split_and!; [by split|simpl; congruence|]. intros Hne. simpl.
  rewrite Hh1; congruence.
Qed.

Lemma col_after_spec p c (A B : named) q :
  indicesAfter c = (A ++ q :: B).*1 -> namesAfter c = (A ++ q :: B).*2 ->
  col_after p c (Zlen A) = match B with [] => Ok (-1) | b :: _ => matchCol p b.2 end.
Proof.
  intros Hi Hn. unfold col_after. rewrite Hi, Hn, length_fmap, length_app. destruct B as [|b B].
  - rewrite (proj2 (Z.eqb_eq _ _)) by (simpl; lia). done.
  - rewrite (proj2 (Z.eqb_neq _ _)) by (simpl; lia). cbn [negb].
    rewrite (rd_ok _ _ b.2), bind_Ok; [done|lia|].
    replace (Z.to_nat (Zlen A + 1)) with (S (length A)) by lia.
    rewrite list_lookup_fmap, lookup_app_r by lia. by replace (S (length A) - length A)%nat with 1%nat by lia.
Qed.

Lemma change_insert f A x n B p obj :
  shows f (A ++ B) p -> NoDup (A ++ (x, n) :: B).*1 -> NoDup (A ++ (x, n) :: B).*2 ->
  NoDup (A ++ B).*2 -> (forall y, f y (x, n) = zero (s (sheet p))) ->
  exists p', changeColumn p (OrderChange_ (A ++ B).*1 (A ++ B).*2 (A ++ (x, n) :: B).*1
      (A ++ (x, n) :: B).*2 x obj ORDER_CHANGE_INSERT) = Ok (true, p') /\
    shows f (A ++ (x, n) :: B) p' /\
    zero (s (sheet p')) = zero (s (sheet p)) /\ h (s (sheet p')) = h (s (sheet p)).
Proof.
  intros [[Hc Hi] Ht] Hnd Hok Hok0 Hf. unfold changeColumn. cbn [oc_mode namesAfter subject].
  rewrite (index_after _ A B x n) by done.
  destruct (names_middle A B (x, n)) as [-> _]. rewrite bind_Ok. cbn [snd].
  rewrite (col_after_spec _ _ A B (x, n)) by done.
  assert (match B with [] => Ok (-1) | b :: _ => matchCol (counted p) b.2 end =
          Ok (if bool_decide (B = []) then -1 else Zlen A)) as ->.
  { destruct B as [|b B]; [done|]. rewrite bool_decide_false by done.
    apply (matchCol_spec _ (A ++ b :: B).*2); [by apply counted_ok|apply Hok0|apply names_middle]. }
  rewrite bind_Ok. unfold insert_col. cbn [sheet activeCol statusCol counted].
  destruct (table_insert f A (x, n) B (sheet p) Ht Hf) as (sh & -> & Ht' & Hh & Hz). rewrite bind_Ok.
  pose proof Hc as [Hw Hact%act_strip Hst%status_strip Hsyn]. rewrite fmap_app in Hact, Hst.
  assert (bool_decide (B.*2 = []) = bool_decide (B = [])) as Eb.
  { apply bool_decide_ext. split; [apply fmap_nil_inv|by intros ->]. }
  destruct (strip_insert is_name A.*2 n B.*2 _ n Hact) as (a1 & act & Ha1 & Ha2 & Hact'); [done|].
  destruct (strip_insert not_dashes A.*2 n B.*2 _ (cstr "+++") Hst) as (s1 & st & Hs1 & Hs2 & Hst').
  { intros b. unfold not_dashes. simpl. done. }
  rewrite Eb, length_fmap in *. rewrite Ha1, bind_Ok, Hs1, bind_Ok, Ha2, bind_Ok, Hs2, bind_Ok.
  destruct (updateCols_spec (A ++ (x, n) :: B).*2 (with_cols (counted p) sh act st)) as (n2c & -> & Hg);
    [|done|].
  { pose proof (tab_width _ _ _ Ht') as Hw'. rewrite fmap_app, fmap_cons.
    split; simpl; [|by apply act_strip|by apply status_strip|done].
    rewrite Hw', !length_app. cbn [length]. by rewrite !length_fmap. }
  rewrite bind_Ok. eexists. split; [rewrite Z.geb_leb, (proj2 (Z.leb_le _ _)) by lia; reflexivity|].
  by split_and!.
Qed.

Lemma lookup_around {X} (A B : list X) q k b :
  (A ++ B) !! k = Some b ->
  (A ++ q :: B) !! (if bool_decide (k < length A)%nat then k else S k) = Some b.
Proof.
  intros Hb. case_bool_decide as Hk.
  - by rewrite lookup_app_l in Hb |- * by done.
  - rewrite lookup_app_r in Hb |- * by lia. by replace (S k - length A)%nat with (S (k - length A)) by lia.
Qed.

Lemma change_move f A x n B A' B' p obj :
  shows f (A ++ (x, n) :: B) p -> NoDup (A ++ (x, n) :: B).*1 -> NoDup (A ++ (x, n) :: B).*2 ->
  A ++ B = A' ++ B' ->
  exists p', changeColumn p (OrderChange_ (A ++ (x, n) :: B).*1 (A ++ (x, n) :: B).*2
      (A' ++ (x, n) :: B').*1 (A' ++ (x, n) :: B').*2 x obj ORDER_CHANGE_MOVE) = Ok (true, p') /\
    shows f (A' ++ (x, n) :: B') p' /\
    zero (s (sheet p')) = zero (s (sheet p)) /\ h (s (sheet p')) = h (s (sheet p)).
Proof.
  intros [[Hc Hi] Ht] Hnd Hok E. unfold changeColumn. cbn [oc_mode namesAfter subject].
  assert (A' ++ (x, n) :: B' ≡ₚ A ++ (x, n) :: B) as Hperm
    by (by rewrite <- !Permutation_middle, E).
  assert (NoDup (A' ++ (x, n) :: B').*1) as Hnd' by (by rewrite Hperm).
  assert (NoDup (A' ++ (x, n) :: B').*2) as Hok' by (by rewrite Hperm).
  rewrite (index_after _ A' B' x n) by done.
  destruct (names_middle A' B' (x, n)) as [-> _]. rewrite bind_Ok. cbn [snd].
  rewrite (matchCol_spec _ _ n (length A) (counted_ok _ _ Hc)), bind_Ok
    by (apply Hok || apply (names_middle A B (x, n))).
  rewrite (col_after_spec _ _ A' B' (x, n)) by done.
  assert (match B' with [] => Ok (-1) | b :: _ => matchCol (counted p) b.2 end =
          Ok (move_base A A' B')) as ->.
  { destruct B' as [|b B']; [done|]. unfold move_base. rewrite bool_decide_false by done.
    assert ((A ++ B) !! length A' = Some b) as Hb by (rewrite E; by apply list_lookup_middle).
    apply (lookup_around _ _ (x, n)) in Hb. apply (f_equal (fmap snd)) in Hb.
    rewrite <- list_lookup_fmap in Hb.
    rewrite (matchCol_spec _ _ _ _ (counted_ok _ _ Hc) Hok Hb).
    case_bool_decide; f_equal; lia. }
  rewrite bind_Ok. unfold patch_moveColumn. cbn [sheet activeCol statusCol counted].
  destruct (table_move f A (x, n) B A' B' (sheet p) Ht E) as (sh & -> & Ht' & Hh & Hz). rewrite bind_Ok.
  pose proof Hc as [Hw Hact%act_strip Hst%status_strip Hsyn]. rewrite fmap_app, fmap_cons in Hact, Hst.
  assert (A.*2 ++ B.*2 = A'.*2 ++ B'.*2) as E2 by (by rewrite <- !fmap_app, E).
  destruct (strip_move _ _ _ _ _ _ _ Hact E2) as (act & Ha & Hact').
  destruct (strip_move _ _ _ _ _ _ _ Hst E2) as (st & Hs & Hst').
  unfold move_base in Ha, Hs. rewrite !length_fmap in Ha, Hs. fold (move_base A A' B') in Ha, Hs.
  rewrite Ha, bind_Ok, Hs, bind_Ok.
  destruct (updateCols_spec (A' ++ (x, n) :: B').*2 (with_cols (counted p) sh act st))
    as (n2c & -> & Hg); [|done|].
  { pose proof (tab_width _ _ _ Ht') as Hw'. rewrite fmap_app, fmap_cons.
    split; simpl; [|by apply act_strip|by apply status_strip|done].
    rewrite Hw', !length_app. cbn [length]. by rewrite !length_fmap. }
  rewrite bind_Ok. eexists. split; [rewrite Z.geb_leb, (proj2 (Z.leb_le _ _)) by lia; reflexivity|].
  by split_and!.
Qed.

Lemma apply_events_app p es es' :
  apply_events p (es ++ es') = (p ← apply_events p es; apply_events p es').
Proof.
  revert p. induction es as [|e es IH]; intros p; [done|]. simpl.
  destruct (apply_event p e) as [p'|]; simpl; [apply IH|done].
Qed.

Lemma updateCols_frame p p' :
  updateCols p = Ok p' -> declaredNames p' = declaredNames p /\ activeRow p' = activeRow p.
Proof. unfold updateCols. intros H. res_inv. done. Qed.

(** A column change leaves the marks of the rows alone. *)
Lemma changeColumn_frame p c b p' :
  changeColumn p c = Ok (b, p') -> declaredNames p' = declaredNames p /\ activeRow p' = activeRow p.
Proof.
  unfold changeColumn, delete_col, insert_col, patch_moveColumn, renameColumn.
  destruct (oc_mode c); intros H;
    repeat first [progress res_inv | case_match | progress simplify_eq/=
                 |match goal with
                  | H : updateCols _ = Ok _ |- _ => apply updateCols_frame in H as [-> ->]
                  end]; done.
Qed.

Lemma edit_applied f md x obj P1 P2 p :
  edit md x P1 P2 -> md <> ORDER_CHANGE_RENAME -> shows f P1 p -> NoDup P1.*1 -> NoDup P1.*2 ->
  (forall y x n, x < 0 -> f y (x, n) = zero (s (sheet p))) ->
  exists p', changeColumn p (OrderChange_ P1.*1 P1.*2 P2.*1 P2.*2 x obj md) = Ok (true, p') /\
    shows f P2 p' /\ NoDup P2.*1 /\ NoDup P2.*2 /\ zero (s (sheet p')) = zero (s (sheet p)) /\
    (P2 <> [] -> h (s (sheet p')) = h (s (sheet p))).
Proof.
  intros He Hmd Hs H1 H2 Hz. destruct He as [A B x n|A B x n Hneg Hx Hn|A B A' B' x n E|].
  - destruct (change_delete f A x n B p obj) as (p' & -> & Hs' & Hz' & Hh); try done.
    exists p'. rewrite fmap_app, fmap_cons, <- Permutation_middle in H1.
    rewrite fmap_app, fmap_cons, <- Permutation_middle in H2.
    apply list.NoDup_cons in H1 as [_ H1]. apply list.NoDup_cons in H2 as [_ H2].
    rewrite fmap_app. by rewrite fmap_app.
  - assert (NoDup (A ++ (x, n) :: B).*1 /\ NoDup (A ++ (x, n) :: B).*2) as [H1' H2'].
    { rewrite (fmap_app fst), (fmap_app snd), !fmap_cons, <- !Permutation_middle.
      rewrite !list.NoDup_cons, <- !fmap_app. auto. }
    destruct (change_insert f A x n B p obj) as (p' & -> & Hs' & Hz' & Hh); try done; [auto|].
    exists p'. by split_and!.
  - assert (A' ++ (x, n) :: B' ≡ₚ A ++ (x, n) :: B) as Hperm
      by (by rewrite <- !Permutation_middle, E).
    destruct (change_move f A x n B A' B' p obj) as (p' & -> & Hs' & Hz' & Hh); try done.
    exists p'. split_and!; try done; by rewrite Hperm.
  - done.
Qed.

(** The changes of a chain without renamings, one after the other. *)
Lemma chain_applied f z l P P' p :
  col_chain l P P' -> shows f P p -> NoDup P.*1 -> NoDup P.*2 -> zero (s (sheet p)) = z ->
  (forall y x n, x < 0 -> f y (x, n) = z) -> Forall (fun c => oc_mode c <> ORDER_CHANGE_RENAME) l ->
  exists p', apply_events p (ChangeColumn <$> l) = Ok p' /\ shows f P' p' /\ NoDup P'.*1 /\
    NoDup P'.*2 /\ zero (s (sheet p')) = z /\ declaredNames p' = declaredNames p /\
    activeRow p' = activeRow p /\
    (Forall (fun c => indicesAfter c <> []) l -> h (s (sheet p')) = h (s (sheet p))).
Proof.
  intros Hch Hs H1 H2 Hz Hf. induction Hch as [P|l P P1 P2 x obj md Hch IH He]; intros Hm.
  { exists p. by split_and!. }
  apply Forall_app in Hm as [Hm Hmd]. inversion_clear Hmd as [|? ? Hmode _].
  destruct IH as (p1 & Hp1 & Hs1 & Hn1 & Hn2 & Hz1 & Hd1 & Hr1 & Hh1); try done.
  rewrite fmap_app, apply_events_app, Hp1, bind_Ok.
  destruct (edit_applied f md x obj P1 P2 p1 He Hmode Hs1 Hn1 Hn2) as
    (p2 & Hp2 & Hs2 & Hm1 & Hm2 & Hz2 & Hh2); [by rewrite Hz1|].
  destruct (changeColumn_frame _ _ _ _ Hp2) as [Hd2 Hr2]. exists p2.
  split; [cbn; by rewrite Hp2|]. split_and!; try congruence.
  intros [Hl Hne]%Forall_app. inversion_clear Hne as [|? ? Hne' _]. simpl in Hne'.
  rewrite Hh2, Hh1; [done|done|]. by intros ->.
Qed.

(** ** Row changes *)

(** The cells of a change, by column. *)
Definition by_column (m : txt2cell) (P : named) : list (option pcell) := (fun q => m !! q.2) <$> P.

Lemma fill_spec p names l v ct :
  indexed names (name2col p) -> NoDup names -> cstr "---" ∉ names -> NoDup l.*1 ->
  length v = length names ->
  exists ct', fill p l v ct =
    Ok (zip_with (fun n o => match (list_to_map l : txt2cell) !! n with Some c => Some c | None => o end)
          names v, ct') /\ ct <= ct'.
Proof.
  intros Hi Hnd Hdash. revert v ct. induction l as [|[n c] l IH]; intros v ct Hl Hv; cbn [fill].
  { exists ct. split; [|lia]. do 2 f_equal. apply list_eq. intros i.
    rewrite lookup_zip_with. destruct (names !! i) as [n|] eqn:En; simpl.
    - destruct (v !! i) eqn:Ev; [|done]. simpl. by rewrite lookup_empty.
    - apply lookup_ge_None in En. apply lookup_ge_None. lia. }
  rewrite fmap_cons in Hl. apply list.NoDup_cons in Hl as [Hn Hl]. cbn [fst] in Hn.
  rewrite list_to_map_cons. destruct (name2col p !! n) as [idx|] eqn:E.
  - apply Hi in E as (H0 & Hidx & _). pose proof (lookup_lt_Some _ _ _ Hidx) as Hlt.
    rewrite wr_ok, bind_Ok by lia.
    destruct (IH (<[Z.to_nat idx := Some c]> v) (ct + 1) Hl) as (ct' & -> & Hct); [by rewrite length_insert|].
    exists ct'. split; [|lia]. do 2 f_equal. apply list_eq. intros i. rewrite !lookup_zip_with.
    destruct (names !! i) as [n'|] eqn:En; [|done]. cbn [mbind option_bind].
    destruct (decide (i = Z.to_nat idx)) as [->|Hne].
    + assert (n' = n) as -> by congruence. rewrite list_lookup_insert_eq by lia.
      destruct (lookup_lt_is_Some_2 v (Z.to_nat idx)) as [o ->]; [lia|]. cbn.
      rewrite lookup_insert_eq, not_elem_of_list_to_map_1 by done. done.
    + rewrite list_lookup_insert_ne by done. destruct (v !! i); [|done]. cbn.
      rewrite lookup_insert_ne; [done|]. intros ->. apply Hne.
      by apply (NoDup_lookup names i (Z.to_nat idx) n').
  - destruct (IH v ct Hl Hv) as (ct' & -> & Hct). exists ct'. split; [|done]. do 2 f_equal.
    apply list_eq. intros i. rewrite !lookup_zip_with.
    destruct (names !! i) as [n'|] eqn:En; [|done]. destruct (v !! i); [|done]. cbn.
    rewrite lookup_insert_ne; [done|]. intros <-.
    assert (name2col p !! n = Some (Z.of_nat i)) as E2; [|congruence].
    apply Hi. rewrite Nat2Z.id. split_and!; [lia|done|]. intros ->.
    by apply Hdash, (list_elem_of_lookup_2 _ i).
Qed.

Lemma fill_entries p P m :
  indexed P.*2 (name2col p) -> NoDup P.*2 -> cstr "---" ∉ P.*2 ->
  exists ct, fill p (entries m) (replicate (length P) None) 0 = Ok (by_column m P, ct).
Proof.
  intros Hi Hnd Hdash. assert (entries m ≡ₚ map_to_list m) as Hp by apply merge_sort_Permutation.
  assert (NoDup (entries m).*1) as Hk by (rewrite Hp; apply NoDup_fst_map_to_list).
  destruct (fill_spec p P.*2 (entries m) (replicate (length P) None) 0 Hi Hnd Hdash Hk) as (ct & -> & _).
  { by rewrite length_replicate, length_fmap. }
  exists ct. do 2 f_equal. rewrite (list_to_map_proper _ _ Hk Hp), list_to_map_to_list.
  apply list_eq. intros i. unfold by_column. rewrite lookup_zip_with, !list_lookup_fmap.
  destruct (P !! i) as [q|] eqn:Eq; [|done]. apply lookup_lt_Some in Eq. cbn.
  rewrite lookup_replicate_2 by done. cbn. by destruct (m !! q.2).
Qed.

(** Whether a row of the table fulfils the conditions. *)
Definition fulfils (f : nat -> Z * list Z -> pcell) (m : txt2cell) (P : named) (y : nat) : Prop :=
  Forall (fun q => forall v, m !! q.2 = Some v -> f y q = v) P.
#[export] Instance fulfils_dec f m P y : Decision (fulfils f m P y).
Proof.
  apply Forall_dec. intros q. destruct (m !! q.2) as [v|].
  - destruct (decide (f y q = v)) as [E|E]; [left; congruence|right; intros H; by apply E, H].
  - left. done.
Defined.

Lemma row_matches_spec f m P sh y pre rest :
  table f P sh -> P = pre ++ rest -> 0 <= y < h (s sh) ->
  row_matches sh y (Zlen pre) (by_column m rest) = Ok (bool_decide (fulfils f m rest (Z.to_nat y))).
Proof.
  intros Ht HP Hy. revert pre HP. induction rest as [|q rest IH]; intros pre HP; [done|].
  cbn [by_column fmap list_fmap row_matches]. fold (by_column m rest).
  specialize (IH (pre ++ [q])). rewrite length_app, Nat2Z.inj_add in IH.
  change (Zlen [q]) with 1 in IH.
  rewrite <- app_assoc in IH. specialize (IH HP).
  destruct (m !! q.2) as [v|] eqn:Em.
  - rewrite (table_cell f P sh (length pre) q), bind_Ok
      by (done || by rewrite HP, list_lookup_middle).
    destruct (bool_decide_reflect (f (Z.to_nat y) q = v)) as [E|E].
    + rewrite IH. f_equal. apply bool_decide_ext. unfold fulfils. rewrite Forall_cons_iff.
      split; [|tauto]. intros H. split; [|done]. intros v' [= <-]%(eq_trans (eq_sym Em)). done.
    + rewrite bool_decide_false; [done|]. unfold fulfils. rewrite Forall_cons_iff. intros [H _].
      by apply E, H.
  - rewrite IH. f_equal. apply bool_decide_ext. unfold fulfils. rewrite Forall_cons_iff.
    split; [|tauto]. intros H. split; [|done]. by intros v [=]%(eq_trans (eq_sym Em)).
Qed.

(** No row is marked as deleted. *)
Definition unmarked (p : patcher) : Prop :=
  forall y, 0 <= y < h (s (sheet p)) ->
  exists t, cell_text (activeRow p) 0 y = Ok t /\ t <> cstr "---".

Lemma match_rows_spec f m P p k i n :
  table f P (sheet p) -> unmarked p -> (i + n)%nat = Z.to_nat (h (s (sheet p))) -> (i <= k)%nat ->
  (k < i + n)%nat -> fulfils f m P k ->
  (forall j, (i <= j < k)%nat -> ~ fulfils f m P j) ->
  match_rows p (by_column m P) (Z.of_nat i) n = Ok (Z.of_nat k).
Proof.
  intros Ht Hu. revert i. induction n as [|n IH]; intros i Hin Hik Hkn Hk Hj; [lia|].
  cbn [match_rows]. destruct (Hu (Z.of_nat i)) as (t & -> & Hne); [lia|]. rewrite bind_Ok.
  rewrite bool_decide_true by done.
  pose proof (row_matches_spec f m P (sheet p) (Z.of_nat i) [] P Ht eq_refl) as Hm.
  change (Zlen []) with 0 in Hm. rewrite Hm, bind_Ok, Nat2Z.id by lia. clear Hm.
  case_bool_decide as E.
  - destruct (decide (i = k)) as [->|]; [done|]. exfalso. apply (Hj i); [lia|done].
  - replace (Z.of_nat i + 1) with (Z.of_nat (S i)) by lia.
    assert (i <> k) by (by intros ->). apply IH; try lia; [done|]. intros j Hjk. apply Hj. lia.
Qed.

Lemma matchRow_spec f m P p k :
  table f P (sheet p) -> unmarked p -> (k < Z.to_nat (h (s (sheet p))))%nat -> fulfils f m P k ->
  (forall j, (j < k)%nat -> ~ fulfils f m P j) -> matchRow p (by_column m P) = Ok (Z.of_nat k).
Proof.
  intros Ht Hu Hk Hf Hj. apply (match_rows_spec f m P p k 0); try done; [lia|].
  intros j [_ ?]. by apply Hj.
Qed.

(** Setting the values of a row. *)
Lemma mark_values_spec p sh r row c vals :
  arr (s sh) !! r = Some row -> (c + length vals = length row)%nat ->
  (forall x, (x < length row)%nat -> exists t, cell_text (statusCol p) (Z.of_nat x) 0 = Ok t) ->
  (exists t, cell_text (activeRow p) 0 (Z.of_nat r) = Ok t) ->
  mark_values p sh (Z.of_nat r) (Z.of_nat c) vals =
  Ok (CsvSheet_ (TypedSheet_
        (<[r := take c row ++ zip_with (fun o x => default x o) vals (drop c row)]> (arr (s sh)))
        (h (s sh)) (w (s sh)) (zero (s sh))) (rec sh) (th sh) (tw sh) (valid sh)).
Proof.
  intros Hrow Hlen Hst [ta Hact]. revert sh row c Hrow Hlen Hst.
  induction vals as [|o vals IH]; intros sh row c Hrow Hlen Hst; cbn [mark_values].
  { rewrite firstn_all2 by (simpl in Hlen; lia). cbn. rewrite app_nil_r, list_insert_id by done.
    by destruct sh as [[]]. }
  cbn [length] in Hlen. destruct (lookup_lt_is_Some_2 row c) as [x Hx]; [lia|].
  rewrite (drop_S _ _ _ Hx). cbn [zip_with]. replace (Z.of_nat c + 1) with (Z.of_nat (S c)) by lia.
  destruct o as [v|].
  - destruct (Hst c) as [t ->]; [lia|]. rewrite bind_Ok, Hact, bind_Ok.
    unfold CsvS.set_cellString, Typed.set_cell.
    rewrite (rd_ok _ _ row), bind_Ok by (lia || by rewrite Nat2Z.id).
    rewrite wr_ok, bind_Ok, Nat2Z.id by (unfold pcell in *; lia).
    apply lookup_lt_Some in Hrow as Hr. rewrite wr_ok, bind_Ok, Nat2Z.id by lia. rewrite bind_Ok.
    rewrite <- surjective_pairing, bind_Ok, (IH _ (<[c := v]> row)).
    + cbn [arr s h w zero]. rewrite list_insert_insert_eq. do 4 f_equal.
      rewrite drop_insert_lt by lia. rewrite (take_S_r _ _ v) by (apply list_lookup_insert_eq; lia).
      rewrite take_insert_ge by lia. by rewrite <- app_assoc.
    + cbn [arr s]. apply list_lookup_insert_eq. lia.
    + rewrite length_insert. lia.
    + intros y. rewrite length_insert. apply Hst.
  - rewrite (IH sh row) by (done || lia). do 4 f_equal. cbn [default].
    rewrite (take_S_r _ _ x) by done. by rewrite <- app_assoc.
Qed.

(** The table after the values of a change have been set in row [k]. *)
Definition patched (f : nat -> Z * list Z -> pcell) (m : txt2cell) (k y : nat) (q : Z * list Z) : pcell :=
  if decide (y = k) then default (f y q) (m !! q.2) else f y q.

Lemma markChanges_spec f m P p k :
  shows f P p -> P <> [] -> unmarked p -> (k < Z.to_nat (h (s (sheet p))))%nat ->
  exists sh, markChanges p (Z.of_nat k) (by_column m P) = Ok sh /\ table (patched f m k) P sh /\
    same_height (sheet p) sh.
Proof.
  intros [[Hc _] Ht] HP Hu Hk. pose proof Ht as [(Hh & Hw0 & Hf) Hw Hr]. unfold markChanges.
  destruct P as [|q0 P0] eqn:EP; [done|]. rewrite <- EP in *.
  unfold cell_text at 1. rewrite (table_cell f P (sheet p) 0 q0), !bind_Ok
    by (done || lia || by rewrite EP).
  destruct (lookup_lt_is_Some_2 (arr (s (sheet p))) k) as [row Hrow]; [lia|].
  pose proof (Hr _ _ Hrow) as Erow. assert (length row = length P) as El by (by rewrite Erow, length_fmap).
  destruct Hc as [_ _ (st & Hst & Hsl & _) _].
  pose proof (mark_values_spec p (sheet p) k row 0 (by_column m P) Hrow) as Hm.
  change (Z.of_nat 0) with 0 in Hm. rewrite Hm; clear Hm.
  - eexists. split; [reflexivity|]. split; [|done]. rewrite drop_0, take_0. cbn [app].
    assert (zip_with (fun o x => default x o) (by_column m P) row = patched f m k k <$> P) as ->.
    { rewrite Erow. unfold by_column. clear. induction P as [|q P IH]; [done|]. rewrite !fmap_cons.
      cbn [zip_with]. rewrite IH. unfold patched at 2. by rewrite decide_True. }
    assert (forall y r, <[k := patched f m k k <$> P]> (arr (s (sheet p))) !! y = Some r ->
      r = patched f m k y <$> P) as Hrows.
    { intros y r. destruct (decide (y = k)) as [->|Hne].
      - rewrite list_lookup_insert_eq by (apply lookup_lt_Some in Hrow; lia). by intros [= <-].
      - rewrite list_lookup_insert_ne by done. intros ->%Hr. apply list_fmap_ext. intros i q _.
        unfold patched. by rewrite decide_False. }
    split; cbn [s w arr]; [|done|done]. split_and!; cbn [arr h w]; [by rewrite length_insert|done|].
    apply Forall_lookup. intros y r Hy. by rewrite (Hrows _ _ Hy), length_fmap.
  - unfold by_column. rewrite length_fmap. lia.
  - intros x Hx. rewrite length_fmap in Hsl.
    destruct (lookup_lt_is_Some_2 st x) as [t Ht']; [lia|]. exists t.1. by apply (one_row_text _ st).
  - destruct (Hu (Z.of_nat k)) as (t & -> & _); [lia|]. eauto.
Qed.

(** A state in which a row change can be applied: [activeRow] is going to be
    replaced or marks no row as deleted. *)
Definition row_ready (p : patcher) : Prop :=
  h (s (activeRow p)) = h (s (sheet p)) -> w (s (activeRow p)) = 1 -> unmarked p.

Lemma iter_addField j c :
  arr (s (Nat.iter j (fun c => CsvS.addField c [] true) c)) = arr (s c) /\
  rec (Nat.iter j (fun c => CsvS.addField c [] true) c) = rec c ++ replicate j ([], true).
Proof.
  induction j as [|j [IH1 IH2]]; [by rewrite app_nil_r|]. rewrite Nat.iter_succ.
  unfold CsvS.addField at 1 3. cbn [s rec]. split; [exact IH1|]. rewrite IH2.
  by rewrite replicate_S_end, app_assoc.
Qed.

Lemma csv_resize_table c nw nh :
  0 <= nw -> 0 <= nh ->
  table (fun _ x => x) (replicate (Z.to_nat nw) ([], true)) (CsvS.csv_resize c nw nh) /\
  h (s (CsvS.csv_resize c nw nh)) = nh.
Proof.
  intros Hw Hh. split; [|done]. unfold CsvS.csv_resize.
  set (row := replicate (Z.to_nat nw) ([], true)).
  set (c1 := Nat.iter (Z.to_nat nh) _ _).
  assert (arr (s c1) = replicate (Z.to_nat nh) row /\ rec c1 = []) as [Ha Hrec].
  { unfold c1. clear c1. induction (Z.to_nat nh) as [|n IH]; [done|]. rewrite Nat.iter_succ.
    destruct IH as [Ha Hr]. set (c0 := Nat.iter n _ _) in *. clearbody c0.
    destruct (iter_addField (Z.to_nat nw) c0) as [H1 H2]. unfold CsvS.addRecord. cbn [arr s rec].
    rewrite H1, H2, Ha, Hr. cbn [app]. by rewrite replicate_S_end. }
  split; cbn [s arr w h]; rewrite ?Ha.
  - split_and!; cbn [arr h w]; [rewrite length_replicate; lia|done|].
    apply Forall_replicate. unfold row. rewrite length_replicate. lia.
  - unfold row. rewrite length_replicate. lia.
  - intros y r Hy. apply lookup_replicate in Hy as [-> _]. by rewrite list_fmap_id.
Qed.

Lemma cols_ok_rows names p sh act cursor :
  cols_ok names p -> w (s sh) = w (s (sheet p)) -> cols_ok names (with_row p sh act cursor).
Proof. intros [] Hw. split; simpl; [congruence|done..]. Qed.

(** An update of the first row that fulfils its conditions. *)
Lemma changeRow_update f P p all c k :
  shows f P p -> P <> [] -> NoDup P.*2 -> cstr "---" ∉ P.*2 -> row_ready p -> declaredNames p = true ->
  mode c = ROW_CHANGE_UPDATE -> conflicted c = false ->
  (k < Z.to_nat (h (s (sheet p))))%nat -> fulfils f (cond c) P k ->
  (forall j, (j < k)%nat -> ~ fulfils f (cond c) P j) ->
  exists p', changeRow p true all c = Ok (true, p') /\ shows (patched f (val c) k) P p' /\
    row_ready p' /\ declaredNames p' = true /\ same_height (sheet p) (sheet p').
Proof.
  intros Hs HP Hnd Hdash Hready Hdecl Hmode Hconf Hk Hf Hj. unfold changeRow.
  rewrite Hdecl. cbn [negb]. rewrite bind_Ok, Hconf. unfold height_of, width_of.
  pose proof Hs as [[Hc Hi] Ht]. pose proof Ht as [(Hh & _) Hw _].
  set (p1 := if _ || _ then _ else p).
  assert (exists act, p1 = with_row p (sheet p) act (rowCursor p) /\ unmarked p1) as (act & Ep1 & Hu).
  { unfold p1. destruct (Z.eqb_spec (h (s (activeRow p))) (h (s (sheet p)))) as [E1|E1];
      [destruct (Z.eqb_spec (w (s (activeRow p))) 1) as [E2|E2]|]; cbn [negb orb].
    1: { exists (activeRow p). split; [by destruct p|by apply Hready]. }
    all: eexists; (split; [reflexivity|]); intros y Hy; simpl in *.
    all: destruct (csv_resize_table (activeRow p) 1 (h (s (sheet p)))) as [Hta Hha]; [lia|lia|].
    all: exists []; split; [|done]; unfold cell_text.
    all: pose proof (table_cell _ _ _ 0 ([], true) y Hta eq_refl) as Hcell.
    all: change (Z.of_nat 0) with 0 in Hcell; by rewrite Hcell by lia. }
  clearbody p1. subst p1.
  assert (shows f P (with_row p (sheet p) act (rowCursor p))) as Hs1.
  { split; [split; [by apply cols_ok_rows|done]|done]. }
  set (p1 := with_row p (sheet p) act (rowCursor p)) in *.
  change (sheet p1) with (sheet p). rewrite Hw, Nat2Z.id.
  destruct (fill_entries p1 P (cond c) Hi Hnd Hdash) as (ct & ->). rewrite bind_Ok.
  destruct (fill_entries p1 P (val c) Hi Hnd Hdash) as (ct' & ->). rewrite bind_Ok.
  rewrite Hmode. unfold update_row.
  rewrite (matchRow_spec f (cond c) P p1 k Ht Hu Hk Hf Hj), bind_Ok.
  rewrite (proj2 (Z.ltb_ge _ _)) by lia.
  destruct (markChanges_spec f (val c) P p1 k Hs1 HP Hu Hk) as (sh & -> & Ht' & Hh' & Hz').
  rewrite !bind_Ok. eexists. split; [reflexivity|]. cbn [counted]. split_and!; [| |done|done].
  - split; [split|]; simpl; [|done|done]. pose proof (tab_width _ _ _ Ht') as Hw'.
    destruct Hc as [Hcw Hca Hcs Hcy]. split; simpl; [congruence|done|done|done].
  - intros _ _ y Hy. apply (Hu y). simpl in *. congruence.
Qed.

(** The names that a patch declares are those the sheet has. *)
Lemma add_synonyms_same p row i rest :
  one_row (activeCol p) row -> drop i row.*1 = rest -> add_synonyms p (Z.of_nat i) rest = Ok p.
Proof.
  intros Hr. revert i. induction rest as [|n rest IH]; intros i Hd; [done|]. cbn [add_synonyms].
  assert (row.*1 !! i = Some n) as Hn.
  { rewrite <- (Nat.add_0_r i), <- lookup_drop, Hd. done. }
  apply fst_lookup in Hn as (x & Hx & <-). rewrite (one_row_text _ row _ x), bind_Ok by done.
  rewrite bool_decide_false by (by intros H). replace (Z.of_nat i + 1) with (Z.of_nat (S i)) by lia.
  apply IH. by rewrite <- Nat.add_1_r, <- drop_drop, Hd.
Qed.

Lemma move_to_names_same p row i rest :
  one_row (activeCol p) row -> drop i row.*1 = rest -> move_to_names p (Z.of_nat i) rest = Ok p.
Proof.
  intros Hr. revert i. induction rest as [|n rest IH]; intros i Hd; [done|]. cbn [move_to_names].
  assert (row.*1 !! i = Some n) as Hn.
  { rewrite <- (Nat.add_0_r i), <- lookup_drop, Hd. done. }
  apply fst_lookup in Hn as (x & Hx & <-). rewrite (one_row_text _ row _ x), bind_Ok by done.
  rewrite bool_decide_false by (by intros H). cbn [andb]. rewrite bind_Ok.
  replace (Z.of_nat i + 1) with (Z.of_nat (S i)) by lia.
  apply IH. by rewrite <- Nat.add_1_r, <- drop_drop, Hd.
Qed.

Lemma declareNames_same f P p :
  shows f P p -> NoDup P.*2 ->
  exists p', declareNames p P.*2 = Ok (true, p') /\ shows f P p' /\ declaredNames p' = true /\
    sheet p' = sheet p /\ activeRow p' = activeRow p.
Proof.
  intros [[Hc Hi] Ht] Hnd. unfold declareNames.
  set (p1 := Patcher_ _ _ _ _ _ _ _ _ _ true).
  assert (cols_ok P.*2 p1) as Hc1 by (destruct Hc; by split).
  pose proof Hc1 as [Hw (row & Hr & Hn) _ _]. unfold width_of. rewrite (proj2 (Z.eqb_eq _ _)) by done.
  cbn [negb].
  assert ((if negb (declaredNames p) then add_synonyms p1 0 P.*2 else move_to_names p1 0 P.*2) = Ok p1)
    as ->.
  { destruct (negb _); [apply (add_synonyms_same p1 row 0)|apply (move_to_names_same p1 row 0)]; done. }
  rewrite bind_Ok. destruct (updateCols_spec P.*2 p1 Hc1 Hnd) as (n2c & -> & Hg). rewrite bind_Ok.
  eexists. split; [reflexivity|]. by split_and!.
Qed.

(** ** The start *)

Lemma name_cols_spec suggest c row i n :
  one_row c row -> (i + n)%nat = length row ->
  exists c' row', name_cols c suggest (Z.of_nat i) n = Ok c' /\ one_row c' row' /\
    row'.*1 = take i row.*1 ++ (suggest <$> seqZ (Z.of_nat i) (Z.of_nat n)).
Proof.
  revert c row i. induction n as [|n IH]; intros c row i Hr Hi; cbn [name_cols].
  { exists c, row. split_and!; [done|done|]. rewrite app_nil_r, firstn_all2; [done|].
    rewrite fst_length. lia. }
  destruct (lookup_lt_is_Some_2 row i) as [x Hx]; [lia|].
  destruct (set_text_row c row i x (suggest (Z.of_nat i)) Hr Hx) as (c1 & -> & Hr1 & _).
  rewrite bind_Ok. replace (Z.of_nat i + 1) with (Z.of_nat (S i)) by lia.
  destruct (IH c1 _ (S i) Hr1) as (c2 & row2 & -> & Hr2 & E); [rewrite length_insert; lia|].
  exists c2, row2. split_and!; [done|done|]. rewrite E, list_fmap_insert.
  rewrite (take_S_r _ _ (suggest (Z.of_nat i)))
    by (apply list_lookup_insert_eq; rewrite fst_length; lia).
  rewrite take_insert_ge, <- app_assoc by lia. f_equal. cbn [app].
  rewrite (seqZ_cons (Z.of_nat i)) by lia. rewrite fmap_cons. do 3 f_equal; lia.
Qed.

Lemma mergeStart_spec f sh suggest :
  let P := (fun i => (i, suggest i)) <$> seqZ 0 (w (s sh)) in
  table f P sh -> NoDup P.*2 ->
  exists p, mergeStart sh suggest = Ok p /\ shows f P p /\ sheet p = sh /\ declaredNames p = false /\
    row_ready p.
Proof.
  intros P Ht Hnd. pose proof Ht as [(Hh & Hw0 & _) Hw _]. unfold mergeStart, width_of.
  destruct (csv_resize_table CsvS.create (w (s sh)) 1) as [Hta Hha]; [done|lia|].
  set (act0 := CsvS.csv_resize CsvS.create (w (s sh)) 1) in *.
  set (row0 := replicate (Z.to_nat (w (s sh))) ([], true)) in *.
  assert (length row0 = Z.to_nat (w (s sh))) as Hl0 by apply length_replicate.
  destruct (name_cols_spec suggest act0 row0 0 (Z.to_nat (w (s sh)))) as (act & row & Ha & Hr & E);
    [by split|done|].
  change (Z.of_nat 0) with 0 in *. rewrite Ha, bind_Ok. rewrite take_0, Z2Nat.id in E by done.
  cbn [app] in E.
  assert (row.*1 = P.*2) as E2 by (rewrite E; unfold P; by rewrite <- list_fmap_compose).
  set (p0 := Patcher_ _ _ _ _ _ _ _ _ _ _).
  destruct (updateCols_spec P.*2 p0) as (n2c & -> & Hg); [|done|].
  { split; simpl; [by rewrite length_fmap|by exists row| |done].
    exists row0. split; [by split|]. split; [rewrite length_fmap; unfold pcell in *; lia|]. by apply Forall_replicate. }
  eexists. split; [reflexivity|]. split_and!; [by split|done|done|].
  intros E0 _ y Hy. simpl in *.
  destruct (csv_resize_table CsvS.create 1 0) as [_ Hh0]; lia.
Qed.
