(* ===== verification/PatchRoundtrip.v ===== *)
(** * Comparing and patching: the round trip

    The composition of [Merger] and [SheetPatcher]: the changes that a comparison
    of two sheets sends for columns that come and go and for rows that are updated
    in place, applied to the local sheet, make it the remote sheet, under the
    conditions of [diff_patch_roundtrip]; the last section has inputs on which the
    patcher goes wrong. *)

From stdpp Require Import gmap sorting.
From S2P Require Import Prelude Sheet SheetSpec CsvFile Viterbi OrderMerge OrderMergeSpec Mover.
From S2P Require Import MoverSpec Merger MergerSpec SheetPatcher SheetPatcherSpec SnifferSpec.
#[local] Open Scope Z_scope.
#[local] Arguments cstr s%_string.

(** ** The chain of column changes *)

(** A local column that is still there at the end was there all the time. *)
Lemma edit_member md x P P' i : edit md x P P' -> 0 <= i -> i ∈ P'.*1 -> i ∈ P.*1.
Proof.
  intros He Hi. destruct He as [A B x n|A B x n Hneg _ _|A B A' B' x n E|A B x n n'].
  - rewrite !fmap_app, fmap_cons, !elem_of_app, elem_of_cons. tauto.
  - rewrite !fmap_app, fmap_cons, !elem_of_app, elem_of_cons. cbn [fst]. intros [?|[->|?]]; auto. lia.
  - assert (A' ++ (x, n) :: B' ≡ₚ A ++ (x, n) :: B) as ->; [|done].
    by rewrite <- !Permutation_middle, E.
  - by rewrite !fmap_app, !fmap_cons.
Qed.

Lemma chain_start l P P' i : col_chain l P P' -> 0 <= i -> i ∈ P'.*1 -> i ∈ P.*1.
Proof.
  intros Hch Hi. induction Hch as [|l P P1 P2 x obj md Hch IH He]; [done|]. intros Hin.
  apply IH. by apply (edit_member md x P1 P2).
Qed.

Lemma chain_member l P P' i :
  col_chain l P P' -> 0 <= i -> i ∈ P'.*1 -> Forall (fun c => indicesAfter c <> []) l.
Proof.
  intros Hch Hi. induction Hch as [|l P P1 P2 x obj md Hch IH He]; intros Hin; [constructor|].
  apply Forall_app. split; [apply IH; by apply (edit_member md x P1 P2)|].
  constructor; [|constructor]. simpl. intros E. rewrite E in Hin. by apply not_elem_of_nil in Hin.
Qed.

(** Without the last pass no column is renamed. *)
Definition no_rename (c : columns) : Prop :=
  Forall (fun ch => oc_mode ch <> ORDER_CHANGE_RENAME) (cc c).

Lemma no_rename_changed c cs ns x y md :
  no_rename c -> md <> ORDER_CHANGE_RENAME -> no_rename (changed c cs ns x y md).
Proof. intros H Hmd. apply Forall_app. split; [done|]. by constructor. Qed.

Lemma delete_columns_no_rename indexes us c ci gone c' ci' gone' :
  delete_columns indexes us (c, ci, gone) = Ok (c', ci', gone') -> no_rename c -> no_rename c'.
Proof.
  revert c ci gone. induction us as [|u us IH]; intros c ci gone H Hc; cbn [delete_columns] in H.
  { by injection H as -> _ _. }
  apply bind_Ok_inv in H as ([[c1 ci1] gone1] & H1 & H). apply (IH _ _ _ H).
  unfold delete_column in H1. destruct (_ && _); [|by simplify_eq]. res_inv.
  apply no_rename_changed; done.
Qed.

Lemma move_columns_no_rename shuffled l c c' :
  move_columns shuffled l c = Ok c' -> no_rename c -> no_rename c'.
Proof.
  revert c. induction l as [|a l IH]; intros c H Hc; cbn [move_columns] in H; [by simplify_eq|].
  apply bind_Ok_inv in H as (c1 & H1 & H). apply (IH _ H). unfold move_column in H1. res_inv.
  case_bool_decide; simplify_eq; [by apply no_rename_changed|done].
Qed.

Lemma insert_columns_no_rename remote_name us c k c' k' :
  insert_columns remote_name us (c, k) = Ok (c', k') -> no_rename c -> no_rename c'.
Proof.
  revert c k. induction us as [|u us IH]; intros c k H Hc; cbn [insert_columns] in H; [by simplify_eq|].
  apply bind_Ok_inv in H as ([c1 k1] & H1 & H). apply (IH _ _ H). unfold insert_column in H1.
  apply bind_Ok_inv in H1 as ([c2 k2] & H2 & H1). simplify_eq.
  destruct (_ && _ && _); [|by simplify_eq]. res_inv. by apply no_rename_changed.
Qed.

Lemma column_changes_no_rename flags local_name remote_name indexes us c c' ci gone :
  assume_header flags = false ->
  column_changes flags local_name remote_name indexes us c = Ok (c', ci, gone) ->
  no_rename c -> no_rename c'.
Proof.
  intros Hf H Hc. unfold column_changes in H. rewrite Hf in H.
  apply bind_Ok_inv in H as ([[c1 ci1] gone1] & H1 & H). apply bind_Ok_inv in H as (c2 & H2 & H).
  apply bind_Ok_inv in H as ([c3 k] & H3 & H). rewrite bind_Ok in H. simplify_eq.
  apply (insert_columns_no_rename _ _ _ _ _ _ H3). unfold shuffle_columns in H2.
  apply bind_Ok_inv in H2 as ([] & _ & H2). apply bind_Ok_inv in H2 as ([[b mo] mv] & _ & H2).
  apply (move_columns_no_rename _ _ _ _ H2). by apply (delete_columns_no_rename _ _ _ _ _ _ _ _ H1).
Qed.

(** A property of the names that the passes keep: the local names and the names of
    new columns have it, and a name keeps it when an underscore is added. *)
Section NamesKept.
Context (N : list Z -> Prop) (HN : forall n, N n -> N (n ++ cstr "_")).

Lemma vec_erase_Forall {A} (Q : A -> Prop) v i v' : vec_erase v i = Ok v' -> Forall Q v -> Forall Q v'.
Proof using Type.
  unfold vec_erase. destruct (_ && _); intros H Hv; simplify_eq.
  apply Forall_app. split; [by apply Forall_take|by apply Forall_drop].
Qed.
Lemma vec_insert_Forall {A} (Q : A -> Prop) v i x v' :
  vec_insert v i x = Ok v' -> Forall Q v -> Q x -> Forall Q v'.
Proof using Type.
  unfold vec_insert. destruct (_ && _); intros H Hv Hx; simplify_eq.
  apply Forall_app. split; [by apply Forall_take|]. constructor; [done|by apply Forall_drop].
Qed.

Lemma delete_columns_names indexes us c ci gone c' ci' gone' :
  delete_columns indexes us (c, ci, gone) = Ok (c', ci', gone') ->
  Forall N (col_names c) -> (gone = true -> cols c = []) ->
  Forall N (col_names c') /\ (gone' = true -> cols c' = []).
Proof using Type.
  revert c ci gone. induction us as [|u us IH]; intros c ci gone H Hc Hg; cbn [delete_columns] in H.
  { by injection H as -> _ ->. }
  apply bind_Ok_inv in H as ([[c1 ci1] gone1] & H1 & H). apply (IH _ _ _ H);
    unfold delete_column in H1; (destruct (_ && _); [|by simplify_eq]);
    apply bind_Ok_inv in H1 as ([] & Hidx & H1); apply bind_Ok_inv in H1 as (n & _ & H1);
    apply bind_Ok_inv in H1 as (cs & Hcs & H1); apply bind_Ok_inv in H1 as (ns & Hns & H1);
    simplify_eq; cbn [col_names cols changed].
  - by apply (vec_erase_Forall _ _ _ _ Hns).
  - intros [E|E]%orb_true_iff; [|by apply bool_decide_eq_true in E].
    by rewrite (Hg E) in Hidx.
Qed.

Lemma move_columns_names shuffled l c c' :
  move_columns shuffled l c = Ok c' -> Forall N (col_names c) -> Forall N (col_names c').
Proof using Type.
  revert c. induction l as [|a l IH]; intros c H Hc; cbn [move_columns] in H; [by simplify_eq|].
  apply bind_Ok_inv in H as (c1 & H1 & H). apply (IH _ H). unfold move_column in H1.
  apply bind_Ok_inv in H1 as ([] & _ & H1). apply bind_Ok_inv in H1 as ([] & _ & H1).
  apply bind_Ok_inv in H1 as (cs & _ & H1). apply bind_Ok_inv in H1 as (n & Hn & H1).
  apply bind_Ok_inv in H1 as (ns & Hns & H1). apply bind_Ok_inv in H1 as (cs2 & _ & H1).
  apply bind_Ok_inv in H1 as (ns2 & Hns2 & H1). apply rd_Ok_inv in Hn as [_ Hn].
  assert (Forall N ns2) as Hgoal.
  { apply (vec_insert_Forall _ _ _ _ _ Hns2); [by apply (vec_erase_Forall _ _ _ _ Hns)|].
    by apply (Forall_lookup_1 _ _ _ _ Hc Hn). }
  case_bool_decide; by simplify_eq.
Qed.

Lemma avoid_collision_kept fuel others n n' : avoid_collision fuel others n = Ok n' -> N n -> N n'.
Proof using HN.
  revert n. induction fuel as [|fuel IH]; intros n H Hn; cbn [avoid_collision] in H;
    (case_bool_decide; [|by simplify_eq]); [done|]. by apply (IH _ H), HN.
Qed.

Lemma insert_columns_names remote_name us c k c' k' :
  insert_columns remote_name us (c, k) = Ok (c', k') -> Forall N (col_names c) ->
  Forall (fun u => N (bracketed (remote_name (remoteUnit u)))) us -> Forall N (col_names c').
Proof using HN.
  intros H Hc Hus. revert c k H Hc.
  induction Hus as [|u us Hu Hus IH]; intros c k H Hc; cbn [insert_columns] in H; [by simplify_eq|].
  apply bind_Ok_inv in H as ([c1 k1] & H1 & H). apply (IH _ _ H). unfold insert_column in H1.
  apply bind_Ok_inv in H1 as ([c2 k2] & H2 & H1). simplify_eq.
  destruct (_ && _ && _); [|by simplify_eq].
  apply bind_Ok_inv in H2 as (cs & _ & H2). apply bind_Ok_inv in H2 as (n & Hn & H2).
  apply bind_Ok_inv in H2 as (ns & Hns & H2). apply bind_Ok_inv in H2 as (x & _ & H2). simplify_eq.
  cbn [col_names changed]. apply (vec_insert_Forall _ _ _ _ _ Hns Hc). by apply (avoid_collision_kept _ _ _ _ Hn).
Qed.

Lemma column_changes_names flags local_name remote_name indexes us c c' ci gone :
  assume_header flags = false ->
  column_changes flags local_name remote_name indexes us c = Ok (c', ci, gone) ->
  Forall N (col_names c) -> Forall (fun u => N (bracketed (remote_name (remoteUnit u)))) us ->
  Forall N (col_names c') /\ (shuffled_cols us <> [] -> gone = false).
Proof using HN.
  intros Hf H Hc Hus. unfold column_changes in H. rewrite Hf in H.
  apply bind_Ok_inv in H as ([[c1 ci1] gone1] & H1 & H). apply bind_Ok_inv in H as (c2 & H2 & H).
  apply bind_Ok_inv in H as ([c3 k] & H3 & H). rewrite bind_Ok in H. simplify_eq.
  destruct (delete_columns_names _ _ _ _ _ _ _ _ H1 Hc) as [Hc1 Hg]; [done|].
  unfold shuffle_columns in H2. apply bind_Ok_inv in H2 as ([] & Hlen & H2).
  apply bind_Ok_inv in H2 as ([[b mo] mv] & _ & H2). split.
  - apply (insert_columns_names _ _ _ _ _ _ H3); [|done]. by apply (move_columns_names _ _ _ _ H2).
  - intros Hne. destruct gone; [|done]. rewrite (Hg eq_refl) in Hlen. by destruct (shuffled_cols us).
Qed.
End NamesKept.

(** The search for moves plans at most one move of a kept column. *)
Definition one_move (us : list MatchUnit) (width : Z) : Prop :=
  exists plan m, move (kept_cols us width) (shuffled_cols us) [] (Mover_ 0 false []) = Ok (true, plan, m) /\
    (length plan <= 1)%nat.

(** Kept columns that stay in their order need no move. *)
Lemma one_move_same us width : kept_cols us width = shuffled_cols us -> one_move us width.
Proof.
  intros E. unfold one_move, move. rewrite E. cbn [move_rec].
  exists [], (Mover_ 0 false []). split; [|simpl; lia]. cbn. by rewrite bool_decide_eq_true_2.
Qed.

(** No column of either sheet is called [---]. *)
Definition no_dashes (us : list MatchUnit) (local_name remote_name : Z -> list Z) (width : Z) : Prop :=
  (cstr "---" ∉ local_name <$> seqZ 0 width) /\
  Forall (fun u => remote_name (remoteUnit u) <> cstr "---") us.

Lemma dashes_longer (n : list Z) : n <> cstr "---" -> n ++ cstr "_" <> cstr "---".
Proof.
  intros _ E. apply (f_equal (@rev Z)) in E. rewrite rev_app_distr in E. vm_compute in E. done.
Qed.
Lemma dashes_bracketed (n : list Z) : n <> cstr "---" -> bracketed n <> cstr "---".
Proof. intros Hn. unfold bracketed. destruct (_ && _); [|done]. vm_compute. intros [=]. Qed.

(** With at most one move the passes over the columns end with the columns of the
    units, in their order. *)
Lemma columns_reached flags local_name remote_name indexes us width :
  assume_header flags = false -> Forall two_way us -> locals us ≡ₚ seqZ 0 width ->
  NoDup (local_name <$> seqZ 0 width) -> NoDup (merged_cols us) ->
  (exists v, v ∈ kept us /\ 0 <= localUnit v) -> one_move us width ->
  no_dashes us local_name remote_name width ->
  exists c ci, column_changes flags local_name remote_name indexes us
      (Columns (seqZ 0 width) (local_name <$> seqZ 0 width) []) = Ok (c, ci, false) /\
    cols c = merged_cols us /\ (cstr "---" ∉ col_names c).
Proof.
  intros Hhd Hus Hl Hnd Hndm (v & Hv & Hv0) (plan & m & Hm & Hlen) [Hd1 Hd2].
  destruct (column_passes flags local_name remote_name indexes us width Hus Hl Hnd Hndm)
    as (c & ci & gone & P & plan' & m' & Heq & (Hcols & _) & _ & _ & Hm' & Hone & _).
  rewrite Hm in Hm'. simplify_eq. rewrite Hhd, bind_Ok in Heq.
  destruct (column_changes_names (fun n => n <> cstr "---") dashes_longer _ _ _ _ _ _ _ _ _ Hhd Heq) as [H1 H2].
  { apply Forall_forall. intros n Hn ->. by apply list_elem_of_In in Hn. }
  { eapply Forall_impl; [|exact Hd2]. intros u Hu. by apply dashes_bracketed. }
  rewrite H2 in Heq.
  - exists c, ci. split_and!; [done|rewrite Hcols; by apply Hone|].
    intros Hin%list_elem_of_In. rewrite List.Forall_forall in H1. by apply (H1 _ Hin).
  - intros E. apply list_elem_of_filter in Hv as [Hk Hv]. apply (not_elem_of_nil (localUnit v)).
    rewrite <- E. apply list_elem_of_omap. exists v. split; [done|].
    by rewrite (proj2 (Z.eqb_neq _ _)), Hk by lia.
Qed.

(** ** Rows in order *)

(** The end of [mergeRow] for a row of both sheets that comes after the rows before
    it in both: at most an update is sent. *)
Lemma emit_in_order flags h m u cd a rc :
  0 <= localUnit u -> 0 <= remoteUnit u -> deleted u = false -> canUpdate flags = true ->
  had_foreign_row m = false -> bottom_local_row m <= localUnit u ->
  exists m', emit_changes flags h m u cd a rc =
      (rc ++ (if bool_decide (value a = ∅) then []
              else [RowChange_ ROW_CHANGE_UPDATE cd (value a) (conflicted_value a)
                      (conflicted_parent_value a) (names m) (conflict a) (pivotUnit u) (localUnit u)
                      (remoteUnit u)]), m') /\
    had_foreign_row m' = false /\ bottom_local_row m' = localUnit u /\ names m' = names m /\
    filtered_names m' = filtered_names m /\ exclude_column m' = exclude_column m /\ allGone m' = allGone m.
Proof.
  intros Hl Hr Hd Hc Hf Hb. unfold emit_changes. cbn beta zeta.
  set (m1 := if negb (last_local_row m =? -1) then _ else m).
  assert (had_foreign_row m1 = false /\ bottom_local_row m1 = bottom_local_row m /\ names m1 = names m /\
    filtered_names m1 = filtered_names m /\ exclude_column m1 = exclude_column m /\
    allGone m1 = allGone m) as (F1 & F2 & F3 & F4 & F5 & F6) by (unfold m1; by destruct (negb _)).
  clearbody m1. unfold move_part. cbn [lRow]. rewrite F1, F2, (proj2 (Z.ltb_ge _ _)) by lia.
  cbn [orb]. rewrite andb_false_r. unfold change_part. cbn [lRow rRow val].
  rewrite !(proj2 (Z.eqb_neq _ (-1))), Hc by lia.
  case_bool_decide as E; cbn [negb andb].
  - rewrite app_nil_r. eexists. split; [reflexivity|]. simpl. by rewrite F2, Z.geb_leb, (proj2 (Z.leb_le _ _)).
  - eexists. split; [reflexivity|]. simpl. by rewrite F2, Z.geb_leb, (proj2 (Z.leb_le _ _)).
Qed.

(** Row [i] of both sheets. *)
Definition row_pair (i : Z) : MatchUnit := MatchUnit_ i i i false MATCH_UNIT_PRESERVE.

(** The column [q] is that of the unit [v]; the number of a new one is negative. *)
Definition unit_column (q : Z * list Z) (v : MatchUnit) : Prop :=
  if localUnit v =? -1 then q.1 < 0 else q.1 = localUnit v.

Lemma unit_columns us P : Forall col_ok us -> P.*1 = merged_cols us -> Forall2 unit_column P (kept us).
Proof.
  intros Hus E. apply Forall2_same_length_lookup. split.
  { rewrite <- (length_fmap fst P), E. apply length_fmap. }
  intros i q v Hq Hv. assert (P.*1 !! i = Some q.1) as H1 by (by rewrite list_lookup_fmap, Hq).
  rewrite E in H1. unfold merged_cols in H1. rewrite list_lookup_fmap, Hv in H1. injection H1 as H1.
  apply list_elem_of_lookup_2, list_elem_of_filter in Hv as [Hd Hv%list_elem_of_In].
  rewrite Forall_forall in Hus. destruct (Hus v Hv) as [_ Hr]. unfold unit_column, column_of in *.
  destruct (localUnit v =? -1); [|done]. specialize (Hr Hd). lia.
Qed.

(** The event is the change [c], perhaps with fewer conditions, but with those on
    the columns [key]. *)
Definition same_change (key : list Z -> Prop) (P : named) (c : RowChange) (e : out_event) : Prop :=
  exists c' ix all, e = ChangeRow c' ix all /\ mode c' = mode c /\ conflicted c' = conflicted c /\
    forall q, q ∈ P -> val c' !! q.2 = val c !! q.2 /\
      (forall w, cond c' !! q.2 = Some w -> cond c !! q.2 = Some w) /\
      (key q.2 -> cond c' !! q.2 = cond c !! q.2).

Section Rows.
Context (flags : CompareFlags) (lc rcell : Z -> Z -> pcell) (local remote : Z -> Z -> result pcell).
Context (us : list MatchUnit) (P : named) (height ph : Z) (z : pcell) (key : list Z -> Prop).
Context (Hcase : ignore_case flags = false) (Hfixed : fixed_columns flags = false).
Context (Hupdate : canUpdate flags = true).
Context (Hus : Forall col_ok us) (HP1 : Forall2 unit_column P (kept us)) (HP2 : NoDup P.*2).
Context (Hdash : cstr "---" ∉ P.*2) (Hne : P <> []).
Context (Hread : forall y, 0 <= y < height -> Forall (readable lc rcell local remote y y) us).
Context (Hlwf : forall x y, cell_wf (lc x y)) (Hrwf : forall x y, cell_wf (rcell x y)).
(** New columns have no nulls. *)
Context (Hnew : forall v y, v ∈ kept us -> localUnit v = -1 -> 0 <= y < height ->
                (rcell (remoteUnit v) y).2 = false).
(** A remote row differs from the local rows after it in a key column that both
    have. *)
Context (Hapart : forall j k, 0 <= j < k -> k < height ->
                  exists i q v, P !! i = Some q /\ kept us !! i = Some v /\ key q.2 /\
                    0 <= localUnit v /\ rcell (remoteUnit v) j <> lc (localUnit v) k).

(** The local sheet with the merged columns. *)
Definition local_view (y : nat) (q : Z * list Z) : pcell :=
  if q.1 <? 0 then z else lc q.1 (Z.of_nat y).
(** Row [y] is the remote row. *)
Definition row_done (f : nat -> Z * list Z -> pcell) (y : nat) : Prop :=
  forall i q v, P !! i = Some q -> kept us !! i = Some v ->
  f y q = rcell (remoteUnit v) (Z.of_nat y).

(** What is known of the changes that are sent: where their cells come from. *)
Definition sent (c : RowChange) : Prop :=
  mode c = ROW_CHANGE_UPDATE /\ conflicted c = false /\ rc_names c = P.*2 /\ val c <> ∅ /\
  (forall n w, cond c !! n = Some w -> exists q x y, q ∈ P /\ q.2 = n /\ 0 <= q.1 /\ w = lc x y) /\
  (forall n w, val c !! n = Some w -> n ∈ P.*2 /\ exists x y, w = rcell x y).

Lemma col_unit i q v : P !! i = Some q -> kept us !! i = Some v -> unit_column q v /\ col_ok v.
Proof using HP1 Hus.
  intros Hq Hv. split; [by apply (Forall2_lookup_lr _ _ _ _ _ _ HP1 Hq Hv)|].
  apply list_elem_of_lookup_2, list_elem_of_filter in Hv as [_ Hv].
  rewrite Forall_forall in Hus. by apply Hus, list_elem_of_In.
Qed.

Lemma same_length : length P = length (kept us).
Proof using HP1. by apply Forall2_length in HP1. Qed.

Lemma unit_at i q : P !! i = Some q -> exists v, kept us !! i = Some v.
Proof using HP1.
  intros Hq. apply lookup_lt_Some in Hq. rewrite same_length in Hq. by apply lookup_lt_is_Some_2.
Qed.

(** What [mergeRow] does for row [y]. *)
Lemma mergeRow_in_order m (y : nat) rc :
  Z.of_nat y < height -> had_foreign_row m = false -> bottom_local_row m <= Z.of_nat y ->
  names m = P.*2 -> filtered_names m = [] -> exclude_column m = [] ->
  exists ch m', mergeRow flags true local local remote ph m us (row_pair (Z.of_nat y)) rc =
      Ok (rc ++ (if bool_decide (val ch = ∅) then [] else [ch]), m') /\
    mode ch = ROW_CHANGE_UPDATE /\ conflicted ch = false /\ rc_names ch = P.*2 /\
    (forall n, n ∉ P.*2 -> cond ch !! n = None /\ val ch !! n = None) /\
    (forall i q v, P !! i = Some q -> kept us !! i = Some v ->
       cond ch !! q.2 = (if localUnit v =? -1 then None else Some (local_view y q)) /\
       default (local_view y q) (val ch !! q.2) = rcell (remoteUnit v) (Z.of_nat y)) /\
    had_foreign_row m' = false /\ bottom_local_row m' = Z.of_nat y /\ names m' = P.*2 /\
    filtered_names m' = [] /\ exclude_column m' = [] /\ allGone m' = allGone m.
Proof using Hcase Hfixed Hupdate Hus HP1 HP2 Hread Hlwf Hrwf Hnew.
  intros Hy Hf Hb Hn Hfi Hex. unfold mergeRow. cbn [pivotUnit localUnit remoteUnit row_pair].
  assert (length (names m) = length (kept us)) as Hlen by (by rewrite Hn, length_fmap, same_length).
  rewrite (expand_spec lc rcell local remote (Z.of_nat y) (Z.of_nat y) ltac:(lia) ltac:(lia) m Hex us []
    (names m)), bind_Ok by (done || apply Hread; lia).
  destruct (merge_xcells_spec flags lc rcell (Z.of_nat y) (Z.of_nat y) Hcase Hfixed
    (fun x => Hlwf x _) (fun x => Hrwf x _) m Hfi Hex us [] (names m) (News ∅ ∅ ∅ false) Hus)
    as (a & Ha & Hv & Hc); [done|done|].
  cbn [length] in Ha. rewrite Ha, bind_Ok. cbn [negb].
  set (cd := foldl _ ∅ _). set (u := row_pair _).
  destruct (emit_in_order flags ph m u cd a rc) as (m' & -> & F1 & F2 & F3 & F4 & F5 & F6);
    [simpl; lia|simpl; lia|done|done|done|simpl; lia|].
  set (ch := RowChange_ _ _ _ _ _ _ _ _ _ _). exists ch, m'.
  split_and!; try done; try congruence.
  { intros n Hin. rewrite <- Hn in Hin. cbn [cond val ch]. rewrite Hv. unfold cd, add_cond, add_news.
    by rewrite !add_cells_other by done. }
  intros i q v Hq Hvi. destruct (col_unit i q v Hq Hvi) as [Eq Hok].
  assert (names m !! i = Some q.2) as Hni by (by rewrite Hn, list_lookup_fmap, Hq).
  cbn [cond val ch]. rewrite Hv. unfold cd, add_cond, add_news. rewrite <- Hn in HP2.
  rewrite !(add_cells_at _ _ _ _ i v q.2) by done.
  destruct (news_of_patch lc rcell (Z.of_nat y) (Z.of_nat y) (fun x => Hrwf x _) v Hok) as (Hcd & Hd & _).
  unfold local_view, unit_column in *. rewrite Hcd in *. destruct Hok as [(_ & Hlow & Hnewv) Hrem].
  destruct (Z.eqb_spec (localUnit v) (-1)) as [E|E].
  - split; [done|]. destruct (news_of _ _ _ _ v) as [x|]; [done|]. exfalso.
    assert ((rcell (remoteUnit v) (Z.of_nat y)).2 = false) as Hnn.
    { apply Hnew; [|done|lia]. by apply list_elem_of_lookup_2 in Hvi. }
    simpl in Hd. by rewrite <- Hd in Hnn.
  - rewrite Eq, (proj2 (Z.ltb_ge _ _)) by lia. split; [done|]. exact Hd.
Qed.

(** A change that comes from row [y]. *)
Definition from_row (y : nat) (ch : RowChange) : Prop :=
  forall i q v, P !! i = Some q -> kept us !! i = Some v ->
  cond ch !! q.2 = (if localUnit v =? -1 then None else Some (local_view y q)) /\
  default (local_view y q) (val ch !! q.2) = rcell (remoteUnit v) (Z.of_nat y).

Lemma from_row_sent y ch :
  from_row y ch -> mode ch = ROW_CHANGE_UPDATE -> conflicted ch = false -> rc_names ch = P.*2 ->
  val ch <> ∅ ->
  (forall n, n ∉ P.*2 -> cond ch !! n = None /\ val ch !! n = None) -> sent ch.
Proof using HP1 Hus.
  intros Hr Hm Hcf Hn Hv Hout. split_and!; try done.
  - intros n w Hw. destruct (decide (n ∈ P.*2)) as [Hin|Hin]; [|destruct (Hout n Hin); congruence].
    apply list_elem_of_fmap in Hin as (q & -> & [i Hq]%list_elem_of_lookup).
    destruct (unit_at i q Hq) as [v Hvi]. destruct (col_unit i q v Hq Hvi) as [Eq [(_ & Hlow & _) _]].
    destruct (Hr i q v Hq Hvi) as [Hc _]. rewrite Hw in Hc. unfold unit_column in Eq.
    destruct (Z.eqb_spec (localUnit v) (-1)); [done|]. injection Hc as ->.
    exists q, q.1, (Z.of_nat y). split; [by apply list_elem_of_lookup_2 in Hq|]. split; [done|].
    split; [lia|]. unfold local_view. by rewrite (proj2 (Z.ltb_ge _ _)) by lia.
  - intros n w Hw. destruct (decide (n ∈ P.*2)) as [Hin|Hin]; [|destruct (Hout n Hin); congruence].
    split; [done|]. apply list_elem_of_fmap in Hin as (q & -> & [i Hq]%list_elem_of_lookup).
    destruct (unit_at i q Hq) as [v Hvi]. destruct (Hr i q v Hq Hvi) as [_ Hd]. rewrite Hw in Hd.
    simpl in Hd. eauto.
Qed.

(** The change of row [k], read back and applied. *)
Lemma change_applied ch e k p f :
  from_row k ch -> mode ch = ROW_CHANGE_UPDATE -> conflicted ch = false -> same_change key P ch e ->
  Z.of_nat k < height -> shows f P p -> row_ready p -> declaredNames p = true -> h (s (sheet p)) = height ->
  (forall y, (y < k)%nat -> row_done f y) -> (forall q, q ∈ P -> f k q = local_view k q) ->
  exists p1 f1, apply_event p e = Ok p1 /\ shows f1 P p1 /\ row_ready p1 /\ declaredNames p1 = true /\
    h (s (sheet p1)) = height /\ (forall y q, y <> k -> f1 y q = f y q) /\
    (forall q, q ∈ P -> f1 k q = default (f k q) (val ch !! q.2)).
Proof using HP1 HP2 Hus Hdash Hne Hapart.
  intros Hr Hm Hcf (c' & ix & all & -> & Em & Ec & Hq) Hk Hs Hrr Hd Hh Hdone Hrest.
  destruct (changeRow_update f P p all c' k) as (p1 & Hc & Hs1 & Hr1 & Hd1 & Hh1 & _); try done; try congruence.
  - lia.
  - apply Forall_lookup. intros i q Hi w Hw. pose proof (list_elem_of_lookup_2 _ _ _ Hi) as Hin.
    destruct (Hq q Hin) as (_ & Hsub & _). apply Hsub in Hw.
    destruct (unit_at i q Hi) as [v Hv]. destruct (Hr i q v Hi Hv) as [Hcd _]. rewrite Hcd in Hw.
    destruct (_ =? _); [done|]. injection Hw as <-. by apply Hrest.
  - intros j Hj Hful. destruct (Hapart (Z.of_nat j) (Z.of_nat k)) as (i & q & v & Hi & Hv & Hkey & Hl & Hneq);
      [lia|lia|].
    pose proof (list_elem_of_lookup_2 _ _ _ Hi) as Hin. destruct (Hq q Hin) as (_ & _ & Hsame).
    destruct (Hr i q v Hi Hv) as [Hcd _]. destruct (col_unit i q v Hi Hv) as [Eq _].
    rewrite (proj2 (Z.eqb_neq _ _)) in Hcd by lia. rewrite <- (Hsame Hkey) in Hcd.
    pose proof (Forall_lookup_1 _ _ _ _ Hful Hi _ Hcd) as Hful'. rewrite (Hdone j Hj i q v Hi Hv) in Hful'.
    apply Hneq. rewrite Hful'. unfold local_view, unit_column in *.
    rewrite (proj2 (Z.eqb_neq _ _)) in Eq by lia. by rewrite Eq, (proj2 (Z.ltb_ge _ _)) by lia.
  - exists p1, (patched f (val c') k). rewrite <- Hh. split; [cbn; by rewrite Hc|].
    split_and!; try done; [intros; unfold patched; by rewrite decide_False|].
    intros q Hin. unfold patched. rewrite decide_True by done. by rewrite (proj1 (Hq q Hin)).
Qed.

(** The rows from [k] on are compared; the changes, read back and applied, make
    them the remote rows. *)
Lemma rows_trip n k m rc :
  Z.of_nat (k + n) = height -> had_foreign_row m = false -> bottom_local_row m <= Z.of_nat k ->
  names m = P.*2 -> filtered_names m = [] -> exclude_column m = [] -> allGone m = false ->
  exists rc' m', diff_rows flags true local local remote ph m us
      (row_pair <$> seqZ (Z.of_nat k) (Z.of_nat n)) rc = Ok (rc ++ rc', m') /\ Forall sent rc' /\
    forall p f es, Forall2 (same_change key P) rc' es ->
      shows f P p -> row_ready p -> (es <> [] -> declaredNames p = true) -> h (s (sheet p)) = height ->
      (forall y, (y < k)%nat -> row_done f y) ->
      (forall y q, (k <= y)%nat -> q ∈ P -> f y q = local_view y q) ->
      exists p' f', apply_events p es = Ok p' /\ shows f' P p' /\ h (s (sheet p')) = height /\
        forall y, (y < k + n)%nat -> row_done f' y.
Proof using Type*.
  revert k m rc. induction n as [|n IH]; intros k m rc Hk Hff Hb Hn Hfi Hex Hg.
  { exists [], m. rewrite app_nil_r. split; [done|]. split; [constructor|].
    intros p f es Hes Hs Hr Hd Hh Hdone _. apply Forall2_nil_inv_l in Hes as ->.
    exists p, f. split_and!; try done. intros y Hy. apply Hdone. lia. }
  rewrite seqZ_cons by lia. rewrite fmap_cons. cbn [diff_rows]. rewrite Hg. cbn [negb orb].
  rewrite orb_true_r.
  destruct (mergeRow_in_order m k rc) as
    (ch & m1 & -> & Hmd & Hcf & Hrn & Hout & Hcells & F1 & F2 & F3 & F4 & F5 & F6); try done; [lia|].
  rewrite bind_Ok. destruct (IH (S k) m1 (rc ++ if bool_decide (val ch = ∅) then [] else [ch]))
    as (rc2 & m2 & Hdr & Hsent & Hap); try done; try lia; try congruence.
  replace (Z.succ (Z.of_nat k)) with (Z.of_nat (S k)) by lia.
  replace (Z.pred (Z.of_nat (S n))) with (Z.of_nat n) by lia.
  exists ((if bool_decide (val ch = ∅) then [] else [ch]) ++ rc2), m2. rewrite Hdr, app_assoc.
  split; [done|]. split.
  { apply Forall_app. split; [|done]. case_bool_decide as E; [constructor|]. constructor; [|constructor].
    by apply (from_row_sent k). }
  intros p f es Hes Hs Hr Hd Hh Hdone Hrest.
  assert (forall f1, (forall y q, y <> k -> f1 y q = f y q) ->
    (forall q, q ∈ P -> f1 k q = default (f k q) (val ch !! q.2)) ->
    (forall y, (y < S k)%nat -> row_done f1 y) /\
    (forall y q, (S k <= y)%nat -> q ∈ P -> f1 y q = local_view y q)) as Hf1.
  { intros f1 Hother Hat. split.
    - intros y Hy i q v Hq Hv. destruct (decide (y = k)) as [->|Hyk].
      + pose proof (list_elem_of_lookup_2 _ _ _ Hq) as Hin. rewrite Hat, Hrest by done. by apply (Hcells i).
      + rewrite Hother by done. apply (Hdone y) with i; [lia|done|done].
    - intros y q Hy Hq. rewrite Hother by lia. apply Hrest; [lia|done]. }
  replace (k + S n)%nat with (S k + n)%nat by lia. case_bool_decide as E; cbn [app] in Hes.
  - destruct (Hf1 f) as [G1 G2]; [done|intros q _; by rewrite E, lookup_empty|].
    by apply (Hap p f es).
  - apply Forall2_cons_inv_l in Hes as (e & es' & He & Hes & ->).
    destruct (change_applied ch e k p f) as (p1 & f1 & Hp1 & Hs1 & Hr1 & Hd1 & Hh1 & Ho & Ha); try done;
      [lia|by apply Hd|intros q Hq; by apply Hrest|].
    destruct (Hf1 f1 Ho Ha) as [G1 G2]. cbn [apply_events]. rewrite Hp1, bind_Ok. by apply (Hap p1 f1 es').
Qed.
End Rows.

(** ** Sheets *)

(** The local sheet, seen through its own columns. *)
Lemma local_table c name :
  sheet_ok (s c) ->
  table (local_view (cell_at c) (zero (s c))) ((fun i => (i, name i)) <$> seqZ 0 (w (s c))) c.
Proof.
  intros Hok. split; [done| |].
  - destruct Hok as (_ & Hw & _). rewrite length_fmap, length_seqZ. lia.
  - intros y row Hy. destruct (row_cells c y row Hok Hy) as [-> _]. rewrite <- list_fmap_compose.
    apply list_fmap_ext. intros i x Hx. apply lookup_seqZ in Hx as [-> _].
    unfold local_view. simpl. by rewrite (proj2 (Z.ltb_ge _ _)) by lia.
Qed.

(** The sheet with all rows done is the remote one. *)
Lemma all_done f P p us rsh :
  shows f P p -> sheet_ok (s rsh) -> h (s (sheet p)) = h (s rsh) -> Forall2 unit_column P (kept us) ->
  remoteUnit <$> kept us = seqZ 0 (w (s rsh)) ->
  (forall y, (y < Z.to_nat (h (s rsh)))%nat -> row_done (cell_at rsh) us P f y) ->
  arr (s (sheet p)) = arr (s rsh).
Proof.
  intros [_ [(Hh & _) _ Hrows]] Hok Eh HP Hrem Hdone. pose proof Hok as (Hh' & _).
  apply list_eq. intros y. destruct (arr (s rsh) !! y) as [row|] eqn:E.
  - pose proof (lookup_lt_Some _ _ _ E) as Hlt. destruct (row_cells rsh y row Hok E) as [-> _].
    destruct (lookup_lt_is_Some_2 (arr (s (sheet p))) y) as [r Hr]; [lia|]. rewrite Hr. f_equal.
    rewrite (Hrows _ _ Hr), <- Hrem, <- list_fmap_compose.
    pose proof (same_length us P HP) as El.
    apply list_eq. intros i. rewrite !list_lookup_fmap. destruct (P !! i) as [q|] eqn:Eq.
    + destruct (lookup_lt_is_Some_2 (kept us) i) as [v Hv].
      { apply lookup_lt_Some in Eq. lia. }
      rewrite Hv. cbn. f_equal. apply (Hdone y) with i; [lia|done|done].
    + apply lookup_ge_None in Eq. rewrite (proj2 (lookup_ge_None (kept us) i)) by lia. done.
  - apply lookup_ge_None in E. apply lookup_ge_None. lia.
Qed.

(** ** The round trip *)

Lemma row_ready_same p p' :
  activeRow p' = activeRow p -> h (s (sheet p')) = h (s (sheet p)) -> row_ready p -> row_ready p'.
Proof.
  intros Ea Eh Hr E1 E2 y Hy. unfold unmarked in Hr. rewrite Ea, Eh in *. by apply Hr.
Qed.

(** The columns of the local sheet, with their names. *)
Definition own_columns (sh : CsvSheet) (name : Z -> list Z) : named :=
  (fun i => (i, name i)) <$> seqZ 0 (w (s sh)).

Lemma own_columns_ids sh name : (own_columns sh name).*1 = seqZ 0 (w (s sh)).
Proof. unfold own_columns. rewrite <- list_fmap_compose. apply list_fmap_id. Qed.
Lemma own_columns_names sh name : (own_columns sh name).*2 = name <$> seqZ 0 (w (s sh)).
Proof. unfold own_columns. by rewrite <- list_fmap_compose. Qed.

(** The column changes of a comparison without renamings. *)
Lemma columns_known flags sh local_name remote_name indexes us c ci gone :
  assume_header flags = false -> Forall two_way us ->
  locals us ≡ₚ seqZ 0 (w (s sh)) -> NoDup (local_name <$> seqZ 0 (w (s sh))) -> NoDup (merged_cols us) ->
  column_changes flags local_name remote_name indexes us
    (Columns (seqZ 0 (w (s sh))) (local_name <$> seqZ 0 (w (s sh))) []) = Ok (c, ci, gone) ->
  exists P, P.*1 = cols c /\ P.*2 = col_names c /\ NoDup P.*2 /\
    col_chain (cc c) (own_columns sh local_name) P /\ no_rename c /\
    forall x n, (x, n) ∈ P -> 0 <= x -> n = local_name x.
Proof.
  intros Hhd Hus Hl Hnd Hndm Hcc.
  destruct (column_passes flags local_name remote_name indexes us _ Hus Hl Hnd Hndm)
    as (c' & ci' & gone' & P & plan & m' & Heq & (Hcols & Hnames & Hch) & HP2 & HP1 & _ & _ & Hown).
  assert (no_rename c) as Hnr
    by (apply (column_changes_no_rename _ _ _ _ _ _ _ _ _ Hhd Hcc); constructor).
  rewrite Heq, Hhd, bind_Ok in Hcc. simplify_eq. exists P. by split_and!.
Qed.

(** A chain of column changes without renamings, applied to the local sheet. *)
Lemma columns_patched sh local_name l P p :
  let f := local_view (cell_at sh) (zero (s sh)) in
  NoDup (local_name <$> seqZ 0 (w (s sh))) -> col_chain l (own_columns sh local_name) P ->
  Forall (fun ch => oc_mode ch <> ORDER_CHANGE_RENAME) l -> (exists i, 0 <= i /\ i ∈ P.*1) ->
  shows f (own_columns sh local_name) p -> row_ready p -> zero (s (sheet p)) = zero (s sh) ->
  exists p', apply_events p (ChangeColumn <$> l) = Ok p' /\ shows f P p' /\ row_ready p' /\
    declaredNames p' = declaredNames p /\ h (s (sheet p')) = h (s (sheet p)) /\ NoDup P.*2.
Proof.
  intros f Hnd Hch Hnr (i & Hi & Hin) Hs Hr Hz.
  destruct (chain_applied f (zero (s sh)) l (own_columns sh local_name) P p Hch Hs) as
    (p2 & Hp2 & Hs2 & _ & Hn2 & _ & Hd2 & Ha2 & Hh2); try done.
  { rewrite own_columns_ids. apply NoDup_seqZ. }
  { by rewrite own_columns_names. }
  { intros y x n Hx. unfold f, local_view. simpl. by rewrite (proj2 (Z.ltb_lt _ _)). }
  assert (h (s (sheet p2)) = h (s (sheet p))) as Hh by (by apply Hh2, (chain_member _ _ _ i Hch Hi)).
  exists p2. split_and!; try done. by apply (row_ready_same p).
Qed.

(** The local sheet in a patcher. *)
Lemma patcher_started sh local_name :
  sheet_ok (s sh) -> NoDup (local_name <$> seqZ 0 (w (s sh))) ->
  exists p, mergeStart sh local_name = Ok p /\
    shows (local_view (cell_at sh) (zero (s sh))) (own_columns sh local_name) p /\ sheet p = sh /\ row_ready p.
Proof.
  intros Hok Hnd. destruct (mergeStart_spec (local_view (cell_at sh) (zero (s sh))) sh local_name)
    as (p & Hp & Hs & Hsh & _ & Hr); [by apply local_table|by rewrite <- own_columns_names in Hnd|]. eauto 10.
Qed.

(** Declaring the names that the columns have. *)
Lemma names_declared f P p :
  shows f P p -> NoDup P.*2 -> row_ready p ->
  exists p', (forall fin const, apply_event p (ChangeName fin const P.*2) = Ok p') /\ shows f P p' /\
    declaredNames p' = true /\ row_ready p' /\ sheet p' = sheet p.
Proof.
  intros Hs Hnd Hr. destruct (declareNames_same f P p Hs Hnd) as (p' & Hp & Hs' & Hd & Hsh & Ha).
  exists p'. split; [intros; cbn; by rewrite Hp|]. split_and!; try done.
  apply (row_ready_same p); [done|by rewrite Hsh|done].
Qed.

Lemma units_readable sh rsh us y :
  sheet_ok (s sh) -> sheet_ok (s rsh) -> h (s rsh) = h (s sh) -> locals us ≡ₚ seqZ 0 (w (s sh)) ->
  Forall (fun u => remoteUnit u < w (s rsh)) us -> 0 <= y < h (s sh) ->
  Forall (readable (cell_at sh) (cell_at rsh) (CsvS.cellString sh) (CsvS.cellString rsh) y y) us.
Proof.
  intros Hok Hokr Hh Hl Hr Hy. apply Forall_forall. intros u Hu. rewrite Forall_forall in Hr.
  split; intros H0; apply cell_read; try done; [|split; [done|by apply Hr]|lia].
  assert (localUnit u ∈ seqZ 0 (w (s sh))) as Hin%elem_of_seqZ; [|lia].
  rewrite <- Hl. unfold locals. apply list_elem_of_filter. split; [done|].
  apply list_elem_of_fmap. exists u. split; [done|]. by apply list_elem_of_In.
Qed.

(** The rows of two sheets, compared; and the changes, read back and applied to the
    local sheet with the columns [P]. *)
Section Compared.
Context (flags : CompareFlags) (sh rsh : CsvSheet) (us : list MatchUnit) (key : list Z -> Prop).
Context (Hok : sheet_ok (s sh)) (Hokr : sheet_ok (s rsh)) (Hhr : h (s rsh) = h (s sh)).
Context (Hcase : ignore_case flags = false) (Hfix : fixed_columns flags = false) (Hup : canUpdate flags = true).
Context (Hus : Forall col_ok us) (Hrw : Forall (fun u => remoteUnit u < w (s rsh)) us).
Context (Hl : locals us ≡ₚ seqZ 0 (w (s sh))) (Hrem : remoteUnit <$> kept us = seqZ 0 (w (s rsh))).
Context (Hwl : forall x y, cell_wf (cell_at sh x y)) (Hwr : forall x y, cell_wf (cell_at rsh x y)).
Context (Hnew : forall v y, v ∈ kept us -> localUnit v = -1 -> 0 <= y < h (s sh) ->
                (cell_at rsh (remoteUnit v) y).2 = false).

(** Every remote row differs from the local rows after it in a key column. *)
Definition apart (P : named) : Prop :=
  forall j k, 0 <= j < k -> k < h (s sh) ->
  exists i q v, P !! i = Some q /\ kept us !! i = Some v /\ key q.2 /\
    0 <= localUnit v /\ cell_at rsh (remoteUnit v) j <> cell_at sh (localUnit v) k.

Lemma rows_compared P m :
  Forall2 unit_column P (kept us) -> NoDup P.*2 -> cstr "---" ∉ P.*2 -> P <> [] -> apart P ->
  had_foreign_row m = false -> bottom_local_row m <= 0 -> names m = P.*2 -> filtered_names m = [] ->
  exclude_column m = [] -> allGone m = false ->
  exists rc m', diff_rows flags true (CsvS.cellString sh) (CsvS.cellString sh) (CsvS.cellString rsh) (h (s sh)) m
      us (row_pair <$> seqZ 0 (h (s sh))) [] = Ok (rc, m') /\
    Forall (sent (cell_at sh) (cell_at rsh) P) rc /\
    forall p es, Forall2 (same_change key P) rc es ->
      shows (local_view (cell_at sh) (zero (s sh))) P p -> row_ready p ->
      (es <> [] -> declaredNames p = true) -> h (s (sheet p)) = h (s sh) ->
      exists p', apply_events p es = Ok p' /\ arr (s (sheet p')) = arr (s rsh).
Proof using Type*.
  intros HPu HPn Hdash HPne Hap Hff Hb Hn Hfi Hex Hg. pose proof Hok as (Hh & _).
  destruct (rows_trip flags (cell_at sh) (cell_at rsh) (CsvS.cellString sh) (CsvS.cellString rsh) us P
    (h (s sh)) (h (s sh)) (zero (s sh)) key Hcase Hfix Hup Hus HPu HPn) with
    (Z.to_nat (h (s sh))) 0%nat m (@nil RowChange) as (rc & m' & Hdr & Hsent & Hrows); try done; try lia.
  { intros y Hy. by apply units_readable. }
  change (Z.of_nat 0) with 0 in Hdr. rewrite Z2Nat.id in Hdr by lia. exists rc, m'.
  split; [done|]. split; [done|]. intros p es Hes Hs Hr Hd Hhp.
  destruct (Hrows p (local_view (cell_at sh) (zero (s sh))) es) as (p' & f & Hp' & Hs' & Hh' & Hdone); try done;
    [intros y Hy; lia|].
  exists p'. split; [done|]. apply (all_done f P p' us rsh); try done; [congruence|]. rewrite Hhr. exact Hdone.
Qed.

(** The columns that keep their names, as keys. *)
Lemma apart_named P (name : Z -> list Z) :
  Forall2 unit_column P (kept us) -> (forall x n, (x, n) ∈ P -> 0 <= x -> n = name x) ->
  (forall j k, 0 <= j < k -> k < h (s sh) -> exists v, v ∈ kept us /\ 0 <= localUnit v /\
     key (name (localUnit v)) /\ cell_at rsh (remoteUnit v) j <> cell_at sh (localUnit v) k) ->
  apart P.
Proof using Type.
  intros HPu Hown H j k Hj Hk. destruct (H j k Hj Hk) as (v & [i Hv]%list_elem_of_lookup & H1 & H2 & H3).
  destruct (lookup_lt_is_Some_2 P i) as [[x n] Hq].
  { rewrite (same_length us P HPu). by apply lookup_lt_Some in Hv. }
  exists i, (x, n), v. split_and!; try done. cbn [snd].
  pose proof (Forall2_lookup_lr _ _ _ _ _ _ HPu Hq Hv) as Hu. unfold unit_column in Hu.
  rewrite (proj2 (Z.eqb_neq _ _)) in Hu by lia. cbn in Hu. subst x.
  by rewrite (Hown (localUnit v) n) by (done || by apply list_elem_of_lookup_2 in Hq).
Qed.
End Compared.

(** An index flag for each column is enough for the map of the indexes. *)
Lemma index_map_found m (original : list (list Z)) index_flags :
  (length original <= length index_flags)%nat -> exists ix, index_map m original index_flags = Ok ix.
Proof.
  intros Hlen. unfold index_map.
  assert (forall A B (f : A -> result B) l, Forall (fun x => exists y, f x = Ok y) l ->
    exists r, mapR f l = Ok r) as Htotal.
  { intros A B f l. induction 1 as [|x l [y Hy] _ [r IH]]; cbn [mapR]; [by eexists|].
    rewrite Hy, bind_Ok, IH. by eexists. }
  edestruct Htotal as [r Hr]; [|rewrite Hr; by eexists].
  apply Forall_forall. intros i Hi%list_elem_of_In%elem_of_seqZ.
  destruct (lookup_lt_is_Some_2 original (Z.to_nat i)) as [n Hn]; [lia|].
  destruct (lookup_lt_is_Some_2 index_flags (Z.to_nat i)) as [b Hb]; [lia|].
  rewrite (rd_ok _ _ n), bind_Ok, (rd_ok _ _ b), bind_Ok by (done || lia). by eexists.
Qed.

(** C5. Comparing and patching.  Two sheets have the same number of rows, the rows
    correspond in their order, and the columns correspond by the units; the
    comparison does not assume a header, ignore case, keep the columns fixed or
    exclude any, and may update; the search for moves plans at most one move of a
    kept column, and at least one column is kept.  Then the comparison sends changes (deletions, a move and insertions of
    columns, updates of rows) that a patcher applies to the local sheet without a
    fault, and the result is the remote sheet.  The column names of the local sheet
    are distinct and no column of either sheet is called [---]; a null carries the
    text that marks it and new columns hold no null; and no remote row equals a
    later local row in the common columns ([update_hits_earlier_row] has sheets
    where one does and the patcher changes the wrong row). *)
Theorem diff_patch_roundtrip (flags : CompareFlags) (sh rsh : CsvSheet)
    (local_name remote_name : Z -> list Z) (index_flags : list Z) (us : list MatchUnit) :
  sheet_ok (s sh) -> sheet_ok (s rsh) -> h (s rsh) = h (s sh) ->
  assume_header flags = false -> ignore_case flags = false -> fixed_columns flags = false ->
  exclude_columns flags = [] -> canUpdate flags = true ->
  Forall col_ok us -> Forall (fun u => remoteUnit u < w (s rsh)) us ->
  locals us ≡ₚ seqZ 0 (w (s sh)) -> remoteUnit <$> kept us = seqZ 0 (w (s rsh)) ->
  NoDup (merged_cols us) -> (exists v, v ∈ kept us /\ 0 <= localUnit v) ->
  NamesColumns local_name (w (s sh)) ->
  w (s sh) <= Zlen index_flags ->
  one_move us (w (s sh)) -> no_dashes us local_name remote_name (w (s sh)) ->
  (forall x y, cell_wf (cell_at sh x y)) -> (forall x y, cell_wf (cell_at rsh x y)) ->
  (forall v y, v ∈ kept us -> localUnit v = -1 -> 0 <= y < h (s sh) ->
     (cell_at rsh (remoteUnit v) y).2 = false) ->
  (forall j k, 0 <= j < k -> k < h (s sh) -> exists v, v ∈ kept us /\ 0 <= localUnit v /\
     cell_at rsh (remoteUnit v) j <> cell_at sh (localUnit v) k) ->
  exists evs p p',
    diff_merge flags true (CsvS.cellString sh) (CsvS.cellString sh) (CsvS.cellString rsh) (w (s sh))
      (h (s sh)) local_name remote_name index_flags us (row_pair <$> seqZ 0 (h (s sh))) = Ok evs /\
    mergeStart sh local_name = Ok p /\ apply_events p evs = Ok p' /\ arr (s (sheet p')) = arr (s rsh).
Proof.
  intros Hok Hokr Hhr Hhd Hcase Hfix Hex Hup Hus Hrw Hl Hrem Hndm (v0 & Hv0 & Hl0) Hnd Hflags Hmove
    Hdashes Hwl Hwr Hnew Hapart. unfold NamesColumns in Hnd.
  assert (Forall two_way us) as Htw by (eapply Forall_impl; [|exact Hus]; by intros u [? _]).
  destruct (index_map_found (start flags) (local_name <$> seqZ 0 (w (s sh))) index_flags) as [indexes Hix].
  { rewrite length_fmap, length_seqZ. lia. }
  destruct (columns_reached flags local_name remote_name indexes us (w (s sh))) as
    (c & ci & Hcc & Hcols & Hdash); eauto.
  destruct (columns_known flags sh local_name remote_name indexes us c ci false Hhd Htw Hl Hnd Hndm Hcc)
    as (P & HP1 & HP2 & HPn & Hch & Hnr & Hown).
  pose proof (unit_columns us P Hus ltac:(congruence)) as HPu.
  assert (P <> []) as HPne.
  { intros ->. apply Forall2_nil_inv_l in HPu. rewrite HPu in Hv0. by apply not_elem_of_nil in Hv0. }
  destruct (patcher_started sh local_name Hok Hnd) as (p0 & Hp0 & Hs0 & Hsh0 & Hr0).
  destruct (names_declared _ _ p0 Hs0) as (p1 & Hp1 & Hs1 & Hd1 & Hr1 & Hsh1);
    [by rewrite own_columns_names|done|].
  destruct (columns_patched sh local_name (cc c) P p1) as (p2 & Hp2 & Hs2 & Hr2 & Hd2 & Hh2 & _); try done.
  { exists (localUnit v0). split; [done|]. rewrite HP1, Hcols. unfold merged_cols.
    apply list_elem_of_fmap. exists v0. split; [|done]. unfold column_of.
    by rewrite (proj2 (Z.eqb_neq _ _)) by lia. }
  { by rewrite Hsh1, Hsh0. }
  destruct (names_declared _ _ p2 Hs2 HPn Hr2) as (p3 & Hp3 & Hs3 & Hd3 & Hr3 & Hsh3).
  unfold diff_merge. rewrite Hix, bind_Ok, Hcc, bind_Ok, Hfix. cbn [negb].
  set (m := with_columns _ _ _ _). set (ix := if negb ci then _ else indexes).
  destruct (rows_compared flags sh rsh us (fun _ => True)) with P m as (rc & m' & Hdr & _ & Hap); try done.
  { by rewrite HP2. }
  { apply (apart_named _ _ _ _ P local_name); try done. intros j k Hj Hk.
    destruct (Hapart j k Hj Hk) as (v & H1 & H2 & H3). by exists v. }
  destruct (Hap p3 ((fun r => ChangeRow r ix (col_names c)) <$> rc)) as (p4 & Hp4 & Harr); try done.
  { apply Forall2_fmap_r, Forall2_same_length_lookup. split; [done|].
    intros i r r' H1 H2. simplify_eq. exists r, ix, (col_names c). by split_and!. }
  { by rewrite Hsh3, Hh2, Hsh1, Hsh0. }
  rewrite Hdr, bind_Ok. cbn [app]. eexists _, p0, p4. split; [reflexivity|]. split; [done|]. split; [|done].
  cbn [apply_events]. rewrite <- (own_columns_names sh), Hp1, bind_Ok.
  rewrite apply_events_app, Hp2, bind_Ok. cbn [apply_events]. rewrite <- HP2, Hp3, bind_Ok, apply_events_app.
  assert (apply_events p3 (if bool_decide (rc = []) then [] else [AddPools]) = Ok p3) as ->
    by (by destruct (bool_decide (rc = []))).
  rewrite HP2, bind_Ok, apply_events_app. fold ix. by rewrite Hp4, bind_Ok.
Qed.

(** Three local columns and two rows: the first column is deleted, the third comes
    before the second, a column is new, and each row has an update. *)
Definition csv_of (width : Z) (rows : list (list pcell)) : CsvSheet :=
  CsvSheet_ (TypedSheet_ rows (Zlen rows) width ([], false)) [] (Zlen rows) 0 true.
Definition plain (t : list Z) : pcell := (t, false).
Definition old_sheet : CsvSheet :=
  csv_of 3 [[plain (cstr "1"); plain (cstr "x"); plain (cstr "p")];
            [plain (cstr "2"); plain (cstr "y"); plain (cstr "q")]].
Definition new_sheet : CsvSheet :=
  csv_of 3 [[plain (cstr "p"); plain (cstr "new"); plain (cstr "x2")];
            [(cstr "NULL", true); plain (cstr "too"); plain (cstr "y")]].

Lemma plain_wf rows width x y :
  Forall (Forall (fun c : pcell => cell_wf c)) rows -> cell_wf (cell_at (csv_of width rows) x y).
Proof.
  intros H. unfold cell_at. cbn. unfold Typed.cell, rd. cbn [arr].
  destruct (y <? 0); [done|]. destruct (rows !! Z.to_nat y) as [row|] eqn:E; [|done]. cbn.
  destruct (x <? 0); [done|]. destruct (row !! Z.to_nat x) as [v|] eqn:E2; [|done].
  by apply (Forall_lookup_1 _ _ _ _ (Forall_lookup_1 _ _ _ _ H E) E2).
Qed.

(** The conditions on the columns, for the sample. *)
Lemma sample_one_move : one_move sample_units 3.
Proof. do 2 eexists. split; [vm_compute; reflexivity|simpl; lia]. Qed.
Lemma sample_no_dashes : no_dashes sample_units letter letter 3.
Proof. split; apply (bool_decide_unpack _); vm_compute; done. Qed.

Lemma diff_patch_roundtrip_witness :
  exists evs p p', diff_merge sample_flags true (CsvS.cellString old_sheet) (CsvS.cellString old_sheet)
      (CsvS.cellString new_sheet) 3 2 letter letter [1; 0; 0] sample_units (row_pair <$> seqZ 0 2) =
      Ok evs /\
    mergeStart old_sheet letter = Ok p /\ apply_events p evs = Ok p' /\
    arr (s (sheet p')) = arr (s new_sheet).
Proof.
  apply (diff_patch_roundtrip sample_flags old_sheet new_sheet letter letter [1; 0; 0] sample_units); try done.
  - split_and!; simpl; [done|lia|by repeat constructor].
  - split_and!; simpl; [done|lia|by repeat constructor].
  - repeat (constructor;
      [split; [split_and!; simpl; [done|lia|intros; split; done || lia]|simpl; (done || lia)]|]).
    constructor.
  - repeat (constructor; [simpl; lia|]). constructor.
  - apply (bool_decide_unpack _). vm_compute. done.
  - apply (bool_decide_unpack _). vm_compute. done.
  - eexists. split; [left|simpl; lia].
  - apply (bool_decide_unpack _). vm_compute. done.
  - apply sample_one_move.
  - apply sample_no_dashes.
  - intros x y. apply plain_wf. by repeat constructor.
  - intros x y. apply plain_wf. by repeat constructor.
  - intros v y Hv Hl Hy. simpl in Hy.
    change (v ∈ kept sample_units) with (v ∈ take 3 sample_units) in Hv.
    assert (y = 0 \/ y = 1) as [-> | ->] by lia;
      repeat (apply elem_of_cons in Hv as [->|Hv]; [done|]); by apply not_elem_of_nil in Hv.
  - intros j k Hj Hk. simpl in Hk. assert (j = 0 /\ k = 1) as [-> ->] by lia.
    eexists. split; [left|]. split; [simpl; lia|]. vm_compute. done.
Defined.

(** ** What the patcher does not report or guard *)

Definition pair_sheet (rows : list (list Z)) : CsvSheet := csv_of 1 ((fun t => [plain t]) <$> rows).
Definition row_event (md : row_mode) (before after : option pcell) : RowChange :=
  RowChange_ md (from_option (fun v => {[letter 0 := v]}) ∅ before)
    (from_option (fun v => {[letter 0 := v]}) ∅ after) ∅ ∅ [letter 0] false (-2) (-2) (-2).
Definition texts (c : CsvSheet) : list (list (list Z)) := (fun row => row.*1) <$> arr (s c).
Definition run_rows (rows : list (list Z)) (l : list RowChange) : result (list bool * CsvSheet) :=
  p ← mergeStart (pair_sheet rows) letter;
  '(oks, p) ← foldl (fun acc c => '(oks, p) ← acc; '(ok, p) ← changeRow p true [letter 0] c;
                                  Ok (oks ++ [ok], p)) (Ok ([], p)) l;
  Ok (oks, sheet p).

(** A row is inserted, yet [changeRow] answers that it failed, so that the change is
    neither counted nor passed to the chained output. *)
Lemma insert_reports_failure :
  exists sh, run_rows [[120]] [row_event ROW_CHANGE_INSERT None (Some (plain [121]))] = Ok ([false], sh) /\
    texts sh = [[[120]]; [[121]]].
Proof. eexists. by vm_compute. Qed.

(** The same holds of a row that is moved: the first row becomes the last. *)
Lemma move_reports_failure :
  exists sh, run_rows [[120]; [121]] [row_event ROW_CHANGE_MOVE (Some (plain [120])) None] =
      Ok ([false], sh) /\
    texts sh = [[[121]]; [[120]]].
Proof. eexists. by vm_compute. Qed.

(** A context without conditions puts the cursor on row 0, also of a sheet without
    rows; the insertion there gives no row and the cells are written outside of
    the sheet. *)
Lemma insert_into_empty_faults :
  run_rows [] [row_event ROW_CHANGE_CONTEXT None None;
               row_event ROW_CHANGE_INSERT None (Some (plain [121]))] = Fault OutOfBounds.
Proof. by vm_compute. Qed.

(** Rows are matched from the top and not from the cursor: after [x] has become
    [y], the update of the row that held [y] changes the first row again. *)
Lemma update_hits_earlier_row :
  exists sh, run_rows [[120]; [121]] [row_event ROW_CHANGE_UPDATE (Some (plain [120])) (Some (plain [121]));
                            row_event ROW_CHANGE_UPDATE (Some (plain [121])) (Some (plain [122]))] =
      Ok ([true; true], sh) /\
    texts sh = [[[122]]; [[121]]].
Proof. eexists. by vm_compute. Qed.
