(* ===== verification/FormatSniffer.v ===== *)
(** * Telling formats apart, and reading lines

    Models [FormatSniffer] ([libcoopy_core/FormatSniffer.cpp]), which keeps the text
    of a file or a string and guesses its format from the first characters, and
    [Reader::readLine] ([libcoopy_core/Reader.cpp]). *)

From stdpp Require Import list.
From S2P Require Import Prelude.
#[local] Open Scope Z_scope.
#[local] Arguments cstr s%_string.

Inductive format :=
| FORMAT_UNKNOWN | FORMAT_PATCH_CSV | FORMAT_PATCH_TDIFF | FORMAT_PATCH_HUMAN
| FORMAT_BOOK_SQLITE | FORMAT_BOOK_CSVS.

(** [find(t) != npos]. *)
Fixpoint has_text (t l : list Z) : bool :=
  bool_decide (t `prefix_of` l) || match l with [] => false | _ :: l => has_text t l end.
(** The text before the first line feed, and the text after it. *)
Fixpoint cut_line (l : list Z) : option (list Z * list Z) :=
  match l with
  | [] => None
  | c :: l => if c =? 10 then Some ([], l)
              else match cut_line l with Some (a, b) => Some (c :: a, b) | None => None end
  end.
Definition first_line (l : list Z) : list Z := match cut_line l with Some (a, _) => a | None => l end.

(** [substr(0,4)] is compared with four and with five characters. *)
Definition getFormat (cache : list Z) : format :=
  if bool_decide (take 4 cache = cstr "dtbl") || bool_decide (take 4 cache = 34 :: cstr "dtbl") then
    let header := first_line cache in
    let f := if has_text (cstr "csv") header then FORMAT_PATCH_CSV else FORMAT_UNKNOWN in
    if has_text (cstr "human") header then FORMAT_PATCH_HUMAN else f
  else if bool_decide (take 7 cache = cstr "# tdiff") then FORMAT_PATCH_TDIFF
  else if bool_decide (take 15 cache = cstr "SQLite format 3") then FORMAT_BOOK_SQLITE
  else if bool_decide (take 4 cache = cstr " == ") || bool_decide (take 3 cache = cstr "== ")
  then FORMAT_BOOK_CSVS
  else if has_text (cstr "|") (take 15 cache) then FORMAT_PATCH_TDIFF
  else if has_text (cstr "@@@ ") cache then FORMAT_PATCH_TDIFF
  else FORMAT_UNKNOWN.

(** [read] hands the whole text over once; an empty string is the end. *)
Definition sniffer_read (cache : list Z) : list Z * list Z := (cache, []).

(** ** Lines *)

(** A reader: what was read and not yet used, and what [read] will deliver. *)
Record Reader := Reader_of { unread : list Z; deliveries : list (list Z) }.

(** The loop of [readLine]: the text of the line, or the rest of the text. *)
Fixpoint line_loop (un : list Z) (ds : list (list Z)) : (list Z + option (list Z)) * Reader :=
  match cut_line un with
  | Some (a, b) => (inl a, Reader_of b ds)
  | None =>
      match ds with
      | [] | [] :: _ => (inr (if bool_decide (un = []) then None else Some un), Reader_of [] (tail ds))
      | x :: ds => line_loop (un ++ x) ds
      end
  end.
Definition drop_cr (l : list Z) : list Z :=
  let l := match l with c :: l' => if c =? 13 then l' else l | [] => [] end in
  match list.last l with Some c => if c =? 13 then take (length l - 1) l else l | None => l end.
(** The line, [None] at the end. *)
Definition readLine (r : Reader) : option (list Z) * Reader :=
  match line_loop (unread r) (deliveries r) with
  | (inl a, r) => (Some (drop_cr a), r)
  | (inr o, r) => (o, r)
  end.

(** ** What they do *)

Lemma has_text_in t l c : has_text (c :: t) l = true -> c ∈ l.
Proof.
  induction l as [|x l IH]; cbn [has_text]; [by rewrite orb_false_r; intros [? ?]%bool_decide_eq_true_1|].
  intros [H|H]%orb_true_iff; [|right; by apply IH].
  apply bool_decide_eq_true_1 in H as [k [= -> _]]. left.
Qed.

Lemma cut_line_none l : cut_line l = None <-> 10 ∉ l.
Proof.
  induction l as [|c l IH]; cbn [cut_line]; [split; [intros _; apply not_elem_of_nil|done]|].
  rewrite not_elem_of_cons. destruct (Z.eqb_spec c 10) as [->|Hc]; [split; [done|tauto]|].
  destruct IH as [IH IH']. destruct (cut_line l) as [[a b]|]; [|by split; auto].
  split; [done|]. intros [_ H]. by apply IH' in H.
Qed.

Lemma cut_line_app l l' :
  cut_line (l ++ l') = match cut_line l with
                       | Some (a, b) => Some (a, b ++ l')
                       | None => match cut_line l' with Some (a, b) => Some (l ++ a, b) | None => None end
                       end.
Proof.
  induction l as [|c l IH]; cbn [app cut_line]; [by destruct (cut_line l') as [[]|]|].
  destruct (c =? 10); [done|]. rewrite IH. destruct (cut_line l) as [[]|]; [done|].
  by destruct (cut_line l') as [[]|].
Qed.

Definition all_of (r : Reader) : list Z := unread r ++ concat (deliveries r).

(** A line does not depend on the pieces in which the text is delivered: it is the
    text up to the next line feed, without a carriage return at either end, or what
    is left, as it is. *)
Lemma readLine_spec r :
  Forall (fun x => x <> []) (deliveries r) ->
  exists r', Forall (fun x => x <> []) (deliveries r') /\
    match cut_line (all_of r) with
    | Some (a, b) => readLine r = (Some (drop_cr a), r') /\ all_of r' = b
    | None => readLine r = (if bool_decide (all_of r = []) then None else Some (all_of r), r') /\ all_of r' = []
    end.
Proof.
  destruct r as [un ds]. unfold all_of, readLine. cbn [unread deliveries]. revert un.
  induction ds as [|x ds IH]; intros un Hd; cbn [line_loop concat].
  - rewrite app_nil_r. destruct (cut_line un) as [[a b]|]; eexists (Reader_of _ _); (split; [constructor|]);
      (split; [reflexivity|]); cbn; [by rewrite app_nil_r|done].
  - inversion_clear Hd as [|? ? Hx Hd']. destruct (cut_line un) as [[a b]|] eqn:E.
    + exists (Reader_of b (x :: ds)). rewrite cut_line_app, E. split; [by constructor|]. done.
    + destruct x as [|y x]; [done|]. destruct (IH (un ++ y :: x) Hd') as (r' & Hr' & H).
      exists r'. split; [done|]. by rewrite <- app_assoc in H.
Qed.

(** A first line in quotes, which the second comparison is there for, is not
    recognised. *)
Lemma quoted_dtbl_unknown :
  getFormat (34 :: cstr "dtbl" ++ [34] ++ cstr ",csv,version,0.5" ++ [10]) = FORMAT_UNKNOWN.
Proof. reflexivity. Qed.
