(* ===== verification/CsvDiff.v ===== *)
(** * Differences as CSV text: writing

    Models [MergeOutputCsvDiff] ([libcoopy_core/MergeOutputCsvDiff.cpp],
    [include/coopy/MergeOutputCsvDiff.h]), the output of a comparison in the CSV
    based difference format, version 0.5.  Each call of [Merger] adds records to the
    sheet [out_sheet], which [mergeAllDone] writes in the default style.

    A [std::map<std::string,bool>] is a [gmap]; reading it with [[]] adds the entry
    [false] where there is none, which is modelled ([touch]) for the maps that are
    compared with others.  [constantColumns] is written and never read. *)

From stdpp Require Import gmap.
From S2P Require Import Prelude Sheet CsvFile Viterbi OrderMerge Mover Merger.
#[local] Open Scope Z_scope.
#[local] Arguments cstr s%_string.

Abbreviation txt2bool := (gmap (list Z) bool).

Record csvdiff := CsvDiff_ {
  out_sheet : CsvSheet;
  ops : list (list Z);
  nops : list (list Z);
  activeColumn : txt2bool;
  showForSelect : txt2bool;
  showForDescribe : txt2bool;
  prevSelect : txt2bool;
  prevDescribe : txt2bool;
  out_columns : list (list Z);
  showedColumns : bool;
  currentSheetName : list Z;
  pendingSheetName : list Z
}.

Definition flag (m : txt2bool) (k : list Z) : bool := default false (m !! k).
Definition touch (m : txt2bool) (k : list Z) : txt2bool :=
  match m !! k with Some _ => m | None => <[k := false]> m end.
Definition all_true (ns : list (list Z)) (m : txt2bool) : txt2bool := foldl (fun m n => <[n := true]> m) m ns.

(** A run of [addField] and an [addRecord]. *)
Definition put_fields (c : CsvSheet) (l : list pcell) : CsvSheet :=
  foldl (fun c f => CsvS.addField c f.1 f.2) c l.
Definition with_out (d : csvdiff) (c : CsvSheet) (current : list Z) : csvdiff :=
  CsvDiff_ c (ops d) (nops d) (activeColumn d) (showForSelect d) (showForDescribe d) (prevSelect d)
    (prevDescribe d) (out_columns d) (showedColumns d) current (pendingSheetName d).
Definition word (t : list Z) : pcell := (t, false).

Definition clearThroat (d : csvdiff) : csvdiff :=
  if bool_decide (currentSheetName d <> pendingSheetName d)
  then with_out d (CsvS.addRecord (put_fields (out_sheet d)
         [word (cstr "table"); word (cstr "name"); word (pendingSheetName d)])) (pendingSheetName d)
  else d.
(** A record, after [clearThroat]. *)
Definition put_record (d : csvdiff) (l : list pcell) : csvdiff :=
  let d := clearThroat d in
  with_out d (CsvS.addRecord (put_fields (out_sheet d) l)) (currentSheetName d).

(** ** Starting *)

Definition mergeClear (d : csvdiff) : csvdiff :=
  CsvDiff_ (out_sheet d) [] [] ∅ ∅ ∅ ∅ ∅ [] false (currentSheetName d) (pendingSheetName d).
Definition new_csvdiff : csvdiff := CsvDiff_ CsvS.create [] [] ∅ ∅ ∅ ∅ ∅ [] false [] [].
(** [mergeStart], of an output that holds nothing yet. *)
Definition csvdiff_start : csvdiff :=
  with_out new_csvdiff (CsvS.addRecord (put_fields CsvS.create
    [word (cstr "dtbl"); word (cstr "csv"); word (cstr "version"); word (cstr "0.5")])) [].
Definition csvdiff_setSheet (d : csvdiff) (name : list Z) : csvdiff :=
  CsvDiff_ (out_sheet d) (ops d) (nops d) (activeColumn d) (showForSelect d) (showForDescribe d)
    (prevSelect d) (prevDescribe d) (out_columns d) (showedColumns d) (currentSheetName d) name.

(** ** Columns *)

Definition order_tag (md : order_mode) : option (list Z) :=
  match md with
  | ORDER_CHANGE_DELETE => Some (cstr "delete")
  | ORDER_CHANGE_INSERT => Some (cstr "insert")
  | ORDER_CHANGE_MOVE => Some (cstr "move")
  | ORDER_CHANGE_RENAME => Some (cstr "rename")
  | ORDER_CHANGE_NONE => None
  end.
Definition csvdiff_changeColumn (d : csvdiff) (c : OrderChange) : result csvdiff :=
  match order_tag (oc_mode c) with
  | None => Fault Exited
  | Some tag =>
      let d := put_record d (word (cstr "column") :: word tag :: (word <$> namesAfter c)) in
      Ok (CsvDiff_ (out_sheet d) (ops d) (namesAfter c) (all_true (namesAfter c) ∅) (showForSelect d)
            (showForDescribe d) (prevSelect d) (prevDescribe d) (out_columns d) (showedColumns d)
            (currentSheetName d) (pendingSheetName d))
  end.

Definition csvdiff_changeName (d : csvdiff) (final constant : bool) (ns : list (list Z)) : csvdiff :=
  let d := if negb final then
             let d := CsvDiff_ (out_sheet d) (ops d) (nops d) (all_true ns ∅)
                        (all_true ns (showForSelect d)) (all_true ns (showForDescribe d)) (prevSelect d)
                        (prevDescribe d) (out_columns d) (showedColumns d) (currentSheetName d)
                        (pendingSheetName d) in
             if negb constant then
               let d := put_record d (word (cstr "column") :: word (cstr "name") :: (word <$> ns)) in
               CsvDiff_ (out_sheet d) (ops d) (nops d) (activeColumn d) (showForSelect d)
                 (showForDescribe d) (prevSelect d) (prevDescribe d) (out_columns d) true
                 (currentSheetName d) (pendingSheetName d)
             else d
           else d in
  CsvDiff_ (out_sheet d) (ops d) (nops d) (activeColumn d) (showForSelect d) (showForDescribe d)
    (prevSelect d) (prevDescribe d) ns (showedColumns d) (currentSheetName d) (pendingSheetName d).

(** ** Rows *)

(** The maps that the loop of [changeRow] fills, and the operators. *)
Record row_plan := RowPlan {
  p_prevSelect : txt2bool;
  p_prevDescribe : txt2bool;
  p_select : txt2bool;
  p_describe : txt2bool;
  p_active : txt2bool;
  p_ops : list (list Z)
}.
Definition op_of (shouldMatch shouldAssign : bool) : list Z :=
  match shouldMatch, shouldAssign with
  | false, false => cstr ""
  | false, true => cstr "="
  | true, false => cstr "*"
  | true, true => cstr "*="
  end.

(** Whether a column of a change is matched and assigned.  [indexes.find(name)]
    must find the column where it is read. *)
Definition wants (c : RowChange) (indexes : txt2bool) (a : row_plan) (name : list Z) :
    result (bool * bool) :=
  let condActive := bool_decide (is_Some (cond c !! name)) in
  let valueActive := bool_decide (is_Some (val c !! name)) in
  shouldMatch ← (if condActive then match indexes !! name with
                                    | Some b => Ok b
                                    | None => Fault OutOfBounds
                                    end
                 else Ok false);
  let shouldMatch := if valueActive && condActive then true else shouldMatch in
  Ok match mode c with
     | ROW_CHANGE_INSERT => (flag (p_prevSelect a) name, true)
     | ROW_CHANGE_DELETE => (true, flag (p_prevDescribe a) name)
     | _ => (shouldMatch, valueActive)
     end.
Definition plan_column (c : RowChange) (indexes : txt2bool) (a : row_plan) (name : list Z) :
    result row_plan :=
  '(m, d) ← wants c indexes a name;
  Ok (RowPlan
        (match mode c with ROW_CHANGE_INSERT => touch (p_prevSelect a) name | _ => p_prevSelect a end)
        (match mode c with ROW_CHANGE_DELETE => touch (p_prevDescribe a) name | _ => p_prevDescribe a end)
        (<[name := m]> (p_select a)) (<[name := d]> (p_describe a))
        (if m || d then <[name := true]> (p_active a) else p_active a) (p_ops a ++ [op_of m d])).
Fixpoint plan_row (c : RowChange) (indexes : txt2bool) (a : row_plan) (ns : list (list Z)) :
    result row_plan :=
  match ns with
  | [] => Ok a
  | n :: ns => a ← plan_column c indexes a n; plan_row c indexes a ns
  end.

Definition active_names (active : txt2bool) (ns : list (list Z)) : list (list Z) :=
  filter (fun n => flag active n = true) ns.
(** The operators of the active columns: [ops[i]] for each of them. *)
Fixpoint active_ops (active : txt2bool) (ns l : list (list Z)) (i : Z) : result (list (list Z)) :=
  match ns with
  | [] => Ok []
  | n :: ns => rest ← active_ops active ns l (i + 1);
               if flag active n then o ← rd l i; Ok (o :: rest) else Ok rest
  end.

(** The records that tell which columns are used, when they are others than
    before. *)
Definition show_names (d : csvdiff) (lnops : list (list Z)) : csvdiff :=
  if bool_decide (lnops <> nops d) then
    let d := if negb (showedColumns d)
             then put_record d (word (cstr "column") :: word (cstr "name") :: (word <$> out_columns d))
             else d in
    let d := if bool_decide (out_columns d <> lnops)
             then put_record d (word (cstr "link") :: word (cstr "name") :: (word <$> lnops)) else d in
    CsvDiff_ (out_sheet d) (ops d) lnops (activeColumn d) (showForSelect d) (showForDescribe d)
      (prevSelect d) (prevDescribe d) lnops true (currentSheetName d) (pendingSheetName d)
  else d.
Definition operateRow (d : csvdiff) (c : RowChange) : result csvdiff :=
  let d := show_names d (active_names (activeColumn d) (rc_names c)) in
  if bool_decide (prevSelect d <> showForSelect d) || bool_decide (prevDescribe d <> showForDescribe d) then
    os ← active_ops (activeColumn d) (rc_names c) (ops d) 0;
    Ok (put_record d (word (cstr "link") :: word (cstr "act") :: (word <$> os)))
  else Ok d.

(** The fields of [updateRow] for a column, and whether a column has two. *)
Definition shows_cond (d : csvdiff) (c : RowChange) (select : bool) (n : list Z) : option pcell :=
  if flag (showForSelect d) n && select then cond c !! n else None.
Definition shows_val (d : csvdiff) (c : RowChange) (update : bool) (n : list Z) : option pcell :=
  if flag (showForDescribe d) n && update then val c !! n else None.
Definition row_fields (d : csvdiff) (c : RowChange) (select update : bool) (n : list Z) : list pcell :=
  match shows_cond d c select n, shows_val d c update n with
  | Some a, Some b => [a; b]
  | Some a, None => [a]
  | None, Some b => [b]
  | None, None => [word []]
  end.
Definition updateRow (d : csvdiff) (c : RowChange) (tag : list Z) (select update : bool) : csvdiff :=
  put_record d (word (cstr "row") :: word tag ::
                concat (row_fields d c select update <$> active_names (activeColumn d) (rc_names c))).
Definition practice (d : csvdiff) (c : RowChange) : bool :=
  forallb (fun n => negb (bool_decide (is_Some (shows_cond d c true n) /\ is_Some (shows_val d c true n))))
    (active_names (activeColumn d) (rc_names c)).

Definition csvdiff_changeRow (d : csvdiff) (c : RowChange) (indexes : txt2bool) : result csvdiff :=
  a ← plan_row c indexes (RowPlan (showForSelect d) (showForDescribe d) ∅ ∅ ∅ []) (rc_names c);
  let changed := bool_decide (p_ops a <> ops d) in
  let d := CsvDiff_ (out_sheet d) (if changed then p_ops a else ops d) (nops d) (p_active a) (p_select a)
             (p_describe a) (p_prevSelect a) (p_prevDescribe a) (out_columns d) (showedColumns d)
             (currentSheetName d) (pendingSheetName d) in
  d ← (if changed then operateRow d c else Ok d);
  match mode c with
  | ROW_CHANGE_INSERT => Ok (updateRow d c (cstr "insert") false true)
  | ROW_CHANGE_DELETE => Ok (updateRow d c (cstr "delete") true false)
  | ROW_CHANGE_MOVE =>
      Ok (if practice d c then updateRow d c (cstr "move") true true
          else updateRow (updateRow d c (cstr "select") true false) c (cstr "move") false true)
  | ROW_CHANGE_CONTEXT =>
      Ok (updateRow d c (if bool_decide (cond c = ∅) then cstr "start" else cstr "after") true false)
  | ROW_CHANGE_UPDATE =>
      Ok (if practice d c then updateRow d c (cstr "update") true true
          else updateRow (updateRow d c (cstr "select") true false) c (cstr "update") false true)
  | ROW_CHANGE_NONE => Fault Exited
  end.

(** ** A whole comparison *)

(** [addPools], [addHeader] and [stripMarkup] are those of the base class, which do
    nothing. *)
Definition csvdiff_event (d : csvdiff) (e : out_event) : result csvdiff :=
  match e with
  | ChangeName final constant ns => Ok (csvdiff_changeName d final constant ns)
  | ChangeColumn c => csvdiff_changeColumn d c
  | ChangeRow c indexes _ => csvdiff_changeRow d c indexes
  | MergeDone => Ok (mergeClear d)
  | AddPools | AddHeader _ | StripMarkup => Ok d
  end.
Fixpoint csvdiff_events (d : csvdiff) (es : list out_event) : result csvdiff :=
  match es with [] => Ok d | e :: es => d ← csvdiff_event d e; csvdiff_events d es end.
