(* ===== verification/CsvPatch.v ===== *)
(** * Differences as CSV text: reading

    Models the part of [PatchParser] ([libcoopy_full/PatchParser.cpp]) that reads
    the CSV based difference format: [applyCsv] and the class [PatchColumnNames] that
    finds out which column a list of names is about.  What [applyCsv] does with the
    patcher is the list of its calls; what the patcher answers is only printed.

    [PatchColumnNames] is used here without the [name] that only other formats
    pass. *)

From stdpp Require Import gmap.
From S2P Require Import Prelude Sheet CsvFile Viterbi OrderMerge Mover Merger CsvDiff.
#[local] Open Scope Z_scope.
#[local] Arguments cstr s%_string.

Definition says (x : list Z) (c : String.string) : bool := bool_decide (x = cstr c).
#[global] Arguments says x c%_string.

(** ** Lists of column names *)

Record PatchColumnNames := PatchColumnNames_ {
  lst : list (list Z);
  data : list pcell;
  indices : list Z
}.
Definition no_names : PatchColumnNames := PatchColumnNames_ [] [] [].

(** [read]: the texts of row [y] from column [x] on, up to the first empty one. *)
Fixpoint read_names (sh : CsvSheet) (x y : Z) (n : nat) : result (list (list Z)) :=
  match n with
  | O => Ok []
  | S n => '(v, _) ← CsvS.cellString sh x y;
           if bool_decide (v = []) then Ok [] else rest ← read_names sh (x + 1) y n; Ok (v :: rest)
  end.
Definition names_read (sh : CsvSheet) (x y : Z) : result PatchColumnNames :=
  l ← read_names sh x y (Z.to_nat (w (s sh) - x));
  Ok (PatchColumnNames_ l [] (seqZ 0 (Zlen l))).
Definition names_readData (sh : CsvSheet) (x y len : Z) : result PatchColumnNames :=
  l ← mapR (fun i => CsvS.cellString sh i y) (seqZ x len);
  Ok (PatchColumnNames_ [] l []).

(** The first place where two lists differ, at most [n]. *)
Fixpoint first_difference (a b : list (list Z)) (n : nat) : nat :=
  match n, a, b with
  | S n, x :: a, y :: b => if bool_decide (x <> y) then O else S (first_difference a b n)
  | _, _, _ => O
  end.
Fixpoint find_text (x : list Z) (l : list (list Z)) : nat :=
  match l with [] => O | y :: l => if bool_decide (y = x) then O else S (find_text x l) end.

Definition with_indices (c : PatchColumnNames) (ix : list Z) : PatchColumnNames :=
  PatchColumnNames_ (lst c) (data c) ix.

(** Each of these gives the subject of the change and the names with their new
    indices.  The name of the column, which is only printed, is looked up where
    the code does. *)
Definition inferRename (c prior : PatchColumnNames) : result (Z * PatchColumnNames) :=
  _ ← check (length (lst c) =? length (lst prior))%nat AssertFailed;
  let i := Z.of_nat (first_difference (lst c) (lst prior) (length (lst c))) in
  _ ← rd (lst prior) i;
  dest ← rd (indices prior) i;
  Ok (dest, with_indices c (indices prior)).

Definition inferInsert (c prior : PatchColumnNames) : result (Z * PatchColumnNames) :=
  _ ← check (length (lst c) =? length (lst prior) + 1)%nat AssertFailed;
  let i := Z.of_nat (first_difference (lst c) (lst prior) (length (lst prior))) in
  _ ← rd (lst c) i;
  let subject := if i >=? Zlen (lst prior) then -1 else i in
  let neg := foldl (fun neg x => if x <? neg then x else neg) 0 (indices prior) - 1 in
  ix ← (if subject >=? 0 then vec_insert (indices prior) subject neg else Ok (indices prior ++ [neg]));
  Ok (neg, with_indices c ix).

Definition inferDelete (c prior : PatchColumnNames) : result (Z * PatchColumnNames) :=
  _ ← check (length (lst c) + 1 =? length (lst prior))%nat AssertFailed;
  let i := Z.of_nat (first_difference (lst c) (lst prior) (length (lst c))) in
  _ ← rd (lst prior) i;
  src ← rd (indices prior) i;
  ix ← vec_erase (indices prior) i;
  Ok (src, with_indices c ix).

Definition inferMove (c prior : PatchColumnNames) : result (Z * PatchColumnNames) :=
  _ ← check (length (lst c) =? length (lst prior))%nat AssertFailed;
  let i := Z.of_nat (first_difference (lst c) (lst prior) (length (lst c))) in
  _ ← check (negb (i =? Zlen (lst c))) Exited;
  next ← rd (lst prior) (i + 1);
  here ← rd (lst c) i;
  mover ← (if bool_decide (next = here) then rd (lst prior) i else Ok here);
  let rem := Z.of_nat (find_text mover (lst prior)) in
  let add := Z.of_nat (find_text mover (lst c)) in
  let append := add =? Zlen (lst c) - 1 in
  _ ← (if append then Ok [] else rd (lst c) (add + 1));
  v ← rd (indices prior) rem;
  ix ← vec_erase (indices prior) rem;
  let add := if add >? rem then add - 1 else add in
  ix ← (if append then Ok (ix ++ [v]) else vec_insert ix add v);
  Ok (v, with_indices c ix).

(** ** Reading a patch *)

(** A call of the patcher; [sequential] is the member of the row change. *)
Inductive patch_call :=
| CallConfig (ordered complete trustNames : bool)
| CallSheet (name : list Z)
| CallEvent (sequential : bool) (e : out_event).

Record reader := Reader_ {
  rd_names : PatchColumnNames;
  rd_allNames : list (list Z);
  match_column : txt2bool;
  assign_column : txt2bool;
  selector : list pcell;
  needSelector : bool;
  rd_len : Z;
  rd_sequential : bool;
  rd_config : option (bool * bool * bool);
  support_old : bool;
  name_start : Z
}.
Definition new_reader : reader := Reader_ no_names [] ∅ ∅ [] true 0 true None false 2.

Definition with_config (r : reader) (cc : option (bool * bool * bool)) (old : bool) : reader :=
  Reader_ (rd_names r) (rd_allNames r) (match_column r) (assign_column r) (selector r) (needSelector r)
    (rd_len r) (rd_sequential r) cc old (name_start r).
Definition with_selector (r : reader) (sel : list pcell) (need seq : bool) : reader :=
  Reader_ (rd_names r) (rd_allNames r) (match_column r) (assign_column r) sel need (rd_len r) seq
    (rd_config r) (support_old r) (name_start r).

(** [config], with the key [order]. *)
Definition read_config (r : reader) (key v : list Z) : result reader :=
  if says key "order" then
    if says v "named" then Ok (with_config r (Some (false, false, true)) (support_old r))
    else if says v "map" then Ok (with_config r (Some (true, true, false)) (support_old r))
    else Fault Exited
  else Ok r.

(** A record about columns. *)
Definition read_column (sh : CsvSheet) (i : Z) (cmd1 : list Z) (r : reader) :
    result (reader * list patch_call) :=
  names2 ← names_read sh (name_start r) i;
  '(names2, start) ← (if support_old r && (name_start r =? 2) &&
                         bool_decide (head (lst names2) = Some (cstr "ROW"))
                      then names2 ← names_read sh 3 i; Ok (names2, 3) else Ok (names2, name_start r));
  let prior := rd_names r in
  let all := all_true (lst names2) ∅ in
  let next names := Reader_ names (lst names2) all all (selector r) (needSelector r) (Zlen (lst names2))
                      (rd_sequential r) (rd_config r) (support_old r) start in
  let change md res :=
    '(subj, names2) ← res;
    Ok (next names2,
        [CallEvent true (ChangeColumn
           (OrderChange_ (indices prior) (lst prior) (indices names2) (lst names2) subj
              (match md with ORDER_CHANGE_MOVE => subj | _ => -1 end) md))]) in
  if says cmd1 "name"
  then Ok (next names2, [CallEvent true (ChangeName false false (lst names2))])
  else if says cmd1 "move" then change ORDER_CHANGE_MOVE (inferMove names2 prior)
  else if says cmd1 "rename" then change ORDER_CHANGE_RENAME (inferRename names2 prior)
  else if says cmd1 "insert" then change ORDER_CHANGE_INSERT (inferInsert names2 prior)
  else if says cmd1 "delete" then change ORDER_CHANGE_DELETE (inferDelete names2 prior)
  else Ok (next prior, []).

(** The cells of a record that stand for conditions or values: the entries [i] on,
    [n] of them, of columns that [wanted] marks. *)
Fixpoint read_cells (old : bool) (wanted : txt2bool) (ns : list (list Z)) (cells : list pcell) (i : Z)
    (n : nat) (m : txt2cell) : result txt2cell :=
  match n with
  | O => Ok m
  | S n => v ← rd cells i; name ← rd ns i;
           read_cells old wanted ns cells (i + 1) n
             (if flag wanted name && negb (old && bool_decide (v.1 = cstr "*")) then <[name := v]> m else m)
  end.
(** The operators: which of them have a star and an equals sign. *)
Fixpoint read_ops (ns : list (list Z)) (cells : list pcell) (i : Z) (n : nat) (mc ac : txt2bool) :
    result (txt2bool * txt2bool) :=
  match n with
  | O => Ok (mc, ac)
  | S n => name ← rd ns i; v ← rd cells i;
           read_ops ns cells (i + 1) n (<[name := bool_decide (42 ∈ v.1)]> mc)
             (<[name := bool_decide (61 ∈ v.1)]> ac)
  end.

(** A row change; its columns are the current ones. *)
Definition row_call (r : reader) (md : row_mode) (cd vl : txt2cell) : patch_call :=
  CallEvent (rd_sequential r)
    (ChangeRow (RowChange_ md cd vl ∅ ∅ (lst (rd_names r)) false (-2) (-2) (-2))
       (all_true (lst (rd_names r)) ∅) (rd_allNames r)).

Definition read_row (flags : CompareFlags) (sh : CsvSheet) (i : Z) (cmd1 : list Z) (r : reader) :
    result (reader * list patch_call) :=
  let ns := lst (rd_names r) in
  let n := Z.to_nat (rd_len r) in
  if says cmd1 "columns" || says cmd1 "name" then
    names2 ← names_read sh (name_start r) i;
    let all := all_true (lst names2) ∅ in
    Ok (Reader_ (PatchColumnNames_ (lst names2) (data (rd_names r)) (indices (rd_names r))) (rd_allNames r)
          all all (selector r) (needSelector r) (Zlen (lst names2)) (rd_sequential r) (rd_config r)
          (support_old r) (name_start r), [])
  else
  names2 ← names_readData sh (name_start r) i (rd_len r);
  let cells := data names2 in
  let conds l := read_cells (support_old r) (match_column r) ns l 0 n ∅ in
  let vals l := read_cells (support_old r) (assign_column r) ns l 0 n ∅ in
  let done := with_selector r (if needSelector r then cells else selector r) true true in
  let sent (ok : bool) md cd vl := Ok (done, if ok then [row_call r md cd vl] else []) in
  if says cmd1 "operate" || says cmd1 "act" then
    '(mc, ac) ← read_ops ns cells 0 n (match_column r) (assign_column r);
    Ok (Reader_ (rd_names r) (rd_allNames r) mc ac (selector r) (needSelector r) (rd_len r)
          (rd_sequential r) (rd_config r) (support_old r) (name_start r), [])
  else if says cmd1 "select" || says cmd1 "*" then Ok (with_selector r cells false true, [])
  else if says cmd1 "start" then
    Ok (with_selector r (selector r) (needSelector r) true,
        [CallEvent true (ChangeRow (set_mode no_change ROW_CHANGE_CONTEXT) ∅ [])])
  else if says cmd1 "after" then
    cd ← conds cells;
    Ok (with_selector r (selector r) (needSelector r) true, [row_call r ROW_CHANGE_CONTEXT cd ∅])
  else if says cmd1 "move" then
    cd ← conds (if needSelector r then cells else selector r); vl ← vals cells;
    sent true ROW_CHANGE_MOVE cd vl
  else if says cmd1 "etc" then Ok (with_selector r (selector r) (needSelector r) false, [])
  else if says cmd1 "update" || says cmd1 "=" then
    cd ← conds (if needSelector r then cells else selector r); vl ← vals cells;
    sent (canUpdate flags) ROW_CHANGE_UPDATE cd vl
  else if says cmd1 "insert" then vl ← vals cells; sent (canInsert flags) ROW_CHANGE_INSERT ∅ vl
  else if says cmd1 "delete" then cd ← conds cells; sent (canDelete flags) ROW_CHANGE_DELETE cd ∅
  else Ok (r, []).

(** One record.  A configuration that was read is sent before every later record
    that is not part of it, as [configSent] is never set. *)
Definition read_record (flags : CompareFlags) (sh : CsvSheet) (r : reader) (i : Z) :
    result (reader * list patch_call) :=
  '(cmd0, _) ← Typed.cell (s sh) 0 i;
  '(cmd1, _) ← Typed.cell (s sh) 1 i;
  let cfg := match rd_config r with
             | Some (a, b, c) => if says cmd0 "config" then [] else [CallConfig a b c]
             | None => []
             end in
  '(r, calls) ←
    (if says cmd0 "dtbl" then
       '(ver, _) ← Typed.cell (s sh) 3 i;
       Ok (if bool_decide (ver = cstr "0.2") then with_config r (rd_config r) true else r, [])
     else if says cmd0 "config" then
       '(v, _) ← Typed.cell (s sh) 2 i; r ← read_config r cmd1 v; Ok (r, [])
     else if (says cmd0 "sheet" || says cmd0 "table") && says cmd1 "name" then
       '(name, _) ← Typed.cell (s sh) 2 i; Ok (r, [CallSheet (CsvS.c_str name)])
     else if says cmd0 "column" then read_column sh i cmd1 r
     else if says cmd0 "row" || says cmd0 "link" then read_row flags sh i cmd1 r
     else Ok (r, []));
  Ok (r, cfg ++ calls).
Fixpoint read_records (flags : CompareFlags) (sh : CsvSheet) (r : reader) (i : Z) (n : nat) :
    result (reader * list patch_call) :=
  match n with
  | O => Ok (r, [])
  | S n => '(r, calls) ← read_record flags sh r i;
           '(r, rest) ← read_records flags sh r (i + 1) n; Ok (r, calls ++ rest)
  end.

(** [applyCsv] on the sheet that was read, between [mergeStart] and [mergeAllDone]. *)
Definition applyCsv (flags : CompareFlags) (sh : CsvSheet) : result (list patch_call) :=
  '(_, calls) ← read_records flags sh new_reader 0 (Z.to_nat (h (s sh)));
  Ok (calls ++ [CallEvent true MergeDone]).
