(* ===== verification/CsvPatchSpec.v ===== *)
(** * Differences as CSV text: what is written is read back

    The records that [MergeOutputCsvDiff] writes for the changes of a comparison are
    read by [PatchParser::applyCsv] as the same changes: the column changes with the
    columns numbered anew, the row changes with the conditions that were written. *)

From stdpp Require Import gmap.
From S2P Require Import Prelude Sheet SheetSpec CsvFile CsvFileSpec Viterbi OrderMerge OrderMergeSpec Mover.
From S2P Require Import MoverSpec Merger MergerSpec CsvDiff CsvPatch.
#[local] Open Scope Z_scope.
#[local] Arguments cstr s%_string.

(** ** Records *)

(** The record [row] is line [y] of a sheet whose lines have been filled up with
    empty cells. *)
Definition row_shown (sh : CsvSheet) (y : Z) (row : list pcell) : Prop :=
  Zlen row <= w (s sh) /\ 4 <= w (s sh) /\
  forall x, 0 <= x < w (s sh) ->
    CsvS.cellString sh x y = Ok (default (word []) (row !! Z.to_nat x)) /\
    Typed.cell (s sh) x y = Ok (default (word []) (row !! Z.to_nat x)).

(** The record [row] takes the reader from [r] to [r'] and makes the calls, in
    whatever sheet and line it is. *)
Definition reads_as (flags : CompareFlags) (row : list pcell) (r r' : reader) (calls : list patch_call) :
    Prop :=
  forall sh i, row_shown sh i row -> read_record flags sh r i = Ok (r', calls).

Inductive reads (flags : CompareFlags) : list (list pcell) -> reader -> reader -> list patch_call -> Prop :=
| reads_nil r : reads flags [] r r []
| reads_cons row rows r r1 r2 calls calls' :
    reads_as flags row r r1 calls -> reads flags rows r1 r2 calls' ->
    reads flags (row :: rows) r r2 (calls ++ calls').

Lemma reads_one flags row r r' calls : reads_as flags row r r' calls -> reads flags [row] r r' calls.
Proof. intros H. rewrite <- (app_nil_r calls). by eapply reads_cons, reads_nil. Qed.

Lemma reads_app flags rows rows' r r1 r2 calls calls' :
  reads flags rows r r1 calls -> reads flags rows' r1 r2 calls' ->
  reads flags (rows ++ rows') r r2 (calls ++ calls').
Proof. induction 1; intros H'; [done|]. rewrite <- app_assoc. cbn [app]. eapply reads_cons; eauto. Qed.

Lemma reads_sound flags rows r r' calls sh i :
  reads flags rows r r' calls ->
  (forall k row, rows !! k = Some row -> row_shown sh (i + Z.of_nat k) row) ->
  read_records flags sh r i (length rows) = Ok (r', calls).
Proof.
  intros H. revert i. induction H as [|row rows r r1 r2 calls calls' H _ IH]; intros i Hs; [done|].
  cbn [length read_records]. rewrite (H sh i), bind_Ok.
  - rewrite IH, bind_Ok; [done|]. intros k rw Hk.
    replace (i + 1 + Z.of_nat k) with (i + Z.of_nat (S k)) by lia. by apply Hs.
  - specialize (Hs 0%nat row eq_refl). by rewrite Z.add_0_r in Hs.
Qed.

(** The cells of a record after the two words. *)
Lemma shown_cell sh y a b cells x :
  row_shown sh y (a :: b :: cells) -> 2 <= x < w (s sh) ->
  CsvS.cellString sh x y = Ok (default (word []) (cells !! Z.to_nat (x - 2))).
Proof.
  intros (_ & _ & H) Hx. destruct (H x) as [-> _]; [lia|].
  replace (Z.to_nat x) with (S (S (Z.to_nat (x - 2)))) by lia. done.
Qed.

Lemma read_names_shown sh y a b pre ns n :
  row_shown sh y (a :: b :: (word <$> pre ++ ns)) -> Forall (fun t => t <> []) ns ->
  2 + Zlen pre + Z.of_nat n = w (s sh) -> read_names sh (2 + Zlen pre) y n = Ok ns.
Proof.
  intros Hs. pose proof Hs as (Hl & _). cbn [length] in Hl. rewrite length_fmap, length_app in Hl.
  revert pre ns Hs Hl. induction n as [|n IH]; intros pre ns Hs Hl Hne Hn; cbn [read_names].
  { destruct ns; [done|]. simpl in Hl. lia. }
  rewrite (shown_cell _ _ _ _ _ _ Hs), bind_Ok by lia.
  replace (Z.to_nat (2 + Zlen pre - 2)) with (length pre) by lia.
  rewrite list_lookup_fmap. destruct ns as [|t ns].
  { rewrite app_nil_r, lookup_ge_None_2 by lia. done. }
  rewrite list_lookup_middle by done. cbn. inversion_clear Hne as [|? ? Ht Hne'].
  rewrite bool_decide_eq_false_2 by done.
  specialize (IH (pre ++ [t]) ns). rewrite <- app_assoc in IH. rewrite length_app in IH.
  simpl in Hl. cbn [length] in IH.
  replace (2 + Z.of_nat (length pre + 1)) with (2 + Zlen pre + 1) in IH by lia.
  rewrite IH; [done|done|lia|done|lia].
Qed.

Lemma names_read_shown sh y a b ns :
  row_shown sh y (a :: b :: (word <$> ns)) -> Forall (fun t => t <> []) ns ->
  names_read sh 2 y = Ok (PatchColumnNames_ ns [] (seqZ 0 (Zlen ns))).
Proof.
  intros Hs Hne. pose proof Hs as (_ & Hw & _). unfold names_read.
  pose proof (read_names_shown sh y a b [] ns (Z.to_nat (w (s sh) - 2)) Hs Hne) as H.
  change (2 + Zlen []) with 2 in H. rewrite H by lia. done.
Qed.

Lemma readData_shown sh y a b cells :
  row_shown sh y (a :: b :: cells) -> names_readData sh 2 y (Zlen cells) = Ok (PatchColumnNames_ [] cells []).
Proof.
  intros Hs. pose proof Hs as (Hl & Hw & _). cbn [length] in Hl. unfold names_readData.
  rewrite (mapR_ok _ (fun x => default (word []) (cells !! Z.to_nat (x - 2)))).
  - rewrite bind_Ok. do 2 f_equal. apply list_eq. intros i. rewrite list_lookup_fmap.
    destruct (cells !! i) as [c|] eqn:E.
    + pose proof (lookup_lt_Some _ _ _ E). rewrite lookup_seqZ_lt by lia. cbn.
      replace (Z.to_nat (2 + Z.of_nat i - 2)) with i by lia. by rewrite E.
    + apply lookup_ge_None in E. by rewrite lookup_seqZ_ge by lia.
  - apply Forall_seqZ. intros x Hx. apply (shown_cell _ _ _ _ _ _ Hs). lia.
Qed.

Lemma shown_words sh y a b cells :
  row_shown sh y (a :: b :: cells) -> Typed.cell (s sh) 0 y = Ok a /\ Typed.cell (s sh) 1 y = Ok b.
Proof.
  intros (_ & Hw & H). destruct (H 0) as [_ E0]; [lia|]. destruct (H 1) as [_ E1]; [lia|].
  by rewrite E0, E1.
Qed.

(** ** Kinds of records *)

(** What all states of the reader on the way have in common. *)
Definition plain_reader (r : reader) : Prop :=
  rd_config r = None /\ support_old r = false /\ name_start r = 2 /\ rd_sequential r = true.

(** The reader after a record that names the columns. *)
Definition renamed (r : reader) (names : PatchColumnNames) (all : list (list Z)) : reader :=
  Reader_ names all (all_true (lst names) ∅) (all_true (lst names) ∅) (selector r) (needSelector r)
    (Zlen (lst names)) (rd_sequential r) (rd_config r) (support_old r) (name_start r).

Ltac words Hs :=
  let E0 := fresh "E" in let E1 := fresh "E" in
  destruct (shown_words _ _ _ _ _ Hs) as [E0 E1]; rewrite E0, bind_Ok; cbn [word]; rewrite E1, bind_Ok; cbn [word].

Lemma reads_dtbl flags r :
  plain_reader r ->
  reads_as flags [word (cstr "dtbl"); word (cstr "csv"); word (cstr "version"); word (cstr "0.5")] r r [].
Proof.
  intros (Hc & _) sh i Hs. unfold read_record. pose proof Hs as (_ & Hw & H). words Hs.
  destruct (H 3) as [_ E3]; [lia|]. rewrite Hc. change (says (cstr "dtbl") "dtbl") with true.
  rewrite E3. done.
Qed.

Lemma reads_column_name flags r ns :
  plain_reader r -> Forall (fun t => t <> []) ns ->
  reads_as flags (word (cstr "column") :: word (cstr "name") :: (word <$> ns)) r
    (renamed r (PatchColumnNames_ ns [] (seqZ 0 (Zlen ns))) ns)
    [CallEvent true (ChangeName false false ns)].
Proof.
  intros (Hc & Ho & Hst & Hq) Hne sh i Hs. unfold read_record. words Hs. rewrite Hc.
  unfold read_column, renamed. by rewrite Hst, Ho, (names_read_shown _ _ _ _ _ Hs Hne), bind_Ok.
Qed.

Lemma reads_link_name flags r ns :
  plain_reader r -> Forall (fun t => t <> []) ns ->
  reads_as flags (word (cstr "link") :: word (cstr "name") :: (word <$> ns)) r
    (renamed r (PatchColumnNames_ ns (data (rd_names r)) (indices (rd_names r))) (rd_allNames r)) [].
Proof.
  intros (Hc & Ho & Hst & Hq) Hne sh i Hs. unfold read_record. words Hs. rewrite Hc.
  unfold read_row. rewrite Hst, (names_read_shown _ _ _ _ _ Hs Hne), bind_Ok.
  unfold renamed. by rewrite Hst.
Qed.

(** The cells of the columns [ns] that are wanted. *)
Definition picked (wanted : txt2bool) (g : list Z -> pcell) (ns : list (list Z)) (m : txt2cell) : Prop :=
  forall k, m !! k = if bool_decide (k ∈ ns) && flag wanted k then Some (g k) else None.

Lemma rd_middle {A} (l l' : list A) x : rd (l ++ x :: l') (Zlen l) = Ok x.
Proof. apply rd_ok; [lia|]. by rewrite Nat2Z.id, list_lookup_middle. Qed.

Lemma read_cells_fun wanted g pre ns m :
  NoDup ns ->
  exists m', read_cells false wanted (pre ++ ns) (g <$> pre ++ ns) (Zlen pre) (length ns) m = Ok m' /\
    forall k, m' !! k = if bool_decide (k ∈ ns) && flag wanted k then Some (g k) else m !! k.
Proof.
  revert pre m. induction ns as [|n ns IH]; intros pre m Hnd; cbn [length read_cells].
  { exists m. split; [done|]. intros k. rewrite bool_decide_eq_false_2; [done|]. apply not_elem_of_nil. }
  apply list.NoDup_cons in Hnd as [Hn Hnd].
  rewrite rd_fmap, bind_Ok, rd_middle, bind_Ok. cbn [negb andb]. rewrite andb_true_r.
  destruct (IH (pre ++ [n]) (if flag wanted n then <[n := g n]> m else m) Hnd) as (m' & E & Hm).
  rewrite <- app_assoc, length_app, Nat2Z.inj_add in E. cbn [app length] in E.
  exists m'. split; [exact E|]. intros k. rewrite Hm.
  destruct (decide (k = n)) as [->|Hk].
  - rewrite (bool_decide_eq_false_2 (n ∈ ns)) by done. rewrite bool_decide_eq_true_2 by left. cbn [andb].
    destruct (flag wanted n); [by rewrite lookup_insert_eq|done].
  - replace (bool_decide (k ∈ n :: ns)) with (bool_decide (k ∈ ns)).
    + destruct (flag wanted n); [|done]. by rewrite lookup_insert_ne.
    + apply bool_decide_ext. rewrite elem_of_cons. tauto.
Qed.

Lemma read_cells_picked wanted g ns :
  NoDup ns ->
  exists m, read_cells false wanted ns (g <$> ns) 0 (length ns) ∅ = Ok m /\ picked wanted g ns m.
Proof.
  intros Hnd. destruct (read_cells_fun wanted g [] ns ∅ Hnd) as (m & E & Hm). exists m.
  split; [exact E|]. intros k. by rewrite Hm, lookup_empty.
Qed.

Lemma op_star a b : bool_decide (42 ∈ op_of a b) = a.
Proof. by destruct a, b. Qed.
Lemma op_equals a b : bool_decide (61 ∈ op_of a b) = b.
Proof. by destruct a, b. Qed.

Lemma flag_insert m n b k : flag (<[n := b]> m) k = if bool_decide (k = n) then b else flag m k.
Proof.
  unfold flag. case_bool_decide as E; [subst; by rewrite lookup_insert_eq|by rewrite lookup_insert_ne].
Qed.

Lemma read_ops_fun (a b : list Z -> bool) pre ns mc ac :
  exists mc' ac', read_ops (pre ++ ns) ((fun n => word (op_of (a n) (b n))) <$> pre ++ ns) (Zlen pre)
      (length ns) mc ac = Ok (mc', ac') /\
    (forall k, k ∈ ns -> flag mc' k = a k /\ flag ac' k = b k) /\
    (forall k, k ∉ ns -> flag mc' k = flag mc k /\ flag ac' k = flag ac k).
Proof.
  revert pre mc ac. induction ns as [|n ns IH]; intros pre mc ac; cbn [length read_ops].
  { exists mc, ac. split_and!; [done| |done]. by intros k ?%not_elem_of_nil. }
  rewrite rd_middle, bind_Ok, rd_fmap, bind_Ok.
  cbn [word fst]. rewrite op_star, op_equals.
  destruct (IH (pre ++ [n]) (<[n := a n]> mc) (<[n := b n]> ac)) as (mc' & ac' & E & Hin & Hout).
  rewrite <- app_assoc, length_app, Nat2Z.inj_add in E. cbn [app length] in E.
  exists mc', ac'. split; [exact E|].
  split; intros k Hk.
  - destruct (decide (k ∈ ns)) as [Hi|Hi]; [by apply Hin|]. destruct (Hout k Hi) as [-> ->].
    apply elem_of_cons in Hk as [->|]; [|done]. by rewrite !flag_insert, bool_decide_eq_true_2.
  - apply not_elem_of_cons in Hk as [Hne Hi]. destruct (Hout k Hi) as [-> ->].
    by rewrite !flag_insert, !bool_decide_eq_false_2.
Qed.

Section Rows.
Context (flags : CompareFlags) (r : reader) (ns : list (list Z)).
Context (Hplain : plain_reader r) (Hns : lst (rd_names r) = ns) (Hlen : rd_len r = Zlen ns) (Hnd : NoDup ns).

(** The record with the cells [g] of the current columns. *)
Definition row_record (kind tag : list Z) (g : list Z -> pcell) : list pcell :=
  word kind :: word tag :: (g <$> ns).

Lemma row_data kind tag g sh i :
  row_shown sh i (row_record kind tag g) ->
  Typed.cell (s sh) 0 i = Ok (word kind) /\ Typed.cell (s sh) 1 i = Ok (word tag) /\
  names_readData sh 2 i (rd_len r) = Ok (PatchColumnNames_ [] (g <$> ns) []).
Proof using Hlen.
  intros Hs. destruct (shown_words _ _ _ _ _ Hs) as [E0 E1]. split_and!; [done..|].
  rewrite Hlen, <- (length_fmap g ns). by apply (readData_shown _ _ _ _ _ Hs).
Qed.

(** A record about a row, read up to the cells. *)
Ltac row_start Hs :=
  let E0 := fresh "E" in let E1 := fresh "E" in let E2 := fresh "E" in
  destruct (row_data _ _ _ _ _ Hs) as (E0 & E1 & E2);
  unfold read_record; rewrite E0, bind_Ok; cbn [word]; rewrite E1, bind_Ok; cbn [word];
  match goal with H : rd_config r = None |- _ => rewrite H end;
  unfold read_row; match goal with H : name_start r = 2 |- _ => rewrite H end;
  rewrite E2, bind_Ok; cbn [data].

Ltac cells E :=
  match type of E with
  | read_cells _ _ _ _ _ _ _ = Ok ?m =>
      match goal with |- context [read_cells ?a ?b ?c ?d 0 ?n ?e] =>
        assert (read_cells a b c d 0 n e = Ok m) as -> by exact E; rewrite bind_Ok end
  end.

Lemma reads_act (a b : list Z -> bool) :
  exists mc ac, reads_as flags (row_record (cstr "link") (cstr "act") (fun n => word (op_of (a n) (b n)))) r
      (Reader_ (rd_names r) (rd_allNames r) mc ac (selector r) (needSelector r) (rd_len r) true None false 2)
      [] /\
    forall k, k ∈ ns -> flag mc k = a k /\ flag ac k = b k.
Proof using Hplain Hns Hlen.
  destruct Hplain as (Hc & Ho & Hst & Hq).
  destruct (read_ops_fun a b [] ns (match_column r) (assign_column r)) as (mc & ac & E & H & _).
  exists mc, ac. split; [|done]. intros sh i Hs. row_start Hs. rewrite Hns, Hlen, Nat2Z.id.
  match goal with |- context [read_ops ?a ?b 0 ?n ?c ?d] =>
    assert (read_ops a b 0 n c d = Ok (mc, ac)) as -> by exact E end.
  by rewrite Hc, Hq, Ho.
Qed.

Lemma reads_select g :
  reads_as flags (row_record (cstr "row") (cstr "select") g) r (with_selector r (g <$> ns) false true) [].
Proof using Hplain Hlen.
  destruct Hplain as (Hc & Ho & Hst & Hq). intros sh i Hs. by row_start Hs.
Qed.

Definition called (md : row_mode) (cd vl : txt2cell) : list patch_call :=
  [CallEvent true (ChangeRow (RowChange_ md cd vl ∅ ∅ ns false (-2) (-2) (-2)) (all_true ns ∅)
                     (rd_allNames r))].
Definition finished (l : list pcell) : reader :=
  with_selector r (if needSelector r then l else selector r) true true.

Lemma row_call_called md cd vl : [row_call r md cd vl] = called md cd vl.
Proof using Hplain Hns. destruct Hplain as (_ & _ & _ & Hq). unfold row_call, called. by rewrite Hq, Hns. Qed.

Lemma reads_start g :
  reads_as flags (row_record (cstr "row") (cstr "start") g) r
    (with_selector r (selector r) (needSelector r) true)
    [CallEvent true (ChangeRow (set_mode no_change ROW_CHANGE_CONTEXT) ∅ [])].
Proof using Hplain Hlen. destruct Hplain as (Hc & Ho & Hst & Hq). intros sh i Hs. by row_start Hs. Qed.

Lemma reads_after g :
  exists cd, reads_as flags (row_record (cstr "row") (cstr "after") g) r
      (with_selector r (selector r) (needSelector r) true) (called ROW_CHANGE_CONTEXT cd ∅) /\
    picked (match_column r) g ns cd.
Proof using Hplain Hns Hlen Hnd.
  pose proof Hplain as (Hc & Ho & Hst & Hq).
  destruct (read_cells_picked (match_column r) g ns Hnd) as (cd & E & Hcd). exists cd. split; [|done].
  intros sh i Hs. row_start Hs. rewrite <- row_call_called, Hns, Hlen, Nat2Z.id, Ho.
  by cells E.
Qed.

Lemma reads_change (tag : list Z) md g gs :
  (tag, md) = (cstr "update", ROW_CHANGE_UPDATE) /\ canUpdate flags = true \/
  (tag, md) = (cstr "move", ROW_CHANGE_MOVE) ->
  (if needSelector r then g <$> ns else selector r) = gs <$> ns ->
  exists cd vl, reads_as flags (row_record (cstr "row") tag g) r (finished (g <$> ns)) (called md cd vl) /\
    picked (match_column r) gs ns cd /\ picked (assign_column r) g ns vl.
Proof using Hplain Hns Hlen Hnd.
  intros Htag Hsel. pose proof Hplain as (Hc & Ho & Hst & Hq).
  destruct (read_cells_picked (match_column r) gs ns Hnd) as (cd & E & Hcd).
  destruct (read_cells_picked (assign_column r) g ns Hnd) as (vl & E' & Hvl).
  exists cd, vl. split; [|done]. intros sh i Hs.
  unfold finished. destruct Htag as [[[= -> ->] Hup]|[= -> ->]]; row_start Hs;
    rewrite <- row_call_called, Hns, Hlen, Nat2Z.id, Ho, ?Hup, Hsel; cells E; by cells E'.
Qed.

Lemma reads_insert g :
  canInsert flags = true ->
  exists vl, reads_as flags (row_record (cstr "row") (cstr "insert") g) r (finished (g <$> ns))
      (called ROW_CHANGE_INSERT ∅ vl) /\ picked (assign_column r) g ns vl.
Proof using Hplain Hns Hlen Hnd.
  intros Hin. pose proof Hplain as (Hc & Ho & Hst & Hq).
  destruct (read_cells_picked (assign_column r) g ns Hnd) as (vl & E & Hvl). exists vl. split; [|done].
  intros sh i Hs. row_start Hs. rewrite <- row_call_called, Hns, Hlen, Nat2Z.id, Ho, Hin. by cells E.
Qed.

Lemma reads_delete g :
  canDelete flags = true ->
  exists cd, reads_as flags (row_record (cstr "row") (cstr "delete") g) r (finished (g <$> ns))
      (called ROW_CHANGE_DELETE cd ∅) /\ picked (match_column r) g ns cd.
Proof using Hplain Hns Hlen Hnd.
  intros Hdel. pose proof Hplain as (Hc & Ho & Hst & Hq).
  destruct (read_cells_picked (match_column r) g ns Hnd) as (cd & E & Hcd). exists cd. split; [|done].
  intros sh i Hs. row_start Hs. rewrite <- row_call_called, Hns, Hlen, Nat2Z.id, Ho, Hdel. by cells E.
Qed.
End Rows.

(** ** Planning a row *)

Definition is_in (k : list Z) (ns : list (list Z)) : bool := bool_decide (k ∈ ns).

Lemma is_in_cons k n ns : is_in k (n :: ns) = bool_decide (k = n) || is_in k ns.
Proof.
  unfold is_in. rewrite <- bool_decide_or. apply bool_decide_ext. by rewrite elem_of_cons.
Qed.

Lemma touch_lookup m n k : touch m n !! k = if bool_decide (k = n) then Some (flag m n) else m !! k.
Proof.
  unfold touch, flag. destruct (m !! n) as [b|] eqn:E; case_bool_decide as Hk; subst; try done.
  - by rewrite lookup_insert_eq.
  - by rewrite lookup_insert_ne.
Qed.
Lemma touch_flag m n k : flag (touch m n) k = flag m k.
Proof. unfold flag at 1. rewrite touch_lookup. case_bool_decide as E; [by subst|done]. Qed.

(** Reading the marks with [[]] sets the missing ones to [false]. *)
Definition touched (yes : bool) (ns : list (list Z)) (m m' : txt2bool) : Prop :=
  forall k, m' !! k = if yes && is_in k ns then Some (flag m k) else m !! k.

Lemma touched_nil yes m : touched yes [] m m.
Proof. intros k. unfold is_in. rewrite bool_decide_eq_false_2 by apply not_elem_of_nil. by rewrite andb_false_r. Qed.

Lemma touched_flag yes ns m m' : touched yes ns m m' -> forall k, flag m' k = flag m k.
Proof. intros H k. unfold flag at 1. rewrite H. by destruct (_ && _). Qed.

Lemma touched_cons yes n ns m m' :
  touched yes ns (if yes then touch m n else m) m' -> touched yes (n :: ns) m m'.
Proof.
  intros H k. rewrite H, is_in_cons. destruct yes; cbn [andb]; [|done].
  rewrite touch_flag, touch_lookup. destruct (is_in k ns); [by rewrite orb_true_r|].
  rewrite orb_false_r. case_bool_decide as E; [by subst|done].
Qed.

Lemma touched_same yes ns m m' :
  touched yes ns m m' -> (forall n, n ∈ ns -> is_Some (m !! n)) -> m' = m.
Proof.
  intros H Hs. apply map_eq. intros k. rewrite H. destruct yes; [|done]. cbn [andb]. unfold is_in.
  case_bool_decide as E; [|done]. destruct (Hs k E) as [b Hb]. unfold flag. by rewrite Hb.
Qed.

Definition inserting (c : RowChange) : bool := match mode c with ROW_CHANGE_INSERT => true | _ => false end.
Definition deleting (c : RowChange) : bool := match mode c with ROW_CHANGE_DELETE => true | _ => false end.

(** The marks after a column has been planned. *)
Lemma wants_flags c ix a a' n :
  flag (p_prevSelect a') n = flag (p_prevSelect a) n ->
  flag (p_prevDescribe a') n = flag (p_prevDescribe a) n -> wants c ix a' n = wants c ix a n.
Proof. intros H1 H2. unfold wants. by rewrite H1, H2. Qed.

Lemma plan_row_spec c ix (W : list Z -> bool * bool) ns a :
  (forall n, n ∈ ns -> wants c ix a n = Ok (W n)) ->
  exists a', plan_row c ix a ns = Ok a' /\
    p_ops a' = p_ops a ++ ((fun n => op_of (W n).1 (W n).2) <$> ns) /\
    (forall k, p_select a' !! k = if is_in k ns then Some (W k).1 else p_select a !! k) /\
    (forall k, p_describe a' !! k = if is_in k ns then Some (W k).2 else p_describe a !! k) /\
    (forall k, flag (p_active a') k = is_in k ns && ((W k).1 || (W k).2) || flag (p_active a) k) /\
    touched (inserting c) ns (p_prevSelect a) (p_prevSelect a') /\
    touched (deleting c) ns (p_prevDescribe a) (p_prevDescribe a').
Proof.
  revert a. induction ns as [|n ns IH]; intros a HW; cbn [plan_row].
  { exists a. rewrite app_nil_r. split_and!; try done; apply touched_nil. }
  unfold plan_column. rewrite HW, bind_Ok by left. destruct (W n) as [m d] eqn:EW. rewrite bind_Ok.
  set (a1 := RowPlan _ _ _ _ _ _). destruct (IH a1) as (a' & E & Ho & Hse & Hde & Hac & Hps & Hpd).
  { intros k Hk. rewrite <- HW by (by right).
    apply wants_flags; unfold a1; cbn [p_prevSelect p_prevDescribe]; destruct (mode c);
      (done || apply touch_flag). }
  exists a'. split; [done|]. split_and!.
  - rewrite Ho. unfold a1. cbn [p_ops]. rewrite <- app_assoc. cbn [app]. rewrite fmap_cons, EW. done.
  - intros k. rewrite Hse, is_in_cons. unfold a1. cbn [p_select]. destruct (is_in k ns); [by rewrite orb_true_r|].
    rewrite orb_false_r. case_bool_decide as Ek; [subst; by rewrite lookup_insert_eq, EW|by rewrite lookup_insert_ne].
  - intros k. rewrite Hde, is_in_cons. unfold a1. cbn [p_describe]. destruct (is_in k ns); [by rewrite orb_true_r|].
    rewrite orb_false_r. case_bool_decide as Ek; [subst; by rewrite lookup_insert_eq, EW|by rewrite lookup_insert_ne].
  - intros k. rewrite Hac, is_in_cons. unfold a1. cbn [p_active].
    destruct (is_in k ns) eqn:Ei; [rewrite orb_true_r; cbn [andb]|rewrite orb_false_r; cbn [andb orb]].
    + destruct ((W k).1 || (W k).2) eqn:Ew; [done|]. cbn [orb]. destruct (m || d) eqn:Emd; [|done].
      rewrite flag_insert. case_bool_decide as Ek; [|done]. subst. rewrite EW in Ew. cbn in Ew. congruence.
    + destruct (m || d) eqn:Emd.
      * rewrite flag_insert. case_bool_decide as Ek; [|done]. subst. rewrite EW. cbn. by rewrite Emd.
      * case_bool_decide as Ek; [|done]. subst. rewrite EW. cbn. by rewrite Emd.
  - apply touched_cons. unfold inserting. unfold a1 in Hps. cbn [p_prevSelect] in Hps.
    unfold inserting in Hps. by destruct (mode c).
  - apply touched_cons. unfold deleting. unfold a1 in Hpd. cbn [p_prevDescribe] in Hpd.
    unfold deleting in Hpd. by destruct (mode c).
Qed.

(** ** The writer and the reader side by side *)

Definition op_in (d : csvdiff) (n : list Z) : list Z :=
  op_of (flag (showForSelect d) n) (flag (showForDescribe d) n).
Definition in_use (d : csvdiff) (n : list Z) : bool :=
  flag (showForSelect d) n || flag (showForDescribe d) n.

Record joined (d : csvdiff) (r : reader) : Prop := Joined {
  j_name : currentSheetName d = pendingSheetName d;
  j_plain : plain_reader r;
  j_need : needSelector r = true;
  j_lst : lst (rd_names r) = nops d;
  j_len : rd_len r = Zlen (nops d)
}.
(** The reader uses the columns that the writer uses, for what the writer does. *)
Definition agree (d : csvdiff) (r : reader) : Prop :=
  forall n, n ∈ nops d -> flag (match_column r) n = flag (showForSelect d) n /\
                          flag (assign_column r) n = flag (showForDescribe d) n.
Definition all_used (d : csvdiff) (r : reader) : Prop :=
  forall n, n ∈ nops d -> flag (match_column r) n = true /\ flag (assign_column r) n = true.

(** The names of the columns have been written, or are those of all columns. *)
Definition naming (N : list (list Z)) (d : csvdiff) : Prop :=
  showedColumns d = true /\ out_columns d = nops d \/
  showedColumns d = false /\ nops d = [] /\ out_columns d = N.

(** Between two rows, and before the first row. *)
Record settled (N : list (list Z)) (d : csvdiff) (r : reader) : Prop := Settled {
  st_joined : joined d r;
  st_ops : ops d = op_in d <$> N;
  st_nops : nops d = filter (fun n => in_use d n = true) N;
  st_names : naming N d;
  st_keys : forall n, n ∈ N -> is_Some (showForSelect d !! n) /\ is_Some (showForDescribe d !! n);
  st_agree : agree d r
}.
Record first (N O : list (list Z)) (d : csvdiff) (r : reader) : Prop := First {
  fi_joined : joined d r;
  fi_ops : ops d = [];
  fi_select : showForSelect d = all_true O ∅;
  fi_describe : showForDescribe d = all_true O ∅;
  fi_names : naming N d;
  fi_nops : showedColumns d = false /\ O = N \/ nops d = N /\ all_used d r
}.

Lemma all_true_lookup O m k : all_true O m !! k = if is_in k O then Some true else m !! k.
Proof.
  unfold all_true. revert m. induction O as [|n O IH]; intros m; [done|]. cbn [foldl].
  rewrite IH, is_in_cons. destruct (is_in k O); [by rewrite orb_true_r|]. rewrite orb_false_r.
  case_bool_decide as E; [subst; by rewrite lookup_insert_eq|by rewrite lookup_insert_ne].
Qed.

Lemma all_true_flag ns n : n ∈ ns -> flag (all_true ns ∅) n = true.
Proof. intros Hn. unfold flag, is_in. rewrite all_true_lookup. unfold is_in. by rewrite bool_decide_eq_true_2. Qed.

Lemma active_ops_fun (active : txt2bool) (f : list Z -> list Z) pre ns :
  active_ops active ns (f <$> pre ++ ns) (Zlen pre) = Ok (f <$> active_names active ns).
Proof.
  revert pre. induction ns as [|n ns IH]; intros pre; [done|]. cbn [active_ops].
  specialize (IH (pre ++ [n])). rewrite <- app_assoc, length_app, Nat2Z.inj_add in IH. cbn [app length] in IH.
  assert (active_ops active ns (f <$> pre ++ n :: ns) (Zlen pre + 1) =
          Ok (f <$> active_names active ns)) as -> by exact IH.
  rewrite bind_Ok. unfold active_names. destruct (flag active n) eqn:E.
  - rewrite rd_fmap, bind_Ok, filter_cons_True by done. done.
  - by rewrite filter_cons_False by congruence.
Qed.

Lemma put_record_spec d row :
  currentSheetName d = pendingSheetName d ->
  put_record d row = with_out d (add_records (out_sheet d) [row]) (currentSheetName d).
Proof.
  intros H. unfold put_record, clearThroat. rewrite bool_decide_eq_false_2 by (intros Hn; by apply Hn). done.
Qed.

(** When no operators are written, those that the reader has are right. *)
Lemma no_act N O d r c a' (W : list Z -> bool * bool) :
  settled N d r \/ first N O d r ->
  touched (inserting c) N (showForSelect d) (p_prevSelect a') ->
  touched (deleting c) N (showForDescribe d) (p_prevDescribe a') ->
  (forall k, p_select a' !! k = if is_in k N then Some (W k).1 else None) ->
  (forall k, p_describe a' !! k = if is_in k N then Some (W k).2 else None) ->
  p_prevSelect a' = p_select a' -> p_prevDescribe a' = p_describe a' ->
  forall n, n ∈ N -> W n = (flag (showForSelect d) n, flag (showForDescribe d) n) /\
                     (first N O d r -> W n = (true, true)).
Proof.
  intros Hst Hps Hpd Hs Hd Es Ed n Hn.
  assert (is_in n N = true) as Hin by (by apply bool_decide_eq_true_2).
  assert ((W n).1 = flag (showForSelect d) n /\ (W n).2 = flag (showForDescribe d) n) as [E1 E2].
  { rewrite <- (touched_flag _ _ _ _ Hps n), <- (touched_flag _ _ _ _ Hpd n), Es, Ed. unfold flag.
    by rewrite Hs, Hd, Hin. }
  split; [by rewrite <- E1, <- E2; destruct (W n)|]. intros Hf. pose proof Hf as [_ _ F1 F2 _ _].
  specialize (Hps n). specialize (Hpd n). rewrite Es, Hs, Hin, F1, all_true_lookup in Hps.
  rewrite Ed, Hd, Hin, F2, all_true_lookup in Hpd. rewrite andb_true_r in Hps, Hpd.
  destruct (is_in n O) eqn:EO.
  - rewrite (surjective_pairing (W n)), E1, E2, F1, F2. unfold flag. by rewrite !all_true_lookup, EO.
  - rewrite lookup_empty in Hps, Hpd. unfold inserting, deleting in *. by destruct (mode c).
Qed.

(** The call that a record with the names of the columns makes. *)
Definition name_call (N : list (list Z)) (d d' : csvdiff) : list patch_call :=
  if showedColumns d' && negb (showedColumns d) then [CallEvent true (ChangeName false false N)] else [].

(** A cell that survives being written as text: its text does, and if it is a null,
    it has the text that the reader gives nulls. *)
Definition fit (c : pcell) : Prop := cell_ok c /\ norm c = c.
Definition fit_text (t : list Z) : Prop := fit (word t).
Definition fit_row (row : list pcell) : Prop := row <> [] /\ Forall fit row.
Definition fit_rows (rows : list (list pcell)) : Prop := Forall fit_row rows.
Ltac fit_word := split; [split_and!; [by repeat constructor|done|by intros []]|done].

Lemma words_fit a b ns :
  fit_text a -> fit_text b -> Forall fit_text ns -> fit_row (word a :: word b :: (word <$> ns)).
Proof. intros Ha Hb Hn. split; [done|]. constructor; [done|]. constructor; [done|]. by apply Forall_fmap. Qed.
Ltac plain_words := apply words_fit; [fit_word|fit_word|done].

Lemma show_names_step flags N d r lnops :
  joined d r -> naming N d -> Forall (fun t => t <> []) N -> Forall (fun t => t <> []) lnops ->
  Forall fit_text N -> Forall fit_text lnops ->
  let d' := show_names d lnops in
  exists rows r', out_sheet d' = add_records (out_sheet d) rows /\ reads flags rows r r' (name_call N d d') /\
    joined d' r' /\ naming N d' /\ nops d' = lnops /\ fit_rows rows /\
    (if bool_decide (lnops = nops d) then d' = d /\ r' = r
     else all_used d' r' /\ showedColumns d' = true) /\
    rd_allNames r' = (if bool_decide (name_call N d d' = []) then rd_allNames r else N).
Proof.
  intros Hj Hnm HN Hl Hn1 Hn2 d'. unfold d', show_names. case_bool_decide as E.
  2: { assert (lnops = nops d) as E' by (destruct (decide (lnops = nops d)); tauto).
       exists [], r. rewrite bool_decide_eq_true_2 by done. unfold name_call.
       destruct (showedColumns d); cbn; (split_and!; try done; [apply reads_nil|constructor]). }
  destruct Hj as [Hname Hp Hneed _ _]. rewrite (bool_decide_eq_false_2 (lnops = nops d)) by done.
  destruct Hnm as [[Hsh Hcols]|(Hsh & Hno & Hcols)]; rewrite Hsh; cbn [negb].
  - rewrite bool_decide_eq_true_2, put_record_spec by congruence.
    eexists _, _. split; [reflexivity|]. unfold name_call. rewrite Hsh. cbn [showedColumns negb andb].
    split; [by apply reads_one, reads_link_name|]. split_and!; try done.
    + by left.
    + constructor; [plain_words|constructor].
    + intros n Hn. split; by apply all_true_flag.
  - rewrite Hcols, put_record_spec by done. unfold name_call. rewrite Hsh. cbn [showedColumns negb andb with_out out_columns].
    rewrite Hcols. case_bool_decide as E2.
    + rewrite put_record_spec by done. exists [word (cstr "column") :: word (cstr "name") :: (word <$> N);
        word (cstr "link") :: word (cstr "name") :: (word <$> lnops)]. eexists. split; [reflexivity|].
      split; [by eapply (reads_cons _ _ [_] _ _ _ [_] []); [apply reads_column_name|apply reads_one, reads_link_name]|].
      split_and!; try done.
      * by left.
      * constructor; [plain_words|constructor; [plain_words|constructor]].
      * intros n Hn. split; by apply all_true_flag.
    + assert (N = lnops) as <- by (destruct (decide (N = lnops)); tauto).
      eexists _, _. split; [reflexivity|]. split; [by apply reads_one, reads_column_name|].
      split_and!; try done.
      * by left.
      * constructor; [plain_words|constructor].
      * intros n Hn. split; by apply all_true_flag.
Qed.

(** The state of the writer after a row has been planned. *)
Definition planned (d : csvdiff) (a : row_plan) : csvdiff :=
  CsvDiff_ (out_sheet d) (p_ops a) (nops d) (p_active a) (p_select a) (p_describe a) (p_prevSelect a)
    (p_prevDescribe a) (out_columns d) (showedColumns d) (currentSheetName d) (pendingSheetName d).

Lemma show_names_fields d l :
  let d' := show_names d l in
  ops d' = ops d /\ activeColumn d' = activeColumn d /\ showForSelect d' = showForSelect d /\
  showForDescribe d' = showForDescribe d /\ prevSelect d' = prevSelect d /\ prevDescribe d' = prevDescribe d.
Proof. unfold show_names, put_record, clearThroat. by repeat case_match. Qed.

Lemma filter_ext_in {A} (f g : A -> bool) (l : list A) :
  (forall x, x ∈ l -> f x = g x) -> filter (fun x => f x = true) l = filter (fun x => g x = true) l.
Proof.
  intros H. induction l as [|x l IH]; [done|]. rewrite !filter_cons, (H x) by left.
  rewrite IH; [done|]. intros y Hy. apply H. by right.
Qed.

Lemma op_fit a b : fit_text (op_of a b).
Proof. destruct a, b; fit_word. Qed.

Lemma op_of_inj a b a' b' : op_of a b = op_of a' b' -> a = a' /\ b = b'.
Proof. by destruct a, b, a', b'. Qed.

Section Operate.
Context (flags : CompareFlags) (N O : list (list Z)) (c : RowChange) (a : row_plan) (W : list Z -> bool * bool).
Context (HN : N <> []) (Hnd : NoDup N) (Hne : Forall (fun t => t <> []) N) (Hnul : Forall fit_text N).
Context (Hnames : rc_names c = N).
Context (Hops : p_ops a = (fun n => op_of (W n).1 (W n).2) <$> N).
Context (Hsel : forall k, p_select a !! k = if is_in k N then Some (W k).1 else None).
Context (Hdes : forall k, p_describe a !! k = if is_in k N then Some (W k).2 else None).
Context (Hact : forall k, flag (p_active a) k = is_in k N && ((W k).1 || (W k).2)).

Lemma planned_flags d n :
  n ∈ N -> flag (showForSelect (planned d a)) n = (W n).1 /\ flag (showForDescribe (planned d a)) n = (W n).2.
Proof using Hsel Hdes.
  intros Hn. unfold flag. cbn [showForSelect showForDescribe planned]. rewrite Hsel, Hdes.
  unfold is_in. by rewrite bool_decide_eq_true_2.
Qed.

Lemma planned_use d : active_names (p_active a) N = filter (fun n => in_use (planned d a) n = true) N.
Proof using Hact Hsel Hdes.
  unfold active_names. apply list_filter_iff. intros k. rewrite Hact. unfold in_use, flag.
  cbn [showForSelect showForDescribe planned]. rewrite Hsel, Hdes. by destruct (is_in k N).
Qed.

Lemma active_sub n : n ∈ active_names (p_active a) N -> n ∈ N.
Proof using Type. by intros [_ ?]%list_elem_of_filter. Qed.

(** A plan with the operators of the row before it. *)
Lemma same_plan d r :
  settled N d r \/ first N O d r -> p_ops a = ops d -> settled N (planned d a) r /\ showedColumns d = showedColumns (planned d a).
Proof using HN Hops Hsel Hdes Hact.
  intros Hst E. split; [|done]. destruct Hst as [Hst|[_ Hno _ _ _ _]].
  2: { rewrite Hops, Hno in E. by apply fmap_nil_inv in E. }
  destruct Hst as [Hj Ho Hn Hnm Hk Hag].
  assert (forall n, n ∈ N -> flag (showForSelect d) n = (W n).1 /\ flag (showForDescribe d) n = (W n).2) as HW.
  { intros n Hin. apply list_elem_of_lookup in Hin as [i Hi]. rewrite Hops, Ho in E.
    apply (f_equal (fun l => l !! i)) in E. rewrite !list_lookup_fmap, Hi in E. injection E as E.
    unfold op_in in E. apply op_of_inj in E as [-> ->]. done. }
  assert (nops d = filter (fun n => in_use (planned d a) n = true) N) as Hn'.
  { rewrite Hn. apply filter_ext_in. intros n Hin. unfold in_use. destruct (HW n Hin) as [-> ->].
    by destruct (planned_flags d n Hin) as [-> ->]. }
  split; [by destruct Hj|cbn [ops planned]; rewrite Hops; apply list_fmap_ext|done|done| |].
  - intros i n Hi. apply list_elem_of_lookup_2 in Hi. unfold op_in.
    by destruct (planned_flags d n Hi) as [-> ->].
  - intros n Hin. cbn [planned showForSelect showForDescribe]. rewrite Hsel, Hdes. unfold is_in.
    rewrite bool_decide_eq_true_2 by done. eauto.
  - intros n Hin. cbn [nops planned] in Hin. destruct (Hag n Hin) as [-> ->].
    rewrite Hn in Hin. apply list_elem_of_filter in Hin as [_ Hin].
    destruct (planned_flags d n Hin) as [-> ->]. by apply HW.
Qed.

(** The records before the cells of a row: afterwards the reader uses the columns
    as the writer does. *)
Lemma operate_step d r :
  settled N d r \/ first N O d r -> joined d r -> naming N d ->
  touched (inserting c) N (showForSelect d) (p_prevSelect a) ->
  touched (deleting c) N (showForDescribe d) (p_prevDescribe a) ->
  exists d2 rows r2,
    (if bool_decide (p_ops a <> ops d) then operateRow (planned d a) c else Ok (planned d a)) = Ok d2 /\
    out_sheet d2 = add_records (out_sheet d) rows /\ reads flags rows r r2 (name_call N d d2) /\
    settled N d2 r2 /\ fit_rows rows /\ showForSelect d2 = p_select a /\ showForDescribe d2 = p_describe a /\
    activeColumn d2 = p_active a /\
    rd_allNames r2 = (if bool_decide (name_call N d d2 = []) then rd_allNames r else N).
Proof using Type*.
  intros Hst Hj Hnm Hts Htd. case_bool_decide as Ec.
  2: { assert (p_ops a = ops d) as E by (destruct (decide (p_ops a = ops d)); tauto).
       destruct (same_plan d r Hst E) as [Hs Esh]. exists (planned d a), [], r.
       unfold name_call. rewrite <- Esh. destruct (showedColumns d); cbn;
         (split_and!; try done; [apply reads_nil|constructor]). }
  unfold operateRow. rewrite Hnames. cbn [activeColumn planned].
  set (lnops := active_names (p_active a) N).
  assert (Forall (fun t => t <> []) lnops /\ Forall fit_text lnops) as [Hl1 Hl2].
  { rewrite !Forall_forall in *. split; intros n Hn%list_elem_of_In%active_sub%list_elem_of_In; auto. }
  destruct (show_names_step flags N (planned d a) r lnops) as
    (rows & r1 & Hout & Hr & Hj1 & Hnm1 & Hn1 & Hnul1 & Hcase & Hall); try done.
  { by destruct Hj. }
  destruct (show_names_fields (planned d a) lnops) as (F1 & F2 & F3 & F4 & F5 & F6).
  set (d1 := show_names (planned d a) lnops) in *.
  assert (forall d2, ops d2 = ops d1 -> showForSelect d2 = showForSelect d1 ->
    showForDescribe d2 = showForDescribe d1 -> nops d2 = nops d1 -> forall r2, joined d2 r2 -> naming N d2 ->
    agree d2 r2 -> settled N d2 r2) as Hsettle.
  { intros d2 G1 G2 G3 G4 r2 Hj2 Hnm2 Hag2. split; try done.
    - rewrite G1, F1. cbn [ops planned]. rewrite Hops. apply list_fmap_ext. intros i n Hi.
      apply list_elem_of_lookup_2 in Hi. unfold op_in. rewrite G2, G3, F3, F4.
      by destruct (planned_flags d n Hi) as [-> ->].
    - rewrite G4, Hn1. unfold lnops. rewrite (planned_use d). unfold in_use. by rewrite G2, G3, F3, F4.
    - intros n Hn. rewrite G2, G3, F3, F4. cbn [showForSelect showForDescribe planned].
      rewrite Hsel, Hdes. unfold is_in. rewrite bool_decide_eq_true_2 by done. eauto. }
  rewrite F1, F2, F3, F4, F5, F6. cbn [ops planned activeColumn showForSelect showForDescribe prevSelect prevDescribe].
  destruct (bool_decide (p_prevSelect a <> p_select a) || bool_decide (p_prevDescribe a <> p_describe a)) eqn:Eact.
  - rewrite Hops. pose proof (active_ops_fun (p_active a) (fun n => op_of (W n).1 (W n).2) [] N) as Hao.
    cbn [app length] in Hao. change (Z.of_nat 0) with 0 in Hao. rewrite Hao, bind_Ok. clear Hao. fold lnops.
    destruct Hj1 as [J1 J2 J3 J4 J5]. rewrite put_record_spec by done. rewrite Hn1 in J4, J5.
    destruct (reads_act flags r1 lnops J2 J4 J5 (fun n => (W n).1) (fun n => (W n).2)) as (mc & ac & Hra & Hfl).
    eexists _, (rows ++ [_]), _. split; [reflexivity|].
    split; [cbn [out_sheet with_out]; rewrite Hout; unfold add_records; by rewrite foldl_app|].
    split; [rewrite <- (app_nil_r (name_call _ _ _)); eapply reads_app; [exact Hr|apply reads_one]|].
    { unfold row_record in Hra. rewrite <- (list_fmap_compose (fun n => op_of (W n).1 (W n).2) word).
      exact Hra. }
    split_and!; try done.
    + apply Hsettle; try done.
      * split; cbn; try done; congruence.
      * intros n Hn. cbn [nops with_out] in Hn. rewrite Hn1 in Hn. cbn [match_column assign_column showForSelect
          showForDescribe with_out]. rewrite F3, F4. destruct (Hfl n Hn) as [-> ->].
        by destruct (planned_flags d n (active_sub n Hn)) as [-> ->].
    + apply Forall_app. split; [done|]. constructor; [|constructor]. apply words_fit;
        [fit_word|fit_word|]. apply Forall_fmap, Forall_forall. intros n _.
      apply op_fit.
  - apply orb_false_iff in Eact as [Ea Eb].
    assert (p_prevSelect a = p_select a /\ p_prevDescribe a = p_describe a) as [Es Ed].
    { apply bool_decide_eq_false in Ea, Eb. split; [destruct (decide (p_prevSelect a = p_select a))|
        destruct (decide (p_prevDescribe a = p_describe a))]; tauto. }
    pose proof (no_act N O d r c a W Hst Hts Htd Hsel Hdes Es Ed) as HW.
    exists d1, rows, r1. split_and!; try done. apply Hsettle; try done.
    intros n Hn. rewrite Hn1 in Hn. pose proof (active_sub n Hn) as HnN. rewrite F3, F4.
    destruct (planned_flags d n HnN) as [-> ->]. destruct Hst as [Hst|Hst].
    + assert (lnops = nops d) as El.
      { rewrite (st_nops _ _ _ Hst). unfold lnops. rewrite (planned_use d). apply filter_ext_in.
        intros k Hk. unfold in_use. destruct (planned_flags d k Hk) as [-> ->]. by destruct (HW k Hk) as [-> _]. }
      rewrite bool_decide_eq_true_2 in Hcase by done. destruct Hcase as [_ ->].
      destruct (HW n HnN) as [-> _]. apply (st_agree _ _ _ Hst). by rewrite <- El.
    + destruct (HW n HnN) as [_ HWt]. rewrite (HWt Hst). cbn [fst snd].
      destruct (decide (lnops = nops d)) as [El|El].
      * rewrite bool_decide_eq_true_2 in Hcase by done. destruct Hcase as [_ ->].
        destruct (fi_nops _ _ _ _ Hst) as [[Hsh _]|[_ Hu]]; [|apply Hu; by rewrite <- El].
        destruct Hnm as [[? _]|(_ & Hno & _)]; [congruence|]. rewrite El, Hno in Hn. by apply not_elem_of_nil in Hn.
      * rewrite bool_decide_eq_false_2 in Hcase by done. destruct Hcase as [Hu _]. apply Hu. by rewrite Hn1.
Qed.
End Operate.

(** ** The cells of a row *)

Definition cell_for (d : csvdiff) (c : RowChange) (select update : bool) (n : list Z) : pcell :=
  match shows_cond d c select n with Some v => v | None => default (word []) (shows_val d c update n) end.

Lemma fields_single d c select update ns :
  (forall n, n ∈ ns -> shows_cond d c select n = None \/ shows_val d c update n = None) ->
  concat (row_fields d c select update <$> ns) = cell_for d c select update <$> ns.
Proof.
  intros H. induction ns as [|n ns IH]; [done|]. rewrite !fmap_cons. cbn [concat].
  rewrite IH by (intros k Hk; apply H; by right). specialize (H n ltac:(left)).
  unfold row_fields, cell_for. destruct (shows_cond d c select n), (shows_val d c update n); try done.
  by destruct H.
Qed.

Lemma shows_cond_no d c n : shows_cond d c false n = None.
Proof. unfold shows_cond. by rewrite andb_false_r. Qed.
Lemma shows_val_no d c n : shows_val d c false n = None.
Proof. unfold shows_val. by rewrite andb_false_r. Qed.

(** A record of cells. *)
Lemma updateRow_spec d c tag select update :
  currentSheetName d = pendingSheetName d ->
  (forall n, n ∈ active_names (activeColumn d) (rc_names c) ->
     shows_cond d c select n = None \/ shows_val d c update n = None) ->
  updateRow d c tag select update =
  with_out d (add_records (out_sheet d)
    [row_record (active_names (activeColumn d) (rc_names c)) (cstr "row") tag (cell_for d c select update)])
    (currentSheetName d).
Proof. intros H Hs. unfold updateRow. rewrite put_record_spec, fields_single by done. done. Qed.

Definition cells_fit (c : RowChange) : Prop :=
  (forall n v, cond c !! n = Some v -> fit v) /\ (forall n v, val c !! n = Some v -> fit v).

Lemma cell_for_fit d c select update n : cells_fit c -> fit (cell_for d c select update n).
Proof.
  intros [Hc Hv]. unfold cell_for, shows_cond, shows_val.
  destruct (_ && _), (_ && _); try destruct (cond c !! n) eqn:E1; try destruct (val c !! n) eqn:E2;
    cbn; eauto; fit_word.
Qed.

Lemma record_fit d c tag select update ns :
  cells_fit c -> fit_text tag ->
  fit_row (row_record ns (cstr "row") tag (cell_for d c select update)).
Proof.
  intros Hc Ht. split; [done|]. constructor; [fit_word|]. constructor; [done|].
  apply Forall_fmap, Forall_forall. intros n _. by apply cell_for_fit.
Qed.

(** What changes of the writer and the reader when cells are written and read. *)
Definition wrote (rows : list (list pcell)) (d d' : csvdiff) : Prop :=
  d' = with_out d (add_records (out_sheet d) rows) (currentSheetName d).
Definition read_on (r r' : reader) : Prop := exists sel, r' = with_selector r sel true true.

Lemma settled_on N d r rows d' r' : settled N d r -> wrote rows d d' -> read_on r r' -> settled N d' r'.
Proof.
  intros [[J1 J2 J3 J4 J5] H2 H3 H4 H5 H6] -> [sel ->]. destruct J2 as (? & ? & ? & ?).
  split; try done.
Qed.

(** Whether a condition of a change is written. *)
Definition matched (indexes : txt2bool) (c : RowChange) (n : list Z) : bool :=
  bool_decide (is_Some (val c !! n)) || flag indexes n.

(** How a change of a row is read back. *)
Definition as_read (N : list (list Z)) (indexes : txt2bool) (c : RowChange) (call : patch_call) : Prop :=
  exists cd vl ns ix all,
    call = CallEvent true (ChangeRow (RowChange_ (mode c) cd vl ∅ ∅ ns false (-2) (-2) (-2)) ix all) /\
    match mode c with
    | ROW_CHANGE_INSERT =>
        cd = ∅ /\ forall k, vl !! k = if is_in k N then Some (default (word []) (val c !! k)) else None
    | ROW_CHANGE_DELETE =>
        vl = ∅ /\ forall k, cd !! k = if is_in k N then Some (default (word []) (cond c !! k)) else None
    | ROW_CHANGE_CONTEXT =>
        vl = ∅ /\ forall k, cd !! k = if is_in k N && matched indexes c k then cond c !! k else None
    | _ => (forall k, cd !! k = if is_in k N && matched indexes c k then cond c !! k else None) /\
           forall k, vl !! k = if is_in k N then val c !! k else None
    end.

(** What the loop of [changeRow] decides for a column. *)
Definition plan_of (c : RowChange) (indexes sel0 des0 : txt2bool) (n : list Z) : bool * bool :=
  match mode c with
  | ROW_CHANGE_INSERT => (flag sel0 n, true)
  | ROW_CHANGE_DELETE => (true, flag des0 n)
  | _ => (bool_decide (is_Some (cond c !! n)) && matched indexes c n, bool_decide (is_Some (val c !! n)))
  end.

Lemma wants_ok c ix a n :
  (is_Some (cond c !! n) -> is_Some (ix !! n)) ->
  wants c ix a n = Ok (plan_of c ix (p_prevSelect a) (p_prevDescribe a) n).
Proof.
  intros H. unfold wants, plan_of, matched.
  destruct (bool_decide_reflect (is_Some (cond c !! n))) as [Hc|Hc].
  - destruct (H Hc) as [b Hb]. replace (flag ix n) with b by (unfold flag; by rewrite Hb).
    rewrite Hb, bind_Ok, andb_true_r. by destruct (mode c), (bool_decide (is_Some (val c !! n))).
  - rewrite bind_Ok, andb_false_r. by destruct (mode c).
Qed.

(** The part of [changeRow] that writes the cells. *)
Definition write_cells (d : csvdiff) (c : RowChange) : result csvdiff :=
  match mode c with
  | ROW_CHANGE_INSERT => Ok (updateRow d c (cstr "insert") false true)
  | ROW_CHANGE_DELETE => Ok (updateRow d c (cstr "delete") true false)
  | ROW_CHANGE_MOVE =>
      Ok (if practice d c then updateRow d c (cstr "move") true true
          else updateRow (updateRow d c (cstr "select") true false) c (cstr "move") false true)
  | ROW_CHANGE_CONTEXT =>
      Ok (updateRow d c (if bool_decide (cond c = ∅) then cstr "start" else cstr "after") true false)
  | ROW_CHANGE_UPDATE =>
      Ok (if practice d c then updateRow d c (cstr "update") true true
          else updateRow (updateRow d c (cstr "select") true false) c (cstr "update") false true)
  | ROW_CHANGE_NONE => Fault Exited
  end.

Section Cells.
Context (flags : CompareFlags) (N : list (list Z)) (c : RowChange) (ix s0 d0 : txt2bool).
Context (Hup : canUpdate flags = true) (Hin : canInsert flags = true) (Hdel : canDelete flags = true).
Context (Hnd : NoDup N) (Hnames : rc_names c = N) (Hnul : cells_fit c).
Context (d : csvdiff) (r : reader) (Hst : settled N d r).
Context (Hact : active_names (activeColumn d) N = nops d).
Context (HW : forall n, n ∈ N -> (flag (showForSelect d) n, flag (showForDescribe d) n) = plan_of c ix s0 d0 n).

Lemma in_nops k : is_in k (nops d) = is_in k N && in_use d k.
Proof using Hst.
  unfold is_in. rewrite (st_nops _ _ _ Hst). destruct (in_use d k) eqn:E.
  - rewrite andb_true_r. apply bool_decide_ext. rewrite list_elem_of_filter. tauto.
  - rewrite andb_false_r. apply bool_decide_eq_false_2. rewrite list_elem_of_filter. intros [? _]. congruence.
Qed.

(** What the reader picks from a record, in terms of the writer's marks. *)
Lemma picked_match g m k :
  picked (match_column r) g (nops d) m ->
  m !! k = if is_in k N && flag (showForSelect d) k then Some (g k) else None.
Proof using Hst.
  intros H. rewrite H. fold (is_in k (nops d)).
  destruct (is_in k (nops d)) eqn:E.
  - assert (k ∈ nops d) as Hk by (by apply bool_decide_eq_true_1 in E).
    destruct (st_agree _ _ _ Hst k Hk) as [-> _]. rewrite in_nops in E. apply andb_true_iff in E as [-> _]. done.
  - cbn [andb]. rewrite in_nops in E. unfold in_use in E.
    destruct (is_in k N); [|done]. cbn [andb] in *. by apply orb_false_iff in E as [-> _].
Qed.
Lemma picked_assign g m k :
  picked (assign_column r) g (nops d) m ->
  m !! k = if is_in k N && flag (showForDescribe d) k then Some (g k) else None.
Proof using Hst.
  intros H. rewrite H. fold (is_in k (nops d)).
  destruct (is_in k (nops d)) eqn:E.
  - assert (k ∈ nops d) as Hk by (by apply bool_decide_eq_true_1 in E).
    destruct (st_agree _ _ _ Hst k Hk) as [_ ->]. rewrite in_nops in E. apply andb_true_iff in E as [-> _]. done.
  - cbn [andb]. rewrite in_nops in E. unfold in_use in E.
    destruct (is_in k N); [|done]. cbn [andb] in *. by apply orb_false_iff in E as [_ ->].
Qed.

(** The result of writing the cells and reading them. *)
Definition cells_done : Prop :=
  exists d' rows r' call, write_cells d c = Ok d' /\ wrote rows d d' /\ fit_rows rows /\
    reads flags rows r r' [call] /\ read_on r r' /\ as_read N ix c call.

Lemma nops_nodup : NoDup (nops d).
Proof using Hst Hnd. rewrite (st_nops _ _ _ Hst). by apply list.NoDup_filter. Qed.

Lemma insert_cells : mode c = ROW_CHANGE_INSERT -> cells_done.
Proof using Type*.
  intros Hm. pose proof (st_joined _ _ _ Hst) as [J1 J2 J3 J4 J5].
  destruct (reads_insert flags r (nops d) J2 J4 J5 nops_nodup (cell_for d c false true) Hin) as (vl & Hr & Hvl).
  unfold cells_done, write_cells. rewrite Hm, updateRow_spec, Hnames, Hact
    by (done || (intros; left; apply shows_cond_no)).
  eexists _, _, _, _. split; [reflexivity|]. split; [reflexivity|]. split.
  { constructor; [|constructor]. apply record_fit; [done|fit_word]. }
  split; [by apply reads_one|]. split; [unfold finished; rewrite J3; by eexists|].
  eexists ∅, vl, _, _, _. rewrite Hm. split; [reflexivity|]. split; [done|]. intros k.
  rewrite (picked_assign _ _ k Hvl). destruct (is_in k N) eqn:E; [|done]. apply bool_decide_eq_true_1 in E.
  specialize (HW k E). unfold plan_of in HW. rewrite Hm in HW. injection HW as _ Hd. rewrite Hd. cbn [andb].
  unfold cell_for. rewrite shows_cond_no. unfold shows_val. by rewrite Hd.
Qed.

Lemma delete_cells : mode c = ROW_CHANGE_DELETE -> cells_done.
Proof using Type*.
  intros Hm. pose proof (st_joined _ _ _ Hst) as [J1 J2 J3 J4 J5].
  destruct (reads_delete flags r (nops d) J2 J4 J5 nops_nodup (cell_for d c true false) Hdel) as (cd & Hr & Hcd).
  unfold cells_done, write_cells. rewrite Hm, updateRow_spec, Hnames, Hact
    by (done || (intros; right; apply shows_val_no)).
  eexists _, _, _, _. split; [reflexivity|]. split; [reflexivity|]. split.
  { constructor; [|constructor]. apply record_fit; [done|fit_word]. }
  split; [by apply reads_one|]. split; [unfold finished; rewrite J3; by eexists|].
  eexists cd, ∅, _, _, _. rewrite Hm. split; [reflexivity|]. split; [done|]. intros k.
  rewrite (picked_match _ _ k Hcd). destruct (is_in k N) eqn:E; [|done]. apply bool_decide_eq_true_1 in E.
  specialize (HW k E). unfold plan_of in HW. rewrite Hm in HW. injection HW as Hs _. rewrite Hs. cbn [andb].
  unfold cell_for. rewrite shows_val_no. unfold shows_cond. rewrite Hs. by destruct (cond c !! k).
Qed.

(** The marks of a change that is neither. *)
Definition selective : Prop := match mode c with ROW_CHANGE_INSERT | ROW_CHANGE_DELETE => False | _ => True end.

Lemma selective_marks k :
  selective -> k ∈ N ->
  flag (showForSelect d) k = bool_decide (is_Some (cond c !! k)) && matched ix c k /\
  flag (showForDescribe d) k = bool_decide (is_Some (val c !! k)).
Proof using HW.
  intros Hs Hk. specialize (HW k Hk). unfold plan_of, selective in *. destruct (mode c); try done; by injection HW.
Qed.

(** The conditions that are read, when the marked ones were written. *)
Lemma selective_cond g cd :
  selective -> picked (match_column r) g (nops d) cd ->
  (forall k, k ∈ N -> flag (showForSelect d) k = true -> cond c !! k = Some (g k)) ->
  forall k, cd !! k = if is_in k N && matched ix c k then cond c !! k else None.
Proof using Hst HW.
  intros Hs Hcd Hg k. rewrite (picked_match _ _ k Hcd). destruct (is_in k N) eqn:E; [|done].
  apply bool_decide_eq_true_1 in E. cbn [andb]. specialize (Hg k E).
  destruct (selective_marks k Hs E) as [Hm _]. rewrite Hm in *.
  destruct (matched ix c k); [|by rewrite andb_false_r]. rewrite andb_true_r in *.
  case_bool_decide as Hc; [symmetry; by apply Hg|]. symmetry. by apply eq_None_not_Some.
Qed.
Lemma selective_val g vl :
  selective -> picked (assign_column r) g (nops d) vl ->
  (forall k, k ∈ N -> flag (showForDescribe d) k = true -> val c !! k = Some (g k)) ->
  forall k, vl !! k = if is_in k N then val c !! k else None.
Proof using Hst HW.
  intros Hs Hvl Hg k. rewrite (picked_assign _ _ k Hvl). destruct (is_in k N) eqn:E; [|done].
  apply bool_decide_eq_true_1 in E. cbn [andb]. specialize (Hg k E).
  destruct (selective_marks k Hs E) as [_ Hm]. rewrite Hm in *.
  case_bool_decide as Hc; [symmetry; by apply Hg|]. symmetry. by apply eq_None_not_Some.
Qed.

Lemma shown_cond k update :
  selective -> k ∈ N -> flag (showForSelect d) k = true -> cond c !! k = Some (cell_for d c true update k).
Proof using HW.
  intros Hs Hk Hf. destruct (selective_marks k Hs Hk) as [Hm _]. rewrite Hf in Hm.
  symmetry in Hm. apply andb_true_iff in Hm as [Hm%bool_decide_eq_true_1 _]. destruct Hm as [v Hv].
  unfold cell_for, shows_cond. by rewrite Hf, Hv.
Qed.

Lemma shown_val k select :
  selective -> k ∈ N -> shows_cond d c select k = None -> flag (showForDescribe d) k = true ->
  val c !! k = Some (cell_for d c select true k).
Proof using HW.
  intros Hs Hk Hc Hf. destruct (selective_marks k Hs Hk) as [_ Hm]. rewrite Hf in Hm.
  symmetry in Hm. apply bool_decide_eq_true_1 in Hm as [v Hv].
  unfold cell_for, shows_val. by rewrite Hc, Hf, Hv.
Qed.

Lemma context_cells : mode c = ROW_CHANGE_CONTEXT -> cells_done.
Proof using Type*.
  intros Hm. pose proof (st_joined _ _ _ Hst) as [J1 J2 J3 J4 J5].
  assert (selective) as Hsel by (unfold selective; by rewrite Hm).
  unfold cells_done, write_cells. rewrite Hm, updateRow_spec, Hnames, Hact
    by (done || (intros; right; apply shows_val_no)).
  set (g := cell_for d c true false). case_bool_decide as Ec.
  - eexists _, _, _, _. split; [reflexivity|]. split; [reflexivity|]. split.
    { constructor; [|constructor]. apply record_fit; [done|fit_word]. }
    split; [by apply reads_one, reads_start|]. split; [rewrite J3; by eexists|].
    eexists ∅, ∅, [], ∅, []. rewrite Hm. split; [done|]. split; [done|]. intros k.
    rewrite Ec, !lookup_empty. by destruct (_ && _).
  - destruct (reads_after flags r (nops d) J2 J4 J5 nops_nodup g) as (cd & Hr & Hcd).
    eexists _, _, _, _. split; [reflexivity|]. split; [reflexivity|]. split.
    { constructor; [|constructor]. apply record_fit; [done|fit_word]. }
    split; [by apply reads_one|]. split; [rewrite J3; by eexists|].
    eexists cd, ∅, _, _, _. rewrite Hm. split; [reflexivity|]. split; [done|].
    apply (selective_cond g); [done|done|]. intros k Hk Hf. by apply shown_cond.
Qed.

Lemma practice_spec :
  practice d c = true -> forall n, n ∈ nops d -> shows_cond d c true n = None \/ shows_val d c true n = None.
Proof using Hnames Hact.
  unfold practice. rewrite Hnames, Hact, forallb_forall. intros H n Hn%list_elem_of_In.
  specialize (H n Hn). apply negb_true_iff, bool_decide_eq_false_1 in H.
  destruct (shows_cond d c true n); [|by left]. destruct (shows_val d c true n); [|by right].
  destruct H. split; by eexists.
Qed.

Lemma change_cells tag md :
  (tag, md) = (cstr "update", ROW_CHANGE_UPDATE) /\ canUpdate flags = true \/
  (tag, md) = (cstr "move", ROW_CHANGE_MOVE) ->
  mode c = md -> fit_text tag ->
  write_cells d c = Ok (if practice d c then updateRow d c tag true true
                        else updateRow (updateRow d c (cstr "select") true false) c tag false true) ->
  cells_done.
Proof using Type*.
  intros Htag Hm Htn Hwc. pose proof (st_joined _ _ _ Hst) as [J1 J2 J3 J4 J5]. unfold cells_done.
  assert (selective) as Hsel by (unfold selective; rewrite Hm; destruct Htag as [[[= _ ->] _]|[= _ ->]]; done).
  assert (forall cd vl ns ix' all, (forall k, cd !! k = if is_in k N && matched ix c k then cond c !! k else None) ->
    (forall k, vl !! k = if is_in k N then val c !! k else None) ->
    as_read N ix c (CallEvent true (ChangeRow (RowChange_ md cd vl ∅ ∅ ns false (-2) (-2) (-2)) ix' all))) as Has.
  { intros cd vl ns ix' all H1 H2. exists cd, vl, ns, ix', all. rewrite Hm. split; [done|].
    destruct Htag as [[[= _ ->] _]|[= _ ->]]; done. }
  rewrite Hwc. destruct (practice d c) eqn:Ep.
  - pose proof (practice_spec Ep) as Hp.
    destruct (reads_change flags r (nops d) J2 J4 J5 nops_nodup tag md (cell_for d c true true)
      (cell_for d c true true) Htag) as (cd & vl & Hr & Hcd & Hvl); [by rewrite J3|].
    rewrite updateRow_spec, Hnames, Hact by (done || by rewrite Hnames, Hact).
    eexists _, _, _, _. split; [reflexivity|]. split; [reflexivity|]. split.
    { constructor; [|constructor]. by apply record_fit. }
    split; [by apply reads_one|]. split; [unfold finished; rewrite J3; by eexists|]. apply Has.
    + apply (selective_cond _ _ Hsel Hcd). intros k Hk Hf. by apply shown_cond.
    + apply (selective_val _ _ Hsel Hvl). intros k Hk Hf. destruct (shows_cond d c true k) eqn:Ek.
      * destruct (selective_marks k Hsel Hk) as [_ Hv]. rewrite Hf in Hv. symmetry in Hv.
        apply bool_decide_eq_true_1 in Hv as [v Hv].
        destruct (Hp k) as [H|H]; [|congruence|unfold shows_val in H; rewrite Hf, Hv in H; done].
        apply (bool_decide_unpack _). fold (is_in k (nops d)). rewrite in_nops. unfold in_use.
        rewrite Hf, orb_true_r. unfold is_in. by rewrite bool_decide_eq_true_2.
      * by apply shown_val.
  - set (g1 := cell_for d c true false). set (g2 := cell_for d c false true).
    rewrite (updateRow_spec d) by (done || (intros; right; apply shows_val_no)). rewrite Hnames, Hact. fold g1.
    rewrite updateRow_spec by (done || (intros; left; apply shows_cond_no)).
    rewrite Hnames. cbn [activeColumn with_out out_sheet currentSheetName]. rewrite Hact.
    change (cell_for (with_out d _ _) c false true) with g2.
    set (r1 := with_selector r (g1 <$> nops d) false true).
    destruct (reads_change flags r1 (nops d)) with tag md g2 g1 as (cd & vl & Hr & Hcd & Hvl);
      [by destruct J2 as (? & ? & ? & ?)|done|done|apply nops_nodup|done|done|].
    eexists _, [row_record (nops d) (cstr "row") (cstr "select") g1; row_record (nops d) (cstr "row") tag g2], _, _.
    split; [reflexivity|]. split; [reflexivity|]. split.
    { constructor; [apply record_fit; [done|fit_word]|]. constructor; [|constructor].
      by apply record_fit. }
    split; [eapply (reads_cons _ _ [_] _ _ _ [] [_]); [by apply reads_select|by apply reads_one]|].
    split; [by eexists|]. apply Has.
    + apply (selective_cond _ _ Hsel Hcd). intros k Hk Hf. by apply shown_cond.
    + apply (selective_val _ _ Hsel Hvl). intros k Hk Hf. apply shown_val; try done. apply shows_cond_no.
Qed.

Lemma cells_step : mode c <> ROW_CHANGE_NONE -> cells_done.
Proof using Type*.
  intros Hm. destruct (mode c) eqn:E; [done|..].
  - by apply delete_cells.
  - by apply insert_cells.
  - apply (change_cells (cstr "update") ROW_CHANGE_UPDATE); [by left|done|fit_word|].
    unfold write_cells. by rewrite E.
  - by apply context_cells.
  - apply (change_cells (cstr "move") ROW_CHANGE_MOVE); [by right|done|fit_word|].
    unfold write_cells. by rewrite E.
Qed.
End Cells.

(** ** All rows *)

(** A change without conditions and values. *)
Definition empty_call (call : patch_call) : Prop :=
  exists md ns ix all,
    call = CallEvent true (ChangeRow (RowChange_ md ∅ ∅ ∅ ∅ ns false (-2) (-2) (-2)) ix all).

Lemma unused_empty N ix c s0 d0 call :
  N <> [] -> as_read N ix c call -> (forall n, n ∈ N -> plan_of c ix s0 d0 n = (false, false)) ->
  empty_call call.
Proof.
  intros HN (cd & vl & ns & ix' & all & -> & H) Hp. exists (mode c), ns, ix', all.
  assert (exists n, n ∈ N) as [n0 Hn0] by (destruct N as [|n N']; [done|]; exists n; left).
  pose proof (Hp n0 Hn0) as H0. unfold plan_of in *.
  assert ((forall k, cd !! k = if is_in k N && matched ix c k then cond c !! k else None) ->
    (forall n, n ∈ N -> bool_decide (is_Some (cond c !! n)) && matched ix c n = false) -> cd = ∅) as Hcd.
  { intros Hc Hf. apply map_eq. intros k. rewrite Hc, lookup_empty. destruct (is_in k N) eqn:E; [|done].
    apply bool_decide_eq_true_1 in E. specialize (Hf k E). cbn [andb].
    destruct (matched ix c k); [|done]. rewrite andb_true_r in Hf. apply bool_decide_eq_false_1 in Hf.
    by apply eq_None_not_Some. }
  assert ((forall k, vl !! k = if is_in k N then val c !! k else None) ->
    (forall n, n ∈ N -> bool_decide (is_Some (val c !! n)) = false) -> vl = ∅) as Hvl.
  { intros Hc Hf. apply map_eq. intros k. rewrite Hc, lookup_empty. destruct (is_in k N) eqn:E; [|done].
    apply bool_decide_eq_true_1, Hf, bool_decide_eq_false_1 in E. by apply eq_None_not_Some. }
  destruct (mode c); try done; destruct H as [H1 H2].
  3: rewrite H1, (Hcd H2).
  1, 2, 5: rewrite (Hcd H1), (Hvl H2).
  all: try done; intros n Hn; by injection (Hp n Hn).
Qed.

(** The calls for the changes of rows, where the names may be declared before the
    first one that uses a column; [b] tells whether they have been. *)
Inductive row_calls (N : list (list Z)) (indexes : txt2bool) : bool -> list RowChange -> list patch_call -> Prop :=
| row_calls_nil b : row_calls N indexes b [] []
| row_calls_name cs l :
    row_calls N indexes true cs l -> row_calls N indexes false cs (CallEvent true (ChangeName false false N) :: l)
| row_calls_row b c call cs l :
    as_read N indexes c call -> (b = false -> empty_call call) -> row_calls N indexes b cs l ->
    row_calls N indexes b (c :: cs) (call :: l).

(** A change that can be written in terms of the columns [N]. *)
Definition writable (N : list (list Z)) (indexes : txt2bool) (c : RowChange) : Prop :=
  rc_names c = N /\ mode c <> ROW_CHANGE_NONE /\ cells_fit c /\
  forall n, n ∈ N -> is_Some (cond c !! n) -> is_Some (indexes !! n).

Section AllRows.
Context (flags : CompareFlags) (N O : list (list Z)) (ix : txt2bool).
Context (Hup : canUpdate flags = true) (Hin : canInsert flags = true) (Hdel : canDelete flags = true).
Context (HN : N <> []) (Hnd : NoDup N) (Hne : Forall (fun t => t <> []) N) (Hnul : Forall fit_text N).

Lemma row_step d r c :
  settled N d r \/ first N O d r -> writable N ix c ->
  exists d' rows r' call, csvdiff_changeRow d c ix = Ok d' /\ out_sheet d' = add_records (out_sheet d) rows /\
    fit_rows rows /\ reads flags rows r r' (name_call N d d' ++ [call]) /\ settled N d' r' /\
    as_read N ix c call /\ (showedColumns d' = false -> empty_call call).
Proof using Type*.
  intros Hst (Hnames & Hmode & Hcn & Hix). unfold csvdiff_changeRow. rewrite Hnames.
  set (a0 := RowPlan _ _ _ _ _ _). set (W := plan_of c ix (showForSelect d) (showForDescribe d)).
  destruct (plan_row_spec c ix W N a0) as (a & -> & Hops & Hsel & Hdes & Hact & Hts & Htd).
  { intros n Hn. rewrite wants_ok; [done|]. by apply Hix. }
  rewrite bind_Ok. cbn [p_ops a0 app] in Hops.
  assert ((if bool_decide (p_ops a <> ops d) then p_ops a else ops d) = p_ops a) as Eo.
  { case_bool_decide as E; [done|]. destruct (decide (p_ops a = ops d)); [done|tauto]. }
  rewrite Eo. fold (planned d a).
  assert (joined d r /\ naming N d) as [Hj Hnm] by (destruct Hst as [[]|[]]; done).
  destruct (operate_step flags N O c a W) with d r as
    (d2 & rows & r2 & -> & Hout & Hr & Hs2 & Hnn & G1 & G2 & G3 & _); try done.
  { intros k. rewrite Hact. cbn [p_active a0]. unfold flag at 1. rewrite lookup_empty. by rewrite orb_false_r. }
  rewrite bind_Ok. fold (write_cells d2 c).
  destruct (cells_step flags N c ix (showForSelect d) (showForDescribe d)) with d2 r2 as
    (d3 & rows' & r3 & call & -> & Hw & Hnn' & Hr' & Hon & Has); try done.
  { rewrite (st_nops _ _ _ Hs2), G3. apply list_filter_iff. intros k. rewrite Hact. unfold in_use.
    rewrite G1, G2. unfold flag. rewrite Hsel, Hdes. cbn [p_active p_select p_describe a0]. rewrite lookup_empty.
    by destruct (is_in k N); rewrite ?orb_false_r. }
  { intros n Hn. rewrite G1, G2. unfold flag. rewrite Hsel, Hdes. unfold is_in.
    rewrite bool_decide_eq_true_2 by done. unfold W. cbn. by destruct (plan_of _ _ _ _ n). }
  exists d3, (rows ++ rows'), r3, call. split; [done|].
  assert (showedColumns d3 = showedColumns d2) as Esh by (by rewrite Hw).
  split_and!; try done.
  - rewrite Hw. cbn [out_sheet with_out]. rewrite Hout. unfold add_records. by rewrite foldl_app.
  - by apply Forall_app.
  - unfold name_call. rewrite Esh. by eapply reads_app.
  - by apply (settled_on N d2 r2 rows').
  - rewrite Esh. intros Hsh. apply (unused_empty N ix c (showForSelect d) (showForDescribe d) call HN Has).
    intros n Hn. fold (W n). destruct (st_names _ _ _ Hs2) as [[? _]|(_ & Hno & _)]; [congruence|].
    rewrite (st_nops _ _ _ Hs2) in Hno. assert (in_use d2 n = false) as Hu.
    { apply not_true_is_false. intros Hu. assert (n ∈ filter (fun n => in_use d2 n = true) N) as Hf
        by (by apply list_elem_of_filter). rewrite Hno in Hf. by apply not_elem_of_nil in Hf. }
    unfold in_use in Hu. rewrite G1, G2 in Hu. unfold flag in Hu. rewrite Hsel, Hdes in Hu. unfold is_in in Hu.
    rewrite bool_decide_eq_true_2 in Hu by done. cbn in Hu. apply orb_false_iff in Hu as [U1 U2].
    rewrite (surjective_pairing (W n)). by f_equal.
Qed.

(** The names are declared once. *)
Lemma put_record_showed d l : showedColumns (put_record d l) = showedColumns d.
Proof using Type. unfold put_record, clearThroat. by destruct (bool_decide _). Qed.

Lemma operateRow_showed d c d' : operateRow d c = Ok d' -> showedColumns d = true -> showedColumns d' = true.
Proof using Type.
  unfold operateRow. intros H Hs. set (d1 := show_names _ _) in H.
  assert (showedColumns d1 = true) as Hs1 by (unfold d1, show_names; destruct (bool_decide (_ <> nops _)); done).
  clearbody d1. destruct (_ || _); [|by injection H as <-]. apply bind_Ok_inv in H as (os & _ & H).
  injection H as <-. by rewrite put_record_showed.
Qed.

Lemma changeRow_showed d c d' : csvdiff_changeRow d c ix = Ok d' -> showedColumns d = true -> showedColumns d' = true.
Proof using Type.
  unfold csvdiff_changeRow. intros H Hs. apply bind_Ok_inv in H as (a & _ & H).
  apply bind_Ok_inv in H as (d2 & H2 & H). assert (showedColumns d2 = true) as Hs2.
  { destruct (bool_decide _) in H2; [by apply (operateRow_showed _ _ _ H2)|by injection H2 as <-]. }
  clear H2. assert (forall d c t a b, showedColumns (updateRow d c t a b) = showedColumns d) as Hup'.
  { intros. unfold updateRow. apply put_record_showed. }
  destruct (mode c); try done; try destruct (practice d2 c); injection H as <-; by rewrite ?Hup'.
Qed.

Lemma rows_step all cs d r :
  settled N d r \/ first N O d r -> Forall (writable N ix) cs ->
  exists d' rows r' calls, csvdiff_events d ((fun c => ChangeRow c ix all) <$> cs) = Ok d' /\
    out_sheet d' = add_records (out_sheet d) rows /\ fit_rows rows /\ reads flags rows r r' calls /\
    row_calls N ix (showedColumns d) cs calls.
Proof using Type*.
  intros Hst Hcs. revert d r Hst. induction Hcs as [|c cs Hc _ IH]; intros d r Hst.
  { exists d, [], r, []. split_and!; try done; constructor. }
  destruct (row_step d r c Hst Hc) as (d1 & rows & r1 & call & E & Hout & Hnn & Hr & Hs & Has & Hem).
  destruct (IH d1 r1) as (d2 & rows2 & r2 & calls & E2 & Hout2 & Hnn2 & Hr2 & Hcalls); [by left|].
  exists d2, (rows ++ rows2), r2, ((name_call N d d1 ++ [call]) ++ calls).
  cbn [fmap list_fmap csvdiff_events csvdiff_event]. rewrite E, bind_Ok, E2.
  split_and!; [done| |by apply Forall_app|by eapply reads_app|].
  - rewrite Hout2, Hout. unfold add_records. by rewrite foldl_app.
  - pose proof (changeRow_showed d c d1 E) as Hsh. rewrite <- app_assoc. unfold name_call.
    destruct (showedColumns d1), (showedColumns d); cbn [andb negb app]; try (by discriminate Hsh).
    + by constructor.
    + by repeat constructor.
    + constructor; auto.
Qed.
End AllRows.
