(* ===== verification/CsvColumns.v ===== *)
(** * Differences as CSV text: the column changes

    A record about columns only lists the names after the change; the reader
    ([PatchColumnNames]) infers which column it is about.  Read after the records
    before it, every change of a chain of column changes is inferred as an edit of
    the same kind between the same names, with new columns numbered anew, provided
    that the moves are among those that [inferMove] gets right. *)

From stdpp Require Import gmap.
From S2P Require Import Prelude Sheet SheetSpec CsvFile Viterbi OrderMerge OrderMergeSpec Mover.
From S2P Require Import MoverSpec Merger MergerSpec CsvDiff CsvPatch CsvPatchSpec.
#[local] Open Scope Z_scope.
#[local] Arguments cstr s%_string.

(** ** Inference *)

Lemma first_difference_at a x l y l' n :
  x <> y -> (length a < n)%nat -> first_difference (a ++ x :: l) (a ++ y :: l') n = length a.
Proof.
  intros Hxy. revert n. induction a as [|z a IH]; intros [|n] Hn; simpl in *; try lia.
  - by rewrite bool_decide_eq_true_2.
  - rewrite bool_decide_eq_false_2 by tauto. rewrite IH; [done|lia].
Qed.

Lemma first_difference_end a l l' : first_difference (a ++ l) (a ++ l') (length a) = length a.
Proof.
  induction a as [|z a IH]; [by destruct l, l'|]. simpl.
  rewrite bool_decide_eq_false_2 by tauto. by rewrite IH.
Qed.

Lemma find_text_at a x l : x ∉ a -> find_text x (a ++ x :: l) = length a.
Proof.
  induction a as [|y a IH]; simpl.
  - by rewrite bool_decide_eq_true_2.
  - intros [Hy Ha]%not_elem_of_cons. by rewrite bool_decide_eq_false_2, IH.
Qed.

(** A name that is taken out or put in is found. *)
Lemma difference_one a n b :
  NoDup (a ++ n :: b) ->
  first_difference (a ++ b) (a ++ n :: b) (length (a ++ b)) = length a /\
  first_difference (a ++ n :: b) (a ++ b) (length (a ++ b)) = length a.
Proof.
  intros Hnd. rewrite length_app. destruct b as [|y b].
  - rewrite Nat.add_0_r, app_nil_r. pose proof (first_difference_end a [] [n]) as H1.
    pose proof (first_difference_end a [n] []) as H2. by rewrite !app_nil_r in *.
  - apply list.NoDup_app in Hnd as (_ & _ & [Hn _]%list.NoDup_cons).
    apply not_elem_of_cons in Hn as [Hn _]. simpl. split; apply first_difference_at; done || lia.
Qed.

(** The moves that are read as they were written: to the left by two places or
    more, and to the end. *)
Inductive move_told : list (list Z) -> list (list Z) -> Prop :=
| told_left A B n C : (2 <= length B)%nat -> move_told (A ++ B ++ n :: C) (A ++ n :: B ++ C)
| told_last A n B : B <> [] -> move_told (A ++ n :: B) (A ++ B ++ [n]).

(** The names and the numbers of the columns [Q], as the reader keeps them. *)
Definition read_as (Q : named) (c : PatchColumnNames) : Prop := lst c = Q.*2 /\ indices c = Q.*1.

Section Infer.
Context (c prior : PatchColumnNames).

Lemma inferDelete_spec A x n B :
  read_as (A ++ (x, n) :: B) prior -> lst c = (A ++ B).*2 -> NoDup (A ++ (x, n) :: B).*2 ->
  exists c', inferDelete c prior = Ok (x, c') /\ read_as (A ++ B) c'.
Proof.
  intros [Hl Hi] Hc Hnd. unfold inferDelete. rewrite Hl, Hi, Hc, !length_fmap.
  rewrite check_true, bind_Ok by (rewrite !length_app; simpl; apply Nat.eqb_eq; lia).
  rewrite fmap_app, fmap_cons in Hnd. destruct (difference_one _ _ _ Hnd) as [Hd _].
  rewrite <- fmap_cons with (f := snd), <- !fmap_app with (f := snd) in Hd.
  rewrite length_fmap in Hd. cbn [snd] in Hd. rewrite Hd, length_fmap, !rd_fmap, !bind_Ok.
  rewrite vec_erase_fmap, bind_Ok. eexists. by split.
Qed.

(** The number that a new column gets is below all others. *)
Lemma fresh_low l a :
  let m := foldl (fun neg x => if x <? neg then x else neg) a l in m <= a /\ Forall (fun x => m <= x) l.
Proof.
  revert a. induction l as [|x l IH]; intros a; cbn zeta; [by split|]. cbn [foldl].
  destruct (IH (if x <? a then x else a)) as [H1 H2]. cbn zeta in *.
  destruct (Z.ltb_spec x a); (split; [lia|]; constructor; [lia|done]).
Qed.

Lemma inferInsert_spec A B n :
  read_as (A ++ B) prior -> lst c = A.*2 ++ n :: B.*2 -> NoDup (A.*2 ++ n :: B.*2) ->
  exists y c', inferInsert c prior = Ok (y, c') /\ y < 0 /\ (y ∉ (A ++ B).*1) /\ read_as (A ++ (y, n) :: B) c'.
Proof.
  intros [Hl Hi] Hc Hnd. unfold inferInsert. rewrite Hl, Hi, Hc.
  rewrite check_true, bind_Ok
    by (rewrite fmap_app, !length_app; simpl; rewrite !length_fmap; apply Nat.eqb_eq; lia).
  destruct (difference_one _ _ _ Hnd) as [_ Hd]. rewrite <- fmap_app in Hd.
  rewrite Hd, rd_middle, bind_Ok.
  pose proof (fresh_low (A ++ B).*1 0) as [Hneg Hlow]. cbn zeta in *.
  set (y := foldl _ 0 _ - 1) in *. exists y.
  assert (y ∉ (A ++ B).*1) as Hy.
  { intros Hin%list_elem_of_In. rewrite Forall_forall in Hlow. specialize (Hlow y Hin). unfold y in Hlow. lia. }
  assert ((if (if Z.of_nat (length A.*2) >=? Zlen (A ++ B).*2 then -1 else Z.of_nat (length A.*2)) >=? 0
           then vec_insert (A ++ B).*1
                  (if Z.of_nat (length A.*2) >=? Zlen (A ++ B).*2 then -1 else Z.of_nat (length A.*2)) y
           else Ok ((A ++ B).*1 ++ [y])) = Ok (A ++ (y, n) :: B).*1) as ->.
  { rewrite !length_fmap, length_app. destruct B as [|b B].
    - replace (Zlen A >=? _) with true by (symmetry; apply Z.geb_le; simpl; lia). cbn [Z.geb Z.compare].
      by rewrite app_nil_r, fmap_app.
    - replace (Zlen A >=? Z.of_nat _) with false by (symmetry; rewrite Z.geb_leb; apply Z.leb_gt; simpl; lia).
      rewrite Z.geb_leb, (proj2 (Z.leb_le _ _)) by lia. apply (vec_insert_fmap fst A (y, n)). }
  rewrite bind_Ok. eexists. split; [done|]. split; [lia|]. split; [done|]. split; [|done].
  cbn [lst with_indices]. by rewrite fmap_app, fmap_cons.
Qed.

Lemma inferRename_spec A x n n' B :
  read_as (A ++ (x, n) :: B) prior -> lst c = A.*2 ++ n' :: B.*2 -> n <> n' ->
  exists c', inferRename c prior = Ok (x, c') /\ read_as (A ++ (x, n') :: B) c'.
Proof.
  intros [Hl Hi] Hc Hn. unfold inferRename. rewrite Hl, Hi, Hc.
  rewrite check_true, bind_Ok
    by (rewrite fmap_app, !length_app; simpl; rewrite !length_fmap; apply Nat.eqb_eq; lia).
  rewrite (fmap_app snd), (fmap_cons snd). cbn [snd].
  rewrite first_difference_at by (congruence || rewrite length_app; simpl; lia).
  rewrite rd_middle, bind_Ok. rewrite length_fmap, rd_fmap, bind_Ok. eexists. split; [done|].
  split; cbn [lst indices with_indices]; by rewrite ?fmap_app, ?fmap_cons.
Qed.

(** What is done once the column that moved and its places are known. *)
Definition moved_to (rem add : nat) : result (Z * PatchColumnNames) :=
  v ← rd (indices prior) (Z.of_nat rem);
  ix ← vec_erase (indices prior) (Z.of_nat rem);
  ix ← (if Z.of_nat add =? Zlen (lst c) - 1 then Ok (ix ++ [v])
        else vec_insert ix (if Z.of_nat add >? Z.of_nat rem then Z.of_nat add - 1 else Z.of_nat add) v);
  Ok (v, with_indices c ix).

Lemma inferMove_eq i m rem add nx here :
  length (lst c) = length (lst prior) -> first_difference (lst c) (lst prior) (length (lst c)) = i ->
  lst prior !! S i = Some nx -> lst c !! i = Some here ->
  (if bool_decide (nx = here) then lst prior !! i else Some here) = Some m ->
  find_text m (lst prior) = rem -> find_text m (lst c) = add -> (add < length (lst c))%nat ->
  inferMove c prior = moved_to rem add.
Proof.
  intros Hlen Hi Hnx Hhere Hm Hrem Hadd Hlt. unfold inferMove, moved_to.
  rewrite (check_true (_ =? _)%nat), bind_Ok by (by apply Nat.eqb_eq). rewrite Hi.
  apply lookup_lt_Some in Hnx as Hlt1.
  rewrite check_true, bind_Ok by (apply negb_true_iff, Z.eqb_neq; lia).
  replace (Z.of_nat i + 1) with (Z.of_nat (S i)) by lia.
  rewrite (rd_ok (lst prior) (Z.of_nat (S i)) nx), bind_Ok by (lia || by rewrite Nat2Z.id).
  rewrite (rd_ok (lst c) (Z.of_nat i) here), bind_Ok by (lia || by rewrite Nat2Z.id).
  assert ((if bool_decide (nx = here) then rd (lst prior) (Z.of_nat i) else Ok here) = Ok m) as ->.
  { case_bool_decide; [|congruence]. apply rd_ok; [lia|]. by rewrite Nat2Z.id. }
  rewrite bind_Ok, Hrem, Hadd. destruct (Z.eqb_spec (Z.of_nat add) (Zlen (lst c) - 1)) as [E|E].
  - done.
  - destruct (rd_in (lst c) (Z.of_nat add + 1)) as (q & -> & _); [lia|]. done.
Qed.

(** Both moves: the column that is found to have moved, and its place. *)
Lemma inferMove_left A B x n C :
  read_as (A ++ B ++ (x, n) :: C) prior -> lst c = (A ++ (x, n) :: B ++ C).*2 ->
  NoDup (lst c) -> (2 <= length B)%nat ->
  exists c', inferMove c prior = Ok (x, c') /\ read_as (A ++ (x, n) :: B ++ C) c'.
Proof.
  intros [Hl Hi] Hc Hnd HB. rewrite Hc, fmap_app, fmap_cons in Hnd. cbn [snd] in Hnd.
  apply list.NoDup_app in Hnd as (_ & HA & [Hn _]%list.NoDup_cons).
  assert (n ∉ A.*2) as HnA by (intros Hin; apply (HA n Hin); left).
  rewrite fmap_app in Hn. apply not_elem_of_app in Hn as [HnB _].
  assert (exists b1 b2 B', B = b1 :: b2 :: B') as (b1 & b2 & B' & EB)
    by (destruct B as [|? [|? ?]]; simpl in HB; try lia; eauto).
  rewrite (inferMove_eq (length A) n (length (A ++ B)) (length A) b2.2 n).
  - unfold moved_to. rewrite Hi, Hc, (app_assoc A B). rewrite rd_fmap, bind_Ok.
    rewrite vec_erase_fmap, bind_Ok. cbn [fst]. rewrite !length_fmap, !length_app. simpl.
    rewrite (proj2 (Z.eqb_neq _ _)) by (rewrite !length_app; lia).
    rewrite Z.gtb_ltb, (proj2 (Z.ltb_ge _ _)) by lia. rewrite <- app_assoc.
    rewrite (vec_insert_fmap fst A (x, n)), bind_Ok. eexists. split; [done|]. by split.
  - rewrite Hc, Hl, !length_fmap, !length_app. simpl. rewrite !length_app. simpl. lia.
  - rewrite Hc, Hl, EB, !(fmap_app snd A), !fmap_cons. cbn [app]. rewrite fmap_cons, <- (length_fmap snd A).
    apply first_difference_at; [|rewrite length_app; simpl; lia]. intros E. apply HnB. rewrite EB.
    rewrite fmap_cons, <- E. left.
  - rewrite Hl, EB, !(fmap_app snd A). rewrite lookup_app_r by (rewrite length_fmap; lia).
    by replace (S (length A) - length A.*2)%nat with 1%nat by (rewrite length_fmap; lia).
  - rewrite Hc, fmap_app, fmap_cons. by rewrite list_lookup_middle by (by rewrite length_fmap).
  - rewrite bool_decide_eq_false_2; [done|]. intros E. apply HnB. rewrite EB, !fmap_cons, E. right. left.
  - rewrite Hl, app_assoc, fmap_app, fmap_cons. cbn [snd]. rewrite find_text_at, length_fmap; [done|].
    rewrite fmap_app. by apply not_elem_of_app.
  - rewrite Hc, fmap_app, fmap_cons. cbn [snd]. by rewrite find_text_at, length_fmap.
  - rewrite Hc, length_fmap, length_app. simpl. lia.
Qed.

Lemma inferMove_last A x n B :
  read_as (A ++ (x, n) :: B) prior -> lst c = (A ++ B ++ [(x, n)]).*2 -> NoDup (lst c) -> B <> [] ->
  exists c', inferMove c prior = Ok (x, c') /\ read_as (A ++ B ++ [(x, n)]) c'.
Proof.
  intros [Hl Hi] Hc Hnd HB. rewrite Hc, app_assoc, fmap_app in Hnd.
  apply list.NoDup_app in Hnd as (_ & HA & _).
  assert (n ∉ (A ++ B).*2) as HnA by (intros Hin; apply (HA n Hin); left).
  destruct B as [|b B]; [done|].
  rewrite (inferMove_eq (length A) n (length A) (length (A ++ b :: B)) b.2 b.2).
  - unfold moved_to. rewrite Hi, Hc, rd_fmap, bind_Ok, vec_erase_fmap, bind_Ok. cbn [fst].
    rewrite (proj2 (Z.eqb_eq _ _)) by (rewrite length_fmap, !length_app; simpl; rewrite ?length_app; simpl; lia).
    rewrite bind_Ok. eexists. split; [done|]. split; [done|].
    cbn [indices with_indices]. by rewrite (app_assoc A), (fmap_app fst (A ++ b :: B)).
  - rewrite Hc, Hl, !length_fmap, !length_app. simpl. rewrite ?length_app. simpl. lia.
  - rewrite Hc, Hl, !(fmap_app snd A), !fmap_cons. cbn [app snd]. rewrite fmap_cons, <- (length_fmap snd A).
    apply first_difference_at; [|rewrite length_app; simpl; lia]. intros E. apply HnA.
    rewrite fmap_app, fmap_cons, E. apply elem_of_app. right. left.
  - rewrite Hl, fmap_app, lookup_app_r by (rewrite length_fmap; lia).
    by replace (S (length A) - length A.*2)%nat with 1%nat by (rewrite length_fmap; lia).
  - rewrite Hc, fmap_app. cbn [app]. by rewrite fmap_cons, list_lookup_middle by (by rewrite length_fmap).
  - rewrite bool_decide_eq_true_2 by done. rewrite Hl, fmap_app, fmap_cons.
    by rewrite list_lookup_middle by (by rewrite length_fmap).
  - rewrite fmap_app in HnA. apply not_elem_of_app in HnA as [HnA _].
    rewrite Hl, fmap_app, fmap_cons. cbn [snd]. by rewrite find_text_at, length_fmap.
  - rewrite Hc, app_assoc, fmap_app, fmap_cons. cbn [snd]. by rewrite find_text_at, length_fmap.
  - rewrite Hc, length_fmap, !length_app. simpl. rewrite ?length_app. simpl. lia.
Qed.
End Infer.

(** ** Renumbering *)

(** The same names in the same order; the columns that were there at the start have
    the same numbers, the new ones are negative in both. *)
Definition same_column (p q : Z * list Z) : Prop := p.2 = q.2 /\ (p.1 = q.1 \/ p.1 < 0 /\ q.1 < 0).
Definition renumbered : named -> named -> Prop := Forall2 same_column.

Lemma renumbered_refl P : renumbered P P.
Proof. apply Reflexive_instance_0. intros [x n]. split; auto. Qed.

Lemma renumbered_names P Q : renumbered P Q -> P.*2 = Q.*2.
Proof. intros H. induction H as [|p q P Q [E _] _ IH]; [done|]. by rewrite !fmap_cons, E, IH. Qed.

Lemma renumbered_split A x n B Q :
  renumbered (A ++ (x, n) :: B) Q ->
  exists A' y B', Q = A' ++ (y, n) :: B' /\ renumbered A A' /\ renumbered B B' /\ (x = y \/ x < 0 /\ y < 0).
Proof.
  intros (A' & R & HA & HR & ->)%Forall2_app_inv_l. inversion HR as [|? [y n'] ? B' [En Hy] HB]; subst.
  simpl in *. subst. eauto 10.
Qed.

Lemma renumbered_pair P Q p q :
  renumbered P Q -> NoDup P.*2 -> p ∈ P -> q ∈ Q -> p.2 = q.2 -> same_column p q.
Proof.
  intros H Hnd [i Hp]%list_elem_of_lookup [j Hq]%list_elem_of_lookup E.
  assert (i = j) as <-.
  { apply (NoDup_lookup P.*2 i j p.2); [done|by rewrite list_lookup_fmap, Hp|].
    by rewrite (renumbered_names _ _ H), list_lookup_fmap, Hq, E. }
  by apply (Forall2_lookup_lr _ _ _ _ _ _ H Hp Hq).
Qed.

(** Reordered alike. *)
Lemma renumbered_perm P P' Q Q' :
  renumbered P Q -> NoDup P.*2 -> P' ≡ₚ P -> Q' ≡ₚ Q -> P'.*2 = Q'.*2 -> renumbered P' Q'.
Proof.
  intros H Hnd HP HQ E. apply Forall2_same_length_lookup. split.
  { rewrite <- (length_fmap snd P'), E. apply length_fmap. }
  intros i p q Hp Hq. apply (renumbered_pair P Q); try done.
  - rewrite <- HP. by apply list_elem_of_lookup_2 in Hp.
  - rewrite <- HQ. by apply list_elem_of_lookup_2 in Hq.
  - assert (P'.*2 !! i = Some p.2) as H1 by (by rewrite list_lookup_fmap, Hp).
    rewrite E, list_lookup_fmap, Hq in H1. by injection H1.
Qed.

(** A change that the reader can infer from the names. *)
Definition tellable (md : order_mode) (N1 N2 : list (list Z)) : Prop :=
  NoDup N1 /\ NoDup N2 /\
  match md with
  | ORDER_CHANGE_MOVE => move_told N1 N2
  | ORDER_CHANGE_RENAME => N1 <> N2
  | _ => True
  end.

Definition infer (md : order_mode) (c prior : PatchColumnNames) : result (Z * PatchColumnNames) :=
  match md with
  | ORDER_CHANGE_DELETE => inferDelete c prior
  | ORDER_CHANGE_INSERT => inferInsert c prior
  | ORDER_CHANGE_MOVE => inferMove c prior
  | ORDER_CHANGE_RENAME => inferRename c prior
  | ORDER_CHANGE_NONE => Fault Exited
  end.

(** The columns with given names. *)
Lemma names_split (Q : named) N M : Q.*2 = N ++ M -> exists A B, Q = A ++ B /\ A.*2 = N /\ B.*2 = M.
Proof.
  intros E. exists (take (length N) Q), (drop (length N) Q). rewrite take_drop.
  split; [done|]. rewrite fmap_take, fmap_drop, E. by rewrite take_app_length, drop_app_length.
Qed.
Lemma names_cons (Q : named) n M : Q.*2 = n :: M -> exists x B, Q = (x, n) :: B /\ B.*2 = M.
Proof. destruct Q as [|[x m] B]; [done|]. intros [= -> <-]. eauto. Qed.

(** A move between the names is inferred as one, whatever the numbers are. *)
Lemma move_inferred c prior Q N :
  read_as Q prior -> lst c = N -> NoDup N -> move_told Q.*2 N ->
  exists y c' Q', inferMove c prior = Ok (y, c') /\ edit ORDER_CHANGE_MOVE y Q Q' /\ Q' ≡ₚ Q /\
    Q'.*2 = N /\ read_as Q' c'.
Proof.
  intros HQ Hc Hnd Hm. inversion Hm as [A B n C HB E1 E2|A n B HB E1 E2]; subst.
  - symmetry in E1. apply names_split in E1 as (A' & R & -> & <- & E1).
    apply names_split in E1 as (B' & R' & -> & <- & E1). apply names_cons in E1 as (x & C' & -> & <-).
    assert (A'.*2 ++ n :: B'.*2 ++ C'.*2 = (A' ++ (x, n) :: B' ++ C').*2) as E
      by (by rewrite fmap_app, fmap_cons, fmap_app).
    rewrite E in *. rewrite length_fmap in HB.
    destruct (inferMove_left c prior A' B' x n C') as (c' & Hi & Hr); try done.
    exists x, c', (A' ++ (x, n) :: B' ++ C'). split_and!; try done.
    + rewrite (app_assoc A'). constructor. by rewrite <- app_assoc.
    + by rewrite Permutation_middle.
  - symmetry in E1. apply names_split in E1 as (A' & R & -> & <- & E1).
    apply names_cons in E1 as (x & B' & -> & <-).
    assert (A'.*2 ++ B'.*2 ++ [n] = (A' ++ B' ++ [(x, n)]).*2) as E by (by rewrite !fmap_app).
    rewrite E in *.
    destruct (inferMove_last c prior A' x n B') as (c' & Hi & Hr); try done.
    { intros ->. by apply HB. }
    exists x, c', (A' ++ B' ++ [(x, n)]). split_and!; try done.
    + rewrite (app_assoc A' B'). constructor. by rewrite app_nil_r.
    + f_equiv. by rewrite <- Permutation_cons_append.
Qed.

Lemma edit_move_perm x P P' : edit ORDER_CHANGE_MOVE x P P' -> P' ≡ₚ P.
Proof. inversion 1 as [| |A B A' B' y n E|]; subst. by rewrite <- !Permutation_middle, E. Qed.

Lemma renumbered_app A B C D : renumbered A B -> renumbered C D -> renumbered (A ++ C) (B ++ D).
Proof. apply Forall2_app. Qed.

(** One change, read after the columns before it were read. *)
Lemma edit_inferred md x P1 P2 Q1 c prior :
  edit md x P1 P2 -> tellable md P1.*2 P2.*2 -> renumbered P1 Q1 -> NoDup Q1.*1 -> read_as Q1 prior ->
  lst c = P2.*2 ->
  exists y c' Q2, infer md c prior = Ok (y, c') /\ edit md y Q1 Q2 /\ renumbered P2 Q2 /\ NoDup Q2.*1 /\
    read_as Q2 c'.
Proof.
  intros He (Hn1 & Hn2 & Hmd) HR Hnd HQ Hc. pose proof (renumbered_names _ _ HR) as EN.
  destruct He as [A B x n|A B x n Hneg Hx Hn|A B A' B' x n E|A B x n n'].
  - apply renumbered_split in HR as (A' & y & B' & -> & HA & HB & Hxy). exists y.
    rewrite EN in Hn1. pose proof (renumbered_app _ _ _ _ HA HB) as HAB.
    destruct (inferDelete_spec c prior A' y n B') as (c' & Hi & Hr); try done.
    { rewrite Hc. by apply renumbered_names. }
    exists c', (A' ++ B'). split_and!; try done; [constructor|].
    rewrite fmap_app, fmap_cons, <- Permutation_middle in Hnd. apply list.NoDup_cons in Hnd as [_ Hnd].
    by rewrite fmap_app.
  - pose proof HR as (A' & B' & HA & HB & ->)%Forall2_app_inv_l.
    pose proof (renumbered_names _ _ HA) as EA. pose proof (renumbered_names _ _ HB) as EB.
    assert ((A ++ (x, n) :: B).*2 = A'.*2 ++ n :: B'.*2) as E
      by (by rewrite fmap_app, fmap_cons, EA, EB).
    destruct (inferInsert_spec c prior A' B' n) as (y & c' & Hi & Hy & Hfresh & Hr);
      [done|by rewrite Hc|by rewrite <- E|].
    exists y, c', (A' ++ (y, n) :: B'). split_and!; try done.
    + constructor; try done. by rewrite <- EN.
    + apply renumbered_app; [done|]. constructor; [|done]. split; [done|]. simpl. lia.
    + rewrite fmap_app, fmap_cons, <- Permutation_middle. apply list.NoDup_cons. by rewrite <- fmap_app.
  - set (P2 := A' ++ (x, n) :: B') in *. rewrite EN in Hmd.
    destruct (move_inferred c prior Q1 P2.*2 HQ Hc Hn2 Hmd) as (y & c' & Q2 & Hi & He & Hp & En & Hr).
    exists y, c', Q2. split_and!; try done; [|by rewrite Hp].
    apply (renumbered_perm _ P2 Q1 Q2 HR Hn1); [|done|done].
    apply (edit_move_perm x). by constructor.
  - apply renumbered_split in HR as (A' & y & B' & -> & HA & HB & Hxy).
    pose proof (renumbered_names _ _ HA) as EA. pose proof (renumbered_names _ _ HB) as EB.
    destruct (inferRename_spec c prior A' y n n' B') as (c' & Hi & Hr); [done| | |].
    { by rewrite Hc, fmap_app, fmap_cons, EA, EB. }
    { intros ->. by apply Hmd. }
    exists y, c', (A' ++ (y, n') :: B'). split_and!; try done; [constructor| |].
    + apply renumbered_app; [done|]. by constructor.
    + by rewrite fmap_app, fmap_cons in *.
Qed.

(** ** Records about columns *)

Definition proper_names (N : list (list Z)) : Prop := Forall (fun t => t <> []) N /\ Forall fit_text N.

Lemma reads_column_change flags r md tag N y c' :
  plain_reader r -> Forall (fun t => t <> []) N -> order_tag md = Some tag ->
  infer md (PatchColumnNames_ N [] (seqZ 0 (Zlen N))) (rd_names r) = Ok (y, c') -> lst c' = N ->
  reads_as flags (word (cstr "column") :: word tag :: (word <$> N)) r (renamed r c' N)
    [CallEvent true (ChangeColumn (OrderChange_ (indices (rd_names r)) (lst (rd_names r)) (indices c') N y
       (match md with ORDER_CHANGE_MOVE => y | _ => -1 end) md))].
Proof.
  intros (Hc & Ho & Hst & Hq) Hne Htag Hi Hl sh i Hs. unfold read_record. words Hs. rewrite Hc.
  change (says (cstr "column") "column") with true. cbn [orb andb].
  unfold read_column, renamed. rewrite Hst, Ho, (names_read_shown _ _ _ _ _ Hs Hne), bind_Ok. cbn [andb].
  destruct md; simplify_option_eq; simpl in Hi; simpl; rewrite Hi; simpl; by rewrite ?Hl, ?Hc, ?Hq.
Qed.

(** The states of the writer and the reader between two column changes; [O] are the
    names the comparison began with. *)
Record columns_at (O : list (list Z)) (P Q : named) (d : csvdiff) (r : reader) : Prop := ColumnsAt {
  ca_name : currentSheetName d = pendingSheetName d;
  ca_plain : plain_reader r;
  ca_need : needSelector r = true;
  ca_read : read_as Q (rd_names r);
  ca_len : rd_len r = Zlen P;
  ca_used : forall n, n ∈ P.*2 -> flag (match_column r) n = true /\ flag (assign_column r) n = true;
  ca_ops : ops d = [];
  ca_showed : showedColumns d = true;
  ca_select : showForSelect d = all_true O ∅;
  ca_describe : showForDescribe d = all_true O ∅;
  ca_num : renumbered P Q;
  ca_nodup : NoDup Q.*1
}.

Definition told (c : OrderChange) : Prop :=
  tellable (oc_mode c) (namesBefore c) (namesAfter c) /\ proper_names (namesAfter c).

Lemma change_step flags O P1 P2 Q1 d r md x obj :
  columns_at O P1 Q1 d r -> edit md x P1 P2 -> told (OrderChange_ P1.*1 P1.*2 P2.*1 P2.*2 x obj md) ->
  exists d' row r' y obj' Q2, csvdiff_changeColumn d (OrderChange_ P1.*1 P1.*2 P2.*1 P2.*2 x obj md) = Ok d' /\
    out_sheet d' = add_records (out_sheet d) [row] /\ fit_rows [row] /\
    reads_as flags row r r' [CallEvent true (ChangeColumn (OrderChange_ Q1.*1 Q1.*2 Q2.*1 Q2.*2 y obj' md))] /\
    edit md y Q1 Q2 /\ columns_at O P2 Q2 d' r' /\ nops d' = P2.*2.
Proof.
  intros [Hn Hp Hneed Hr Hlen Hu Ho Hsh Hs Hd HR Hnd] He [Ht [Hne Hnul]]. cbn [oc_mode namesBefore namesAfter] in *.
  destruct (edit_inferred md x P1 P2 Q1 (PatchColumnNames_ P2.*2 [] (seqZ 0 (Zlen P2.*2))) (rd_names r))
    as (y & c' & Q2 & Hi & He2 & HR2 & Hnd2 & Hr2); try done.
  pose proof (renumbered_names _ _ HR2) as E2. destruct Hr as [R1 R2]. pose proof Hr2 as [R3 R4].
  assert (exists tag, order_tag md = Some tag /\ fit_text tag) as (tag & Htag & Htn).
  { destruct He; eexists; (split; [reflexivity|fit_word]). }
  unfold csvdiff_changeColumn. cbn [oc_mode namesAfter]. rewrite Htag, put_record_spec by done.
  eexists _, _, _, y, _, Q2. split; [done|]. split; [reflexivity|]. split.
  { constructor; [|constructor]. apply words_fit; [fit_word|done|done]. }
  rewrite <- R1, <- R2, <- R4, <- E2. split.
  { apply (reads_column_change flags r md tag P2.*2 y c'); try done. by rewrite R3. }
  split; [done|]. split; [|done]. destruct Hp as (? & ? & ? & ?). split; try done.
  - unfold renamed. cbn [rd_len]. by rewrite R3, <- E2, length_fmap.
  - intros n Hin. unfold renamed. cbn [match_column assign_column]. rewrite R3, <- E2.
    split; by apply all_true_flag.
Qed.

Lemma csvdiff_events_app d es es' :
  csvdiff_events d (es ++ es') = (d ← csvdiff_events d es; csvdiff_events d es').
Proof.
  revert d. induction es as [|e es IH]; intros d; [done|]. cbn [app csvdiff_events].
  destruct (csvdiff_event d e) as [d'|]; [apply IH|done].
Qed.

Lemma add_records_app c rows rows' : add_records c (rows ++ rows') = add_records (add_records c rows) rows'.
Proof. apply foldl_app. Qed.

(** A chain of changes is read as a chain of the same kinds of changes. *)
Lemma chain_step flags O l P0 P d r :
  col_chain l P0 P -> columns_at O P0 P0 d r -> Forall told l ->
  exists d' rows r' l' Q, csvdiff_events d (ChangeColumn <$> l) = Ok d' /\
    out_sheet d' = add_records (out_sheet d) rows /\ fit_rows rows /\
    reads flags rows r r' ((fun c => CallEvent true (ChangeColumn c)) <$> l') /\
    col_chain l' P0 Q /\ oc_mode <$> l' = oc_mode <$> l /\ columns_at O P Q d' r' /\
    (l <> [] -> nops d' = P.*2).
Proof.
  intros Hch Hat. induction Hch as [P0|l P0 P1 P2 x obj md Hch IH He]; intros Ht.
  { exists d, [], r, [], P0. split_and!; try done; constructor. }
  apply Forall_app in Ht as [Ht Hlast]. inversion_clear Hlast as [|? ? Hc _].
  destruct IH as (d1 & rows & r1 & l' & Q1 & E & Hout & Hnn & Hr & Hch' & Hm & Hat1 & _); try done.
  destruct (change_step flags O P1 P2 Q1 d1 r1 md x obj Hat1 He Hc) as
    (d2 & row & r2 & y & obj' & Q2 & E2 & Hout2 & Hnn2 & Hr2 & He2 & Hat2 & Hno).
  exists d2, (rows ++ [row]), r2, (l' ++ [OrderChange_ Q1.*1 Q1.*2 Q2.*1 Q2.*2 y obj' md]), Q2.
  rewrite fmap_app, csvdiff_events_app, E, bind_Ok. cbn [fmap list_fmap csvdiff_events csvdiff_event].
  rewrite E2, bind_Ok. split_and!; try done.
  - by rewrite add_records_app, <- Hout.
  - by apply Forall_app.
  - rewrite fmap_app. eapply reads_app; [done|]. by apply reads_one.
  - by apply chain_snoc.
  - by rewrite !fmap_app, Hm.
Qed.
