(* ===== verification/CsvTrip.v ===== *)
(** * Differences as CSV text: the round trip

    A comparison is written by [MergeOutputCsvDiff], the text is read by [CsvFile] and
    interpreted by [PatchParser::applyCsv], and the patcher applies it: the calls
    are those of the comparison, and the local sheet becomes the remote one, under
    the conditions of [diff_text_roundtrip]. *)

From stdpp Require Import gmap sorting.
From S2P Require Import Prelude Sheet SheetSpec Csv CsvSpec CsvFile CsvFileSpec Viterbi OrderMerge OrderMergeSpec.
From S2P Require Import Mover MoverSpec Merger MergerSpec SheetPatcher SheetPatcherSpec SnifferSpec.
From S2P Require Import PatchRoundtrip FormatSniffer CsvDiff CsvPatch CsvPatchSpec CsvColumns.
#[local] Open Scope Z_scope.
#[local] Arguments cstr s%_string.

(** ** A comparison, written and read *)

(** The events of a comparison. *)
Definition comparison_events (P0 P : named) (l : list OrderChange) (cs : list RowChange) (ix : txt2bool)
    (all : list (list Z)) : list out_event :=
  (ChangeName false (bool_decide (l = [])) P0.*2 :: (ChangeColumn <$> l)) ++
  [ChangeName true (bool_decide (l = [])) P.*2] ++
  (if bool_decide (cs = []) then [] else [AddPools]) ++ ((fun c => ChangeRow c ix all) <$> cs) ++ [MergeDone].

(** The calls of the patcher that they are read as. *)
Definition comparison_calls (P0 P : named) (l : list OrderChange) (cs : list RowChange) (ix : txt2bool)
    (calls : list patch_call) : Prop :=
  exists l' Q rcalls,
    calls = (if bool_decide (l = []) then [] else [CallEvent true (ChangeName false false P0.*2)]) ++
            ((fun c => CallEvent true (ChangeColumn c)) <$> l') ++ rcalls /\
    col_chain l' P0 Q /\ oc_mode <$> l' = oc_mode <$> l /\ renumbered P Q /\
    row_calls P.*2 ix (negb (bool_decide (l = []))) cs rcalls.

Definition dtbl_row : list pcell :=
  [word (cstr "dtbl"); word (cstr "csv"); word (cstr "version"); word (cstr "0.5")].

Section Events.
Context (flags : CompareFlags) (P0 P : named) (l : list OrderChange) (ix : txt2bool).
Context (Hup : canUpdate flags = true) (Hin : canInsert flags = true) (Hdel : canDelete flags = true).
Context (HP0 : P0.*1 = seqZ 0 (Zlen P0)) (Hprop0 : proper_names P0.*2).
Context (Hprop : proper_names P.*2) (Hnd : NoDup P.*2) (HN : P <> []).
Context (Hch : col_chain l P0 P) (Hl : Forall told l).

Lemma start_sheet : out_sheet csvdiff_start = add_records CsvS.create [dtbl_row].
Proof using Type. reflexivity. Qed.

(** Up to the rows. *)
Lemma columns_written :
  exists d rows r l' Q, csvdiff_events csvdiff_start
      ((ChangeName false (bool_decide (l = [])) P0.*2 :: (ChangeColumn <$> l)) ++
       [ChangeName true (bool_decide (l = [])) P.*2]) = Ok d /\
    out_sheet d = add_records (out_sheet csvdiff_start) rows /\ fit_rows rows /\
    reads flags rows new_reader r
      ((if bool_decide (l = []) then [] else [CallEvent true (ChangeName false false P0.*2)]) ++
       ((fun c => CallEvent true (ChangeColumn c)) <$> l')) /\
    col_chain l' P0 Q /\ oc_mode <$> l' = oc_mode <$> l /\ renumbered P Q /\
    first P.*2 P0.*2 d r /\ showedColumns d = negb (bool_decide (l = [])).
Proof using Type*.
  destruct Hprop0 as [Hne Hfit]. cbn [app csvdiff_events csvdiff_event]. rewrite bind_Ok.
  unfold csvdiff_changeName at 1. cbn [negb]. case_bool_decide as El; cbn [negb].
  - rewrite El in Hch. inversion Hch as [? E1 E2 E3|? ? ? ? ? ? ? ? ? E1]; [|symmetry in E1; by apply app_cons_not_nil in E1].
    subst P. cbn [fmap list_fmap app csvdiff_events csvdiff_event]. rewrite El.
    eexists _, [], new_reader, [], P0. split; [reflexivity|]. split; [reflexivity|].
    split; [constructor|]. split; [constructor|]. split; [constructor|]. split; [done|].
    split; [apply renumbered_refl|]. split; [|done]. split; try done; [by right|by left].
  - set (d1 := CsvDiff_ _ _ _ _ _ _ _ _ _ _ _ _).
    set (r1 := renamed new_reader (PatchColumnNames_ P0.*2 [] (seqZ 0 (Zlen P0.*2))) P0.*2).
    destruct (chain_step flags P0.*2 l P0 P d1 r1) as
      (d2 & rows & r2 & l' & Q & E & Hout & Hnn & Hr & Hch' & Hm & [C1 C2 C3 C4 C5 C6 C7 C8 C9 C10 C11 C12] & Hno);
      try done.
    { split; try done.
      - split; [done|]. unfold r1. cbn. by rewrite length_fmap, HP0.
      - unfold r1. cbn. by rewrite length_fmap.
      - intros n Hn. unfold r1. split; by apply all_true_flag.
      - apply renumbered_refl.
      - rewrite HP0. apply NoDup_seqZ. }
    rewrite csvdiff_events_app, E, bind_Ok. cbn [csvdiff_events csvdiff_event]. rewrite bind_Ok.
    eexists _, ((word (cstr "column") :: word (cstr "name") :: (word <$> P0.*2)) :: rows), r2, l', Q.
    split; [done|]. split; [exact Hout|]. split.
    { constructor; [|done]. apply words_fit; [fit_word|fit_word|done]. }
    split; [eapply (reads_cons _ _ _ _ r1 _ [_]); [by apply reads_column_name|done]|].
    split_and!; try done.
    destruct C4 as [Cl Ci]. pose proof (renumbered_names _ _ C11) as EN. specialize (Hno El). split; try done.
    + split; try done; cbn [nops csvdiff_changeName negb]; rewrite Hno; [by rewrite Cl, EN|].
      by rewrite C5, length_fmap.
    + left. split; [done|]. cbn [nops csvdiff_changeName negb out_columns]. by rewrite Hno.
    + right. split; [done|]. unfold all_used. cbn [nops csvdiff_changeName negb]. by rewrite Hno.
Qed.

Lemma comparison_written cs all :
  Forall (writable P.*2 ix) cs ->
  exists d rows r calls, csvdiff_events csvdiff_start (comparison_events P0 P l cs ix all) = Ok d /\
    out_sheet d = add_records CsvS.create (dtbl_row :: rows) /\ fit_rows (dtbl_row :: rows) /\
    reads flags (dtbl_row :: rows) new_reader r calls /\ comparison_calls P0 P l cs ix calls.
Proof using Type*.
  intros Hcs. destruct columns_written as
    (d1 & rows1 & r1 & l' & Q & E1 & Hout1 & Hf1 & Hr1 & Hch' & Hm & HR & Hfirst & Hsh).
  destruct Hprop as [Hne Hfit]. assert (P.*2 <> []) as HN' by (by intros ?%fmap_nil_inv).
  destruct (rows_step flags P.*2 P0.*2 ix Hup Hin Hdel HN' Hnd Hne Hfit all cs d1 r1) as
    (d2 & rows2 & r2 & calls2 & E2 & Hout2 & Hf2 & Hr2 & Hcalls); [by right|done|].
  exists (mergeClear d2), (rows1 ++ rows2), r2. eexists. split.
  { unfold comparison_events. rewrite (app_assoc (_ :: _)), csvdiff_events_app, E1, bind_Ok.
    rewrite csvdiff_events_app.
    assert (csvdiff_events d1 (if bool_decide (cs = []) then [] else [AddPools]) = Ok d1) as ->
      by (by destruct (bool_decide (cs = []))).
    by rewrite bind_Ok, csvdiff_events_app, E2, bind_Ok. }
  split.
  { cbn [out_sheet mergeClear]. by rewrite Hout2, Hout1, start_sheet, <- !add_records_app. }
  split.
  { constructor; [|by apply Forall_app]. split; [done|]. repeat (constructor; [fit_word|]). constructor. }
  split.
  { eapply (reads_cons _ _ _ _ new_reader _ []); [by apply reads_dtbl|by eapply reads_app]. }
  exists l', Q, calls2. rewrite Hsh in Hcalls. cbn [app]. rewrite <- app_assoc. by split_and!.
Qed.
End Events.

(** ** The text *)

(** A sheet of records that may differ in width. *)
Definition ragged (rows : list (list pcell)) (m : Z) (c : CsvSheet) : Prop :=
  exists v, c = CsvSheet_ (TypedSheet_ rows (Zlen rows) m ([], false)) [] (Zlen rows) 0 v /\
    Forall (fun row => Zlen row <= m) rows /\ (rows = [] -> m = 0) /\ (rows <> [] -> 0 < m) /\
    (v = true -> Forall (fun row => Zlen row = m) rows).

Lemma fit_no_nul p : fit p -> no_nul p.1.
Proof. intros [Hc E]. rewrite <- E. by apply cell_ok_norm. Qed.

Lemma ragged_record rows m c row :
  ragged rows m c -> row <> [] -> Forall fit row ->
  exists m', ragged (rows ++ [row]) m' (CsvS.addRecord (add_fields c row)) /\ m <= m' /\ Zlen row <= m'.
Proof.
  intros (v & -> & Hle & H0 & Hp & Hv) Hne Hf.
  rewrite add_fields_eq by (eapply Forall_impl; [|exact Hf]; intros p; apply fit_no_nul).
  assert (0 < Zlen row) as Hlen by (destruct row; [done|]; simpl; lia).
  unfold CsvS.addRecord. cbn [s rec th tw valid arr h w zero app]. rewrite Z.add_0_l.
  exists (if Zlen row >? m then Zlen row else m). rewrite !Z.gtb_ltb.
  assert (forall k, m <= k -> Forall (fun row => Zlen row <= k) rows) as Hle'.
  { intros k Hk. eapply Forall_impl; [|exact Hle]. cbn. lia. }
  split; [|destruct (Z.ltb_spec m (Zlen row)); lia].
  eexists. split; [rewrite length_app, Nat2Z.inj_add; reflexivity|].
  split; [|split; [|split]].
  - apply Forall_app. destruct (Z.ltb_spec m (Zlen row)); (split; [apply Hle'; lia|]); repeat constructor; lia.
  - intros E. symmetry in E. by apply app_cons_not_nil in E.
  - intros _. destruct (Z.ltb_spec m (Zlen row)); lia.
  - destruct rows as [|r rows].
    + rewrite H0 by done. intros _. rewrite (proj2 (Z.ltb_lt _ _)) by lia. by repeat constructor.
    + specialize (Hp ltac:(done)). rewrite (proj2 (Z.eqb_neq m 0)), andb_true_r by lia.
      match goal with |- context [m =? ?b] => destruct (Z.eqb_spec m b) as [E|E] end; cbn [negb]; [|done].
      intros Ev.
      match goal with |- context [m <? ?b] =>
        replace (m <? b) with false by (symmetry; apply Z.ltb_ge; rewrite E; reflexivity) end.
      apply Forall_app. split; [by apply Hv|]. by repeat constructor.
Qed.

Lemma ragged_records rows c m rows' :
  ragged rows m c -> fit_rows rows' ->
  exists m', ragged (rows ++ rows') m' (add_records c rows') /\ m <= m'.
Proof.
  intros Hr Hf. revert rows c m Hr. induction Hf as [|row rows' [Hne Hrow] _ IH]; intros rows c m Hr.
  { exists m. rewrite app_nil_r. by split. }
  destruct (ragged_record rows m c row) as (m1 & Hr1 & Hm1 & _); try done.
  destruct (IH _ _ _ Hr1) as (m2 & Hr2 & Hm2). exists m2. rewrite <- app_assoc in Hr2. split; [exact Hr2|lia].
Qed.

Definition filled (m : Z) (row : list pcell) : list pcell := row ++ replicate (Z.to_nat m - length row) (word []).

Lemma filled_length m row : Zlen row <= m -> Zlen (filled m row) = m.
Proof. intros H. unfold filled. rewrite length_app, length_replicate. lia. Qed.

Lemma filled_lookup m row x :
  0 <= x < m -> filled m row !! Z.to_nat x = Some (default (word []) (row !! Z.to_nat x)).
Proof.
  intros Hx. unfold filled. destruct (row !! Z.to_nat x) as [p|] eqn:E; [by apply lookup_app_l_Some|].
  apply lookup_ge_None in E. rewrite lookup_app_r by done. apply lookup_replicate. split; [done|lia].
Qed.

Lemma filled_fit m row : Forall fit row -> Forall fit (filled m row).
Proof. intros H. apply Forall_app. split; [done|]. apply Forall_replicate. fit_word. Qed.

Lemma ragged_cell rows m c x y row :
  ragged rows m c -> rows !! y = Some row -> 0 <= x < m ->
  CsvS.cellString c x (Z.of_nat y) = Ok (default (word []) (row !! Z.to_nat x)).
Proof.
  intros (v & -> & Hle & _ & _ & Hv) Hy Hx. unfold CsvS.cellString, Typed.cell. cbn [valid s arr].
  rewrite (rd_ok rows _ row), !bind_Ok by (lia || by rewrite Nat2Z.id).
  destruct v.
  - pose proof (Forall_lookup_1 _ _ _ _ (Hv eq_refl) Hy) as Hl. cbn beta in Hl.
    destruct (rd_in row x) as (p & Hp & ->); [lia|]. by rewrite Hp.
  - destruct (Z.leb_spec 0 x); [|lia]. destruct (Z.ltb_spec x (Zlen row)) as [Hl|Hl]; cbn [andb].
    + destruct (rd_in row x) as (p & Hp & ->); [lia|]. by rewrite Hp.
    + by rewrite lookup_ge_None_2 by lia.
Qed.

(** The text that is written is that of the records filled up. *)
Lemma ragged_text rows m c :
  ragged rows m c -> encode_csv c None defaultStyle = Ok (table_text 44 (filled m <$> rows)).
Proof.
  intros Hr. pose proof Hr as (v & Ec & Hle & _). unfold encode_csv, encode.
  assert (w (s c) = m /\ h (s c) = Zlen rows) as [-> ->] by (by rewrite Ec).
  rewrite Nat2Z.id, <- (length_fmap (filled m) rows). apply (encode_rows_eq 44 (filled m <$> rows) [] m).
  - apply Forall_fmap. eapply Forall_impl; [|exact Hle]. intros row. apply filled_length.
  - intros y row Hy x Hx. rewrite list_lookup_fmap in Hy. destruct (rows !! y) as [row'|] eqn:E; [|done].
    injection Hy as <-. eexists. split; [by apply filled_lookup|]. by apply (ragged_cell rows m).
Qed.

Lemma fit_norm rows : Forall (Forall fit) rows -> norm_rows rows = rows.
Proof.
  intros H. unfold norm_rows. rewrite <- (list_fmap_id rows) at 2. apply list_fmap_ext. intros i row Hi.
  rewrite <- (list_fmap_id row) at 2. apply list_fmap_ext. intros j p Hj.
  by apply (Forall_lookup_1 _ _ _ _ (Forall_lookup_1 _ _ _ _ H Hi) Hj).
Qed.

(** A sheet that holds the records filled up shows them. *)
Lemma holds_shown rows m c k row :
  holds (filled m <$> rows) m c -> Forall (fun row => Zlen row <= m) rows -> 4 <= m -> rows !! k = Some row ->
  row_shown c (Z.of_nat k) row.
Proof.
  intros (z & ->) Hle Hm Hk. unfold row_shown. cbn [s w].
  split; [by apply (Forall_lookup_1 _ _ _ _ Hle Hk)|]. split; [done|]. intros x Hx.
  assert (rd (filled m <$> rows) (Z.of_nat k) = Ok (filled m row)) as Hr
    by (apply rd_ok; [lia|]; by rewrite Nat2Z.id, list_lookup_fmap, Hk).
  assert (rd (filled m row) x = Ok (default (word []) (row !! Z.to_nat x))) as Hx'
    by (apply rd_ok; [lia|]; by apply filled_lookup).
  unfold CsvS.cellString, Typed.cell. cbn [valid s arr]. by rewrite Hr, bind_Ok, Hx'.
Qed.

(** *** The format of the text *)

Lemma join_blank d x k : join d (x :: replicate k []) = x ++ replicate k d.
Proof.
  revert x. induction k as [|k IH]; intros x; [simpl; by rewrite app_nil_r|].
  cbn [replicate]. change (join d (x :: [] :: replicate k [])) with (x ++ [d] ++ join d ([] :: replicate k [])).
  by rewrite IH.
Qed.

Lemma has_text_intro t a b : has_text t (a ++ t ++ b) = true.
Proof.
  induction a as [|c a IH]; cbn [app].
  - destruct (t ++ b) eqn:E; cbn [has_text]; rewrite bool_decide_eq_true_2; try done; rewrite <- E; by exists b.
  - cbn [has_text]. by rewrite IH, orb_true_r.
Qed.

Definition dtbl_text : list Z := cstr "dtbl,csv,version,0.5".

Lemma header_text m :
  4 <= m -> row_text 44 (filled m dtbl_row) = dtbl_text ++ replicate (Z.to_nat m - 4) 44 ++ [13; 10].
Proof.
  intros Hm. unfold row_text, filled. rewrite fmap_app, fmap_replicate.
  change (encodeCell (word []) (style_of 44)) with (@nil Z).
  change (length dtbl_row) with 4%nat.
  change ((fun c => encodeCell c (style_of 44)) <$> dtbl_row) with
    ([cstr "dtbl"; cstr "csv"; cstr "version"] ++ [cstr "0.5"]).
  rewrite <- app_assoc. cbn [app].
  change (join 44 (cstr "dtbl" :: cstr "csv" :: cstr "version" :: cstr "0.5" :: replicate (Z.to_nat m - 4) []))
    with (cstr "dtbl,csv,version," ++ join 44 (cstr "0.5" :: replicate (Z.to_nat m - 4) [])).
  rewrite join_blank. unfold dtbl_text. by rewrite <- !app_assoc.
Qed.

Lemma header_format m rest :
  4 <= m -> getFormat (row_text 44 (filled m dtbl_row) ++ rest) = FORMAT_PATCH_CSV.
Proof.
  intros Hm. rewrite header_text by done. set (k := (Z.to_nat m - 4)%nat). unfold getFormat.
  rewrite bool_decide_eq_true_2 by done. cbn [orb].
  assert (first_line ((dtbl_text ++ replicate k 44 ++ [13; 10]) ++ rest) = dtbl_text ++ replicate k 44 ++ [13]) as ->.
  { assert (10 ∉ dtbl_text ++ replicate k 44 ++ [13]) as Hn%cut_line_none.
    { rewrite !elem_of_app, elem_of_replicate, list_elem_of_singleton. intros [H|[[? _]|?]]; try done.
      revert H. apply (bool_decide_unpack _). vm_compute. done. }
    unfold first_line. replace ((dtbl_text ++ replicate k 44 ++ [13; 10]) ++ rest) with
      ((dtbl_text ++ replicate k 44 ++ [13]) ++ 10 :: rest) by (rewrite <- !app_assoc; done).
    rewrite cut_line_app, Hn. cbn [cut_line Z.eqb Pos.eqb]. by rewrite app_nil_r. }
  assert (has_text (cstr "human") (dtbl_text ++ replicate k 44 ++ [13]) = false) as ->.
  { apply not_true_is_false. intros H. apply has_text_in in H.
    rewrite !elem_of_app, elem_of_replicate, list_elem_of_singleton in H. destruct H as [H|[[? _]|?]]; try done.
    revert H. apply (bool_decide_unpack _). vm_compute. done. }
  pose proof (has_text_intro (cstr "csv") (cstr "dtbl,") (cstr ",version,0.5" ++ replicate k 44 ++ [13])) as H.
  change (has_text (cstr "csv") (dtbl_text ++ replicate k 44 ++ [13]) = true) in H. by rewrite H.
Qed.

(** ** Written as text and read *)

(** Reading the text of records. *)
Lemma records_read realloc flags rows r calls c0 :
  realloc_ok realloc -> (forall b n, 0 <= n <= SIZE_MAX -> is_Some (realloc b n)) ->
  fit_rows (dtbl_row :: rows) -> reads flags (dtbl_row :: rows) new_reader r calls ->
  exists text, encode_csv (add_records CsvS.create (dtbl_row :: rows)) None defaultStyle = Ok text /\
    getFormat text = FORMAT_PATCH_CSV /\
    (Zlen text + 1 < SIZE_MAX ->
     exists sh ex, read_reader realloc [text] c0 no_config = Ok (Some (st_with defaultStyle sh ex)) /\
       applyCsv flags sh = Ok (calls ++ [CallEvent true MergeDone])).
Proof.
  intros Hre Hmem Hfit Hr. set (all := dtbl_row :: rows) in *.
  destruct (ragged_records [] CsvS.create 0 all) as (m & Hrag & _); [by exists true|done|].
  cbn [app] in Hrag. rewrite (ragged_text _ _ _ Hrag). pose proof Hrag as (_ & _ & Hle & _).
  assert (4 <= m) as Hm by (inversion_clear Hle; done). eexists. split; [reflexivity|].
  split; [by apply (header_format m)|]. intros Hsize.
  assert (Forall (Forall fit) (filled m <$> all)) as Hpf.
  { apply Forall_fmap. eapply Forall_impl; [|exact Hfit]. intros row [_ H]. by apply filled_fit. }
  destruct (table_parsed realloc 44 c0 (filled m <$> all) m [table_text 44 (filled m <$> all)]) as
    (sh & ex & m' & Hp & Hh & Em); try done; [|lia| | |by rewrite concat_cons, app_nil_r|].
  { unfold delim_ok. rewrite !not_elem_of_cons. split_and!; try done. apply not_elem_of_nil. }
  { apply Forall_fmap. eapply Forall_impl; [|exact Hle]. intros row. apply filled_length. }
  { apply Forall_fmap, Forall_forall. intros row Hin. rewrite Forall_forall in Hle.
    pose proof (filled_length m row (Hle _ Hin)) as Hl. cbn.
    rewrite Forall_fmap, Forall_forall in Hpf. specialize (Hpf row Hin). unfold row_ok. split_and!.
    - intros E. rewrite E in Hl. simpl in Hl. lia.
    - eapply Forall_impl; [|exact Hpf]. by intros p [H _].
    - intros E. rewrite E in Hl. simpl in Hl. lia. }
  rewrite (fit_norm _ Hpf) in Hh. rewrite Em in Hh by done.
  exists sh, ex. rewrite read_reader_eq. split; [exact Hp|]. unfold applyCsv.
  assert (Z.to_nat (h (s sh)) = length all) as ->.
  { destruct Hh as (z & ->). cbn [s h]. by rewrite length_fmap, Nat2Z.id. }
  rewrite (reads_sound flags all new_reader r calls sh 0), bind_Ok; [done|done|].
  intros k row Hk. rewrite Z.add_0_l. by apply (holds_shown all m).
Qed.

(** ** Applying what was read *)

Lemma same_columns_units P Q us :
  renumbered P Q -> Forall2 unit_column P (kept us) -> Forall col_ok us -> Forall2 unit_column Q (kept us).
Proof.
  intros HR HP Hus. apply Forall2_same_length_lookup. split.
  { rewrite <- (Forall2_length HP). symmetry. by apply (Forall2_length HR). }
  intros i q v Hq Hv. destruct (lookup_lt_is_Some_2 P i) as [p Hp].
  { rewrite (Forall2_length HR). by apply lookup_lt_Some in Hq. }
  destruct (Forall2_lookup_lr _ _ _ _ _ _ HR Hp Hq) as [_ Hid].
  pose proof (Forall2_lookup_lr _ _ _ _ _ _ HP Hp Hv) as Hu. unfold unit_column in *.
  apply list_elem_of_lookup_2, list_elem_of_filter in Hv as [_ Hv%list_elem_of_In].
  rewrite Forall_forall in Hus. destruct (Hus v Hv) as [(_ & Hlow & _) _].
  destruct (Z.eqb_spec (localUnit v) (-1)); lia.
Qed.

(** The changes of rows as events, after a declaration of the names if there was
    none. *)
Lemma calls_events lc rcell P ix b cs calls :
  row_calls P.*2 ix b cs calls -> Forall (sent lc rcell P) cs ->
  exists pre es, calls = CallEvent true <$> (pre ++ es) /\
    Forall2 (same_change (fun n => flag ix n = true) P) cs es /\
    (pre = [] /\ (es <> [] -> b = true) \/ pre = [ChangeName false false P.*2] /\ b = false).
Proof.
  induction 1 as [b|cs l Hrc IH|b c call cs l Has Hem Hrc IH]; intros Hcs.
  - exists [], []. split_and!; [done|constructor|by left].
  - destruct (IH Hcs) as (pre & es & -> & Hes & [[-> _]|[_ ?]]); [|done].
    exists [ChangeName false false P.*2], es. split_and!; [done|done|by right].
  - apply Forall_cons_1 in Hcs as [(Hm & Hcf & _ & Hne & _ & Hval) Hcs'].
    destruct Has as (cd & vl & ns & ix' & all & -> & Has). rewrite Hm in Has, Hem |- *. destruct Has as [Hcd Hvl].
    assert (b = true) as ->.
    { destruct b; [done|]. destruct (Hem eq_refl) as (md & ns' & ix2 & all' & [= _ _ Ev _ _ _]).
      destruct (map_choose _ Hne) as (k & v & Hk). destruct (Hval k v Hk) as [Hin _].
      specialize (Hvl k). unfold is_in in Hvl. rewrite bool_decide_eq_true_2 in Hvl by done. by rewrite Ev, lookup_empty, Hk in Hvl. }
    destruct (IH Hcs') as (pre & es & -> & Hes & [[-> _]|[_ ?]]); [|done].
    exists [], (ChangeRow (RowChange_ ROW_CHANGE_UPDATE cd vl ∅ ∅ ns false (-2) (-2) (-2)) ix' all :: es).
    split_and!; [done| |by left]. constructor; [|done]. eexists _, _, _. split; [reflexivity|].
    split; [done|]. split; [done|]. intros q Hq. cbn [val cond].
    assert (is_in q.2 P.*2 = true) as Hin.
    { apply bool_decide_eq_true_2, list_elem_of_fmap. eauto. }
    rewrite Hvl, Hcd, Hin. cbn [andb]. split; [done|]. unfold matched.
    split; [by destruct (_ || _)|]. intros ->. by rewrite orb_true_r.
Qed.

Lemma chain_of_none Q P0 : col_chain [] P0 Q -> Q = P0.
Proof. inversion 1 as [|? ? ? ? ? ? ? ? ? E]; [done|]. symmetry in E. by apply app_cons_not_nil in E. Qed.

Lemma renumbered_member P Q i : renumbered P Q -> 0 <= i -> i ∈ P.*1 -> i ∈ Q.*1.
Proof.
  intros H Hi. induction H as [|p q P Q [_ Hid] _ IH]; [done|]. rewrite !fmap_cons, !elem_of_cons.
  intros [->|?]; [left; lia|right; auto].
Qed.

Lemma modes_of_kept (l l' : list OrderChange) :
  oc_mode <$> l' = oc_mode <$> l -> Forall (fun c => oc_mode c <> ORDER_CHANGE_RENAME) l ->
  Forall (fun c => oc_mode c <> ORDER_CHANGE_RENAME) l'.
Proof.
  intros E H. apply Forall_lookup. intros i c' Hc'. apply (f_equal (fun l => l !! i)) in E.
  rewrite !list_lookup_fmap, Hc' in E. destruct (l !! i) as [c|] eqn:Hc; [|done]. injection E as ->.
  by apply (Forall_lookup_1 _ _ _ _ H Hc).
Qed.

(** The calls up to the rows bring the local sheet to the columns [Q]. *)
Lemma calls_columns sh local_name l l' P Q pre (es : list out_event) :
  let P0 := own_columns sh local_name in let f := local_view (cell_at sh) (zero (s sh)) in
  sheet_ok (s sh) -> NoDup (local_name <$> seqZ 0 (w (s sh))) -> col_chain l P0 P -> col_chain l' P0 Q ->
  oc_mode <$> l' = oc_mode <$> l -> renumbered P Q ->
  Forall (fun c => oc_mode c <> ORDER_CHANGE_RENAME) l -> (exists i, 0 <= i /\ i ∈ P.*1) ->
  (pre = [] /\ (es <> [] -> negb (bool_decide (l = [])) = true) \/
   pre = [ChangeName false false P.*2] /\ negb (bool_decide (l = [])) = false) ->
  exists p p', mergeStart sh local_name = Ok p /\
    apply_events p ((if bool_decide (l = []) then [] else [ChangeName false false P0.*2]) ++
                    (ChangeColumn <$> l') ++ pre) = Ok p' /\
    shows f Q p' /\ row_ready p' /\ (es <> [] -> declaredNames p' = true) /\ h (s (sheet p')) = h (s sh).
Proof.
  intros P0 f Hok Hnd Hch Hch' Hm HR Hnr (i & Hi & Hin) Hpre.
  destruct (patcher_started sh local_name Hok Hnd) as (p0 & Hp0 & Hs0 & Hsh0 & Hr0). fold P0 f in Hs0.
  assert (NoDup P0.*2) as Hnd0 by (unfold P0; by rewrite own_columns_names).
  exists p0. case_bool_decide as El; cbn [negb] in Hpre.
  - subst l. apply chain_of_none in Hch as ->. apply fmap_nil_inv in Hm as ->.
    apply chain_of_none in Hch' as ->. destruct Hpre as [[-> Hes]|[-> _]].
    + exists p0. split_and!; try done; [|by rewrite Hsh0]. intros H. by apply Hes in H.
    + destruct (names_declared _ _ p0 Hs0 Hnd0 Hr0) as (p1 & Hp1 & Hs1 & Hd1 & Hr1 & Hsh1).
      exists p1. cbn [app fmap list_fmap apply_events]. rewrite Hp1, bind_Ok, Hsh1, Hsh0. by split_and!.
  - destruct Hpre as [[-> _]|[_ ?]]; [|done]. rewrite app_nil_r.
    destruct (names_declared _ _ p0 Hs0 Hnd0 Hr0) as (p1 & Hp1 & Hs1 & Hd1 & Hr1 & Hsh1).
    destruct (columns_patched sh local_name l' Q p1) as (p2 & Hp2 & Hs2 & Hr2 & Hd2 & Hh2 & _); try done.
    { by apply (modes_of_kept l). }
    { exists i. split; [done|]. by apply (renumbered_member P). }
    { by rewrite Hsh1, Hsh0. }
    exists p2. split; [done|]. split.
    { rewrite apply_events_app. cbn [apply_events]. by rewrite Hp1, !bind_Ok. }
    split_and!; try done; [intros _; congruence|]. by rewrite Hh2, Hsh1, Hsh0.
Qed.

(** The columns that the indexes are about. *)
Lemma foldl_insert_keys (l : list (list Z * bool)) (m : txt2bool) n :
  n ∈ l.*1 \/ is_Some (m !! n) -> is_Some (foldl (fun ix p => <[p.1 := p.2]> ix) m l !! n).
Proof.
  revert m. induction l as [|[k b] l IH]; intros m; cbn [foldl]; [by intros [?%not_elem_of_nil|?]|].
  rewrite fmap_cons, elem_of_cons. intros H. apply IH. destruct (decide (k = n)) as [->|Hne].
  - right. cbn. by rewrite lookup_insert_eq.
  - rewrite lookup_insert_ne by done. cbn in *. destruct H as [[?|?]|?]; [congruence|auto..].
Qed.

Lemma mapR_inv {A B} (f : A -> result B) l r : mapR f l = Ok r -> Forall2 (fun x y => f x = Ok y) l r.
Proof.
  revert r. induction l as [|x l IH]; cbn [mapR]; intros r H; [injection H as <-; constructor|].
  apply bind_Ok_inv in H as (y & Hy & H). apply bind_Ok_inv in H as (ys & Hys & H). injection H as <-.
  constructor; auto.
Qed.

Lemma index_map_keys m original index_flags ix n :
  index_map m original index_flags = Ok ix -> ix <> ∅ -> n ∈ original -> is_Some (ix !! n).
Proof.
  unfold index_map. intros H Hne Hn. apply bind_Ok_inv in H as (l & Hl%mapR_inv & H). injection H as <-.
  destruct (existsb snd l); [|done]. apply foldl_insert_keys. left.
  apply list_elem_of_lookup in Hn as [i Hi]. apply lookup_lt_Some in Hi as Hlt.
  destruct (Forall2_lookup_l _ _ _ i (Z.of_nat i) Hl) as (p & Hp & Hf); [by rewrite lookup_seqZ_lt, Z.add_0_l by lia|].
  apply bind_Ok_inv in Hf as (n' & Hn' & Hf). apply bind_Ok_inv in Hf as (b & _ & Hf). injection Hf as <-.
  apply rd_Ok_inv in Hn' as [_ Hn']. rewrite Nat2Z.id, Hi in Hn'. injection Hn' as <-.
  apply list_elem_of_fmap. eexists. split; [|by apply list_elem_of_lookup_2 in Hp]. done.
Qed.

Lemma all_true_keys (ns : list (list Z)) (m : txt2bool) n :
  is_Some (m !! n) -> is_Some (foldl (fun ix k => <[k := true]> ix) m ns !! n).
Proof.
  intros H. change (is_Some (all_true ns m !! n)). rewrite all_true_lookup. destruct (is_in n ns); eauto.
Qed.
Lemma all_true_keeps (ns : list (list Z)) (m : txt2bool) n :
  flag m n = true -> flag (foldl (fun ix k => <[k := true]> ix) m ns) n = true.
Proof.
  intros H. change (flag (all_true ns m) n = true). unfold flag in *. rewrite all_true_lookup.
  by destruct (is_in n ns).
Qed.

(** ** Claims *)

Section Text.
Context (realloc : option (list Z) -> Z -> option (list Z)) (flags : CompareFlags).
Context (Hre : realloc_ok realloc) (Hmem : forall b n, 0 <= n <= SIZE_MAX -> is_Some (realloc b n)).
Context (Hup : canUpdate flags = true) (Hin : canInsert flags = true) (Hdel : canDelete flags = true).

Lemma comparison_text P0 P l cs ix all c0 :
  P0.*1 = seqZ 0 (Zlen P0) -> proper_names P0.*2 -> proper_names P.*2 -> NoDup P.*2 -> P <> [] ->
  col_chain l P0 P -> Forall told l -> Forall (writable P.*2 ix) cs ->
  exists d text, csvdiff_events csvdiff_start (comparison_events P0 P l cs ix all) = Ok d /\
    encode_csv (out_sheet d) None defaultStyle = Ok text /\ getFormat text = FORMAT_PATCH_CSV /\
    (Zlen text + 1 < SIZE_MAX ->
     exists sh ex calls, read_reader realloc [text] c0 no_config = Ok (Some (st_with defaultStyle sh ex)) /\
       applyCsv flags sh = Ok (calls ++ [CallEvent true MergeDone]) /\ comparison_calls P0 P l cs ix calls).
Proof using Type*.
  intros HP0 Hp0 Hp Hnd Hne Hch Hl Hcs.
  destruct (comparison_written flags P0 P l ix) with cs all as (d & rows & r & calls & Hd & Hout & Hfit & Hr & Hc);
    try done.
  destruct (records_read realloc flags rows r calls c0) as (text & Ht & Hf & Hs); try done.
  exists d, text. rewrite Hout. split_and!; try done. intros Hsize.
  destruct (Hs Hsize) as (sh & ex & Hrd & Ha). by exists sh, ex, calls.
Qed.
End Text.

Lemma renumbered_own P Q (name : Z -> list Z) :
  renumbered P Q -> (forall x n, (x, n) ∈ P -> 0 <= x -> n = name x) ->
  forall x n, (x, n) ∈ Q -> 0 <= x -> n = name x.
Proof.
  intros HR Hown x n [i Hi]%list_elem_of_lookup Hx. destruct (lookup_lt_is_Some_2 P i) as [[x' n'] Hp].
  { rewrite (Forall2_length HR). by apply lookup_lt_Some in Hi. }
  destruct (Forall2_lookup_lr _ _ _ _ _ _ HR Hp Hi) as [En Hid]. cbn in En, Hid. subst n'.
  assert (x' = x) as -> by lia. apply (Hown x n); [by apply list_elem_of_lookup_2 in Hp|done].
Qed.

(** Cells that survive as text have well-formed nulls. *)
Lemma fit_wf c : fit c -> cell_wf c.
Proof. intros [_ E] H2. unfold norm in E. rewrite H2 in E. by rewrite <- E. Qed.

Lemma sent_writable lc rcell P ix c :
  sent lc rcell P c -> (forall x y, fit (lc x y)) -> (forall x y, fit (rcell x y)) ->
  (forall x n, (x, n) ∈ P -> 0 <= x -> is_Some (ix !! n)) -> writable P.*2 ix c.
Proof.
  intros (Hm & _ & Hn & _ & Hc & Hv) Hl Hr Hix. split; [done|]. split; [by rewrite Hm|]. split.
  - split; intros n v Hw.
    + destruct (Hc n v Hw) as (_ & x & y & _ & _ & _ & ->). apply Hl.
    + destruct (Hv n v Hw) as (_ & x & y & ->). apply Hr.
  - intros n _ [v Hw]. destruct (Hc n v Hw) as ([x n'] & _ & _ & Hq & <- & Hx & _). by apply (Hix x).
Qed.

(** The calls that are read for a comparison, applied to the local sheet. *)
Section Patched.
Context (flags : CompareFlags) (sh rsh : CsvSheet) (us : list MatchUnit) (local_name : Z -> list Z) (ix : txt2bool).
Context (Hok : sheet_ok (s sh)) (Hokr : sheet_ok (s rsh)) (Hhr : h (s rsh) = h (s sh)).
Context (Hcase : ignore_case flags = false) (Hfix : fixed_columns flags = false) (Hup : canUpdate flags = true).
Context (Hus : Forall col_ok us) (Hrw : Forall (fun u => remoteUnit u < w (s rsh)) us).
Context (Hl : locals us ≡ₚ seqZ 0 (w (s sh))) (Hrem : remoteUnit <$> kept us = seqZ 0 (w (s rsh))).
Context (Hwl : forall x y, cell_wf (cell_at sh x y)) (Hwr : forall x y, cell_wf (cell_at rsh x y)).
Context (Hnew : forall v y, v ∈ kept us -> localUnit v = -1 -> 0 <= y < h (s sh) ->
                (cell_at rsh (remoteUnit v) y).2 = false).
Context (Hnd : NoDup (local_name <$> seqZ 0 (w (s sh)))).
Context (Hap : forall Q, Forall2 unit_column Q (kept us) ->
                (forall x n, (x, n) ∈ Q -> 0 <= x -> n = local_name x) ->
                apart sh rsh us (fun n => flag ix n = true) Q).

Lemma calls_patched P l m rc m' calls :
  Forall2 unit_column P (kept us) -> NoDup P.*2 -> cstr "---" ∉ P.*2 -> P <> [] ->
  (forall x n, (x, n) ∈ P -> 0 <= x -> n = local_name x) -> (exists i, 0 <= i /\ i ∈ P.*1) ->
  col_chain l (own_columns sh local_name) P -> Forall (fun c => oc_mode c <> ORDER_CHANGE_RENAME) l ->
  had_foreign_row m = false -> bottom_local_row m <= 0 -> names m = P.*2 -> filtered_names m = [] ->
  exclude_column m = [] -> allGone m = false ->
  diff_rows flags true (CsvS.cellString sh) (CsvS.cellString sh) (CsvS.cellString rsh) (h (s sh)) m
    us (row_pair <$> seqZ 0 (h (s sh))) [] = Ok (rc, m') ->
  comparison_calls (own_columns sh local_name) P l rc ix calls ->
  exists es p p', calls = CallEvent true <$> es /\ mergeStart sh local_name = Ok p /\
    apply_events p es = Ok p' /\ arr (s (sheet p')) = arr (s rsh).
Proof using Type*.
  intros HPu HPn Hdash HPne Hown Hi Hch Hnr Hff Hb Hn Hfi Hex Hg Hdr
    (l' & Q & rcalls & -> & Hch' & Hm & HR & Hrc).
  pose proof (same_columns_units P Q us HR HPu Hus) as HQu. pose proof (renumbered_names _ _ HR) as EN.
  destruct (rows_compared flags sh rsh us (fun n => flag ix n = true)) with Q m as
    (rc2 & m2 & Hdr2 & Hsent2 & Hpatch); try done; try (by rewrite <- EN).
  { intros ->. rewrite EN in HPn. by apply Forall2_nil_inv_r in HR. }
  { apply Hap; [done|]. by apply (renumbered_own P). }
  rewrite Hdr in Hdr2. injection Hdr2 as <- <-. rewrite EN in Hrc.
  destruct (calls_events _ _ Q ix _ rc rcalls Hrc Hsent2) as (pre & es & -> & Hes & Hpre). rewrite <- EN in Hpre.
  destruct (calls_columns sh local_name l l' P Q pre es) as (p & p1 & Hp & Hp1 & Hs1 & Hr1 & Hd1 & Hh1); try done.
  destruct (Hpatch p1 es) as (p2 & Hp2 & Harr); try done.
  exists (((if bool_decide (l = []) then [] else [ChangeName false false (own_columns sh local_name).*2])
    ++ (ChangeColumn <$> l') ++ pre) ++ es), p, p2.
  split_and!; try done.
  - rewrite !fmap_app, <- list_fmap_compose, <- !app_assoc. by destruct (bool_decide (l = [])).
  - by rewrite apply_events_app, Hp1, bind_Ok.
Qed.
End Patched.

(** C4. Comparing, writing the differences as text, reading them and patching.  Two
    sheets have the same number of rows, the rows correspond in their order, the
    columns correspond by the units, at least one column is kept and the search for
    moves plans at most one move; some local columns are the index.  The
    comparison does not assume a header, ignore case, keep the columns fixed or
    exclude any, and may update, insert and delete.  The names
    before and after the column changes and all cells survive as text, and the
    column changes are ones that a reader infers from the names ([told];
    [move_right_misread] has one that is not).  Then the comparison is written as a
    text that is recognised as a patch; the text is read, the calls that [applyCsv]
    makes for it are applied to the local sheet by a patcher without a fault, and
    the result is the remote sheet.  As without text, local names are distinct, no
    column is called [---], new columns hold no null, and no remote row equals a
    later local row, here in the common index columns. *)
Theorem diff_text_roundtrip (realloc : option (list Z) -> Z -> option (list Z)) (flags : CompareFlags)
    (sh rsh c0 : CsvSheet) (local_name remote_name : Z -> list Z) (index_flags : list Z) (us : list MatchUnit)
    (indexes : gmap (list Z) bool) (c : columns) (ci gone : bool) :
  realloc_ok realloc -> (forall b n, 0 <= n <= SIZE_MAX -> is_Some (realloc b n)) ->
  sheet_ok (s sh) -> sheet_ok (s rsh) -> h (s rsh) = h (s sh) ->
  assume_header flags = false -> ignore_case flags = false -> fixed_columns flags = false ->
  exclude_columns flags = [] -> canUpdate flags = true -> canInsert flags = true -> canDelete flags = true ->
  Forall col_ok us -> Forall (fun u => remoteUnit u < w (s rsh)) us ->
  locals us ≡ₚ seqZ 0 (w (s sh)) -> remoteUnit <$> kept us = seqZ 0 (w (s rsh)) ->
  NoDup (merged_cols us) -> (exists v, v ∈ kept us /\ 0 <= localUnit v) ->
  NamesColumns local_name (w (s sh)) ->
  index_map (start flags) (local_name <$> seqZ 0 (w (s sh))) index_flags = Ok indexes -> indexes <> ∅ ->
  one_move us (w (s sh)) -> no_dashes us local_name remote_name (w (s sh)) ->
  column_changes flags local_name remote_name indexes us
    (Columns (seqZ 0 (w (s sh))) (local_name <$> seqZ 0 (w (s sh))) []) = Ok (c, ci, gone) ->
  proper_names (local_name <$> seqZ 0 (w (s sh))) -> proper_names (col_names c) -> Forall told (cc c) ->
  (forall x y, fit (cell_at sh x y)) -> (forall x y, fit (cell_at rsh x y)) ->
  (forall v y, v ∈ kept us -> localUnit v = -1 -> 0 <= y < h (s sh) ->
     (cell_at rsh (remoteUnit v) y).2 = false) ->
  (forall j k, 0 <= j < k -> k < h (s sh) -> exists v, v ∈ kept us /\ 0 <= localUnit v /\
     flag indexes (local_name (localUnit v)) = true /\
     cell_at rsh (remoteUnit v) j <> cell_at sh (localUnit v) k) ->
  exists evs d text,
    diff_merge flags true (CsvS.cellString sh) (CsvS.cellString sh) (CsvS.cellString rsh) (w (s sh))
      (h (s sh)) local_name remote_name index_flags us (row_pair <$> seqZ 0 (h (s sh))) = Ok evs /\
    csvdiff_events csvdiff_start evs = Ok d /\ encode_csv (out_sheet d) None defaultStyle = Ok text /\
    getFormat text = FORMAT_PATCH_CSV /\
    (Zlen text + 1 < SIZE_MAX ->
     exists patch ex es p p', read_reader realloc [text] c0 no_config = Ok (Some (st_with defaultStyle patch ex)) /\
       applyCsv flags patch = Ok (CallEvent true <$> es) /\ mergeStart sh local_name = Ok p /\
       apply_events p es = Ok p' /\ arr (s (sheet p')) = arr (s rsh)).
Proof.
  intros Hre Hmem Hok Hokr Hhr Hhd Hcase Hfix Hex Hup Hins Hdel Hus Hrw Hl Hrem Hndm (v0 & Hv0 & Hl0) Hnd Hix
    Hixne Hmove Hdashes Hcc0 Hpn0 Hpn Htold Hfl Hfr Hnew Hapart. unfold NamesColumns in Hnd.
  assert (Forall two_way us) as Htw by (eapply Forall_impl; [|exact Hus]; by intros u [? _]).
  destruct (columns_reached flags local_name remote_name indexes us (w (s sh))) as
    (c1 & ci1 & Hcc & Hcols & Hdash); eauto. rewrite Hcc in Hcc0. injection Hcc0 as -> -> <-.
  destruct (columns_known flags sh local_name remote_name indexes us c ci false Hhd Htw Hl Hnd Hndm Hcc)
    as (P & HP1 & HP2 & HPn & Hch & Hnr & Hown).
  pose proof (unit_columns us P Hus ltac:(congruence)) as HPu. pose proof Hok as (Hh & Hw & _).
  assert (localUnit v0 ∈ P.*1) as Hv0P.
  { rewrite HP1, Hcols. unfold merged_cols. apply list_elem_of_fmap. exists v0. split; [|done].
    unfold column_of. by rewrite (proj2 (Z.eqb_neq _ _)) by lia. }
  assert (P <> []) as HPne by (intros ->; by apply not_elem_of_nil in Hv0P).
  assert (forall x y, cell_wf (cell_at sh x y)) as Hwl by (intros; by apply fit_wf).
  assert (forall x y, cell_wf (cell_at rsh x y)) as Hwr by (intros; by apply fit_wf).
  unfold diff_merge. rewrite Hix, bind_Ok, Hcc, bind_Ok, Hfix. cbn [negb].
  set (m := with_columns _ _ _ _). set (ix := if negb ci then _ else indexes).
  assert (forall n, n ∈ local_name <$> seqZ 0 (w (s sh)) -> is_Some (ix !! n)) as Hkeys.
  { intros n Hn. pose proof (index_map_keys _ _ _ _ n Hix Hixne Hn). unfold ix.
    destruct ci; [done|]. by apply all_true_keys. }
  assert (forall Q, Forall2 unit_column Q (kept us) -> (forall x n, (x, n) ∈ Q -> 0 <= x -> n = local_name x) ->
    apart sh rsh us (fun n => flag ix n = true) Q) as Hap.
  { intros Q HQ HownQ. apply (apart_named _ _ _ _ Q local_name); try done. intros j k Hj Hk.
    destruct (Hapart j k Hj Hk) as (v & H1 & H2 & H3 & H4). exists v. split_and!; try done.
    unfold ix. destruct ci; [done|]. by apply all_true_keeps. }
  destruct (rows_compared flags sh rsh us (fun n => flag ix n = true)) with P m as
    (rc & m' & Hdr & Hsent & _); try done; [by rewrite HP2|by apply Hap|].
  destruct (comparison_text realloc flags Hre Hmem Hup Hins Hdel (own_columns sh local_name) P (cc c) rc ix
    (col_names c) c0) as (d & text & Hd & Ht & Hf & Hread); try done.
  { rewrite own_columns_ids. f_equal. unfold own_columns. rewrite length_fmap, length_seqZ. lia. }
  { by rewrite own_columns_names. }
  { by rewrite HP2. }
  { eapply Forall_impl; [|exact Hsent]. intros ch Hs. apply (sent_writable _ _ _ _ _ Hs Hfl Hfr).
    intros x n Hxn Hx. apply Hkeys. rewrite (Hown x n Hxn Hx). apply list_elem_of_fmap_2.
    rewrite <- (own_columns_ids sh local_name). apply (chain_start _ _ _ _ Hch Hx).
    by apply (list_elem_of_fmap_2 fst _ (x, n)). }
  rewrite Hdr, bind_Ok. eexists _, d, text. split; [reflexivity|]. rewrite <- HP2 in Hd |- *.
  split; [by rewrite <- own_columns_names|]. split; [done|]. split; [done|]. intros Hsize.
  destruct (Hread Hsize) as (patch & ex & calls & Hrd & Hcalls & Hc).
  destruct (calls_patched flags sh rsh us local_name ix) with P (cc c) m rc m' calls as
    (es & p & p' & -> & Hp & Hp' & Harr); try done; [by rewrite HP2|by exists (localUnit v0)|].
  exists patch, ex, (es ++ [MergeDone]), p, p'. split_and!; try done; [by rewrite Hcalls, fmap_app|].
  by rewrite apply_events_app, Hp', bind_Ok.
Qed.

Lemma plain_fit rows width x y :
  Forall (Forall (fun c : pcell => fit c)) rows -> fit (cell_at (csv_of width rows) x y).
Proof.
  intros H. unfold cell_at. cbn. unfold Typed.cell, rd. cbn [arr].
  destruct (y <? 0); [fit_word|]. destruct (rows !! Z.to_nat y) as [row|] eqn:E; [|fit_word]. cbn.
  destruct (x <? 0); [fit_word|]. destruct (row !! Z.to_nat x) as [v|] eqn:E2; [|fit_word].
  by apply (Forall_lookup_1 _ _ _ _ (Forall_lookup_1 _ _ _ _ H E) E2).
Qed.

Ltac fit_null := split; [by right|done].

(** A column is deleted, one is moved, one is new, and each row has an update; the
    second column is the index. *)
Lemma diff_text_roundtrip_witness :
  exists evs d text patch ex es p p',
    diff_merge sample_flags true (CsvS.cellString old_sheet) (CsvS.cellString old_sheet)
      (CsvS.cellString new_sheet) 3 2 letter letter [0; 1; 0] sample_units (row_pair <$> seqZ 0 2) = Ok evs /\
    csvdiff_events csvdiff_start evs = Ok d /\ encode_csv (out_sheet d) None defaultStyle = Ok text /\
    read_reader realloc_zero [text] CsvS.create no_config = Ok (Some (st_with defaultStyle patch ex)) /\
    applyCsv sample_flags patch = Ok (CallEvent true <$> es) /\ mergeStart old_sheet letter = Ok p /\
    apply_events p es = Ok p' /\ arr (s (sheet p')) = arr (s new_sheet).
Proof.
  pose (ix := <[letter 0 := false]> (<[letter 1 := true]> (<[letter 2 := false]> (∅ : gmap _ bool)))).
  assert (exists evs d text,
    diff_merge sample_flags true (CsvS.cellString old_sheet) (CsvS.cellString old_sheet)
      (CsvS.cellString new_sheet) 3 2 letter letter [0; 1; 0] sample_units (row_pair <$> seqZ 0 2) = Ok evs /\
    csvdiff_events csvdiff_start evs = Ok d /\ encode_csv (out_sheet d) None defaultStyle = Ok text /\
    getFormat text = FORMAT_PATCH_CSV /\
    (Zlen text + 1 < SIZE_MAX ->
     exists patch ex es p p',
       read_reader realloc_zero [text] CsvS.create no_config = Ok (Some (st_with defaultStyle patch ex)) /\
       applyCsv sample_flags patch = Ok (CallEvent true <$> es) /\ mergeStart old_sheet letter = Ok p /\
       apply_events p es = Ok p' /\ arr (s (sheet p')) = arr (s new_sheet)))
    as (evs & d & text & H1 & H2 & H3 & _ & H5).
  { let r := eval vm_compute in (column_changes sample_flags letter letter ix sample_units
                                   (Columns (seqZ 0 3) (letter <$> seqZ 0 3) [])) in
    match r with
    | Ok (?c, ?ci, ?gone) => apply (diff_text_roundtrip realloc_zero sample_flags old_sheet new_sheet
                                  CsvS.create letter letter [0; 1; 0] sample_units ix c ci gone)
    end; try done.
    - apply realloc_zero_ok.
    - split_and!; simpl; [done|lia|by repeat constructor].
    - split_and!; simpl; [done|lia|by repeat constructor].
    - repeat (constructor;
        [split; [split_and!; simpl; [done|lia|intros; split; done || lia]|simpl; (done || lia)]|]).
      constructor.
    - repeat (constructor; [simpl; lia|]). constructor.
    - apply (bool_decide_unpack _). vm_compute. done.
    - apply (bool_decide_unpack _). vm_compute. done.
    - eexists. split; [left|simpl; lia].
    - apply (bool_decide_unpack _). vm_compute. done.
    - apply sample_one_move.
    - apply sample_no_dashes.
    - split; repeat (constructor; [done || fit_word|]); constructor.
    - split; repeat (constructor; [done || fit_word|]); constructor.
    - repeat (constructor; [split; [split; [apply (bool_decide_unpack _); vm_compute; done|];
        split; [apply (bool_decide_unpack _); vm_compute; done|]|
        split; repeat (constructor; [done || fit_word|]); constructor]|]); [done| |done|constructor].
      apply (told_last [] [98] [[99]]). done.
    - intros x y. apply plain_fit. repeat (constructor; [repeat (constructor; [fit_word|]); constructor|]).
      constructor.
    - intros x y. apply plain_fit. repeat (constructor; [repeat (constructor; [fit_null || fit_word|]);
        constructor|]). constructor.
    - intros v y Hv Hl Hy. simpl in Hy.
      change (v ∈ kept sample_units) with (v ∈ take 3 sample_units) in Hv.
      assert (y = 0 \/ y = 1) as [-> | ->] by lia;
        repeat (apply elem_of_cons in Hv as [->|Hv]; [done|]); by apply not_elem_of_nil in Hv.
    - intros j k Hj Hk. simpl in Hk. assert (j = 0 /\ k = 1) as [-> ->] by lia.
      eexists. split; [right; right; left|]. split; [simpl; lia|]. split; [vm_compute; done|].
      vm_compute. done. }
  assert (Zlen text + 1 < SIZE_MAX) as Hsize.
  { assert (match evs ← diff_merge sample_flags true (CsvS.cellString old_sheet) (CsvS.cellString old_sheet)
                        (CsvS.cellString new_sheet) 3 2 letter letter [0; 1; 0] sample_units
                        (row_pair <$> seqZ 0 2);
                    d ← csvdiff_events csvdiff_start evs; encode_csv (out_sheet d) None defaultStyle with
            | Ok t => Zlen t
            | Fault _ => -1
            end = 245) as Hlen by (vm_compute; reflexivity).
    rewrite H1, bind_Ok, H2, bind_Ok, H3 in Hlen. rewrite Hlen. done. }
  destruct (H5 Hsize) as (patch & ex & es & p & p' & G1 & G2 & G3 & G4 & G5).
  exists evs, d, text, patch, ex, es, p, p'.
  exact (conj H1 (conj H2 (conj H3 (conj G1 (conj G2 (conj G3 (conj G4 G5))))))).
Defined.

(** C35. The text of a comparison: for a chain of column changes that can be inferred
    from the names and changes of rows of any kind, in terms of the final columns,
    the events are written as a text that is recognised as a patch; reading it gives
    the declaration of the names if columns change, a chain of column changes of the
    same kinds between columns with the same names, and one call for each change of
    a row, with its values and with its conditions on the index columns and the
    columns that change. *)
Theorem csvdiff_text_spec (realloc : option (list Z) -> Z -> option (list Z)) (flags : CompareFlags)
    (P0 P : named) (l : list OrderChange) (cs : list RowChange) (ix : txt2bool) (all : list (list Z))
    (c0 : CsvSheet) :
  realloc_ok realloc -> (forall b n, 0 <= n <= SIZE_MAX -> is_Some (realloc b n)) ->
  canUpdate flags = true -> canInsert flags = true -> canDelete flags = true ->
  P0.*1 = seqZ 0 (Zlen P0) -> proper_names P0.*2 -> proper_names P.*2 -> NoDup P.*2 -> P <> [] ->
  col_chain l P0 P -> Forall told l -> Forall (writable P.*2 ix) cs ->
  exists d text, csvdiff_events csvdiff_start (comparison_events P0 P l cs ix all) = Ok d /\
    encode_csv (out_sheet d) None defaultStyle = Ok text /\ getFormat text = FORMAT_PATCH_CSV /\
    (Zlen text + 1 < SIZE_MAX ->
     exists sh ex calls, read_reader realloc [text] c0 no_config = Ok (Some (st_with defaultStyle sh ex)) /\
       applyCsv flags sh = Ok (calls ++ [CallEvent true MergeDone]) /\ comparison_calls P0 P l cs ix calls).
Proof. intros. by apply comparison_text. Qed.

(** A column is deleted; a row is inserted at the start, one is deleted, one is
    updated in the index column and one is moved. *)
Definition some_columns : named := [(0, letter 0); (1, letter 1); (2, letter 2)].
Definition row_of (md : row_mode) (cd vl : list (list Z * pcell)) : RowChange :=
  RowChange_ md (list_to_map cd) (list_to_map vl) ∅ ∅ [letter 1; letter 2] false (-2) (-2) (-2).
Definition some_rows : list RowChange :=
  let b t := (letter 1, plain t) in let c t := (letter 2, plain t) in
  [row_of ROW_CHANGE_CONTEXT [] []; row_of ROW_CHANGE_INSERT [] [b (cstr "7"); c (cstr "new, row")];
   row_of ROW_CHANGE_DELETE [b (cstr "2"); c (cstr "y")] [];
   row_of ROW_CHANGE_UPDATE [b (cstr "3"); c (cstr "z")] [b (cstr "4")];
   row_of ROW_CHANGE_MOVE [b (cstr "5"); c (cstr "w")] []].
Definition some_index : txt2bool := {[letter 1 := true; letter 2 := false]}.
Definition without_first : OrderChange :=
  OrderChange_ [0; 1; 2] [letter 0; letter 1; letter 2] [1; 2] [letter 1; letter 2] 0 (-1) ORDER_CHANGE_DELETE.

Lemma cells_listed (l : list (list Z * pcell)) n v :
  (list_to_map l : txt2cell) !! n = Some v -> Forall (fun p => fit p.2) l -> fit v.
Proof.
  intros H%elem_of_list_to_map_2 Hf. rewrite Forall_forall in Hf.
  by apply (Hf (n, v)), list_elem_of_In.
Qed.

Lemma csvdiff_text_spec_witness :
  exists d text, csvdiff_events csvdiff_start
      (comparison_events some_columns (drop 1 some_columns) [without_first] some_rows some_index []) = Ok d /\
    encode_csv (out_sheet d) None defaultStyle = Ok text /\ getFormat text = FORMAT_PATCH_CSV /\
    (Zlen text + 1 < SIZE_MAX ->
     exists sh ex calls,
       read_reader realloc_zero [text] CsvS.create no_config = Ok (Some (st_with defaultStyle sh ex)) /\
       applyCsv sample_flags sh = Ok (calls ++ [CallEvent true MergeDone]) /\
       comparison_calls some_columns (drop 1 some_columns) [without_first] some_rows some_index calls).
Proof.
  apply (csvdiff_text_spec realloc_zero sample_flags some_columns (drop 1 some_columns) [without_first] some_rows
    some_index [] CsvS.create); try done.
  - apply realloc_zero_ok.
  - split; repeat (constructor; [done || fit_word|]); constructor.
  - split; repeat (constructor; [done || fit_word|]); constructor.
  - apply (bool_decide_unpack _). vm_compute. done.
  - apply (chain_snoc [] some_columns some_columns (drop 1 some_columns) 0 (-1)); [constructor|].
    apply (edit_delete [] (drop 1 some_columns)).
  - constructor; [|constructor]. split; [split; [apply (bool_decide_unpack _); vm_compute; done|];
      split; [apply (bool_decide_unpack _); vm_compute; done|done]|].
    split; repeat (constructor; [done || fit_word|]); constructor.
  - repeat (constructor; [split; [done|]; split; [done|]; split;
      [split; intros n v Hv; apply (cells_listed _ _ _ Hv); repeat (constructor; [fit_word|]); constructor|]|]);
      [..|constructor];
      intros n [->|[->|[]%not_elem_of_nil]%elem_of_cons]%elem_of_cons _; by eexists.
Defined.

(** ** What the two sides do not agree on *)

(** A column that moves to the right, and not to the end, is put one place too far
    to the left by [inferMove]: the numbers no longer go with the names. *)
Lemma move_right_misread :
  inferMove (PatchColumnNames_ [letter 1; letter 2; letter 0; letter 3] [] [])
    (PatchColumnNames_ [letter 0; letter 1; letter 2; letter 3] [] [0; 1; 2; 3]) =
  Ok (0, PatchColumnNames_ [letter 1; letter 2; letter 0; letter 3] [] [1; 0; 2; 3]).
Proof. reflexivity. Qed.

(** Without an index column the indexes are empty, and [changeRow] reads past the
    end of the map for the first condition. *)
Lemma no_index_faults :
  index_map (start sample_flags) [letter 1; letter 2] [0; 0] = Ok ∅ /\
  csvdiff_changeRow csvdiff_start (row_of ROW_CHANGE_UPDATE [(letter 1, plain (cstr "3"))] []) ∅ =
  Fault OutOfBounds.
Proof. by vm_compute. Qed.
