(* ===== verification/Manifest.v ===== *)
(** * Control artifacts

    Models [manifest_parse] and [find_file_in_manifest] of
    [src/src/ssfossil/fossil/src/manifest.c], with the functions they use of
    [file.c] and [wiki.c]: the parser of the manifests, clusters, control files, wiki
    pages, tickets and attachments of a repository.

    The content is the text after the cursor; lines and tokens are parts of it.  The
    parser ends the tokens with NULs that it writes over the character after them, and
    decodes them in place; both only touch bytes that it does not read again, so a
    token is modelled by its value, the text before its first NUL.  The incremental
    checksum is passed on, and reset at both ends.

    Dates are turned into numbers by SQLite: the type of the numbers and the function
    are arguments. *)

From S2P Require Import Prelude Encode Blob Md5.
#[local] Open Scope Z_scope.
#[local] Arguments cstr s%_string.

(** ** Faults and syntax errors *)

(** [goto manifest_syntax_error] is [None]. *)
Definition obind {A B} (m : result (option A)) (f : A -> result (option B)) : result (option B) :=
  o ← m; match o with Some a => f a | None => Ok None end.
Declare Scope parse_scope.
Delimit Scope parse_scope with parse.
#[global] Open Scope parse_scope.
Notation "x ⇐ m ; k" := (obind m (fun x => k)) (at level 20, m at level 100, k at level 200) : parse_scope.
Notation "' p ⇐ m ; k" := (obind m (fun p => k))
  (at level 20, p pattern, m at level 100, k at level 200) : parse_scope.
Definition must (b : bool) : result (option unit) := Ok (if b then Some tt else None).
Definition oklift {A} (m : result A) : result (option A) := a ← m; Ok (Some a).

(** ** Texts *)

(** The sign of [strcmp]: bytes are compared without sign. *)
Fixpoint strcmp (a b : list Z) : Z :=
  match a, b with
  | [], [] => 0
  | [], _ => -1
  | _, [] => 1
  | x :: a, y :: b => if x <? y then -1 else if y <? x then 1 else strcmp a b
  end.

Fixpoint span (f : Z -> bool) (l : list Z) : list Z * list Z :=
  match l with
  | [] => ([], [])
  | c :: l' => if f c then let '(a, b) := span f l' in (c :: a, b) else ([], l)
  end.
(** [blob_token] and [blob_line], and what is left. *)
Definition token_of (l : list Z) : list Z * list Z :=
  let '(t, l) := span (fun c => negb (blob_isspace c)) (span blob_isspace l).2 in (t, (span blob_isspace l).2).
Definition line_of (l : list Z) : list Z * list Z :=
  match span (fun c => negb (c =? 10)) l with
  | (a, c :: l) => (a ++ [c], l)
  | (a, []) => (a, [])
  end.
(** A token that must be there, one that must not, and one that may. *)
Definition some_token (l : list Z) : result (option (list Z * list Z)) :=
  let '(t, l) := token_of l in Ok (if bool_decide (t = []) then None else Some (t, l)).
Definition no_token (l : list Z) : result (option unit) := must (bool_decide ((token_of l).1 = [])).

Definition defossil (z : list Z) : result (list Z) := m ← defossilize (z ++ [0]); Ok (c_string m).

(** [file.c] *)
Definition dot_at (z : list Z) (i : Z) : bool :=
  (cget z i =? 46) && ((cget z (i + 1) =? 47) || (cget z (i + 1) =? 0) ||
                       (cget z (i + 1) =? 46) && ((cget z (i + 2) =? 47) || (cget z (i + 2) =? 0))).
Fixpoint path_loop (z : list Z) : bool :=
  match z with
  | [] => true
  | c :: z =>
      negb ((c =? 92) || (c =? 42) || (c =? 91) || (c =? 93) || (c =? 63)) &&
      negb ((c =? 47) && ((cget z 0 =? 47) || dot_at z 0)) && path_loop z
  end.
Definition file_is_simple_pathname (z : list Z) : bool :=
  negb ((cget z 0 =? 47) || (cget z 0 =? 0)) && negb (dot_at z 0) && path_loop z &&
  negb (cget z (Zlen z - 1) =? 47).
Fixpoint file_tail (z : list Z) (zTail : list Z) : list Z :=
  match z with [] => zTail | c :: z => file_tail z (if c =? 47 then z else zTail) end.

(** [wiki.c] *)
Fixpoint wiki_loop (prev : Z) (z : list Z) : bool :=
  match z with
  | [] => negb (prev =? 32)
  | c :: z => negb (c <? 32) && negb ((c =? 32) && (prev =? 32)) && wiki_loop c z
  end.
Definition wiki_name_is_wellformed (z : list Z) : bool :=
  match z with
  | [] => false
  | c :: z' => negb (c <=? 32) && wiki_loop c z' && (3 <=? Zlen z) && (Zlen z <=? 100)
  end.

(** ** Manifests *)

(** An array with its allocated size. *)
Record slots A := Slots { items : list A; allocated : Z }.
#[global] Arguments Slots {A}. #[global] Arguments items {A}. #[global] Arguments allocated {A}.
Definition no_slots {A} : slots A := Slots [] 0.
Definition slot_add {A} (extra : Z) (a : slots A) (x : A) : result (slots A) :=
  let n := Zlen (items a) in
  let al := if n >=? allocated a then allocated a * 2 + extra else allocated a in
  _ ← check (n <? al) OutOfBounds; Ok (Slots (items a ++ [x]) al).

Record mfile := MFile { f_name : list Z; f_uuid : list Z; f_perm : list Z; f_prior : option (list Z); iRename : Z }.
Record mtag := MTag { t_name : list Z; t_uuid : option (list Z); t_value : option (list Z) }.
Record mfield := MField { j_name : list Z; j_value : list Z }.
Record mattach := MAttach { zAttachName : list Z; zAttachTarget : list Z; zAttachSrc : list Z }.

Inductive cftype :=
| CFTYPE_MANIFEST | CFTYPE_CLUSTER | CFTYPE_CONTROL | CFTYPE_WIKI | CFTYPE_TICKET | CFTYPE_ATTACHMENT.

Class DateOps (D : Type) := {
  dzero : D;
  is_zero : D -> bool;
  positive : D -> bool;
  julianday : list Z -> D;
  dzero_zero : is_zero dzero = true;
  positive_nonzero d : positive d = true -> is_zero d = false
}.

Section Parse.
Context {D : Type} `{DateOps D}.

Record Manifest := Manifest_ {
  zComment : option (list Z);
  rDate : D;
  zUser : option (list Z);
  zRepoCksum : option (list Z);
  zWiki : option (list Z);
  zWikiTitle : option (list Z);
  zTicketUuid : option (list Z);
  attach : option mattach;
  aFile : slots mfile;
  azParent : slots (list Z);
  azCChild : slots (list Z);
  aTag : slots mtag;
  aField : slots mfield
}.
Definition empty_manifest : Manifest :=
  Manifest_ None dzero None None None None None None no_slots no_slots no_slots no_slots no_slots.

Definition set_comment m x := Manifest_ x (rDate m) (zUser m) (zRepoCksum m) (zWiki m) (zWikiTitle m)
  (zTicketUuid m) (attach m) (aFile m) (azParent m) (azCChild m) (aTag m) (aField m).
Definition set_date m x := Manifest_ (zComment m) x (zUser m) (zRepoCksum m) (zWiki m) (zWikiTitle m)
  (zTicketUuid m) (attach m) (aFile m) (azParent m) (azCChild m) (aTag m) (aField m).
Definition set_user m x := Manifest_ (zComment m) (rDate m) x (zRepoCksum m) (zWiki m) (zWikiTitle m)
  (zTicketUuid m) (attach m) (aFile m) (azParent m) (azCChild m) (aTag m) (aField m).
Definition set_cksum m x := Manifest_ (zComment m) (rDate m) (zUser m) x (zWiki m) (zWikiTitle m)
  (zTicketUuid m) (attach m) (aFile m) (azParent m) (azCChild m) (aTag m) (aField m).
Definition set_wiki m x := Manifest_ (zComment m) (rDate m) (zUser m) (zRepoCksum m) x (zWikiTitle m)
  (zTicketUuid m) (attach m) (aFile m) (azParent m) (azCChild m) (aTag m) (aField m).
Definition set_title m x := Manifest_ (zComment m) (rDate m) (zUser m) (zRepoCksum m) (zWiki m) x
  (zTicketUuid m) (attach m) (aFile m) (azParent m) (azCChild m) (aTag m) (aField m).
Definition set_ticket m x := Manifest_ (zComment m) (rDate m) (zUser m) (zRepoCksum m) (zWiki m)
  (zWikiTitle m) x (attach m) (aFile m) (azParent m) (azCChild m) (aTag m) (aField m).
Definition set_attach m x := Manifest_ (zComment m) (rDate m) (zUser m) (zRepoCksum m) (zWiki m)
  (zWikiTitle m) (zTicketUuid m) x (aFile m) (azParent m) (azCChild m) (aTag m) (aField m).
Definition set_files m x := Manifest_ (zComment m) (rDate m) (zUser m) (zRepoCksum m) (zWiki m)
  (zWikiTitle m) (zTicketUuid m) (attach m) x (azParent m) (azCChild m) (aTag m) (aField m).
Definition set_parents m x := Manifest_ (zComment m) (rDate m) (zUser m) (zRepoCksum m) (zWiki m)
  (zWikiTitle m) (zTicketUuid m) (attach m) (aFile m) x (azCChild m) (aTag m) (aField m).
Definition set_children m x := Manifest_ (zComment m) (rDate m) (zUser m) (zRepoCksum m) (zWiki m)
  (zWikiTitle m) (zTicketUuid m) (attach m) (aFile m) (azParent m) x (aTag m) (aField m).
Definition set_tags m x := Manifest_ (zComment m) (rDate m) (zUser m) (zRepoCksum m) (zWiki m)
  (zWikiTitle m) (zTicketUuid m) (attach m) (aFile m) (azParent m) (azCChild m) x (aField m).
Definition set_fields m x := Manifest_ (zComment m) (rDate m) (zUser m) (zRepoCksum m) (zWiki m)
  (zWikiTitle m) (zTicketUuid m) (attach m) (aFile m) (azParent m) (azCChild m) (aTag m) x.

Definition none {A} (o : option A) : bool := match o with None => true | Some _ => false end.
Definition hex_token (n : Z) (t : list Z) : bool := (Zlen t =? n) && validate16 t (Z.to_nat n).

(** [if( i>0 && strcmp(a[i-1].name, name)>=0 ) goto manifest_syntax_error;] *)
Definition in_order {A} (name : A -> list Z) (l : list A) (z : list Z) : bool :=
  match list.last l with Some x => negb (strcmp (name x) z >=? 0) | None => true end.

(** ** Cards *)

(** [l] is the line after the letter. *)
Definition card_A (l : list Z) (m : Manifest) : result (option Manifest) :=
  '(a1, l) ⇐ some_token l; '(a2, l) ⇐ some_token l;
  _ ⇐ must (none (attach m));
  let '(a3, _) := token_of l in
  zName ⇐ oklift (defossil (c_string a1));
  _ ⇐ must (file_is_simple_pathname zName);
  zTarget ⇐ oklift (defossil (c_string a2));
  _ ⇐ must ((Zlen a2 =? UUID_SIZE) && validate16 zTarget (Z.to_nat UUID_SIZE) || wiki_name_is_wellformed zTarget);
  _ ⇐ must (bool_decide (a3 = []) || hex_token UUID_SIZE a3);
  Ok (Some (set_attach m (Some (MAttach (file_tail zName zName) zTarget (c_string a3))))).

Definition card_C (l : list Z) (m : Manifest) : result (option Manifest) :=
  _ ⇐ must (none (zComment m));
  '(a1, l) ⇐ some_token l; _ ⇐ no_token l;
  z ⇐ oklift (defossil (c_string a1)); Ok (Some (set_comment m (Some z))).

Definition card_D (l : list Z) (m : Manifest) : result (option Manifest) :=
  _ ⇐ must (is_zero (rDate m));
  '(a1, l) ⇐ some_token l; _ ⇐ no_token l;
  Ok (Some (set_date m (julianday (c_string a1)))).

Definition card_F (l : list Z) (m : Manifest) : result (option Manifest) :=
  '(a1, l) ⇐ some_token l; '(a2, l) ⇐ some_token l;
  let '(a3, l) := token_of l in
  _ ⇐ must (hex_token UUID_SIZE a2);
  zName ⇐ oklift (defossil (c_string a1));
  _ ⇐ must (file_is_simple_pathname zName);
  let '(a4, _) := token_of l in
  zPrior ⇐ (if bool_decide (c_string a4 = []) then Ok (Some None)
            else z ⇐ oklift (defossil (c_string a4));
                 _ ⇐ must (file_is_simple_pathname z); Ok (Some (Some z)));
  fs ⇐ oklift (slot_add 10 (aFile m) (MFile zName (c_string a2) (c_string a3) zPrior (-1)));
  _ ⇐ must (in_order f_name (items (aFile m)) zName);
  Ok (Some (set_files m fs)).

Definition card_J (l : list Z) (m : Manifest) : result (option Manifest) :=
  '(a1, l) ⇐ some_token l;
  let '(a2, l) := token_of l in
  _ ⇐ no_token l;
  zValue ⇐ oklift (defossil (c_string a2));
  fs ⇐ oklift (slot_add 10 (aField m) (MField (c_string a1) zValue));
  _ ⇐ must (in_order j_name (items (aField m)) (c_string a1));
  Ok (Some (set_fields m fs)).

Definition card_K (l : list Z) (m : Manifest) : result (option Manifest) :=
  '(a1, _) ⇐ some_token l; _ ⇐ must (hex_token UUID_SIZE a1);
  _ ⇐ must (none (zTicketUuid m)); Ok (Some (set_ticket m (Some (c_string a1)))).

Definition card_L (l : list Z) (m : Manifest) : result (option Manifest) :=
  _ ⇐ must (none (zWikiTitle m));
  '(a1, l) ⇐ some_token l; _ ⇐ no_token l;
  z ⇐ oklift (defossil (c_string a1));
  _ ⇐ must (wiki_name_is_wellformed z); Ok (Some (set_title m (Some z))).

Definition card_M (l : list Z) (m : Manifest) : result (option Manifest) :=
  '(a1, _) ⇐ some_token l; _ ⇐ must (hex_token UUID_SIZE a1);
  cs ⇐ oklift (slot_add 10 (azCChild m) (c_string a1));
  _ ⇐ must (in_order id (items (azCChild m)) (c_string a1));
  Ok (Some (set_children m cs)).

(** The tokens of a P card, at most [n]. *)
Fixpoint parents_loop (n : nat) (l : list Z) (ps : slots (list Z)) : result (option (slots (list Z))) :=
  match n with
  | O => Fault OutOfFuel
  | S n =>
      let '(a1, l) := token_of l in
      if bool_decide (a1 = []) then Ok (Some ps)
      else _ ⇐ must (hex_token UUID_SIZE a1);
           ps ⇐ oklift (slot_add 5 ps (c_string a1)); parents_loop n l ps
  end.
Definition card_P (l : list Z) (m : Manifest) : result (option Manifest) :=
  ps ⇐ parents_loop (S (length l)) l (azParent m); Ok (Some (set_parents m ps)).

Definition card_R (l : list Z) (m : Manifest) : result (option Manifest) :=
  _ ⇐ must (none (zRepoCksum m));
  '(a1, l) ⇐ some_token l; _ ⇐ no_token l;
  _ ⇐ must (hex_token 32 a1); Ok (Some (set_cksum m (Some (c_string a1)))).

Definition card_T (l : list Z) (m : Manifest) : result (option Manifest) :=
  '(a1, l) ⇐ some_token l; '(a2, l) ⇐ some_token l;
  let '(a3, _) := token_of l in
  zValue ⇐ (if bool_decide (a3 = []) then Ok (Some None)
            else z ⇐ oklift (defossil (c_string a3)); Ok (Some (Some z)));
  zUuid ⇐ Ok (if hex_token UUID_SIZE a2 then Some (Some (c_string a2))
              else if bool_decide (a2 = [42]) then Some None else None);
  zName ⇐ oklift (defossil (c_string a1));
  _ ⇐ must ((cget zName 0 =? 45) || (cget zName 0 =? 43) || (cget zName 0 =? 42));
  _ ⇐ must (negb (validate16 (drop 1 zName) (length (drop 1 zName))));
  ts ⇐ oklift (slot_add 10 (aTag m) (MTag zName zUuid zValue));
  _ ⇐ must (in_order t_name (items (aTag m)) zName);
  Ok (Some (set_tags m ts)).

Definition card_U (l : list Z) (m : Manifest) : result (option Manifest) :=
  _ ⇐ must (none (zUser m));
  let '(a1, l) := token_of l in
  z ⇐ (if bool_decide (a1 = []) then Ok (Some (cstr "anonymous")) else oklift (defossil (c_string a1)));
  _ ⇐ no_token l; Ok (Some (set_user m (Some z))).

(** ** The parser *)

Record pstate := PState {
  p_manifest : Manifest;
  p_sum : incr;
  p_rest : list Z;
  p_prev : Z;
  p_header : bool;
  p_seenZ : bool
}.
Definition at_rest (st : pstate) (l : list Z) : pstate :=
  PState (p_manifest st) (p_sum st) l (p_prev st) (p_header st) (p_seenZ st).

(** The wiki text is taken from the content. *)
Definition card_W (l : list Z) (st : pstate) : result (option pstate) :=
  '(a1, l) ⇐ some_token l; _ ⇐ no_token l;
  '(v, i) ⇐ oklift (int_loop a1 0 0);
  _ ⇐ must (i =? Zlen a1);
  let size := v in
  _ ⇐ must (0 <=? size);
  _ ⇐ must (none (zWiki (p_manifest st)));
  n ⇐ oklift (i32 (size + 1));
  let wiki := take (Z.to_nat n) (p_rest st) in
  _ ⇐ must (Zlen wiki =? n);
  s ⇐ oklift (md5sum_step_text (p_sum st) wiki n);
  _ ⇐ must (cget wiki size =? 10);
  Ok (Some (PState (set_wiki (p_manifest st) (Some (c_string (take (Z.to_nat size) wiki)))) s
              (drop (Z.to_nat n) (p_rest st)) (p_prev st) (p_header st) (p_seenZ st))).

Definition card_Z (l : list Z) (st : pstate) : result (option pstate) :=
  '(a1, l) ⇐ some_token l; _ ⇐ no_token l;
  _ ⇐ must (hex_token 32 a1);
  '(s, hash) ⇐ oklift (md5sum_finish (p_sum st));
  _ ⇐ must (bool_decide (hash = a1));
  Ok (Some (PState (p_manifest st) s (p_rest st) (p_prev st) (p_header st) true)).

(** The cards that only change the manifest. *)
Definition plain_card (c : Z) : option (list Z -> Manifest -> result (option Manifest)) :=
  if c =? 65 then Some card_A else if c =? 67 then Some card_C else if c =? 68 then Some card_D
  else if c =? 70 then Some card_F else if c =? 74 then Some card_J else if c =? 75 then Some card_K
  else if c =? 76 then Some card_L else if c =? 77 then Some card_M else if c =? 80 then Some card_P
  else if c =? 82 then Some card_R else if c =? 84 then Some card_T else if c =? 85 then Some card_U
  else None.

(** A line with a card; [z[0]] and the type before it are compared as [char]s. *)
Definition card (line : list Z) (st : pstate) : result (option pstate) :=
  let c := cget line 0 in
  _ ⇐ must (negb (schar c <? p_prev st));
  let '(t, l) := token_of line in
  _ ⇐ must (Zlen t =? 1);
  let st := PState (p_manifest st) (p_sum st) (p_rest st) (schar c) true (p_seenZ st) in
  if c =? 90 then card_Z l st else
  s ⇐ oklift (md5sum_step_text (p_sum st) line (to_int (Zlen line)));
  let st := PState (p_manifest st) s (p_rest st) (p_prev st) (p_header st) (p_seenZ st) in
  if c =? 87 then card_W l st else
  match plain_card c with
  | None => Ok None
  | Some f => m ⇐ f l (p_manifest st);
              Ok (Some (PState m (p_sum st) (p_rest st) (p_prev st) (p_header st) (p_seenZ st)))
  end.

(** [while( blob_line(pContent, &line)>2 ){}], at most [n] lines. *)
Fixpoint skip_headers (n : nat) (l : list Z) : result (list Z) :=
  match n with
  | O => Fault OutOfFuel
  | S n => let '(line, l) := line_of l in if Zlen line >? 2 then skip_headers n l else Ok l
  end.

Fixpoint parse_cards (n : nat) (st : pstate) : result (option pstate) :=
  match n with
  | O => Fault OutOfFuel
  | S n =>
      let '(line, rest) := line_of (p_rest st) in
      if bool_decide (line = []) then Ok (Some st)
      else if cget line 0 =? 45 then
        _ ⇐ must (bool_decide (take 15 line = cstr "-----BEGIN PGP "));
        if p_header st then Ok (Some st) else
        l ⇐ oklift (skip_headers (S (length rest)) rest);
        let '(line, rest) := line_of l in
        if bool_decide (line = []) then Ok (Some st)
        else st ⇐ card line (at_rest st rest); parse_cards n st
      else st ⇐ card line (at_rest st rest); parse_cards n st
  end.

(** The tests at the end: the type of the artifact. *)
Definition some {A} (a : slots A) : bool := Zlen (items a) >? 0.
Definition classify (m : Manifest) (seenZ : bool) : option cftype :=
  let unless (bad : bool) (t : cftype) := if bad then None else Some t in
  if some (aFile m) || negb (none (zRepoCksum m)) then
    unless (some (azCChild m) || is_zero (rDate m) || some (aField m) || negb (none (zTicketUuid m)) ||
            negb (none (zWiki m)) || negb (none (zWikiTitle m)) || negb (none (attach m)))
      CFTYPE_MANIFEST
  else if some (azCChild m) then
    unless (positive (rDate m) || negb (none (zComment m)) || negb (none (zUser m)) || some (aTag m) ||
            some (azParent m) || some (aField m) || negb (none (zTicketUuid m)) || negb (none (zWiki m)) ||
            negb (none (zWikiTitle m)) || negb (none (attach m)) || negb seenZ)
      CFTYPE_CLUSTER
  else if some (aField m) then
    unless (is_zero (rDate m) || negb (none (zWiki m)) || negb (none (zWikiTitle m)) || some (azCChild m) ||
            some (aTag m) || none (zTicketUuid m) || none (zUser m) || negb (none (attach m)) || negb seenZ)
      CFTYPE_TICKET
  else if negb (none (zWiki m)) then
    unless (is_zero (rDate m) || some (azCChild m) || some (aTag m) || negb (none (zTicketUuid m)) ||
            none (zWikiTitle m) || negb (none (attach m)) || negb seenZ)
      CFTYPE_WIKI
  else if some (aTag m) then
    unless (negb (positive (rDate m)) || some (azParent m) || negb (none (zWikiTitle m)) ||
            negb (none (zTicketUuid m)) || negb (none (attach m)) || negb seenZ)
      CFTYPE_CONTROL
  else if negb (none (attach m)) then
    unless (some (azCChild m) || is_zero (rDate m) || negb (none (zTicketUuid m)) ||
            negb (none (zWikiTitle m)) || negb seenZ)
      CFTYPE_ATTACHMENT
  else
    unless (some (azCChild m) || negb (positive (rDate m)) || some (azParent m) || some (aField m) ||
            negb (none (zTicketUuid m)) || negb (none (zWiki m)) || negb (none (zWikiTitle m)) ||
            negb (none (attach m)))
      CFTYPE_MANIFEST.

(** The type and the manifest, or [None] for a syntax error.  The checksum is reset before and after. *)
Definition manifest_parse (sum : incr) (content : list Z) : result (option (cftype * Manifest)) :=
  st ⇐ parse_cards (S (length content)) (PState empty_manifest (md5sum_init sum) content 0 false false);
  _ ⇐ must (p_header st);
  Ok ((fun t => (t, p_manifest st)) <$> classify (p_manifest st) (p_seenZ st)).
End Parse.
#[global] Arguments Manifest D : clear implicits.
#[global] Arguments pstate D : clear implicits.

(** ** Looking for a file *)

Fixpoint find_loop (n : nat) (fs : list mfile) (zName : list Z) (lwr upr : Z) : result Z :=
  if lwr <=? upr then
    match n with
    | O => Fault OutOfFuel
    | S n =>
        let i := (lwr + upr) / 2 in
        f ← rd fs i;
        let c := strcmp (f_name f) zName in
        if c <? 0 then find_loop n fs zName (i + 1) upr
        else if c >? 0 then find_loop n fs zName lwr (i - 1)
        else Ok i
    end
  else Ok (-1).
Definition find_file_in_manifest (fs : list mfile) (zName : list Z) : result Z :=
  find_loop (S (length fs)) fs zName 0 (Zlen fs - 1).
