(* ===== verification/ManifestSpec.v ===== *)
(** * Control artifacts: what the parser accepts

    The order of [strcmp], the binary search over the files of a manifest, the
    well-formedness of every artifact that [Manifest.manifest_parse] accepts, and the
    absence of faults. *)

From Stdlib Require Import Sorted.
From S2P Require Import Prelude Encode EncodeSpec Blob Md5 Md5Spec Manifest.
#[local] Open Scope Z_scope.

(** ** The order of names *)

Lemma strcmp_range a b : strcmp a b = -1 \/ strcmp a b = 0 \/ strcmp a b = 1.
Proof.
  revert b. induction a as [|x a IH]; intros [|y b]; simpl; [lia..|]. pose proof (IH b).
  repeat case_match; lia.
Qed.

Lemma strcmp_refl a : strcmp a a = 0.
Proof. induction a as [|x a IH]; [done|]. simpl. by rewrite Z.ltb_irrefl. Qed.

Lemma strcmp_eq a b : strcmp a b = 0 <-> a = b.
Proof.
  split; [|intros ->; apply strcmp_refl]. revert b. induction a as [|x a IH]; intros [|y b]; simpl; try done.
  destruct (Z.ltb_spec x y), (Z.ltb_spec y x); try done. intros E. f_equal; [lia|by apply IH].
Qed.

Lemma strcmp_opp a b : strcmp b a = - strcmp a b.
Proof.
  revert b. induction a as [|x a IH]; intros [|y b]; simpl; try done.
  destruct (Z.ltb_spec x y), (Z.ltb_spec y x); try done; lia.
Qed.

Definition str_lt (a b : list Z) : Prop := strcmp a b < 0.

#[export] Instance str_lt_trans : Transitive str_lt.
Proof.
  unfold str_lt. intros a. induction a as [|x a IH]; intros [|y b] [|z c]; simpl; try done; try lia.
  destruct (Z.ltb_spec x y), (Z.ltb_spec y z), (Z.ltb_spec x z), (Z.ltb_spec y x), (Z.ltb_spec z y), (Z.ltb_spec z x);
    try lia. apply IH.
Qed.
#[export] Instance str_lt_irrefl : Irreflexive str_lt.
Proof. intros a. unfold complement, str_lt. rewrite strcmp_refl. lia. Qed.

Lemma str_lt_ne a b : str_lt a b -> a <> b.
Proof. intros H ->. by apply str_lt_irrefl in H. Qed.

Abbreviation sorted := (StronglySorted str_lt).

(** A list grows at its end as long as the test of the cards succeeds. *)
Lemma sorted_snoc l x :
  sorted l -> (forall y, list.last l = Some y -> str_lt y x) -> sorted (l ++ [x]).
Proof.
  induction 1 as [|a l Hs IH Ha]; intros Hl; simpl; [by repeat constructor|]. constructor.
  - apply IH. intros y Hy. apply Hl. destruct l; [done|]. exact Hy.
  - apply Forall_app. split; [done|]. constructor; [|constructor].
    destruct l as [|b l] using rev_ind; [by apply Hl|]. transitivity b.
    + apply Forall_app in Ha as [_ Ha]. by inversion Ha.
    + apply Hl. rewrite app_comm_cons. apply last_snoc.
Qed.

Lemma in_order_sorted {A} (name : A -> list Z) l x :
  in_order name l (name x) = true -> sorted (name <$> l) -> sorted (name <$> (l ++ [x])).
Proof.
  intros Ha Hs. rewrite fmap_app. apply sorted_snoc; [done|]. intros y Hy. rewrite fmap_last in Hy.
  unfold in_order in Ha. destruct (list.last l) as [z|]; [|done]. injection Hy as <-. unfold str_lt.
  apply negb_true_iff in Ha. rewrite Z.geb_leb in Ha. apply Z.leb_gt in Ha. lia.
Qed.

Lemma sorted_lookup l i j a b : sorted l -> (i < j)%nat -> l !! i = Some a -> l !! j = Some b -> str_lt a b.
Proof.
  intros Hs. revert i j. induction Hs as [|x l Hs IH Hx]; intros i j Hij Ha Hb; [done|].
  destruct j as [|j]; [lia|]. destruct i as [|i]; [|by apply (IH i j); [lia|..]].
  injection Ha as <-. rewrite Forall_lookup in Hx. by apply (Hx j).
Qed.

Lemma sorted_NoDup l : sorted l -> NoDup l.
Proof.
  induction 1 as [|x l Hs IH Hx]; constructor; [|done]. intros Hin.
  rewrite list.Forall_forall in Hx. by apply (str_lt_irrefl x), Hx.
Qed.

(** ** Searching *)

Lemma find_loop_spec n fs z lwr upr :
  sorted (f_name <$> fs) -> 0 <= lwr -> upr < Zlen fs -> upr - lwr < Z.of_nat n ->
  (forall i f, fs !! i = Some f -> f_name f = z -> lwr <= Z.of_nat i <= upr) ->
  (exists i f, fs !! i = Some f /\ f_name f = z /\ find_loop n fs z lwr upr = Ok (Z.of_nat i)) \/
  ((z ∉ f_name <$> fs) /\ find_loop n fs z lwr upr = Ok (-1)).
Proof.
  intros Hs. revert lwr upr. induction n as [|n IH]; intros lwr upr Hl Hu Hn Hin; cbn [find_loop];
    destruct (Z.leb_spec lwr upr) as [Hle|Hgt]; try lia.
  1,3: right; split; [|done]; intros (f & -> & (i & Hi)%list_elem_of_lookup_1)%list_elem_of_fmap_1;
       specialize (Hin i f Hi eq_refl); lia.
  set (k := (lwr + upr) / 2). assert (lwr <= k <= upr) as Hk by (unfold k; dlia).
  destruct (lookup_lt_is_Some_2 fs (Z.to_nat k)) as [f Hf]; [lia|].
  rewrite (rd_ok fs k f), bind_Ok by (done || lia).
  assert (forall i g, fs !! i = Some g -> ((i < Z.to_nat k)%nat -> str_lt (f_name g) (f_name f)) /\
                       ((Z.to_nat k < i)%nat -> str_lt (f_name f) (f_name g))) as Hord.
  { intros i g Hg. split; intros Hik; (eapply sorted_lookup; [exact Hs|exact Hik|..]); rewrite list_lookup_fmap;
      rewrite ?Hg, ?Hf; done. }
  assert (forall i g, fs !! i = Some g -> i = Z.to_nat k -> g = f) as Heq by (intros i g Hg ->; congruence).
  destruct (Z.ltb_spec (strcmp (f_name f) z) 0) as [Hc|Hc].
  { apply IH; [lia..|]. intros i g Hg Hz. specialize (Hin i g Hg Hz) as Hi. destruct (Hord i g Hg) as [H1 H2].
    destruct (decide (i <= Z.to_nat k)%nat) as [Hik|]; [exfalso|lia]. subst z.
    destruct (decide (i = Z.to_nat k)) as [E|]; [rewrite (Heq i g), strcmp_refl in Hc by done; lia|].
    specialize (H1 ltac:(lia)). unfold str_lt in H1. rewrite strcmp_opp in H1. lia. }
  rewrite Z.gtb_ltb. destruct (Z.ltb_spec 0 (strcmp (f_name f) z)) as [Hc'|Hc'].
  { apply IH; [lia..|]. intros i g Hg Hz. specialize (Hin i g Hg Hz) as Hi. destruct (Hord i g Hg) as [H1 H2].
    destruct (decide (Z.to_nat k <= i)%nat) as [Hik|]; [exfalso|lia]. subst z.
    destruct (decide (i = Z.to_nat k)) as [E|]; [rewrite (Heq i g), strcmp_refl in Hc' by done; lia|].
    specialize (H2 ltac:(lia)). unfold str_lt in H2. lia. }
  left. exists (Z.to_nat k), f. split_and!; [done| |f_equal; lia]. apply strcmp_eq. lia.
Qed.

(** The binary search finds the one file of that name, when there is one. *)
Lemma find_file_spec fs z :
  sorted (f_name <$> fs) ->
  (exists i f, fs !! i = Some f /\ f_name f = z /\ find_file_in_manifest fs z = Ok (Z.of_nat i)) \/
  ((z ∉ f_name <$> fs) /\ find_file_in_manifest fs z = Ok (-1)).
Proof.
  intros Hs. apply find_loop_spec; [done|lia..|]. intros i f Hf _. apply lookup_lt_Some in Hf. lia.
Qed.

(** ** Inverting the parser *)

Lemma obind_Some {A B} (m : result (option A)) (f : A -> result (option B)) b :
  obind m f = Ok (Some b) -> exists a, m = Ok (Some a) /\ f a = Ok (Some b).
Proof. unfold obind. destruct m as [[a|]|e]; simpl; [eauto|done|done]. Qed.

Lemma must_Some b u : must b = Ok (Some u) -> b = true.
Proof. unfold must. by destruct b. Qed.

Lemma oklift_Some {A} (m : result A) a : oklift m = Ok (Some a) -> m = Ok a.
Proof. unfold oklift. destruct m; simpl; [|done]. by intros [= ->]. Qed.

(** The checks that an accepted card has passed. *)
Ltac parse_inv :=
  repeat match goal with
  | H : obind _ _ = Ok (Some _) |- _ =>
      let x := fresh "x" in let Hx := fresh "Hx" in apply obind_Some in H as (x & Hx & H)
  | H : must _ = Ok (Some _) |- _ => apply must_Some in H
  | H : oklift _ = Ok (Some _) |- _ => apply oklift_Some in H
  | H : (let '(_, _) := ?e in _) = Ok (Some _) |- _ => destruct e eqn:?
  | H : Ok (Some _) = Ok (Some _) |- _ => injection H as H; subst
  | H : Ok None = Ok (Some _) |- _ => discriminate H
  | x : _ * _ |- _ => destruct x
  | x : unit |- _ => destruct x
  | H : andb _ _ = true |- _ => apply andb_true_iff in H as [? ?]
  end.

(** ** Well-formed artifacts *)

(** The values of the tokens that [hex_token] accepts: a NUL ends the digits early. *)
Definition hex_string (n : Z) (z : list Z) : Prop := exists t, hex_token n t = true /\ z = c_string t.

Definition slots_ok {A} (a : slots A) : Prop := Zlen (items a) <= allocated a.

Record file_ok (f : mfile) : Prop := {
  file_simple : file_is_simple_pathname (f_name f) = true;
  file_hex : hex_string UUID_SIZE (f_uuid f);
  file_prior : forall z, f_prior f = Some z -> file_is_simple_pathname z = true;
  file_fresh : iRename f = -1
}.
Record tag_ok (t : mtag) : Prop := {
  tag_kind : cget (t_name t) 0 = 45 \/ cget (t_name t) 0 = 43 \/ cget (t_name t) 0 = 42;
  tag_not_hex : validate16 (drop 1 (t_name t)) (length (drop 1 (t_name t))) = false;
  tag_target : forall z, t_uuid t = Some z -> hex_string UUID_SIZE z
}.
Record attach_ok (a : mattach) : Prop := {
  attach_name : exists z, file_is_simple_pathname z = true /\ zAttachName a = file_tail z z;
  attach_target : wiki_name_is_wellformed (zAttachTarget a) = true \/
                  validate16 (zAttachTarget a) (Z.to_nat UUID_SIZE) = true;
  attach_src : zAttachSrc a = [] \/ hex_string UUID_SIZE (zAttachSrc a)
}.

Section Sound.
Context {D : Type} `{DateOps D}.

Record manifest_ok (m : Manifest D) : Prop := {
  ok_files : Forall file_ok (items (aFile m));
  ok_file_order : sorted (f_name <$> items (aFile m));
  ok_children : Forall (hex_string UUID_SIZE) (items (azCChild m));
  ok_child_order : sorted (items (azCChild m));
  ok_parents : Forall (hex_string UUID_SIZE) (items (azParent m));
  ok_tags : Forall tag_ok (items (aTag m));
  ok_tag_order : sorted (t_name <$> items (aTag m));
  ok_field_order : sorted (j_name <$> items (aField m));
  ok_title : forall z, zWikiTitle m = Some z -> wiki_name_is_wellformed z = true;
  ok_ticket : forall z, zTicketUuid m = Some z -> hex_string UUID_SIZE z;
  ok_cksum : forall z, zRepoCksum m = Some z -> hex_string 32 z;
  ok_attach : forall a, attach m = Some a -> attach_ok a;
  ok_slots : slots_ok (aFile m) /\ slots_ok (azParent m) /\ slots_ok (azCChild m) /\ slots_ok (aTag m) /\
             slots_ok (aField m)
}.

Lemma empty_ok : manifest_ok empty_manifest.
Proof. split; simpl; try done; try constructor; unfold slots_ok; simpl; try lia; repeat split; simpl; lia. Qed.

Lemma slot_add_spec {A} extra (a a' : slots A) x :
  slot_add extra a x = Ok a' -> slots_ok a -> 0 <= extra -> items a' = items a ++ [x] /\ slots_ok a'.
Proof.
  unfold slot_add. intros E Hok He. res_inv. simpl. split; [done|]. unfold slots_ok in *. simpl. rewrite length_app. simpl.
  apply Z.ltb_lt in Heqb. lia.
Qed.

(** Arrays always have room for one more. *)
Lemma slot_add_total {A} extra (a : slots A) x :
  slots_ok a -> 0 < extra -> exists a', slot_add extra a x = Ok a'.
Proof.
  unfold slots_ok, slot_add. intros Hok He. rewrite Z.geb_leb. destruct (Z.leb_spec (allocated a) (Zlen (items a))).
  - rewrite check_true; [eauto|]. apply Z.ltb_lt. lia.
  - rewrite check_true; [eauto|]. apply Z.ltb_lt. lia.
Qed.

Definition keeps (f : list Z -> Manifest D -> result (option (Manifest D))) : Prop :=
  forall l m m', f l m = Ok (Some m') -> manifest_ok m -> manifest_ok m'.

Tactic Notation "keep_ok" reference(c) :=
  intros l m m' E Hm; destruct Hm; destruct_and?; unfold c in E; parse_inv.
Ltac keep_slot :=
  match goal with
  | H : slot_add _ ?a ?x = Ok ?b |- _ =>
      let Hi := fresh "Hitems" in apply slot_add_spec in H as [Hi ?]; [|done|lia]
  end.
Ltac keep_split := split; simpl; try done; try (split_and?; done).

Lemma some_token_Some l t r : some_token l = Ok (Some (t, r)) -> token_of l = (t, r) /\ t <> [].
Proof. unfold some_token. destruct (token_of l). case_bool_decide; [done|]. by intros [= -> ->]. Qed.

Lemma keeps_C : keeps card_C. Proof. keep_ok card_C. keep_split. Qed.
Lemma keeps_D : keeps card_D. Proof. keep_ok card_D. keep_split. Qed.
Lemma keeps_U : keeps card_U. Proof. keep_ok card_U. keep_split. Qed.

Lemma keeps_K : keeps card_K.
Proof. keep_ok card_K. keep_split. intros z [= <-]. by eexists. Qed.

Lemma keeps_L : keeps card_L.
Proof. keep_ok card_L. keep_split. by intros z [= <-]. Qed.

Lemma keeps_R : keeps card_R.
Proof. keep_ok card_R. keep_split. intros z [= <-]. by eexists. Qed.

Lemma keeps_A : keeps card_A.
Proof.
  keep_ok card_A. keep_split. intros a [= <-]. split; simpl.
  - by eexists.
  - apply orb_true_iff in Hx5 as [E|E]; [|by left]. apply andb_true_iff in E as [_ E]. by right.
  - apply orb_true_iff in Hx6 as [E|E]; [left|right; by eexists]. apply bool_decide_eq_true in E. by subst.
Qed.

Lemma keeps_J : keeps card_J.
Proof.
  keep_ok card_J. keep_slot. keep_split. rewrite Hitems. by apply (in_order_sorted j_name _ (MField _ _)).
Qed.

Lemma keeps_M : keeps card_M.
Proof.
  keep_ok card_M. keep_slot. keep_split; rewrite Hitems.
  - apply Forall_app. split; [done|]. constructor; [by eexists|constructor].
  - pose proof (in_order_sorted id (items (azCChild m)) (c_string l0)) as Hs. rewrite !list_fmap_id in Hs. by apply Hs.
Qed.

Lemma keeps_F : keeps card_F.
Proof.
  keep_ok card_F. keep_slot. keep_split; rewrite Hitems.
  - apply Forall_app. split; [done|]. constructor; [|constructor]. split; simpl; [done|by eexists| |done].
    intros z ->. case_bool_decide; [done|]. by parse_inv.
  - by apply (in_order_sorted f_name _ (MFile _ _ _ _ _)).
Qed.

Lemma keeps_T : keeps card_T.
Proof.
  keep_ok card_T. keep_slot. keep_split; rewrite Hitems.
  - apply Forall_app. split; [done|]. constructor; [|constructor]. split; simpl.
    + apply orb_true_iff in Hx4 as [[E|E]%orb_true_iff|E]; apply Z.eqb_eq in E; tauto.
    + by apply negb_true_iff.
    + intros z ->. destruct (hex_token UUID_SIZE l2) eqn:E; [|by case_bool_decide].
      injection Hx2 as <-. by eexists.
  - by apply (in_order_sorted t_name _ (MTag _ _ _)).
Qed.

Lemma parents_loop_ok n l ps ps' :
  parents_loop n l ps = Ok (Some ps') -> slots_ok ps -> Forall (hex_string UUID_SIZE) (items ps) ->
  slots_ok ps' /\ Forall (hex_string UUID_SIZE) (items ps').
Proof.
  revert l ps. induction n as [|n IH]; intros l ps E Hs Hp; [done|]. cbn [parents_loop] in E. parse_inv.
  case_bool_decide; parse_inv; [done|]. keep_slot. eapply IH; [exact E|done|]. rewrite Hitems.
  apply Forall_app. split; [done|]. constructor; [by eexists|constructor].
Qed.

Lemma keeps_P : keeps card_P.
Proof. keep_ok card_P. apply parents_loop_ok in Hx as [? ?]; [|done..]. keep_split. Qed.

Lemma plain_card_keeps c f : plain_card c = Some f -> keeps f.
Proof.
  unfold plain_card. intros E. repeat (case_match; [injection E as <-|]); try done;
    auto using keeps_A, keeps_C, keeps_D, keeps_F, keeps_J, keeps_K, keeps_L, keeps_M, keeps_P, keeps_R, keeps_T, keeps_U.
Qed.

Lemma card_keeps line st st' :
  card line st = Ok (Some st') -> manifest_ok (p_manifest st) -> manifest_ok (p_manifest st').
Proof.
  unfold card. intros E Hm. parse_inv. destruct (cget line 0 =? 90); [unfold card_Z in E; by parse_inv|]. parse_inv.
  destruct (cget line 0 =? 87).
  - unfold card_W in E. parse_inv. simpl in *. destruct Hm. by split.
  - destruct (plain_card _) as [f|] eqn:Ef; parse_inv. simpl. by eapply plain_card_keeps.
Qed.

Lemma parse_cards_keeps n st st' :
  parse_cards n st = Ok (Some st') -> manifest_ok (p_manifest st) -> manifest_ok (p_manifest st').
Proof.
  revert st. induction n as [|n IH]; intros st E Hm; [done|]. cbn [parse_cards] in E. parse_inv.
  case_bool_decide; parse_inv; [done|]. destruct (_ =? 45); parse_inv.
  - destruct (p_header st); parse_inv; [done|]. case_bool_decide; parse_inv; [done|].
    eapply IH; [exact E|]. by eapply card_keeps.
  - eapply IH; [exact E|]. by eapply card_keeps.
Qed.

Lemma manifest_parse_ok sum content t m :
  manifest_parse sum content = Ok (Some (t, m)) ->
  manifest_ok m /\ exists seenZ, classify m seenZ = Some t.
Proof.
  unfold manifest_parse. intros E. parse_inv. injection E as E. destruct (classify _ _) as [t'|] eqn:Ec; [|done].
  injection E as -> <-. split; [|eauto]. eapply parse_cards_keeps; [exact Hx|]. apply empty_ok.
Qed.
End Sound.
