(* ===== verification/ManifestSum.v ===== *)
(** * Control artifacts: the parser is safe, and its checksum

    [Manifest.manifest_parse] always ends, and can only fault by the overflow of the size
    of a wiki page; the hash of the Z card is the MD5 of the text before it. *)

From Stdlib Require Import Sorted.
From S2P Require Import Prelude Blocks Encode EncodeSpec Blob Md5 Md5Spec Manifest ManifestSpec.
#[local] Open Scope Z_scope.

(** ** The context after a sum *)

Lemma blit_length a i w b : blit a i w = Ok b -> length b = length a.
Proof.
  unfold blit. intros E. res_inv. match goal with H : _ && _ = true |- _ => apply andb_true_iff in H as [H1%Z.leb_le H2%Z.leb_le] end.
  rewrite !length_app, length_take, length_drop. lia.
Qed.

Lemma MD5Final_inb ctx d ctx' : MD5Final ctx = Ok (d, ctx') -> length (inb ctx) = 64%nat -> length (inb ctx') = 64%nat.
Proof.
  unfold MD5Final. intros E Hl. apply bind_Ok_inv in E as (j & Hj & E). apply blit_length in Hj.
  apply bind_Ok_inv in E as ([b i] & Hx & E). apply (f_equal (fun r => match r with Ok (_, c) => inb c | _ => [] end)) in E.
  cbn [inb] in E. rewrite <- E. clear E.
  assert (length i = 64%nat) as Hi; [|rewrite !length_app, length_take, Hi; done].
  destruct (_ <? 8).
  - apply bind_Ok_inv in Hx as (i1 & H1 & Hx). apply bind_Ok_inv in Hx as (i2 & H2 & Hx). apply blit_length in H1, H2.
    apply (f_equal (fun r => match r with Ok (_, c) => c | _ => [] end)) in Hx. cbn in Hx. subst i. congruence.
  - apply bind_Ok_inv in Hx as (i1 & H1 & Hx). apply blit_length in H1.
    apply (f_equal (fun r => match r with Ok (_, c) => c | _ => [] end)) in Hx. cbn in Hx. subst i. congruence.
Qed.

Lemma finish_state s m :
  incr_state s m -> exists s', md5sum_finish s = Ok (s', DigestToBase16 (md5 m)) /\ incr_state s' [].
Proof.
  intros Hs. destruct (md5sum_finish_spec s m Hs) as (c & E). exists (Incr false c). split; [done|].
  split; [|done]. unfold md5sum_finish in E. res_inv. destruct x0. res_inv. cbn [incrCtx].
  eapply MD5Final_inb; [exact Hx0|]. destruct Hs as [Hl _]. unfold md5sum_step_text in Hx. cbn [Z.eqb] in Hx.
  injection Hx as <-. by destruct (incrInit s).
Qed.

Lemma step_text_state s m t :
  incr_state s m -> Zlen t < 2^31 -> exists s', md5sum_step_text s t (Zlen t) = Ok s' /\ incr_state s' (m ++ t).
Proof.
  intros Hs Ht. rewrite <- (to_int_small (Zlen t)) by lia. by apply step_blob_spec.
Qed.

(** ** Texts *)

Lemma span_app f l a b : span f l = (a, b) -> l = a ++ b.
Proof.
  revert a b. induction l as [|c l IH]; intros a b; simpl; [by intros [= <- <-]|].
  destruct (f c); [|by intros [= <- <-]]. destruct (span f l) as [a' b']. intros [= <- <-]. simpl. f_equal. by apply IH.
Qed.

Lemma line_of_app l a b : line_of l = (a, b) -> l = a ++ b /\ (a = [] -> l = []).
Proof.
  unfold line_of. destruct (span _ l) as [x [|c y]] eqn:E; apply span_app in E as ->; intros [= <- <-].
  - rewrite !app_nil_r. done.
  - rewrite <- app_assoc. split; [done|]. by destruct x.
Qed.

Lemma token_of_app l t r : token_of l = (t, r) -> exists a b, l = a ++ t ++ b ++ r.
Proof.
  unfold token_of. destruct (span blob_isspace l) as [a l1] eqn:E1. cbn [snd].
  destruct (span _ l1) as [t' l2] eqn:E2. intros [= <- <-]. destruct (span blob_isspace l2) as [b l3] eqn:E3.
  apply span_app in E1 as ->, E2 as ->, E3 as ->. by exists a, b.
Qed.

(** Decoding in place always ends before the NUL. *)
Lemma defossil_loop_total fuel z i j k :
  0 <= j <= i -> i <= k -> k < Zlen z -> z !! Z.to_nat k = Some 0 -> k - i <= Z.of_nat fuel ->
  exists z', defossil_loop fuel z i j = Ok z'.
Proof.
  revert z i j. induction fuel as [|fuel IH]; intros z i j Hj Hi Hk Hz Hf; cbn [defossil_loop];
    destruct (lookup_lt_is_Some_2 z (Z.to_nat i)) as [c Hc]; try lia; rewrite (rd_ok z i c), bind_Ok by (done || lia);
    destruct (Z.eqb_spec c 0) as [E|E].
  1,3: destruct (lookup_lt_is_Some_2 z (Z.to_nat j)) as [x Hx]; [lia|]; rewrite (rd_ok z j x), bind_Ok by (done || lia);
    destruct (negb _); [rewrite wr_ok by lia|]; by eexists.
  { assert (i = k) as -> by lia. congruence. }
  assert (i <> k) as Hik by (intros ->; congruence).
  assert (forall c' i', i <= i' -> i' + 1 <= k -> exists z',
    (z ← wr z j c'; defossil_loop fuel z (i' + 1) (j + 1)) = Ok z') as Hgo.
  { intros c' i' H1 H2. rewrite wr_ok, bind_Ok by lia. apply IH; rewrite ?length_insert; try lia.
    by rewrite list_lookup_insert_ne by lia. }
  unfold defossil_step. destruct (Z.eqb_spec c 92); [|rewrite bind_Ok; apply Hgo; lia].
  destruct (lookup_lt_is_Some_2 z (Z.to_nat (i + 1))) as [c1 Hc1]; [lia|].
  rewrite (rd_ok z (i + 1) c1), bind_Ok by (done || lia).
  destruct (Z.eqb_spec c1 0); rewrite bind_Ok; apply Hgo; try lia.
  assert (i + 1 <> k) by (intros <-; congruence). lia.
Qed.

Lemma defossil_total z : exists z', defossil z = Ok z'.
Proof.
  unfold defossil, defossilize. destruct (defossil_loop_total (length (z ++ [0])) (z ++ [0]) 0 0 (Zlen z)) as [z' ->];
    rewrite ?length_app; simpl; try lia; [|by eexists]. rewrite Nat2Z.id. by rewrite lookup_app_r, Nat.sub_diag by lia.
Qed.

(** ** Safety *)

Definition safe {A} (r : result A) : Prop := match r with Ok _ => True | Fault e => e = IntOverflow end.

Lemma safe_obind {A B} (m : result (option A)) (f : A -> result (option B)) :
  safe m -> (forall a, m = Ok (Some a) -> safe (f a)) -> safe (obind m f).
Proof. unfold obind. destruct m as [[a|]|e]; simpl; auto. Qed.
Lemma safe_must b : safe (must b). Proof. by destruct b. Qed.
Lemma safe_some_token l : safe (some_token l).
Proof. unfold some_token. by destruct (token_of l). Qed.
Lemma safe_no_token l : safe (no_token l). Proof. apply safe_must. Qed.
Lemma safe_lift_Ok {A} (m : result A) : (exists a, m = Ok a) -> safe (oklift m).
Proof. by intros [a ->]. Qed.
Lemma safe_defossil z : safe (oklift (defossil z)).
Proof. apply safe_lift_Ok, defossil_total. Qed.
Lemma safe_slot_add {A} extra (a : slots A) x : slots_ok a -> 0 < extra -> safe (oklift (slot_add extra a x)).
Proof. intros. apply safe_lift_Ok. by apply slot_add_total. Qed.
Lemma safe_i32 z : safe (oklift (i32 z)).
Proof. unfold i32. by destruct (in_i32 z). Qed.

Lemma safe_int_loop z v i : safe (oklift (int_loop z v i)).
Proof.
  revert v i. induction z as [|c z IH]; intros v i; cbn [int_loop]; [done|]. destruct (_ && _); [|done].
  unfold i32. destruct (in_i32 _); [|done]. rewrite bind_Ok. destruct (in_i32 _); [|done]. rewrite bind_Ok.
  destruct (in_i32 _); [|done]. rewrite bind_Ok. apply IH.
Qed.

Create HintDb safe.
#[export] Hint Resolve safe_must safe_some_token safe_no_token safe_defossil safe_i32 safe_int_loop : safe.

Ltac safe_go :=
  repeat first
    [ exact I
    | solve [auto with safe]
    | apply safe_obind; [|intros ? ?]
    | match goal with
      | |- safe (oklift (slot_add _ _ _)) => apply safe_slot_add; [done|lia]
      | |- safe (let '(_, _) := ?e in _) => destruct e eqn:?
      | |- safe (if ?b then _ else _) => destruct b eqn:?
      end ].

Section Safe.
Context {D : Type} `{DateOps D}.

Lemma safe_parents n l ps : slots_ok ps -> (length l < n)%nat -> safe (parents_loop n l ps).
Proof.
  revert l ps. induction n as [|n IH]; intros l ps Hps Hn; [lia|]. cbn [parents_loop].
  destruct (token_of l) as [t r] eqn:Et. case_bool_decide as Ht; [done|]. apply safe_obind; [auto with safe|intros _ _].
  apply safe_obind; [by apply safe_slot_add; [|lia]|]. intros ps' E. apply oklift_Some in E.
  apply slot_add_spec in E as [_ ?]; [|done|lia]. apply IH; [done|].
  apply token_of_app in Et as (a & b & ->). rewrite !length_app in Hn. destruct t; [done|simpl in Hn; lia].
Qed.

Lemma safe_plain c f l (m : Manifest D) : plain_card c = Some f -> manifest_ok m -> safe (f l m).
Proof.
  intros E Hm. destruct (ok_slots m Hm) as (? & ? & ? & ? & ?). unfold plain_card in E.
  repeat (case_match; [injection E as <-|]); try done;
    unfold card_A, card_C, card_D, card_F, card_J, card_K, card_L, card_M, card_P, card_R, card_T, card_U; safe_go.
  apply safe_parents; [done|lia].
Qed.

(** ** The checksum *)

Definition pgp (content : list Z) : Prop := take 15 content = cstr "-----BEGIN PGP "%string.

(** A Z card holds the MD5 of the text before it, from the start or from the end of the
    header of a signed artifact. *)
Definition checksummed (content : list Z) : Prop :=
  exists h text zline rest, content = h ++ text ++ zline ++ rest /\ (h = [] \/ pgp content) /\
    cget zline 0 = 90 /\ (token_of (token_of zline).2).1 = DigestToBase16 (md5 text).

(** What has been read: a header [h] that is not hashed, and [text]. *)
Record heard (content h text rest : list Z) (sum : incr) (seenZ : bool) : Prop := {
  heard_all : content = h ++ text ++ rest;
  heard_header : h = [] \/ pgp content;
  heard_sum : exists x, incr_state sum x /\ (seenZ = false -> x = text);
  heard_Z : seenZ = true -> checksummed content
}.

Definition outcome (content h rest0 : list Z) (r : result (option (pstate D))) : Prop :=
  safe r /\ forall st', r = Ok (Some st') ->
    (exists text, heard content h text (p_rest st') (p_sum st') (p_seenZ st')) /\
    (length (p_rest st') <= length rest0)%nat /\ p_header st' = true.

Lemma card_Z_outcome content h text line rest (st : pstate D) :
  heard content h text (line ++ rest) (p_sum st) (p_seenZ st) -> cget line 0 = 90 ->
  p_rest st = rest -> p_header st = true ->
  outcome content h rest (card_Z (token_of line).2 st).
Proof.
  intros [Ha Hh (x & Hx & Hs) Hz] Hc Hr Hp. unfold card_Z, outcome.
  destruct (finish_state _ _ Hx) as (s' & Ef & Hs'). rewrite Ef. split.
  - safe_go.
  - intros st' E. parse_inv. apply some_token_Some in Hx0 as [Et _]. injection Hx3 as <- <-.
    apply bool_decide_eq_true in Hx4. cbn [p_rest p_sum p_seenZ p_header]. split_and!; [|done|done].
    exists (text ++ line). split; [by rewrite <- app_assoc|done|by exists []|]. intros _.
    destruct (p_seenZ st); [by apply Hz|]. exists h, text, line, (p_rest st). rewrite Hs in Hx4 by done.
    rewrite Et. by rewrite Hx4.
Qed.

Lemma heard_step content h text line rest sum seenZ :
  heard content h text (line ++ rest) sum seenZ -> Zlen content < 2^31 ->
  exists s', md5sum_step_text sum line (Zlen line) = Ok s' /\ heard content h (text ++ line) rest s' seenZ.
Proof.
  intros [Ha Hh (x & Hx & Hs) Hz] Hl. rewrite Ha, !length_app in Hl.
  destruct (step_text_state sum x line Hx) as (s' & E & Hs'); [lia|]. exists s'. split; [done|].
  split; [by rewrite <- app_assoc|done| |done]. exists (x ++ line). split; [done|]. intros Hf. by rewrite Hs.
Qed.

Lemma card_W_outcome content h text l (st : pstate D) :
  heard content h text (p_rest st) (p_sum st) (p_seenZ st) -> Zlen content < 2^31 -> p_header st = true ->
  outcome content h (p_rest st) (card_W l st).
Proof.
  intros Hh Hl Hp. assert (forall n, exists s', md5sum_step_text (p_sum st) (take (Z.to_nat n) (p_rest st))
    (Zlen (take (Z.to_nat n) (p_rest st))) = Ok s' /\
    heard content h (text ++ take (Z.to_nat n) (p_rest st)) (drop (Z.to_nat n) (p_rest st)) s' (p_seenZ st)) as Hw.
  { intros n. apply heard_step; [|done]. by rewrite take_drop. }
  unfold card_W, outcome. split.
  - safe_go. match goal with H : must (_ =? ?n) = _ |- _ => apply must_Some, Z.eqb_eq in H;
      destruct (Hw n) as (s' & E & _); rewrite H in E; by rewrite E end.
  - intros st' E. parse_inv. apply Z.eqb_eq in Hx6. destruct (Hw x5) as (s' & E & Hs'). rewrite Hx6 in E.
    rewrite E in Hx7. injection Hx7 as <-. cbn [p_rest p_sum p_seenZ p_header].
    split_and!; [by eexists|rewrite length_drop; lia|done].
Qed.

Lemma card_outcome content h text line rest (st : pstate D) :
  heard content h text (line ++ rest) (p_sum st) (p_seenZ st) -> Zlen content < 2^31 -> manifest_ok (p_manifest st) ->
  outcome content h rest (card line (at_rest st rest)).
Proof.
  intros Hh Hl Hm. unfold card. cbn [p_manifest p_sum p_rest p_prev p_header p_seenZ at_rest].
  unfold outcome. destruct (must _) as [[u|]|] eqn:Em; [|by split|by unfold must in Em].
  cbn [obind mbind result_bind]. destruct (token_of line) as [t l] eqn:Et.
  destruct (must (Zlen t =? 1)) as [[v|]|] eqn:Em1; [|by split|by unfold must in Em1]. cbn [obind mbind result_bind].
  destruct (Z.eqb_spec (cget line 0) 90) as [Hc|_].
  { replace l with (token_of line).2 by (by rewrite Et). by apply (card_Z_outcome _ _ text line). }
  assert (Zlen line < 2^31) as Hline by (rewrite (heard_all _ _ _ _ _ _ Hh), !length_app in Hl; lia).
  rewrite (to_int_small (Zlen line)) by lia.
  destruct (heard_step _ _ _ _ _ _ _ Hh Hl) as (s' & -> & Hs). cbn [oklift obind mbind result_bind].
  destruct (cget line 0 =? 87); [by apply (card_W_outcome _ _ (text ++ line) l (PState _ _ _ _ _ _))|].
  destruct (plain_card _) as [f|] eqn:Ef; [|by split]. split.
  - apply safe_obind; [by eapply safe_plain|done].
  - intros st' E. parse_inv. cbn [p_rest p_sum p_seenZ p_header]. split_and!; [by eexists|done|done].
Qed.

Lemma skip_headers_spec n l : (length l < n)%nat -> exists a b, l = a ++ b /\ skip_headers n l = Ok b.
Proof.
  revert l. induction n as [|n IH]; intros l Hn; [lia|]. cbn [skip_headers]. destruct (line_of l) as [line r] eqn:E.
  apply line_of_app in E as [-> _]. rewrite Z.gtb_ltb. destruct (Z.ltb_spec 2 (Zlen line)) as [Hl|_]; [|by exists line, r].
  rewrite length_app in Hn. destruct (IH r) as (a & b & -> & ->); [lia|]. exists (line ++ a), b. by rewrite <- app_assoc.
Qed.

(** After the first card. *)
Lemma parse_rest content h text n (st : pstate D) :
  heard content h text (p_rest st) (p_sum st) (p_seenZ st) -> Zlen content < 2^31 -> manifest_ok (p_manifest st) ->
  p_header st = true -> (length (p_rest st) < n)%nat ->
  safe (parse_cards n st) /\
  forall st', parse_cards n st = Ok (Some st') -> p_seenZ st' = true -> checksummed content.
Proof.
  intros Hh Hl. revert text st Hh. induction n as [|n IH]; intros text st Hh Hm Hp Hn; [lia|]. cbn [parse_cards].
  destruct (line_of (p_rest st)) as [line rest] eqn:E. apply line_of_app in E as [E Hnil]. rewrite E in Hh.
  case_bool_decide as Hline. { split; [done|]. intros st' [= <-]. apply Hh. }
  assert (outcome content h rest (card line (at_rest st rest))) as [Hs Ho] by (by eapply card_outcome).
  assert (safe (st ⇐ card line (at_rest st rest); parse_cards n st) /\
    forall st', (st ⇐ card line (at_rest st rest); parse_cards n st) = Ok (Some st') -> p_seenZ st' = true -> checksummed content) as Hgo.
  { assert (forall st1, card line (at_rest st rest) = Ok (Some st1) -> safe (parse_cards n st1) /\
      forall st', parse_cards n st1 = Ok (Some st') -> p_seenZ st' = true -> checksummed content) as Hn1.
    { intros st1 E1. destruct (Ho st1 E1) as ((text1 & Hh1) & Hlen & Hp1). apply (IH text1); try done.
      - by apply card_keeps in E1.
      - rewrite E, length_app in Hn. destruct line; [done|]. simpl in Hn. lia. }
    split; [apply safe_obind; [done|]; intros st1 E1; by apply Hn1|].
    intros st' Ec. apply obind_Some in Ec as (st1 & E1 & Ec). by apply (proj2 (Hn1 st1 E1) st'). }
  destruct (_ =? 45); [|exact Hgo]. destruct (must _) as [[u|]|] eqn:Em; [|by split|by unfold must in Em].
  cbn [obind mbind result_bind]. rewrite Hp. split; [done|]. intros st' [= <-]. apply Hh.
Qed.

(** The first card, after the header of a signed artifact when there is one. *)
Lemma parse_start content n (st : pstate D) :
  p_rest st = content -> p_seenZ st = false -> p_header st = false -> incr_state (p_sum st) [] ->
  manifest_ok (p_manifest st) -> Zlen content < 2^31 -> (length content < n)%nat ->
  safe (parse_cards n st) /\
  forall st', parse_cards n st = Ok (Some st') -> p_seenZ st' = true -> checksummed content.
Proof.
  intros Hr Hz Hp Hs Hm Hl Hn. destruct n as [|n]; [lia|]. cbn [parse_cards].
  destruct (line_of (p_rest st)) as [line rest] eqn:E. rewrite Hr in E. apply line_of_app in E as [E _].
  case_bool_decide as Hline. { split; [done|]. intros st' [= <-]. congruence. }
  assert (length rest < n)%nat as Hlen by (rewrite E, length_app in Hn; destruct line; [done|]; simpl in Hn; lia).
  assert (forall h line rest, content = h ++ line ++ rest -> (h = [] \/ pgp content) -> (length rest < n)%nat ->
    safe (st ⇐ card line (at_rest st rest); parse_cards n st) /\
    forall st', (st ⇐ card line (at_rest st rest); parse_cards n st) = Ok (Some st') -> p_seenZ st' = true ->
      checksummed content) as Hgo.
  { clear - Hz Hs Hm Hl. intros h line rest Hc Hh Hlen.
    assert (heard content h [] (line ++ rest) (p_sum st) (p_seenZ st)) as Hhd.
    { split; [done|done|exists []; done|congruence]. }
    destruct (card_outcome content h [] line rest st Hhd Hl Hm) as [Hsafe Ho].
    assert (forall st1, card line (at_rest st rest) = Ok (Some st1) -> safe (parse_cards n st1) /\
      forall st', parse_cards n st1 = Ok (Some st') -> p_seenZ st' = true -> checksummed content) as Hn1.
    { intros st1 E1. destruct (Ho st1 E1) as ((text1 & Hh1) & Hl1 & Hp1).
      apply (parse_rest content h text1); try done; [by apply card_keeps in E1|lia]. }
    split; [apply safe_obind; [done|]; intros st1 E1; by apply Hn1|].
    intros st' Ec. apply obind_Some in Ec as (st1 & E1 & Ec). by apply (proj2 (Hn1 st1 E1) st'). }
  destruct (_ =? 45); [|by apply (Hgo [] line rest); [|left|]].
  destruct (must _) as [[u|]|] eqn:Em; [|by split|by unfold must in Em]. cbn [obind mbind result_bind]. rewrite Hp.
  apply must_Some, bool_decide_eq_true in Em.
  destruct (skip_headers_spec (S (length rest)) rest) as (a & b & Eab & ->); [lia|]. cbn [oklift obind mbind result_bind].
  destruct (line_of b) as [line2 rest2] eqn:E2. apply line_of_app in E2 as [E2 _].
  case_bool_decide as Hline2. { split; [done|]. intros st' [= <-]. congruence. }
  apply (Hgo (line ++ a)).
  - by rewrite E, Eab, E2, !app_assoc.
  - right. unfold pgp. rewrite E, take_app, Em.
    replace (15 - length line)%nat with O; [by rewrite app_nil_r|].
    apply (f_equal length) in Em. rewrite length_take in Em. change (length (cstr _)) with 15%nat in Em. lia.
  - rewrite Eab, E2, !length_app in Hlen. lia.
Qed.

Lemma manifest_parse_start sum content :
  length (inb (incrCtx sum)) = 64%nat -> Zlen content < 2^31 ->
  safe (parse_cards (S (length content)) (PState empty_manifest (md5sum_init sum) content 0 false false)) /\
  forall st', parse_cards (S (length content)) (PState empty_manifest (md5sum_init sum) content 0 false false) = Ok (Some st') ->
    p_seenZ st' = true -> checksummed content.
Proof. intros Hi Hl. apply parse_start; try done; [apply empty_ok|lia]. Qed.

(** What the tests at the end leave of each type. *)
Definition type_ok (t : cftype) (m : Manifest D) (seenZ : bool) : Prop :=
  match t with
  | CFTYPE_MANIFEST =>
      is_zero (rDate m) = false /\ items (azCChild m) = [] /\ items (aField m) = [] /\ zTicketUuid m = None /\
      zWiki m = None /\ zWikiTitle m = None /\ attach m = None
  | CFTYPE_CLUSTER =>
      items (azCChild m) <> [] /\ items (aFile m) = [] /\ zRepoCksum m = None /\ zComment m = None /\ zUser m = None /\
      items (aTag m) = [] /\ items (azParent m) = [] /\ items (aField m) = [] /\ zTicketUuid m = None /\
      zWiki m = None /\ zWikiTitle m = None /\ attach m = None /\ seenZ = true
  | CFTYPE_TICKET =>
      items (aField m) <> [] /\ zTicketUuid m <> None /\ zUser m <> None /\ items (aFile m) = [] /\
      zRepoCksum m = None /\ items (azCChild m) = [] /\ items (aTag m) = [] /\ zWiki m = None /\
      zWikiTitle m = None /\ attach m = None /\ is_zero (rDate m) = false /\ seenZ = true
  | CFTYPE_WIKI =>
      zWiki m <> None /\ zWikiTitle m <> None /\ items (aFile m) = [] /\ zRepoCksum m = None /\
      items (azCChild m) = [] /\ items (aField m) = [] /\ items (aTag m) = [] /\ zTicketUuid m = None /\
      attach m = None /\ is_zero (rDate m) = false /\ seenZ = true
  | CFTYPE_CONTROL =>
      items (aTag m) <> [] /\ items (aFile m) = [] /\ zRepoCksum m = None /\ items (azCChild m) = [] /\
      items (aField m) = [] /\ zWiki m = None /\ items (azParent m) = [] /\ zWikiTitle m = None /\
      zTicketUuid m = None /\ attach m = None /\ positive (rDate m) = true /\ seenZ = true
  | CFTYPE_ATTACHMENT =>
      attach m <> None /\ items (aFile m) = [] /\ zRepoCksum m = None /\ items (azCChild m) = [] /\
      items (aField m) = [] /\ zWiki m = None /\ items (aTag m) = [] /\ zWikiTitle m = None /\
      zTicketUuid m = None /\ is_zero (rDate m) = false /\ seenZ = true
  end.

Lemma some_iff {A} (a : slots A) : if some a then items a <> [] else items a = [].
Proof. unfold some. by destruct (items a). Qed.
Lemma none_iff {A} (o : option A) : if none o then o = None else o <> None.
Proof. by destruct o. Qed.

Lemma classify_ok (m : Manifest D) seenZ t : classify m seenZ = Some t -> type_ok t m seenZ.
Proof.
  unfold classify. intros E.
  pose proof (some_iff (aFile m)). pose proof (some_iff (azCChild m)). pose proof (some_iff (aField m)).
  pose proof (some_iff (aTag m)). pose proof (some_iff (azParent m)). pose proof (none_iff (zRepoCksum m)).
  pose proof (none_iff (zTicketUuid m)). pose proof (none_iff (zWiki m)). pose proof (none_iff (zWikiTitle m)).
  pose proof (none_iff (attach m)). pose proof (none_iff (zComment m)). pose proof (none_iff (zUser m)).
  pose proof (positive_nonzero (rDate m)) as Hpos.
  repeat match type of E with (if ?b then _ else _) = _ => destruct b eqn:? end; simplify_eq; cbn [type_ok].
  all: repeat match goal with
       | Hx : _ || _ = false |- _ => apply orb_false_iff in Hx as [? ?]
       | Hx : negb _ = false |- _ => apply negb_false_iff in Hx
       | Hx : negb _ = true |- _ => apply negb_true_iff in Hx
       | Hx : some _ = _, Hy : context [some _] |- _ => rewrite Hx in Hy
       | Hx : none _ = _, Hy : context [none _] |- _ => rewrite Hx in Hy
       end.
  all: repeat split; auto.
Qed.
End Safe.

(** C22. Whatever the content, of less than 2 GB and after any use of the static MD5
    context, [manifest_parse] ends; it never leaves a buffer, an array or its fuel, and
    the only fault it can have is the signed overflow of the size on a W card.  What it
    accepts is well formed: the files, tags, fields and cluster members strictly
    ascending and so distinct, the file names simple paths, the identifiers hexadecimal,
    the tag names with a known prefix and not like identifiers; it has the cards its type
    requires and none that its type forbids; and a type other than a manifest carries on
    its Z card the MD5 of the text before it. *)
Theorem manifest_parse_sound {D : Type} `{DateOps D} (sum : incr) (content : list Z) :
  length (inb (incrCtx sum)) = 64%nat -> Zlen content < 2^31 ->
  manifest_parse sum content = Fault IntOverflow \/ manifest_parse sum content = Ok None \/
  exists t (m : Manifest D) seenZ, manifest_parse sum content = Ok (Some (t, m)) /\
    manifest_ok m /\ type_ok t m seenZ /\ (t <> CFTYPE_MANIFEST -> checksummed content).
Proof.
  intros Hi Hl. destruct (manifest_parse_start sum content Hi) as [Hs Hz]; [lia|]. unfold manifest_parse.
  destruct (parse_cards _ _) as [[st|]|e] eqn:E; [|by right; left|by left; rewrite <- Hs].
  cbn [obind mbind result_bind]. destruct (p_header st); [|by right; left]. cbn [must obind mbind result_bind].
  destruct (classify _ _) as [t|] eqn:Ec; [|by right; left]. right. right.
  exists t, (p_manifest st), (p_seenZ st). split_and!; [done| |by apply classify_ok|].
  - eapply parse_cards_keeps; [exact E|apply empty_ok].
  - intros Ht. apply (Hz st eq_refl). apply classify_ok in Ec. destruct t; [done|..]; simpl in Ec; tauto.
Qed.

(** Dates as the number of their characters. *)
#[export, program] Instance test_dates : DateOps Z := {
  dzero := 0; is_zero := Z.eqb 0; positive := Z.ltb 0; julianday z := Zlen z
}.
Next Obligation. done. Qed.
Next Obligation. intros d Hd. apply Z.ltb_lt in Hd. apply Z.eqb_neq. lia. Qed.

Definition test_sum : incr := Incr false (MD5Init junk64).
Definition test_cluster : list Z := cstr
"M 0123456789012345678901234567890123456789
M aaaaaaaaaaaaaaaaaaaaaaaaaaaaaaaaaaaaaaaa
Z 564ce332136bdb0ed6495b7d22f6a706
"%string.

Lemma manifest_parse_sound_witness :
  exists (m : Manifest Z) seenZ, manifest_parse test_sum test_cluster = Ok (Some (CFTYPE_CLUSTER, m)) /\
    length (items (azCChild m)) = 2%nat /\ manifest_ok m /\ type_ok CFTYPE_CLUSTER m seenZ /\ checksummed test_cluster.
Proof.
  destruct (manifest_parse_sound (D := Z) test_sum test_cluster) as [E|[E|(t & m & z & E & H1 & H2 & H3)]];
    [reflexivity|reflexivity|vm_compute in E; discriminate E|vm_compute in E; discriminate E|].
  assert (t = CFTYPE_CLUSTER /\ length (items (azCChild m)) = 2%nat) as [-> Hl]
    by (revert E; vm_compute; intros [= <- <-]; split; reflexivity).
  exists m, z. split; [exact E|]. split; [exact Hl|]. split; [exact H1|]. split; [exact H2|]. apply H3. discriminate.
Defined.

(** ** Where the parser is not as strict as it says *)

(** Tokens after the identifier of an M card are ignored, also on A, F, K and T cards. *)
Lemma extra_words_accepted :
  let content := cstr
"M 0123456789012345678901234567890123456789 extra words
Z 878029d39482040af8a47bd85fd3b63c
"%string in
  match manifest_parse (D := Z) test_sum content with Ok (Some (CFTYPE_CLUSTER, _)) => True | _ => False end.
Proof. vm_compute. exact I. Qed.

(** Text may follow the Z card: the sum is reset by the first, so that a second one holds
    the sum of the empty text. *)
Lemma second_Z_accepted :
  let content := test_cluster ++ cstr
"Z d41d8cd98f00b204e9800998ecf8427e
"%string in
  match manifest_parse (D := Z) test_sum content with Ok (Some (CFTYPE_CLUSTER, _)) => True | _ => False end.
Proof. vm_compute. exact I. Qed.

(** [validate16] stops at a NUL: forty characters that are not hexadecimal pass for an identifier, here
    [ab], a NUL and thirty-seven times [x]. *)
Lemma nul_uuid_accepted :
  let content := cstr "M ab"%string ++ [0] ++ replicate 37 120 ++ [10] ++ cstr
"Z e35b01034a5c10a9c7b5da94b0562ed7
"%string in
  match manifest_parse (D := Z) test_sum content with
  | Ok (Some (CFTYPE_CLUSTER, m)) => items (azCChild m) = [cstr "ab"%string]
  | _ => False
  end.
Proof. vm_compute. reflexivity. Qed.

(** A size of more than 31 bits overflows, before it is compared with the text that is left. *)
Lemma wiki_size_overflows :
  manifest_parse (D := Z) test_sum (cstr
"W 4294967295
"%string) = Fault IntOverflow.
Proof. vm_compute. reflexivity. Qed.
