(* ===== verification/Mlink.v ===== *)
(** * Changes between manifests

    Models [add_mlink] of [src/src/ssfossil/fossil/src/manifest.c]: the entries of the
    [mlink] table for the files that differ between a check-in and its parent.  An entry
    is the arguments of the call of [add_one_mlink]; the tables are SQLite's.

    Both manifests are changed: the [iRename] fields of the files are set, and stay set in
    the manifest that the caller keeps. *)

From Stdlib Require Import Sorted.
From S2P Require Import Prelude Encode Blob Md5 Manifest ManifestSpec.
#[local] Open Scope Z_scope.

Record mlink := MLink {
  zFromUuid : option (list Z);
  zToUuid : option (list Z);
  zFilename : list Z;
  zPriorName : option (list Z)
}.

(** [fs[i].iRename = r;] *)
Definition with_rename (f : mfile) (r : Z) : mfile := MFile (f_name f) (f_uuid f) (f_perm f) (f_prior f) r.
Definition set_rename (fs : list mfile) (i r : Z) : result (list mfile) :=
  f ← rd fs i; wr fs i (with_rename f r).

(** [zPrior && zPrior[0]] *)
Definition prior_name (f : mfile) : option (list Z) :=
  match f_prior f with Some [] => None | z => z end.

(** The first loop of [add_mlink], from [j], [n] times. *)
Fixpoint rename_loop (n : nat) (j : Z) (ps cs : list mfile) : result (list mfile * list mfile) :=
  match n with
  | O => Ok (ps, cs)
  | S n =>
      f ← rd cs j;
      '(ps, cs) ← (match prior_name f with
                   | Some zPrior =>
                       i ← find_file_in_manifest ps zPrior;
                       if i >=? 0 then
                         cs ← set_rename cs j i; ps ← set_rename ps i j; Ok (ps, cs)
                       else Ok (ps, cs)
                   | None => Ok (ps, cs)
                   end);
      rename_loop n (j + 1) ps cs
  end.

(** The calls of [add_one_mlink] for a file only in the child and only in the parent. *)
Definition link_child (ps : list mfile) (f : mfile) : result mlink :=
  let rn := iRename f in
  if rn >=? 0 then
    g ← rd ps rn; Ok (MLink (Some (f_uuid g)) (Some (f_uuid f)) (f_name f) (Some (f_name g)))
  else Ok (MLink None (Some (f_uuid f)) (f_name f) None).
Definition link_parent (g : mfile) : mlink := MLink (Some (f_uuid g)) None (f_name g) None.

(** [while( i<pParent->nFile )] and [while( j<pChild->nFile )], [n] times. *)
Fixpoint parents_left (n : nat) (ps : list mfile) (i : Z) : result (list mlink) :=
  match n with
  | O => Ok []
  | S n =>
      g ← rd ps i;
      ls ← parents_left n ps (i + 1);
      Ok (if iRename g <? 0 then link_parent g :: ls else ls)
  end.
Fixpoint children_left (n : nat) (ps cs : list mfile) (j : Z) : result (list mlink) :=
  match n with
  | O => Ok []
  | S n => f ← rd cs j; l ← link_child ps f; ls ← children_left n ps cs (j + 1); Ok (l :: ls)
  end.

(** The loop over both, and the two loops after it. *)
Fixpoint link_loop (fuel : nat) (ps cs : list mfile) (i j : Z) : result (list mlink) :=
  if (i <? Zlen ps) && (j <? Zlen cs) then
    match fuel with
    | O => Fault OutOfFuel
    | S fuel =>
        g ← rd ps i;
        if iRename g >=? 0 then link_loop fuel ps cs (i + 1) j
        else
          f ← rd cs j;
          let c := strcmp (f_name g) (f_name f) in
          if c <? 0 then ls ← link_loop fuel ps cs (i + 1) j; Ok (link_parent g :: ls)
          else if c >? 0 then l ← link_child ps f; ls ← link_loop fuel ps cs i (j + 1); Ok (l :: ls)
          else
            ls ← link_loop fuel ps cs (i + 1) (j + 1);
            Ok (if negb (strcmp (f_uuid g) (f_uuid f) =? 0)
                then MLink (Some (f_uuid g)) (Some (f_uuid f)) (f_name f) None :: ls else ls)
    end
  else
    lp ← parents_left (Z.to_nat (Zlen ps - i)) ps i;
    lc ← children_left (Z.to_nat (Zlen cs - j)) ps cs j;
    Ok (lp ++ lc).

(** From the cross-linkage of the renames on. *)
Definition link_files (ps cs : list mfile) : result (list mfile * list mfile * list mlink) :=
  '(ps, cs) ← rename_loop (length cs) 0 ps cs;
  ls ← link_loop (length ps + length cs) ps cs 0 0;
  Ok (ps, cs, ls).

Section AddMlink.
Context {D : Type} `{DateOps D}.

(** [present]: the table already has entries for [cid].  [own] is the manifest of the
    caller, [own_is_parent] when it is the parent; [otherContent] the content of the
    other artifact.  The caller's files and the entries added. *)
Definition add_mlink (present own_is_parent : bool) (sum : incr) (otherContent : list Z) (own : list mfile) :
    result (list mfile * list mlink) :=
  if present then Ok (own, [])
  else if Zlen otherContent =? 0 then Ok (own, [])
  else
    o ← manifest_parse sum otherContent;
    match o with
    | None => Ok (own, [])
    | Some (_, other) =>
        '(ps, cs, ls) ← (if own_is_parent then link_files own (items (aFile other))
                         else link_files (items (aFile other)) own);
        Ok (if own_is_parent then ps else cs, ls)
    end.

(** The calls of [manifest_crosslink] for a manifest: with the first parent, then with
    every check-in already known to have it as its first parent.  The manifest is the same
    object in all of them. *)
Fixpoint link_children (sum : incr) (children : list (bool * list Z)) (own : list mfile) : result (list (list mlink)) :=
  match children with
  | [] => Ok []
  | (present, content) :: children =>
      '(own, ls) ← add_mlink present true sum content own;
      lss ← link_children sum children own; Ok (ls :: lss)
  end.
Definition crosslink_mlinks (sum : incr) (parent : option (bool * list Z)) (children : list (bool * list Z))
    (own : list mfile) : result (list (list mlink)) :=
  '(own, ls) ← (match parent with
                | Some (present, content) => add_mlink present false sum content own
                | None => Ok (own, [])
                end);
  lss ← link_children sum children own; Ok (ls :: lss).
End AddMlink.
