(* ===== verification/MlinkSpec.v ===== *)
(** * Changes between manifests: the entries added

    [Mlink.add_mlink] walks two sorted lists of files in parallel; the entries are those
    that a definition by cases on each file gives, whatever the renames. *)

From Stdlib Require Import Sorted.
From S2P Require Import Prelude Encode Blob Md5 Md5Spec Manifest ManifestSpec ManifestSum Mlink.
#[local] Open Scope Z_scope.

Abbreviation names fs := (f_name <$> fs).

(** ** The parallel walk *)

(** The entry for a file [f] of the child, beside the parent's files [ps]; [all] is
    the array that [iRename] indexes. *)
Definition same_file (f g : mfile) : bool := bool_decide (f_name g = f_name f) && (iRename g <? 0).
Definition came (all : list mfile) (f : mfile) : mlink :=
  match (if iRename f >=? 0 then all !! Z.to_nat (iRename f) else None) with
  | Some g => MLink (Some (f_uuid g)) (Some (f_uuid f)) (f_name f) (Some (f_name g))
  | None => MLink None (Some (f_uuid f)) (f_name f) None
  end.
Definition child_entry (all ps : list mfile) (f : mfile) : option mlink :=
  match List.find (same_file f) ps with
  | Some g => if bool_decide (f_uuid g = f_uuid f) then None
              else Some (MLink (Some (f_uuid g)) (Some (f_uuid f)) (f_name f) None)
  | None => Some (came all f)
  end.
Definition parent_entry (cs : list mfile) (g : mfile) : option mlink :=
  if (iRename g <? 0) && bool_decide (f_name g ∉ names cs) then Some (link_parent g) else None.
Definition link_entries (all ps cs : list mfile) : list mlink :=
  omap (child_entry all ps) cs ++ omap (parent_entry cs) ps.

Lemma omap_ext_in {A B} (h k : A -> option B) (l : list A) : (forall x, x ∈ l -> h x = k x) -> omap h l = omap k l.
Proof.
  induction l as [|x l IH]; intros H; [done|]. simpl. rewrite (H x) by apply list_elem_of_here.
  destruct (k x); [f_equal|]; apply IH; intros y Hy; by apply H, list_elem_of_further.
Qed.

Lemma child_skip all g ps (cs : list mfile) :
  (forall f, f ∈ cs -> same_file f g = false) -> omap (child_entry all (g :: ps)) cs = omap (child_entry all ps) cs.
Proof. intros H. apply omap_ext_in. intros f Hf. unfold child_entry. simpl. by rewrite H. Qed.

Lemma parent_skip f (ps cs : list mfile) :
  f_name f ∉ names ps -> omap (parent_entry (f :: cs)) ps = omap (parent_entry cs) ps.
Proof.
  intros H. apply omap_ext_in. intros g Hg. unfold parent_entry.
  rewrite (bool_decide_ext (f_name g ∉ names (f :: cs)) (f_name g ∉ names cs)); [done|].
  rewrite fmap_cons, not_elem_of_cons. split; [by intros []|]. intros Hn. split; [|done]. intros E. apply H.
  rewrite <- E. by apply list_elem_of_fmap_2.
Qed.

Lemma sorted_head x l y : sorted (x :: l) -> y ∈ l -> str_lt x y.
Proof. intros Hs Hy. inversion Hs as [|? ? ? Hx]; subst. rewrite list.Forall_forall in Hx. by apply Hx. Qed.

Lemma sorted_drop n l : sorted l -> sorted (drop n l).
Proof.
  revert n. induction l as [|x l IH]; intros [|n] Hs; [done..|]. apply IH. by inversion Hs.
Qed.

Lemma not_in_below x y l : str_lt x y -> sorted (y :: l) -> x ∉ y :: l.
Proof.
  intros Hxy Hs Hin. apply elem_of_cons in Hin as [->|Hin]; [by apply str_lt_irrefl in Hxy|].
  apply (str_lt_irrefl x). transitivity y; [done|by eapply sorted_head].
Qed.

Lemma came_ok all f : iRename f < Zlen all -> link_child all f = Ok (came all f).
Proof.
  intros Hr. unfold link_child, came. rewrite Z.geb_leb. destruct (Z.leb_spec 0 (iRename f)); [|done].
  destruct (lookup_lt_is_Some_2 all (Z.to_nat (iRename f))) as [g Hg]; [lia|].
  by rewrite (rd_ok all _ g), bind_Ok, Hg.
Qed.

Lemma drop_rd {A} (l : list A) i : 0 <= i < Zlen l -> exists x, rd l i = Ok x /\ drop (Z.to_nat i) l = x :: drop (Z.to_nat (i + 1)) l.
Proof.
  intros Hi. destruct (lookup_lt_is_Some_2 l (Z.to_nat i)) as [x Hx]; [lia|]. exists x.
  split; [by apply rd_ok; [lia|]|]. rewrite (drop_S l x) by done. do 2 f_equal. lia.
Qed.

Lemma parents_left_spec n ps i :
  0 <= i <= Zlen ps -> n = Z.to_nat (Zlen ps - i) ->
  parents_left n ps i = Ok (omap (parent_entry []) (drop (Z.to_nat i) ps)).
Proof.
  revert i. induction n as [|n IH]; intros i Hi Hn; cbn [parents_left].
  - by rewrite drop_ge by lia.
  - destruct (drop_rd ps i) as (g & -> & ->); [lia|]. rewrite bind_Ok, IH, bind_Ok by lia. simpl.
    assert (parent_entry [] g = if iRename g <? 0 then Some (link_parent g) else None) as ->; [|by destruct (iRename g <? 0)].
    unfold parent_entry. by rewrite bool_decide_true, andb_true_r by (by apply not_elem_of_nil).
Qed.

Lemma children_left_spec n ps cs j :
  Forall (fun f => iRename f < Zlen ps) cs -> 0 <= j <= Zlen cs -> n = Z.to_nat (Zlen cs - j) ->
  children_left n ps cs j = Ok (omap (child_entry ps []) (drop (Z.to_nat j) cs)).
Proof.
  intros Hr. revert j. induction n as [|n IH]; intros j Hj Hn; cbn [children_left].
  - by rewrite drop_ge by lia.
  - destruct (drop_rd cs j) as (f & E & ->); [lia|]. rewrite E, bind_Ok.
    apply rd_Ok_inv in E as [_ E]. rewrite Forall_lookup in Hr.
    rewrite came_ok, bind_Ok, IH, bind_Ok by (lia || by eapply Hr). done.
Qed.

(** *** One step *)

Section Step.
Context (all : list mfile) (g f : mfile) (ps cs : list mfile).
Context (Hp : sorted (names (g :: ps))) (Hc : sorted (names (f :: cs))).

Lemma link_skip (l : list mfile) : 0 <= iRename g -> link_entries all (g :: ps) l = link_entries all ps l.
Proof.
  intros Hr. assert ((iRename g <? 0) = false) as E by (apply Z.ltb_ge; lia). unfold link_entries. rewrite child_skip.
  - simpl. unfold parent_entry at 1. by rewrite E.
  - intros h _. unfold same_file. by rewrite E, andb_false_r.
Qed.

Lemma link_lt :
  iRename g < 0 -> str_lt (f_name g) (f_name f) ->
  link_entries all (g :: ps) (f :: cs) ≡ₚ link_parent g :: link_entries all ps (f :: cs).
Proof.
  intros Hr Hlt. assert (f_name g ∉ names (f :: cs)) as Hn by (by apply not_in_below). unfold link_entries.
  rewrite child_skip.
  - cbn [omap list_omap]. unfold parent_entry at 1. rewrite (proj2 (Z.ltb_lt _ _)), bool_decide_true by done.
    simpl. by rewrite Permutation_middle.
  - intros h Hh. unfold same_file. rewrite bool_decide_false; [done|]. intros E. apply Hn. rewrite E.
    by apply list_elem_of_fmap_2.
Qed.

Lemma no_same (l : list mfile) : f_name f ∉ names l -> List.find (same_file f) l = None.
Proof.
  induction l as [|h l IH]; intros Hn; [done|]. rewrite fmap_cons, not_elem_of_cons in Hn. destruct Hn as [Hh Hn].
  simpl. unfold same_file at 1. rewrite bool_decide_false by (by intros E; apply Hh). by apply IH.
Qed.

Lemma link_gt :
  str_lt (f_name f) (f_name g) ->
  link_entries all (g :: ps) (f :: cs) = came all f :: link_entries all (g :: ps) cs.
Proof.
  intros Hlt. assert (f_name f ∉ names (g :: ps)) as Hn by (by apply not_in_below). unfold link_entries.
  rewrite parent_skip by done. cbn [omap list_omap]. unfold child_entry at 1. by rewrite no_same.
Qed.

Lemma link_eq :
  iRename g < 0 -> f_name g = f_name f ->
  link_entries all (g :: ps) (f :: cs) =
  (if negb (strcmp (f_uuid g) (f_uuid f) =? 0)
   then [MLink (Some (f_uuid g)) (Some (f_uuid f)) (f_name f) None] else []) ++ link_entries all ps cs.
Proof.
  intros Hr E. unfold link_entries. cbn [omap list_omap]. unfold child_entry at 1. cbn [List.find].
  unfold same_file at 1. rewrite bool_decide_true, (proj2 (Z.ltb_lt _ _)) by done. cbn [andb].
  unfold parent_entry at 1. rewrite (bool_decide_false (f_name g ∉ _)) by (rewrite E; intros Hn; apply Hn, list_elem_of_here).
  rewrite andb_false_r. rewrite child_skip, parent_skip.
  - destruct (Z.eqb_spec (strcmp (f_uuid g) (f_uuid f)) 0) as [Eu|Eu]; rewrite strcmp_eq in Eu.
    + by rewrite bool_decide_true.
    + by rewrite bool_decide_false.
  - rewrite <- E. intros Hn. apply (str_lt_irrefl (f_name g)). by eapply sorted_head.
  - intros h Hh. unfold same_file. rewrite bool_decide_false; [done|]. rewrite E. intros E2.
    apply (str_lt_irrefl (f_name f)). rewrite E2 at 2. eapply sorted_head; [exact Hc|]. by apply list_elem_of_fmap_2.
Qed.
End Step.

Lemma link_loop_spec fuel ps cs i j :
  sorted (names ps) -> sorted (names cs) -> Forall (fun f => iRename f < Zlen ps) cs ->
  0 <= i <= Zlen ps -> 0 <= j <= Zlen cs -> (Zlen ps - i) + (Zlen cs - j) <= Z.of_nat fuel ->
  exists ls, link_loop fuel ps cs i j = Ok ls /\
    ls ≡ₚ link_entries ps (drop (Z.to_nat i) ps) (drop (Z.to_nat j) cs).
Proof.
  intros Hp Hc Hr. revert i j. induction fuel as [|fuel IH]; intros i j Hi Hj Hf; cbn [link_loop].
  all: destruct (Z.ltb_spec i (Zlen ps)) as [Hi'|Hi'], (Z.ltb_spec j (Zlen cs)) as [Hj'|Hj']; cbn [andb].
  1: lia.
  4: {
    destruct (drop_rd ps i) as (g & Eg & Dg); [lia|]. destruct (drop_rd cs j) as (f & Ef & Df); [lia|].
    rewrite Eg, bind_Ok.
    assert (sorted (f_name g :: names (drop (Z.to_nat (i + 1)) ps))) as Hsp
      by (rewrite <- fmap_cons, <- Dg, fmap_drop; by apply sorted_drop).
    assert (sorted (f_name f :: names (drop (Z.to_nat (j + 1)) cs))) as Hsc
      by (rewrite <- fmap_cons, <- Df, fmap_drop; by apply sorted_drop).
    assert (iRename f < Zlen ps) as Hrf
      by (apply rd_Ok_inv in Ef as [_ Ef]; rewrite Forall_lookup in Hr; by eapply Hr).
    rewrite Dg, Df. destruct (Z.geb_spec (iRename g) 0) as [Hg|Hg].
    { rewrite link_skip, <- Df by lia. apply IH; lia. }
    rewrite Ef, bind_Ok. destruct (Z.ltb_spec (strcmp (f_name g) (f_name f)) 0) as [Hs|Hs].
    { destruct (IH (i + 1) j) as (ls & -> & Hls); [lia..|]. rewrite bind_Ok.
      eexists. split; [done|]. rewrite link_lt by (done || lia). by rewrite Hls, Df. }
    rewrite Z.gtb_ltb. destruct (Z.ltb_spec 0 (strcmp (f_name g) (f_name f))) as [Hs'|Hs'].
    { rewrite came_ok, bind_Ok by done. destruct (IH i (j + 1)) as (ls & -> & Hls); [lia..|]. rewrite bind_Ok.
      eexists. split; [done|]. rewrite link_gt; [by rewrite Hls, Dg|done|].
      unfold str_lt. rewrite strcmp_opp. lia. }
    destruct (IH (i + 1) (j + 1)) as (ls & -> & Hls); [lia..|]. rewrite bind_Ok. eexists. split; [done|].
    rewrite link_eq by (first [done|lia|apply strcmp_eq; lia]). rewrite <- Hls. by destruct (strcmp _ _ =? 0). }
  all: rewrite parents_left_spec, bind_Ok, children_left_spec, bind_Ok by (done || lia); eexists; split; [done|];
    unfold link_entries.
  all: first [rewrite (drop_ge cs) by lia|rewrite (drop_ge ps) by lia]; simpl; by rewrite ?app_nil_r.
Qed.

(** ** The renames *)

(** A file that no child names as its prior name, and that was not marked before. *)
Definition unclaimed (cs : list mfile) (g : mfile) : bool :=
  forallb (fun f => negb (bool_decide (prior_name f = Some (f_name g)))) cs.
Definition stays (cs : list mfile) (g : mfile) : bool := (iRename g <? 0) && unclaimed cs g.

(** What the loop makes of a file of the child and of the parent. *)
Definition renamed (zs : list (list Z)) (f : mfile) : mfile :=
  match list_find (fun z => prior_name f = Some z) zs with
  | Some (i, _) => with_rename f (Z.of_nat i)
  | None => f
  end.
Definition marked (cs : list mfile) (g g' : mfile) : Prop :=
  exists r, g' = with_rename g r /\ (r <? 0) = stays cs g.

Lemma list_find_sorted f (zs : list (list Z)) i z :
  sorted zs -> zs !! i = Some z -> prior_name f = Some z -> list_find (fun z => prior_name f = Some z) zs = Some (i, z).
Proof.
  intros Hs Hi Hz. apply list_find_Some. split_and!; [done|done|]. intros k y Hk Hlt E.
  rewrite Hz in E. injection E as <-. eapply (str_lt_irrefl z), sorted_lookup; [exact Hs|exact Hlt|done|done].
Qed.

Lemma with_rename_id f : with_rename f (iRename f) = f.
Proof. by destruct f. Qed.

(** One round of the loop, for the file [f] of the child. *)
Definition claimed (f : mfile) (j : Z) (g g1 : mfile) : Prop :=
  if decide (prior_name f = Some (f_name g)) then g1 = with_rename g j else g1 = g.

Lemma marked_step f j cs ps ps1 ps' :
  0 <= j -> Forall2 (claimed f j) ps ps1 -> Forall2 (marked cs) ps1 ps' -> Forall2 (marked (f :: cs)) ps ps'.
Proof.
  intros Hj H1. revert ps'. induction H1 as [|g g1 ps ps1 Hg _ IH]; intros ps' H2; inversion H2 as [|? g' ? qs Hm Hr]; subst;
    constructor; [|by apply IH]. destruct Hm as (r & -> & Hr'). exists r. rewrite Hr'. unfold stays, unclaimed.
  cbn [forallb]. unfold claimed in Hg. case_decide as He; subst g1.
  - rewrite bool_decide_true by done. simpl. rewrite andb_false_r. by rewrite (proj2 (Z.ltb_ge j 0)) by lia.
  - by rewrite bool_decide_false.
Qed.

Lemma claimed_names f j ps ps1 : Forall2 (claimed f j) ps ps1 -> names ps1 = names ps.
Proof.
  induction 1 as [|g g1 ps ps1 Hg _ IH]; [done|]. rewrite !fmap_cons, IH. unfold claimed in Hg.
  by case_decide; subst g1.
Qed.

(** The body of the loop. *)
Definition rename_round (j : Z) (ps cs : list mfile) (f : mfile) : result (list mfile * list mfile) :=
  match prior_name f with
  | Some zPrior =>
      i ← find_file_in_manifest ps zPrior;
      if i >=? 0 then cs ← set_rename cs j i; ps ← set_rename ps i j; Ok (ps, cs) else Ok (ps, cs)
  | None => Ok (ps, cs)
  end.

Lemma claimed_insert f j ps i g :
  sorted (names ps) -> ps !! i = Some g -> prior_name f = Some (f_name g) ->
  Forall2 (claimed f j) ps (<[i := with_rename g j]> ps).
Proof.
  intros Hs Hg Hf. apply Forall2_same_length_lookup_2; [by rewrite length_insert|].
  intros k x y Hx Hy. unfold claimed. destruct (decide (k = i)) as [->|Hk].
  - rewrite list_lookup_insert_eq in Hy by (by apply lookup_lt_Some in Hg).
    rewrite Hg in Hx. injection Hx as <-. injection Hy as <-. by rewrite decide_True.
  - rewrite list_lookup_insert_ne in Hy by done. rewrite Hx in Hy. injection Hy as <-.
    rewrite decide_False; [done|]. rewrite Hf. intros [= E]. apply Hk. symmetry.
    eapply (NoDup_lookup (names ps)); [by apply sorted_NoDup| |].
    + by rewrite list_lookup_fmap, Hg.
    + by rewrite list_lookup_fmap, Hx, E.
Qed.

Lemma claimed_none f j ps : Forall (fun g => prior_name f <> Some (f_name g)) ps -> Forall2 (claimed f j) ps ps.
Proof.
  intros H. apply Forall_Forall2_diag. eapply Forall_impl; [|exact H]. intros g Hg. unfold claimed.
  by rewrite decide_False.
Qed.

Lemma renamed_none zs f : Forall (fun z => prior_name f <> Some z) zs -> renamed zs f = f.
Proof.
  intros H. unfold renamed. destruct (list_find _ zs) as [[i z]|] eqn:E; [|done].
  apply list_find_Some in E as (Hi & Hz & _). rewrite Forall_lookup in H. by destruct (H i z).
Qed.

Lemma rename_round_spec j ps cs f :
  sorted (names ps) -> 0 <= j -> cs !! Z.to_nat j = Some f ->
  exists ps1, rename_round j ps cs f = Ok (ps1, <[Z.to_nat j := renamed (names ps) f]> cs) /\
    Forall2 (claimed f j) ps ps1.
Proof.
  intros Hs Hj Hf. unfold rename_round. destruct (prior_name f) as [z|] eqn:Ez.
  2: { exists ps. rewrite renamed_none, list_insert_id by (done || (apply Forall_true; by rewrite Ez)).
       split; [done|]. apply claimed_none, Forall_true. by rewrite Ez. }
  destruct (find_file_spec ps z Hs) as [(i & g & Hg & <- & ->)|[Hn ->]]; rewrite bind_Ok.
  - rewrite Z.geb_leb, (proj2 (Z.leb_le _ _)) by lia. unfold set_rename.
    rewrite (rd_ok cs j f), bind_Ok, wr_ok, bind_Ok by (done || apply lookup_lt_Some in Hf; lia).
    rewrite (rd_ok ps (Z.of_nat i) g), bind_Ok by (rewrite ?Nat2Z.id; done || lia).
    rewrite wr_ok, bind_Ok, Nat2Z.id by (apply lookup_lt_Some in Hg; lia).
    exists (<[i := with_rename g j]> ps). split; [|by apply claimed_insert].
    do 3 f_equal. unfold renamed.
    rewrite (list_find_sorted f (names ps) i (f_name g)) by (done || by rewrite list_lookup_fmap, Hg). done.
  - assert (Forall (fun y => prior_name f <> Some y) (names ps)) as Hz
      by (apply list.Forall_forall; intros y Hy E; rewrite Ez in E; injection E as <-; done).
    exists ps. rewrite renamed_none, list_insert_id by done. split; [done|]. apply claimed_none.
    by rewrite Forall_fmap in Hz.
Qed.

Lemma rename_loop_spec n ps cs j :
  sorted (names ps) -> 0 <= j <= Zlen cs -> n = Z.to_nat (Zlen cs - j) ->
  exists ps', rename_loop n j ps cs = Ok (ps', take (Z.to_nat j) cs ++ (renamed (names ps) <$> drop (Z.to_nat j) cs)) /\
    Forall2 (marked (drop (Z.to_nat j) cs)) ps ps'.
Proof.
  revert ps cs j. induction n as [|n IH]; intros ps cs j Hs Hj Hn; cbn [rename_loop].
  - exists ps. rewrite (drop_ge cs), take_ge, app_nil_r by lia. split; [done|]. apply Forall_Forall2_diag, Forall_true.
    intros g. exists (iRename g). rewrite with_rename_id. split; [done|]. unfold stays. by rewrite andb_true_r.
  - destruct (drop_rd cs j) as (f & Ef & Df); [lia|]. rewrite Ef, bind_Ok, Df. apply rd_Ok_inv in Ef as [_ Ef].
    fold (rename_round j ps cs f). destruct (rename_round_spec j ps cs f) as (ps1 & -> & H1); [done|lia|done|].
    rewrite bind_Ok. pose proof (claimed_names _ _ _ _ H1) as Hnm. set (cs1 := <[_ := _]> cs).
    assert (length cs1 = length cs) as Hl by apply length_insert.
    destruct (IH ps1 cs1 (j + 1)) as (ps' & -> & H2); [by rewrite Hnm|lia..|].
    assert (drop (Z.to_nat (j + 1)) cs1 = drop (Z.to_nat (j + 1)) cs) as Hd by (apply drop_insert_lt; lia).
    rewrite Hd in *. exists ps'. split; [|by apply (marked_step f j _ ps ps1); [lia|..]].
    do 2 f_equal. rewrite Hnm, fmap_cons, cons_middle, app_assoc. f_equal.
    replace (Z.to_nat (j + 1)) with (S (Z.to_nat j)) by lia. unfold cs1. apply take_snoc_insert.
    by apply lookup_lt_Some in Ef.
Qed.

(** ** What is recorded *)

(** The parent's file that a file of the child was renamed from. *)
Definition origin (ps : list mfile) (f : mfile) : option mfile :=
  List.find (fun g => bool_decide (prior_name f = Some (f_name g))) ps.

(** The entry for a file of the child: edited when the parent has a file of that name
    that is not the origin of a rename, renamed when it names its origin, else added. *)
Definition child_change (ps cs : list mfile) (f : mfile) : option mlink :=
  match List.find (fun g => bool_decide (f_name g = f_name f) && stays cs g) ps with
  | Some g => if bool_decide (f_uuid g = f_uuid f) then None
              else Some (MLink (Some (f_uuid g)) (Some (f_uuid f)) (f_name f) None)
  | None => Some match origin ps f with
                 | Some g => MLink (Some (f_uuid g)) (Some (f_uuid f)) (f_name f) (Some (f_name g))
                 | None => MLink None (Some (f_uuid f)) (f_name f) None
                 end
  end.
(** The entry for a file of the parent: deleted when the child has no file of that name
    and no rename from it. *)
Definition parent_change (cs : list mfile) (g : mfile) : option mlink :=
  if stays cs g && bool_decide (f_name g ∉ names cs) then Some (link_parent g) else None.
Definition changes (ps cs : list mfile) : list mlink :=
  omap (child_change ps cs) cs ++ omap (parent_change cs) ps.

Lemma renamed_name zs f : f_name (renamed zs f) = f_name f /\ f_uuid (renamed zs f) = f_uuid f.
Proof. unfold renamed. by destruct (list_find _ zs) as [[i z]|]. Qed.

Lemma renamed_names zs (cs : list mfile) : names (renamed zs <$> cs) = names cs.
Proof. rewrite <- list_fmap_compose. apply list_fmap_ext. intros i f _. apply renamed_name. Qed.

Lemma origin_find ps f :
  snd <$> list_find (fun g => prior_name f = Some (f_name g)) ps = origin ps f.
Proof.
  unfold origin. induction ps as [|g ps IH]; [done|]. simpl. case_decide as E.
  - by rewrite bool_decide_true.
  - rewrite bool_decide_false, <- IH by done. by destruct (list_find _ ps) as [[i h]|].
Qed.

Lemma came_renamed ps ps' cs f :
  Forall2 (marked cs) ps ps' -> iRename f < 0 ->
  came ps' (renamed (names ps) f) =
  match origin ps f with
  | Some g => MLink (Some (f_uuid g)) (Some (f_uuid f)) (f_name f) (Some (f_name g))
  | None => MLink None (Some (f_uuid f)) (f_name f) None
  end.
Proof.
  intros Hm Hf. rewrite <- origin_find. unfold renamed. rewrite list_find_fmap.
  replace (list_find ((fun z => prior_name f = Some z) ∘ f_name) ps)
    with (list_find (fun g => prior_name f = Some (f_name g)) ps) by done.
  destruct (list_find _ ps) as [[i g]|] eqn:E; simpl.
  - apply list_find_Some in E as (Hg & _ & _). destruct (Forall2_lookup_l _ _ _ _ _ Hm Hg) as (g' & Hg' & r & -> & _).
    unfold came. cbn [iRename with_rename]. rewrite Z.geb_leb, (proj2 (Z.leb_le _ _)), Nat2Z.id, Hg' by lia. done.
  - unfold came. rewrite Z.geb_leb, (proj2 (Z.leb_gt _ _)) by lia. done.
Qed.

Lemma find_marked cs zs f ps ps' :
  Forall2 (marked cs) ps ps' ->
  f_uuid <$> List.find (same_file (renamed zs f)) ps' =
  f_uuid <$> List.find (fun g => bool_decide (f_name g = f_name f) && stays cs g) ps.
Proof.
  destruct (renamed_name zs f) as [En _]. induction 1 as [|g g' ps ps' (r & -> & Hr) _ IH]; [done|]. cbn [List.find].
  unfold same_file at 1. cbn [f_name iRename with_rename]. rewrite En, Hr. by destruct (bool_decide _ && _).
Qed.

Lemma child_entry_renamed ps ps' cs f :
  Forall2 (marked cs) ps ps' -> iRename f < 0 ->
  child_entry ps' ps' (renamed (names ps) f) = child_change ps cs f.
Proof.
  intros Hm Hf. unfold child_entry, child_change. pose proof (find_marked cs (names ps) f ps ps' Hm) as E.
  destruct (renamed_name (names ps) f) as [En Eu].
  destruct (List.find _ ps') as [g'|], (List.find _ ps) as [g|]; simpl in E; try done.
  - injection E as ->. by rewrite Eu, En.
  - by rewrite (came_renamed ps ps' cs).
Qed.

Lemma omap_fmap_in {A B C} (h : A -> B) (k : B -> option C) (k' : A -> option C) (l : list A) :
  (forall x, x ∈ l -> k (h x) = k' x) -> omap k (h <$> l) = omap k' l.
Proof.
  intros H. rewrite <- (omap_ext_in (k ∘ h) k' l H). clear H. induction l as [|x l IH]; [done|]. simpl.
  by destruct (k (h x)); [f_equal|].
Qed.

Lemma parents_marked cs ps ps' :
  Forall2 (marked cs) ps ps' -> omap (parent_entry (renamed (names ps) <$> cs)) ps' = omap (parent_change cs) ps.
Proof.
  generalize (names ps) as zs. intros zs. induction 1 as [|g g' ps ps' (r & -> & Hr) _ IH]; [done|]. cbn [omap list_omap].
  assert (parent_entry (renamed zs <$> cs) (with_rename g r) = parent_change cs g) as ->.
  { unfold parent_entry, parent_change. cbn [iRename f_name with_rename]. by rewrite renamed_names, Hr. }
  destruct (parent_change cs g); [f_equal|]; exact IH.
Qed.

(** The renames and the walk together; the parent's files may have been marked before. *)
Lemma link_files_spec ps cs :
  sorted (names ps) -> sorted (names cs) -> Forall (fun f => iRename f < 0) cs ->
  exists ps' cs' ls, link_files ps cs = Ok (ps', cs', ls) /\ ls ≡ₚ changes ps cs /\
    Forall2 (marked cs) ps ps' /\ cs' = renamed (names ps) <$> cs.
Proof.
  intros Hp Hc Hf. unfold link_files.
  destruct (rename_loop_spec (length cs) ps cs 0) as (ps' & -> & Hm); [done|lia|lia|]. change (Z.to_nat 0) with O in *.
  rewrite drop_0 in *. rewrite take_0, app_nil_l.
  rewrite bind_Ok. set (cs' := renamed (names ps) <$> cs).
  assert (names ps' = names ps) as Hnp.
  { clear -Hm. induction Hm as [|g g' ps ps' (r & -> & _) _ IH]; [done|]. rewrite !fmap_cons. by f_equal. }
  assert (Zlen ps' = Zlen ps) as Hlp by (by rewrite (Forall2_length Hm)).
  destruct (link_loop_spec (length ps' + length cs') ps' cs' 0 0) as (ls & -> & Hls); [..|lia|lia|lia|].
  - by rewrite Hnp.
  - unfold cs'. by rewrite renamed_names.
  - unfold cs'. apply Forall_fmap. eapply Forall_impl; [|exact Hf]. intros f Hr. cbn beta in Hr. unfold renamed, compose.
    destruct (list_find _ _) as [[i z]|] eqn:E; [|lia]. apply list_find_Some in E as (Hi & _ & _).
    apply lookup_lt_Some in Hi. rewrite length_fmap in Hi. cbn [iRename with_rename]. lia.
  - rewrite bind_Ok. exists ps', cs', ls. split_and!; [done| |done|done]. rewrite Hls. change (Z.to_nat 0) with O. rewrite !drop_0.
    unfold link_entries, changes, cs'. rewrite parents_marked by done.
    rewrite (omap_fmap_in _ _ (child_change ps cs)); [done|]. intros f Hin. apply child_entry_renamed; [done|].
    rewrite list.Forall_forall in Hf. by apply Hf.
Qed.

(** C21. Between two contents that [manifest_parse] accepts, [add_mlink] adds one entry
    for every file of the child that is not, with the same content, a file of that name in
    the parent, as an edit, as a rename from the prior name its card gives, or as an
    addition, and one for every file of the parent that is neither in the child nor the
    prior name of one of its files; nothing else, nothing twice, and without a fault.  The
    caller's manifest is the child or the parent. *)
Theorem add_mlink_spec {D : Type} `{DateOps D} (sum : incr) (own_is_parent : bool) c1 t1 (m1 : Manifest D) c2 t2 (m2 : Manifest D) :
  manifest_parse sum c1 = Ok (Some (t1, m1)) -> manifest_parse sum c2 = Ok (Some (t2, m2)) ->
  let own := items (aFile m1) in let other := items (aFile m2) in
  exists own' ls, add_mlink (D := D) false own_is_parent sum c2 own = Ok (own', ls) /\
    ls ≡ₚ (if own_is_parent then changes own other else changes other own).
Proof.
  intros E1 E2 own other. pose proof E2 as E2'. apply manifest_parse_ok in E1 as [H1 _], E2' as [H2 _].
  assert (forall m : Manifest D, manifest_ok m -> Forall (fun f => iRename f < 0) (items (aFile m))) as Hfresh.
  { intros m Hm. eapply Forall_impl; [|apply (ok_files m Hm)]. intros f Hf. rewrite (file_fresh f Hf). lia. }
  unfold add_mlink. destruct (Z.eqb_spec (Zlen c2) 0) as [Hz|_].
  { destruct c2; [|simpl in Hz; lia]. done. }
  rewrite E2, bind_Ok. fold own other. destruct own_is_parent.
  - destruct (link_files_spec own other) as (ps & cs & ls & -> & Hls & _); [apply ok_file_order; done..|by apply Hfresh|].
    rewrite bind_Ok. by exists ps, ls.
  - destruct (link_files_spec other own) as (ps & cs & ls & -> & Hls & _); [apply ok_file_order; done..|by apply Hfresh|].
    rewrite bind_Ok. by exists cs, ls.
Qed.

Definition test_u1 : list Z := replicate 40 49.
Definition test_u2 : list Z := replicate 40 50.
Definition test_u3 : list Z := replicate 40 51.
Definition test_date : list Z := cstr
"D 2009-01-01T00:00:00
"%string.
Definition test_F (name : list Z) (uuid rest : list Z) : list Z := cstr "F "%string ++ name ++ [32] ++ uuid ++ rest ++ [10].
Definition test_old : list Z := test_date ++ test_F [97] test_u1 [] ++ test_F [99] test_u2 [].
Definition test_new : list Z :=
  test_date ++ test_F [98] test_u1 (cstr " w a"%string) ++ test_F [99] test_u3 [] ++ test_F [100] test_u2 [].
Definition test_parsed (c : list Z) : Manifest Z :=
  match manifest_parse test_sum c with Ok (Some (_, m)) => m | _ => empty_manifest end.

Lemma add_mlink_spec_witness :
  exists own' ls, add_mlink (D := Z) false false test_sum test_old (items (aFile (test_parsed test_new))) = Ok (own', ls) /\
    ls ≡ₚ [MLink (Some test_u1) (Some test_u1) [98] (Some [97]); MLink (Some test_u2) (Some test_u3) [99] None;
           MLink None (Some test_u2) [100] None].
Proof.
  apply (add_mlink_spec test_sum false test_new CFTYPE_MANIFEST (test_parsed test_new)
           test_old CFTYPE_MANIFEST (test_parsed test_old)); vm_compute; reflexivity.
Defined.

(** ** Where entries are wrong *)

(** The marks of the renames stay in the manifest of the caller.  When a check-in that
    renames a file is linked to its parent and then to a child that is already there, the
    renamed file, which the child does not change, is recorded as added by the child. *)
Lemma stale_rename_added :
  let renaming := test_date ++ test_F [98] test_u1 (cstr " w a"%string) in
  let unchanged := test_date ++ test_F [98] test_u1 [] in
  let own := items (aFile (test_parsed renaming)) in
  (exists lss, crosslink_mlinks (D := Z) test_sum None [(false, unchanged)] own = Ok ([] :: lss) /\ lss = [[]]) /\
  (exists l, crosslink_mlinks (D := Z) test_sum (Some (false, test_old)) [(false, unchanged)] own =
    Ok [l; [MLink None (Some test_u1) [98] None]]).
Proof. split; eexists; vm_compute; [split|]; reflexivity. Qed.

(** A rename onto a file that the parent has is recorded as an edit of that file, and the
    file that disappeared is not recorded at all. *)
Lemma rename_over_existing :
  let before := test_date ++ test_F [97] test_u1 [] ++ test_F [98] test_u2 [] in
  let after := test_date ++ test_F [98] test_u1 (cstr " w a"%string) in
  changes (items (aFile (test_parsed before))) (items (aFile (test_parsed after))) =
    [MLink (Some test_u2) (Some test_u1) [98] None].
Proof. vm_compute. reflexivity. Qed.
