(* ===== verification/Artifact.v ===== *)
(** * Control artifacts written

    Models the code that composes the text of control artifacts, all under
    [src/src/ssfossil/fossil/src/]: the manifest of a check-in ([commit_cmd] of
    [checkin.c]) and of a new repository ([db.c]), clusters ([create_cluster] of
    [xfer.c]), wiki pages ([wiki.c]), tags ([tag_add_artifact] of [tag.c]), attachments
    ([attach.c]) and ticket changes ([submitTicketCmd] of [tkt.c]).

    What the code asks of the database, of the file system and of the request is an
    argument; the text is a value.  [%s] and [%b] are texts themselves, [%d] is
    [DiffOut.dec], and [%F] is [fossilize]. *)

From S2P Require Import Prelude Encode Md5 DiffOut.
#[local] Open Scope Z_scope.
#[local] Arguments cstr s%_string.

(** "%F" *)
Definition fmt_F (z : list Z) : result (list Z) := fossilize z (-1).

(** A card: its letter, and its arguments after single spaces. *)
Definition card_line (c : Z) (args : list (list Z)) : list Z := c :: concat (cons 32 <$> args) ++ [10].

(** [zDate[10] = 'T'; blob_appendf(&b, "D %s\n", zDate);] *)
Definition date_line (now : list Z) : result (list Z) := zDate ← wr now 10 84; Ok (card_line 68 [zDate]).

(** [blob_appendf(&b, "U %F\n", zUser);] *)
Definition user_line (zUser : list Z) : result (list Z) := u ← fmt_F zUser; Ok (card_line 85 [u]).

Section Write.
(** The memory of the checksum's context on the stack. *)
Context (junk : list Z).

(** [md5sum_blob(&b, &cksum); blob_appendf(&b, "Z %b\n", &cksum);] *)
Definition seal (text : list Z) : result (list Z) :=
  cksum ← md5sum_blob junk text; Ok (text ++ card_line 90 [cksum]).

(** [nUncl] artifacts are in no cluster; [uuids] are the rows of the query. *)
Definition create_cluster (nUncl : Z) (uuids : list (list Z)) : result (option (list Z)) :=
  if nUncl <? 100 then Ok None
  else text ← seal (concat ((fun u => card_line 77 [u]) <$> uuids)); Ok (Some text).

(** [wikiedit_page]: [zParent] is the artifact of the page before, [zLogin] may be null. *)
Definition wiki_artifact (now zPageName : list Z) (zParent zLogin : option (list Z)) (zBody : list Z) : result (list Z) :=
  d ← date_line now;
  l ← fmt_F zPageName;
  let p := match zParent with Some zUuid => card_line 80 [zUuid] | None => [] end in
  u ← (match zLogin with Some z => user_line z | None => Ok [] end);
  seal (d ++ card_line 76 [l] ++ p ++ u ++ card_line 87 [dec (strlen zBody)] ++ c_string zBody ++ [10]).

Definition zTagtype : list Z := [45; 43; 42].
(** The object is given by its [uuid]. *)
Definition tag_add_artifact (now zPrefix zTagname uuid : list Z) (zValue : option (list Z)) (tagtype : Z)
    (zLogin : list Z) : result (list Z) :=
  _ ← check ((0 <=? tagtype) && (tagtype <=? 2)) AssertFailed;
  d ← date_line now;
  n ← fmt_F zTagname;
  let name := cget zTagtype tagtype :: zPrefix ++ n in
  t ← (match zValue with
       | Some ((_ :: _) as z) => if tagtype >? 0 then v ← fmt_F z; Ok (card_line 84 [name; uuid; v])
                               else Ok (card_line 84 [name; uuid])
       | _ => Ok (card_line 84 [name; uuid])
       end);
  u ← user_line zLogin;
  seal (d ++ t ++ u).

(** The loop for the last separator, at index [i] with the last one at [n]. *)
Fixpoint last_separator (z : list Z) (i n : Z) : Z :=
  match z with
  | [] => n
  | c :: z => last_separator z (i + 1) (if (c =? 47) || (c =? 92) then i else n)
  end.
Fixpoint skip_isspace (z : list Z) : list Z :=
  match z with c :: z' => if isspace (schar c) then skip_isspace z' else z | [] => [] end.

(** [attachadd_page]: [zUUID] is the artifact with the file. *)
Definition attach_artifact (now zName zTarget zUUID zComment : list Z) (zLogin : option (list Z)) : result (list Z) :=
  let n := last_separator zName 0 0 in
  let zName := drop (Z.to_nat n) zName in
  let zName := if cget zName 0 =? 0 then cstr "unknown" else zName in
  n ← fmt_F zName;
  t ← fmt_F zTarget;
  let zComment := skip_isspace zComment in
  c ← (if forallb (fun c => isspace (schar c)) zComment then Ok []
       else c ← fmt_F zComment; Ok (card_line 67 [c]));
  d ← date_line now;
  u ← user_line (default (cstr "nobody") zLogin);
  seal (card_line 65 [n; t; zUUID] ++ c ++ d ++ u).

(** A column of the ticket table: its name, the text to append, the value that the script
    has for it, and the value of the ticket. *)
Record tfield := TField { zField : list Z; zAppend : option (list Z); zFetched : option (list Z); zOld : list Z }.

Fixpoint rtrim (z : list Z) : list Z :=
  match z with
  | [] => []
  | c :: z => match rtrim z with [] => if isspace (schar c) then [] else [c] | z' => c :: z' end
  end.

(** [db_conceal] is code of the database. *)
Definition field_line (db_conceal : list Z -> list Z) (f : tfield) : result (list Z) :=
  match zAppend f with
  | Some z => v ← fossilize z (-1); Ok (card_line 74 [43 :: zField f; v])
  | None =>
      match zFetched f with
      | None => Ok []
      | Some zValue =>
          let zValue := rtrim zValue in
          if bool_decide (zValue = zOld f) then Ok []
          else if bool_decide (take 8 (zField f) = cstr "private_") then
            Ok (card_line 74 [zField f; db_conceal zValue])
          else v ← fossilize zValue (Zlen zValue); Ok (card_line 74 [zField f; v])
      end
  end.
Fixpoint field_lines (db_conceal : list Z -> list Z) (fs : list tfield) : result (list Z) :=
  match fs with
  | [] => Ok []
  | f :: fs => l ← field_line db_conceal f; ls ← field_lines db_conceal fs; Ok (l ++ ls)
  end.
Definition ticket_artifact (db_conceal : list Z -> list Z) (now : list Z) (azField : list tfield) (zUuid : list Z)
    (zLogin : option (list Z)) : result (list Z) :=
  d ← date_line now;
  js ← field_lines db_conceal azField;
  u ← user_line (default [] zLogin);
  seal (d ++ js ++ card_line 75 [zUuid] ++ u).

(** A row of the files of a check-in. *)
Record vfile := VFile { pathname : list Z; vuuid : list Z; origname : option (list Z); isexe : bool }.

Definition file_line (f : vfile) : result (list Z) :=
  n ← fmt_F (pathname f);
  match origname f with
  | Some zOrig =>
      if bool_decide (zOrig = pathname f) then Ok (card_line 70 (n :: vuuid f :: (if isexe f then [[120]] else [])))
      else o ← fmt_F zOrig; Ok (card_line 70 [n; vuuid f; (if isexe f then [120] else [119]); o])
  | None => Ok (card_line 70 (n :: vuuid f :: (if isexe f then [[120]] else [])))
  end.
Fixpoint file_lines (fs : list vfile) : result (list Z) :=
  match fs with [] => Ok [] | f :: fs => l ← file_line f; ls ← file_lines fs; Ok (l ++ ls) end.

Fixpoint cancel_lines (tags : list (list Z)) : result (list Z) :=
  match tags with
  | [] => Ok []
  | t :: tags => n ← fmt_F t; ls ← cancel_lines tags; Ok (card_line 84 [45 :: n; [42]] ++ ls)
  end.

(** The tags of a new branch; [cancelled] are the rows of the query for the others. *)
Definition branch_lines (zBranch zBgColor : option (list Z)) (cancelled : list (list Z)) : result (list Z) :=
  match zBranch with
  | Some ((_ :: _) as b) =>
      bg ← (match zBgColor with
            | Some ((_ :: _) as c) => e ← fmt_F c; Ok (card_line 84 [cstr "*bgcolor"; [42]; e])
            | _ => Ok []
            end);
      e ← fmt_F b;
      ts ← cancel_lines cancelled;
      Ok (bg ++ card_line 84 [cstr "*branch"; [42]; e] ++ card_line 84 [cstr "*sym-" ++ e; [42]] ++ ts)
  | _ => Ok []
  end.

(** [commit_cmd], from [blob_zero(&manifest)] to the checksum.  [zDate] is in standard
    format already. *)
Definition commit_manifest (comment zDate : list Z) (files : list vfile) (zParent : list Z) (merges : list (list Z))
    (cksum1 : list Z) (zBranch zBgColor : option (list Z)) (cancelled : list (list Z)) (zUser : list Z) : result (list Z) :=
  let comment := if Zlen comment =? 0 then cstr "(no comment)" else comment in
  c ← fmt_F comment;
  fs ← file_lines files;
  ts ← branch_lines zBranch zBgColor cancelled;
  u ← user_line zUser;
  seal (card_line 67 [c] ++ card_line 68 [zDate] ++ fs ++ card_line 80 (zParent :: merges) ++
        card_line 82 [cksum1] ++ ts ++ u).

(** [db_initial_setup]; [sum] is the static context. *)
Definition initial_manifest (sum : incr) (zDate zLogin : list Z) : result (list Z) :=
  '(_, r) ← md5sum_finish (md5sum_init sum);
  u ← user_line zLogin;
  seal (cstr "C initial\sempty\scheck-in" ++ [10] ++ card_line 68 [zDate] ++ card_line 80 [] ++ card_line 82 [r] ++
        card_line 84 [cstr "*branch"; [42]; cstr "trunk"] ++ card_line 84 [cstr "*sym-trunk"; [42]] ++ u).
End Write.
