(* ===== verification/ArtifactSpec.v ===== *)
(** * Control artifacts: written and read

    What [Artifact] writes is accepted by [Manifest.manifest_parse], with the values that
    were written. *)

From Stdlib Require Import Sorted.
From S2P Require Import Prelude Blocks Encode EncodeSpec Blob BlobSpec Md5 Md5Spec DiffOut.
From S2P Require Import Manifest ManifestSpec ManifestSum Artifact.
#[local] Open Scope Z_scope.
#[local] Arguments cstr s%_string.

(** ** Words *)

Definition plain (t : list Z) : Prop := Forall (fun c => blob_isspace c = false) t.
Definition nonempty (args : list (list Z)) : list (list Z) := filter (fun t => t <> []) args.

Lemma span_prefix f l : span f l = (take (Z.to_nat (prefix_len f l)) l, drop (Z.to_nat (prefix_len f l)) l).
Proof.
  induction l as [|c l IH]; [done|]. simpl. destruct (f c); [|done]. rewrite IH. pose proof (prefix_len_range f l).
  by replace (Z.to_nat (1 + prefix_len f l)) with (S (Z.to_nat (prefix_len f l))) by lia.
Qed.

(** A token is the next word. *)
Lemma token_words l : exists r, token_of l = (default [] (head (words l)), r) /\ words r = tail (words l).
Proof.
  unfold token_of. rewrite !span_prefix. cbn [snd]. rewrite (words_tok l).
  change (fun c => negb (blob_isspace c)) with nonspace. set (l1 := drop _ l). set (k := prefix_len nonspace l1).
  eexists. split; [f_equal|].
  - destruct (Z.eqb_spec k 0) as [->|]; done.
  - rewrite words_skip. destruct (Z.eqb_spec k 0) as [E|]; [|done]. rewrite E. change (Z.to_nat 0) with O. rewrite drop_0. cbn [tail].
    unfold l1. rewrite words_skip, (words_tok l). fold l1 k. by rewrite E.
Qed.

Lemma some_token_words l t ws : words l = t :: ws -> t <> [] -> exists r, some_token l = Ok (Some (t, r)) /\ words r = ws.
Proof.
  intros E Ht. destruct (token_words l) as (r & Hr & Hw). rewrite E in Hr, Hw. simpl in *. exists r.
  unfold some_token. by rewrite Hr, bool_decide_false.
Qed.
Lemma no_token_words l : words l = [] -> no_token l = Ok (Some tt).
Proof. intros E. destruct (token_words l) as (r & Hr & _). unfold no_token. by rewrite Hr, E. Qed.

Lemma words_aux_plain t l acc : plain t -> words_aux (t ++ l) acc = words_aux l (acc ++ t).
Proof.
  intros Ht. revert acc. induction Ht as [|c t Hc _ IH]; intros acc; simpl; [by rewrite app_nil_r|].
  rewrite Hc, IH. by rewrite <- app_assoc.
Qed.

Lemma words_args args acc :
  Forall plain args ->
  words_aux (concat (cons 32 <$> args) ++ [10]) acc = nonempty [acc] ++ nonempty args.
Proof.
  intros Ha. revert acc. induction Ha as [|a args Hp _ IH]; intros acc.
  - by destruct acc.
  - rewrite fmap_cons. cbn [concat]. rewrite <- app_assoc. cbn [app words_aux].
    change (blob_isspace 32) with true. cbn match.
    assert (words_aux (a ++ concat (cons 32 <$> args) ++ [10]) [] = nonempty (a :: args)) as E.
    { rewrite words_aux_plain, app_nil_l, IH by done. unfold nonempty. by rewrite <- list.filter_app. }
    rewrite E. by destruct acc.
Qed.

(** The line of a card: its first word is the letter. *)
Lemma card_words c args :
  blob_isspace c = false -> Forall plain args ->
  exists r, token_of (card_line c args) = ([c], r) /\ words r = nonempty args.
Proof.
  intros Hc Ha. destruct (token_words (card_line c args)) as (r & Hr & Hw).
  assert (words (card_line c args) = [c] :: nonempty args) as E.
  { unfold words, card_line. cbn [words_aux]. rewrite Hc. cbn match. by rewrite words_args. }
  rewrite E in Hr, Hw. by exists r.
Qed.

Lemma span_stop f a c b : Forall (fun x => f x = true) a -> f c = false -> span f (a ++ c :: b) = (a, c :: b).
Proof. intros Ha Hc. induction Ha as [|x a Hx _ IH]; simpl; [by rewrite Hc|]. by rewrite Hx, IH. Qed.

Lemma plain_no_newline t : plain t -> Forall (fun x => negb (x =? 10) = true) t.
Proof.
  intros Ht. eapply Forall_impl; [|exact Ht]. intros c Hc. apply negb_true_iff, Z.eqb_neq. intros ->. done.
Qed.

Lemma card_line_of c args rest :
  blob_isspace c = false -> Forall plain args -> line_of (card_line c args ++ rest) = (card_line c args, rest).
Proof.
  intros Hc Ha. unfold line_of, card_line. 
  replace ((c :: concat (cons 32 <$> args) ++ [10]) ++ rest) with ((c :: concat (cons 32 <$> args)) ++ 10 :: rest)
    by (simpl; by rewrite <- app_assoc).
  rewrite span_stop; [done| |done]. constructor.
  - apply negb_true_iff, Z.eqb_neq. intros ->. done.
  - clear Hc. induction Ha as [|a args Hp _ IH]; [constructor|]. rewrite fmap_cons. cbn [concat]. apply Forall_app.
    split; [|done]. constructor; [done|]. by apply plain_no_newline.
Qed.

(** ** Encoded texts *)

(** A text that a C string can hold, of less than 256 MB. *)
Definition ctext_ok (z : list Z) : Prop := Forall (fun c => 0 < c < 256) z /\ Zlen z < 2^28.
Definition enc (z : list Z) : list Z := concat (fossil_char <$> z).

Lemma c_string_id z : Forall (fun c => c <> 0) z -> c_string z = z.
Proof. induction 1 as [|c z Hc _ IH]; [done|]. simpl. by rewrite (proj2 (Z.eqb_neq c 0)), IH. Qed.
Lemma c_string_app z r : Forall (fun c => c <> 0) z -> c_string (z ++ 0 :: r) = z.
Proof. induction 1 as [|c z Hc _ IH]; [done|]. simpl. by rewrite (proj2 (Z.eqb_neq c 0)), IH. Qed.

Lemma ctext_bytes z : ctext_ok z -> Forall byte z /\ Forall (fun c => c <> 0) z.
Proof. intros [H _]. split; (eapply Forall_impl; [|exact H]); intros c Hc; unfold byte; simpl in *; lia. Qed.

Lemma fossil_char_word c : byte c -> Forall (fun x => x <> 0 /\ blob_isspace x = false) (fossil_char c).
Proof.
  intros Hc. assert (forallb (fun x => negb (x =? 0) && negb (blob_isspace x)) (fossil_char c) = true) as E.
  { revert c Hc. apply byte_cases. vm_compute. reflexivity. }
  rewrite forallb_forall in E. apply Forall_forall. intros x Hx. specialize (E x Hx).
  apply andb_true_iff in E as [E1 E2]. apply negb_true_iff in E1, E2. apply Z.eqb_neq in E1. done.
Qed.

Lemma enc_word z : ctext_ok z -> Forall (fun x => x <> 0 /\ blob_isspace x = false) (enc z).
Proof.
  intros [Hb _]%ctext_bytes. unfold enc. induction Hb as [|c z Hc _ IH]; [constructor|]. rewrite concat_cons. apply Forall_app.
  split; [by apply fossil_char_word|done].
Qed.

Lemma enc_plain z : ctext_ok z -> plain (enc z).
Proof. intros Hz. eapply Forall_impl; [|by apply enc_word]. by intros c []. Qed.
Lemma enc_c_string z : ctext_ok z -> c_string (enc z) = enc z.
Proof. intros Hz. apply c_string_id. eapply Forall_impl; [|by apply enc_word]. by intros c []. Qed.
Lemma enc_nil z : enc z = [] -> z = [].
Proof. destruct z as [|c z]; [done|]. unfold enc. rewrite concat_cons. unfold fossil_char. by repeat case_match. Qed.

Lemma fmt_F_enc z : ctext_ok z -> fmt_F z = Ok (enc z).
Proof.
  intros Hz. destruct (ctext_bytes z Hz) as [Hb Hn]. pose proof (fossil_length z Hb) as Hl. 
  assert (2 * Zlen z < INT_MAX) as Hm by (unfold INT_MAX; destruct Hz; lia).
  unfold fmt_F, fossilize. change (-1 <? 0) with true. unfold input_bytes. rewrite (strlen_no_nul z Hn).
  rewrite check_true, bind_Ok by (apply Z.leb_le; lia). rewrite Nat2Z.id, take_ge by lia. rewrite bind_Ok.
  rewrite fossil_count_spec, bind_Ok by (done || lia). rewrite i32_ok, bind_Ok by (unfold INT_MIN, INT_MAX in *; lia).
  rewrite i32_ok, bind_Ok by (unfold INT_MIN, INT_MAX in *; lia).
  rewrite fossil_loop_spec, bind_Ok by (simpl; lia). simpl. unfold enc. apply finish_ok. lia.
Qed.

Lemma defossil_enc z : ctext_ok z -> defossil (enc z) = Ok z.
Proof.
  intros Hz. destruct (ctext_bytes z Hz) as [Hb Hn]. unfold defossil, defossilize.
  destruct (defossil_loop_spec z (length (enc z ++ [0])) [] [] [] Hb) as [t Ht].
  { pose proof (fossil_length z Hb). unfold enc. rewrite length_app. lia. }
  change (([] : list Z) ++ [] ++ concat (fossil_char <$> z) ++ [0]) with (enc z ++ [0]) in Ht.
  change (Zlen [] + Zlen []) with 0 in Ht. change (Zlen []) with 0 in Ht. rewrite Ht, bind_Ok. cbn [app].
  by rewrite c_string_app.
Qed.

(** Texts of one word. *)
Definition word_ok (t : list Z) : Prop := t <> [] /\ Forall (fun x => x <> 0 /\ blob_isspace x = false) t.
Lemma word_plain t : word_ok t -> plain t.
Proof. intros [_ H]. eapply Forall_impl; [|exact H]. by intros c []. Qed.
Lemma word_c_string t : word_ok t -> c_string t = t.
Proof. intros [_ H]. apply c_string_id. eapply Forall_impl; [|exact H]. by intros c []. Qed.

(** ** Hexadecimal texts *)

Definition hex_char (c : Z) : bool := negb (cget zDecode (Z.land (schar c) 255) >? 63).
Definition hex_ok (n : Z) (u : list Z) : Prop := Zlen u = n /\ Forall (fun c => byte c /\ hex_char c = true) u.

Lemma hex_char_word c : byte c -> hex_char c = true -> c <> 0 /\ blob_isspace c = false.
Proof.
  intros Hb Hh. assert (negb (hex_char c) || negb (c =? 0) && negb (blob_isspace c) = true) as E.
  { revert c Hb Hh. intros c Hb _. revert c Hb. apply byte_cases. vm_compute. reflexivity. }
  rewrite Hh in E. apply andb_true_iff in E as [E1 E2]. apply negb_true_iff in E1, E2. by apply Z.eqb_neq in E1.
Qed.

Lemma hex_word n u : 0 < n -> hex_ok n u -> word_ok u.
Proof.
  intros Hn [Hl Hu]. split; [intros ->; simpl in Hl; lia|]. eapply Forall_impl; [|exact Hu]. intros c [? ?].
  by apply hex_char_word.
Qed.

Lemma validate16_hex u n : Forall (fun c => byte c /\ hex_char c = true) u -> validate16 u n = true.
Proof.
  intros Hu. revert n. induction Hu as [|c u [_ Hc] _ IH]; intros [|n]; try done. cbn [validate16]. unfold hex_char in Hc.
  destruct (_ >? 63); [done|]. apply IH.
Qed.

Lemma hex_token_ok n u : hex_ok n u -> hex_token n u = true.
Proof. intros [Hl Hu]. unfold hex_token. rewrite Hl, Z.eqb_refl. by apply validate16_hex. Qed.

Lemma md5_sixteen m : length (md5 m) = 16%nat /\ Forall byte (md5 m).
Proof.
  unfold md5. assert (length (absorb ref_compress md5_iv (padded m (length_le (8 * Zlen m)))) = 4%nat) as Hl.
  { unfold absorb. generalize (blocks (Z.to_nat (Zlen (padded m (length_le (8 * Zlen m))) / 64)) (padded m (length_le (8 * Zlen m)))) as l.
    assert (forall l st, length st = 4%nat -> length (foldl ref_compress st l) = 4%nat) as Hf; [|intros l; by apply Hf].
    intros l. induction l as [|b l IH]; intros st Hst; [done|]. cbn [foldl]. apply IH. unfold ref_compress.
    by destruct (foldl _ _ _) as [[[? ?] ?] ?]. }
  revert Hl. generalize (absorb ref_compress md5_iv (padded m (length_le (8 * Zlen m)))) as st. intros st Hl.
  destruct st as [|w0 [|w1 [|w2 [|w3 [|]]]]]; try done. split; [done|].
  assert (forall w, Forall byte (ref_bytes w)) as Hw by (intros w; repeat constructor; apply Z.mod_pos_bound; lia).
  cbn [fmap list_fmap concat]. rewrite app_nil_r. repeat (apply Forall_app; split); apply Hw.
Qed.

Lemma digest_hex m : hex_ok 32 (DigestToBase16 (md5 m)).
Proof.
  destruct (md5_sixteen m) as [Hl Hb]. revert Hl Hb. generalize (md5 m) as d. intros d Hl Hb. unfold DigestToBase16.
  split.
  - assert (Zlen (concat ((fun a => [hex_digit (Z.land (Z.shiftr a 4) 15); hex_digit (Z.land a 15)]) <$> d)) = 2 * Zlen d) as ->; [|lia].
    clear. induction d as [|a d IH]; [done|]. rewrite concat_cons, length_app. simpl length in *. lia.
  - clear Hl. induction Hb as [|a d Ha _ IH]; [constructor|]. rewrite concat_cons. apply Forall_app. split; [|done].
    assert (forallb (fun c => (0 <=? c) && (c <? 256) && hex_char c)
      [hex_digit (Z.land (Z.shiftr a 4) 15); hex_digit (Z.land a 15)] = true) as E.
    { revert a Ha. apply byte_cases. vm_compute. reflexivity. }
    rewrite forallb_forall in E. apply Forall_forall. intros c Hc. specialize (E c Hc).
    apply andb_true_iff in E as [E1 E2]. split; [unfold byte; lia|done].
Qed.

(** ** Reading one card after another *)

Section Reads.
Context {D : Type} `{DateOps D}.

(** [text] is read from the state [m] after a card [prev], and leaves [m'] after [prev']. *)
Definition reads (prev : Z) (text : list Z) (prev' : Z) (m m' : Manifest D) : Prop :=
  exists k, (k <= length text)%nat /\
    forall n sum x rest hdr, incr_state sum x -> exists sum',
      parse_cards (k + n) (PState m sum (text ++ rest) prev hdr false) =
      parse_cards n (PState m' sum' rest prev' (hdr || negb (Nat.eqb k 0)) false) /\ incr_state sum' (x ++ text).

Lemma cards_nil prev m : reads prev [] prev m m.
Proof.
  exists O. split; [done|]. intros n sum x rest hdr Hs. exists sum. rewrite orb_false_r, app_nil_r. done.
Qed.

Lemma cards_app p t1 q t2 r m m1 m2 : reads p t1 q m m1 -> reads q t2 r m1 m2 -> reads p (t1 ++ t2) r m m2.
Proof.
  intros (k1 & Hk1 & H1) (k2 & Hk2 & H2). exists (k1 + k2)%nat. split; [rewrite length_app; lia|].
  intros n sum x rest hdr Hs. rewrite <- Nat.add_assoc, <- app_assoc.
  destruct (H1 (k2 + n)%nat sum x (t2 ++ rest) hdr Hs) as (s1 & -> & Hs1).
  destruct (H2 n s1 (x ++ t1) rest (hdr || negb (Nat.eqb k1 0)) Hs1) as (s2 & -> & Hs2). exists s2.
  rewrite app_assoc. split; [|done]. do 2 f_equal. destruct hdr, k1, k2; done.
Qed.

Lemma parse_step n (st : pstate D) line rest :
  line_of (p_rest st) = (line, rest) -> line <> [] -> cget line 0 <> 45 ->
  parse_cards (S n) st = (st ⇐ card line (at_rest st rest); parse_cards n st).
Proof.
  intros E Hn Hc. cbn [parse_cards]. rewrite E, bool_decide_false by done. by rewrite (proj2 (Z.eqb_neq _ 45)).
Qed.
Lemma parse_end n (st : pstate D) : p_rest st = [] -> parse_cards (S n) st = Ok (Some st).
Proof. intros E. cbn [parse_cards]. by rewrite E. Qed.

(** The letter of a card, and what is left for its arguments. *)
Lemma card_args prev c args (m : Manifest D) sum rest hdr :
  Forall plain args -> prev <= c -> 45 < c < 128 ->
  exists r, words r = nonempty args /\
    card (card_line c args) (PState m sum rest prev hdr false) =
    (if c =? 90 then card_Z r (PState m sum rest c true false) else
     s ⇐ oklift (md5sum_step_text sum (card_line c args) (to_int (Zlen (card_line c args))));
     if c =? 87 then card_W r (PState m s rest c true false) else
     match plain_card c with
     | None => Ok None
     | Some f => m ⇐ f r m; Ok (Some (PState m s rest c true false))
     end).
Proof.
  intros Ha Hp Hc. assert (blob_isspace c = false) as Hsp.
  { unfold blob_isspace, schar. rewrite (proj2 (Z.ltb_lt c 128)), (proj2 (Z.eqb_neq c 32)), (proj2 (Z.leb_gt c 13)) by lia. done. }
  destruct (card_words c args Hsp Ha) as (r & Et & Hr). exists r. split; [done|]. unfold card. rewrite Et.
  change (cget (card_line c args) 0) with c. cbn [p_manifest p_sum p_rest p_prev p_header p_seenZ].
  assert (schar c = c) as -> by (unfold schar; by rewrite (proj2 (Z.ltb_lt c 128)) by lia).
  rewrite (proj2 (Z.ltb_ge c prev)) by lia. done.
Qed.

Lemma parse_line n prev c args (m : Manifest D) sum rest hdr :
  Forall plain args -> 45 < c < 128 ->
  parse_cards (S n) (PState m sum (card_line c args ++ rest) prev hdr false) =
  (st ⇐ card (card_line c args) (PState m sum rest prev hdr false); parse_cards n st).
Proof.
  intros Ha Hc. rewrite (parse_step n _ (card_line c args) rest); [done| |done|].
  - cbn [p_rest]. apply card_line_of; [|done].
    unfold blob_isspace, schar. rewrite (proj2 (Z.ltb_lt c 128)), (proj2 (Z.eqb_neq c 32)), (proj2 (Z.leb_gt c 13)) by lia. done.
  - change (cget (card_line c args) 0) with c. lia.
Qed.

(** A card that is read by itself. *)
Lemma reads_card prev c args f (m m' : Manifest D) :
  plain_card c = Some f -> prev <= c -> 45 < c < 87 -> Forall plain args -> Zlen (card_line c args) < 2^31 ->
  (forall l, words l = nonempty args -> f l m = Ok (Some m')) ->
  reads prev (card_line c args) c m m'.
Proof.
  intros Hf Hprev Hc Ha Hl Hm. exists 1%nat. split; [simpl; lia|]. intros n sum x rest hdr Hs.
  destruct (step_text_state sum x (card_line c args) Hs Hl) as (s' & Es & Hs'). exists s'. split; [|done].
  cbn [Nat.add]. rewrite parse_line by (done || lia).
  destruct (card_args prev c args m sum rest hdr Ha Hprev) as (r & Hr & ->); [lia|].
  rewrite (proj2 (Z.eqb_neq c 90)), (proj2 (Z.eqb_neq c 87)), to_int_small, Es, Hf by lia. cbn [oklift obind mbind result_bind].
  rewrite Hm by done. cbn [obind mbind result_bind Nat.eqb negb]. by rewrite orb_true_r.
Qed.

(** ** The Z card *)

Lemma seal_ok junk text :
  length junk = 64%nat -> Zlen text < 2^32 -> seal junk text = Ok (text ++ card_line 90 [DigestToBase16 (md5 text)]).
Proof.
  intros Hj Hl. unfold seal, md5sum_blob.
  destruct (MD5Update_spec _ _ _ _ text (MD5Init_state junk Hj) Hl) as (c & m1 & r & -> & Hst). rewrite bind_Ok.
  destruct (MD5Final_spec _ _ _ _ Hst) as (c' & ->). rewrite !bind_Ok. done.
Qed.

Lemma sealed_parses sum junk text prev (m : Manifest D) :
  length junk = 64%nat -> length (inb (incrCtx sum)) = 64%nat ->
  reads 0 text prev empty_manifest m -> prev <= 90 -> Zlen text < 2^31 ->
  exists content, seal junk text = Ok content /\
    manifest_parse sum content = Ok ((fun t => (t, m)) <$> classify m true).
Proof.
  intros Hj Hi (k & Hk & Hr) Hp Hl. eexists. split; [apply seal_ok; [done|lia]|].
  set (h := DigestToBase16 (md5 text)). pose proof (digest_hex text) as Hh. fold h in Hh.
  pose proof (hex_word 32 h ltac:(lia) Hh) as Hw. pose proof (word_plain h Hw) as Hpl.
  unfold manifest_parse. rewrite length_app.
  replace (S (length text + length (card_line 90 [h]))) with (k + S (S (length text - k + 34)))%nat.
  2: { unfold card_line. simpl. rewrite !length_app. destruct Hh as [Hh _]. simpl. lia. }
  destruct (Hr (S (S (length text - k + 34))) (md5sum_init sum) [] (card_line 90 [h]) false) as (s & -> & Hs); [by split|].
  replace (card_line 90 [h]) with (card_line 90 [h] ++ []) by apply app_nil_r.
  rewrite parse_line by (done || by constructor).
  destruct (card_args prev 90 [h] m s [] (false || negb (k =? 0)%nat)) as (r & Hwr & ->); [by constructor|lia|lia|].
  cbn [Z.eqb Pos.eqb].
  assert (nonempty [h] = [h]) as En by (unfold nonempty; rewrite filter_cons_True; [done|apply Hw]). rewrite En in Hwr.
  unfold card_Z. destruct (some_token_words r h [] Hwr) as (r2 & -> & Hr2); [apply Hw|].
  cbn [obind mbind result_bind]. rewrite no_token_words, hex_token_ok by done. cbn [must obind mbind result_bind p_sum].
  rewrite app_nil_l in Hs. destruct (finish_state s text Hs) as (s2 & -> & _). cbn [oklift obind mbind result_bind].
  rewrite bool_decide_true by done. cbn [must obind mbind result_bind]. rewrite parse_end by done.
  cbn [obind mbind result_bind p_manifest p_header p_seenZ must]. done.
Qed.

(** ** The cards *)

Lemma nonempty_all args : Forall (fun t => t <> []) args -> nonempty args = args.
Proof. apply filter_all. Qed.

Lemma enc_length z : ctext_ok z -> Zlen (enc z) < 2^29.
Proof. intros Hz. destruct (ctext_bytes z Hz) as [Hb _]. pose proof (fossil_length z Hb). destruct Hz. unfold enc. lia. Qed.

Lemma enc_word_ok z : ctext_ok z -> z <> [] -> word_ok (enc z).
Proof. intros Hz Hn. split; [|by apply enc_word]. intros E. by apply Hn, enc_nil. Qed.

Lemma line_length c args : Zlen (card_line c args) = 2 + Zlen args + Zlen (concat args).
Proof.
  unfold card_line. cbn [length]. rewrite length_app.
  assert (Zlen (concat (cons 32 <$> args)) = Zlen args + Zlen (concat args)) as E.
  { induction args as [|a args IH]; [done|]. rewrite fmap_cons. cbn [concat]. rewrite !length_app. simpl. lia. }
  simpl. lia.
Qed.

(** Reads the words of a card one by one. *)
Ltac take_word :=
  match goal with
  | Hw : words ?l = ?t :: ?ws |- context [some_token ?l] =>
      let r := fresh "r" in let Et := fresh "Et" in let Hr := fresh "Hr" in
      destruct (some_token_words l t ws Hw) as (r & Et & Hr);
      [|rewrite Et; cbn [obind mbind result_bind]; clear Et]
  | Hw : words ?l = [] |- context [no_token ?l] => rewrite (no_token_words l Hw); cbn [obind mbind result_bind]
  | Hw : words ?l = _ |- context [token_of ?l] =>
      let r := fresh "r" in let Et := fresh "Et" in let Hr := fresh "Hr" in
      destruct (token_words l) as (r & Et & Hr); rewrite Hw in Et, Hr; cbn [head from_option id tail] in Et, Hr;
      rewrite Et; clear Et
  end.

Lemma card_C_words l z (m : Manifest D) :
  words l = [enc z] -> ctext_ok z -> z <> [] -> zComment m = None -> card_C l m = Ok (Some (set_comment m (Some z))).
Proof.
  intros Hw Hz Hn Hm. unfold card_C. rewrite Hm. cbn [none must obind mbind result_bind].
  take_word; [by apply enc_word_ok|]. take_word. rewrite enc_c_string, defossil_enc by done. done.
Qed.

Lemma card_D_words l d (m : Manifest D) :
  words l = [d] -> word_ok d -> is_zero (rDate m) = true -> card_D l m = Ok (Some (set_date m (julianday d))).
Proof.
  intros Hw Hd Hm. unfold card_D. rewrite Hm. cbn [must obind mbind result_bind].
  take_word; [apply Hd|]. take_word. by rewrite word_c_string.
Qed.

Lemma card_R_words l h (m : Manifest D) :
  words l = [h] -> hex_ok 32 h -> zRepoCksum m = None -> card_R l m = Ok (Some (set_cksum m (Some h))).
Proof.
  intros Hw Hh Hm. pose proof (hex_word 32 h ltac:(lia) Hh) as Hwd. unfold card_R. rewrite Hm. cbn [none must obind mbind result_bind].
  take_word; [apply Hwd|]. take_word. rewrite hex_token_ok by done. cbn [must obind mbind result_bind].
  by rewrite word_c_string.
Qed.

Definition user_of (u : list Z) : list Z := if bool_decide (u = []) then cstr "anonymous" else u.
Lemma card_U_words l u (m : Manifest D) :
  words l = nonempty [enc u] -> ctext_ok u -> zUser m = None -> card_U l m = Ok (Some (set_user m (Some (user_of u)))).
Proof.
  intros Hw Hu Hm. unfold card_U, user_of. rewrite Hm. cbn [none must obind mbind result_bind].
  destruct (decide (u = [])) as [->|Hn].
  - change (nonempty [enc []]) with (@nil (list Z)) in Hw. take_word. rewrite bool_decide_true by done.
    cbn [obind mbind result_bind]. take_word. done.
  - assert (enc u <> []) as He by (intros E; by apply Hn, enc_nil).
    rewrite nonempty_all in Hw by (by repeat constructor). take_word. rewrite !bool_decide_false by done.
    rewrite enc_c_string, defossil_enc by done. cbn [oklift obind mbind result_bind]. take_word. done.
Qed.

(** An array after an element is added. *)
Definition grown {A} (extra : Z) (a : slots A) (x : A) : slots A :=
  Slots (items a ++ [x]) (if Zlen (items a) >=? allocated a then allocated a * 2 + extra else allocated a).
Lemma slot_add_grown {A} extra (a : slots A) x :
  slots_ok a -> 0 < extra -> slot_add extra a x = Ok (grown extra a x) /\ slots_ok (grown extra a x).
Proof.
  intros Ha He. destruct (slot_add_total extra a x Ha He) as (a' & E). pose proof E as E2.
  apply slot_add_spec in E2 as [_ Hok]; [|done|lia].
  assert (a' = grown extra a x) as -> by (unfold slot_add in E; by res_inv). done.
Qed.

(** *** Files *)

Definition vfile_ok (f : vfile) : Prop :=
  ctext_ok (pathname f) /\ file_is_simple_pathname (pathname f) = true /\ hex_ok UUID_SIZE (vuuid f) /\
  (forall o, origname f = Some o -> ctext_ok o /\ file_is_simple_pathname o = true).

(** The name before a rename. *)
Definition renamed_from (f : vfile) : option (list Z) :=
  match origname f with Some o => if bool_decide (o = pathname f) then None else Some o | None => None end.
Definition file_args (f : vfile) : list (list Z) :=
  match renamed_from f with
  | Some o => [enc (pathname f); vuuid f; if isexe f then [120] else [119]; enc o]
  | None => enc (pathname f) :: vuuid f :: (if isexe f then [[120]] else [])
  end.
Definition file_of (f : vfile) : mfile :=
  MFile (pathname f) (vuuid f) (if isexe f then [120] else match renamed_from f with Some _ => [119] | None => [] end)
    (renamed_from f) (-1).

Lemma simple_nonempty z : file_is_simple_pathname z = true -> z <> [].
Proof. by destruct z. Qed.

Lemma file_line_args f : vfile_ok f -> file_line f = Ok (card_line 70 (file_args f)).
Proof.
  intros (Hz & _ & _ & Ho). unfold file_line, file_args, renamed_from. rewrite fmt_F_enc, bind_Ok by done.
  destruct (origname f) as [o|]; [|done]. case_bool_decide; [done|].
  destruct (Ho o eq_refl) as [Hco _]. by rewrite fmt_F_enc, bind_Ok.
Qed.

Lemma file_args_words f : vfile_ok f -> Forall word_ok (file_args f).
Proof.
  intros (Hz & Hs & Hu & Ho). assert (forall o, renamed_from f = Some o -> origname f = Some o) as Hr.
  { unfold renamed_from. intros o. destruct (origname f); [|done]. by case_bool_decide. }
  assert (word_ok (enc (pathname f))) by (apply enc_word_ok; [done|by apply simple_nonempty]).
  assert (word_ok (vuuid f)) by (by apply (hex_word UUID_SIZE)).
  assert (word_ok [120] /\ word_ok [119]) as [? ?] by (split; split; [done|by repeat constructor..]).
  unfold file_args. destruct (renamed_from f) as [o|] eqn:Eo.
  - destruct (Ho o (Hr o eq_refl)) as [Hco Hso]. rewrite !list.Forall_cons.
    split_and!; try done; [by destruct (isexe f)|apply enc_word_ok; [done|by apply simple_nonempty]].
  - rewrite !list.Forall_cons. split_and!; try done. destruct (isexe f); rewrite ?list.Forall_cons; done.
Qed.

Lemma card_F_words l f (m : Manifest D) :
  words l = file_args f -> vfile_ok f -> slots_ok (aFile m) ->
  in_order f_name (items (aFile m)) (pathname f) = true ->
  card_F l m = Ok (Some (set_files m (grown 10 (aFile m) (file_of f)))).
Proof.
  intros Hw Hf Hs Ho. pose proof (file_args_words f Hf) as Hargs. destruct Hf as (Hz & Hsim & Hu & Hor).
  destruct (slot_add_grown 10 (aFile m) (file_of f) Hs) as [Hadd _]; [lia|].
  assert (word_ok (vuuid f)) as Hwu by (by apply (hex_word UUID_SIZE)).
  assert (enc (pathname f) <> []) as Hen by (intros E; by apply (simple_nonempty _ Hsim), enc_nil).
  unfold card_F, file_args in *. destruct (renamed_from f) as [o|] eqn:Eo.
  - assert (ctext_ok o /\ file_is_simple_pathname o = true) as [Hco Hso].
    { apply Hor. revert Eo. unfold renamed_from. destruct (origname f); [|done]. by case_bool_decide; [|intros [= ->]]. }
    assert (enc o <> []) as Heo by (intros E; by apply (simple_nonempty _ Hso), enc_nil).
    take_word; [done|]. take_word; [apply Hwu|]. take_word. rewrite hex_token_ok by done. cbn [must obind mbind result_bind].
    rewrite enc_c_string, defossil_enc by done. cbn [oklift obind mbind result_bind]. rewrite Hsim. cbn [must obind mbind result_bind].
    take_word. rewrite (enc_c_string o) by done. rewrite bool_decide_false by done. rewrite defossil_enc by done.
    cbn [oklift obind mbind result_bind]. rewrite Hso. cbn [must obind mbind result_bind].
    rewrite (word_c_string (vuuid f)) by done. unfold file_of in Hadd. rewrite Eo in Hadd.
    replace (c_string (if isexe f then [120] else [119])) with (if isexe f then [120] else [119]) by (by destruct (isexe f)).
    rewrite Hadd. cbn [oklift obind mbind result_bind]. rewrite Ho. cbn [must obind mbind result_bind].
    unfold file_of. by rewrite Eo.
  - take_word; [done|]. take_word; [apply Hwu|]. destruct (token_words r0) as (r1 & E1 & Hr1). rewrite Hr0 in E1, Hr1. rewrite E1.
    rewrite hex_token_ok by done. cbn [must obind mbind result_bind].
    rewrite enc_c_string, defossil_enc by done. cbn [oklift obind mbind result_bind]. rewrite Hsim. cbn [must obind mbind result_bind].
    assert (words r1 = []) as Hr1' by (rewrite Hr1; by destruct (isexe f)). take_word.
    rewrite bool_decide_true by done. cbn [obind mbind result_bind].
    rewrite (word_c_string (vuuid f)) by done. unfold file_of in Hadd. rewrite Eo in Hadd.
    replace (c_string (default [] (head (if isexe f then [[120]] else [])))) with (if isexe f then [120] else ([] : list Z))
      by (by destruct (isexe f)).
    rewrite Hadd. cbn [oklift obind mbind result_bind]. rewrite Ho. cbn [must obind mbind result_bind].
    unfold file_of. by rewrite Eo.
Qed.

Lemma sorted_in_order {A} (name : A -> list Z) (l : list A) z r : sorted ((name <$> l) ++ z :: r) -> in_order name l z = true.
Proof.
  intros Hs. unfold in_order. destruct (list.last l) as [y|] eqn:El; [|done]. apply last_Some in El as (l' & ->).
  rewrite fmap_app, <- app_assoc in Hs. cbn [fmap list_fmap app] in Hs.
  assert (str_lt (name y) z) as Hlt.
  { eapply (sorted_lookup _ (length (name <$> l')) (S (length (name <$> l')))); [exact Hs|lia|..].
    - by rewrite lookup_app_r, Nat.sub_diag by lia.
    - rewrite lookup_app_r by lia. by replace (S _ - _)%nat with 1%nat by lia. }
  unfold str_lt in Hlt. rewrite Z.geb_leb. apply negb_true_iff, Z.leb_gt. done.
Qed.

Lemma file_line_length f : vfile_ok f -> Zlen (card_line 70 (file_args f)) < 2^31.
Proof.
  intros (Hz & _ & [Hu _] & Ho). rewrite line_length. pose proof (enc_length _ Hz). unfold UUID_SIZE in Hu.
  assert (forall o, renamed_from f = Some o -> ctext_ok o) as Hr.
  { unfold renamed_from. intros o. destruct (origname f) as [o'|]; [|done]. case_bool_decide; [done|]. intros [= ->]. by apply Ho. }
  unfold file_args. destruct (renamed_from f) as [o|].
  - pose proof (enc_length o (Hr o eq_refl)). cbn [concat length]. rewrite !length_app. destruct (isexe f); simpl; lia.
  - destruct (isexe f); cbn [concat length]; rewrite !length_app; simpl; lia.
Qed.

Definition files_text (fs : list vfile) : list Z := concat ((fun f => card_line 70 (file_args f)) <$> fs).

Lemma file_lines_text fs : Forall vfile_ok fs -> file_lines fs = Ok (files_text fs).
Proof.
  induction 1 as [|f fs Hf _ IH]; [done|]. cbn [file_lines]. rewrite file_line_args, bind_Ok, IH, bind_Ok by done.
  unfold files_text. by rewrite concat_cons.
Qed.

Lemma read_files fs prev (m : Manifest D) :
  prev <= 70 -> Forall vfile_ok fs -> slots_ok (aFile m) ->
  sorted ((f_name <$> items (aFile m)) ++ (pathname <$> fs)) ->
  exists s q, reads prev (files_text fs) q m (set_files m s) /\ q <= 70 /\
    slots_ok s /\ items s = items (aFile m) ++ (file_of <$> fs).
Proof.
  intros Hp Hf. revert prev m Hp. induction Hf as [|f fs Hf Hfs IH]; intros prev m Hp Hs Ho.
  - exists (aFile m), prev. rewrite app_nil_r. split_and!; try done. destruct m. apply cards_nil.
  - pose proof (file_args_words f Hf) as Hw.
    destruct (slot_add_grown 10 (aFile m) (file_of f) Hs) as [_ Hg]; [lia|].
    destruct (IH 70 (set_files m (grown 10 (aFile m) (file_of f)))) as (s & q & Hr & Hq & Hs' & Hi); [lia|done| |].
    { cbn [aFile set_files grown items]. rewrite fmap_app, <- app_assoc. exact Ho. }
    exists s, q. unfold files_text. rewrite concat_cons. split_and!; try done.
    + eapply cards_app; [|exact Hr]. apply (reads_card prev 70 _ card_F); try done; [|by apply file_line_length|].
      { eapply Forall_impl; [|exact Hw]. apply word_plain. }
      intros l Hl. rewrite nonempty_all in Hl by (eapply Forall_impl; [|exact Hw]; by intros t []).
      apply card_F_words; try done. eapply sorted_in_order. exact Ho.
    + rewrite Hi. cbn [aFile set_files grown items]. rewrite fmap_cons, <- app_assoc. done.
Qed.

(** *** Parents *)

Lemma foldl_grown {A} extra (us : list A) ps :
  slots_ok ps -> 0 < extra -> slots_ok (foldl (grown extra) ps us) /\ items (foldl (grown extra) ps us) = items ps ++ us.
Proof.
  intros Hs He. revert ps Hs. induction us as [|u us IH]; intros ps Hs; cbn [foldl]; [by rewrite app_nil_r|].
  destruct (slot_add_grown extra ps u Hs He) as [_ Hg]. destruct (IH _ Hg) as [H1 H2]. split; [done|].
  rewrite H2. cbn [items grown]. by rewrite <- app_assoc.
Qed.

Lemma parents_words n l us ps :
  words l = us -> Forall (hex_ok UUID_SIZE) us -> slots_ok ps -> (length us < n)%nat ->
  parents_loop n l ps = Ok (Some (foldl (grown 5) ps us)).
Proof.
  intros Hw Hu. revert n l ps Hw. induction Hu as [|u us Hu _ IH]; intros n l ps Hw Hs Hn; (destruct n as [|n]; [simpl in Hn; lia|]);
    cbn [parents_loop].
  - take_word. by rewrite bool_decide_true.
  - take_word. pose proof (hex_word UUID_SIZE u ltac:(unfold UUID_SIZE; lia) Hu) as Hwu.
    rewrite bool_decide_false by apply Hwu. rewrite hex_token_ok by done. cbn [must obind mbind result_bind].
    rewrite word_c_string by done. destruct (slot_add_grown 5 ps u Hs) as [-> Hg]; [lia|]. cbn [oklift obind mbind result_bind].
    apply IH; [done|done|simpl in Hn; lia].
Qed.

Lemma words_length l : (length (words l) <= length l)%nat.
Proof.
  assert (forall l acc, (length (words_aux l acc) <= length l + length (nonempty [acc]))%nat) as H1.
  2: { specialize (H1 l []). change (nonempty [[]]) with (@nil (list Z)) in H1. cbn [length] in H1. unfold words. lia. }
  clear l. intros l. induction l as [|c l IH]; intros acc; cbn [words_aux].
  - by destruct acc.
  - destruct (blob_isspace c); [|pose proof (IH (acc ++ [c]))]; cbn [length].
    + pose proof (IH []) as H0. change (nonempty [[]]) with (@nil (list Z)) in H0. cbn [length] in H0.
      destruct acc; [lia|]. change (length (nonempty [_ :: _])) with 1%nat. cbn [length]. lia.
    + assert (length (nonempty [acc ++ [c]]) = 1%nat) as E by (destruct acc; done). destruct acc; simpl in *; lia.
Qed.

Lemma hex_words us : Forall (hex_ok UUID_SIZE) us -> Forall word_ok us.
Proof. intros Hu. eapply Forall_impl; [|exact Hu]. intros u. apply hex_word. unfold UUID_SIZE. lia. Qed.

Lemma hex_line_length c us : Forall (hex_ok UUID_SIZE) us -> Zlen (card_line c us) = 2 + 41 * Zlen us.
Proof.
  intros Hu. rewrite line_length. induction Hu as [|u us [Hu _] _ IH]; [done|]. unfold UUID_SIZE in Hu.
  cbn [concat length]. rewrite length_app. cbn [length] in IH. lia.
Qed.

Lemma read_parents us prev (m : Manifest D) :
  prev <= 80 -> Forall (hex_ok UUID_SIZE) us -> slots_ok (azParent m) -> 41 * Zlen us < 2^31 - 3 ->
  reads prev (card_line 80 us) 80 m (set_parents m (foldl (grown 5) (azParent m) us)).
Proof.
  intros Hp Hu Hs Hl. pose proof (hex_words us Hu) as Hw. apply (reads_card prev 80 us card_P); try done.
  - eapply Forall_impl; [|exact Hw]. apply word_plain.
  - rewrite hex_line_length by done. lia.
  - intros l E. rewrite nonempty_all in E by (eapply Forall_impl; [|exact Hw]; by intros t []).
    unfold card_P. rewrite (parents_words _ l us) by (try done; pose proof (words_length l); rewrite E in *; lia). done.
Qed.

(** *** Tags *)

Definition tag_args (t : mtag) : list (list Z) :=
  enc (t_name t) :: default [42] (t_uuid t) :: match t_value t with Some v => [enc v] | None => [] end.
Record tag_good (t : mtag) : Prop := {
  good_name : ctext_ok (t_name t);
  good_kind : cget (t_name t) 0 = 45 \/ cget (t_name t) 0 = 43 \/ cget (t_name t) 0 = 42;
  good_not_hex : validate16 (drop 1 (t_name t)) (length (drop 1 (t_name t))) = false;
  good_uuid : forall u, t_uuid t = Some u -> hex_ok UUID_SIZE u;
  good_value : forall v, t_value t = Some v -> ctext_ok v /\ v <> []
}.

Lemma tag_target_word t : tag_good t -> word_ok (default [42] (t_uuid t)).
Proof.
  intros Ht. destruct (t_uuid t) as [u|] eqn:E; [|split; [done|by repeat constructor]].
  apply (hex_word UUID_SIZE); [done|]. by apply (good_uuid t Ht).
Qed.
Lemma tag_name_word t : tag_good t -> word_ok (enc (t_name t)).
Proof.
  intros Ht. apply enc_word_ok; [apply Ht|]. intros E. destruct (good_kind t Ht) as [Hk|[Hk|Hk]]; by rewrite E in Hk.
Qed.

Lemma tag_args_words t : tag_good t -> Forall word_ok (tag_args t).
Proof.
  intros Ht. unfold tag_args. rewrite !list.Forall_cons. split_and!; [by apply tag_name_word|by apply tag_target_word|].
  destruct (t_value t) as [v|] eqn:E; [|constructor]. rewrite list.Forall_cons. split; [|constructor].
  destruct (good_value t Ht v E). by apply enc_word_ok.
Qed.

Lemma tag_line_length t : tag_good t -> Zlen (card_line 84 (tag_args t)) < 2^31.
Proof.
  intros Ht. rewrite line_length. pose proof (enc_length _ (good_name t Ht)) as Hn. unfold tag_args.
  assert (Zlen (default [42] (t_uuid t)) <= 40) as Hu.
  { destruct (t_uuid t) as [u|] eqn:E; [|done]. destruct (good_uuid t Ht u E) as [Hl _]. unfold UUID_SIZE in Hl. simpl. lia. }
  destruct (t_value t) as [v|] eqn:E; cbn [concat length]; rewrite !length_app; [|simpl; lia].
  destruct (good_value t Ht v E) as [Hv _]. pose proof (enc_length v Hv). simpl. lia.
Qed.

Lemma card_T_words l t (m : Manifest D) :
  words l = tag_args t -> tag_good t -> slots_ok (aTag m) -> in_order t_name (items (aTag m)) (t_name t) = true ->
  card_T l m = Ok (Some (set_tags m (grown 10 (aTag m) t))).
Proof.
  intros Hw Ht Hs Ho. destruct (slot_add_grown 10 (aTag m) t Hs) as [Hadd _]; [lia|]. unfold card_T, tag_args in *.
  pose proof (tag_name_word t Ht) as Hwn. pose proof (tag_target_word t Ht) as Hwt.
  take_word; [apply Hwn|]. take_word; [apply Hwt|].
  assert (exists r1, token_of r0 = (default [] (enc <$> t_value t), r1)) as [r1 ->].
  { destruct (token_words r0) as (r1 & E1 & _). exists r1. rewrite E1, Hr0. by destruct (t_value t). }
  assert ((if bool_decide (default [] (enc <$> t_value t) = []) then Ok (Some None)
           else z ⇐ oklift (defossil (c_string (default [] (enc <$> t_value t)))); Ok (Some (Some z))) = Ok (Some (t_value t))) as ->.
  { destruct (t_value t) as [v|] eqn:E; [|by rewrite bool_decide_true]. destruct (good_value t Ht v E) as [Hv Hn]. cbn [fmap option_fmap option_map from_option id].
    rewrite bool_decide_false by (intros E0; by apply Hn, enc_nil). by rewrite enc_c_string, defossil_enc by done. }
  cbn [obind mbind result_bind].
  assert ((if hex_token UUID_SIZE (default [42] (t_uuid t)) then Some (Some (c_string (default [42] (t_uuid t))))
           else if bool_decide (default [42] (t_uuid t) = [42]) then Some None else None) = Some (t_uuid t)) as ->.
  { destruct (t_uuid t) as [u|] eqn:E; [|done]. pose proof (good_uuid t Ht u E) as Hu. cbn [from_option id] in *.
    by rewrite hex_token_ok, word_c_string by done. }
  cbn [obind mbind result_bind]. rewrite enc_c_string, defossil_enc by apply Ht. cbn [oklift obind mbind result_bind].
  assert ((cget (t_name t) 0 =? 45) || (cget (t_name t) 0 =? 43) || (cget (t_name t) 0 =? 42) = true) as ->
    by (destruct (good_kind t Ht) as [->|[->| ->]]; done).
  cbn [must obind mbind result_bind]. rewrite (good_not_hex t Ht). cbn [negb must obind mbind result_bind].
  replace (MTag (t_name t) (t_uuid t) (t_value t)) with t by (by destruct t).
  rewrite Hadd. cbn [oklift obind mbind result_bind]. by rewrite Ho.
Qed.

Lemma read_tags ts prev (m : Manifest D) :
  prev <= 84 -> Forall tag_good ts -> slots_ok (aTag m) -> sorted ((t_name <$> items (aTag m)) ++ (t_name <$> ts)) ->
  exists s q, reads prev (concat ((fun t => card_line 84 (tag_args t)) <$> ts)) q m (set_tags m s) /\ q <= 84 /\
    slots_ok s /\ items s = items (aTag m) ++ ts.
Proof.
  intros Hp Ht. revert prev m Hp. induction Ht as [|t ts Ht _ IH]; intros prev m Hp Hs Ho.
  - exists (aTag m), prev. rewrite app_nil_r. split_and!; try done. destruct m. apply cards_nil.
  - destruct (slot_add_grown 10 (aTag m) t Hs) as [_ Hg]; [lia|].
    destruct (IH 84 (set_tags m (grown 10 (aTag m) t))) as (s & q & Hr & Hq & Hs' & Hi); [lia|done| |].
    { cbn [aTag set_tags grown items]. rewrite fmap_app, <- app_assoc. exact Ho. }
    pose proof (tag_args_words t Ht) as Hw.
    exists s, q. split_and!; try done.
    + rewrite concat_cons. eapply cards_app; [|exact Hr].
      apply (reads_card prev 84 _ card_T); try done; [|by apply tag_line_length|].
      { eapply Forall_impl; [|exact Hw]. apply word_plain. }
      intros l Hl. rewrite nonempty_all in Hl by (eapply Forall_impl; [|exact Hw]; by intros x []).
      apply card_T_words; try done. eapply sorted_in_order. exact Ho.
    + rewrite Hi. cbn [aTag set_tags grown items]. by rewrite <- app_assoc.
Qed.

(** *** Cards with one argument *)

Lemma read_comment z prev (m : Manifest D) :
  prev <= 67 -> ctext_ok z -> z <> [] -> zComment m = None ->
  reads prev (card_line 67 [enc z]) 67 m (set_comment m (Some z)).
Proof.
  intros Hp Hz Hn Hm. pose proof (enc_word_ok z Hz Hn) as Hw. apply (reads_card prev 67 _ card_C); try done.
  - constructor; [by apply word_plain|constructor].
  - rewrite line_length. cbn [concat length]. rewrite app_nil_r. pose proof (enc_length z Hz). lia.
  - intros l E. rewrite nonempty_all in E by (constructor; [apply Hw|constructor]). by apply card_C_words.
Qed.

Lemma read_date d prev (m : Manifest D) :
  prev <= 68 -> word_ok d -> Zlen d + 3 < 2^31 -> is_zero (rDate m) = true ->
  reads prev (card_line 68 [d]) 68 m (set_date m (julianday d)).
Proof.
  intros Hp Hw Hl Hm. apply (reads_card prev 68 _ card_D); try done.
  - constructor; [by apply word_plain|constructor].
  - rewrite line_length. cbn [concat length]. rewrite app_nil_r. lia.
  - intros l E. rewrite nonempty_all in E by (constructor; [apply Hw|constructor]). by apply card_D_words.
Qed.

Lemma read_cksum h prev (m : Manifest D) :
  prev <= 82 -> hex_ok 32 h -> zRepoCksum m = None ->
  reads prev (card_line 82 [h]) 82 m (set_cksum m (Some h)).
Proof.
  intros Hp Hh Hm. pose proof (hex_word 32 h ltac:(lia) Hh) as Hw. apply (reads_card prev 82 _ card_R); try done.
  - constructor; [by apply word_plain|constructor].
  - rewrite line_length. cbn [concat length]. rewrite app_nil_r. destruct Hh as [-> _]. lia.
  - intros l E. rewrite nonempty_all in E by (constructor; [apply Hw|constructor]). by apply card_R_words.
Qed.

Lemma read_user u prev (m : Manifest D) :
  prev <= 85 -> ctext_ok u -> zUser m = None ->
  exists text, user_line u = Ok text /\ reads prev text 85 m (set_user m (Some (user_of u))).
Proof.
  intros Hp Hu Hm. exists (card_line 85 [enc u]). unfold user_line. rewrite fmt_F_enc, bind_Ok by done. split; [done|].
  apply (reads_card prev 85 _ card_U); try done.
  - constructor; [by apply enc_plain|constructor].
  - rewrite line_length. cbn [concat length]. rewrite app_nil_r. pose proof (enc_length u Hu). lia.
  - intros l E. by apply card_U_words.
Qed.

Lemma read_title z prev (m : Manifest D) :
  prev <= 76 -> ctext_ok z -> wiki_name_is_wellformed z = true -> zWikiTitle m = None ->
  reads prev (card_line 76 [enc z]) 76 m (set_title m (Some z)).
Proof.
  intros Hp Hz Hn Hm. assert (word_ok (enc z)) as Hw by (apply enc_word_ok; [done|intros ->; done]).
  apply (reads_card prev 76 _ card_L); try done.
  - constructor; [by apply word_plain|constructor].
  - rewrite line_length. cbn [concat length]. rewrite app_nil_r. pose proof (enc_length z Hz). lia.
  - intros l E. rewrite nonempty_all in E by (constructor; [apply Hw|constructor]). unfold card_L. rewrite Hm.
    cbn [none must obind mbind result_bind]. take_word; [apply Hw|]. take_word.
    rewrite enc_c_string, defossil_enc by done. cbn [oklift obind mbind result_bind]. by rewrite Hn.
Qed.

(** *** Members of a cluster *)

Lemma read_members us prev (m : Manifest D) :
  prev <= 77 -> Forall (hex_ok UUID_SIZE) us -> slots_ok (azCChild m) -> sorted (items (azCChild m) ++ us) ->
  exists s q, reads prev (concat ((fun u => card_line 77 [u]) <$> us)) q m (set_children m s) /\ q <= 77 /\
    slots_ok s /\ items s = items (azCChild m) ++ us.
Proof.
  intros Hp Hu. revert prev m Hp. induction Hu as [|u us Hu _ IH]; intros prev m Hp Hs Ho.
  - exists (azCChild m), prev. rewrite app_nil_r. split_and!; try done. destruct m. apply cards_nil.
  - destruct (slot_add_grown 10 (azCChild m) u Hs) as [Hadd Hg]; [lia|].
    destruct (IH 77 (set_children m (grown 10 (azCChild m) u))) as (s & q & Hr & Hq & Hs' & Hi); [lia|done| |].
    { cbn [azCChild set_children grown items]. by rewrite <- app_assoc. }
    pose proof (hex_word UUID_SIZE u ltac:(unfold UUID_SIZE; lia) Hu) as Hw.
    exists s, q. split_and!; try done.
    + rewrite concat_cons. eapply cards_app; [|exact Hr]. apply (reads_card prev 77 _ card_M); try done.
      { constructor; [by apply word_plain|constructor]. }
      { rewrite hex_line_length by (by constructor). simpl. lia. }
      intros l El. rewrite nonempty_all in El by (constructor; [apply Hw|constructor]). unfold card_M.
      take_word; [apply Hw|]. rewrite hex_token_ok by done. cbn [must obind mbind result_bind].
      rewrite word_c_string, Hadd by done. cbn [oklift obind mbind result_bind].
      by rewrite (sorted_in_order id _ u us) by (by rewrite list_fmap_id).
    + rewrite Hi. cbn [azCChild set_children grown items]. by rewrite <- app_assoc.
Qed.

(** *** The text of a page *)

Lemma int_loop_digits fuel n t i :
  0 <= n < 10 ^ Z.of_nat fuel -> n + 48 <= INT_MAX ->
  int_loop (digits fuel n ++ t) 0 i = int_loop t n (i + Zlen (digits fuel n)).
Proof.
  revert n t i. induction fuel as [|fuel IH]; intros n t i Hn Hm.
  - cbn [digits length app]. simpl in Hn. replace n with 0 by lia. f_equal. lia.
  - cbn [digits]. rewrite <- app_assoc. cbn [app]. assert (0 <= n mod 10 < 10) as Hd by dlia.
    assert (forall v j, 0 <= v -> v * 10 + n mod 10 = n -> int_loop (48 + n mod 10 :: t) v j = int_loop t n (j + 1)) as Hstep.
    { intros v j Hv Hvn. cbn [int_loop].
      assert (schar (48 + n mod 10) = 48 + n mod 10) as Hsc by (unfold schar; by rewrite (proj2 (Z.ltb_lt _ _)) by lia).
      rewrite Hsc. unfold isdigit. rewrite (proj2 (Z.eqb_neq _ 0)), !(proj2 (Z.leb_le _ _)) by lia. cbn [negb andb].
      rewrite i32_ok, bind_Ok by (unfold INT_MIN, INT_MAX in *; lia).
      rewrite i32_ok, bind_Ok by (unfold INT_MIN, INT_MAX in *; lia).
      rewrite i32_ok, bind_Ok by (unfold INT_MIN, INT_MAX in *; lia). f_equal. lia. }
    rewrite length_app. cbn [length]. destruct (Z.ltb_spec n 10) as [Hlt|Hge].
    + cbn [app length]. rewrite (Hstep 0) by dlia. done.
    + rewrite Nat2Z.inj_succ, Z.pow_succ_r in Hn by lia.
      rewrite IH by (try dlia). rewrite (Hstep (n / 10)) by dlia. f_equal. lia.
Qed.

Lemma digits_word fuel n : 0 <= n -> (0 < fuel)%nat -> word_ok (digits fuel n).
Proof.
  intros Hn Hf. split; [destruct fuel; [lia|]; cbn [digits]; intros E; by apply app_eq_nil in E as [_ E]|].
  clear Hf. revert n Hn. induction fuel as [|fuel IH]; intros n Hn; [constructor|]. cbn [digits]. apply Forall_app. split.
  - destruct (n <? 10); [constructor|]. apply IH. dlia.
  - constructor; [|constructor]. assert (0 <= n mod 10 < 10) as Hd by dlia. split; [lia|].
    unfold blob_isspace, schar. rewrite (proj2 (Z.ltb_lt _ 128)) by lia.
    rewrite (proj2 (Z.eqb_neq _ 32)), (proj2 (Z.leb_gt _ 13)) by lia. done.
Qed.

Lemma digits_length fuel n : Zlen (digits fuel n) <= Z.of_nat fuel.
Proof.
  revert n. induction fuel as [|fuel IH]; intros n; cbn [digits length]; [lia|]. rewrite length_app. cbn [length].
  destruct (n <? 10); cbn [length]; [lia|]. specialize (IH (n / 10)). lia.
Qed.

(** The page may hold any characters but NUL. *)
Lemma read_wiki z prev (m : Manifest D) :
  prev <= 87 -> Forall (fun c => c <> 0) z -> Zlen z < 2^30 -> zWiki m = None ->
  reads prev (card_line 87 [dec (Zlen z)] ++ z ++ [10]) 87 m (set_wiki m (Some z)).
Proof.
  intros Hp Hz Hl Hm. exists 1%nat. split; [rewrite length_app; simpl; lia|]. intros n sum x rest hdr Hs.
  unfold dec. rewrite (proj2 (Z.ltb_ge (Zlen z) 0)) by lia. set (ds := digits 20 (Zlen z)).
  pose proof (digits_word 20 (Zlen z) ltac:(lia) ltac:(lia)) as Hw. fold ds in Hw.
  pose proof (digits_length 20 (Zlen z)) as Hdl. fold ds in Hdl.
  assert (Forall plain [ds]) as Hpl by (constructor; [by apply word_plain|constructor]).
  destruct (step_text_state sum x (card_line 87 [ds]) Hs) as (s1 & E1 & Hs1).
  { rewrite line_length. cbn [concat length]. rewrite app_nil_r. lia. }
  destruct (step_text_state s1 (x ++ card_line 87 [ds]) (z ++ [10]) Hs1) as (s2 & E2 & Hs2); [rewrite length_app; simpl; lia|].
  exists s2. split; [|by rewrite app_assoc]. cbn [Nat.add]. rewrite <- app_assoc, parse_line by (done || lia).
  destruct (card_args prev 87 [ds] m sum ((z ++ [10]) ++ rest) hdr Hpl) as (r & Hr & ->); [lia|lia|].
  cbn [Z.eqb Pos.eqb]. rewrite to_int_small, E1 by (rewrite line_length; cbn [concat length]; rewrite app_nil_r; lia). cbn [oklift obind mbind result_bind].
  rewrite nonempty_all in Hr by (constructor; [apply Hw|constructor]). unfold card_W.
  take_word; [apply Hw|]. take_word.
  assert (int_loop ds 0 0 = Ok (Zlen z, Zlen ds)) as Ei.
  { rewrite <- (app_nil_r ds) at 1. unfold ds. rewrite int_loop_digits; [done| |unfold INT_MAX; lia].
    split; [lia|]. change (10 ^ Z.of_nat 20) with 100000000000000000000. lia. }
  rewrite Ei. cbn [oklift obind mbind result_bind]. rewrite Z.eqb_refl. cbn [must obind mbind result_bind].
  rewrite (proj2 (Z.leb_le 0 (Zlen z))) by lia. cbn [must obind mbind result_bind p_manifest]. rewrite Hm.
  cbn [none must obind mbind result_bind]. rewrite i32_ok by (unfold INT_MIN, INT_MAX; lia). cbn [oklift obind mbind result_bind p_rest].
  assert (Z.to_nat (Zlen z + 1) = length (z ++ [10])) as En by (rewrite length_app; simpl; lia).
  rewrite En, take_app_length. rewrite (proj2 (Z.eqb_eq (Zlen (z ++ [10])) (Zlen z + 1))) by lia.
  cbn [must obind mbind result_bind p_sum]. replace (Zlen z + 1) with (Zlen (z ++ [10])) by lia.
  rewrite E2. cbn [oklift obind mbind result_bind].
  assert (cget (z ++ [10]) (Zlen z) = 10) as ->.
  { unfold cget. rewrite (proj2 (Z.ltb_ge _ 0)) by lia. rewrite Nat2Z.id, app_nth2 by lia. by rewrite Nat.sub_diag. }
  cbn [Z.eqb Pos.eqb must obind mbind result_bind p_rest p_prev p_header p_seenZ].
  rewrite drop_app_length, Nat2Z.id, take_app_length, c_string_id by done. cbn [Nat.eqb negb]. by rewrite orb_true_r.
Qed.
End Reads.
