(* ===== verification/ArtifactTrip.v ===== *)
(** * Control artifacts: round trips

    A check-in, a cluster and a wiki page that the program writes are read back as what
    they were; an attachment or a ticket change may not be. *)

From Stdlib Require Import Sorted.
From S2P Require Import Prelude Encode EncodeSpec Blob BlobSpec Md5 Md5Spec DiffOut.
From S2P Require Import Manifest ManifestSpec ManifestSum Artifact ArtifactSpec.
#[local] Open Scope Z_scope.
#[local] Arguments cstr s%_string.

(** ** Check-ins *)

(** What [commit_cmd] has gathered when it writes the manifest. *)
Record checkin := Checkin {
  c_comment : list Z;
  c_date : list Z;
  c_files : list vfile;
  c_parent : list Z;
  c_merges : list (list Z);
  c_cksum : list Z;
  c_branch : option (list Z);
  c_bgcolor : option (list Z);
  c_cancelled : list (list Z);
  c_user : list Z
}.
Definition write_checkin (junk : list Z) (c : checkin) : result (list Z) :=
  commit_manifest junk (c_comment c) (c_date c) (c_files c) (c_parent c) (c_merges c) (c_cksum c) (c_branch c)
    (c_bgcolor c) (c_cancelled c) (c_user c).

Definition comment_of (z : list Z) : list Z := if Zlen z =? 0 then cstr "(no comment)" else z.

(** The tags of the card lines for a new branch. *)
Definition branch_tags (zBranch zBgColor : option (list Z)) (cancelled : list (list Z)) : list mtag :=
  match zBranch with
  | Some ((_ :: _) as b) =>
      match zBgColor with Some ((_ :: _) as c) => [MTag (cstr "*bgcolor") None (Some c)] | _ => [] end ++
      [MTag (cstr "*branch") None (Some b); MTag (cstr "*sym-" ++ b) None None] ++
      ((fun t => MTag (45 :: t) None None) <$> cancelled)
  | _ => []
  end.

(** The rows of the query for the tags of other branches: their names start with [sym-]. *)
Record branch_ok (zBranch zBgColor : option (list Z)) (cancelled : list (list Z)) : Prop := {
  branch_text : forall b, zBranch = Some b -> ctext_ok (cstr "*sym-" ++ b);
  branch_color : forall c, zBgColor = Some c -> ctext_ok c;
  branch_cancel : Forall (fun t => ctext_ok (45 :: t) /\ take 4 t = cstr "sym-") cancelled;
  branch_order : sorted cancelled
}.

Lemma enc_app x y : enc (x ++ y) = enc x ++ enc y.
Proof. unfold enc. by rewrite fmap_app, concat_app. Qed.

Lemma ctext_app_r x y : ctext_ok (x ++ y) -> ctext_ok y.
Proof. intros [Hf Hl]. apply Forall_app in Hf as [_ Hf]. rewrite length_app in Hl. split; [done|lia]. Qed.

Definition tags_text (ts : list mtag) : list Z := concat ((fun t => card_line 84 (tag_args t)) <$> ts).
Lemma tags_text_app x y : tags_text (x ++ y) = tags_text x ++ tags_text y.
Proof. unfold tags_text. by rewrite fmap_app, concat_app. Qed.

Lemma cancel_lines_text ts :
  Forall (fun t => ctext_ok (45 :: t)) ts ->
  cancel_lines ts = Ok (tags_text ((fun t => MTag (45 :: t) None None) <$> ts)).
Proof.
  induction 1 as [|t ts Ht _ IH]; [done|]. cbn [cancel_lines].
  rewrite fmt_F_enc, bind_Ok, IH, bind_Ok by (exact (ctext_app_r [45] t Ht)). unfold tags_text.
  rewrite fmap_cons, concat_cons. done.
Qed.

Lemma branch_lines_text b bg ts : branch_ok b bg ts -> branch_lines b bg ts = Ok (tags_text (branch_tags b bg ts)).
Proof.
  intros [Hb Hc Ht _]. unfold branch_lines, branch_tags. destruct b as [[|x b]|]; try done.
  pose proof (ctext_app_r _ _ (Hb _ eq_refl)) as Hb'.
  assert (match bg with Some ((_ :: _) as c) => e ← fmt_F c; Ok (card_line 84 [cstr "*bgcolor"; [42]; e]) | _ => Ok [] end =
    Ok (tags_text (match bg with Some ((_ :: _) as c) => [MTag (cstr "*bgcolor") None (Some c)] | _ => [] end))) as ->.
  { destruct bg as [[|y c]|]; try done. rewrite fmt_F_enc, bind_Ok by (by apply Hc). unfold tags_text. simpl. by rewrite app_nil_r. }
  rewrite bind_Ok, fmt_F_enc, bind_Ok by done.
  rewrite cancel_lines_text, bind_Ok by (eapply Forall_impl; [|exact Ht]; by intros t []).
  rewrite !tags_text_app. f_equal. f_equal. unfold tags_text at 2. cbn [fmap list_fmap concat]. rewrite app_nil_r, <- app_assoc. f_equal.
Qed.

Lemma branch_tags_good b bg ts : branch_ok b bg ts -> Forall tag_good (branch_tags b bg ts).
Proof.
  intros [Hb Hc Ht _]. unfold branch_tags. destruct b as [[|x b]|]; try constructor.
  pose proof (ctext_app_r _ _ (Hb _ eq_refl)) as Hb'.
  assert (forall z, Forall (fun c => 0 < c < 256) z -> Zlen z < 10 -> ctext_ok z) as Hlit by (intros z ? ?; split; [done|lia]).
  apply Forall_app. split; [|apply Forall_app; split].
  - destruct bg as [[|y c]|]; constructor; [|constructor]. split; try done; simpl; [|tauto|].
    + apply Hlit; [|done]. by repeat constructor.
    + intros v [= <-]. by split; [apply Hc|].
  - rewrite !list.Forall_cons. split_and!; [| |done].
    + split; try done; simpl; [apply Hlit; [by repeat constructor|done]|tauto|]. by intros v [= <-].
    + split; try done; [by apply Hb|simpl; tauto].
  - rewrite Forall_fmap. eapply Forall_impl; [|exact Ht]. intros t [H1 H2]. split; try done; [simpl; tauto|].
    cbn [t_name drop]. destruct t as [|c0 t]; [done|]. injection H2 as -> _. done.
Qed.

Lemma branch_tags_sorted b bg ts : branch_ok b bg ts -> sorted (t_name <$> branch_tags b bg ts).
Proof.
  intros [_ _ Ht Ho]. unfold branch_tags. destruct b as [[|x b]|]; try constructor.
  assert (sorted (t_name <$> ((fun t => MTag (45 :: t) None None) <$> ts))) as Hts.
  { clear -Ho. rewrite <- list_fmap_compose. induction Ho as [|t ts Hs IH Ha]; [constructor|]. rewrite fmap_cons. constructor; [done|].
    rewrite Forall_fmap. eapply Forall_impl; [|exact Ha]. intros u Hu. unfold str_lt, compose in *. cbn [t_name strcmp].
    by rewrite Z.ltb_irrefl. }
  assert (forall z, cget z 0 = 42 -> Forall (str_lt z) (t_name <$> ((fun t => MTag (45 :: t) None None) <$> ts))) as Hlt.
  { intros z Hz. rewrite <- list_fmap_compose, Forall_fmap. apply Forall_true. intros t. unfold str_lt, compose. cbn [t_name].
    destruct z as [|c z]; [done|]. change (c = 42) in Hz. subst c. done. }
  rewrite !fmap_app. assert (sorted ((t_name <$> [MTag (cstr "*branch") None (Some (x :: b)); MTag (cstr "*sym-" ++ x :: b) None None]) ++
    (t_name <$> ((fun t => MTag (45 :: t) None None) <$> ts)))) as Hs2.
  { cbn [fmap list_fmap app t_name]. constructor; [constructor; [done|by apply Hlt]|]. constructor; [done|by apply Hlt]. }
  destruct bg as [[|y c]|]; try exact Hs2. cbn [fmap list_fmap app t_name] in *. constructor; [exact Hs2|].
  constructor; [done|]. constructor; [done|by apply Hlt].
Qed.

(** The text before the Z card. *)
Definition checkin_text (c : checkin) : list Z :=
  card_line 67 [enc (comment_of (c_comment c))] ++ card_line 68 [c_date c] ++ files_text (c_files c) ++
  card_line 80 (c_parent c :: c_merges c) ++ card_line 82 [c_cksum c] ++
  tags_text (branch_tags (c_branch c) (c_bgcolor c) (c_cancelled c)) ++ card_line 85 [enc (c_user c)].

Section Trip.
Context {D : Type} `{DateOps D}.

Record checkin_ok (c : checkin) : Prop := {
  in_comment : ctext_ok (c_comment c);
  in_date : word_ok (c_date c) /\ is_zero (julianday (c_date c)) = false;
  in_files : Forall vfile_ok (c_files c);
  in_order_ : sorted (pathname <$> c_files c);
  in_parents : Forall (hex_ok UUID_SIZE) (c_parent c :: c_merges c);
  in_cksum : hex_ok 32 (c_cksum c);
  in_branch : branch_ok (c_branch c) (c_bgcolor c) (c_cancelled c);
  in_user : ctext_ok (c_user c);
  in_size : Zlen (checkin_text c) < 2^31
}.

Lemma comment_good z : ctext_ok z -> ctext_ok (comment_of z) /\ comment_of z <> [].
Proof.
  intros Hz. unfold comment_of. destruct (Z.eqb_spec (Zlen z) 0) as [E|E].
  - split; [|done]. split; [by repeat constructor|done].
  - split; [done|]. intros ->. done.
Qed.

Lemma write_checkin_text junk c : checkin_ok c -> write_checkin junk c = seal junk (checkin_text c).
Proof.
  intros [Hc Hd Hf Ho Hp Hk Hb Hu Hs]. unfold write_checkin, commit_manifest. fold (comment_of (c_comment c)).
  destruct (comment_good _ Hc) as [Hc' _].
  rewrite fmt_F_enc, bind_Ok, file_lines_text, bind_Ok, branch_lines_text, bind_Ok by done.
  unfold user_line. by rewrite fmt_F_enc, !bind_Ok by done.
Qed.

(** The manifest that the cards describe, but for the sizes of its arrays. *)
Definition checkin_read (c : checkin) (m : Manifest D) : Prop :=
  zComment m = Some (comment_of (c_comment c)) /\ rDate m = julianday (c_date c) /\
  items (aFile m) = file_of <$> c_files c /\ items (azParent m) = c_parent c :: c_merges c /\
  zRepoCksum m = Some (c_cksum c) /\
  items (aTag m) = branch_tags (c_branch c) (c_bgcolor c) (c_cancelled c) /\ zUser m = Some (user_of (c_user c)).

Lemma empty_slots_ok {A} : slots_ok (@no_slots A).
Proof. unfold slots_ok. simpl. lia. Qed.

Lemma checkin_reads c :
  checkin_ok c ->
  exists m, reads 0 (checkin_text c) 85 empty_manifest m /\ checkin_read c m /\ classify m true = Some CFTYPE_MANIFEST.
Proof.
  intros [Hc [Hd Hj] Hf Ho Hp Hk Hb Hu Hs]. destruct (comment_good _ Hc) as [Hc' Hn].
  assert (Zlen (c_date c) + 3 < 2^31) as Hdl.
  { unfold checkin_text in Hs. rewrite !length_app, !Nat2Z.inj_add, !line_length in Hs.
    cbn [concat length] in Hs. rewrite !app_nil_r in Hs. lia. }
  assert (41 * Zlen (c_parent c :: c_merges c) < 2^31 - 3) as Hpl.
  { unfold checkin_text in Hs. rewrite !length_app, !Nat2Z.inj_add in Hs. rewrite (hex_line_length 80) in Hs by done. lia. }
  destruct (read_files (c_files c) 68 (set_date (set_comment empty_manifest (Some (comment_of (c_comment c)))) (julianday (c_date c))))
    as (sf & qf & Rf & Hqf & Hsf & Hif); [lia|done|apply empty_slots_ok|done|].
  pose proof (branch_tags_good _ _ _ Hb) as Htg. pose proof (branch_tags_sorted _ _ _ Hb) as Hto.
  pose proof (foldl_grown 5 (c_parent c :: c_merges c) no_slots empty_slots_ok ltac:(lia)) as [_ Hip].
  set (m1 := set_files _ sf) in Rf.
  set (m2 := set_parents m1 (foldl (grown 5) (azParent m1) (c_parent c :: c_merges c))).
  destruct (read_tags (branch_tags (c_branch c) (c_bgcolor c) (c_cancelled c)) 82 (set_cksum m2 (Some (c_cksum c))))
    as (st & qt & Rt & Hqt & Hst & Hit); [lia|done|apply empty_slots_ok|done|].
  destruct (read_user (c_user c) qt (set_tags (set_cksum m2 (Some (c_cksum c))) st)) as (ut & Eu & Ru); [lia|done|done|].
  assert (ut = card_line 85 [enc (c_user c)]) as -> by (unfold user_line in Eu; rewrite fmt_F_enc, bind_Ok in Eu by done; congruence).
  eexists. split; [|split].
  - unfold checkin_text. repeat eapply cards_app; [| |exact Rf| | |exact Rt|exact Ru].
    + by apply read_comment.
    + apply read_date; try done. apply dzero_zero.
    + apply read_parents; [lia|done|apply empty_slots_ok|lia].
    + by apply read_cksum.
  - unfold checkin_read. cbn. by split_and!.
  - unfold classify. cbn. rewrite orb_true_r. by rewrite Hj.
Qed.

(** C26. The manifest of a check-in, as [commit_cmd] writes it, is accepted by
    [manifest_parse] as a manifest with the comment, the date, the files with their
    identifiers, permissions and prior names, the parents, the checksum, the tags of the
    new branch and the user that it was written from. *)
Theorem checkin_roundtrip (junk : list Z) (sum : incr) (c : checkin) :
  length junk = 64%nat -> length (inb (incrCtx sum)) = 64%nat -> checkin_ok c ->
  exists content m, write_checkin junk c = Ok content /\
    manifest_parse sum content = Ok (Some (CFTYPE_MANIFEST, m)) /\ checkin_read c m.
Proof.
  intros Hj Hi Hc. destruct (checkin_reads c Hc) as (m & Hr & Hm & Ht).
  destruct (sealed_parses sum junk (checkin_text c) 85 m) as (content & Es & Ep); try done; [apply Hc|].
  exists content, m. rewrite write_checkin_text by done. split_and!; [done| |done]. by rewrite Ep, Ht.
Qed.

(** ** Clusters *)

(** A cluster that is written is read back with its members. *)
Lemma cluster_roundtrip (junk : list Z) (sum : incr) nUncl us :
  length junk = 64%nat -> length (inb (incrCtx sum)) = 64%nat -> 100 <= nUncl ->
  Forall (hex_ok UUID_SIZE) us -> sorted us -> us <> [] -> Zlen us < 2^25 ->
  exists content m, create_cluster junk nUncl us = Ok (Some content) /\
    manifest_parse (D := D) sum content = Ok (Some (CFTYPE_CLUSTER, m)) /\ items (azCChild m) = us.
Proof.
  intros Hj Hi Hn Hu Hs Hne Hl. unfold create_cluster. rewrite (proj2 (Z.ltb_ge nUncl 100)) by done.
  destruct (read_members us 0 empty_manifest) as (s & q & Hr & Hq & Hok & Hit); [lia|done|apply empty_slots_ok|done|].
  destruct (sealed_parses sum junk (concat ((fun u => card_line 77 [u]) <$> us)) q (set_children empty_manifest s))
    as (content & Es & Ep); try done; [lia| |].
  { assert (Zlen (concat ((fun u => card_line 77 [u]) <$> us)) = 43 * Zlen us) as ->; [|lia].
    clear -Hu. induction Hu as [|u us Hu _ IH]; [done|]. rewrite concat_cons, length_app, Nat2Z.inj_add.
    rewrite hex_line_length by (by constructor). cbn [length] in *. lia. }
  rewrite Es, bind_Ok. exists content, (set_children empty_manifest s). split_and!; [done| |done]. rewrite Ep.
  unfold classify. cbn. assert (some s = true) as -> by (pose proof (some_iff s) as E; destruct (some s); [done|]; by rewrite Hit in E).
  destruct (positive dzero) eqn:E; [|done]. apply positive_nonzero in E. by rewrite dzero_zero in E.
Qed.

(** ** Wiki pages *)

(** The date of [datetime('now')]. *)
Definition now_ok (now d : list Z) : Prop := wr now 10 84 = Ok d /\ word_ok d /\ is_zero (julianday d) = false.

Record page_ok (zPageName : list Z) (zParent zLogin : option (list Z)) (zBody : list Z) : Prop := {
  page_name : ctext_ok zPageName /\ wiki_name_is_wellformed zPageName = true;
  page_parent : forall u, zParent = Some u -> hex_ok UUID_SIZE u;
  page_login : forall u, zLogin = Some u -> ctext_ok u;
  page_body : Forall (fun c => c <> 0) zBody /\ Zlen zBody < 2^29
}.

Lemma read_maybe_parent p prev (m : Manifest D) :
  prev <= 80 -> (forall u, p = Some u -> hex_ok UUID_SIZE u) -> slots_ok (azParent m) ->
  exists s q, reads prev (match p with Some u => card_line 80 [u] | None => [] end) q m (set_parents m s) /\ q <= 80 /\
    items s = items (azParent m) ++ option_list p.
Proof.
  intros Hp Hu Hs. destruct p as [u|].
  - exists (foldl (grown 5) (azParent m) [u]), 80. split_and!; [|lia|by apply foldl_grown].
    apply read_parents; [done| |done|simpl; lia]. constructor; [by apply Hu|constructor].
  - exists (azParent m), prev. rewrite app_nil_r. split_and!; try done. destruct m. apply cards_nil.
Qed.

Lemma read_maybe_user p prev (m : Manifest D) :
  prev <= 85 -> (forall u, p = Some u -> ctext_ok u) -> zUser m = None ->
  exists text q, match p with Some u => user_line u | None => Ok [] end = Ok text /\
    reads prev text q m (set_user m (user_of <$> p)) /\ q <= 85 /\ (p = None -> text = []) /\ Zlen text < 2^29 + 10.
Proof.
  intros Hp Hu Hm. destruct p as [u|].
  - destruct (read_user u prev m) as (text & E & Hr); [done|by apply Hu|done|]. exists text, 85. split_and!; try done.
    unfold user_line in E. rewrite fmt_F_enc, bind_Ok in E by (by apply Hu). injection E as <-.
    rewrite line_length. cbn [concat length]. rewrite app_nil_r. pose proof (enc_length u (Hu u eq_refl)). lia.
  - exists [], prev. split_and!; try done. cbn [fmap option_fmap option_map]. rewrite <- Hm. destruct m. apply cards_nil.
Qed.

(** C25. A wiki page, as [wikiedit_page] writes it, is accepted by [manifest_parse] as a
    wiki page with the title, the date, the artifact before it, the user and the text that
    it was written from, whatever characters but NUL the text has. *)
Theorem wiki_roundtrip (junk : list Z) (sum : incr) now d zPageName zParent zLogin zBody :
  length junk = 64%nat -> length (inb (incrCtx sum)) = 64%nat -> now_ok now d -> Zlen d < 2^20 ->
  page_ok zPageName zParent zLogin zBody ->
  exists content m, wiki_artifact junk now zPageName zParent zLogin zBody = Ok content /\
    manifest_parse sum content = Ok (Some (CFTYPE_WIKI, m)) /\
    zWikiTitle m = Some zPageName /\ rDate m = julianday d /\ items (azParent m) = option_list zParent /\
    zUser m = user_of <$> zLogin /\ zWiki m = Some zBody.
Proof.
  intros Hj Hi (Ed & Hd & Hz) Hdl [[Hn Hwf] Hp Hu [Hb Hl]]. unfold wiki_artifact, date_line. rewrite Ed, !bind_Ok.
  rewrite fmt_F_enc, bind_Ok by done.
  set (m1 := set_title (set_date empty_manifest (julianday d)) (Some zPageName)).
  destruct (read_maybe_parent zParent 76 m1) as (sp & qp & Rp & Hqp & Hip); [lia|done|apply empty_slots_ok|].
  destruct (read_maybe_user zLogin qp (set_parents m1 sp)) as (ut & qu & -> & Ru & Hqu & _ & Hul); [lia|done|done|].
  rewrite bind_Ok, c_string_id, strlen_no_nul by done.
  set (m3 := set_wiki (set_user (set_parents m1 sp) (user_of <$> zLogin)) (Some zBody)).
  set (p := match zParent with Some u => card_line 80 [u] | None => [] end) in *.
  assert (reads 0 (card_line 68 [d] ++ card_line 76 [enc zPageName] ++ p ++ ut ++ card_line 87 [dec (Zlen zBody)] ++ zBody ++ [10])
    87 empty_manifest m3) as Hr.
  { eapply cards_app; [apply read_date; try done; [lia|apply dzero_zero]|].
    eapply cards_app; [by apply read_title|]. eapply cards_app; [exact Rp|]. eapply cards_app; [exact Ru|].
    apply read_wiki; try done; lia. }
  destruct (sealed_parses sum junk _ 87 m3 Hj Hi Hr) as (content & Es & Ep); [lia| |].
  { assert (Zlen p <= 43) as Hpl.
    { unfold p. destruct zParent as [u|]; [|simpl; lia]. rewrite hex_line_length; [simpl; lia|]. constructor; [by apply Hp|constructor]. }
    pose proof (enc_length zPageName Hn). rewrite !length_app, !Nat2Z.inj_add, !line_length. cbn [concat length].
    rewrite !app_nil_r. unfold dec. rewrite (proj2 (Z.ltb_ge (Zlen zBody) 0)) by lia. pose proof (digits_length 20 (Zlen zBody)). lia. }
  rewrite Es. exists content, m3. split_and!; try done. rewrite Ep. unfold classify. cbn. by rewrite Hz.
Qed.

(** ** A new repository *)

(** The first check-in of a repository is read back: it has no files and no parents, and
    starts the trunk. *)
Lemma initial_roundtrip (junk : list Z) (sum sum2 : incr) zDate zLogin :
  length junk = 64%nat -> length (inb (incrCtx sum)) = 64%nat -> length (inb (incrCtx sum2)) = 64%nat ->
  word_ok zDate -> Zlen zDate < 2^20 -> is_zero (julianday zDate) = false -> ctext_ok zLogin ->
  exists content m, initial_manifest junk sum zDate zLogin = Ok content /\
    manifest_parse sum2 content = Ok (Some (CFTYPE_MANIFEST, m)) /\
    zComment m = Some (cstr "initial empty check-in") /\ rDate m = julianday zDate /\ items (aFile m) = [] /\
    items (azParent m) = [] /\ items (aTag m) = branch_tags (Some (cstr "trunk")) None [] /\ zUser m = Some (user_of zLogin).
Proof.
  intros Hj Hi Hi2 Hd Hdl Hz Hu. unfold initial_manifest.
  destruct (finish_state (md5sum_init sum) []) as (s' & -> & _); [by split|]. rewrite bind_Ok.
  set (r := DigestToBase16 (md5 [])). pose proof (digest_hex []) as Hh. fold r in Hh.
  assert (branch_ok (Some (cstr "trunk")) None []) as Hb.
  { split; [|done|constructor|constructor]. intros b [= <-]. split; [by repeat constructor|done]. }
  pose proof (branch_tags_good _ _ _ Hb) as Htg. pose proof (branch_tags_sorted _ _ _ Hb) as Hto.
  set (m1 := set_date (set_comment empty_manifest (Some (cstr "initial empty check-in"))) (julianday zDate)).
  set (m2 := set_cksum (set_parents m1 no_slots) (Some r)).
  destruct (read_tags (branch_tags (Some (cstr "trunk")) None []) 82 m2) as (st & qt & Rt & Hqt & Hst & Hit);
    [lia|done|apply empty_slots_ok|done|].
  destruct (read_user zLogin qt (set_tags m2 st)) as (ut & Eu & Ru); [lia|done|done|]. rewrite Eu, bind_Ok.
  assert (Zlen ut < 2^30) as Hul.
  { unfold user_line in Eu. rewrite fmt_F_enc, bind_Ok in Eu by done. injection Eu as <-.
    rewrite line_length. cbn [concat length]. rewrite app_nil_r. pose proof (enc_length zLogin Hu). lia. }
  assert (reads 0 (card_line 67 [enc (cstr "initial empty check-in")] ++ card_line 68 [zDate] ++ card_line 80 [] ++
    card_line 82 [r] ++ tags_text (branch_tags (Some (cstr "trunk")) None []) ++ ut) 85 empty_manifest
    (set_user (set_tags m2 st) (Some (user_of zLogin)))) as Hr.
  { eapply cards_app; [apply read_comment; [lia| |done|done]; split; [by repeat constructor|done]|].
    eapply cards_app; [apply read_date; try done; [lia|apply dzero_zero]|].
    eapply cards_app; [apply (read_parents []); [lia|constructor|apply empty_slots_ok|done]|].
    eapply cards_app; [by apply read_cksum|]. eapply cards_app; [exact Rt|exact Ru]. }
  destruct (sealed_parses sum2 junk _ 85 _ Hj Hi2 Hr) as (content & Es & Ep); [lia| |].
  { destruct Hh as [Hh _]. rewrite !length_app, !Nat2Z.inj_add, (line_length 68), (line_length 82). cbn [concat length].
    rewrite !app_nil_r. change (Zlen (card_line 67 _)) with 27. change (Zlen (card_line 80 [])) with 2.
    change (Zlen (tags_text _)) with 33. lia. }
  match type of Es with seal junk ?t = _ =>
    match goal with |- context [seal junk ?t2] => replace t2 with t end end.
  - rewrite Es. exists content, (set_user (set_tags m2 st) (Some (user_of zLogin))). split; [done|].
    split; [|by split_and!]. rewrite Ep. unfold classify. cbn. by rewrite Hz.
  - change (card_line 67 [enc (cstr "initial empty check-in")]) with (cstr "C initial\sempty\scheck-in" ++ [10]).
    change (tags_text (branch_tags (Some (cstr "trunk")) None []))
      with (card_line 84 [cstr "*branch"; [42]; cstr "trunk"] ++ card_line 84 [cstr "*sym-trunk"; [42]]).
    by rewrite <- !app_assoc.
Qed.
End Trip.

(** ** Examples *)

Definition test_hex (n : nat) (c : Z) : list Z := replicate n c.
Lemma test_hex_ok n c : byte c -> hex_char c = true -> hex_ok (Z.of_nat n) (test_hex n c).
Proof. intros Hb Hc. split; [unfold test_hex; by rewrite length_replicate|]. by apply Forall_replicate. Qed.

Definition test_checkin : checkin :=
  Checkin (cstr "two files") (cstr "2009-01-01T00:00:00")
    [VFile (cstr "a b") (test_hex 40 97) None false; VFile (cstr "c") (test_hex 40 98) (Some (cstr "old")) true]
    (test_hex 40 99) [test_hex 40 100] (test_hex 32 101) (Some (cstr "new")) (Some (cstr "#fff")) [cstr "sym-trunk"] (cstr "me").

Lemma test_checkin_ok : checkin_ok (D := Z) test_checkin.
Proof.
  assert (forall n c, byte c -> hex_char c = true -> hex_ok (Z.of_nat n) (test_hex n c)) as Hh by exact test_hex_ok.
  split.
  - split; [by repeat constructor|done].
  - split; [split; [done|by repeat constructor]|done].
  - apply Forall_cons; [|apply Forall_cons; [|constructor]].
    + split_and!; [split; [by repeat constructor|done]|done|by apply (Hh 40%nat)|done].
    + split_and!; [split; [by repeat constructor|done]|done|by apply (Hh 40%nat)|].
      intros o [= <-]. split; [split; [by repeat constructor|done]|done].
  - repeat constructor.
  - apply Forall_cons; [by apply (Hh 40%nat)|]. apply Forall_cons; [by apply (Hh 40%nat)|constructor].
  - by apply (Hh 32%nat).
  - split.
    + intros b [= <-]. split; [by repeat constructor|done].
    + intros b [= <-]. split; [by repeat constructor|done].
    + constructor; [|constructor]. split; [split; [by repeat constructor|done]|done].
    + repeat constructor.
  - split; [by repeat constructor|done].
  - vm_compute. reflexivity.
Qed.

Lemma checkin_roundtrip_witness :
  exists content (m : Manifest Z), write_checkin junk64 test_checkin = Ok content /\
    manifest_parse test_sum content = Ok (Some (CFTYPE_MANIFEST, m)) /\ checkin_read test_checkin m.
Proof. apply (checkin_roundtrip junk64 test_sum test_checkin); [reflexivity|reflexivity|apply test_checkin_ok]. Defined.

Lemma wiki_roundtrip_witness :
  exists content (m : Manifest Z),
    wiki_artifact junk64 (cstr "2009-01-01 00:00:00") (cstr "Home page") None (Some (cstr "me"))
      (cstr "Z some text") = Ok content /\
    manifest_parse test_sum content = Ok (Some (CFTYPE_WIKI, m)) /\
    zWikiTitle m = Some (cstr "Home page") /\ rDate m = 19 /\ items (azParent m) = [] /\
    zUser m = Some (cstr "me") /\ zWiki m = Some (cstr "Z some text").
Proof.
  destruct (wiki_roundtrip (D := Z) junk64 test_sum (cstr "2009-01-01 00:00:00") (cstr "2009-01-01T00:00:00") (cstr "Home page")
    None (Some (cstr "me")) (cstr "Z some text")) as (content & m & H1 & H2 & H3 & H4 & H5 & H6 & H7);
    [reflexivity|reflexivity| |reflexivity| |].
  - split; [reflexivity|]. split; [split; [discriminate|]|reflexivity].
    repeat (apply Forall_cons; [split; [discriminate|reflexivity]|]). constructor.
  - split.
    + split; [split; [repeat constructor|]|]; reflexivity.
    + discriminate.
    + intros u [= <-]. split; [repeat constructor|reflexivity].
    + split; [|reflexivity]. repeat (apply Forall_cons; [discriminate|]). constructor.
  - exists content, m. split; [exact H1|]. split; [exact H2|]. split; [exact H3|]. split; [rewrite H4; reflexivity|].
    split; [exact H5|]. split; [rewrite H6; reflexivity|exact H7].
Defined.

(** ** What is written and not read *)

Definition read_type (r : result (list Z)) : result (option cftype) :=
  content ← r; (o ← manifest_parse (D := Z) test_sum content; Ok (option_map fst o)).

(** The name of an uploaded file keeps the last separator of its path, and is then not a
    simple path: the artifact is not recognised, and the attachment lost. *)
Lemma attachment_of_path_rejected :
  let attach zName := attach_artifact junk64 (cstr "2009-01-01 00:00:00") zName (cstr "Home page") (test_hex 40 97) [] None in
  read_type (attach (cstr "notes.txt")) = Ok (Some CFTYPE_ATTACHMENT) /\
  read_type (attach (cstr "dir/notes.txt")) = Ok None.
Proof. vm_compute. split; reflexivity. Qed.

(** The fields of a ticket are written in the order of their names, but a text that is
    appended has a plus before the name, which sorts before every letter. *)
Lemma ticket_append_rejected :
  let change := TField (cstr "status") None (Some (cstr "open")) (cstr "new") in
  let append name := TField name (Some (cstr "more")) None [] in
  let ticket fs := ticket_artifact junk64 id (cstr "2009-01-01 00:00:00") fs (test_hex 40 97) None in
  read_type (ticket [append (cstr "comment"); change]) = Ok (Some CFTYPE_TICKET) /\
  read_type (ticket [change; append (cstr "title")]) = Ok None.
Proof. vm_compute. split; reflexivity. Qed.

(** A tag whose name is hexadecimal is written, the test being left out of the source, and
    rejected when it is read. *)
Lemma hexadecimal_tag_rejected :
  let tag name := tag_add_artifact junk64 (cstr "2009-01-01 00:00:00") [] name (test_hex 40 97) None 1 (cstr "me") in
  read_type (tag (cstr "release")) = Ok (Some CFTYPE_CONTROL) /\ read_type (tag (cstr "beef")) = Ok None.
Proof. vm_compute. split; reflexivity. Qed.
